(* ===== verification/_CoqProject ===== *)
-Q . S2P
Prelude.v
KState.v
KString.v
Spinlock.v
Printf.v
PrintfSpec.v
Kalloc.v
Vm.v
VmPte.v
VmTree.v
VmSpec.v
VmCopy.v
VmFork.v
VmFree.v
ProcSync.v
SyncSpec.v
LostWakeup.v
Bio.v
BioRing.v
BioSpec.v
BlockStore.v
Log.v
LogDisk.v
LogSpec.v
LogOps.v
FsTx.v
Fs.v
FsBlock.v
FsInode.v
FsFile.v
FsRw.v
FsWrite.v
FsPath.v
FsDir.v
Console.v
ConsoleSpec.v
File.v
PipeSpec.v
ProcLife.v
ProcSpec.v
ForkSpec.v
WaitSpec.v
ExitSpec.v
Syscall.v
SyscallSpec.v
Trap.v
TrapSpec.v
UserLib.v
UserMem.v
UserGrep.v
UserMalloc.v
UserMallocSpec.v
UserPrintf.v
UserUtil.v
UserUtilSpec.v
UserLsSpec.v
Sh.v
ShSpec.v
ShGrammar.v
ShRun.v
Mkfs.v
MkfsSpec.v
