(* ===== verification/Prelude.v ===== *)
(** xv6-on-k230: a verification library of the kernel, the tool that writes
    its disk image, the shell and the small user programs.

    The program is the xv6 teaching kernel on the K230 (RISC-V, Sv39 paging,
    a RAM disk): physical pages and page tables, processes with spin and
    sleep locks, a buffer cache under a write-ahead log under a file system,
    pipes, a console, system calls and traps.  The library translates the C
    code of src/kernel, of src/mkfs and of the programs of src/user (tests
    aside) function by function and proves what makes the components correct.

    * How the code is modelled

    All of the kernel's global data is one record, [kstate] (KState.v): the
    running hart, byte-addressed physical memory, the free list, the process,
    buffer, inode, file and pipe tables, the log, the console, the UART and
    the disk, with the disk writes recorded in order.  A C function is a
    Definition in the monad [M kstate] below, one per function, its loops as
    [forM], [forM_] and [whileM], so that every definition can be evaluated.
    The outcomes are a value, a panic with its message, [Hang] (a spin lock
    another hart holds, or a loop of the source that never ends), [UB] (a null
    or out-of-range access), and [Susp]: swtch to the scheduler, with the
    continuation the thread resumes with on whatever state the other threads
    have left.  In this monad kernel code runs on one hart until it suspends.
    Where the order of statements on different harts is the point, in the race
    of sleep with wakeup, the code is written as a thread ([thr], ProcSync.v):
    the sequence of its statements, of which the function of the monad is one
    run and LostWakeup.v takes all interleavings.  Integers are [Z] with the width written out
    ([u8] .. [u64], [s16], [s32]), pointers to table entries are indices.

    mkfs (Mkfs.v) is a program in the same monad over its own state, the image
    file as a list of blocks.  The shell's parser (Sh.v) has the position in
    the line as its state; runcmd and main (ShRun.v) are trees of system calls,
    which ShRun interprets with the descriptor allocation of the kernel and the
    descriptors kfork gives a child, those a reused slot still holds included.  The
    small programs (UserPrintf.v, UserUtil.v) run in a monad of their own, in
    which what the kernel answers (the files, how much a read or a write
    transfers, which calls fail) is a parameter.

    * Files and sources

    - Prelude: integers, little-endian bytes, arrays, the monad, automation.
    - KState: constants and structs (param.h, riscv.h, memlayout.h, fs.h,
      file.h, proc.h, buf.h, stat.h, fcntl.h), the state record.
    - KString: string.c.  Spinlock: spinlock.c, panic, myproc.
    - Printf, PrintfSpec: formatted output of uart.c.
    - Kalloc: kalloc.c, as a stack of pages threaded through memory.
    - Vm: vm.c.  VmPte, VmTree: entries and the page table as a tree in
      memory; VmSpec: walk and mappages; VmCopy: copyin and copyout; VmFork:
      uvmunmap and uvmcopy; VmFree: freewalk and uvmfree.
    - ProcSync: sched, sleep, wakeup, kill, scheduler of proc.c and
      sleeplock.c; SyncSpec: their theorems; LostWakeup: harts interleaved
      statement by statement, sleep against wakeup.
    - Bio: bio.c and ramdisk.c; BioRing: the LRU list; BioSpec: the cache
      invariant; BlockStore: the class [BlockStore], what the layers above may
      rely on, and the proof that bio.c implements it.
    - Log: log.c; LogDisk: commit and recovery as sequences of block writes;
      LogSpec, LogOps: log.c refines them, over any [BlockStore].
    - Fs: fs.c.  FsTx: the blocks as an operation inside a transaction sees
      them; FsBlock: the allocator; FsInode: the inode table and the disk
      inodes; FsFile: bmap; FsRw, FsWrite: readi and writei, over the
      interfaces [CopySink] and [CopySource] with instances for user memory
      and kernel objects; FsPath: paths; FsDir: directories.
    - Console, ConsoleSpec: the console and UART driver of uart.c.  File,
      PipeSpec: file.c and pipe.c.  ProcLife: process creation, exit, wait of proc.c, and
      exec.c; ProcSpec: page tables of processes and allocproc; ForkSpec,
      WaitSpec, ExitSpec: kfork, kwait and kexit.  Syscall, SyscallSpec:
      syscall.c, sysproc.c, sysfile.c.  Trap, TrapSpec: trap.c, plic.c, timer.c,
      start.c, main.c.
    - UserLib, UserMem: strings and memory routines of user/ulib.c.  UserGrep:
      user/grep.c.  UserMalloc, UserMallocSpec: user/umalloc.c.
    - UserPrintf: system calls as programs see them, user/printf.c.  UserUtil:
      cat, wc, ls, echo, rm, mkdir, ln, kill and main of grep.  UserUtilSpec: a
      logic for runs of these programs, and cat, wc and grep in it; UserLsSpec:
      ls, rm and mkdir.
    - Sh: the scanner and parser of user/sh.c; ShSpec: it returns on every
      line; ShGrammar: the grammar it implements; ShRun: runcmd and main.
    - Mkfs: mkfs/mkfs.c; MkfsSpec: the image it writes.

    * What the theorems show

    - Crash safety (LogOps): a commit interrupted after any of its block
      writes leaves a disk that recovers to all or none of the transaction;
      recovery is idempotent; begin_op reserves, log_write absorbs, end_op
      commits; a transaction of LOGBLOCKS blocks panics because NBUF is no
      larger.
    - The buffer cache refines an abstract block store (BlockStore).
    - The file system (FsBlock, FsInode, FsWrite, FsDir, FsPath): balloc and bfree
      maintain the bitmap and never hand out a block in use; an inode has one
      table entry and survives the round trip through its disk block; bmap,
      readi and writei implement a file as a sequence of bytes and leave other
      files alone; dirlookup and dirlink implement a directory as a map from
      names to inode numbers; paths are split as a reference does, and the path loop
      ends.
    - Memory (Kalloc, VmSpec, VmCopy, VmFork, KString): the allocator is a
      stack of pages; mappages of any number of pages installs exactly its
      entries; copyin and copyout implement flat user memory across pages and
      touch no other physical byte; uvmcopy copies the memory of a process or
      gives everything back, and panics at a hole in it; memmove with overlap.
    - Processes (ForkSpec, WaitSpec, ExitSpec): fork makes a child with the
      memory, registers, descriptors and directory of its parent, or fails
      with every page free again; exit leaves a zombie and gives its children
      to init; wait frees exactly the pages of the zombie it collects.  The
      pages of a process are tracked through the page table as a tree, down to
      the free list (VmFree, ProcSpec).
    - Synchronisation (Spinlock, SyncSpec, LostWakeup): locks nest and restore
      interrupts; sleep switches away with the process lock and comes back with
      the condition lock; no wakeup is lost and no hart deadlocks in any
      interleaving of sleep with the wakers of other harts; the guards of sched;
      sleep locks exclude.
    - The console (ConsoleSpec): the interrupt handler is a line editor over
      the circular buffer, reads take lines.
    - Pipes are queues of bytes whatever the 32-bit counters are (PipeSpec),
      also seen from the registers of a system call (SyscallSpec), with the
      writer that finds the pipe full or without readers; an ecall runs
      one system call and returns behind it, in user mode (TrapSpec).
    - printint prints a numeral of the number in its buffer; unknown
      conversions do not consume their argument (PrintfSpec).
    - mkfs writes an image that satisfies the invariants the kernel's file
      system relies on, with the host's files in it (MkfsSpec).
    - The shell (ShSpec, ShGrammar, ShRun): parsecmd ends on every line and
      leaves whole words; it parses a line to the command whose tokens the line
      has; a session forks, waits for and starts the programs of its commands
      with their standard input and output connected as the commands say, and
      no other descriptor but those a reused process slot still had.
    - The user allocator (UserMallocSpec): blocks in use are disjoint and keep
      their contents, the free list stays sorted and merged, whatever a
      program does with malloc up to 2^31 - 32 bytes, free and its own blocks;
      16 sizes near 2^32 wrap around to sbrk(0).
    - grep's match decides the meaning of patterns, and grep filters the lines
      of its input however they arrive (UserGrep).
    - The user programs (UserUtilSpec, UserLsSpec): cat, wc, grep and ls write
      exactly what their files call for, with numbers in decimal through
      printf, and the right message and status for files that are missing; rm
      and mkdir stop at the first failure.  memmove and strcpy of the user
      library with overlap (UserMem).

    * Bounds

    Loops whose count the source gives iterate over the list of their
    counters.  [whileM] carries fuel: the lengths of the data consumed
    (n + 1 for readi, writei, copies and pipes, where each round makes
    progress, as the theorems of functional correctness show by returning a
    value; length + 2 for paths, see namex_terminates), 64 digits for
    printint, and [WAKEUPS] = 2^12 for loops around sleep, whose rounds are
    separated by suspensions.  The log theorems hold for logs of up to 29
    blocks, the file-system theorems for transactions in which the buffers
    suffice (30 in all); a write may log six blocks for each block of data.
    The shell's parser is bounded by four calls for each byte of the line,
    which parsecmd_total shows to be enough.  The read loops of the user
    programs are bounded by the length of the input, as every read before its
    end returns a byte.  The loops of malloc and free go
    around the free list at most four times; the theorems on malloc suppose
    that a process stays below 2^36 bytes, where sizes fit into a uint, and
    that a program asks for at most 2^31 - 32 bytes at a time.  Counters that
    count live objects or processes (reference counts of buffers, inodes and
    files, nextpid) are unbounded integers, where the source has an int or a
    uint: the tables they count in are bounded, nextpid would need 2^31 forks.

    * Not modelled

    Assembly (entry.S, kernelvec.S, trampoline.S, swtch.S), except for what
    the switch means for the C code around it; stores to the PLIC's registers
    and the timer_m_mode_enable nobody calls; several harts running kernel
    code at the same time (a lock held elsewhere is [Hang]), except in
    LostWakeup.v; the test routines
    at the end of vm.c and proc.c; init.c and zombie.c of src/user, and the
    tests there (usertests, grind, forktest, logstress, stressfs, schedtest,
    dorphan, forphan).  exec, boot, the clock interrupt
    and the system calls on paths are definitions without theorems of their
    own; the functions of the file system below them have theirs. *)

From stdpp Require Import base gmap strings numbers list.
From Stdlib Require Import ZArith Lia FunctionalExtensionality.

#[export] Set Default Goal Selector "!".
#[global] Open Scope Z_scope.

(** keep arithmetic folded under [simpl] *)
#[global] Arguments Z.land : simpl never.
#[global] Arguments Z.lor : simpl never.
#[global] Arguments Z.lnot : simpl never.
#[global] Arguments Z.shiftl : simpl never.
#[global] Arguments Z.shiftr : simpl never.
#[global] Arguments Z.testbit : simpl never.
#[global] Arguments Z.pow : simpl never.
#[global] Arguments Z.modulo : simpl never.
#[global] Arguments Z.div : simpl never.
#[global] Arguments Z.of_nat : simpl never.
#[global] Arguments Z.to_nat : simpl never.
#[global] Arguments Z.add : simpl never.
#[global] Arguments Z.sub : simpl never.
#[global] Arguments Z.mul : simpl never.

(** * Machine integers

    A [w]-bit unsigned integer is a [Z] in [0 .. 2^w - 1]; the C conversions
    are written out.  [char] is unsigned on RISC-V. *)

Definition u8 (x : Z) : Z := x mod 2 ^ 8.
Definition u16 (x : Z) : Z := x mod 2 ^ 16.
Definition u32 (x : Z) : Z := x mod 2 ^ 32.
Definition u64 (x : Z) : Z := x mod 2 ^ 64.

(** conversion to a signed [w]-bit integer (two's complement) *)
Definition signed (w x : Z) : Z :=
  let y := x mod 2 ^ w in if y <? 2 ^ (w - 1) then y else y - 2 ^ w.
Definition s16 (x : Z) : Z := signed 16 x.
Definition s32 (x : Z) : Z := signed 32 x.

(** C truth values *)
Definition b2z (b : bool) : Z := if b then 1 else 0.
Definition nz (x : Z) : bool := negb (x =? 0).

Lemma nz_true x : nz x = true <-> x <> 0.
Proof. unfold nz. rewrite negb_true_iff, Z.eqb_neq. done. Qed.

Lemma nz_false x : nz x = false <-> x = 0.
Proof. unfold nz. rewrite negb_false_iff, Z.eqb_eq. done. Qed.

Lemma u64_small x : 0 <= x < 2 ^ 64 -> u64 x = x.
Proof. apply Z.mod_small. Qed.

Lemma u32_small x : 0 <= x < 2 ^ 32 -> u32 x = x.
Proof. apply Z.mod_small. Qed.

Lemma u8_small x : 0 <= x < 2 ^ 8 -> u8 x = x.
Proof. apply Z.mod_small. Qed.

Lemma u64_range x : 0 <= u64 x < 2 ^ 64.
Proof. apply Z.mod_pos_bound. lia. Qed.

Lemma u32_range x : 0 <= u32 x < 2 ^ 32.
Proof. apply Z.mod_pos_bound. lia. Qed.

Lemma u8_range x : 0 <= u8 x < 2 ^ 8.
Proof. apply Z.mod_pos_bound. lia. Qed.

Lemma signed_small w x :
  0 < w -> - 2 ^ (w - 1) <= x < 2 ^ (w - 1) -> signed w x = x.
Proof.
  intros Hw Hx. unfold signed.
  assert (H2 : 2 ^ w = 2 * 2 ^ (w - 1)).
  { rewrite <-Z.pow_succ_r by lia. f_equal. lia. }
  assert (Hp : 0 < 2 ^ (w - 1)) by (apply Z.pow_pos_nonneg; lia).
  destruct (Z.ltb_spec x 0) as [Hn|Hn].
  - replace (x mod 2 ^ w) with (x + 2 ^ w).
    + destruct (Z.ltb_spec (x + 2 ^ w) (2 ^ (w - 1))); lia.
    + apply Z.mod_unique with (-1); lia.
  - rewrite (Z.mod_small x) by lia.
    destruct (Z.ltb_spec x (2 ^ (w - 1))); lia.
Qed.

Lemma signed_range w x :
  0 < w -> - 2 ^ (w - 1) <= signed w x < 2 ^ (w - 1).
Proof.
  intros Hw. unfold signed.
  assert (H2 : 2 ^ w = 2 * 2 ^ (w - 1)).
  { rewrite <-Z.pow_succ_r by lia. f_equal. lia. }
  pose proof (Z.mod_pos_bound x (2 ^ w) ltac:(apply Z.pow_pos_nonneg; lia)).
  destruct (Z.ltb_spec (x mod 2 ^ w) (2 ^ (w - 1))); lia.
Qed.

(** * Bit arithmetic *)

(** A value below [2^n] has no bit at or above [n]. *)
Lemma testbit_high x n i : 0 <= x < 2 ^ n -> n <= i -> Z.testbit x i = false.
Proof.
  intros Hx Hi. destruct (Z.eq_dec x 0) as [->|Hz]; [apply Z.bits_0|].
  apply Z.bits_above_log2; [lia|].
  assert (Z.log2 x < n) by (apply Z.log2_lt_pow2; lia). lia.
Qed.

(** [bitwise] proves an equation between bit expressions bit by bit: it
    introduces the index [i], pushes [testbit] to the leaves and leaves the
    boolean cases. *)
Ltac bitwise :=
  apply Z.bits_inj'; let i := fresh "i" in let Hi := fresh "Hi" in
  intros i Hi;
  repeat first [ rewrite Z.land_spec | rewrite Z.lor_spec | rewrite Z.lxor_spec
               | rewrite Z.ldiff_spec | rewrite Z.lnot_spec by lia
               | rewrite Z.shiftl_spec by lia | rewrite Z.shiftr_spec by lia ].

(** * Little-endian byte strings *)

Fixpoint le_bytes (n : nat) (x : Z) : list Z :=
  match n with
  | O => []
  | S n' => x mod 256 :: le_bytes n' (x / 256)
  end.

Fixpoint le_val (l : list Z) : Z :=
  match l with
  | [] => 0
  | b :: l' => b + 256 * le_val l'
  end.

Definition byte_ok (b : Z) : Prop := 0 <= b < 256.

Lemma length_le_bytes n x : length (le_bytes n x) = n.
Proof. revert x; induction n as [|n IH]; intros x; simpl; [done|]. by rewrite IH. Qed.

Lemma le_val_bytes n x : le_val (le_bytes n x) = x mod 256 ^ Z.of_nat n.
Proof.
  revert x; induction n as [|n IH]; intros x.
  { simpl. by rewrite Z.mod_1_r. }
  cbn [le_bytes le_val]. rewrite IH, Nat2Z.inj_succ, Z.pow_succ_r by lia.
  rewrite Z.rem_mul_r; lia.
Qed.

Lemma le_val_bytes_small n x :
  0 <= x < 256 ^ Z.of_nat n -> le_val (le_bytes n x) = x.
Proof. intros Hx. rewrite le_val_bytes. by apply Z.mod_small. Qed.

Lemma le_bytes_ok n x : Forall byte_ok (le_bytes n x).
Proof.
  revert x; induction n as [|n IH]; intros x; simpl; constructor; [|apply IH].
  apply Z.mod_pos_bound. lia.
Qed.

Lemma le_val_range l :
  Forall byte_ok l -> 0 <= le_val l < 256 ^ Z.of_nat (length l).
Proof.
  induction 1 as [|b l Hb _ IH]; cbn [le_val length]; [lia|].
  rewrite Nat2Z.inj_succ, Z.pow_succ_r by lia. unfold byte_ok in Hb. lia.
Qed.

Lemma le_bytes_val l :
  Forall byte_ok l -> le_bytes (length l) (le_val l) = l.
Proof.
  induction 1 as [|b l Hb _ IH]; cbn [le_val length le_bytes]; [done|].
  unfold byte_ok in Hb.
  replace ((b + 256 * le_val l) mod 256) with b.
  2: { rewrite Z.mul_comm, Z_mod_plus_full. by rewrite Z.mod_small. }
  replace ((b + 256 * le_val l) / 256) with (le_val l).
  2: { rewrite Z.mul_comm, Z.div_add by lia. rewrite Z.div_small; lia. }
  by rewrite IH.
Qed.

(** * Arrays of bytes and words indexed by [Z] *)

Definition zget (l : list Z) (i : Z) : Z := default 0 (l !! Z.to_nat i).
Definition zput (l : list Z) (i x : Z) : list Z := <[Z.to_nat i := x]> l.

(** the [n] elements at offset [i], and their replacement *)
Definition slice {A} (i n : Z) (l : list A) : list A :=
  take (Z.to_nat n) (drop (Z.to_nat i) l).
Definition splice {A} (i : Z) (new l : list A) : list A :=
  take (Z.to_nat i) l ++ new ++ drop (Z.to_nat i + length new) l.

Lemma length_zput l i x : length (zput l i x) = length l.
Proof. apply length_insert. Qed.

Lemma zget_zput_eq l i x :
  0 <= i < Z.of_nat (length l) -> zget (zput l i x) i = x.
Proof.
  intros Hi. unfold zget, zput. rewrite list_lookup_insert_eq; [done|lia].
Qed.

Lemma zget_zput_ne l i j x : 0 <= i -> 0 <= j -> i <> j -> zget (zput l i x) j = zget l j.
Proof.
  intros Hi Hj Hne. unfold zget, zput. rewrite list_lookup_insert_ne; [done|lia].
Qed.

Lemma length_splice {A} i (new l : list A) :
  0 <= i -> i + Z.of_nat (length new) <= Z.of_nat (length l) ->
  length (splice i new l) = length l.
Proof.
  intros Hi Hl. unfold splice.
  rewrite !length_app, length_take, length_drop. lia.
Qed.

Lemma slice_splice_eq {A} i (new l : list A) :
  0 <= i -> i + Z.of_nat (length new) <= Z.of_nat (length l) ->
  slice i (Z.of_nat (length new)) (splice i new l) = new.
Proof.
  intros Hi Hl. unfold slice, splice.
  rewrite drop_app_length' by (rewrite length_take; lia).
  rewrite Nat2Z.id. by rewrite take_app_length.
Qed.

(** A slice outside the replaced window is unchanged. *)
Lemma slice_splice_ne {A} i j n (new l : list A) :
  0 <= i -> 0 <= j -> 0 <= n ->
  i + Z.of_nat (length new) <= Z.of_nat (length l) ->
  j + n <= i \/ i + Z.of_nat (length new) <= j ->
  slice j n (splice i new l) = slice j n l.
Proof.
  intros Hi Hj Hn Hl Hd. unfold slice. apply list_eq. intros k.
  destruct (decide (k < Z.to_nat n)%nat) as [Hk|Hk].
  2: { rewrite !lookup_take_ge by lia. done. }
  rewrite !lookup_take_lt, !lookup_drop by lia.
  unfold splice. destruct Hd as [Hd|Hd].
  - rewrite lookup_app_l by (rewrite length_take; lia).
    by rewrite lookup_take_lt by lia.
  - rewrite lookup_app_r by (rewrite length_take; lia).
    rewrite lookup_app_r by (rewrite length_take; lia).
    rewrite lookup_drop, length_take. f_equal. lia.
Qed.

Lemma length_slice {A} i n (l : list A) :
  0 <= i -> 0 <= n -> i + n <= Z.of_nat (length l) ->
  Z.of_nat (length (slice i n l)) = n.
Proof. intros. unfold slice. rewrite length_take, length_drop. lia. Qed.

(** Integer fields inside a byte array ([struct] members, [uint] tables). *)
Definition get16 (l : list Z) (off : Z) : Z := le_val (slice off 2 l).
Definition get32 (l : list Z) (off : Z) : Z := le_val (slice off 4 l).
Definition get64 (l : list Z) (off : Z) : Z := le_val (slice off 8 l).
Definition put16 (l : list Z) (off x : Z) : list Z := splice off (le_bytes 2 x) l.
Definition put32 (l : list Z) (off x : Z) : list Z := splice off (le_bytes 4 x) l.

Lemma get32_put32_eq l off x :
  0 <= off -> off + 4 <= Z.of_nat (length l) -> get32 (put32 l off x) off = u32 x.
Proof.
  intros Ho Hl. unfold get32, put32.
  pose proof (slice_splice_eq off (le_bytes 4 x) l) as H.
  rewrite length_le_bytes in H. change (Z.of_nat 4) with 4 in H.
  rewrite H by lia. apply le_val_bytes.
Qed.

Lemma get32_put32_ne l off off' x :
  0 <= off -> 0 <= off' -> off + 4 <= Z.of_nat (length l) ->
  off' + 4 <= off \/ off + 4 <= off' ->
  get32 (put32 l off x) off' = get32 l off'.
Proof.
  intros. unfold get32, put32. f_equal.
  apply slice_splice_ne; rewrite ?length_le_bytes; lia.
Qed.

Lemma length_put32 l off x :
  0 <= off -> off + 4 <= Z.of_nat (length l) -> length (put32 l off x) = length l.
Proof. intros. unfold put32. apply length_splice; rewrite ?length_le_bytes; lia. Qed.

(** * The kernel monad

    Kernel code runs as a state transformer with five outcomes: a value, a
    [panic], a loop that never ends (a spin lock another hart holds, the
    dead loops of the source), an access the C code leaves undefined (a null
    or out-of-range pointer), and a suspension: [swtch] to the scheduler,
    with the continuation the kernel thread resumes with the state the other
    threads have left.  [Fuel] is the value of a loop whose bound in the
    model ran out. *)

Inductive res (S A : Type) : Type :=
| Ok (a : A) (s : S)
| Panic (msg : string) (s : S)
| Hang (what : string) (s : S)
| UB (what : string) (s : S)
| Fuel
| Susp (s : S) (k : S -> res S A).
Arguments Ok {S A} a s.
Arguments Panic {S A} msg s.
Arguments Hang {S A} what s.
Arguments UB {S A} what s.
Arguments Fuel {S A}.
Arguments Susp {S A} s k.

Definition M (S A : Type) : Type := S -> res S A.

Fixpoint rbind {S A B} (r : res S A) (f : A -> M S B) : res S B :=
  match r with
  | Ok a s => f a s
  | Panic m s => Panic m s
  | Hang w s => Hang w s
  | UB w s => UB w s
  | Fuel => Fuel
  | Susp s k => Susp s (fun s' => rbind (k s') f)
  end.

Definition ret {S A} (a : A) : M S A := fun s => Ok a s.
Definition bind {S A B} (m : M S A) (f : A -> M S B) : M S B :=
  fun s => rbind (m s) f.
Definition gets {S A} (f : S -> A) : M S A := fun s => Ok (f s) s.
Definition modify {S} (f : S -> S) : M S unit := fun s => Ok tt (f s).
Definition ub {S A} (w : string) : M S A := fun s => UB w s.
Definition hang {S A} (w : string) : M S A := fun s => Hang w s.
Definition outoffuel {S A} : M S A := fun _ => Fuel.
Definition whenM {S} (b : bool) (m : M S unit) : M S unit :=
  if b then m else ret tt.
(** a pointer the C code dereferences *)
Definition deref {S A} (w : string) (o : option A) : M S A :=
  match o with Some a => ret a | None => ub w end.

Declare Scope kernel_scope.
Delimit Scope kernel_scope with kernel.
Notation "'let!' x ':=' m 'in' k" := (bind m (fun x => k))
  (at level 10, x name, m at level 99, k at level 200,
   format "'[v' 'let!'  x  ':='  m  'in' '/' k ']'") : kernel_scope.
Notation "'let!' ' p ':=' m 'in' k" := (bind m (fun p => k))
  (at level 10, p strict pattern, m at level 99, k at level 200) : kernel_scope.
Notation "m ';;' k" := (bind m (fun _ => k))
  (at level 100, k at level 200, right associativity) : kernel_scope.
#[global] Open Scope kernel_scope.

(** [for(x in l) body] where the body may leave the loop with a value
    ([break], [goto], [return]). *)
Fixpoint forM {S A B} (l : list A) (body : A -> M S (option B)) : M S (option B) :=
  match l with
  | [] => ret None
  | x :: l' =>
      let! r := body x in
      match r with Some b => ret (Some b) | None => forM l' body end
  end.

(** the same loop without exits *)
Fixpoint forM_ {S A} (l : list A) (body : A -> M S unit) : M S unit :=
  match l with
  | [] => ret tt
  | x :: l' => body x ;; forM_ l' body
  end.

(** [while]: the body maps the loop variables to their next value ([inl]) or
    leaves the loop ([inr]); [fuel] bounds the number of iterations. *)
Fixpoint whileM {S I R} (fuel : nat) (body : I -> M S (I + R)) (i : I) : M S R :=
  match fuel with
  | O => outoffuel
  | Datatypes.S fuel' =>
      let! r := body i in
      match r with inl i' => whileM fuel' body i' | inr x => ret x end
  end.

(** the loop counter [lo, lo+step, ..] of [n] iterations *)
Definition zseq (lo : Z) (n : nat) : list Z := map (fun k => lo + Z.of_nat k) (seq 0 n).

Lemma elem_of_zseq lo n x : x ∈ zseq lo n <-> lo <= x < lo + Z.of_nat n.
Proof.
  unfold zseq. rewrite list_elem_of_In, in_map_iff. split.
  - intros (k & <- & Hk). apply in_seq in Hk. lia.
  - intros Hx. exists (Z.to_nat (x - lo)). split; [lia|]. apply in_seq. lia.
Qed.

Lemma NoDup_zseq lo n : NoDup (zseq lo n).
Proof. unfold zseq. apply NoDup_fmap_2; [intros i j; lia|apply NoDup_seq]. Qed.

(** ** Laws of the monad *)

Lemma bind_ok {S A B} (m : M S A) (f : A -> M S B) s a s' :
  m s = Ok a s' -> bind m f s = f a s'.
Proof. intros H. unfold bind. by rewrite H. Qed.

Lemma bind_panic {S A B} (m : M S A) (f : A -> M S B) s msg s' :
  m s = Panic msg s' -> bind m f s = Panic msg s'.
Proof. intros H. unfold bind. by rewrite H. Qed.

Lemma bind_gets {S A B} (g : S -> A) (f : A -> M S B) s :
  bind (gets g) f s = f (g s) s.
Proof. done. Qed.

Lemma bind_modify {S B} (g : S -> S) (f : unit -> M S B) s :
  bind (modify g) f s = f tt (g s).
Proof. done. Qed.

Lemma bind_ret {S A B} (a : A) (f : A -> M S B) s : bind (ret a) f s = f a s.
Proof. done. Qed.

(** A result of a [bind] that is a value comes from values on both sides. *)
Lemma rbind_assoc {S A B C} (r : res S A) (f : A -> M S B) (g : B -> M S C) :
  rbind (rbind r f) g = rbind r (fun a s => rbind (f a s) g).
Proof.
  induction r as [| | | | |s k IH]; cbn [rbind]; try done. f_equal. apply functional_extensionality. intros s'. apply IH.
Qed.

Lemma bind_assoc {S A B C} (m : M S A) (f : A -> M S B) (g : B -> M S C) :
  bind (bind m f) g = bind m (fun a => bind (f a) g).
Proof. apply functional_extensionality. intros s. apply rbind_assoc. Qed.

Lemma bind_ok_inv {S A B} (m : M S A) (f : A -> M S B) s b s' :
  bind m f s = Ok b s' -> exists a s1, m s = Ok a s1 /\ f a s1 = Ok b s'.
Proof.
  unfold bind. destruct (m s); simpl; try discriminate. eauto.
Qed.

Lemma forM_cons_none {S A B} (body : A -> M S (option B)) x l s s' :
  body x s = Ok None s' -> forM (x :: l) body s = forM l body s'.
Proof. intros H. cbn [forM]. erewrite bind_ok by exact H. done. Qed.

Lemma forM_cons_some {S A B} (body : A -> M S (option B)) x l s b s' :
  body x s = Ok (Some b) s' -> forM (x :: l) body s = Ok (Some b) s'.
Proof. intros H. cbn [forM]. erewrite bind_ok by exact H. done. Qed.

Lemma whileM_step {S I R} fuel (body : I -> M S (I + R)) i i' s s' :
  body i s = Ok (inl i') s' ->
  whileM (Datatypes.S fuel) body i s = whileM fuel body i' s'.
Proof. intros H. cbn [whileM]. erewrite bind_ok by exact H. done. Qed.

Lemma whileM_stop {S I R} fuel (body : I -> M S (I + R)) i (x : R) s s' :
  body i s = Ok (inr x) s' -> whileM (Datatypes.S fuel) body i s = Ok x s'.
Proof. intros H. cbn [whileM]. erewrite bind_ok by exact H. done. Qed.

(** * Automation *)

Create HintDb kernel discriminated.

(** [mstep]: run the next monadic operation whose equation is in the goal. *)
Ltac mstep :=
  lazymatch goal with
  | |- context [bind (gets _) _ _] => rewrite bind_gets
  | |- context [bind (modify _) _ _] => rewrite bind_modify
  | |- context [bind (ret _) _ _] => rewrite bind_ret
  | |- _ => erewrite bind_ok by eauto with kernel nocore
  end.
(** [mrun H]: run the next operation with its equation [H]. *)
Tactic Notation "mrun" uconstr(H) :=
  erewrite bind_ok by (eapply H; eauto with kernel).

(** split a hypothesis [bind m f s = Ok b s'] *)
Ltac minv H :=
  let a := fresh "a" in let s := fresh "s" in let H1 := fresh "H" in
  apply bind_ok_inv in H; destruct H as (a & s & H1 & H).

#[export] Hint Rewrite @length_le_bytes length_zput : klen.
