(* ===== verification/KState.v ===== *)
(** The data of the kernel: constants of param.h, memlayout.h, riscv.h, fs.h,
    stat.h, fcntl.h and uart.c, the structs of proc.h, buf.h, file.h, log.c,
    pipe.c and uart.c, and the record of the kernel's global state that every
    operation of the library transforms. *)

From stdpp Require Import base gmap strings numbers countable list.
From S2P Require Import Prelude.

(** * Constants *)

(** param.h *)
Definition NPROC : Z := 64.
Definition NCPU : Z := 2.
Definition NOFILE : Z := 16.
Definition NFILE : Z := 100.
Definition NINODE : Z := 50.
Definition NDEV : Z := 10.
Definition ROOTDEV : Z := 1.
Definition MAXARG : Z := 32.
Definition MAXOPBLOCKS : Z := 10.
Definition LOGBLOCKS : Z := MAXOPBLOCKS * 3.
Definition NBUF : Z := MAXOPBLOCKS * 3.
Definition FSSIZE : Z := 2000.
Definition MAXPATH : Z := 128.
Definition USERSTACK : Z := 1.

(** riscv.h, memlayout.h *)
Definition PGSIZE : Z := 4096.
Definition PGSHIFT : Z := 12.
Definition KERNBASE : Z := 0x00200000.
Definition PHYSTOP : Z := KERNBASE + 128 * 1024 * 1024.
Definition UART0 : Z := 0x91400000.
Definition VIRTIO0_IRQ : Z := 1.
Definition UART0_IRQ : Z := 16.
Definition PLIC : Z := 0x0f00000000.
Definition MAXVA : Z := Z.shiftl 1 (9 + 9 + 9 + 12 - 1).
Definition TRAMPOLINE : Z := MAXVA - PGSIZE.
Definition TRAPFRAME : Z := TRAMPOLINE - PGSIZE.
Definition KSTACK (p : Z) : Z := TRAMPOLINE - (p + 1) * 2 * PGSIZE.

Definition SSTATUS_SPP : Z := Z.shiftl 1 8.
Definition SSTATUS_SPIE : Z := Z.shiftl 1 5.
Definition SSTATUS_SIE : Z := Z.shiftl 1 1.

Definition PTE_V : Z := Z.shiftl 1 0.
Definition PTE_R : Z := Z.shiftl 1 1.
Definition PTE_W : Z := Z.shiftl 1 2.
Definition PTE_X : Z := Z.shiftl 1 3.
Definition PTE_U : Z := Z.shiftl 1 4.
Definition PTE_A : Z := Z.shiftl 1 6.
Definition PTE_D : Z := Z.shiftl 1 7.
Definition PTE_THEAD_MAEE : Z :=
  Z.lor (Z.lor (Z.shiftl 1 62) (Z.shiftl 1 61)) (Z.shiftl 1 60).
Definition PTE_THEAD_SO : Z := Z.shiftl 1 63.
Definition PTE_IO : Z := Z.lor (Z.lor PTE_R PTE_W) PTE_THEAD_SO.

(** [a & ~(PGSIZE-1)] and [(sz+PGSIZE-1) & ~(PGSIZE-1)] on [uint64] *)
Definition PGROUNDDOWN (a : Z) : Z := Z.land (u64 a) (Z.lnot (PGSIZE - 1)).
Definition PGROUNDUP (sz : Z) : Z := Z.land (u64 (sz + PGSIZE - 1)) (Z.lnot (PGSIZE - 1)).

Definition PA2PTE (pa : Z) : Z := u64 (Z.shiftl (Z.shiftr (u64 pa) 12) 10).
Definition PTE2PA (pte : Z) : Z :=
  Z.land (u64 (Z.shiftl (Z.shiftr pte 10) 12)) 0x00FFFFFFFFFFFF00.
Definition PTE_FLAGS (pte : Z) : Z := Z.land pte 0x3FF.
Definition PXMASK : Z := 0x1FF.
Definition PXSHIFT (level : Z) : Z := PGSHIFT + 9 * level.
Definition PX (level va : Z) : Z := Z.land (Z.shiftr (u64 va) (PXSHIFT level)) PXMASK.
Definition SATP_SV39 : Z := Z.shiftl 8 60.
Definition MAKE_SATP (pagetable : Z) : Z := Z.lor SATP_SV39 (Z.shiftr (u64 pagetable) 12).

(** fs.h, stat.h, fcntl.h *)
Definition ROOTINO : Z := 1.
Definition BSIZE : Z := 1024.
Definition FSMAGIC : Z := 0x10203040.
Definition NDIRECT : Z := 12.
Definition NINDIRECT : Z := BSIZE / 4.
Definition MAXFILE : Z := NDIRECT + NINDIRECT.
Definition SIZEOF_DINODE : Z := 64.
Definition IPB : Z := BSIZE / SIZEOF_DINODE.
Definition BPB : Z := BSIZE * 8.
Definition DIRSIZ : Z := 14.
Definition SIZEOF_DIRENT : Z := 16.
Definition T_DIR : Z := 1.
Definition T_FILE : Z := 2.
Definition T_DEVICE : Z := 3.
Definition O_RDONLY : Z := 0x000.
Definition O_WRONLY : Z := 0x001.
Definition O_RDWR : Z := 0x002.
Definition O_CREATE : Z := 0x200.
Definition O_TRUNC : Z := 0x400.

Definition PIPESIZE : Z := 512.
Definition INPUT_BUF_SIZE : Z := 128.
Definition CONSOLE : Z := 1.

(** * Identities of locks and sleep channels

    A C pointer to a lock or a sleep channel is compared only for equality;
    the model names each of them. *)

Inductive sleeplock_id := SLBuf (i : nat) | SLInode (i : nat).

Inductive lockid :=
| LKmem | LPid | LWait | LBcache | LItable | LFtable | LLog | LTicks
| LCons | LUartTx | LPr
| LProc (i : nat) | LSleep (sl : sleeplock_id) | LPipe (pa : Z).

Inductive chan :=
| ChNull | ChLog | ChTicks | ChCons | ChUart
| ChProc (i : nat) | ChSleep (sl : sleeplock_id)
| ChPipeR (pa : Z) | ChPipeW (pa : Z).

#[export] Instance sleeplock_id_eq : EqDecision sleeplock_id.
Proof. solve_decision. Defined.
#[export] Instance lockid_eq : EqDecision lockid.
Proof. solve_decision. Defined.
#[export] Instance chan_eq : EqDecision chan.
Proof. solve_decision. Defined.

Definition lockid_code (l : lockid) : Z * Z :=
  match l with
  | LKmem => (0, 0) | LPid => (1, 0) | LWait => (2, 0) | LBcache => (3, 0)
  | LItable => (4, 0) | LFtable => (5, 0) | LLog => (6, 0) | LTicks => (7, 0)
  | LCons => (8, 0) | LUartTx => (9, 0) | LPr => (10, 0)
  | LProc i => (11, Z.of_nat i)
  | LSleep (SLBuf i) => (12, Z.of_nat i)
  | LSleep (SLInode i) => (13, Z.of_nat i)
  | LPipe pa => (14, pa)
  end.

Definition lockid_decode (c : Z * Z) : option lockid :=
  match c with
  | (0, _) => Some LKmem | (1, _) => Some LPid | (2, _) => Some LWait
  | (3, _) => Some LBcache | (4, _) => Some LItable | (5, _) => Some LFtable
  | (6, _) => Some LLog | (7, _) => Some LTicks | (8, _) => Some LCons
  | (9, _) => Some LUartTx | (10, _) => Some LPr
  | (11, i) => Some (LProc (Z.to_nat i))
  | (12, i) => Some (LSleep (SLBuf (Z.to_nat i)))
  | (13, i) => Some (LSleep (SLInode (Z.to_nat i)))
  | (14, pa) => Some (LPipe pa)
  | _ => None
  end.

#[export] Instance lockid_countable : Countable lockid.
Proof.
  apply (inj_countable lockid_code lockid_decode).
  intros [| | | | | | | | | | |i|[i|i]|pa]; simpl; rewrite ?Nat2Z.id; done.
Defined.

(** * Structs *)

Inductive procstate := UNUSED | USED | SLEEPING | RUNNABLE | RUNNING | ZOMBIE.
#[export] Instance procstate_eq : EqDecision procstate.
Proof. solve_decision. Defined.

(** saved registers for kernel context switches *)
Record context := mkcontext {
  ctx_ra : Z; ctx_sp : Z;
  ctx_s : list Z  (* s0 .. s11 *)
}.

(** [struct proc]; the lock is the entry [LProc i] of the lock table.  A
    pointer into [proc], [ftable.file] or [itable.inode] is the index of the
    element, the null pointer is [None]. *)
Record proc := mkproc {
  p_state : procstate;
  p_chan : chan;
  p_killed : Z;
  p_xstate : Z;
  p_pid : Z;
  p_parent : option nat;
  p_kstack : Z;
  p_sz : Z;
  p_pagetable : Z;
  p_trapframe : Z;
  p_context : context;
  p_ofile : list (option nat);
  p_cwd : option nat;
  p_name : list Z
}.

(** [struct sleeplock]; the protecting spin lock is [LSleep _]. *)
Record sleeplock := mksleeplock { sl_locked : Z; sl_pid : Z }.

(** [struct buf]; [prev] and [next] are indices into [bcache.buf], with
    [NBUF] the list head. *)
Record buf := mkbuf {
  b_valid : Z;
  b_dev : Z;
  b_blockno : Z;
  b_lock : sleeplock;
  b_refcnt : Z;
  b_prev : nat;
  b_next : nat;
  b_data : list Z
}.

(** [struct log] with its [struct logheader] *)
Record log := mklog {
  l_start : Z;
  l_outstanding : Z;
  l_committing : Z;
  l_dev : Z;
  l_n : Z;
  l_block : list Z
}.

Record superblock := mksb {
  sb_magic : Z; sb_size : Z; sb_nblocks : Z; sb_ninodes : Z;
  sb_nlog : Z; sb_logstart : Z; sb_inodestart : Z; sb_bmapstart : Z
}.

(** in-memory [struct inode] *)
Record inode := mkinode {
  i_dev : Z; i_inum : Z; i_ref : Z;
  i_lock : sleeplock;
  i_valid : Z;
  i_type : Z; i_major : Z; i_minor : Z; i_nlink : Z;
  i_size : Z;
  i_addrs : list Z
}.

Inductive fdtype := FD_NONE | FD_PIPE | FD_INODE | FD_DEVICE.
#[export] Instance fdtype_eq : EqDecision fdtype.
Proof. solve_decision. Defined.

Record file := mkfile {
  f_type : fdtype;
  f_ref : Z;
  f_readable : Z;
  f_writable : Z;
  f_pipe : Z;
  f_ip : option nat;
  f_off : Z;
  f_major : Z
}.

(** [struct pipe]; the lock is [LPipe] of the page the pipe lives in. *)
Record pipe := mkpipe {
  pi_data : list Z;
  pi_nread : Z;
  pi_nwrite : Z;
  pi_readopen : Z;
  pi_writeopen : Z
}.

(** the console's input buffer *)
Record console := mkconsole { c_buf : list Z; c_r : Z; c_w : Z; c_e : Z }.

(** The UART: the bytes written to THR so far, the bytes waiting in the
    receive FIFO, the transmitter-idle bit of LSR, and the driver's
    [uart_tx_busy], [panicking] and [panicked]. *)
Record uart := mkuart {
  u_out : list Z;
  u_rx : list Z;
  u_tx_idle : bool;
  u_tx_busy : Z;
  u_panicking : Z;
  u_panicked : Z
}.

(** This hart: its id ([tp]), its [struct cpu], [sstatus], and the spin
    locks that are held, each with the hart that holds it. *)
Record hart := mkhart {
  h_id : Z;
  h_proc : option nat;
  h_noff : Z;
  h_intena : Z;
  h_sstatus : Z;
  h_locks : gmap lockid Z
}.

(** the supervisor registers the trap code reads and writes *)
Record csrs := mkcsrs {
  r_stvec : Z; r_sepc : Z; r_scause : Z; r_stval : Z; r_satp : Z;
  r_sie : Z; r_time : Z; r_stimecmp : Z
}.

(** addresses the linker script and the assembly files define *)
Record image := mkimage {
  im_end : Z; im_etext : Z; im_trampoline : Z; im_uservec : Z; im_userret : Z;
  im_kernelvec : Z; im_usertrap : Z; im_forkret : Z
}.

(** * The state of the kernel *)

#[local] Set Primitive Projections.
Record kstate := mkK {
  k_hart : hart;
  k_csrs : csrs;
  k_img : image;
  k_mem : gmap Z Z;           (* physical memory, one byte per address *)
  k_freelist : Z;             (* kmem.freelist *)
  k_procs : list proc;
  k_nextpid : Z;
  k_initproc : option nat;
  k_ticks : Z;
  k_bufs : list buf;          (* bcache.buf, then bcache.head *)
  k_disk : list (list Z);     (* the RAM disk image, in blocks *)
  k_writes : list (nat * list Z); (* the block writes the disk has received, oldest first *)
  k_log : log;
  k_sb : superblock;
  k_itable : list inode;
  k_ftable : list file;
  k_pipes : gmap Z pipe;
  k_cons : console;
  k_uart : uart;
  k_kpgtbl : Z;               (* kernel_pagetable *)
  k_first : Z                 (* forkret's static first *)
}.
#[local] Unset Primitive Projections.

Abbreviation K := (M kstate).

(** ** Field updates *)

Definition set_hart (f : hart -> hart) (s : kstate) : kstate :=
  mkK
    (f (k_hart s)) (k_csrs s) (k_img s) (k_mem s) (k_freelist s) (k_procs s)
    (k_nextpid s) (k_initproc s) (k_ticks s) (k_bufs s) (k_disk s) (k_writes s) (k_log s)
    (k_sb s) (k_itable s) (k_ftable s) (k_pipes s) (k_cons s) (k_uart s)
    (k_kpgtbl s) (k_first s).
Definition set_csrs (f : csrs -> csrs) (s : kstate) : kstate :=
  mkK
    (k_hart s) (f (k_csrs s)) (k_img s) (k_mem s) (k_freelist s) (k_procs s)
    (k_nextpid s) (k_initproc s) (k_ticks s) (k_bufs s) (k_disk s) (k_writes s) (k_log s)
    (k_sb s) (k_itable s) (k_ftable s) (k_pipes s) (k_cons s) (k_uart s)
    (k_kpgtbl s) (k_first s).
Definition set_mem (f : (gmap Z Z) -> (gmap Z Z)) (s : kstate) : kstate :=
  mkK
    (k_hart s) (k_csrs s) (k_img s) (f (k_mem s)) (k_freelist s) (k_procs s)
    (k_nextpid s) (k_initproc s) (k_ticks s) (k_bufs s) (k_disk s) (k_writes s) (k_log s)
    (k_sb s) (k_itable s) (k_ftable s) (k_pipes s) (k_cons s) (k_uart s)
    (k_kpgtbl s) (k_first s).
Definition set_freelist (f : Z -> Z) (s : kstate) : kstate :=
  mkK
    (k_hart s) (k_csrs s) (k_img s) (k_mem s) (f (k_freelist s)) (k_procs s)
    (k_nextpid s) (k_initproc s) (k_ticks s) (k_bufs s) (k_disk s) (k_writes s) (k_log s)
    (k_sb s) (k_itable s) (k_ftable s) (k_pipes s) (k_cons s) (k_uart s)
    (k_kpgtbl s) (k_first s).
Definition set_procs (f : (list proc) -> (list proc)) (s : kstate) : kstate :=
  mkK
    (k_hart s) (k_csrs s) (k_img s) (k_mem s) (k_freelist s) (f (k_procs s))
    (k_nextpid s) (k_initproc s) (k_ticks s) (k_bufs s) (k_disk s) (k_writes s) (k_log s)
    (k_sb s) (k_itable s) (k_ftable s) (k_pipes s) (k_cons s) (k_uart s)
    (k_kpgtbl s) (k_first s).
Definition set_nextpid (f : Z -> Z) (s : kstate) : kstate :=
  mkK
    (k_hart s) (k_csrs s) (k_img s) (k_mem s) (k_freelist s) (k_procs s)
    (f (k_nextpid s)) (k_initproc s) (k_ticks s) (k_bufs s) (k_disk s) (k_writes s)
    (k_log s) (k_sb s) (k_itable s) (k_ftable s) (k_pipes s) (k_cons s)
    (k_uart s) (k_kpgtbl s) (k_first s).
Definition set_initproc (f : (option nat) -> (option nat)) (s : kstate) : kstate :=
  mkK
    (k_hart s) (k_csrs s) (k_img s) (k_mem s) (k_freelist s) (k_procs s)
    (k_nextpid s) (f (k_initproc s)) (k_ticks s) (k_bufs s) (k_disk s) (k_writes s)
    (k_log s) (k_sb s) (k_itable s) (k_ftable s) (k_pipes s) (k_cons s)
    (k_uart s) (k_kpgtbl s) (k_first s).
Definition set_ticks (f : Z -> Z) (s : kstate) : kstate :=
  mkK
    (k_hart s) (k_csrs s) (k_img s) (k_mem s) (k_freelist s) (k_procs s)
    (k_nextpid s) (k_initproc s) (f (k_ticks s)) (k_bufs s) (k_disk s) (k_writes s)
    (k_log s) (k_sb s) (k_itable s) (k_ftable s) (k_pipes s) (k_cons s)
    (k_uart s) (k_kpgtbl s) (k_first s).
Definition set_bufs (f : (list buf) -> (list buf)) (s : kstate) : kstate :=
  mkK
    (k_hart s) (k_csrs s) (k_img s) (k_mem s) (k_freelist s) (k_procs s)
    (k_nextpid s) (k_initproc s) (k_ticks s) (f (k_bufs s)) (k_disk s) (k_writes s)
    (k_log s) (k_sb s) (k_itable s) (k_ftable s) (k_pipes s) (k_cons s)
    (k_uart s) (k_kpgtbl s) (k_first s).
Definition set_disk (f : (list (list Z)) -> (list (list Z))) (s : kstate) : kstate :=
  mkK
    (k_hart s) (k_csrs s) (k_img s) (k_mem s) (k_freelist s) (k_procs s)
    (k_nextpid s) (k_initproc s) (k_ticks s) (k_bufs s) (f (k_disk s)) (k_writes s)
    (k_log s) (k_sb s) (k_itable s) (k_ftable s) (k_pipes s) (k_cons s)
    (k_uart s) (k_kpgtbl s) (k_first s).
Definition set_writes (f : list (nat * list Z) -> list (nat * list Z)) (s : kstate) : kstate :=
  mkK
    (k_hart s) (k_csrs s) (k_img s) (k_mem s) (k_freelist s) (k_procs s)
    (k_nextpid s) (k_initproc s) (k_ticks s) (k_bufs s) (k_disk s) (f (k_writes s))
    (k_log s) (k_sb s) (k_itable s) (k_ftable s) (k_pipes s) (k_cons s)
    (k_uart s) (k_kpgtbl s) (k_first s).
Definition set_log (f : log -> log) (s : kstate) : kstate :=
  mkK
    (k_hart s) (k_csrs s) (k_img s) (k_mem s) (k_freelist s) (k_procs s)
    (k_nextpid s) (k_initproc s) (k_ticks s) (k_bufs s) (k_disk s) (k_writes s)
    (f (k_log s)) (k_sb s) (k_itable s) (k_ftable s) (k_pipes s) (k_cons s)
    (k_uart s) (k_kpgtbl s) (k_first s).
Definition set_sb (f : superblock -> superblock) (s : kstate) : kstate :=
  mkK
    (k_hart s) (k_csrs s) (k_img s) (k_mem s) (k_freelist s) (k_procs s)
    (k_nextpid s) (k_initproc s) (k_ticks s) (k_bufs s) (k_disk s) (k_writes s) (k_log s)
    (f (k_sb s)) (k_itable s) (k_ftable s) (k_pipes s) (k_cons s) (k_uart s)
    (k_kpgtbl s) (k_first s).
Definition set_itable (f : (list inode) -> (list inode)) (s : kstate) : kstate :=
  mkK
    (k_hart s) (k_csrs s) (k_img s) (k_mem s) (k_freelist s) (k_procs s)
    (k_nextpid s) (k_initproc s) (k_ticks s) (k_bufs s) (k_disk s) (k_writes s) (k_log s)
    (k_sb s) (f (k_itable s)) (k_ftable s) (k_pipes s) (k_cons s) (k_uart s)
    (k_kpgtbl s) (k_first s).
Definition set_ftable (f : (list file) -> (list file)) (s : kstate) : kstate :=
  mkK
    (k_hart s) (k_csrs s) (k_img s) (k_mem s) (k_freelist s) (k_procs s)
    (k_nextpid s) (k_initproc s) (k_ticks s) (k_bufs s) (k_disk s) (k_writes s) (k_log s)
    (k_sb s) (k_itable s) (f (k_ftable s)) (k_pipes s) (k_cons s) (k_uart s)
    (k_kpgtbl s) (k_first s).
Definition set_pipes (f : (gmap Z pipe) -> (gmap Z pipe)) (s : kstate) : kstate :=
  mkK
    (k_hart s) (k_csrs s) (k_img s) (k_mem s) (k_freelist s) (k_procs s)
    (k_nextpid s) (k_initproc s) (k_ticks s) (k_bufs s) (k_disk s) (k_writes s) (k_log s)
    (k_sb s) (k_itable s) (k_ftable s) (f (k_pipes s)) (k_cons s) (k_uart s)
    (k_kpgtbl s) (k_first s).
Definition set_cons (f : console -> console) (s : kstate) : kstate :=
  mkK
    (k_hart s) (k_csrs s) (k_img s) (k_mem s) (k_freelist s) (k_procs s)
    (k_nextpid s) (k_initproc s) (k_ticks s) (k_bufs s) (k_disk s) (k_writes s) (k_log s)
    (k_sb s) (k_itable s) (k_ftable s) (k_pipes s) (f (k_cons s)) (k_uart s)
    (k_kpgtbl s) (k_first s).
Definition set_uart (f : uart -> uart) (s : kstate) : kstate :=
  mkK
    (k_hart s) (k_csrs s) (k_img s) (k_mem s) (k_freelist s) (k_procs s)
    (k_nextpid s) (k_initproc s) (k_ticks s) (k_bufs s) (k_disk s) (k_writes s) (k_log s)
    (k_sb s) (k_itable s) (k_ftable s) (k_pipes s) (k_cons s) (f (k_uart s))
    (k_kpgtbl s) (k_first s).
Definition set_kpgtbl (f : Z -> Z) (s : kstate) : kstate :=
  mkK
    (k_hart s) (k_csrs s) (k_img s) (k_mem s) (k_freelist s) (k_procs s)
    (k_nextpid s) (k_initproc s) (k_ticks s) (k_bufs s) (k_disk s) (k_writes s) (k_log s)
    (k_sb s) (k_itable s) (k_ftable s) (k_pipes s) (k_cons s) (k_uart s)
    (f (k_kpgtbl s)) (k_first s).
Definition set_first (f : Z -> Z) (s : kstate) : kstate :=
  mkK
    (k_hart s) (k_csrs s) (k_img s) (k_mem s) (k_freelist s) (k_procs s)
    (k_nextpid s) (k_initproc s) (k_ticks s) (k_bufs s) (k_disk s) (k_writes s) (k_log s)
    (k_sb s) (k_itable s) (k_ftable s) (k_pipes s) (k_cons s) (k_uart s)
    (k_kpgtbl s) (f (k_first s)).
Definition h_set_proc (f : (option nat) -> (option nat)) (s : hart) : hart :=
  mkhart
    (h_id s) (f (h_proc s)) (h_noff s) (h_intena s) (h_sstatus s) (h_locks s).
Definition h_set_noff (f : Z -> Z) (s : hart) : hart :=
  mkhart
    (h_id s) (h_proc s) (f (h_noff s)) (h_intena s) (h_sstatus s) (h_locks s).
Definition h_set_intena (f : Z -> Z) (s : hart) : hart :=
  mkhart
    (h_id s) (h_proc s) (h_noff s) (f (h_intena s)) (h_sstatus s) (h_locks s).
Definition h_set_sstatus (f : Z -> Z) (s : hart) : hart :=
  mkhart
    (h_id s) (h_proc s) (h_noff s) (h_intena s) (f (h_sstatus s)) (h_locks s).
Definition h_set_locks (f : (gmap lockid Z) -> (gmap lockid Z)) (s : hart) : hart :=
  mkhart
    (h_id s) (h_proc s) (h_noff s) (h_intena s) (h_sstatus s) (f (h_locks s)).
Definition r_set_stvec (f : Z -> Z) (s : csrs) : csrs :=
  mkcsrs
    (f (r_stvec s)) (r_sepc s) (r_scause s) (r_stval s) (r_satp s) (r_sie s)
    (r_time s) (r_stimecmp s).
Definition r_set_sepc (f : Z -> Z) (s : csrs) : csrs :=
  mkcsrs
    (r_stvec s) (f (r_sepc s)) (r_scause s) (r_stval s) (r_satp s) (r_sie s)
    (r_time s) (r_stimecmp s).
Definition r_set_scause (f : Z -> Z) (s : csrs) : csrs :=
  mkcsrs
    (r_stvec s) (r_sepc s) (f (r_scause s)) (r_stval s) (r_satp s) (r_sie s)
    (r_time s) (r_stimecmp s).
Definition r_set_satp (f : Z -> Z) (s : csrs) : csrs :=
  mkcsrs
    (r_stvec s) (r_sepc s) (r_scause s) (r_stval s) (f (r_satp s)) (r_sie s)
    (r_time s) (r_stimecmp s).
Definition r_set_sie (f : Z -> Z) (s : csrs) : csrs :=
  mkcsrs
    (r_stvec s) (r_sepc s) (r_scause s) (r_stval s) (r_satp s) (f (r_sie s))
    (r_time s) (r_stimecmp s).
Definition r_set_stimecmp (f : Z -> Z) (s : csrs) : csrs :=
  mkcsrs
    (r_stvec s) (r_sepc s) (r_scause s) (r_stval s) (r_satp s) (r_sie s)
    (r_time s) (f (r_stimecmp s)).
Definition p_set_state (f : procstate -> procstate) (s : proc) : proc :=
  mkproc
    (f (p_state s)) (p_chan s) (p_killed s) (p_xstate s) (p_pid s)
    (p_parent s) (p_kstack s) (p_sz s) (p_pagetable s) (p_trapframe s)
    (p_context s) (p_ofile s) (p_cwd s) (p_name s).
Definition p_set_chan (f : chan -> chan) (s : proc) : proc :=
  mkproc
    (p_state s) (f (p_chan s)) (p_killed s) (p_xstate s) (p_pid s)
    (p_parent s) (p_kstack s) (p_sz s) (p_pagetable s) (p_trapframe s)
    (p_context s) (p_ofile s) (p_cwd s) (p_name s).
Definition p_set_killed (f : Z -> Z) (s : proc) : proc :=
  mkproc
    (p_state s) (p_chan s) (f (p_killed s)) (p_xstate s) (p_pid s)
    (p_parent s) (p_kstack s) (p_sz s) (p_pagetable s) (p_trapframe s)
    (p_context s) (p_ofile s) (p_cwd s) (p_name s).
Definition p_set_xstate (f : Z -> Z) (s : proc) : proc :=
  mkproc
    (p_state s) (p_chan s) (p_killed s) (f (p_xstate s)) (p_pid s)
    (p_parent s) (p_kstack s) (p_sz s) (p_pagetable s) (p_trapframe s)
    (p_context s) (p_ofile s) (p_cwd s) (p_name s).
Definition p_set_pid (f : Z -> Z) (s : proc) : proc :=
  mkproc
    (p_state s) (p_chan s) (p_killed s) (p_xstate s) (f (p_pid s))
    (p_parent s) (p_kstack s) (p_sz s) (p_pagetable s) (p_trapframe s)
    (p_context s) (p_ofile s) (p_cwd s) (p_name s).
Definition p_set_parent (f : (option nat) -> (option nat)) (s : proc) : proc :=
  mkproc
    (p_state s) (p_chan s) (p_killed s) (p_xstate s) (p_pid s)
    (f (p_parent s)) (p_kstack s) (p_sz s) (p_pagetable s) (p_trapframe s)
    (p_context s) (p_ofile s) (p_cwd s) (p_name s).
Definition p_set_kstack (f : Z -> Z) (s : proc) : proc :=
  mkproc
    (p_state s) (p_chan s) (p_killed s) (p_xstate s) (p_pid s) (p_parent s)
    (f (p_kstack s)) (p_sz s) (p_pagetable s) (p_trapframe s) (p_context s)
    (p_ofile s) (p_cwd s) (p_name s).
Definition p_set_sz (f : Z -> Z) (s : proc) : proc :=
  mkproc
    (p_state s) (p_chan s) (p_killed s) (p_xstate s) (p_pid s) (p_parent s)
    (p_kstack s) (f (p_sz s)) (p_pagetable s) (p_trapframe s) (p_context s)
    (p_ofile s) (p_cwd s) (p_name s).
Definition p_set_pagetable (f : Z -> Z) (s : proc) : proc :=
  mkproc
    (p_state s) (p_chan s) (p_killed s) (p_xstate s) (p_pid s) (p_parent s)
    (p_kstack s) (p_sz s) (f (p_pagetable s)) (p_trapframe s) (p_context s)
    (p_ofile s) (p_cwd s) (p_name s).
Definition p_set_trapframe (f : Z -> Z) (s : proc) : proc :=
  mkproc
    (p_state s) (p_chan s) (p_killed s) (p_xstate s) (p_pid s) (p_parent s)
    (p_kstack s) (p_sz s) (p_pagetable s) (f (p_trapframe s)) (p_context s)
    (p_ofile s) (p_cwd s) (p_name s).
Definition p_set_context (f : context -> context) (s : proc) : proc :=
  mkproc
    (p_state s) (p_chan s) (p_killed s) (p_xstate s) (p_pid s) (p_parent s)
    (p_kstack s) (p_sz s) (p_pagetable s) (p_trapframe s) (f (p_context s))
    (p_ofile s) (p_cwd s) (p_name s).
Definition p_set_ofile (f : (list (option nat)) -> (list (option nat))) (s : proc) : proc :=
  mkproc
    (p_state s) (p_chan s) (p_killed s) (p_xstate s) (p_pid s) (p_parent s)
    (p_kstack s) (p_sz s) (p_pagetable s) (p_trapframe s) (p_context s)
    (f (p_ofile s)) (p_cwd s) (p_name s).
Definition p_set_cwd (f : (option nat) -> (option nat)) (s : proc) : proc :=
  mkproc
    (p_state s) (p_chan s) (p_killed s) (p_xstate s) (p_pid s) (p_parent s)
    (p_kstack s) (p_sz s) (p_pagetable s) (p_trapframe s) (p_context s)
    (p_ofile s) (f (p_cwd s)) (p_name s).
Definition p_set_name (f : (list Z) -> (list Z)) (s : proc) : proc :=
  mkproc
    (p_state s) (p_chan s) (p_killed s) (p_xstate s) (p_pid s) (p_parent s)
    (p_kstack s) (p_sz s) (p_pagetable s) (p_trapframe s) (p_context s)
    (p_ofile s) (p_cwd s) (f (p_name s)).
Definition b_set_valid (f : Z -> Z) (s : buf) : buf :=
  mkbuf
    (f (b_valid s)) (b_dev s) (b_blockno s) (b_lock s) (b_refcnt s) (b_prev s)
    (b_next s) (b_data s).
Definition b_set_dev (f : Z -> Z) (s : buf) : buf :=
  mkbuf
    (b_valid s) (f (b_dev s)) (b_blockno s) (b_lock s) (b_refcnt s) (b_prev s)
    (b_next s) (b_data s).
Definition b_set_blockno (f : Z -> Z) (s : buf) : buf :=
  mkbuf
    (b_valid s) (b_dev s) (f (b_blockno s)) (b_lock s) (b_refcnt s) (b_prev s)
    (b_next s) (b_data s).
Definition b_set_lock (f : sleeplock -> sleeplock) (s : buf) : buf :=
  mkbuf
    (b_valid s) (b_dev s) (b_blockno s) (f (b_lock s)) (b_refcnt s) (b_prev s)
    (b_next s) (b_data s).
Definition b_set_refcnt (f : Z -> Z) (s : buf) : buf :=
  mkbuf
    (b_valid s) (b_dev s) (b_blockno s) (b_lock s) (f (b_refcnt s)) (b_prev s)
    (b_next s) (b_data s).
Definition b_set_prev (f : nat -> nat) (s : buf) : buf :=
  mkbuf
    (b_valid s) (b_dev s) (b_blockno s) (b_lock s) (b_refcnt s) (f (b_prev s))
    (b_next s) (b_data s).
Definition b_set_next (f : nat -> nat) (s : buf) : buf :=
  mkbuf
    (b_valid s) (b_dev s) (b_blockno s) (b_lock s) (b_refcnt s) (b_prev s)
    (f (b_next s)) (b_data s).
Definition b_set_data (f : (list Z) -> (list Z)) (s : buf) : buf :=
  mkbuf
    (b_valid s) (b_dev s) (b_blockno s) (b_lock s) (b_refcnt s) (b_prev s)
    (b_next s) (f (b_data s)).
Definition l_set_start (f : Z -> Z) (s : log) : log :=
  mklog
    (f (l_start s)) (l_outstanding s) (l_committing s) (l_dev s) (l_n s)
    (l_block s).
Definition l_set_outstanding (f : Z -> Z) (s : log) : log :=
  mklog
    (l_start s) (f (l_outstanding s)) (l_committing s) (l_dev s) (l_n s)
    (l_block s).
Definition l_set_committing (f : Z -> Z) (s : log) : log :=
  mklog
    (l_start s) (l_outstanding s) (f (l_committing s)) (l_dev s) (l_n s)
    (l_block s).
Definition l_set_dev (f : Z -> Z) (s : log) : log :=
  mklog
    (l_start s) (l_outstanding s) (l_committing s) (f (l_dev s)) (l_n s)
    (l_block s).
Definition l_set_n (f : Z -> Z) (s : log) : log :=
  mklog
    (l_start s) (l_outstanding s) (l_committing s) (l_dev s) (f (l_n s))
    (l_block s).
Definition l_set_block (f : (list Z) -> (list Z)) (s : log) : log :=
  mklog
    (l_start s) (l_outstanding s) (l_committing s) (l_dev s) (l_n s)
    (f (l_block s)).
Definition i_set_dev (f : Z -> Z) (s : inode) : inode :=
  mkinode
    (f (i_dev s)) (i_inum s) (i_ref s) (i_lock s) (i_valid s) (i_type s)
    (i_major s) (i_minor s) (i_nlink s) (i_size s) (i_addrs s).
Definition i_set_inum (f : Z -> Z) (s : inode) : inode :=
  mkinode
    (i_dev s) (f (i_inum s)) (i_ref s) (i_lock s) (i_valid s) (i_type s)
    (i_major s) (i_minor s) (i_nlink s) (i_size s) (i_addrs s).
Definition i_set_ref (f : Z -> Z) (s : inode) : inode :=
  mkinode
    (i_dev s) (i_inum s) (f (i_ref s)) (i_lock s) (i_valid s) (i_type s)
    (i_major s) (i_minor s) (i_nlink s) (i_size s) (i_addrs s).
Definition i_set_lock (f : sleeplock -> sleeplock) (s : inode) : inode :=
  mkinode
    (i_dev s) (i_inum s) (i_ref s) (f (i_lock s)) (i_valid s) (i_type s)
    (i_major s) (i_minor s) (i_nlink s) (i_size s) (i_addrs s).
Definition i_set_valid (f : Z -> Z) (s : inode) : inode :=
  mkinode
    (i_dev s) (i_inum s) (i_ref s) (i_lock s) (f (i_valid s)) (i_type s)
    (i_major s) (i_minor s) (i_nlink s) (i_size s) (i_addrs s).
Definition i_set_type (f : Z -> Z) (s : inode) : inode :=
  mkinode
    (i_dev s) (i_inum s) (i_ref s) (i_lock s) (i_valid s) (f (i_type s))
    (i_major s) (i_minor s) (i_nlink s) (i_size s) (i_addrs s).
Definition i_set_major (f : Z -> Z) (s : inode) : inode :=
  mkinode
    (i_dev s) (i_inum s) (i_ref s) (i_lock s) (i_valid s) (i_type s)
    (f (i_major s)) (i_minor s) (i_nlink s) (i_size s) (i_addrs s).
Definition i_set_minor (f : Z -> Z) (s : inode) : inode :=
  mkinode
    (i_dev s) (i_inum s) (i_ref s) (i_lock s) (i_valid s) (i_type s)
    (i_major s) (f (i_minor s)) (i_nlink s) (i_size s) (i_addrs s).
Definition i_set_nlink (f : Z -> Z) (s : inode) : inode :=
  mkinode
    (i_dev s) (i_inum s) (i_ref s) (i_lock s) (i_valid s) (i_type s)
    (i_major s) (i_minor s) (f (i_nlink s)) (i_size s) (i_addrs s).
Definition i_set_size (f : Z -> Z) (s : inode) : inode :=
  mkinode
    (i_dev s) (i_inum s) (i_ref s) (i_lock s) (i_valid s) (i_type s)
    (i_major s) (i_minor s) (i_nlink s) (f (i_size s)) (i_addrs s).
Definition i_set_addrs (f : (list Z) -> (list Z)) (s : inode) : inode :=
  mkinode
    (i_dev s) (i_inum s) (i_ref s) (i_lock s) (i_valid s) (i_type s)
    (i_major s) (i_minor s) (i_nlink s) (i_size s) (f (i_addrs s)).
Definition f_set_type (f : fdtype -> fdtype) (s : file) : file :=
  mkfile
    (f (f_type s)) (f_ref s) (f_readable s) (f_writable s) (f_pipe s) (f_ip s)
    (f_off s) (f_major s).
Definition f_set_ref (f : Z -> Z) (s : file) : file :=
  mkfile
    (f_type s) (f (f_ref s)) (f_readable s) (f_writable s) (f_pipe s) (f_ip s)
    (f_off s) (f_major s).
Definition f_set_readable (f : Z -> Z) (s : file) : file :=
  mkfile
    (f_type s) (f_ref s) (f (f_readable s)) (f_writable s) (f_pipe s) (f_ip s)
    (f_off s) (f_major s).
Definition f_set_writable (f : Z -> Z) (s : file) : file :=
  mkfile
    (f_type s) (f_ref s) (f_readable s) (f (f_writable s)) (f_pipe s) (f_ip s)
    (f_off s) (f_major s).
Definition f_set_pipe (f : Z -> Z) (s : file) : file :=
  mkfile
    (f_type s) (f_ref s) (f_readable s) (f_writable s) (f (f_pipe s)) (f_ip s)
    (f_off s) (f_major s).
Definition f_set_ip (f : (option nat) -> (option nat)) (s : file) : file :=
  mkfile
    (f_type s) (f_ref s) (f_readable s) (f_writable s) (f_pipe s) (f (f_ip s))
    (f_off s) (f_major s).
Definition f_set_off (f : Z -> Z) (s : file) : file :=
  mkfile
    (f_type s) (f_ref s) (f_readable s) (f_writable s) (f_pipe s) (f_ip s)
    (f (f_off s)) (f_major s).
Definition f_set_major (f : Z -> Z) (s : file) : file :=
  mkfile
    (f_type s) (f_ref s) (f_readable s) (f_writable s) (f_pipe s) (f_ip s)
    (f_off s) (f (f_major s)).
Definition pi_set_data (f : (list Z) -> (list Z)) (s : pipe) : pipe :=
  mkpipe
    (f (pi_data s)) (pi_nread s) (pi_nwrite s) (pi_readopen s)
    (pi_writeopen s).
Definition pi_set_nread (f : Z -> Z) (s : pipe) : pipe :=
  mkpipe
    (pi_data s) (f (pi_nread s)) (pi_nwrite s) (pi_readopen s)
    (pi_writeopen s).
Definition pi_set_nwrite (f : Z -> Z) (s : pipe) : pipe :=
  mkpipe
    (pi_data s) (pi_nread s) (f (pi_nwrite s)) (pi_readopen s)
    (pi_writeopen s).
Definition pi_set_readopen (f : Z -> Z) (s : pipe) : pipe :=
  mkpipe
    (pi_data s) (pi_nread s) (pi_nwrite s) (f (pi_readopen s))
    (pi_writeopen s).
Definition pi_set_writeopen (f : Z -> Z) (s : pipe) : pipe :=
  mkpipe
    (pi_data s) (pi_nread s) (pi_nwrite s) (pi_readopen s)
    (f (pi_writeopen s)).
Definition c_set_buf (f : (list Z) -> (list Z)) (s : console) : console :=
  mkconsole
    (f (c_buf s)) (c_r s) (c_w s) (c_e s).
Definition c_set_r (f : Z -> Z) (s : console) : console :=
  mkconsole
    (c_buf s) (f (c_r s)) (c_w s) (c_e s).
Definition c_set_w (f : Z -> Z) (s : console) : console :=
  mkconsole
    (c_buf s) (c_r s) (f (c_w s)) (c_e s).
Definition c_set_e (f : Z -> Z) (s : console) : console :=
  mkconsole
    (c_buf s) (c_r s) (c_w s) (f (c_e s)).
Definition u_set_out (f : (list Z) -> (list Z)) (s : uart) : uart :=
  mkuart
    (f (u_out s)) (u_rx s) (u_tx_idle s) (u_tx_busy s) (u_panicking s)
    (u_panicked s).
Definition u_set_rx (f : (list Z) -> (list Z)) (s : uart) : uart :=
  mkuart
    (u_out s) (f (u_rx s)) (u_tx_idle s) (u_tx_busy s) (u_panicking s)
    (u_panicked s).
Definition u_set_tx_idle (f : bool -> bool) (s : uart) : uart :=
  mkuart
    (u_out s) (u_rx s) (f (u_tx_idle s)) (u_tx_busy s) (u_panicking s)
    (u_panicked s).
Definition u_set_tx_busy (f : Z -> Z) (s : uart) : uart :=
  mkuart
    (u_out s) (u_rx s) (u_tx_idle s) (f (u_tx_busy s)) (u_panicking s)
    (u_panicked s).
Definition u_set_panicking (f : Z -> Z) (s : uart) : uart :=
  mkuart
    (u_out s) (u_rx s) (u_tx_idle s) (u_tx_busy s) (f (u_panicking s))
    (u_panicked s).
Definition u_set_panicked (f : Z -> Z) (s : uart) : uart :=
  mkuart
    (u_out s) (u_rx s) (u_tx_idle s) (u_tx_busy s) (u_panicking s)
    (f (u_panicked s)).

#[global] Arguments set_hart : simpl never.
#[global] Arguments set_csrs : simpl never.
#[global] Arguments set_mem : simpl never.
#[global] Arguments set_freelist : simpl never.
#[global] Arguments set_procs : simpl never.
#[global] Arguments set_nextpid : simpl never.
#[global] Arguments set_initproc : simpl never.
#[global] Arguments set_ticks : simpl never.
#[global] Arguments set_bufs : simpl never.
#[global] Arguments set_disk : simpl never.
#[global] Arguments set_writes : simpl never.
#[global] Arguments set_log : simpl never.
#[global] Arguments set_sb : simpl never.
#[global] Arguments set_itable : simpl never.
#[global] Arguments set_ftable : simpl never.
#[global] Arguments set_pipes : simpl never.
#[global] Arguments set_cons : simpl never.
#[global] Arguments set_uart : simpl never.
#[global] Arguments set_kpgtbl : simpl never.
#[global] Arguments set_first : simpl never.

(** update of one element of a table *)
Definition upd_proc (i : nat) (f : proc -> proc) : kstate -> kstate := set_procs (alter f i).
Definition upd_buf (i : nat) (f : buf -> buf) : kstate -> kstate := set_bufs (alter f i).
Definition upd_inode (i : nat) (f : inode -> inode) : kstate -> kstate := set_itable (alter f i).
Definition upd_file (i : nat) (f : file -> file) : kstate -> kstate := set_ftable (alter f i).

(** reading one element of a table through a pointer *)
Definition get_proc (i : nat) : K proc :=
  fun s => match k_procs s !! i with Some p => Ok p s | None => UB "proc" s end.
Definition get_buf (i : nat) : K buf :=
  fun s => match k_bufs s !! i with Some b => Ok b s | None => UB "buf" s end.
Definition get_inode (i : nat) : K inode :=
  fun s => match k_itable s !! i with Some ip => Ok ip s | None => UB "inode" s end.
Definition get_file (i : nat) : K file :=
  fun s => match k_ftable s !! i with Some f => Ok f s | None => UB "file" s end.

Lemma get_proc_ok i s p : k_procs s !! i = Some p -> get_proc i s = Ok p s.
Proof. intros H. unfold get_proc. by rewrite H. Qed.
Lemma get_buf_ok i s b : k_bufs s !! i = Some b -> get_buf i s = Ok b s.
Proof. intros H. unfold get_buf. by rewrite H. Qed.
Lemma get_inode_ok i s ip : k_itable s !! i = Some ip -> get_inode i s = Ok ip s.
Proof. intros H. unfold get_inode. by rewrite H. Qed.
Lemma get_file_ok i s f : k_ftable s !! i = Some f -> get_file i s = Ok f s.
Proof. intros H. unfold get_file. by rewrite H. Qed.
#[export] Hint Resolve get_proc_ok get_buf_ok get_inode_ok get_file_ok : kernel.

(** [ksimp] reduces a field of an updated state to the field of the state
    before the update (or to the update of that field). *)
Ltac ksimp_field :=
  match goal with
  | |- context [k_hart (?g ?f ?s)] =>
      first [ unify g set_hart; change (k_hart (g f s)) with (f (k_hart s))
            | change (k_hart (g f s)) with (k_hart s) ]
  | |- context [k_csrs (?g ?f ?s)] =>
      first [ unify g set_csrs; change (k_csrs (g f s)) with (f (k_csrs s))
            | change (k_csrs (g f s)) with (k_csrs s) ]
  | |- context [k_mem (?g ?f ?s)] =>
      first [ unify g set_mem; change (k_mem (g f s)) with (f (k_mem s))
            | change (k_mem (g f s)) with (k_mem s) ]
  | |- context [k_freelist (?g ?f ?s)] =>
      first [ unify g set_freelist; change (k_freelist (g f s)) with (f (k_freelist s))
            | change (k_freelist (g f s)) with (k_freelist s) ]
  | |- context [k_procs (?g ?f ?s)] =>
      first [ unify g set_procs; change (k_procs (g f s)) with (f (k_procs s))
            | change (k_procs (g f s)) with (k_procs s) ]
  | |- context [k_nextpid (?g ?f ?s)] =>
      first [ unify g set_nextpid; change (k_nextpid (g f s)) with (f (k_nextpid s))
            | change (k_nextpid (g f s)) with (k_nextpid s) ]
  | |- context [k_initproc (?g ?f ?s)] =>
      first [ unify g set_initproc; change (k_initproc (g f s)) with (f (k_initproc s))
            | change (k_initproc (g f s)) with (k_initproc s) ]
  | |- context [k_ticks (?g ?f ?s)] =>
      first [ unify g set_ticks; change (k_ticks (g f s)) with (f (k_ticks s))
            | change (k_ticks (g f s)) with (k_ticks s) ]
  | |- context [k_bufs (?g ?f ?s)] =>
      first [ unify g set_bufs; change (k_bufs (g f s)) with (f (k_bufs s))
            | change (k_bufs (g f s)) with (k_bufs s) ]
  | |- context [k_disk (?g ?f ?s)] =>
      first [ unify g set_disk; change (k_disk (g f s)) with (f (k_disk s))
            | change (k_disk (g f s)) with (k_disk s) ]
  | |- context [k_writes (?g ?f ?s)] =>
      first [ unify g set_writes; change (k_writes (g f s)) with (f (k_writes s))
            | change (k_writes (g f s)) with (k_writes s) ]
  | |- context [k_log (?g ?f ?s)] =>
      first [ unify g set_log; change (k_log (g f s)) with (f (k_log s))
            | change (k_log (g f s)) with (k_log s) ]
  | |- context [k_sb (?g ?f ?s)] =>
      first [ unify g set_sb; change (k_sb (g f s)) with (f (k_sb s))
            | change (k_sb (g f s)) with (k_sb s) ]
  | |- context [k_itable (?g ?f ?s)] =>
      first [ unify g set_itable; change (k_itable (g f s)) with (f (k_itable s))
            | change (k_itable (g f s)) with (k_itable s) ]
  | |- context [k_ftable (?g ?f ?s)] =>
      first [ unify g set_ftable; change (k_ftable (g f s)) with (f (k_ftable s))
            | change (k_ftable (g f s)) with (k_ftable s) ]
  | |- context [k_pipes (?g ?f ?s)] =>
      first [ unify g set_pipes; change (k_pipes (g f s)) with (f (k_pipes s))
            | change (k_pipes (g f s)) with (k_pipes s) ]
  | |- context [k_cons (?g ?f ?s)] =>
      first [ unify g set_cons; change (k_cons (g f s)) with (f (k_cons s))
            | change (k_cons (g f s)) with (k_cons s) ]
  | |- context [k_uart (?g ?f ?s)] =>
      first [ unify g set_uart; change (k_uart (g f s)) with (f (k_uart s))
            | change (k_uart (g f s)) with (k_uart s) ]
  | |- context [k_kpgtbl (?g ?f ?s)] =>
      first [ unify g set_kpgtbl; change (k_kpgtbl (g f s)) with (f (k_kpgtbl s))
            | change (k_kpgtbl (g f s)) with (k_kpgtbl s) ]
  | |- context [k_first (?g ?f ?s)] =>
      first [ unify g set_first; change (k_first (g f s)) with (f (k_first s))
            | change (k_first (g f s)) with (k_first s) ]
  | |- context [k_img (?g ?f ?s)] => change (k_img (g f s)) with (k_img s)
  | |- context [k_procs (upd_proc ?i ?f ?s)] =>
      change (k_procs (upd_proc i f s)) with (alter f i (k_procs s))
  | |- context [k_bufs (upd_buf ?i ?f ?s)] =>
      change (k_bufs (upd_buf i f s)) with (alter f i (k_bufs s))
  | |- context [k_itable (upd_inode ?i ?f ?s)] =>
      change (k_itable (upd_inode i f s)) with (alter f i (k_itable s))
  | |- context [k_ftable (upd_file ?i ?f ?s)] =>
      change (k_ftable (upd_file i f s)) with (alter f i (k_ftable s))
  end.
Ltac ksimp := repeat (progress (repeat ksimp_field; cbv beta)).
Ltac ksimp_in H := revert H; ksimp; intros H.

(** * The state at the start of main(): BSS is zero *)

Definition context0 : context := mkcontext 0 0 (replicate 12 0).
Definition proc0 : proc :=
  mkproc UNUSED ChNull 0 0 0 None 0 0 0 0 context0
    (replicate (Z.to_nat NOFILE) None) None (replicate 16 0).
Definition sleeplock0 : sleeplock := mksleeplock 0 0.
Definition buf0 : buf := mkbuf 0 0 0 sleeplock0 0 0 0 (replicate (Z.to_nat BSIZE) 0).
Definition log0 : log := mklog 0 0 0 0 0 (replicate (Z.to_nat LOGBLOCKS) 0).
Definition sb0 : superblock := mksb 0 0 0 0 0 0 0 0.
Definition inode0 : inode :=
  mkinode 0 0 0 sleeplock0 0 0 0 0 0 0 (replicate (Z.to_nat (NDIRECT + 1)) 0).
Definition file0 : file := mkfile FD_NONE 0 0 0 0 None 0 0.

Definition zero_state (im : image) (disk : list (list Z)) : kstate :=
  mkK (mkhart 0 None 0 0 0 ∅) (mkcsrs 0 0 0 0 0 0 0 0) im ∅ 0
    (replicate (Z.to_nat NPROC) proc0) 1 None 0
    (replicate (Z.to_nat NBUF + 1) buf0) disk [] log0 sb0
    (replicate (Z.to_nat NINODE) inode0) (replicate (Z.to_nat NFILE) file0) ∅
    (mkconsole (replicate (Z.to_nat INPUT_BUF_SIZE) 0) 0 0 0)
    (mkuart [] [] true 0 0 0) 0 1.

(** ** Concrete states the theorems are applied to *)

(** a kernel of 256 KB linked at KERNBASE *)
Definition image0 : image :=
  mkimage 0x240000 0x210000 0x20f000 0x20f000 0x20f09c 0x205000 0x204000 0x203000.

Definition boot_state : kstate := zero_state image0 [].

(** process 0 (pid 1) runs on hart 0, on a disk with the given blocks *)
Definition thread_state (disk : list (list Z)) : kstate :=
  set_procs (<[0%nat := p_set_pid (fun _ => 1) (p_set_state (fun _ => RUNNING) proc0)]>)
    (set_hart (h_set_proc (fun _ => Some 0%nat)) (zero_state image0 disk)).
