(* ===== verification/KString.v ===== *)
(** kernel/string.c over byte-addressed memory.

    [ldb]/[stb] are a byte load and store; [ld64]/[st64] the 64-bit accesses
    through [uint64 *].  The routines that write ([memset], [memmove]) act on
    the memory; the ones that only read take their [const char *] arguments
    as readers (offset to byte), so that they apply to memory, to the byte
    arrays inside structs and to string literals alike; [strncpy] and
    [safestrcpy] give the bytes they store, from the destination's start. *)

From stdpp Require Import base gmap strings numbers list.
From S2P Require Import Prelude KState.

Abbreviation mem := (gmap Z Z).

Definition ldb (m : mem) (a : Z) : Z := u8 (default 0 (m !! a)).
Definition stb (m : mem) (a x : Z) : mem := <[a := u8 x]> m.

(** [n] bytes at [a], and storing a byte string at [a] *)
Definition ldn (m : mem) (a : Z) (n : nat) : list Z := map (fun k => ldb m (a + Z.of_nat k)) (seq 0 n).
Fixpoint stn (m : mem) (a : Z) (l : list Z) : mem :=
  match l with [] => m | x :: l' => stn (stb m a x) (a + 1) l' end.

Definition ld64 (m : mem) (a : Z) : Z := le_val (ldn m a 8).
Definition st64 (m : mem) (a x : Z) : mem := stn m a (le_bytes 8 x).
Definition ld32 (m : mem) (a : Z) : Z := le_val (ldn m a 4).

(** a [const char *] argument *)
Definition reader : Type := Z -> Z.
Definition rmem (m : mem) (a : Z) : reader := fun i => ldb m (a + i).
Definition rlist (l : list Z) : reader := fun i => zget l i.

(** The bytes of a string literal; the escape [\n] is the newline, as in C.
    [cstr] adds the terminating NUL. *)
Fixpoint bytes_of_string (t : string) : list Z :=
  match t with
  | EmptyString => []
  | String c t' =>
      match Ascii.nat_of_ascii c, t' with
      | 92%nat, String c' t'' =>
          if (Ascii.nat_of_ascii c' =? 110)%nat then 10 :: bytes_of_string t''
          else 92 :: bytes_of_string t'
      | n, _ => Z.of_nat n :: bytes_of_string t'
      end
  end.
Definition cstr (t : string) : list Z := bytes_of_string t ++ [0].

(** * Definitions *)

(** [for(i = 0; i < n; i++) cdst[i] = c;] *)
Fixpoint memset_loop (m : mem) (dst c : Z) (i : Z) (k : nat) : mem :=
  match k with
  | O => m
  | S k' => memset_loop (stb m (dst + i) c) dst c (i + 1) k'
  end.
Definition memset (m : mem) (dst c n : Z) : mem := memset_loop m dst c 0 (Z.to_nat n).

(** [while(n-- > 0) if( *s1 != *s2) return *s1 - *s2;] *)
Fixpoint memcmp_loop (s1 s2 : reader) (i : Z) (k : nat) : Z :=
  match k with
  | O => 0
  | S k' => if negb (s1 i =? s2 i) then s1 i - s2 i else memcmp_loop s1 s2 (i + 1) k'
  end.
Definition memcmp (s1 s2 : reader) (n : Z) : Z := memcmp_loop s1 s2 0 (Z.to_nat n).

(** [while(n-- > 0) *d++ = *s++;] *)
Fixpoint memmove_fwd (m : mem) (d s : Z) (k : nat) : mem :=
  match k with
  | O => m
  | S k' => memmove_fwd (stb m d (ldb m s)) (d + 1) (s + 1) k'
  end.
(** [while(n-- > 0) *--d = *--s;] *)
Fixpoint memmove_bwd (m : mem) (d s : Z) (k : nat) : mem :=
  match k with
  | O => m
  | S k' => memmove_bwd (stb m (d - 1) (ldb m (s - 1))) (d - 1) (s - 1) k'
  end.
Definition memmove (m : mem) (dst src n : Z) : mem :=
  if n =? 0 then m
  else if (src <? dst) && (dst <? src + n)
       then memmove_bwd m (dst + n) (src + n) (Z.to_nat n)
       else memmove_fwd m dst src (Z.to_nat n).
Definition memcpy (m : mem) (dst src n : Z) : mem := memmove m dst src n.

(** [while(n > 0 && *p && *p == *q) n--, p++, q++;] *)
Fixpoint strncmp_loop (p q : reader) (i : Z) (k : nat) : Z :=
  match k with
  | O => 0
  | S k' => if nz (p i) && (p i =? q i) then strncmp_loop p q (i + 1) k'
            else p i - q i
  end.
Definition strncmp (p q : reader) (n : Z) : Z := strncmp_loop p q 0 (Z.to_nat n).

(** [while(n-- > 0 && ( *s++ = *t++) != 0); while(n-- > 0) *s++ = 0;] *)
Fixpoint strncpy_loop (t : reader) (i : Z) (k : nat) : list Z :=
  match k with
  | O => []
  | S k' => t i :: (if nz (t i) then strncpy_loop t (i + 1) k' else replicate k' 0)
  end.
Definition strncpy (t : reader) (n : Z) : list Z := strncpy_loop t 0 (Z.to_nat n).

(** [while(--n > 0 && ( *s++ = *t++) != 0); *s = 0;] *)
Fixpoint safestrcpy_loop (t : reader) (i : Z) (k : nat) : list Z :=
  match k with
  | O => [0]
  | S k' => t i :: (if nz (t i) then safestrcpy_loop t (i + 1) k' else [0])
  end.
Definition safestrcpy (t : reader) (n : Z) : list Z :=
  if n <=? 0 then [] else safestrcpy_loop t 0 (Z.to_nat (n - 1)).

(** [for(n = 0; s[n]; n++);], at most [fuel] bytes long *)
Fixpoint strlen_from (s : reader) (n : Z) (fuel : nat) : option Z :=
  match fuel with
  | O => None
  | S fuel' => if nz (s n) then strlen_from s (n + 1) fuel' else Some n
  end.
Definition strlen (s : reader) (fuel : nat) : option Z := strlen_from s 0 fuel.

(** overwrite the start of a fixed-size array with the bytes a copy stored *)
Definition store_array (dst bytes : list Z) : list Z := splice 0 bytes dst.

(** * Loads and stores *)

Lemma ldb_range m a : 0 <= ldb m a < 256.
Proof. apply u8_range. Qed.

Lemma ldb_stb_eq m a x : ldb (stb m a x) a = u8 x.
Proof.
  unfold ldb, stb. rewrite lookup_insert_eq. simpl. unfold u8. by rewrite Z.mod_mod.
Qed.

Lemma ldb_stb_ne m a b x : a <> b -> ldb (stb m a x) b = ldb m b.
Proof. intros H. unfold ldb, stb. by rewrite lookup_insert_ne. Qed.

Lemma ldb_stb m a b x : ldb (stb m a x) b = if a =? b then u8 x else ldb m b.
Proof.
  destruct (Z.eqb_spec a b) as [->|H]; [apply ldb_stb_eq|by apply ldb_stb_ne].
Qed.

Lemma ldn_S m a n : ldn m a (S n) = ldb m a :: ldn m (a + 1) n.
Proof.
  unfold ldn. cbn [seq map]. rewrite Z.add_0_r. f_equal.
  rewrite <-seq_shift, map_map. apply map_ext. intros k. f_equal. lia.
Qed.

Lemma length_ldn m a n : length (ldn m a n) = n.
Proof. unfold ldn. by rewrite length_map, length_seq. Qed.

Lemma ldn_bytes m a n : Forall byte_ok (ldn m a n).
Proof.
  apply Forall_forall. intros x Hx. unfold ldn in Hx.
  apply list_elem_of_fmap in Hx as (k & -> & _). apply ldb_range.
Qed.

Lemma ldn_ext m m' a n :
  (forall b, a <= b < a + Z.of_nat n -> ldb m b = ldb m' b) -> ldn m a n = ldn m' a n.
Proof.
  intros H. unfold ldn. apply map_ext_in. intros k Hk.
  apply in_seq in Hk. apply H. lia.
Qed.

Lemma ldb_stn_out m a l b :
  b < a \/ a + Z.of_nat (length l) <= b -> ldb (stn m a l) b = ldb m b.
Proof.
  revert m a. induction l as [|x l IH]; intros m a H; cbn [stn length] in *; [done|].
  rewrite IH by lia. apply ldb_stb_ne. lia.
Qed.

Lemma ldn_stn_eq m a l : Forall byte_ok l -> ldn (stn m a l) a (length l) = l.
Proof.
  intros Hl. revert m a. induction Hl as [|x l Hx _ IH]; intros m a; [done|].
  cbn [length stn]. rewrite ldn_S, IH. f_equal.
  rewrite ldb_stn_out by lia. rewrite ldb_stb_eq. by apply u8_small.
Qed.

Lemma ld64_st64_eq m a x : ld64 (st64 m a x) a = u64 x.
Proof.
  unfold ld64, st64.
  pose proof (ldn_stn_eq m a (le_bytes 8 x) (le_bytes_ok 8 x)) as H.
  rewrite length_le_bytes in H. rewrite H. apply le_val_bytes.
Qed.

Lemma ld64_ext m m' a :
  (forall b, a <= b < a + 8 -> ldb m b = ldb m' b) -> ld64 m a = ld64 m' a.
Proof. intros H. unfold ld64. f_equal. apply ldn_ext. exact H. Qed.

Lemma ldb_st64_out m a x b : b < a \/ a + 8 <= b -> ldb (st64 m a x) b = ldb m b.
Proof.
  intros H. unfold st64. apply ldb_stn_out. rewrite length_le_bytes. exact H.
Qed.

Lemma ld64_st64_ne m a b x : b + 8 <= a \/ a + 8 <= b -> ld64 (st64 m a x) b = ld64 m b.
Proof. intros H. apply ld64_ext. intros c Hc. apply ldb_st64_out. lia. Qed.

Lemma ld64_range m a : 0 <= ld64 m a < 2 ^ 64.
Proof.
  unfold ld64. pose proof (le_val_range _ (ldn_bytes m a 8)) as H.
  rewrite length_ldn in H. exact H.
Qed.

(** * Theorems *)

Lemma memset_loop_spec m dst c i k a :
  ldb (memset_loop m dst c i k) a =
  if (dst + i <=? a) && (a <? dst + i + Z.of_nat k) then u8 c else ldb m a.
Proof.
  revert m i. induction k as [|k IH]; intros m i; cbn [memset_loop].
  { destruct (Z.leb_spec (dst + i) a), (Z.ltb_spec a (dst + i + Z.of_nat 0)); simpl; (done || lia). }
  rewrite IH, ldb_stb.
  destruct (Z.leb_spec (dst + (i + 1)) a), (Z.ltb_spec a (dst + (i + 1) + Z.of_nat k)),
    (Z.eqb_spec (dst + i) a), (Z.leb_spec (dst + i) a),
    (Z.ltb_spec a (dst + i + Z.of_nat (S k))); simpl; (done || lia).
Qed.

Lemma memset_spec m dst c n a :
  0 <= n ->
  ldb (memset m dst c n) a =
  if (dst <=? a) && (a <? dst + n) then u8 c else ldb m a.
Proof.
  intros Hn. unfold memset. rewrite memset_loop_spec.
  by rewrite Z.add_0_r, Z2Nat.id by lia.
Qed.

Lemma u8_ldb m a : u8 (ldb m a) = ldb m a.
Proof. apply u8_small, ldb_range. Qed.

Lemma memmove_fwd_spec m d s k a :
  d <= s \/ s + Z.of_nat k <= d ->
  ldb (memmove_fwd m d s k) a =
  if (d <=? a) && (a <? d + Z.of_nat k) then ldb m (s + (a - d)) else ldb m a.
Proof.
  revert m d s. induction k as [|k IH]; intros m d s H; cbn [memmove_fwd].
  { destruct (Z.leb_spec d a), (Z.ltb_spec a (d + Z.of_nat 0)); simpl; (done || lia). }
  rewrite IH by lia. rewrite !ldb_stb, u8_ldb.
  destruct (Z.leb_spec (d + 1) a), (Z.ltb_spec a (d + 1 + Z.of_nat k)),
    (Z.leb_spec d a), (Z.ltb_spec a (d + Z.of_nat (S k))); simpl; try lia.
  - destruct (Z.eqb_spec d (s + 1 + (a - (d + 1)))); [lia|]. f_equal. lia.
  - destruct (Z.eqb_spec d a); (done || lia).
  - destruct (Z.eqb_spec d a); [|lia]. f_equal. lia.
  - destruct (Z.eqb_spec d a); (done || lia).
Qed.

Lemma memmove_bwd_spec m d s k a :
  s <= d \/ d + Z.of_nat k <= s ->
  ldb (memmove_bwd m d s k) a =
  if (d - Z.of_nat k <=? a) && (a <? d) then ldb m (s + (a - d)) else ldb m a.
Proof.
  revert m d s. induction k as [|k IH]; intros m d s H; cbn [memmove_bwd].
  { destruct (Z.leb_spec (d - Z.of_nat 0) a), (Z.ltb_spec a d); simpl; (done || lia). }
  rewrite IH by lia. rewrite !ldb_stb, u8_ldb.
  destruct (Z.leb_spec (d - 1 - Z.of_nat k) a), (Z.ltb_spec a (d - 1)),
    (Z.leb_spec (d - Z.of_nat (S k)) a), (Z.ltb_spec a d); simpl; try lia.
  - destruct (Z.eqb_spec (d - 1) (s - 1 + (a - (d - 1)))); [lia|]. f_equal. lia.
  - destruct (Z.eqb_spec (d - 1) a); [|lia]. f_equal. lia.
  - destruct (Z.eqb_spec (d - 1) a); (done || lia).
  - destruct (Z.eqb_spec (d - 1) a); (done || lia).
Qed.

(** The effect of [memmove]: whatever the overlap of the two regions, the
    destination receives the bytes the source held before the call. *)
Lemma memmove_spec m dst src n a :
  0 <= n ->
  ldb (memmove m dst src n) a =
  if (dst <=? a) && (a <? dst + n) then ldb m (src + (a - dst)) else ldb m a.
Proof.
  intros Hn. unfold memmove. destruct (Z.eqb_spec n 0) as [->|Hz].
  { destruct (Z.leb_spec dst a), (Z.ltb_spec a (dst + 0)); simpl; (done || lia). }
  destruct (Z.ltb_spec src dst) as [H1|H1]; simpl.
  - destruct (Z.ltb_spec dst (src + n)) as [H2|H2].
    + rewrite memmove_bwd_spec by lia. rewrite Z2Nat.id by lia.
      replace (dst + n - n) with dst by lia.
      destruct (_ && _); [f_equal; lia|done].
    + rewrite memmove_fwd_spec by lia. by rewrite Z2Nat.id by lia.
  - rewrite memmove_fwd_spec by lia. by rewrite Z2Nat.id by lia.
Qed.

(** [memmove] copies exactly, for overlapping regions too: the
    destination gets the old bytes of the source and every byte outside the
    destination keeps its value. *)
Theorem memmove_correct m dst src n :
  0 <= n ->
  ldn (memmove m dst src n) dst (Z.to_nat n) = ldn m src (Z.to_nat n) /\
  (forall a, a < dst \/ dst + n <= a -> ldb (memmove m dst src n) a = ldb m a).
Proof.
  intros Hn. split.
  - unfold ldn. apply map_ext_in. intros k Hk. apply in_seq in Hk.
    rewrite memmove_spec by lia.
    destruct (Z.leb_spec dst (dst + Z.of_nat k)), (Z.ltb_spec (dst + Z.of_nat k) (dst + n));
      simpl; try lia. f_equal. lia.
  - intros a Ha. rewrite memmove_spec by lia.
    destruct (Z.leb_spec dst a), (Z.ltb_spec a (dst + n)); simpl; (done || lia).
Qed.

Lemma memmove_correct_witness :
  ldn (memmove (stn ∅ 100 [1; 2; 3; 4; 5]) 102 100 4) 102 4 = [1; 2; 3; 4].
Proof.
  eapply eq_trans.
  - apply (memmove_correct (stn ∅ 100 [1; 2; 3; 4; 5]) 102 100 4). lia.
  - vm_compute. reflexivity.
Defined.

(** the loops over whole pages are reasoned about through their
    specifications only *)
#[global] Opaque memset memmove.
