(* ===== verification/Spinlock.v ===== *)
(** kernel/spinlock.c, the interrupt macros of riscv.h, cpuid()/mycpu() of
    proc.c, and the character output and panic() of uart.c that every other
    component calls.

    The state of all spin locks is the table [h_locks]: an entry [l := c]
    means [lk->locked == 1] and [lk->cpu == &cpus[c]].  A hart that finds the
    lock taken by another hart spins: the outcome [Hang]. *)

From stdpp Require Import base gmap strings numbers list.
From S2P Require Import Prelude KState KString.

(** * Definitions *)

Definition sstatus : K Z := gets (fun s => h_sstatus (k_hart s)).
Definition w_sstatus (x : Z) : K unit := modify (set_hart (h_set_sstatus (fun _ => x))).

Definition intr_on : K unit :=
  let! x := sstatus in w_sstatus (Z.lor x SSTATUS_SIE).
Definition intr_off : K unit :=
  let! x := sstatus in w_sstatus (Z.land x (Z.lnot SSTATUS_SIE)).
Definition intr_get : K Z :=
  let! x := sstatus in ret (b2z (nz (Z.land x SSTATUS_SIE))).

(** [WriteReg(THR, c)] *)
Definition write_thr (c : Z) : K unit :=
  modify (set_uart (u_set_out (fun o => o ++ [u8 c]))).

(** the body of [uartputc_sync] between [push_off] and [pop_off]; the wait
    for LSR_TX_IDLE is the device's, and ends *)
Definition uartputc_wait (c : Z) : K unit :=
  let! pk := gets (fun s => u_panicked (k_uart s)) in
  if nz pk then hang "panicked"
  else whenM (c =? 10) (write_thr 13) ;; write_thr c.

Definition puts_wait (t : string) : K unit := forM_ (bytes_of_string t) uartputc_wait.

(** [panic]: with [panicking] set, [printf] takes no lock and
    [uartputc_sync] leaves the interrupt nesting alone. *)
Definition panic {A} (msg : string) : K A :=
  intr_off ;;
  modify (set_uart (u_set_panicking (fun _ => 1))) ;;
  uartputc_wait 10 ;;
  puts_wait "panic: " ;;
  puts_wait msg ;; uartputc_wait 10 ;;
  puts_wait "Rebooting K230..." ;; uartputc_wait 10 ;;
  modify (set_uart (u_set_panicked (fun _ => 1))) ;;
  fun s => Panic msg s.

Definition cpuid : K Z := gets (fun s => h_id (k_hart s)).

Definition push_off : K unit :=
  let! old := intr_get in
  intr_off ;;
  let! noff := gets (fun s => h_noff (k_hart s)) in
  whenM (noff =? 0) (modify (set_hart (h_set_intena (fun _ => old)))) ;;
  modify (set_hart (h_set_noff (fun n => n + 1))).

Definition pop_off : K unit :=
  let! on := intr_get in
  if nz on then panic "pop_off - interruptible"
  else
    let! noff := gets (fun s => h_noff (k_hart s)) in
    if noff <? 1 then panic "pop_off"
    else
      modify (set_hart (h_set_noff (fun n => n - 1))) ;;
      let! h := gets k_hart in
      whenM ((h_noff h =? 0) && nz (h_intena h)) intr_on.

(** [r = (lk->locked && lk->cpu == mycpu())] *)
Definition holding (lk : lockid) : K Z :=
  let! h := gets k_hart in
  ret (b2z (bool_decide (h_locks h !! lk = Some (h_id h)))).

Definition initlock (lk : lockid) : K unit :=
  modify (set_hart (h_set_locks (delete lk))).

Definition acquire (lk : lockid) : K unit :=
  push_off ;;
  let! r := holding lk in
  if nz r then panic "acquire"
  else
    let! h := gets k_hart in
    match h_locks h !! lk with
    | Some _ => hang "acquire: spinning"
    | None => modify (set_hart (h_set_locks (<[lk := h_id h]>)))
    end.

Definition release (lk : lockid) : K unit :=
  let! r := holding lk in
  if negb (nz r) then panic "release"
  else
    modify (set_hart (h_set_locks (delete lk))) ;;
    pop_off.

(** proc.c: [cpuinit] and [myproc] *)
Definition cpuinit : K unit :=
  modify (set_hart (fun h => mkhart (h_id h) None 0 0 (h_sstatus h) (h_locks h))).

Definition myproc : K (option nat) :=
  push_off ;;
  let! p := gets (fun s => h_proc (k_hart s)) in
  pop_off ;;
  ret p.

(** [myproc()->...]: the current process through its pointer *)
Definition myproc_deref : K nat :=
  let! p := myproc in deref "myproc" p.

(** * The interrupt nesting as a function of the hart *)

Definition h_intr (h : hart) : Z := b2z (nz (Z.land (h_sstatus h) SSTATUS_SIE)).

Definition h_push (h : hart) : hart :=
  mkhart (h_id h) (h_proc h) (h_noff h + 1)
    (if h_noff h =? 0 then h_intr h else h_intena h)
    (Z.land (h_sstatus h) (Z.lnot SSTATUS_SIE)) (h_locks h).

Definition h_pop (h : hart) : hart :=
  mkhart (h_id h) (h_proc h) (h_noff h - 1) (h_intena h)
    (if (h_noff h - 1 =? 0) && nz (h_intena h)
     then Z.lor (h_sstatus h) SSTATUS_SIE else h_sstatus h) (h_locks h).

(** The discipline of push_off/pop_off between kernel operations: interrupts
    are off inside a section, and outside every section [intena] agrees with
    the interrupt flag. *)
Record hart_ok (h : hart) : Prop := {
  ho_noff : 0 <= h_noff h;
  ho_out : h_noff h = 0 -> h_intena h = h_intr h;
  ho_in : 0 < h_noff h -> h_intr h = 0
}.

Definition hart_lock (l : lockid) (h : hart) : hart :=
  h_set_locks (<[l := h_id h]>) (h_push h).

(** [l] can be taken by this hart without waiting *)
Definition lock_free (l : lockid) (s : kstate) : Prop :=
  hart_ok (k_hart s) /\ h_locks (k_hart s) !! l = None.

Lemma SIE_bit x : nz (Z.land x SSTATUS_SIE) = Z.testbit x 1.
Proof.
  change SSTATUS_SIE with 2. destruct (Z.testbit x 1) eqn:E.
  - apply nz_true. intros H.
    assert (Z.testbit (Z.land x 2) 1 = true) as H1 by (rewrite Z.land_spec, E; done).
    rewrite H in H1. done.
  - apply nz_false. bitwise. rewrite Z.bits_0.
    destruct (Z.eq_dec i 1) as [->|Hne]; [by rewrite E|].
    replace (Z.testbit 2 i) with false; [by rewrite andb_false_r|].
    change 2 with (2 ^ 1). by rewrite Z.pow2_bits_false by lia.
Qed.

Lemma h_intr_bit h : h_intr h = b2z (Z.testbit (h_sstatus h) 1).
Proof. unfold h_intr. by rewrite SIE_bit. Qed.

Lemma testbit_clear_SIE x i :
  0 <= i -> Z.testbit (Z.land x (Z.lnot SSTATUS_SIE)) i = Z.testbit x i && negb (i =? 1).
Proof.
  intros Hi. change SSTATUS_SIE with (2 ^ 1).
  rewrite Z.land_spec, Z.lnot_spec, Z.pow2_bits_eqb by lia.
  by rewrite (Z.eqb_sym 1 i).
Qed.

Lemma clear_SIE_off x : Z.testbit x 1 = false -> Z.land x (Z.lnot SSTATUS_SIE) = x.
Proof.
  intros H. apply Z.bits_inj'. intros i Hi. rewrite testbit_clear_SIE by done.
  destruct (Z.eqb_spec i 1) as [->|]; [by rewrite H|by rewrite andb_true_r].
Qed.

Lemma clear_set_SIE x :
  Z.testbit x 1 = true -> Z.lor (Z.land x (Z.lnot SSTATUS_SIE)) SSTATUS_SIE = x.
Proof.
  intros H. apply Z.bits_inj'. intros i Hi. rewrite Z.lor_spec, testbit_clear_SIE by done.
  change SSTATUS_SIE with (2 ^ 1). rewrite Z.pow2_bits_eqb, (Z.eqb_sym 1 i) by lia.
  destruct (Z.eqb_spec i 1) as [->|]; [by rewrite H|].
  by rewrite andb_true_r, orb_false_r.
Qed.

Lemma h_push_ok h : hart_ok h -> hart_ok (h_push h).
Proof.
  intros [H1 H2 H3]. split; simpl; [lia|lia|].
  intros _. rewrite h_intr_bit. simpl. by rewrite testbit_clear_SIE, andb_false_r by lia.
Qed.

(** Leaving a section undoes entering it, interrupt flag included. *)
Lemma h_pop_push h : hart_ok h -> h_pop (h_push h) = h.
Proof.
  intros [H1 H2 H3]. destruct h as [id pr noff intena sst locks]. simpl in *.
  unfold h_pop, h_push; simpl. rewrite h_intr_bit in *; simpl in *.
  replace (noff + 1 - 1) with noff by lia.
  destruct (Z.eqb_spec noff 0) as [->|Hn]; simpl.
  - rewrite H2 by done. destruct (Z.testbit sst 1) eqn:E; simpl.
    + by rewrite clear_set_SIE.
    + by rewrite clear_SIE_off.
  - specialize (H3 ltac:(lia)). destruct (Z.testbit sst 1) eqn:E; [done|].
    by rewrite clear_SIE_off.
Qed.

Lemma intr_get_run s : intr_get s = Ok (h_intr (k_hart s)) s.
Proof. done. Qed.
#[export] Hint Resolve intr_get_run : kernel.

Lemma push_off_run s : push_off s = Ok tt (set_hart h_push s).
Proof.
  unfold push_off, intr_off, sstatus, w_sstatus, whenM. mstep.
  unfold bind at 1. rewrite bind_gets. simpl. mstep. ksimp. simpl. destruct (Z.eqb_spec (h_noff (k_hart s)) 0) as [E|E];
    unfold modify, bind, ret; simpl; f_equal; unfold set_hart; simpl; f_equal;
    unfold h_push; destruct (Z.eqb_spec (h_noff (k_hart s)) 0); (done || lia).
Qed.

Lemma pop_off_run s :
  h_intr (k_hart s) = 0 -> 0 < h_noff (k_hart s) ->
  pop_off s = Ok tt (set_hart h_pop s).
Proof.
  intros Hi Hn. unfold pop_off. mstep. rewrite Hi. simpl. mstep.
  destruct (Z.ltb_spec (h_noff (k_hart s)) 1); [lia|]. repeat mstep. ksimp. simpl.
  unfold whenM, intr_on, w_sstatus, sstatus, bind, gets, modify, ret, set_hart, h_pop.
  simpl. by destruct ((h_noff (k_hart s) - 1 =? 0) && nz (h_intena (k_hart s))).
Qed.

Lemma myproc_run s : hart_ok (k_hart s) -> myproc s = Ok (h_proc (k_hart s)) s.
Proof.
  intros Hok. unfold myproc. erewrite bind_ok by apply push_off_run. mstep.
  erewrite bind_ok.
  2: { apply pop_off_run.
       - apply (ho_in _ (h_push_ok _ Hok)). simpl. pose proof (ho_noff _ Hok). lia.
       - ksimp. simpl. pose proof (ho_noff _ Hok). lia. }
  unfold ret, set_hart. simpl. by rewrite h_pop_push.
Qed.

Lemma myproc_deref_run s p :
  hart_ok (k_hart s) -> h_proc (k_hart s) = Some p -> myproc_deref s = Ok p s.
Proof. intros Hok Hp. unfold myproc_deref. mrun myproc_run. by rewrite Hp. Qed.
#[export] Hint Resolve myproc_run myproc_deref_run : kernel.

(** ** Equations of acquire and release *)

Lemma holding_run l s :
  holding l s =
  Ok (b2z (bool_decide (h_locks (k_hart s) !! l = Some (h_id (k_hart s))))) s.
Proof. done. Qed.
#[export] Hint Resolve holding_run : kernel.

Lemma acquire_run l s :
  lock_free l s -> acquire l s = Ok tt (set_hart (hart_lock l) s).
Proof.
  intros [Hok Hf]. unfold acquire. erewrite bind_ok by apply push_off_run.
  mstep. ksimp. simpl. rewrite Hf. simpl. mstep. ksimp. simpl. rewrite Hf. done.
Qed.

Lemma release_run l s :
  h_locks (k_hart s) !! l = Some (h_id (k_hart s)) ->
  h_intr (k_hart s) = 0 -> 0 < h_noff (k_hart s) ->
  release l s = Ok tt (set_hart (fun h => h_pop (h_set_locks (delete l) h)) s).
Proof.
  intros Hl Hi Hn. unfold release. mstep.
  rewrite bool_decide_true by done. simpl. mstep.
  rewrite pop_off_run; [done|exact Hi|exact Hn].
Qed.

Lemma hart_unlock_lock l h :
  hart_ok h -> h_locks h !! l = None ->
  h_pop (h_set_locks (delete l) (hart_lock l h)) = h.
Proof.
  intros Hok Hf. unfold hart_lock.
  replace (h_set_locks (delete l) (h_set_locks (<[l:=h_id h]>) (h_push h))) with (h_push h).
  - by apply h_pop_push.
  - unfold h_set_locks, h_push; simpl. by rewrite delete_insert_id.
Qed.

(** After [acquire l], once the critical section has changed nothing of the
    hart, [release l] gives back the hart of before the section. *)
Lemma release_locked l s h :
  hart_ok h -> h_locks h !! l = None -> k_hart s = hart_lock l h ->
  release l s = Ok tt (set_hart (fun _ => h) s).
Proof.
  intros Hok Hf Hs. rewrite release_run.
  - unfold set_hart. rewrite Hs. by rewrite hart_unlock_lock.
  - rewrite Hs. simpl. apply lookup_insert_eq.
  - rewrite Hs. apply (ho_in (hart_lock l h)).
    + destruct (h_push_ok h Hok). by split.
    + simpl. pose proof (ho_noff h Hok). lia.
  - rewrite Hs. simpl. pose proof (ho_noff h Hok). lia.
Qed.

Lemma hart_lock_ok l h : hart_ok h -> hart_ok (hart_lock l h).
Proof. intros H. destruct (h_push_ok h H). by split. Qed.

Lemma hart_lock_locks l h : h_locks (hart_lock l h) = <[l := h_id h]> (h_locks h).
Proof. done. Qed.

#[export] Hint Resolve acquire_run hart_lock_ok : kernel.

(** * Properties *)

Lemma panic_is_panic {A} msg s :
  u_panicked (k_uart s) = 0 -> exists s', @panic A msg s = Panic msg s'.
Proof.
  intros Hp.
  assert (Hput : forall c t, u_panicked (k_uart t) = 0 ->
    exists t', uartputc_wait c t = Ok tt t' /\ u_panicked (k_uart t') = 0).
  { intros c t Ht. unfold uartputc_wait. mstep. rewrite Ht. simpl.
    destruct (c =? 10); simpl; unfold write_thr, bind, modify, ret; simpl;
      eexists; split; reflexivity || exact Ht. }
  assert (Hall : forall l t, u_panicked (k_uart t) = 0 ->
    exists t', forM_ l uartputc_wait t = Ok tt t' /\ u_panicked (k_uart t') = 0).
  { induction l as [|c l IH]; intros t Ht; [by exists t|].
    destruct (Hput c t Ht) as (t1 & H1 & Ht1). cbn [forM_].
    erewrite bind_ok by exact H1. by apply IH. }
  unfold panic, intr_off, sstatus, w_sstatus. unfold bind at 1. rewrite bind_gets.
  simpl. mstep. set (s1 := set_uart _ _).
  assert (Hs1 : u_panicked (k_uart s1) = 0) by exact Hp.
  destruct (Hput 10 s1 Hs1) as (s2 & E2 & H2). erewrite bind_ok by exact E2.
  unfold puts_wait.
  destruct (Hall (bytes_of_string "panic: ") s2 H2) as (s3 & E3 & H3). erewrite bind_ok by exact E3.
  destruct (Hall (bytes_of_string msg) s3 H3) as (s4 & E4 & H4). erewrite bind_ok by exact E4.
  destruct (Hput 10 s4 H4) as (s5 & E5 & H5). erewrite bind_ok by exact E5.
  destruct (Hall (bytes_of_string "Rebooting K230...") s5 H5) as (s6 & E6 & H6).
  erewrite bind_ok by exact E6.
  destruct (Hput 10 s6 H6) as (s7 & E7 & H7). erewrite bind_ok by exact E7.
  mstep. eauto.
Qed.

(** A critical section that leaves the hart alone returns the hart to its
    state before the section: the lock is free again, the nesting depth is
    the old one and interrupts are enabled exactly if they were. *)
Lemma critical_section l f s :
  lock_free l s -> (forall t, k_hart (f t) = k_hart t) ->
  (acquire l ;; modify f ;; release l) s =
  Ok tt (set_hart (fun _ => k_hart s) (f (set_hart (hart_lock l) s))).
Proof.
  intros Hf Hk. mrun acquire_run. mstep.
  destruct Hf as [Hok Hl]. rewrite (release_locked l _ (k_hart s)); [done..|].
  by rewrite Hk.
Qed.

(** acquire followed by release is the identity on the kernel state:
    nested or not, with interrupts on or off, the lock table, the nesting
    depth, [intena] and the interrupt flag all return to their values. *)
Theorem acquire_release_id l s :
  lock_free l s -> (acquire l ;; release l) s = Ok tt s.
Proof.
  intros Hf. mrun acquire_run. destruct Hf as [Hok Hl].
  by rewrite (release_locked l _ (k_hart s)).
Qed.

(** the error paths of the spin lock: acquiring a lock this hart holds
    and releasing one it does not hold panic, and [pop_off] panics when it is
    not matched by a [push_off] or finds interrupts enabled. *)
Theorem spinlock_misuse_panics l s :
  u_panicked (k_uart s) = 0 ->
  (h_locks (k_hart s) !! l = Some (h_id (k_hart s)) ->
     exists s', acquire l s = Panic "acquire" s') /\
  (h_locks (k_hart s) !! l <> Some (h_id (k_hart s)) ->
     exists s', release l s = Panic "release" s') /\
  (h_intr (k_hart s) = 1 -> exists s', pop_off s = Panic "pop_off - interruptible" s') /\
  (h_intr (k_hart s) = 0 -> h_noff (k_hart s) < 1 -> exists s', pop_off s = Panic "pop_off" s').
Proof.
  intros Hp. split; [|split; [|split]].
  - intros Hl. unfold acquire. erewrite bind_ok by apply push_off_run.
    mstep. ksimp. simpl. rewrite bool_decide_true by done. simpl.
    by apply panic_is_panic.
  - intros Hl. unfold release. mstep. rewrite bool_decide_false by done.
    simpl. by apply panic_is_panic.
  - intros Hi. unfold pop_off. mstep. rewrite Hi. simpl. by apply panic_is_panic.
  - intros Hi Hn. unfold pop_off. mstep. rewrite Hi. simpl. mstep.
    destruct (Z.ltb_spec (h_noff (k_hart s)) 1); [|lia]. by apply panic_is_panic.
Qed.

(** * The theorems at concrete states *)

Lemma hart_ok_idle id p m : hart_ok (mkhart id p 0 0 0 m).
Proof. by split. Qed.
#[export] Hint Resolve hart_ok_idle : kernel.

Lemma boot_lock_free l : lock_free l boot_state.
Proof. split; [apply hart_ok_idle|apply lookup_empty]. Qed.
#[export] Hint Resolve boot_lock_free : kernel.

Lemma acquire_release_id_witness :
  lock_free LKmem boot_state /\ (acquire LKmem ;; release LKmem) boot_state = Ok tt boot_state.
Proof.
  split; [apply boot_lock_free|]. apply (acquire_release_id LKmem boot_state).
  apply boot_lock_free.
Defined.

Lemma spinlock_misuse_panics_witness :
  exists s', release LKmem boot_state = Panic "release" s'.
Proof.
  apply (proj1 (proj2 (spinlock_misuse_panics LKmem boot_state eq_refl))). vm_compute. discriminate.
Defined.
