(* ===== verification/Printf.v ===== *)
(** Formatted output of kernel/uart.c: uartputc_sync, consputc, printint,
    printptr and printf. *)

From stdpp Require Import base gmap strings numbers list.
From S2P Require Import Prelude KState KString Spinlock.

(** * Definitions *)

Definition panicking : K Z := gets (fun s => u_panicking (k_uart s)).

Definition uartputc_sync (c : Z) : K unit :=
  let! pk := panicking in
  whenM (pk =? 0) push_off ;;
  uartputc_wait c ;;
  let! pk' := panicking in
  whenM (pk' =? 0) pop_off.

Definition BACKSPACE : Z := 0x100.
Definition consputc (c : Z) : K unit :=
  if c =? BACKSPACE
  then uartputc_sync 8 ;; uartputc_sync 32 ;; uartputc_sync 8
  else uartputc_sync c.

(** ["0123456789abcdef"] *)
Definition digits : list Z := bytes_of_string "0123456789abcdef".
Definition digit (d : Z) : Z := zget digits d.

(** [do { buf[i++] = digits[x % base]; } while((x /= base) != 0);] : the
    buffer, least significant digit first *)
Fixpoint printint_digits (fuel : nat) (x base : Z) : list Z :=
  match fuel with
  | O => []
  | S fuel' =>
      digit (x mod base) ::
      (if nz (x / base) then printint_digits fuel' (x / base) base else [])
  end.

(** The buffer of [printint xx base sign] (size 20 in the source); [xx] is a
    64-bit signed value.  64 iterations are enough for any base. *)
Definition printint_buf (xx base : Z) (sign : bool) : list Z :=
  let neg := sign && (xx <? 0) in
  let x := u64 (if neg then - xx else xx) in
  printint_digits 64 x base ++ (if neg then [45] else []).

Definition printint (xx base : Z) (sign : bool) : K unit :=
  forM_ (rev (printint_buf xx base sign)) uartputc_sync.

(** [for (i = 0; i < 16; i++, x <<= 4) uartputc_sync(digits[x >> 60]);] *)
Fixpoint printptr_digits (n : nat) (x : Z) : list Z :=
  match n with
  | O => []
  | S n' => digit (Z.shiftr x 60) :: printptr_digits n' (u64 (Z.shiftl x 4))
  end.
Definition printptr (x : Z) : K unit :=
  uartputc_sync 48 ;; uartputc_sync 120 ;;
  forM_ (printptr_digits 16 (u64 x)) uartputc_sync.

(** variadic arguments: a 64-bit word or a string pointer *)
Inductive va := VWord (w : Z) | VStr (p : option (list Z)).

Definition va_int (a : va) : option Z :=
  match a with VWord w => Some (s32 w) | VStr _ => None end.
Definition va_uint64 (a : va) : option Z :=
  match a with VWord w => Some (u64 w) | VStr _ => None end.

(** C converts a [uint64] argument to the [long long] parameter of printint. *)
Definition s64 (x : Z) : Z := signed 64 x.

(** One pass of the format loop: [fmt] is the format from position [i] on,
    without the terminating NUL. *)
Fixpoint printf_loop (fmt : list Z) (ap : list va) : K unit :=
  match fmt with
  | [] => ret tt
  | cx :: fmt1 =>
      if negb (cx =? 37) then uartputc_sync cx ;; printf_loop fmt1 ap
      else
        match fmt1 with
        | [] => uartputc_sync 37 ;; uartputc_sync 0 ;; ub "printf: format past NUL"
        | c0 :: fmt2 =>
            let c1 := zget fmt2 0 in
            let va_arg {A} (ty : va -> option A) (k : A -> list va -> K unit) : K unit :=
              match ap with
              | a :: ap' => match ty a with Some x => k x ap' | None => ub "va_arg" end
              | [] => ub "va_arg"
              end in
            if c0 =? 100 (* d *)
            then va_arg va_int (fun x ap' => printint x 10 true ;; printf_loop fmt2 ap')
            else if (c0 =? 108) && (c1 =? 100) (* ld *)
            then va_arg va_uint64 (fun x ap' =>
                   printint (s64 x) 10 true ;;
                   match fmt2 with [] => ret tt | _ :: fmt3 => printf_loop fmt3 ap' end)
            else if c0 =? 120 (* x *)
            then va_arg va_int (fun x ap' => printint x 16 false ;; printf_loop fmt2 ap')
            else if c0 =? 112 (* p *)
            then va_arg va_uint64 (fun x ap' => printptr x ;; printf_loop fmt2 ap')
            else if c0 =? 115 (* s *)
            then match ap with
                 | VStr p :: ap' =>
                     forM_ (match p with Some t => t | None => bytes_of_string "(null)" end)
                           uartputc_sync ;;
                     printf_loop fmt2 ap'
                 | _ => ub "va_arg"
                 end
            else if c0 =? 37 (* % *)
            then uartputc_sync 37 ;; printf_loop fmt2 ap
            else uartputc_sync 37 ;; uartputc_sync c0 ;; printf_loop fmt2 ap
        end
  end.

Definition printf (fmt : string) (ap : list va) : K unit :=
  let! pk := panicking in
  whenM (pk =? 0) (acquire LPr) ;;
  printf_loop (bytes_of_string fmt) ap ;;
  let! pk' := panicking in
  whenM (pk' =? 0) (release LPr).

(** * Output equations *)

(** the bytes the UART receives for one character, and for a string *)
Definition out1 (c : Z) : list Z := (if c =? 10 then [13] else []) ++ [u8 c].
Definition outs (l : list Z) : list Z := concat (map out1 l).

Definition emit (o : list Z) : kstate -> kstate := set_uart (u_set_out (fun x => x ++ o)).

(** the console can print: no panic has happened *)
Definition quiet_uart (s : kstate) : Prop :=
  u_panicking (k_uart s) = 0 /\ u_panicked (k_uart s) = 0.

Lemma uartputc_wait_run c s :
  u_panicked (k_uart s) = 0 -> uartputc_wait c s = Ok tt (emit (out1 c) s).
Proof.
  intros Hp. unfold uartputc_wait. mstep. rewrite Hp. simpl.
  unfold out1, emit, write_thr. destruct (c =? 10); simpl;
    unfold bind, modify, ret; simpl; unfold set_uart, u_set_out; simpl; [|done].
  by rewrite <-app_assoc.
Qed.

Lemma emit_nil s : emit [] s = s.
Proof.
  unfold emit, set_uart, u_set_out. rewrite app_nil_r.
  by destruct s as [? ? ? ? ? ? ? ? ? ? ? ? ? ? ? ? ? ? [] ? ?].
Qed.

Lemma emit_app o1 o2 s : emit o2 (emit o1 s) = emit (o1 ++ o2) s.
Proof. unfold emit, set_uart, u_set_out. simpl. by rewrite app_assoc. Qed.

Lemma uartputc_sync_run c s :
  hart_ok (k_hart s) -> quiet_uart s -> uartputc_sync c s = Ok tt (emit (out1 c) s).
Proof.
  intros Hok [H1 H2]. unfold uartputc_sync, panicking. mstep. rewrite H1.
  unfold whenM. cbn [Z.eqb]. mrun push_off_run.
  mrun uartputc_wait_run. mstep.
  change (u_panicking _) with (u_panicking (k_uart s)). rewrite H1. cbn [Z.eqb].
  rewrite pop_off_run.
  - unfold emit, set_hart, set_uart. simpl. by rewrite h_pop_push.
  - apply (ho_in _ (h_push_ok _ Hok)). simpl. pose proof (ho_noff _ Hok). lia.
  - simpl. pose proof (ho_noff _ Hok). lia.
Qed.

Lemma uartputc_all_run l s :
  hart_ok (k_hart s) -> quiet_uart s ->
  forM_ l uartputc_sync s = Ok tt (emit (outs l) s).
Proof.
  revert s. induction l as [|c l IH]; intros s Hok Hq; cbn [forM_].
  { unfold outs. simpl. by rewrite emit_nil. }
  mrun uartputc_sync_run. rewrite IH; [|exact Hok|exact Hq].
  unfold outs. simpl. by rewrite emit_app.
Qed.

(** * printf on a format that matches its arguments *)

(** a computation that only writes to the UART *)
Definition emits (m : K unit) : Prop :=
  forall s, hart_ok (k_hart s) -> quiet_uart s -> exists o, m s = Ok tt (emit o s).

Lemma emits_bind m k : emits m -> emits k -> emits (m ;; k).
Proof.
  intros Hm Hk s Hh Hq. destruct (Hm s Hh Hq) as [o Eo]. erewrite bind_ok by exact Eo.
  destruct (Hk (emit o s)) as [o' Eo']; [exact Hh|exact Hq|].
  exists (o ++ o'). by rewrite Eo', emit_app.
Qed.

Lemma emits_ret : emits (ret tt).
Proof. intros s _ _. exists []. by rewrite emit_nil. Qed.

Lemma emits_putc c : emits (uartputc_sync c).
Proof. intros s Hh Hq. eexists. by apply uartputc_sync_run. Qed.

Lemma emits_puts l : emits (forM_ l uartputc_sync).
Proof. intros s Hh Hq. eexists. by apply uartputc_all_run. Qed.

#[export] Hint Resolve emits_bind emits_ret emits_putc emits_puts : kernel.

(** the arguments agree with the conversions of the format *)
Fixpoint fmt_ok (fmt : list Z) (ap : list va) : bool :=
  match fmt with
  | [] => true
  | cx :: fmt1 =>
      if negb (cx =? 37) then fmt_ok fmt1 ap
      else
        match fmt1 with
        | [] => false
        | c0 :: fmt2 =>
            if (c0 =? 100) || (c0 =? 120) || (c0 =? 112)
            then match ap with VWord _ :: ap' => fmt_ok fmt2 ap' | _ => false end
            else if (c0 =? 108) && (zget fmt2 0 =? 100)
            then match ap, fmt2 with
                 | VWord _ :: ap', _ :: fmt3 => fmt_ok fmt3 ap'
                 | _, _ => false
                 end
            else if c0 =? 115
            then match ap with VStr _ :: ap' => fmt_ok fmt2 ap' | _ => false end
            else fmt_ok fmt2 ap
        end
  end.

Lemma printf_loop_emits n fmt ap :
  (length fmt <= n)%nat -> fmt_ok fmt ap = true -> emits (printf_loop fmt ap).
Proof.
  revert fmt ap. induction n as [|n IH]; intros fmt ap Hn Hf.
  { destruct fmt; [apply emits_ret|simpl in Hn; lia]. }
  destruct fmt as [|cx fmt1]; [apply emits_ret|]. simpl in Hn. cbn [printf_loop fmt_ok] in *.
  destruct (negb (cx =? 37)).
  { apply emits_bind; [auto with kernel|]. apply IH; [lia|done]. }
  destruct fmt1 as [|c0 fmt2]; [done|]. simpl in Hn.
  assert (Hrec : forall ap, fmt_ok fmt2 ap = true -> emits (printf_loop fmt2 ap))
    by (intros; apply IH; [lia|done]).
  destruct (c0 =? 100); cbn [orb] in Hf.
  { destruct ap as [|[w|t] ap]; [done| |done]. simpl.
    apply emits_bind; [apply emits_puts|auto]. }
  destruct (Z.eqb_spec c0 108) as [->|]; cbn [andb Z.eqb orb Pos.eqb] in *.
  { destruct (zget fmt2 0 =? 100); [|].
    - destruct ap as [|[w|t] ap]; [done| |done]. destruct fmt2 as [|c1 fmt3]; [done|]. simpl.
      apply emits_bind; [apply emits_puts|]. simpl in Hn. apply IH; [lia|done].
    - auto with kernel. }
  destruct (c0 =? 120); cbn [orb] in Hf.
  { destruct ap as [|[w|t] ap]; [done| |done]. simpl.
    apply emits_bind; [apply emits_puts|auto]. }
  destruct (c0 =? 112); cbn [orb] in Hf.
  { destruct ap as [|[w|t] ap]; [done| |done]. cbn [va_uint64]. unfold printptr.
    apply emits_bind; [auto 6 with kernel|auto]. }
  destruct (c0 =? 115).
  { destruct ap as [|[w|t] ap]; [done|done|]. apply emits_bind; [apply emits_puts|auto]. }
  destruct (c0 =? 37); auto with kernel.
Qed.

(** [printf] on a well-formed call writes to the UART and does nothing else *)
Lemma printf_run fmt ap s :
  hart_ok (k_hart s) -> h_locks (k_hart s) !! LPr = None -> quiet_uart s ->
  fmt_ok (bytes_of_string fmt) ap = true ->
  exists o, printf fmt ap s = Ok tt (emit o s).
Proof.
  intros Hh Hl Hq Hf. unfold printf, panicking. mstep. rewrite (proj1 Hq). cbn [Z.eqb whenM].
  erewrite bind_ok by (apply acquire_run; by split).
  destruct (printf_loop_emits _ _ _ (le_n _) Hf (set_hart (hart_lock LPr) s)) as [o E].
  { by apply hart_lock_ok. }
  { exact Hq. }
  erewrite bind_ok by exact E. mstep.
  change (u_panicking (k_uart (emit o (set_hart (hart_lock LPr) s))))
    with (u_panicking (k_uart s)). rewrite (proj1 Hq). cbn [Z.eqb whenM].
  rewrite (release_locked LPr _ (k_hart s)) by done. by exists o.
Qed.
