(* ===== verification/PrintfSpec.v ===== *)
(** Theorems about the formatted output of uart.c: the digits printint
    produces decode to the number, its 20-byte buffer is large enough, and
    conversions printf does not know leave their argument behind. *)

From stdpp Require Import base gmap strings numbers list.
From S2P Require Import Prelude KState KString Spinlock Printf.

(** * Reading numerals back *)

Definition digit_val (c : Z) : Z := if c <=? 57 then c - 48 else c - 87.
Definition num_of (base : Z) (l : list Z) : Z := foldl (fun a c => a * base + digit_val c) 0 l.
Definition signed_of (base : Z) (l : list Z) : Z :=
  match l with
  | c :: l' => if c =? 45 then - num_of base l' else num_of base l
  | [] => 0
  end.

(** the characters of a numeral *)
Definition digit_char (c : Z) : Prop := 48 <= c <= 57 \/ 97 <= c <= 102.

Lemma digit_roundtrip d : 0 <= d < 16 -> digit_val (digit d) = d /\ digit_char (digit d).
Proof.
  intros Hd. assert (d ∈ zseq 0 16) as Hin.
  { unfold zseq. rewrite list_elem_of_In, in_map_iff. exists (Z.to_nat d). split; [lia|]. apply in_seq. lia. }
  clear Hd. revert d Hin. apply Forall_forall.
  repeat (constructor; [split; [reflexivity|unfold digit_char; vm_compute; first [left; split; discriminate|right; split; discriminate]]|]).
  constructor.
Qed.

Lemma num_of_snoc base l c : num_of base (l ++ [c]) = num_of base l * base + digit_val c.
Proof. unfold num_of. by rewrite foldl_app. Qed.

(** ** The digit loop *)

Section digits.
Context (base : Z) (Hbase : 2 <= base <= 16).

Lemma printint_digits_val fuel : forall x,
  0 <= x < base ^ Z.of_nat fuel -> (0 < fuel)%nat ->
  num_of base (rev (printint_digits fuel x base)) = x /\
  Forall digit_char (printint_digits fuel x base).
Proof.
  induction fuel as [|fuel IH]; intros x Hx Hf; [lia|]. cbn [printint_digits rev].
  pose proof (Z.mod_pos_bound x base ltac:(lia)) as Hm.
  destruct (digit_roundtrip (x mod base)) as [Hd Hne]; [lia|].
  rewrite num_of_snoc, Hd. pose proof (Z.div_mod x base ltac:(lia)) as Hdm.
  destruct (nz (x / base)) eqn:E.
  - apply nz_true in E.
    assert (Hq : 0 <= x / base < base ^ Z.of_nat fuel).
    { split; [apply Z.div_pos; lia|]. apply Z.div_lt_upper_bound; [lia|].
      rewrite Nat2Z.inj_succ, Z.pow_succ_r in Hx by lia. lia. }
    destruct fuel as [|fuel].
    { change (base ^ Z.of_nat 0) with 1 in Hq. lia. }
    destruct (IH (x / base) Hq) as [-> Hall]; [lia|]. split; [lia|by constructor].
  - apply nz_false in E. unfold num_of. simpl. rewrite E in Hdm. split; [lia|by constructor].
Qed.

Lemma printint_digits_len n : forall fuel x,
  0 <= x < base ^ Z.of_nat n -> (0 < n)%nat -> (length (printint_digits fuel x base) <= n)%nat.
Proof.
  induction n as [|n IH]; intros fuel x Hx Hn; [lia|].
  destruct fuel as [|fuel]; cbn [printint_digits length]; [lia|].
  destruct (nz (x / base)) eqn:E; [|simpl; lia]. apply nz_true in E.
  assert (Hq : 0 <= x / base < base ^ Z.of_nat n).
  { split; [apply Z.div_pos; lia|]. apply Z.div_lt_upper_bound; [lia|].
    rewrite Nat2Z.inj_succ, Z.pow_succ_r in Hx by lia. lia. }
  destruct n as [|n].
  { change (base ^ Z.of_nat 0) with 1 in Hq. lia. }
  specialize (IH fuel (x / base) Hq). lia.
Qed.

Lemma pow_ge_2 n : 2 ^ Z.of_nat n <= base ^ Z.of_nat n.
Proof. apply Z.pow_le_mono_l. lia. Qed.
End digits.

(** ** The buffer *)

Lemma printint_buf_spec xx base sign :
  base = 10 \/ base = 16 -> - 2 ^ 63 <= xx < 2 ^ 63 ->
  (length (printint_buf xx base sign) <= 20)%nat /\
  signed_of base (rev (printint_buf xx base sign)) = if sign then xx else u64 xx.
Proof.
  intros Hb Hx. assert (Hb' : 2 <= base <= 16) by lia. unfold printint_buf.
  set (neg := sign && (xx <? 0)). set (x := u64 (if neg then - xx else xx)).
  assert (Hxr : 0 <= x < base ^ Z.of_nat 64).
  { pose proof (u64_range (if neg then - xx else xx)). pose proof (pow_ge_2 base Hb' 64).
    change (2 ^ Z.of_nat 64) with (2 ^ 64) in *. fold x in H. lia. }
  destruct (printint_digits_val base Hb' 64 x Hxr) as [Hv Hall]; [lia|].
  destruct neg eqn:En.
  - unfold neg in En. apply andb_true_iff in En as [Hs Hlt]. apply Z.ltb_lt in Hlt. subst sign.
    assert (Ex : x = - xx) by (apply u64_small; lia).
    split.
    + rewrite length_app. cbn [length].
      assert (length (printint_digits 64 x base) <= 19)%nat; [|lia].
      apply printint_digits_len; [done| |lia]. rewrite Ex.
      destruct Hb as [->| ->]; [change (10 ^ Z.of_nat 19) with 10000000000000000000
                                |change (16 ^ Z.of_nat 19) with (2 ^ 76)]; lia.
    + rewrite rev_app_distr. cbn [rev app signed_of]. rewrite Z.eqb_refl, Hv. lia.
  - rewrite app_nil_r. split.
    + apply printint_digits_len; [done| |lia]. pose proof (u64_range xx) as Hu.
      change (0 <= u64 xx < base ^ Z.of_nat 20).
      destruct Hb as [->| ->]; [change (10 ^ Z.of_nat 20) with 100000000000000000000
                                |change (16 ^ Z.of_nat 20) with (2 ^ 80)]; lia.
    + assert (Hpos : signed_of base (rev (printint_digits 64 x base)) =
                     num_of base (rev (printint_digits 64 x base))).
      { destruct (rev (printint_digits 64 x base)) as [|c l] eqn:E; [done|].
        cbn [signed_of]. destruct (Z.eqb_spec c 45) as [->|]; [|done].
        rewrite Forall_forall in Hall. exfalso. assert (digit_char 45) as Hc.
        { apply Hall. rewrite list_elem_of_In, in_rev, E. by left. }
        unfold digit_char in Hc. lia. }
      rewrite Hpos, Hv. unfold x. destruct sign; [|done].
      unfold neg in En. cbn [andb] in En. apply Z.ltb_ge in En. apply u64_small. lia.
Qed.

(** such characters reach the UART unchanged *)
Lemma outs_plain l : Forall (fun c => digit_char c \/ c = 45) l -> outs l = l.
Proof.
  induction 1 as [|c l Hc _ IH]; [done|]. unfold outs in *. cbn [map concat]. rewrite IH.
  unfold out1, digit_char in *. destruct (Z.eqb_spec c 10); [lia|]. rewrite u8_small by lia. done.
Qed.

Lemma printint_buf_plain xx base sign :
  2 <= base <= 16 -> Forall (fun c => digit_char c \/ c = 45) (printint_buf xx base sign).
Proof.
  intros Hb. unfold printint_buf. set (neg := sign && (xx <? 0)). set (x := u64 _).
  apply Forall_app. split.
  - pose proof (u64_range (if neg then - xx else xx)) as Hu. fold x in Hu.
    pose proof (pow_ge_2 base Hb 64) as Hp. change (2 ^ Z.of_nat 64) with (2 ^ 64) in Hp.
    destruct (printint_digits_val base Hb 64 x) as [_ Hall]; [lia|lia|].
    eapply Forall_impl; [exact Hall|]. auto.
  - destruct neg; [|constructor]. apply Forall_singleton. by right.
Qed.

(** * Properties *)

(** printint writes a numeral of at most 20 characters, the size of its
    buffer, that reads back as the number: the signed value in signed mode,
    the 64-bit pattern otherwise, in base 10 and 16 and for every 64-bit
    value, the most negative one included; nothing but the UART output
    changes. *)
Theorem printint_correct xx base sign s :
  base = 10 \/ base = 16 -> - 2 ^ 63 <= xx < 2 ^ 63 -> hart_ok (k_hart s) -> quiet_uart s ->
  exists digits, printint xx base sign s = Ok tt (emit digits s) /\
    (length digits <= 20)%nat /\ signed_of base digits = if sign then xx else u64 xx.
Proof.
  intros Hb Hx Hh Hq. destruct (printint_buf_spec xx base sign Hb Hx) as [Hl Hv].
  exists (rev (printint_buf xx base sign)). split; [|by rewrite length_rev].
  unfold printint. rewrite uartputc_all_run by done. do 2 f_equal.
  apply outs_plain, Forall_rev, printint_buf_plain. lia.
Qed.

Lemma printint_correct_witness :
  exists digits, printint (- 2 ^ 63) 10 true boot_state = Ok tt (emit digits boot_state) /\
    (length digits <= 20)%nat /\ signed_of 10 digits = - 2 ^ 63.
Proof.
  apply (printint_correct (- 2 ^ 63) 10 true boot_state).
  - left. reflexivity.
  - lia.
  - apply hart_ok_idle.
  - split; reflexivity.
Defined.

(** a conversion printf does not implement, such as the [%lx] of
    usertrap's messages, is printed as it is written and takes no argument:
    the next conversion takes the argument that was meant for it. *)
Theorem printf_unknown_conversion c fmt ap s :
  c <> 100 -> c <> 120 -> c <> 112 -> c <> 115 -> c <> 37 ->
  (c = 108 -> zget fmt 0 <> 100) -> hart_ok (k_hart s) -> quiet_uart s ->
  printf_loop (37 :: c :: fmt) ap s = printf_loop fmt ap (emit (out1 37 ++ out1 c) s).
Proof.
  intros H1 H2 H3 H4 H5 H6 Hh Hq. cbn [printf_loop]. change (negb (37 =? 37)) with false. cbv iota.
  rewrite (proj2 (Z.eqb_neq c 100) H1), (proj2 (Z.eqb_neq c 120) H2), (proj2 (Z.eqb_neq c 112) H3),
    (proj2 (Z.eqb_neq c 115) H4), (proj2 (Z.eqb_neq c 37) H5).
  assert ((c =? 108) && (zget fmt 0 =? 100) = false) as ->.
  { destruct (Z.eqb_spec c 108) as [->|]; [|done]. simpl. apply Z.eqb_neq. auto. }
  erewrite bind_ok by (by apply uartputc_sync_run).
  erewrite bind_ok by (by apply uartputc_sync_run). by rewrite emit_app.
Qed.

Lemma printf_unknown_conversion_witness :
  printf_loop (bytes_of_string "%lx %d") [VWord 13; VWord 2] boot_state =
  printf_loop (bytes_of_string "x %d") [VWord 13; VWord 2] (emit [37; 108] boot_state).
Proof.
  apply (printf_unknown_conversion 108 (bytes_of_string "x %d") [VWord 13; VWord 2] boot_state);
    try discriminate.
  - apply hart_ok_idle.
  - split; reflexivity.
Defined.
