(* ===== verification/Kalloc.v ===== *)
(** kernel/kalloc.c: the physical page allocator.

    The free list is threaded through the free pages themselves: [r->next]
    is the 64-bit word at the start of page [r]. *)

From stdpp Require Import base gmap strings numbers list.
From S2P Require Import Prelude KState KString Spinlock.

(** * Definitions *)

Definition memsetM (dst c n : Z) : K unit := modify (set_mem (fun m => memset m dst c n)).
Definition memmoveM (dst src n : Z) : K unit := modify (set_mem (fun m => memmove m dst src n)).
Definition load64 (a : Z) : K Z := gets (fun s => ld64 (k_mem s) a).
Definition store64 (a x : Z) : K unit := modify (set_mem (fun m => st64 m a x)).

Definition kfree (pa : Z) : K unit :=
  let! im := gets k_img in
  if negb (pa mod PGSIZE =? 0) || (pa <? im_end im) || (PHYSTOP <=? pa)
  then panic "kfree"
  else
    memsetM pa 1 PGSIZE ;;
    acquire LKmem ;;
    let! fl := gets k_freelist in
    store64 pa fl ;;
    modify (set_freelist (fun _ => pa)) ;;
    release LKmem.

Definition kalloc : K Z :=
  acquire LKmem ;;
  let! r := gets k_freelist in
  whenM (nz r) (let! next := load64 r in modify (set_freelist (fun _ => next))) ;;
  release LKmem ;;
  whenM (nz r) (memsetM r 5 PGSIZE) ;;
  ret r.

(** [for(; p + PGSIZE <= pa_end; p += PGSIZE) kfree(p);] : the number of
    iterations is the number of whole pages of the range. *)
Definition freerange (pa_start pa_end : Z) : K unit :=
  let p := PGROUNDUP pa_start in
  forM_ (map (fun k => p + k * PGSIZE) (zseq 0 (Z.to_nat ((pa_end - p) / PGSIZE)))) kfree.

Definition kinit : K unit :=
  initlock LKmem ;;
  let! im := gets k_img in
  freerange (im_end im) PHYSTOP.

(** * The free list as a list of pages *)

(** a page the allocator hands out *)
Definition good_page (im : image) (pa : Z) : Prop :=
  pa mod PGSIZE = 0 /\ 0 < pa /\ im_end im <= pa < PHYSTOP.

(** the list starting at [r] has the pages [l] *)
Fixpoint chain (m : mem) (r : Z) (l : list Z) : Prop :=
  match l with
  | [] => r = 0
  | pa :: l' => r = pa /\ chain m (ld64 m pa) l'
  end.

(** [s] has the free pages [l], first the one allocated next *)
Record free_pages (s : kstate) (l : list Z) : Prop := {
  fp_chain : chain (k_mem s) (k_freelist s) l;
  fp_good : Forall (good_page (k_img s)) l;
  fp_nodup : NoDup l
}.

Definition page_disjoint (p q : Z) : Prop := p + PGSIZE <= q \/ q + PGSIZE <= p.

Lemma aligned_disjoint p q :
  p mod PGSIZE = 0 -> q mod PGSIZE = 0 -> p <> q -> page_disjoint p q.
Proof.
  unfold page_disjoint, PGSIZE. intros Hp Hq Hne.
  apply Z.mod_divide in Hp as [a ->]; [|lia].
  apply Z.mod_divide in Hq as [b ->]; [|lia]. lia.
Qed.

Lemma good_page_pos im pa : good_page im pa -> 0 < pa < 2 ^ 64 - PGSIZE.
Proof. unfold good_page, PHYSTOP, KERNBASE, PGSIZE. lia. Qed.

Lemma chain_ext m m' r l :
  (forall pa, pa ∈ l -> ld64 m pa = ld64 m' pa) -> chain m r l -> chain m' r l.
Proof.
  revert r. induction l as [|p l IH]; intros r H; cbn [chain]; [done|].
  intros [-> Hc]. split; [done|]. rewrite <-(H p) by set_solver.
  apply IH; [|done]. intros q Hq. apply H. set_solver.
Qed.

(** A page that is not on the list can be overwritten. *)
Lemma chain_write_page m m' p r l im :
  Forall (good_page im) l -> p mod PGSIZE = 0 -> p ∉ l ->
  (forall a, a < p \/ p + PGSIZE <= a -> ldb m' a = ldb m a) ->
  chain m r l -> chain m' r l.
Proof.
  intros Hg Hp Hn Hout. apply chain_ext. intros q Hq.
  rewrite Forall_forall in Hg. destruct (Hg q Hq) as [Hq1 Hq2].
  assert (page_disjoint q p) as Hd by (apply aligned_disjoint; [done..|]; congruence).
  apply ld64_ext. intros b Hb. symmetry. apply Hout. unfold page_disjoint, PGSIZE in *. lia.
Qed.

Lemma ldb_memset_out m p c a :
  a < p \/ p + PGSIZE <= a -> ldb (memset m p c PGSIZE) a = ldb m a.
Proof.
  intros H. rewrite memset_spec by (unfold PGSIZE; lia).
  destruct (Z.leb_spec p a), (Z.ltb_spec a (p + PGSIZE)); simpl; (done || lia).
Qed.

(** ** Equations *)

Definition kfree_mem (m : mem) (pa fl : Z) : mem := st64 (memset m pa 1 PGSIZE) pa fl.

Lemma kfree_run pa s :
  good_page (k_img s) pa -> lock_free LKmem s ->
  kfree pa s =
  Ok tt (set_freelist (fun _ => pa) (set_mem (fun m => kfree_mem m pa (k_freelist s)) s)).
Proof.
  intros (Ha & Hp & He) Hf. unfold kfree. mstep.
  rewrite Ha. destruct (Z.ltb_spec pa (im_end (k_img s))); [lia|].
  destruct (Z.leb_spec PHYSTOP pa); [lia|]. cbn [Z.eqb negb orb].
  unfold memsetM. mstep. mrun acquire_run. mstep. unfold store64. mstep. mstep. ksimp.
  destruct Hf as [Hok Hl]. rewrite (release_locked LKmem _ (k_hart s)) by done.
  unfold kfree_mem, set_freelist, set_mem, set_hart. cbn. reflexivity.
Qed.

Lemma kfree_bad pa s :
  u_panicked (k_uart s) = 0 ->
  pa mod PGSIZE <> 0 \/ pa < im_end (k_img s) \/ PHYSTOP <= pa ->
  exists s', kfree pa s = Panic "kfree" s'.
Proof.
  intros Hu Hbad. unfold kfree. mstep.
  destruct (_ || _) eqn:E; [by apply panic_is_panic|exfalso].
  apply orb_false_iff in E as [E E3]. apply orb_false_iff in E as [E1 E2].
  apply negb_false_iff, Z.eqb_eq in E1. apply Z.ltb_ge in E2. apply Z.leb_gt in E3. lia.
Qed.

Lemma kalloc_empty s :
  k_freelist s = 0 -> lock_free LKmem s -> kalloc s = Ok 0 s.
Proof.
  intros H0 Hf. unfold kalloc. mrun acquire_run. mstep. ksimp. rewrite H0.
  change (nz 0) with false. unfold whenM. mstep.
  destruct Hf as [Hok Hl].
  erewrite bind_ok by by apply (release_locked LKmem _ (k_hart s)).
  mstep. done.
Qed.

Lemma kalloc_run s r :
  k_freelist s = r -> r <> 0 -> lock_free LKmem s ->
  kalloc s =
  Ok r (set_mem (fun m => memset m r 5 PGSIZE) (set_freelist (fun _ => ld64 (k_mem s) r) s)).
Proof.
  intros <- Hr Hf. unfold kalloc. mrun acquire_run. mstep. ksimp.
  rewrite (proj2 (nz_true _) Hr). unfold whenM, load64, memsetM.
  unfold bind at 1. rewrite bind_gets. simpl.
  destruct Hf as [Hok Hl].
  erewrite bind_ok by by apply (release_locked LKmem _ (k_hart s)).
  mstep. done.
Qed.

(** ** Refinement: the allocator is a stack of pages *)

Lemma kfree_pushes pa s l :
  free_pages s l -> lock_free LKmem s -> good_page (k_img s) pa -> pa ∉ l ->
  exists s', kfree pa s = Ok tt s' /\ free_pages s' (pa :: l) /\ k_hart s' = k_hart s /\
             k_img s' = k_img s.
Proof.
  intros [Hc Hg Hn] Hf Hp Hpl. eexists. split; [by apply kfree_run|]. ksimp.
  split; [|done]. destruct (good_page_pos _ _ Hp) as [Hp0 Hp1].
  assert (Hfl : 0 <= k_freelist s < 2 ^ 64).
  { destruct l as [|q l]; cbn [chain] in Hc; [lia|]. destruct Hc as [-> _].
    apply Forall_cons in Hg as [Hq _]. apply good_page_pos in Hq.
    unfold PGSIZE in Hq. lia. }
  split; [|by constructor|by constructor]. ksimp. split; [done|].
  unfold kfree_mem. rewrite ld64_st64_eq, u64_small by done.
  apply (chain_write_page (k_mem s) _ pa _ l (k_img s)); [done|apply Hp|done| |done].
  intros a Ha. rewrite ldb_st64_out by (unfold PGSIZE in Ha; lia). by apply ldb_memset_out.
Qed.

Lemma kalloc_pops s pa l :
  free_pages s (pa :: l) -> lock_free LKmem s ->
  exists s', kalloc s = Ok pa s' /\ free_pages s' l /\ k_hart s' = k_hart s /\
             k_img s' = k_img s /\ (forall a, pa <= a < pa + PGSIZE -> ldb (k_mem s') a = 5) /\
             (forall a, a < pa \/ pa + PGSIZE <= a -> ldb (k_mem s') a = ldb (k_mem s) a).
Proof.
  intros [Hc Hg Hn] Hf. cbn [chain] in Hc. destruct Hc as [Hr Hc].
  apply Forall_cons in Hg as [Hp Hg]. apply NoDup_cons in Hn as [Hpl Hn].
  destruct (good_page_pos _ _ Hp) as [Hp0 Hp1].
  eexists. split; [apply kalloc_run; [done|lia|done]|]. ksimp.
  split; [|split; [done|split; [done|split]]].
  - split; [|done|done]. ksimp.
    apply (chain_write_page (k_mem s) _ pa _ l (k_img s)); [done|apply Hp|done| |done].
    intros a Ha. by apply ldb_memset_out.
  - intros a Ha. rewrite memset_spec by (unfold PGSIZE; lia).
    destruct (Z.leb_spec pa a), (Z.ltb_spec a (pa + PGSIZE)); simpl; (done || lia).
  - intros a Ha. by apply ldb_memset_out.
Qed.

(** the allocator implements a stack of distinct free pages: [kfree] of
    a page that is not free pushes it, the next [kalloc] returns that page
    filled with 5s, and the remaining free pages and every byte of memory
    outside the page are as before. *)
Theorem kfree_kalloc_lifo pa s l :
  free_pages s l -> lock_free LKmem s -> good_page (k_img s) pa -> pa ∉ l ->
  exists s', (kfree pa ;; kalloc) s = Ok pa s' /\ free_pages s' l /\
    k_hart s' = k_hart s /\
    (forall a, pa <= a < pa + PGSIZE -> ldb (k_mem s') a = 5) /\
    (forall a, a < pa \/ pa + PGSIZE <= a -> ldb (k_mem s') a = ldb (k_mem s) a).
Proof.
  intros Hfp Hf Hp Hpl. rewrite (bind_ok _ _ _ _ _ (kfree_run pa s Hp Hf)).
  destruct (kfree_pushes pa s l Hfp Hf Hp Hpl) as (s1 & E1 & Hfp1 & Hh1 & Hi1).
  rewrite kfree_run in E1 by done. injection E1 as E1. rewrite E1.
  destruct (kalloc_pops s1 pa l Hfp1) as (s2 & E2 & Hfp2 & Hh2 & _ & H5 & Ho).
  { unfold lock_free. by rewrite Hh1. }
  exists s2. split; [done|]. split; [done|]. split; [congruence|]. split; [done|].
  intros a Ha. rewrite Ho, <-E1 by done. ksimp. unfold kfree_mem.
  rewrite ldb_st64_out by (unfold PGSIZE in Ha; lia). by apply ldb_memset_out.
Qed.

(** [kalloc] with no free page returns 0 and changes nothing; with free
    pages it returns the first of them, which leaves the list: it is never
    a page that is still free, and its alignment and range are those of the
    managed memory. *)
Theorem kalloc_spec s l :
  free_pages s l -> lock_free LKmem s ->
  match l with
  | [] => kalloc s = Ok 0 s
  | pa :: l' => exists s', kalloc s = Ok pa s' /\ free_pages s' l' /\ pa ∉ l' /\
                           good_page (k_img s) pa /\ k_hart s' = k_hart s
  end.
Proof.
  intros Hfp Hf. destruct l as [|pa l].
  - apply kalloc_empty; [apply Hfp|done].
  - destruct (kalloc_pops s pa l Hfp Hf) as (s' & E & Hfp' & Hh & _).
    exists s'. split; [done|]. split; [done|]. destruct Hfp as [_ Hg Hn].
    apply Forall_cons in Hg as [Hg _]. apply NoDup_cons in Hn as [Hn _]. done.
Qed.

(** ** kinit *)

Lemma PGROUNDUP_div a : 0 <= a < 2 ^ 64 - PGSIZE -> PGROUNDUP a = (a + PGSIZE - 1) / PGSIZE * PGSIZE.
Proof.
  intros Ha. unfold PGROUNDUP. rewrite u64_small by (unfold PGSIZE in *; lia).
  change (Z.lnot (PGSIZE - 1)) with (Z.lnot (Z.ones 12)).
  rewrite <-Z.ldiff_land, Z.ldiff_ones_r by lia.
  rewrite Z.shiftl_mul_pow2, Z.shiftr_div_pow2 by lia. done.
Qed.

(** the pages [p, p + PGSIZE, ..] in the order freerange visits them *)
Definition page_range (p : Z) (n : nat) : list Z := map (fun k => p + k * PGSIZE) (zseq 0 n).

Lemma zseq_0_S n : zseq 0 (S n) = 0 :: map Z.succ (zseq 0 n).
Proof.
  unfold zseq. cbn [seq map]. f_equal. rewrite <-seq_shift, !map_map.
  apply map_ext. intros k. lia.
Qed.

Lemma page_range_S p n : page_range p (S n) = p :: page_range (p + PGSIZE) n.
Proof.
  unfold page_range. rewrite zseq_0_S. cbn [map]. f_equal; [lia|].
  rewrite map_map. apply map_ext. intros k. lia.
Qed.

Lemma elem_of_page_range p n q :
  q ∈ page_range p n -> exists k, 0 <= k < Z.of_nat n /\ q = p + k * PGSIZE.
Proof.
  unfold page_range, zseq. rewrite list_elem_of_In, in_map_iff. intros (k & <- & Hk).
  apply in_map_iff in Hk as (i & <- & Hi). apply in_seq in Hi. exists (0 + Z.of_nat i). lia.
Qed.

Lemma freerange_loop n p s l :
  free_pages s l -> lock_free LKmem s -> p mod PGSIZE = 0 -> 0 < p ->
  im_end (k_img s) <= p -> p + Z.of_nat n * PGSIZE <= PHYSTOP ->
  (forall q, q ∈ l -> q < p) ->
  exists s', forM_ (page_range p n) kfree s = Ok tt s' /\
             free_pages s' (rev (page_range p n) ++ l) /\ k_hart s' = k_hart s.
Proof.
  revert p s l. induction n as [|n IH]; intros p s l Hfp Hf Hp Hp0 Hend Hstop Hl.
  { exists s. done. }
  rewrite page_range_S. cbn [forM_].
  assert (good_page (k_img s) p) as Hg by (unfold good_page, PGSIZE in *; lia).
  destruct (kfree_pushes p s l Hfp Hf Hg) as (s1 & E1 & Hfp1 & Hh1 & Hi1).
  { intros Hin. specialize (Hl p Hin). lia. }
  erewrite bind_ok by exact E1.
  destruct (IH (p + PGSIZE) s1 (p :: l)) as (s2 & E2 & Hfp2 & Hh2).
  - done.
  - unfold lock_free. by rewrite Hh1.
  - rewrite <-Z.add_mod_idemp_l, Hp by (unfold PGSIZE; lia). done.
  - unfold PGSIZE; lia.
  - rewrite Hi1. unfold PGSIZE. lia.
  - unfold PGSIZE in *. lia.
  - intros q [->|Hq]%elem_of_cons; [unfold PGSIZE; lia|].
    specialize (Hl q Hq). unfold PGSIZE. lia.
  - exists s2. split; [done|]. cbn [rev]. rewrite <-app_assoc. simpl.
    split; [done|congruence].
Qed.

(** after [kinit] the free list holds exactly the whole pages between
    the end of the kernel image and PHYSTOP, each once, the highest first. *)
Theorem kinit_frees_all s :
  hart_ok (k_hart s) -> k_freelist s = 0 -> 0 < im_end (k_img s) <= PHYSTOP ->
  let p := PGROUNDUP (im_end (k_img s)) in
  exists s', kinit s = Ok tt s' /\
    free_pages s' (rev (page_range p (Z.to_nat ((PHYSTOP - p) / PGSIZE)))).
Proof.
  intros Hok Hfl He p. unfold kinit, initlock. mstep. mstep. ksimp.
  unfold freerange. fold (page_range p (Z.to_nat ((PHYSTOP - p) / PGSIZE))).
  set (s1 := set_hart _ s).
  assert (Hp : p = (im_end (k_img s) + PGSIZE - 1) / PGSIZE * PGSIZE).
  { apply PGROUNDUP_div. unfold PHYSTOP, KERNBASE, PGSIZE in *. lia. }
  pose proof (Z.div_mod (im_end (k_img s) + PGSIZE - 1) PGSIZE ltac:(done)) as Hdm.
  pose proof (Z.mod_pos_bound (im_end (k_img s) + PGSIZE - 1) PGSIZE ltac:(done)) as Hmb.
  assert (Hps : p <= PHYSTOP).
  { rewrite Hp. change PHYSTOP with (33280 * PGSIZE). change (33280 * PGSIZE) with PHYSTOP in He.
    apply Z.mul_le_mono_nonneg_r; [done|].
    apply Z.lt_succ_r, Z.div_lt_upper_bound; [done|].
    unfold PHYSTOP, KERNBASE, PGSIZE in *. lia. }
  destruct (freerange_loop (Z.to_nat ((PHYSTOP - p) / PGSIZE)) p s1 []) as (s' & E & Hfp & _).
  - split; [|constructor|constructor]. exact Hfl.
  - split; [|apply lookup_delete_eq]. destruct Hok. by split.
  - rewrite Hp. apply Z.mod_mul. done.
  - rewrite Hp. unfold PGSIZE in *. lia.
  - change (k_img s1) with (k_img s). rewrite Hp. unfold PGSIZE in *. lia.
  - rewrite Z2Nat.id by (apply Z.div_pos; [lia|done]).
    pose proof (Z.mul_div_le (PHYSTOP - p) PGSIZE ltac:(done)). lia.
  - set_solver.
  - rewrite app_nil_r in Hfp. by exists s'.
Qed.

(** the guard of [kfree]: a pointer that is not page aligned, lies below
    the end of the kernel or at or above PHYSTOP panics. *)
Theorem kfree_rejects pa s :
  u_panicked (k_uart s) = 0 ->
  pa mod PGSIZE <> 0 \/ pa < im_end (k_img s) \/ PHYSTOP <= pa ->
  exists s', kfree pa s = Panic "kfree" s'.
Proof. apply kfree_bad. Qed.

(** * The theorems at concrete states *)

Lemma good_page_demo k : 0 <= k < 1000 -> good_page image0 (0x300000 + k * PGSIZE).
Proof.
  intros Hk. unfold good_page. change (im_end image0) with 0x240000. change PHYSTOP with 0x8200000.
  unfold PGSIZE. split; [|lia]. rewrite Z.mod_add by lia. reflexivity.
Qed.

Lemma boot_free : free_pages boot_state [].
Proof. split; [reflexivity|constructor|constructor]. Qed.

(** one free page *)
Definition one_page_state : kstate := set_freelist (fun _ => 0x300000) boot_state.

Lemma one_page_free : free_pages one_page_state [0x300000].
Proof.
  split.
  - split; [reflexivity|]. vm_compute. reflexivity.
  - apply Forall_singleton, (good_page_demo 0). lia.
  - apply NoDup_singleton.
Qed.

Lemma kfree_kalloc_lifo_witness :
  exists s', (kfree 0x300000 ;; kalloc) boot_state = Ok 0x300000 s' /\ free_pages s' [].
Proof.
  destruct (kfree_kalloc_lifo 0x300000 boot_state [] boot_free (boot_lock_free LKmem)) as (s' & E & H & _).
  - apply (good_page_demo 0). lia.
  - apply not_elem_of_nil.
  - exists s'. split; [exact E|exact H].
Defined.

Lemma kalloc_spec_witness :
  exists s', kalloc one_page_state = Ok 0x300000 s' /\ free_pages s' [].
Proof.
  destruct (kalloc_spec one_page_state [0x300000] one_page_free (boot_lock_free LKmem))
    as (s' & E & H & _).
  exists s'. split; [exact E|exact H].
Defined.

Lemma kinit_frees_all_witness :
  exists s' l, kinit boot_state = Ok tt s' /\ free_pages s' l.
Proof.
  destruct (kinit_frees_all boot_state) as (s' & E & H).
  - apply hart_ok_idle.
  - reflexivity.
  - split; [reflexivity|]. vm_compute. discriminate.
  - exists s'. eexists. split; [exact E|exact H].
Defined.

Lemma kfree_rejects_witness : exists s', kfree 1 boot_state = Panic "kfree" s'.
Proof. apply (kfree_rejects 1 boot_state); [reflexivity|left; vm_compute; discriminate]. Defined.
