(* ===== verification/Vm.v ===== *)
(** kernel/vm.c: Sv39 page tables in physical memory, user memory and the
    copies between user and kernel space; proc_mapstacks of proc.c, which
    kvmmake calls.

    A [pagetable_t] or [pte_t *] is a physical address, 0 the null pointer.
    A [char *] argument that points to a kernel object is the list of its
    bytes: [copyin] and [copyinstr] give the bytes they store at [dst]
    together with their result. *)

From stdpp Require Import base gmap strings numbers list.
From S2P Require Import Prelude KState KString Spinlock Kalloc.

(** * Page tables *)

(** [&pagetable[i]] *)
Definition pte_addr (pagetable i : Z) : Z := pagetable + 8 * i.

(** the loop of [walk] over the levels 2 and 1 *)
Fixpoint walk_levels (levels : list Z) (pagetable va : Z) (alloc : bool) : K Z :=
  match levels with
  | [] => ret (pte_addr pagetable (PX 0 va))
  | level :: rest =>
      let pte := pte_addr pagetable (PX level va) in
      let! v := load64 pte in
      if nz (Z.land v PTE_V) then walk_levels rest (PTE2PA v) va alloc
      else if negb alloc then ret 0
      else
        let! pt := kalloc in
        if pt =? 0 then ret 0
        else
          memsetM pt 0 PGSIZE ;;
          store64 pte (Z.lor (PA2PTE pt) PTE_V) ;;
          walk_levels rest pt va alloc
  end.

Definition walk (pagetable va : Z) (alloc : bool) : K Z :=
  if MAXVA <=? va then panic "walk"
  else walk_levels [2; 1] pagetable va alloc.

(** one round of the loop of [mappages]; the loop variables are [a] and [pa] *)
Definition mappages_body (pagetable last perm : Z) (i : Z * Z) : K (Z * Z + Z) :=
  let '(a, pa) := i in
  let! pte := walk pagetable a true in
  if pte =? 0 then ret (inr (-1))
  else
    let! v := load64 pte in
    if nz (Z.land v PTE_V) then panic "mappages: remap"
    else
      store64 pte (Z.lor (Z.lor (PA2PTE pa) perm) PTE_V) ;;
      if a =? last then ret (inr 0)
      else ret (inl (u64 (a + PGSIZE), u64 (pa + PGSIZE))).

Definition mappages (pagetable va size pa perm : Z) : K Z :=
  if negb (va mod PGSIZE =? 0) then panic "mappages: va not aligned"
  else if negb (size mod PGSIZE =? 0) then panic "mappages: size not aligned"
  else if size =? 0 then panic "mappages: size"
  else
    let last := u64 (va + size - PGSIZE) in
    whileM (Z.to_nat (size / PGSIZE)) (mappages_body pagetable last perm) (va, pa).

Definition kvmmap (kpgtbl va pa sz perm : Z) : K unit :=
  let! r := mappages kpgtbl va sz pa perm in
  whenM (negb (r =? 0)) (panic "kvmmap").

(** permission words *)
Definition orl (l : list Z) : Z := foldr Z.lor 0 l.

(** proc.c: a kernel stack for each process *)
Definition proc_mapstacks (kpgtbl : Z) : K unit :=
  let! n := gets (fun s => length (k_procs s)) in
  forM_ (seq 0 n) (fun i =>
    let! pa := kalloc in
    if pa =? 0 then panic "kalloc"
    else
      let va := KSTACK (Z.of_nat i) in
      modify (upd_proc i (p_set_kstack (fun _ => va))) ;;
      kvmmap kpgtbl va pa PGSIZE (orl [PTE_R; PTE_W; PTE_THEAD_MAEE; PTE_A; PTE_D])).

Definition kvmmake : K Z :=
  let! im := gets k_img in
  let! kpgtbl := kalloc in
  memsetM kpgtbl 0 PGSIZE ;;
  kvmmap kpgtbl UART0 UART0 PGSIZE (orl [PTE_R; PTE_W; PTE_A; PTE_D; PTE_IO]) ;;
  kvmmap kpgtbl PLIC PLIC 0x400000 (orl [PTE_R; PTE_W; PTE_A; PTE_D; PTE_IO]) ;;
  kvmmap kpgtbl KERNBASE KERNBASE (u64 (im_etext im - KERNBASE))
         (orl [PTE_R; PTE_X; PTE_A; PTE_THEAD_MAEE]) ;;
  kvmmap kpgtbl (im_etext im) (im_etext im) (u64 (PHYSTOP - im_etext im))
         (orl [PTE_R; PTE_W; PTE_A; PTE_D; PTE_THEAD_MAEE]) ;;
  kvmmap kpgtbl TRAMPOLINE (im_trampoline im) PGSIZE (orl [PTE_R; PTE_X; PTE_A]) ;;
  proc_mapstacks kpgtbl ;;
  ret kpgtbl.

Definition kvminit : K unit :=
  let! pt := kvmmake in modify (set_kpgtbl (fun _ => pt)).

Definition w_satp (x : Z) : K unit := modify (set_csrs (r_set_satp (fun _ => x))).
(** the TLB flushes have no effect in the model, which has no TLB *)
Definition kvminithart : K unit :=
  let! pt := gets k_kpgtbl in w_satp (MAKE_SATP pt).

(** * User memory *)

Definition uvmunmap_body (pagetable stop : Z) (do_free : bool) (a : Z) : K (Z + unit) :=
  if negb (a <? stop) then ret (inr tt)
  else
    let next := ret (inl (u64 (a + PGSIZE))) in
    let! pte := walk pagetable a false in
    if pte =? 0 then next
    else
      let! v := load64 pte in
      if Z.land v PTE_V =? 0 then next
      else
        whenM do_free (kfree (PTE2PA v)) ;;
        store64 pte 0 ;;
        next.

Definition uvmunmap (pagetable va npages : Z) (do_free : bool) : K unit :=
  if negb (va mod PGSIZE =? 0) then panic "uvmunmap: not aligned"
  else whileM (S (Z.to_nat npages))
         (uvmunmap_body pagetable (u64 (va + npages * PGSIZE)) do_free) va.

(** [depth] bounds the nesting of the recursion; a three-level table needs 3. *)
Fixpoint freewalk (depth : nat) (pagetable : Z) : K unit :=
  match depth with
  | O => outoffuel
  | S depth' =>
      forM_ (zseq 0 512) (fun i =>
        let! pte := load64 (pte_addr pagetable i) in
        if nz (Z.land pte PTE_V) && (Z.land pte (orl [PTE_R; PTE_W; PTE_X]) =? 0)
        then
          freewalk depth' (PTE2PA pte) ;;
          store64 (pte_addr pagetable i) 0
        else if nz (Z.land pte PTE_V) then panic "freewalk: leaf"
        else ret tt) ;;
      kfree pagetable
  end.

Definition uvmfree (pagetable sz : Z) : K unit :=
  whenM (0 <? sz) (uvmunmap pagetable 0 (PGROUNDUP sz / PGSIZE) true) ;;
  freewalk 4 pagetable.

Definition uvmcreate : K Z :=
  let! pagetable := kalloc in
  if pagetable =? 0 then ret 0
  else memsetM pagetable 0 PGSIZE ;; ret pagetable.

Definition uvmdealloc (pagetable oldsz newsz : Z) : K Z :=
  if oldsz <=? newsz then ret oldsz
  else
    whenM (PGROUNDUP newsz <? PGROUNDUP oldsz)
      (let npages := s32 ((PGROUNDUP oldsz - PGROUNDUP newsz) / PGSIZE) in
       uvmunmap pagetable (PGROUNDUP newsz) (u64 npages) true) ;;
    ret newsz.

Definition UPERM (xperm : Z) : Z := orl [PTE_R; PTE_U; xperm; PTE_A; PTE_D; PTE_THEAD_MAEE].

Definition uvmalloc_body (pagetable oldsz newsz xperm : Z) (a : Z) : K (Z + Z) :=
  if negb (a <? newsz) then ret (inr newsz)
  else
    let! mem := kalloc in
    if mem =? 0 then
      uvmdealloc pagetable a oldsz ;; ret (inr 0)
    else
      memsetM mem 0 PGSIZE ;;
      let! r := mappages pagetable a PGSIZE mem (UPERM xperm) in
      if negb (r =? 0) then
        kfree mem ;;
        uvmdealloc pagetable a oldsz ;; ret (inr 0)
      else ret (inl (u64 (a + PGSIZE))).

Definition uvmalloc (pagetable oldsz newsz xperm : Z) : K Z :=
  if newsz <? oldsz then ret oldsz
  else
    let oldsz := PGROUNDUP oldsz in
    whileM (S (Z.to_nat ((newsz - oldsz) / PGSIZE + 1)))
      (uvmalloc_body pagetable oldsz newsz xperm) oldsz.

(** [src] is the [sz] bytes of the first program *)
Definition uvminit (pagetable : Z) (src : list Z) (sz : Z) : K unit :=
  if PGSIZE <=? sz then panic "uvminit: more than a page"
  else
    let! mem := kalloc in
    memsetM mem 0 PGSIZE ;;
    mappages pagetable 0 PGSIZE mem
      (orl [PTE_W; PTE_R; PTE_X; PTE_U; PTE_A; PTE_D; PTE_THEAD_MAEE]) ;;
    modify (set_mem (fun m => stn m mem (take (Z.to_nat sz) src))).

Definition uvmclear (pagetable va : Z) : K unit :=
  let! pte := walk pagetable va false in
  if pte =? 0 then panic "uvmclear"
  else let! v := load64 pte in store64 pte (Z.land v (Z.lnot PTE_U)).

Definition PPN_MASK : Z := 0x003FFFFFFFFFFC00.

Definition uvmcopy_body (old new sz : Z) (i : Z) : K (Z + Z) :=
  let err := uvmunmap new 0 (i / PGSIZE) true ;; ret (inr (-1)) in
  if negb (i <? sz) then ret (inr 0)
  else
    let! pte := walk old i false in
    if pte =? 0 then panic "uvmcopy: pte should exist"
    else
      let! v := load64 pte in
      if Z.land v PTE_V =? 0 then panic "uvmcopy: page not present"
      else
        let pa := PTE2PA v in
        let flags := Z.land v (u64 (Z.lnot PPN_MASK)) in
        let! mem := kalloc in
        if mem =? 0 then err
        else
          memmoveM mem pa PGSIZE ;;
          let! r := mappages new i PGSIZE mem flags in
          if negb (r =? 0) then kfree mem ;; err
          else ret (inl (u64 (i + PGSIZE))).

Definition uvmcopy (old new sz : Z) : K Z :=
  whileM (S (Z.to_nat (sz / PGSIZE + 1))) (uvmcopy_body old new sz) 0.

Definition walkaddr (pagetable va : Z) : K Z :=
  if MAXVA <=? va then ret 0
  else
    let! pte := walk pagetable va false in
    if pte =? 0 then ret 0
    else
      let! v := load64 pte in
      if Z.land v PTE_V =? 0 then ret 0
      else if Z.land v PTE_U =? 0 then ret 0
      else ret (PTE2PA v).

Definition ismapped (pagetable va : Z) : K Z :=
  let! pte := walk pagetable va false in
  if pte =? 0 then ret 0
  else
    let! v := load64 pte in
    if nz (Z.land v PTE_V) then ret 1 else ret 0.

(** the argument [read] is not used by the source *)
Definition vmfault (pagetable va : Z) : K Z :=
  let! pi := myproc_deref in
  let! p := get_proc pi in
  if p_sz p <=? va then ret 0
  else
    let va := PGROUNDDOWN va in
    let! r := ismapped pagetable va in
    if nz r then ret 0
    else
      let! mem := kalloc in
      if mem =? 0 then ret 0
      else
        memsetM mem 0 PGSIZE ;;
        let! e := mappages (p_pagetable p) va PGSIZE mem
                    (orl [PTE_W; PTE_U; PTE_R; PTE_A; PTE_D; PTE_THEAD_MAEE]) in
        if negb (e =? 0) then kfree mem ;; ret 0
        else ret mem.

(** * Copies between kernel and user space *)

(** [pa0 = walkaddr(..); if(pa0 == 0) pa0 = vmfault(..)] *)
Definition user_page (pagetable va0 : Z) : K Z :=
  let! pa0 := walkaddr pagetable va0 in
  if pa0 =? 0 then vmfault pagetable va0 else ret pa0.

(** loop variables: [dstva] and the bytes still to copy *)
Definition copyout_body (pagetable : Z) (i : Z * list Z) : K (Z * list Z + Z) :=
  let '(dstva, src) := i in
  match src with
  | [] => ret (inr 0)
  | _ :: _ =>
      let va0 := PGROUNDDOWN dstva in
      if MAXVA <=? va0 then ret (inr (-1))
      else
        let! pa0 := user_page pagetable va0 in
        if pa0 =? 0 then ret (inr (-1))
        else
          let! pte := walk pagetable va0 false in
          if pte =? 0 then ub "copyout: *pte"
          else
            let! v := load64 pte in
            if Z.land v PTE_W =? 0 then ret (inr (-1))
            else
              let n := PGSIZE - (dstva - va0) in
              let n := if Z.of_nat (length src) <? n then Z.of_nat (length src) else n in
              modify (set_mem (fun m =>
                stn m (pa0 + (dstva - va0)) (take (Z.to_nat n) src))) ;;
              ret (inl (u64 (va0 + PGSIZE), drop (Z.to_nat n) src))
  end.

(** [copyout(pagetable, dstva, src, len)] with [src] the [len] bytes *)
Definition copyout (pagetable dstva : Z) (src : list Z) : K Z :=
  whileM (length src + 2) (copyout_body pagetable) (dstva, src).

(** loop variables: the bytes stored so far, [srcva] and [len] *)
Definition copyin_body (pagetable : Z) (i : list Z * Z * Z) : K (list Z * Z * Z + (Z * list Z)) :=
  let '(acc, srcva, len) := i in
  if negb (0 <? len) then ret (inr (0, acc))
  else
    let va0 := PGROUNDDOWN srcva in
    let! pa0 := user_page pagetable va0 in
    if pa0 =? 0 then ret (inr (-1, acc))
    else
      let n := PGSIZE - (srcva - va0) in
      let n := if len <? n then len else n in
      let! bytes := gets (fun s => ldn (k_mem s) (pa0 + (srcva - va0)) (Z.to_nat n)) in
      ret (inl (acc ++ bytes, u64 (va0 + PGSIZE), len - n)).

Definition copyin (pagetable srcva len : Z) : K (Z * list Z) :=
  whileM (Z.to_nat len + 2) (copyin_body pagetable) ([], srcva, len).

(** the inner loop of [copyinstr]: the bytes stored and whether a NUL ended it *)
Fixpoint copyinstr_scan (m : mem) (p : Z) (n : nat) : list Z * bool :=
  match n with
  | O => ([], false)
  | S n' =>
      if ldb m p =? 0 then ([0], true)
      else let '(l, b) := copyinstr_scan m (p + 1) n' in (ldb m p :: l, b)
  end.

Definition copyinstr_body (pagetable : Z) (i : list Z * Z * Z)
  : K (list Z * Z * Z + (Z * list Z)) :=
  let '(acc, srcva, max) := i in
  if negb (0 <? max) then ret (inr (-1, acc))
  else
    let va0 := PGROUNDDOWN srcva in
    if MAXVA <=? va0 then ret (inr (-1, acc))
    else
      let! pte := walk pagetable va0 false in
      if pte =? 0 then ret (inr (-1, acc))
      else
        let! v := load64 pte in
        if (Z.land v PTE_V =? 0) || (Z.land v PTE_U =? 0) then ret (inr (-1, acc))
        else
          let pa0 := PTE2PA v in
          let n := PGSIZE - (srcva - va0) in
          let n := if max <? n then max else n in
          let! r := gets (fun s =>
            copyinstr_scan (k_mem s) (pa0 + (srcva - va0)) (Z.to_nat n)) in
          if (r : list Z * bool).2 then ret (inr (0, acc ++ r.1))
          else ret (inl (acc ++ r.1, u64 (va0 + PGSIZE), max - n)).

Definition copyinstr (pagetable srcva max : Z) : K (Z * list Z) :=
  whileM (Z.to_nat max + 2) (copyinstr_body pagetable) ([], srcva, max).
