(* ===== verification/VmPte.v ===== *)
(** Page-table entries and the radix tree they form: the arithmetic of
    PA2PTE/PTE2PA/PX (riscv.h) and the invariant of a page table in memory. *)

From stdpp Require Import base gmap strings numbers list.
From S2P Require Import Prelude KState KString Spinlock Kalloc Vm.

(** * Entries *)

Lemma testbit_PA2PTE pa i :
  0 <= pa < 2 ^ 56 -> 0 <= i ->
  Z.testbit (PA2PTE pa) i = (10 <=? i) && Z.testbit pa (i + 2).
Proof.
  intros Hpa Hi. unfold PA2PTE. rewrite (u64_small pa) by lia.
  rewrite u64_small.
  2: { rewrite Z.shiftl_mul_pow2, Z.shiftr_div_pow2 by lia.
       pose proof (Z.div_pos pa (2 ^ 12)). 
       assert (pa / 2 ^ 12 < 2 ^ 44) by (apply Z.div_lt_upper_bound; lia). lia. }
  destruct (Z.leb_spec 10 i) as [H|H]; simpl.
  - rewrite Z.shiftl_spec, Z.shiftr_spec by lia. f_equal. lia.
  - apply Z.shiftl_spec_low. lia.
Qed.

Lemma testbit_ones n i : 0 <= n -> 0 <= i -> Z.testbit (Z.ones n) i = (i <? n).
Proof.
  intros Hn Hi. destruct (Z.ltb_spec i n).
  - apply Z.ones_spec_low. lia.
  - apply Z.ones_spec_high. lia.
Qed.

(** a mask of the bits [lo .. hi-1] *)
Lemma testbit_mask lo hi i :
  0 <= lo <= hi -> 0 <= i ->
  Z.testbit (Z.shiftl (Z.ones (hi - lo)) lo) i = (lo <=? i) && (i <? hi).
Proof.
  intros H Hi. destruct (Z.leb_spec lo i); simpl.
  - rewrite Z.shiftl_spec, testbit_ones by lia.
    destruct (Z.ltb_spec (i - lo) (hi - lo)), (Z.ltb_spec i hi); (done || lia).
  - by rewrite Z.shiftl_spec_low by lia.
Qed.

Lemma testbit_PPN_MASK i : 0 <= i -> Z.testbit PPN_MASK i = (10 <=? i) && (i <? 54).
Proof. change PPN_MASK with (Z.shiftl (Z.ones (54 - 10)) 10). apply testbit_mask. lia. Qed.

Lemma testbit_PTE2PA pte i :
  0 <= pte < 2 ^ 64 -> 0 <= i ->
  Z.testbit (PTE2PA pte) i = (12 <=? i) && (i <? 56) && Z.testbit pte (i - 2).
Proof.
  intros Hp Hi. unfold PTE2PA.
  change 0x00FFFFFFFFFFFF00 with (Z.shiftl (Z.ones (56 - 8)) 8).
  rewrite Z.land_spec, testbit_mask by lia.
  unfold u64. destruct (Z.ltb_spec i 64) as [H64|H64].
  - rewrite Z.mod_pow2_bits_low by lia.
    destruct (Z.leb_spec 12 i) as [H12|H12]; simpl.
    + rewrite Z.shiftl_spec, Z.shiftr_spec by lia.
      replace (i - 12 + 10) with (i - 2) by lia.
      destruct (Z.leb_spec 8 i); [|lia]. simpl. by rewrite andb_comm.
    + rewrite Z.shiftl_spec_low by lia. done.
  - destruct (Z.ltb_spec i 56); [lia|]. by rewrite !andb_false_r.
Qed.

Lemma testbit_PTE_V i : Z.testbit PTE_V i = (i =? 0).
Proof. change PTE_V with (2 ^ 0). by rewrite Z.pow2_bits_eqb, Z.eqb_sym by lia. Qed.

Lemma aligned_bits pa i : pa mod PGSIZE = 0 -> 0 <= i < 12 -> Z.testbit pa i = false.
Proof.
  intros Ha Hi. change PGSIZE with (2 ^ 12) in Ha.
  rewrite <-(Z.mod_pow2_bits_low pa 12 i) by lia. rewrite Ha. apply Z.bits_0.
Qed.

Lemma PA2PTE_range pa : 0 <= PA2PTE pa < 2 ^ 64.
Proof. apply u64_range. Qed.

Lemma lor_range a b n :
  0 <= n -> 0 <= a < 2 ^ n -> 0 <= b < 2 ^ n -> 0 <= Z.lor a b < 2 ^ n.
Proof.
  intros Hn Ha Hb. split; [apply Z.lor_nonneg; lia|].
  destruct (Z.eq_dec (Z.lor a b) 0) as [->|Hz]; [lia|].
  apply Z.log2_lt_pow2; [pose proof (proj2 (Z.lor_nonneg a b)); lia|].
  rewrite Z.log2_lor by lia.
  destruct (Z.max_spec (Z.log2 a) (Z.log2 b)) as [[_ ->]|[_ ->]].
  - destruct (Z.eq_dec b 0) as [->|]; [|apply Z.log2_lt_pow2; lia].
    rewrite Z.lor_0_r in Hz. simpl. destruct (Z.eq_dec n 0) as [->|]; lia.
  - destruct (Z.eq_dec a 0) as [->|]; [|apply Z.log2_lt_pow2; lia].
    rewrite Z.lor_0_l in Hz. simpl. destruct (Z.eq_dec n 0) as [->|]; lia.
Qed.

(** a page-table entry built by mappages gives back both its parts: the
    physical address, for every page-aligned address below 2^56, and the
    permission word (with PTE_V), whatever attribute bits outside the PPN
    field it has - the T-Head bits 59..63 included. *)
Theorem pte_roundtrip pa perm :
  pa mod PGSIZE = 0 -> 0 <= pa < 2 ^ 56 ->
  0 <= perm < 2 ^ 64 -> Z.land perm PPN_MASK = 0 ->
  let pte := Z.lor (Z.lor (PA2PTE pa) perm) PTE_V in
  PTE2PA pte = pa /\ Z.land pte (u64 (Z.lnot PPN_MASK)) = Z.lor perm PTE_V /\
  nz (Z.land pte PTE_V) = true.
Proof.
  intros Ha Hpa Hperm Hm pte.
  assert (Hpb : forall i, 10 <= i < 54 -> Z.testbit perm i = false).
  { intros i Hi. assert (Z.testbit (Z.land perm PPN_MASK) i = false) as H
      by (rewrite Hm; apply Z.bits_0).
    rewrite Z.land_spec, testbit_PPN_MASK in H by lia.
    destruct (Z.leb_spec 10 i), (Z.ltb_spec i 54); try lia. by rewrite andb_true_r in H. }
  assert (Hr : 0 <= pte < 2 ^ 64).
  { apply lor_range; [lia| |done]. apply lor_range; [lia|apply PA2PTE_range|done]. }
  split; [|split].
  - apply Z.bits_inj'. intros i Hi. rewrite testbit_PTE2PA by done.
    destruct (Z.leb_spec 12 i) as [H1|H1]; simpl; [|by rewrite aligned_bits by lia].
    destruct (Z.ltb_spec i 56) as [H2|H2]; simpl; [|by rewrite (testbit_high pa 56) by lia].
    unfold pte. rewrite !Z.lor_spec, testbit_PA2PTE, testbit_PTE_V by lia.
    rewrite Hpb by lia. destruct (Z.leb_spec 10 (i - 2)); [|lia].
    destruct (Z.eqb_spec (i - 2) 0); [lia|]. rewrite !orb_false_r. simpl. f_equal. lia.
  - apply Z.bits_inj'. intros i Hi. unfold pte.
    rewrite Z.land_spec, !Z.lor_spec, testbit_PA2PTE, testbit_PTE_V by lia.
    unfold u64. destruct (Z.ltb_spec i 64) as [H64|H64].
    + rewrite Z.mod_pow2_bits_low, Z.lnot_spec, testbit_PPN_MASK by lia.
      destruct (Z.leb_spec 10 i), (Z.ltb_spec i 54); simpl; rewrite ?andb_true_r, ?andb_false_r.
      * rewrite Hpb by lia. destruct (Z.eqb_spec i 0); (done || lia).
      * rewrite (testbit_high pa 56) by lia. done.
      * done.
      * done.
    + rewrite Z.mod_pow2_bits_high, andb_false_r by lia.
      rewrite (testbit_high perm 64) by lia. destruct (Z.eqb_spec i 0); (done || lia).
  - apply nz_true. intros H0.
    assert (Z.testbit (Z.land pte PTE_V) 0 = false) as H by (rewrite H0; apply Z.bits_0).
    unfold pte in H. rewrite Z.land_spec, !Z.lor_spec, testbit_PTE_V in H.
    rewrite orb_true_r in H. done.
Qed.

Lemma pte_roundtrip_witness :
  PTE2PA (Z.lor (Z.lor (PA2PTE 0x87654000) (UPERM PTE_W)) PTE_V) = 0x87654000.
Proof. apply pte_roundtrip; [reflexivity|lia|vm_compute; split; discriminate || reflexivity|reflexivity]. Defined.
