(* ===== verification/VmTree.v ===== *)
(** The page table as a three-level tree in memory: which page holds the
    table at each position, the invariant that the positions use distinct
    pages outside the free list, and what [walk] and [mappages] do to it. *)

From stdpp Require Import base gmap strings numbers list.
From S2P Require Import Prelude KState KString Spinlock Kalloc Vm VmPte.

(** * Positions in the tree *)

(** the root, the level-1 table at root index [i], the level-0 table below
    its index [j] *)
Inductive node := NRoot | N1 (i : Z) | N0 (i j : Z).

#[export] Instance node_eq : EqDecision node.
Proof. solve_decision. Defined.

Definition idx_ok (i : Z) : Prop := 0 <= i < 512.
Definition node_ok (n : node) : Prop :=
  match n with NRoot => True | N1 i => idx_ok i | N0 i j => idx_ok i /\ idx_ok j end.

Definition entry (m : mem) (p i : Z) : Z := ld64 m (pte_addr p i).
Definition next (m : mem) (p : option Z) (i : Z) : option Z :=
  match p with
  | Some p => if nz (Z.land (entry m p i) PTE_V) then Some (PTE2PA (entry m p i)) else None
  | None => None
  end.
Definition page_of (m : mem) (root : Z) (n : node) : option Z :=
  match n with
  | NRoot => Some root
  | N1 i => next m (Some root) i
  | N0 i j => next m (next m (Some root) i) j
  end.

(** the level-0 entry for [va]; 0 (invalid) when a level is missing *)
Definition pte_at (m : mem) (root va : Z) : Z :=
  match page_of m root (N0 (PX 2 va) (PX 1 va)) with
  | Some p => entry m p (PX 0 va)
  | None => 0
  end.

Record pt_inv (im : image) (m : mem) (root : Z) (F : list Z) : Prop := {
  pt_good : forall n p, node_ok n -> page_of m root n = Some p -> good_page im p /\ p ∉ F;
  pt_inj : forall n n' p, node_ok n -> node_ok n' ->
    page_of m root n = Some p -> page_of m root n' = Some p -> n = n'
}.

(** [q] is not one of the table's pages *)
Definition not_table (m : mem) (root q : Z) : Prop :=
  forall n, node_ok n -> page_of m root n <> Some q.

Definition child (n : node) (k : Z) : node :=
  match n with NRoot => N1 k | N1 i => N0 i k | N0 i j => N0 i j end.
Definition inner (n : node) : Prop := match n with N0 _ _ => False | _ => True end.

(** an entry of an inner table is a pointer (no R, W, X bit, which would make
    it a leaf), and nothing is mapped at or above MAXVA *)
Definition RWX : Z := Z.lor (Z.lor PTE_R PTE_W) PTE_X.
Record ptrs (m : mem) (root : Z) : Prop := {
  pr_inner n p k : node_ok n -> inner n -> idx_ok k -> page_of m root n = Some p ->
    nz (Z.land (entry m p k) PTE_V) = true -> Z.land (entry m p k) RWX = 0;
  pr_high k : 256 <= k < 512 -> nz (Z.land (entry m root k) PTE_V) = false
}.

(** ** Indices *)

Lemma PX_range l va : idx_ok (PX l va).
Proof.
  unfold idx_ok, PX, PXMASK. change 0x1FF with (Z.ones 9).
  rewrite Z.land_ones by lia. change 512 with (2 ^ 9). apply Z.mod_pos_bound. lia.
Qed.

Lemma PX_div l va : 0 <= l -> 0 <= va < 2 ^ 64 -> PX l va = va / 2 ^ (12 + 9 * l) mod 512.
Proof.
  intros Hl Hva. unfold PX, PXMASK, PXSHIFT, PGSHIFT. change 0x1FF with (Z.ones 9).
  rewrite Z.land_ones, Z.shiftr_div_pow2, u64_small by lia. done.
Qed.

(** The three indices determine the page of an address below MAXVA. *)
Lemma PX_inj va va' :
  0 <= va < MAXVA -> 0 <= va' < MAXVA ->
  PX 2 va = PX 2 va' -> PX 1 va = PX 1 va' -> PX 0 va = PX 0 va' ->
  va / PGSIZE = va' / PGSIZE.
Proof.
  assert (Hmax : MAXVA = 2 ^ 38) by reflexivity.
  assert (H : forall v, 0 <= v < MAXVA ->
    v / PGSIZE = PX 0 v + 512 * PX 1 v + 512 * 512 * PX 2 v).
  { intros v Hv. rewrite !PX_div by lia. unfold PGSIZE.
    change (2 ^ (12 + 9 * 0)) with 4096. change (2 ^ (12 + 9 * 1)) with (4096 * 512).
    change (2 ^ (12 + 9 * 2)) with (4096 * 512 * 512).
    rewrite <-!Z.div_div by lia. rewrite Hmax in Hv.
    assert (v / 4096 / 512 / 512 < 512).
    { do 3 (apply Z.div_lt_upper_bound; [lia|]). lia. }
    pose proof (Z.div_pos (v / 4096 / 512) 512).
    rewrite (Z.mod_small (v / 4096 / 512 / 512)).
    2: { split; [|done]. do 3 (apply Z.div_pos; [|lia]). lia. }
    pose proof (Z.div_mod (v / 4096) 512). pose proof (Z.div_mod (v / 4096 / 512) 512). lia. }
  intros Hva Hva' H2 H1 H0. rewrite (H va), (H va') by done. by rewrite H0, H1, H2.
Qed.

Lemma PX_low va : 0 <= va < MAXVA -> PX 2 va < 256.
Proof.
  change MAXVA with (2 ^ 38). intros H. rewrite PX_div by lia. change (12 + 9 * 2) with 30.
  rewrite Z.mod_small; Z.to_euclidean_division_equations; lia.
Qed.

Lemma good_page_56 im p : good_page im p -> 0 <= p < 2 ^ 56.
Proof. unfold good_page, PHYSTOP, KERNBASE. lia. Qed.

(** An entry of a table lies inside the table's page. *)
Lemma pte_addr_in p i : idx_ok i -> p <= pte_addr p i /\ pte_addr p i + 8 <= p + PGSIZE.
Proof. unfold idx_ok, pte_addr, PGSIZE. lia. Qed.

(** * Frame lemmas *)

Lemma page_of_ext m m' root :
  (forall n p i, node_ok n -> idx_ok i -> page_of m root n = Some p ->
     entry m' p i = entry m p i) ->
  (forall n, node_ok n -> page_of m' root n = page_of m root n).
Proof.
  intros H.
  assert (H1 : forall i, idx_ok i -> page_of m' root (N1 i) = page_of m root (N1 i)).
  { intros i Hi. simpl. by rewrite (H NRoot root i). }
  intros [|i|i j] Hn; [done|by apply H1|]. destruct Hn as [Hi Hj].
  specialize (H1 i Hi). cbn [page_of] in H1 |- *. rewrite H1.
  destruct (next m (Some root) i) as [p|] eqn:E; [|done]. cbn [next].
  by rewrite (H (N1 i) p j).
Qed.

(** A write to a page that is no table changes no position and no entry. *)
Lemma entry_write_page im m m' root F q p n i :
  pt_inv im m root F -> q mod PGSIZE = 0 -> not_table m root q ->
  (forall a, a < q \/ q + PGSIZE <= a -> ldb m' a = ldb m a) ->
  node_ok n -> idx_ok i -> page_of m root n = Some p -> entry m' p i = entry m p i.
Proof.
  intros Hinv Hq Hnt Hout Hn Hi Hp.
  destruct (pt_good _ _ _ _ Hinv n p Hn Hp) as [[Hpa _] _].
  assert (p <> q) by (intros ->; by apply (Hnt n Hn)).
  pose proof (aligned_disjoint p q Hpa Hq ltac:(done)) as Hd.
  pose proof (pte_addr_in p i Hi).
  apply ld64_ext. intros b Hb. apply Hout. unfold page_disjoint in Hd. lia.
Qed.

Lemma page_of_write_page im m m' root F q :
  pt_inv im m root F -> q mod PGSIZE = 0 -> not_table m root q ->
  (forall a, a < q \/ q + PGSIZE <= a -> ldb m' a = ldb m a) ->
  forall n, node_ok n -> page_of m' root n = page_of m root n.
Proof.
  intros Hinv Hq Hnt Hout. apply page_of_ext. intros n p i Hn Hi Hp.
  by eapply entry_write_page.
Qed.

Lemma pt_inv_ext im m m' root F F' :
  pt_inv im m root F -> (forall n, node_ok n -> page_of m' root n = page_of m root n) ->
  (forall p, p ∈ F' -> p ∈ F) -> pt_inv im m' root F'.
Proof.
  intros [Hg Hi] He HF. split.
  - intros n p Hn Hp. rewrite He in Hp by done. destruct (Hg n p Hn Hp). split; [done|auto].
  - intros n n' p Hn Hn' Hp Hp'. rewrite He in Hp, Hp' by done. by apply (Hi n n' p).
Qed.

Lemma pte_at_ext m m' root va :
  page_of m' root (N0 (PX 2 va) (PX 1 va)) = page_of m root (N0 (PX 2 va) (PX 1 va)) ->
  (forall p, page_of m root (N0 (PX 2 va) (PX 1 va)) = Some p ->
     entry m' p (PX 0 va) = entry m p (PX 0 va)) ->
  pte_at m' root va = pte_at m root va.
Proof.
  intros He Hp. unfold pte_at. rewrite He.
  destruct (page_of m root (N0 (PX 2 va) (PX 1 va))) as [p|]; [by apply Hp|done].
Qed.

Lemma pte_at_write_page im m m' root F q va :
  pt_inv im m root F -> q mod PGSIZE = 0 -> not_table m root q ->
  (forall a, a < q \/ q + PGSIZE <= a -> ldb m' a = ldb m a) ->
  pte_at m' root va = pte_at m root va.
Proof.
  intros Hinv Hq Hnt Hout.
  assert (Hn : node_ok (N0 (PX 2 va) (PX 1 va))) by (split; apply PX_range).
  apply pte_at_ext; [by eapply page_of_write_page|].
  intros p Hp. eapply entry_write_page; eauto. apply PX_range.
Qed.

Lemma ptrs_ext m m' root :
  ptrs m root -> (forall n, node_ok n -> page_of m' root n = page_of m root n) ->
  (forall n p k, node_ok n -> inner n -> idx_ok k -> page_of m root n = Some p -> entry m' p k = entry m p k) ->
  ptrs m' root.
Proof.
  intros [P H] Hp He. split.
  - intros n p k Hn Hin Hk Hq. rewrite Hp in Hq by done. rewrite (He n) by done. by apply (P n).
  - intros k Hk. rewrite (He NRoot) by (done || unfold idx_ok; lia). by apply H.
Qed.

Lemma ptrs_write_page im m m' root F q :
  pt_inv im m root F -> q mod PGSIZE = 0 -> not_table m root q ->
  (forall a, a < q \/ q + PGSIZE <= a -> ldb m' a = ldb m a) -> ptrs m root -> ptrs m' root.
Proof.
  intros Hinv Hq Hnt Hout P. apply (ptrs_ext m); [done|by eapply page_of_write_page|].
  intros n p k Hn _ Hk Hp. by eapply entry_write_page.
Qed.

(** ** Stores to a slot of a table *)

Lemma entry_store_same im m root F n n' p p' k k' x :
  pt_inv im m root F -> node_ok n -> node_ok n' -> idx_ok k -> idx_ok k' ->
  page_of m root n = Some p -> page_of m root n' = Some p' ->
  n <> n' \/ k <> k' ->
  entry (st64 m (pte_addr p k) x) p' k' = entry m p' k'.
Proof.
  intros Hinv Hn Hn' Hk Hk' Hp Hp' Hne. apply ld64_st64_ne.
  destruct (pt_good _ _ _ _ Hinv n p Hn Hp) as [[Ha _] _].
  destruct (pt_good _ _ _ _ Hinv n' p' Hn' Hp') as [[Ha' _] _].
  destruct (Z.eq_dec p p') as [->|Hpp].
  - assert (n = n') as -> by (by apply (pt_inj _ _ _ _ Hinv n n' p')).
    destruct Hne as [Hne|Hne]; [done|]. unfold pte_addr. lia.
  - pose proof (aligned_disjoint p p' Ha Ha' Hpp) as Hd. unfold page_disjoint in Hd.
    pose proof (pte_addr_in p k Hk). pose proof (pte_addr_in p' k' Hk'). lia.
Qed.

Lemma entry_store_eq m p k x : 0 <= x < 2 ^ 64 -> entry (st64 m (pte_addr p k) x) p k = x.
Proof. intros Hx. unfold entry. rewrite ld64_st64_eq. by apply u64_small. Qed.

(** a leaf entry changes no position *)
Lemma page_of_store_leaf im m root F i j p k x :
  pt_inv im m root F -> node_ok (N0 i j) -> idx_ok k -> page_of m root (N0 i j) = Some p ->
  forall n, node_ok n -> page_of (st64 m (pte_addr p k) x) root n = page_of m root n.
Proof.
  intros Hinv Hn Hk Hp.
  assert (H1 : forall i', idx_ok i' ->
    page_of (st64 m (pte_addr p k) x) root (N1 i') = page_of m root (N1 i')).
  { intros i' Hi'. cbn [page_of next].
    rewrite (entry_store_same im m root F (N0 i j) NRoot p root k i'); auto; done. }
  intros [|i'|i' j'] Hn'; [done|by apply H1|]. destruct Hn' as [Hi' Hj'].
  specialize (H1 i' Hi'). cbn [page_of] in H1 |- *. rewrite H1.
  destruct (next m (Some root) i') as [p'|] eqn:E; [|done]. cbn [next].
  rewrite (entry_store_same im m root F (N0 i j) (N1 i') p p' k j'); auto; done.
Qed.

Lemma ptrs_store_leaf im m root F i j p k x :
  pt_inv im m root F -> node_ok (N0 i j) -> idx_ok k -> page_of m root (N0 i j) = Some p ->
  ptrs m root -> ptrs (st64 m (pte_addr p k) x) root.
Proof.
  intros Hinv Hn Hk Hp P. apply (ptrs_ext m); [done|by eapply page_of_store_leaf|].
  intros n' p' k' Hn' Hin Hk' Hp'. eapply (entry_store_same im m root F (N0 i j) n'); try done. left. by intros <-.
Qed.

Lemma pte_at_store_leaf im m root F va p x :
  pt_inv im m root F -> 0 <= x < 2 ^ 64 -> 0 <= va < MAXVA ->
  page_of m root (N0 (PX 2 va) (PX 1 va)) = Some p ->
  let m' := st64 m (pte_addr p (PX 0 va)) x in
  pte_at m' root va = x /\
  (forall va', 0 <= va' < MAXVA -> va' / PGSIZE <> va / PGSIZE ->
     pte_at m' root va' = pte_at m root va').
Proof.
  intros Hinv Hx Hva Hp m'.
  assert (Hn : node_ok (N0 (PX 2 va) (PX 1 va))) by (split; apply PX_range).
  assert (Hpg := page_of_store_leaf im m root F _ _ p (PX 0 va) x Hinv Hn (PX_range _ _) Hp).
  split.
  - unfold pte_at. unfold m'. rewrite Hpg, Hp by done. by apply entry_store_eq.
  - intros va' Hva' Hne.
    assert (Hn' : node_ok (N0 (PX 2 va') (PX 1 va'))) by (split; apply PX_range).
    apply pte_at_ext; [by apply Hpg|]. intros p' Hp'.
    apply (entry_store_same im m root F (N0 (PX 2 va) (PX 1 va)) (N0 (PX 2 va') (PX 1 va')) p p');
      auto using PX_range.
    destruct (Z.eq_dec (PX 0 va) (PX 0 va')); [left|by right].
    intros [= H2 H1]. apply Hne. by apply PX_inj.
Qed.

(** ** Adding a table page *)

Lemma inner_cases n : inner n -> n = NRoot \/ exists i, n = N1 i.
Proof. destruct n; simpl; eauto. done. Qed.

(** [m2] is [m] with the zeroed page [q] hung into the empty slot [k] of the
    table at [n] *)
Definition hang_table (m : mem) (p k q : Z) : mem :=
  st64 (memset m q 0 PGSIZE) (pte_addr p k) (Z.lor (PA2PTE q) PTE_V).

Lemma ptr_pte im q :
  good_page im q ->
  PTE2PA (Z.lor (PA2PTE q) PTE_V) = q /\ nz (Z.land (Z.lor (PA2PTE q) PTE_V) PTE_V) = true /\
  0 <= Z.lor (PA2PTE q) PTE_V < 2 ^ 64.
Proof.
  intros Hq. pose proof (good_page_56 _ _ Hq) as H56.
  assert (HV : forall i, 0 <= i ->
    Z.testbit (Z.lor (PA2PTE q) PTE_V) i = (10 <=? i) && Z.testbit q (i + 2) || (i =? 0)).
  { intros i Hi. by rewrite Z.lor_spec, testbit_PA2PTE, testbit_PTE_V by lia. }
  assert (Hr : 0 <= Z.lor (PA2PTE q) PTE_V < 2 ^ 64).
  { apply lor_range; [lia|apply PA2PTE_range|done]. }
  split; [|split; [|done]].
  - apply Z.bits_inj'. intros i Hi. rewrite testbit_PTE2PA by done.
    destruct (Z.leb_spec 12 i); simpl; [|rewrite aligned_bits; [done|apply Hq|lia]].
    destruct (Z.ltb_spec i 56); simpl; [|by rewrite (testbit_high q 56) by lia].
    rewrite HV by lia. destruct (Z.leb_spec 10 (i - 2)); [|lia].
    destruct (Z.eqb_spec (i - 2) 0); [lia|]. rewrite orb_false_r. simpl. f_equal. lia.
  - apply nz_true. intros H0.
    assert (Z.testbit (Z.land (Z.lor (PA2PTE q) PTE_V) PTE_V) 0 = false) as H
      by (rewrite H0; apply Z.bits_0).
    by rewrite Z.land_spec, HV, testbit_PTE_V, orb_true_r in H.
Qed.

Lemma ptr_pte_RWX im q : good_page im q -> Z.land (Z.lor (PA2PTE q) PTE_V) RWX = 0.
Proof.
  intros G. pose proof (good_page_56 _ _ G) as H56. apply Z.bits_inj'. intros i Hi.
  rewrite Z.land_spec, Z.lor_spec, testbit_PA2PTE, testbit_PTE_V, Z.bits_0 by lia.
  destruct (decide (i < 4)) as [H|H].
  - assert (i = 0 \/ i = 1 \/ i = 2 \/ i = 3) as [->|[->|[->| ->]]] by lia; apply andb_false_iff; (by right) || by left.
  - rewrite (testbit_high RWX 4) by (done || lia). apply andb_false_r.
Qed.

Section hang.
Context (im : image) (m : mem) (root : Z) (F : list Z) (n : node) (p k q : Z).
Hypothesis Hinv : pt_inv im m root F.
Hypothesis Hn : node_ok n.
Hypothesis Hin : inner n.
Hypothesis Hk : idx_ok k.
Hypothesis Hp : page_of m root n = Some p.
Hypothesis Hempty : nz (Z.land (entry m p k) PTE_V) = false.
Hypothesis Hq : good_page im q.
Hypothesis Hqn : not_table m root q.

Let m0 := memset m q 0 PGSIZE.
Let m' := hang_table m p k q.

Lemma hang_m0 : forall a, a < q \/ q + PGSIZE <= a -> ldb m0 a = ldb m a.
Proof. intros a Ha. by apply ldb_memset_out. Qed.

Lemma hang_old n1 p1 k1 :
node_ok n1 -> idx_ok k1 -> page_of m root n1 = Some p1 -> n1 <> n \/ k1 <> k ->
entry m' p1 k1 = entry m p1 k1.
Proof.
intros Hn1 Hk1 Hp1 Hne. unfold m', hang_table. fold m0.
assert (Hinv0 : pt_inv im m0 root F).
{ eapply pt_inv_ext; [exact Hinv| |done]. intros n2 Hn2.
  eapply page_of_write_page; eauto using hang_m0. apply Hq. }
assert (Hp0 : forall n2 p2, node_ok n2 -> page_of m root n2 = Some p2 ->
                page_of m0 root n2 = Some p2).
{ intros n2 p2 Hn2 Hp2. rewrite <-Hp2. eapply page_of_write_page; eauto using hang_m0.
  apply Hq. }
rewrite (entry_store_same im m0 root F n n1 p p1 k k1); auto.
- eapply entry_write_page; eauto using hang_m0. apply Hq.
- destruct Hne; [left|right]; congruence.
Qed.

Lemma hang_new : entry m' p k = Z.lor (PA2PTE q) PTE_V.
Proof. apply entry_store_eq. by apply (ptr_pte im). Qed.

(** the new table is empty *)
Lemma hang_zero j : idx_ok j -> entry m' q j = 0.
Proof.
intros Hj. destruct (pt_good _ _ _ _ Hinv n p Hn Hp) as [[Ha _] _].
assert (p <> q) as Hpq by (intros ->; by apply (Hqn n Hn)).
pose proof (aligned_disjoint p q Ha (proj1 Hq) Hpq) as Hd. unfold page_disjoint in Hd.
pose proof (pte_addr_in p k Hk). pose proof (pte_addr_in q j Hj).
unfold entry, m', hang_table. rewrite ld64_st64_ne by lia.
unfold ld64. transitivity (le_val (replicate 8 0)); [|done]. f_equal.
apply list_eq. intros t. unfold ldn. rewrite list_lookup_fmap.
destruct (decide (t < 8)%nat).
- rewrite lookup_seq_lt, lookup_replicate_2 by lia. simpl. f_equal.
  rewrite memset_spec by (unfold PGSIZE; lia).
  destruct (Z.leb_spec q (pte_addr q j + Z.of_nat t)),
    (Z.ltb_spec (pte_addr q j + Z.of_nat t) (q + PGSIZE)); simpl; (done || lia).
- rewrite lookup_seq_ge by lia. symmetry. apply lookup_ge_None. simpl. lia.
Qed.

Lemma hang_page_of n1 :
node_ok n1 ->
(n1 = child n k -> page_of m' root n1 = Some q) /\
(n1 <> child n k -> page_of m' root n1 = page_of m root n1).
Proof.
intros Hn1. destruct (ptr_pte im q Hq) as (Hq1 & Hq2 & _).
assert (Hroot : forall i, idx_ok i -> n <> NRoot \/ i <> k ->
          page_of m' root (N1 i) = page_of m root (N1 i)).
{ intros i Hi Hne. cbn [page_of next].
  rewrite (hang_old NRoot root i); [done|exact I|done|done|].
  destruct Hne; [left|right]; congruence. }
destruct (inner_cases n Hin) as [En|[i0 En]].
- (* a new level-1 table *)
  assert (Hrp : root = p) by (rewrite En in Hp; by injection Hp).
  rewrite En. destruct n1 as [|i|i j]; cbn [child].
  + split; intros; [discriminate|done].
  + split; [intros [= ->]; cbn [page_of next]; rewrite Hrp, hang_new, Hq2, Hq1; done|].
    intros Hne. apply Hroot; [done|right; congruence].
  + destruct Hn1 as [Hi Hj]. split; [discriminate|intros _].
    destruct (Z.eq_dec i k) as [->|Hik].
    * cbn [page_of next]. rewrite Hrp, hang_new, Hq2, Hq1, Hempty.
      cbn [next]. by rewrite hang_zero.
    * specialize (Hroot i Hi (or_intror Hik)). cbn [page_of] in Hroot |- *.
      rewrite Hroot. destruct (next m (Some root) i) as [p1|] eqn:E; [|done]. cbn [next].
      rewrite (hang_old (N1 i) p1 j); [done|exact Hi|exact Hj|exact E|left; by rewrite En].
- (* a new level-0 table *)
  rewrite En. destruct n1 as [|i|i j]; cbn [child].
  + split; intros; [discriminate|done].
  + split; [discriminate|intros _]. apply Hroot; [done|left; by rewrite En].
  + destruct Hn1 as [Hi Hj]. specialize (Hroot i Hi ltac:(left; by rewrite En)).
    assert (Hp' : next m (Some root) i0 = Some p) by (rewrite En in Hp; exact Hp).
    cbn [page_of] in Hroot |- *. rewrite Hroot. split.
    * intros [= -> ->]. rewrite Hp'. cbn [next]. rewrite hang_new, Hq2, Hq1. done.
    * intros Hne. destruct (next m (Some root) i) as [p1|] eqn:E; [|done]. cbn [next].
      rewrite (hang_old (N1 i) p1 j); [done|exact Hi|exact Hj|exact E|]. rewrite En.
      destruct (Z.eq_dec j k) as [->|]; [left; congruence|by right].
Qed.

Lemma hang_inv : q ∉ F -> pt_inv im m' root F.
Proof.
intros HqF.
assert (Hcase : forall n1 p1, node_ok n1 -> page_of m' root n1 = Some p1 ->
          n1 = child n k /\ p1 = q \/ page_of m root n1 = Some p1 /\ p1 <> q /\ n1 <> child n k).
{ intros n1 p1 Hn1 Hp1. destruct (hang_page_of n1 Hn1) as [H1 H2].
  destruct (decide (n1 = child n k)) as [Hc|Hc].
  - left. split; [done|]. rewrite H1 in Hp1 by done. congruence.
  - right. rewrite H2 in Hp1 by done. split; [done|]. split; [|done].
    intros ->. by apply (Hqn n1 Hn1). }
split.
- intros n1 p1 Hn1 Hp1. destruct (Hcase n1 p1 Hn1 Hp1) as [[_ ->]|(Ho & _ & _)]; [done|].
  by apply (pt_good _ _ _ _ Hinv n1).
- intros n1 n2 p1 Hn1 Hn2 Hp1 Hp2.
  destruct (Hcase n1 p1 Hn1 Hp1) as [[E1 Eq1]|(Ho & Hne & _)];
    destruct (Hcase n2 p1 Hn2 Hp2) as [[E2 Eq2]|(Ho2 & Hne2 & _)].
  + by rewrite E1, E2.
  + by destruct Hne2.
  + by destruct Hne.
  + by apply (pt_inj _ _ _ _ Hinv n1 n2 p1).
Qed.

Lemma hang_ptrs : (n = NRoot -> k < 256) -> ptrs m root -> ptrs m' root.
Proof.
intros Hlow [P H]. split.
- intros n1 p1 k1 Hn1 Hin1 Hk1 Hp1 HV. destruct (hang_page_of n1 Hn1) as [H1 H2].
  destruct (decide (n1 = child n k)) as [Hc|Hc].
  { rewrite H1 in Hp1 by done. injection Hp1 as <-. by rewrite hang_zero in HV. }
  rewrite H2 in Hp1 by done. destruct (decide (n1 = n /\ k1 = k)) as [[-> ->]|Hne].
  + rewrite Hp in Hp1. injection Hp1 as <-. rewrite hang_new. by eapply ptr_pte_RWX.
  + assert (entry m' p1 k1 = entry m p1 k1) as E.
    { apply (hang_old n1 p1 k1 Hn1 Hk1 Hp1). destruct (decide (n1 = n)) as [E|E]; [right|left; exact E]. intros Ek. apply Hne. split; assumption. }
    rewrite E in HV |- *. exact (P n1 p1 k1 Hn1 Hin1 Hk1 Hp1 HV).
- intros k1 Hk1. rewrite (hang_old NRoot); [exact (H k1 Hk1)|exact I|unfold idx_ok; lia|reflexivity|].
  destruct (decide (n = NRoot)) as [E|E]; [right|left; congruence]. specialize (Hlow E). lia.
Qed.

Lemma hang_pte_at va : pte_at m' root va = pte_at m root va.
Proof.
assert (Hnv : node_ok (N0 (PX 2 va) (PX 1 va))) by (split; apply PX_range).
destruct (hang_page_of _ Hnv) as [H1 H2].
destruct (decide (N0 (PX 2 va) (PX 1 va) = child n k)) as [Hc|Hc].
- unfold pte_at. rewrite H1 by done. rewrite hang_zero by apply PX_range.
  destruct (inner_cases n Hin) as [En|[i En]]; rewrite En in Hc; [discriminate|]. cbn [child] in Hc.
  injection Hc as E2 E1. rewrite E2, E1. cbn [page_of].
  assert (next m (Some root) i = Some p) as -> by (rewrite En in Hp; exact Hp).
  cbn [next]. by rewrite Hempty.
- apply pte_at_ext; [by apply H2|]. intros p1 Hp1.
  apply (hang_old (N0 (PX 2 va) (PX 1 va))); [exact Hnv|apply PX_range|exact Hp1|].
  left. intros Heq. rewrite <-Heq in Hin. done.
Qed.
End hang.

(** * walk and mappages on a well-formed table *)

Record vm_ok (s : kstate) (root : Z) (F : list Z) : Prop := {
  vo_free : free_pages s F;
  vo_pt : pt_inv (k_img s) (k_mem s) root F;
  vo_lock : lock_free LKmem s
}.

Definition with_mem (m : mem) (fl : Z) (s : kstate) : kstate :=
  set_mem (fun _ => m) (set_freelist (fun _ => fl) s).

(** [s'] is [s] after page-table work on [root] that took pages from the
    free list [F]: only memory and the free list changed, pages that are
    neither free nor tables kept their contents, and the pages taken are
    tables now. *)
Record grows (root : Z) (s : kstate) (F : list Z) (s' : kstate) (F' : list Z) : Prop := {
  gr_state : exists m fl, s' = with_mem m fl s;
  gr_ok : vm_ok s' root F';
  gr_suffix : exists l, F = l ++ F';
  gr_data : forall d, d mod PGSIZE = 0 -> d ∉ F -> not_table (k_mem s) root d ->
    not_table (k_mem s') root d /\
    (forall a, d <= a < d + PGSIZE -> ldb (k_mem s') a = ldb (k_mem s) a);
  gr_keep n p : node_ok n -> page_of (k_mem s) root n = Some p -> page_of (k_mem s') root n = Some p;
  gr_used p : p ∈ F -> p ∈ F' \/ exists n, node_ok n /\ page_of (k_mem s') root n = Some p;
  gr_ptrs : ptrs (k_mem s) root -> ptrs (k_mem s') root
}.

Lemma grows_refl root s F : vm_ok s root F -> grows root s F s F.
Proof.
  intros H. split; [|done|by exists []|done|done|by left|done].
  exists (k_mem s), (k_freelist s). done.
Qed.

Lemma grows_trans root s F s1 F1 s2 F2 :
  grows root s F s1 F1 -> grows root s1 F1 s2 F2 -> grows root s F s2 F2.
Proof.
  intros [(m1 & f1 & E1) O1 [l1 L1] D1 K1 U1 P1] [(m2 & f2 & E2) O2 [l2 L2] D2 K2 U2 P2]. split; [|done| | |by auto| |by auto].
  - exists m2, f2. by rewrite E2, E1.
  - exists (l1 ++ l2). by rewrite L1, L2, app_assoc.
  - intros d Hd HF Hn. destruct (D1 d Hd HF Hn) as [Hn1 Hc1].
    destruct (D2 d Hd) as [Hn2 Hc2]; [|done|].
    { intros Hin. apply HF. rewrite L1. apply elem_of_app. by right. }
    split; [done|]. intros a Ha. by rewrite Hc2, Hc1.
  - intros p Hp. destruct (U1 p Hp) as [H|(n & Hn & H)]; [by apply U2|right; eauto].
Qed.

Lemma grows_lock root s F s' F' : grows root s F s' F' -> k_hart s' = k_hart s.
Proof. intros [(m & fl & ->) _ _ _ _ _ _]. done. Qed.

Lemma grows_img root s F s' F' : grows root s F s' F' -> k_img s' = k_img s.
Proof. intros [(m & fl & ->) _ _ _ _ _ _]. done. Qed.

(** a page taken from the free list is no table, and neither is a page that
    was no table before *)
Lemma free_not_table im m root F q : pt_inv im m root F -> q ∈ F -> not_table m root q.
Proof. intros Hinv Hq n Hn Hp. destruct (pt_good _ _ _ _ Hinv n q Hn Hp). done. Qed.

(** One level of [walk] with [alloc]: the level exists, or a page is taken
    from the free list for it, or there is none. *)
Lemma walk_level_alloc s root F n p level rest va :
  vm_ok s root F -> node_ok n -> inner n -> (n = NRoot -> PX level va < 256) -> page_of (k_mem s) root n = Some p ->
  let k := PX level va in
  (walk_levels (level :: rest) p va true s = Ok 0 s /\ F = []) \/
  exists s' F' q,
    walk_levels (level :: rest) p va true s = walk_levels rest q va true s' /\
    page_of (k_mem s') root (child n k) = Some q /\
    grows root s F s' F' /\
    (forall va', pte_at (k_mem s') root va' = pte_at (k_mem s) root va').
Proof.
  intros Hok Hn Hin Hlow Hp k. cbn [walk_levels]. fold k.
  assert (Hk : idx_ok k) by apply PX_range.
  unfold load64. mstep.
  change (ld64 (k_mem s) (pte_addr p k)) with (entry (k_mem s) p k).
  destruct (nz (Z.land (entry (k_mem s) p k) PTE_V)) eqn:EV.
  { right. exists s, F, (PTE2PA (entry (k_mem s) p k)). split; [done|].
    split; [|split; [by apply grows_refl|done]].
    assert (Hnx : next (k_mem s) (Some p) k = Some (PTE2PA (entry (k_mem s) p k)))
      by (cbn [next]; by rewrite EV).
    destruct (inner_cases n Hin) as [->|[i ->]]; cbn [child page_of] in *.
    - by injection Hp as ->.
    - by rewrite Hp. }
  cbn [negb]. destruct Hok as [Hfp Hinv Hl].
  destruct F as [|q F].
  { left. split; [|done]. erewrite bind_ok by (apply kalloc_empty; [apply Hfp|done]). done. }
  right. pose proof Hfp as [Hc Hg Hnd]. cbn [chain] in Hc. destruct Hc as [Hfl Hc].
  apply Forall_cons in Hg as [Hq Hg]. apply NoDup_cons in Hnd as [HqF Hnd].
  pose proof (good_page_pos _ _ Hq) as Hqpos.
  assert (Hqn : not_table (k_mem s) root q) by (eapply free_not_table; [done|left]).
  erewrite bind_ok by (apply (kalloc_run s q); [done|lia|done]).
  destruct (Z.eqb_spec q 0); [lia|]. unfold memsetM, store64. mstep. mstep.
  set (m5 := memset (k_mem s) q 5 PGSIZE).
  set (s' := with_mem (hang_table m5 p k q) (ld64 (k_mem s) q) s).
  assert (Hout5 : forall a, a < q \/ q + PGSIZE <= a -> ldb m5 a = ldb (k_mem s) a)
    by (intros; by apply ldb_memset_out).
  assert (Hinv5 : pt_inv (k_img s) m5 root F).
  { eapply pt_inv_ext; [exact Hinv| |intros r Hr; by right]. intros n1 Hn1.
    eapply page_of_write_page; [exact Hinv|apply Hq|exact Hqn|exact Hout5|exact Hn1]. }
  assert (Hpg5 : forall n1, node_ok n1 -> page_of m5 root n1 = page_of (k_mem s) root n1).
  { intros n1 Hn1.
    eapply page_of_write_page; [exact Hinv|apply Hq|exact Hqn|exact Hout5|exact Hn1]. }
  assert (Hqn5 : not_table m5 root q) by (intros n1 Hn1; rewrite Hpg5 by done; by apply Hqn).
  assert (Hp5 : page_of m5 root n = Some p) by (by rewrite Hpg5).
  assert (HE5 : nz (Z.land (entry m5 p k) PTE_V) = false).
  { erewrite entry_write_page; [exact EV|exact Hinv|apply Hq|exact Hqn|exact Hout5|exact Hn|done|done]. }
  assert (Hhang := hang_page_of (k_img s) m5 root F n p k q Hinv5 Hn Hin Hk Hp5 HE5 Hq Hqn5).
  exists s', F, q. split; [reflexivity|].
  assert (Hcn : node_ok (child n k)).
  { destruct (inner_cases n Hin) as [->|[i ->]]; cbn; [done|by split]. }
  split; [by apply (Hhang (child n k))|].
  assert (HoutH : forall a, (a < q \/ q + PGSIZE <= a) ->
             (a < pte_addr p k \/ pte_addr p k + 8 <= a) ->
             ldb (hang_table m5 p k q) a = ldb (k_mem s) a).
  { intros a Ha1 Ha2. unfold hang_table. rewrite ldb_st64_out by done.
    rewrite ldb_memset_out by done. by apply Hout5. }
  destruct (pt_good _ _ _ _ Hinv n p Hn Hp) as [[Hpa Hpg] HpF].
  pose proof (pte_addr_in p k Hk) as Hslot.
  split; [|intros va'; change (k_mem s') with (hang_table m5 p k q)].
  - split.
    + by eexists _, _.
    + split.
      * split; [|exact Hg|exact Hnd]. apply (chain_ext (k_mem s)); [|exact Hc].
        intros r Hr. rewrite Forall_forall in Hg. destruct (Hg r Hr) as [Hr1 Hr2].
        assert (page_disjoint r q) as Hd1 by (apply aligned_disjoint; [done|apply Hq|congruence]).
        assert (page_disjoint r p) as Hd2.
        { apply aligned_disjoint; [done..|]. intros ->. apply HpF. by right. }
        apply ld64_ext. intros b Hb. symmetry. unfold page_disjoint, PGSIZE in *.
        apply HoutH; unfold PGSIZE; lia.
      * exact (hang_inv (k_img s) m5 root F n p k q Hinv5 Hn Hin Hk Hp5 HE5 Hq Hqn5 HqF).
      * exact Hl.
    + by exists [q].
    + intros d Hd HdF Hdn. change (k_mem s') with (hang_table m5 p k q). split.
      * intros n1 Hn1 Hp1. destruct (Hhang n1 Hn1) as [H1 H2].
        destruct (decide (n1 = child n k)) as [Hc1|Hc1].
        -- rewrite H1 in Hp1 by done. injection Hp1 as ->. apply HdF. left.
        -- rewrite H2, Hpg5 in Hp1 by done. by apply (Hdn n1).
      * intros a Ha.
        assert (page_disjoint d q) as Hd1 by (apply aligned_disjoint; [done|apply Hq|intros ->; apply HdF; left]).
        assert (page_disjoint d p) as Hd2.
        { apply aligned_disjoint; [done..|]. intros ->. by apply (Hdn n). }
        unfold page_disjoint in *. apply HoutH; lia.
    + intros n1 p1 Hn1 Hp1. change (k_mem s') with (hang_table m5 p k q). destruct (Hhang n1 Hn1) as [_ H2].
      rewrite H2; [by rewrite Hpg5|]. intros ->.
      assert (next (k_mem s) (Some p) k = None) as Hnx by (cbn [next]; by rewrite EV).
      assert (page_of (k_mem s) root (child n k) = None) as Hnone; [|rewrite Hnone in Hp1; discriminate Hp1].
      destruct (inner_cases n Hin) as [En|[i En]]; rewrite En in Hp |- *; cbn [child page_of] in Hp |- *.
      * injection Hp as ->. exact Hnx.
      * rewrite Hp. exact Hnx.
    + intros r [->|Hr]%elem_of_cons; [right|by left]. exists (child n k). split; [done|]. by apply (Hhang (child n k)).
    + intros P. apply (hang_ptrs (k_img s) m5 root F n p k q Hinv5 Hn Hin Hk Hp5 HE5 Hq Hqn5 Hlow).
      exact (ptrs_write_page (k_img s) (k_mem s) m5 root (q :: F) q Hinv (proj1 Hq) Hqn Hout5 P).
  - rewrite (hang_pte_at (k_img s) m5 root F n p k q) by done.
    eapply pte_at_write_page; [exact Hinv|apply Hq|exact Hqn|exact Hout5].
Qed.

Lemma walk_alloc_spec s root F va :
  vm_ok s root F -> 0 <= va < MAXVA ->
  exists r s' F',
    walk root va true s = Ok r s' /\ grows root s F s' F' /\
    (forall va', pte_at (k_mem s') root va' = pte_at (k_mem s) root va') /\
    ((r = 0 /\ F' = []) \/
     exists p, page_of (k_mem s') root (N0 (PX 2 va) (PX 1 va)) = Some p /\
               r = pte_addr p (PX 0 va)).
Proof.
  intros Hok Hva. unfold walk. destruct (Z.leb_spec MAXVA va); [lia|].
  destruct (walk_level_alloc s root F NRoot root 2 [1] va Hok I I (fun _ => PX_low va Hva) eq_refl)
    as [[E EF]|(s1 & F1 & p1 & E1 & Hp1 & Hg1 & Hpte1)].
  { exists 0, s, F. split; [exact E|]. split; [by apply grows_refl|]. split; [done|by left]. }
  cbn [child] in Hp1.
  destruct (walk_level_alloc s1 root F1 (N1 (PX 2 va)) p1 1 [] va (gr_ok _ _ _ _ _ Hg1)
              (PX_range _ _) I ltac:(discriminate) Hp1) as [[E EF]|(s2 & F2 & p2 & E2 & Hp2 & Hg2 & Hpte2)].
  { exists 0, s1, F1. split; [by rewrite E1|]. split; [done|]. split; [done|by left]. }
  cbn [child] in Hp2. exists (pte_addr p2 (PX 0 va)), s2, F2. split; [by rewrite E1, E2|].
  split; [by eapply grows_trans|]. split.
  - intros va'. by rewrite Hpte2.
  - right. by exists p2.
Qed.
