(* ===== verification/VmSpec.v ===== *)
(** Properties of kernel/vm.c: mapping and unmapping pages, address lookup,
    and the copies between kernel and user memory, over the tree invariant of
    VmTree. *)

From stdpp Require Import base gmap strings numbers list.
From S2P Require Import Prelude KState KString Spinlock Kalloc Vm VmPte VmTree.

(** * Lookup *)

(** the address [walk] returns without allocating *)
Definition pte_ptr (m : mem) (root va : Z) : Z :=
  match page_of m root (N0 (PX 2 va) (PX 1 va)) with
  | Some p => pte_addr p (PX 0 va)
  | None => 0
  end.

Lemma walk_noalloc s root va :
  0 <= va < MAXVA -> walk root va false s = Ok (pte_ptr (k_mem s) root va) s.
Proof.
  intros Hva. unfold walk. destruct (Z.leb_spec MAXVA va); [lia|].
  cbn [walk_levels]. unfold load64, pte_ptr. mstep. cbn [page_of next].
  change (ld64 (k_mem s) (pte_addr root (PX 2 va))) with (entry (k_mem s) root (PX 2 va)).
  destruct (nz (Z.land (entry (k_mem s) root (PX 2 va)) PTE_V)) eqn:E2; [|done].
  cbn [next walk_levels]. unfold load64. mstep.
  change (ld64 (k_mem s) (pte_addr ?p (PX 1 va))) with (entry (k_mem s) p (PX 1 va)).
  destruct (nz (Z.land (entry (k_mem s) _ (PX 1 va)) PTE_V)) eqn:E1; done.
Qed.

Lemma pte_ptr_cases im m root F va :
  pt_inv im m root F ->
  (pte_ptr m root va = 0 /\ pte_at m root va = 0) \/
  (pte_ptr m root va <> 0 /\ ld64 m (pte_ptr m root va) = pte_at m root va /\
   exists p, page_of m root (N0 (PX 2 va) (PX 1 va)) = Some p /\
             pte_ptr m root va = pte_addr p (PX 0 va)).
Proof.
  intros Hinv. unfold pte_ptr, pte_at.
  destruct (page_of m root (N0 (PX 2 va) (PX 1 va))) as [p|] eqn:E; [right|by left].
  destruct (pt_good _ _ _ _ Hinv (N0 (PX 2 va) (PX 1 va)) p) as [Hg _]; [|done|].
  { split; apply PX_range. }
  pose proof (good_page_pos _ _ Hg). pose proof (PX_range 0 va) as Hk.
  split; [unfold pte_addr, idx_ok in *; lia|]. split; [done|]. by exists p.
Qed.

Lemma walkaddr_run s root F va :
  pt_inv (k_img s) (k_mem s) root F -> 0 <= va ->
  walkaddr root va s =
  Ok (if va <? MAXVA
      then let v := pte_at (k_mem s) root va in
           if nz (Z.land v PTE_V) && nz (Z.land v PTE_U) then PTE2PA v else 0
      else 0) s.
Proof.
  intros Hinv Hva. unfold walkaddr.
  destruct (Z.leb_spec MAXVA va), (Z.ltb_spec va MAXVA); try lia; [done|].
  erewrite bind_ok by (apply walk_noalloc; lia).
  destruct (pte_ptr_cases _ _ _ _ va Hinv) as [[-> ->]|(Hne & Hld & _)]; [done|].
  destruct (Z.eqb_spec (pte_ptr (k_mem s) root va) 0); [done|].
  unfold load64. mstep. rewrite Hld. unfold nz.
  destruct (Z.land (pte_at (k_mem s) root va) PTE_V =? 0); [done|].
  by destruct (Z.land (pte_at (k_mem s) root va) PTE_U =? 0).
Qed.

(** [walkaddr] is the translation of the user: it returns the physical
    page of exactly the valid entries with PTE_U, 0 for any other address
    (unmapped, kernel-only, or at or above MAXVA), and changes nothing. *)
Theorem walkaddr_spec s root F va :
  pt_inv (k_img s) (k_mem s) root F -> 0 <= va ->
  walkaddr root va s =
  Ok (if va <? MAXVA
      then let v := pte_at (k_mem s) root va in
           if nz (Z.land v PTE_V) && nz (Z.land v PTE_U) then PTE2PA v else 0
      else 0) s.
Proof. apply walkaddr_run. Qed.

(** * Mapping one page *)

(** a store to a leaf entry touches no free page, no other table position
    and no data page *)
Lemma store_leaf_grows s root F i j p k x :
  vm_ok s root F -> node_ok (N0 i j) -> idx_ok k ->
  page_of (k_mem s) root (N0 i j) = Some p ->
  grows root s F (set_mem (fun m => st64 m (pte_addr p k) x) s) F.
Proof.
  intros [Hfp Hinv Hl] Hn Hk Hp.
  destruct (pt_good _ _ _ _ Hinv _ _ Hn Hp) as [[Hpa Hpg] HpF].
  pose proof (pte_addr_in p k Hk) as Hslot.
  assert (Hpg' := page_of_store_leaf _ _ _ _ i j p k x Hinv Hn Hk Hp).
  split.
  - by exists (st64 (k_mem s) (pte_addr p k) x), (k_freelist s).
  - split; [|by eapply pt_inv_ext|exact Hl].
    destruct Hfp as [Hc Hg Hnd]. split; [|exact Hg|exact Hnd].
    apply (chain_ext (k_mem s)); [|exact Hc]. intros r Hr.
    rewrite Forall_forall in Hg. destruct (Hg r Hr) as [Hr1 Hr2].
    assert (page_disjoint r p) as Hd by (apply aligned_disjoint; [done..|congruence]).
    symmetry. ksimp. apply ld64_st64_ne. unfold page_disjoint, PGSIZE in *. lia.
  - by exists [].
  - intros d Hd HdF Hdn. ksimp. split.
    + intros n1 Hn1. rewrite Hpg' by done. by apply Hdn.
    + intros a Ha.
      assert (page_disjoint d p) as Hdp.
      { apply aligned_disjoint; [done..|]. intros ->. by apply (Hdn (N0 i j)). }
      apply ldb_st64_out. unfold page_disjoint in Hdp. lia.
  - intros n1 p1 Hn1 Hp1. ksimp. by rewrite Hpg'.
  - by left.
  - by eapply ptrs_store_leaf.
Qed.

(** one round of the loop *)
Lemma mappages_round s root F va pa perm last :
  vm_ok s root F -> 0 <= va < MAXVA -> 0 <= perm < 2 ^ 64 ->
  nz (Z.land (pte_at (k_mem s) root va) PTE_V) = false ->
  exists r s' F', mappages_body root last perm (va, pa) s = Ok r s' /\ grows root s F s' F' /\
    (forall va', 0 <= va' < MAXVA -> va' / PGSIZE <> va / PGSIZE ->
       pte_at (k_mem s') root va' = pte_at (k_mem s) root va') /\
    ((r = (if va =? last then inr 0 else inl (u64 (va + PGSIZE), u64 (pa + PGSIZE))) /\
      pte_at (k_mem s') root va = Z.lor (Z.lor (PA2PTE pa) perm) PTE_V) \/
     (r = inr (-1) /\ F' = [] /\ forall v, pte_at (k_mem s') root v = pte_at (k_mem s) root v)).
Proof.
  intros Hok Hva Hperm Hinv0.
  destruct (walk_alloc_spec s root F va Hok Hva) as (r & s1 & F1 & E1 & Hg1 & Hpte1 & Hr).
  unfold mappages_body. destruct Hr as [[-> HF1]|(p & Hp & ->)].
  { exists (inr (-1)), s1, F1. erewrite bind_ok by exact E1. simpl. split; [done|]. split; [done|].
    split; [auto|]. by right. }
  pose proof (gr_ok _ _ _ _ _ Hg1) as [Hfp1 Hpt1 Hl1].
  assert (Hn : node_ok (N0 (PX 2 va) (PX 1 va))) by (split; apply PX_range).
  destruct (pt_good _ _ _ _ Hpt1 _ _ Hn Hp) as [Hgp _].
  pose proof (good_page_pos _ _ Hgp) as Hpos. pose proof (PX_range 0 va) as Hk.
  set (x := Z.lor (Z.lor (PA2PTE pa) perm) PTE_V).
  assert (Hx : 0 <= x < 2 ^ 64).
  { apply lor_range; [lia| |done]. apply lor_range; [lia|apply PA2PTE_range|done]. }
  exists (if va =? last then inr 0 else inl (u64 (va + PGSIZE), u64 (pa + PGSIZE))), (set_mem (fun m => st64 m (pte_addr p (PX 0 va)) x) s1), F1.
  assert (Hentry : ld64 (k_mem s1) (pte_addr p (PX 0 va)) = pte_at (k_mem s) root va).
  { rewrite <-Hpte1. unfold pte_at. by rewrite Hp. }
  erewrite bind_ok by exact E1.
  destruct (Z.eqb_spec (pte_addr p (PX 0 va)) 0) as [Hz0|_];
    [unfold pte_addr, idx_ok in *; lia|].
  unfold load64, store64. mstep. rewrite Hentry, Hinv0. mstep.
  split; [destruct (va =? last); reflexivity|].
  split; [eapply grows_trans; [exact Hg1|by apply store_leaf_grows with (i := PX 2 va) (j := PX 1 va)]|].
  destruct (pte_at_store_leaf _ _ _ _ va p x Hpt1 Hx Hva Hp) as [Hnew Hold].
  split; [|left; split; [done|exact Hnew]].
  intros va' Hva' Hne. rewrite <-Hpte1. by apply Hold.
Qed.

Lemma mappages_page s root F va pa perm :
  vm_ok s root F -> va mod PGSIZE = 0 -> 0 <= va < MAXVA -> 0 <= perm < 2 ^ 64 ->
  nz (Z.land (pte_at (k_mem s) root va) PTE_V) = false ->
  exists r s' F', mappages root va PGSIZE pa perm s = Ok r s' /\ grows root s F s' F' /\
    (forall va', 0 <= va' < MAXVA -> va' / PGSIZE <> va / PGSIZE ->
       pte_at (k_mem s') root va' = pte_at (k_mem s) root va') /\
    ((r = 0 /\ pte_at (k_mem s') root va = Z.lor (Z.lor (PA2PTE pa) perm) PTE_V) \/
     (r = -1 /\ F' = [] /\ pte_at (k_mem s') root va = pte_at (k_mem s) root va)).
Proof.
  intros Hok Hal Hva Hperm Hinv0. unfold mappages. rewrite Hal. change (PGSIZE mod PGSIZE) with 0. change (PGSIZE =? 0) with false. cbn [Z.eqb negb].
  change (Z.to_nat (PGSIZE / PGSIZE)) with 1%nat.
  rewrite u64_small, Z.add_simpl_r by (change MAXVA with (2 ^ 38) in Hva; unfold PGSIZE; lia).
  destruct (mappages_round s root F va pa perm va Hok Hva Hperm Hinv0) as (r & s' & F' & E & G & Ho & [[-> Hr]|(-> & HF & Hr)]);
    [rewrite Z.eqb_refl in E|]; eexists _, s', F'; (split; [by eapply whileM_stop|]); (split; [done|split; [done|]]); [left|right]; auto.
Qed.

(** an address outside the page at [va] has another page number *)
Lemma page_apart va v : va mod PGSIZE = 0 -> ~ va <= v < va + PGSIZE -> v / PGSIZE <> va / PGSIZE.
Proof. unfold PGSIZE. intros H1 H2 H3. apply H2. Z.to_euclidean_division_equations. lia. Qed.

Lemma next_page va : va mod PGSIZE = 0 -> (va + PGSIZE) mod PGSIZE = 0.
Proof. unfold PGSIZE. intros H. Z.to_euclidean_division_equations. lia. Qed.

(** the entry of page [i] of a mapping that begins at [pa] *)
Definition map_entry (pa perm i : Z) : Z := Z.lor (Z.lor (PA2PTE (pa + i * PGSIZE)) perm) PTE_V.

Lemma mappages_loop root perm last n : forall s F va pa,
  vm_ok s root F -> va mod PGSIZE = 0 -> 0 <= va -> va + Z.of_nat (S n) * PGSIZE <= MAXVA -> 0 <= perm < 2 ^ 64 ->
  0 <= pa -> pa + Z.of_nat (S n) * PGSIZE <= 2 ^ 64 -> last = va + Z.of_nat n * PGSIZE ->
  (forall i, 0 <= i < Z.of_nat (S n) -> nz (Z.land (pte_at (k_mem s) root (va + i * PGSIZE)) PTE_V) = false) ->
  exists r s' F' k, whileM (S n) (mappages_body root last perm) (va, pa) s = Ok r s' /\ grows root s F s' F' /\ 0 <= k /\
    (forall i, 0 <= i < k -> pte_at (k_mem s') root (va + i * PGSIZE) = map_entry pa perm i) /\
    (forall v, 0 <= v < MAXVA -> ~ va <= v < va + k * PGSIZE -> pte_at (k_mem s') root v = pte_at (k_mem s) root v) /\
    ((r = 0 /\ k = Z.of_nat (S n)) \/ (r = -1 /\ k < Z.of_nat (S n) /\ F' = [])).
Proof.
  induction n as [|n IH]; intros s F va pa Hok Hal Hva Hend Hperm Hpa Hpe Hlast Hun; assert (PGSIZE = 4096) as HP by done;
    (destruct (mappages_round s root F va pa perm last Hok) as (r & s1 & F1 & E & G & Ho & [[-> Hr]|(-> & -> & Hr)]);
      [lia|done|rewrite <-(Hun 0) by lia; do 3 f_equal; lia| |]).
  2, 4: exists (-1), s1, [], 0; (split; [by eapply whileM_stop|]); (split; [done|]); (split; [lia|]); (split; [lia|]);
    (split; [|right; split; [done|split; [lia|done]]]); intros v Hv _; apply Hr.
  - replace (va =? last) with true in E by lia. exists 0, s1, F1, 1. split; [by eapply whileM_stop|]. split; [done|]. split; [lia|].
    split; [|split; [|left; split; [done|lia]]].
    + intros i Hi. assert (i = 0) as -> by lia. unfold map_entry. by rewrite Z.mul_0_l, !Z.add_0_r.
    + intros v Hv Hn. apply Ho; [done|]. apply page_apart; [done|lia].
  - replace (va =? last) with false in E by lia. assert (MAXVA = 2 ^ 38) as HM by done. rewrite !u64_small in E by lia.
    destruct (IH s1 F1 (va + PGSIZE) (pa + PGSIZE)) as (r & s' & F' & k & E' & G' & Hk & He & Hf & Hc);
      [apply G|by apply next_page|lia|lia|done|lia|lia|lia| |].
    + intros i Hi. rewrite Ho; [|lia|apply page_apart; [done|lia]].
      rewrite <-(Hun (i + 1)) by lia. do 3 f_equal. lia.
    + exists r, s', F', (k + 1). split; [by erewrite whileM_step by exact E|]. split; [by eapply grows_trans|]. split; [lia|]. split; [|split].
      * intros i Hi. destruct (decide (i = 0)) as [->|].
        -- rewrite Z.mul_0_l, Z.add_0_r, Hf by lia. rewrite Hr. unfold map_entry. by rewrite Z.mul_0_l, Z.add_0_r.
        -- replace (va + i * PGSIZE) with (va + PGSIZE + (i - 1) * PGSIZE) by lia. rewrite He by lia. unfold map_entry. by replace (pa + PGSIZE + (i - 1) * PGSIZE) with (pa + i * PGSIZE) by lia.
      * intros v Hv Hn. rewrite Hf by lia. apply Ho; [done|]. apply page_apart; [done|lia].
      * destruct Hc as [[-> ->]|(-> & Hc & ->)]; [left|right]; split_and!; (done || lia).
Qed.

(** C5: mapping any number of pages into a well-formed table.  [mappages]
    either installs exactly the requested entries, page [i] of the range to page
    [i] of the physical range, and leaves the entry of every other page as it
    was; or it returns -1, and that only when physical memory is exhausted, with
    the first [k] pages of the range mapped and no other entry changed.  The
    table pages it adds come from the free list, the tree invariant is kept, and
    no page that is neither free nor a table is touched. *)
Theorem mappages_correct s root F va n pa perm :
  vm_ok s root F -> va mod PGSIZE = 0 -> 0 <= va -> 0 < n -> va + n * PGSIZE <= MAXVA -> 0 <= perm < 2 ^ 64 ->
  0 <= pa -> pa + n * PGSIZE <= 2 ^ 64 ->
  (forall i, 0 <= i < n -> nz (Z.land (pte_at (k_mem s) root (va + i * PGSIZE)) PTE_V) = false) ->
  exists r s' F' k, mappages root va (n * PGSIZE) pa perm s = Ok r s' /\ grows root s F s' F' /\ 0 <= k /\
    (forall i, 0 <= i < k -> pte_at (k_mem s') root (va + i * PGSIZE) = map_entry pa perm i) /\
    (forall v, 0 <= v < MAXVA -> ~ va <= v < va + k * PGSIZE -> pte_at (k_mem s') root v = pte_at (k_mem s) root v) /\
    ((r = 0 /\ k = n) \/ (r = -1 /\ k < n /\ F' = [])).
Proof.
  intros Hok Hal Hva Hn Hend Hperm Hpa Hpe Hun. assert (PGSIZE = 4096) as HP by done. unfold mappages.
  rewrite Hal, Z.mod_mul, Z.div_mul by done. rewrite (proj2 (Z.eqb_neq (n * PGSIZE) 0)) by lia. cbn [Z.eqb negb].
  destruct (Z.to_nat n) as [|n'] eqn:En; [lia|]. assert (n = Z.of_nat (S n')) as -> by lia.
  apply mappages_loop; try done. change MAXVA with (2 ^ 38) in Hend. rewrite u64_small; lia.
Qed.

Lemma walk_alloc_remap s root F va pa perm :
  vm_ok s root F -> va mod PGSIZE = 0 -> 0 <= va < MAXVA -> u_panicked (k_uart s) = 0 ->
  nz (Z.land (pte_at (k_mem s) root va) PTE_V) = true ->
  exists s', mappages root va PGSIZE pa perm s = Panic "mappages: remap" s'.
Proof.
  intros Hok Hal Hva Hu HV. unfold mappages. rewrite Hal. simpl.
  change (Z.to_nat (PGSIZE / PGSIZE)) with 1%nat.
  destruct (walk_alloc_spec s root F va Hok Hva) as (r & s1 & F1 & E1 & Hg1 & Hpte1 & Hr).
  pose proof (gr_ok _ _ _ _ _ Hg1) as [_ Hpt1 _].
  assert (Hmap : forall p, page_of (k_mem s1) root (N0 (PX 2 va) (PX 1 va)) = Some p ->
    ld64 (k_mem s1) (pte_addr p (PX 0 va)) = pte_at (k_mem s) root va).
  { intros p Hp. rewrite <-Hpte1. unfold pte_at. by rewrite Hp. }
  assert (Hpan : u_panicked (k_uart s1) = 0).
  { destruct Hg1 as [(m & fl & ->) _ _ _ _ _]. exact Hu. }
  cbn [whileM]. unfold mappages_body. unfold bind at 1. erewrite bind_ok by exact E1.
  destruct Hr as [[-> HF1]|(p & Hp & ->)].
  { (* the entry exists, so the walk did not fail for lack of memory *)
    exfalso. unfold walk in E1. destruct (Z.leb_spec MAXVA va); [lia|].
    destruct (pte_ptr_cases _ _ _ _ va (vo_pt _ _ _ Hok)) as [[_ Hz]|(Hne & _ & p & Hp & Hpp)].
    - rewrite Hz in HV. done.
    - cbn [page_of] in Hp. revert Hp. cbn [next].
      destruct (nz (Z.land (entry (k_mem s) root (PX 2 va)) PTE_V)) eqn:E2; [|done]. cbn [next].
      destruct (nz (Z.land (entry (k_mem s) _ (PX 1 va)) PTE_V)) eqn:E3; [|done]. intros [= Hp].
      cbn [walk_levels] in E1. unfold load64 in E1. rewrite bind_gets in E1.
      change (ld64 (k_mem s) (pte_addr root (PX 2 va))) with (entry (k_mem s) root (PX 2 va)) in E1.
      rewrite E2 in E1. rewrite bind_gets in E1.
      change (ld64 (k_mem s) (pte_addr ?q (PX 1 va))) with (entry (k_mem s) q (PX 1 va)) in E1.
      rewrite E3 in E1. injection E1 as E1 _. rewrite Hp in E1. by rewrite <-Hpp in E1. }
  destruct (pt_good _ _ _ _ Hpt1 (N0 (PX 2 va) (PX 1 va)) p) as [Hgp _];
    [split; apply PX_range|done|].
  pose proof (good_page_pos _ _ Hgp). pose proof (PX_range 0 va).
  destruct (Z.eqb_spec (pte_addr p (PX 0 va)) 0) as [Hz0|_];
    [unfold pte_addr, idx_ok in *; lia|].
  unfold load64. mstep. rewrite Hmap, HV by done.
  destruct (panic_is_panic (A := Z * Z + Z) "mappages: remap" s1 Hpan) as [s' Es'].
  rewrite Es'. simpl. eauto.
Qed.

(** the error paths of [mappages]: a misaligned address, a misaligned or
    zero size and a page that is already mapped panic with their messages. *)
Theorem mappages_panics s root F va size pa perm :
  u_panicked (k_uart s) = 0 ->
  (va mod PGSIZE <> 0 ->
     exists s', mappages root va size pa perm s = Panic "mappages: va not aligned" s') /\
  (va mod PGSIZE = 0 -> size mod PGSIZE <> 0 ->
     exists s', mappages root va size pa perm s = Panic "mappages: size not aligned" s') /\
  (va mod PGSIZE = 0 -> size = 0 ->
     exists s', mappages root va size pa perm s = Panic "mappages: size" s') /\
  (vm_ok s root F -> va mod PGSIZE = 0 -> 0 <= va < MAXVA -> size = PGSIZE ->
     nz (Z.land (pte_at (k_mem s) root va) PTE_V) = true ->
     exists s', mappages root va size pa perm s = Panic "mappages: remap" s').
Proof.
  intros Hu. split; [|split; [|split]].
  - intros H. unfold mappages. destruct (Z.eqb_spec (va mod PGSIZE) 0); [done|]. simpl.
    by apply panic_is_panic.
  - intros H1 H2. unfold mappages. rewrite H1. destruct (Z.eqb_spec (size mod PGSIZE) 0); [done|].
    simpl. by apply panic_is_panic.
  - intros H1 ->. unfold mappages. rewrite H1. simpl. by apply panic_is_panic.
  - intros Hok Hal Hva -> HV. by eapply walk_alloc_remap.
Qed.

(** * The theorems at concrete states *)

(** an empty table at [0x300000] and some free pages, the first two for its
    lower levels *)
Definition demo_root : Z := 0x300000.
Definition demo_free : list Z :=
  [0x301000; 0x302000; 0x305000; 0x306000; 0x307000; 0x308000; 0x309000; 0x30a000; 0x30b000; 0x30c000].

(** the list threaded through the pages *)
Fixpoint link_pages (l : list Z) : mem :=
  match l with p :: (q :: _) as l' => st64 (link_pages l') p q | _ => ∅ end.
Definition vm_state : kstate := with_mem (link_pages demo_free) 0x301000 boot_state.

Lemma ld64_empty a : ld64 ∅ a = 0.
Proof. reflexivity. Qed.

Lemma link_pages_out l a : Forall (fun p => a + 8 <= p \/ p + 8 <= a) l -> ld64 (link_pages l) a = 0.
Proof.
  induction 1 as [|p l Hp Hl IH]; [apply ld64_empty|]. cbn [link_pages]. destruct l as [|q l]; [apply ld64_empty|].
  by rewrite ld64_st64_ne by lia.
Qed.

(** a page that is not free is empty *)
Lemma demo_zero p i : p ∈ [demo_root; 0x304000] -> idx_ok i -> ld64 (k_mem vm_state) (pte_addr p i) = 0.
Proof.
  intros Hp Hi. change (k_mem vm_state) with (link_pages demo_free). apply link_pages_out. unfold pte_addr, idx_ok in *.
  apply elem_of_cons in Hp as [->|Hp%list_elem_of_singleton]; [unfold demo_root|subst p]; repeat (constructor; [lia|]); constructor.
Qed.

Lemma demo_entry i : idx_ok i -> entry (k_mem vm_state) demo_root i = 0.
Proof. intros Hi. apply demo_zero; [left|done]. Qed.

Lemma demo_pages n p :
  node_ok n -> page_of (k_mem vm_state) demo_root n = Some p -> n = NRoot /\ p = demo_root.
Proof.
  destruct n as [|i|i j]; cbn [node_ok page_of next].
  - by intros _ [= <-].
  - intros Hi. by rewrite demo_entry.
  - intros [Hi _]. by rewrite demo_entry.
Qed.

Lemma demo_pte va : pte_at (k_mem vm_state) demo_root va = 0.
Proof.
  unfold pte_at. destruct (page_of _ _ _) as [p|] eqn:E; [|done].
  apply demo_pages in E as [E _]; [done|split; apply PX_range].
Qed.

Lemma vm_state_ok : vm_ok vm_state demo_root demo_free.
Proof.
  split.
  - split.
    + repeat (split; [vm_compute; reflexivity|]). vm_compute. reflexivity.
    + repeat constructor; try (vm_compute; congruence).
    + apply (bool_decide_eq_true (NoDup demo_free)). vm_compute. reflexivity.
  - split.
    + intros n p Hn Hp. apply demo_pages in Hp as [_ ->]; [|done].
      split; [apply (good_page_demo 0); lia|]. apply (bool_decide_eq_false (demo_root ∈ demo_free)). vm_compute. reflexivity.
    + intros n n' p Hn Hn' Hp Hp'. apply demo_pages in Hp as [-> _]; [|done].
      by apply demo_pages in Hp' as [-> _].
  - apply boot_lock_free.
Qed.

Lemma walkaddr_spec_witness : walkaddr demo_root 0x1000 vm_state = Ok 0 vm_state.
Proof.
  assert (0 <= 0x1000) as H by lia.
  pose proof (walkaddr_spec vm_state demo_root demo_free 0x1000 (vo_pt _ _ _ vm_state_ok) H) as E.
  rewrite demo_pte in E. exact E.
Defined.

(** the flags of a user data page *)
Definition demo_perm : Z := Z.lor (Z.lor PTE_R PTE_W) PTE_U.

Lemma mappages_correct_witness :
  exists s' F', mappages demo_root 0x1000 (3 * PGSIZE) 0x303000 demo_perm vm_state = Ok 0 s' /\
    grows demo_root vm_state demo_free s' F' /\ pte_at (k_mem s') demo_root (0x1000 + 2 * PGSIZE) = map_entry 0x303000 demo_perm 2.
Proof.
  destruct (mappages_correct vm_state demo_root demo_free 0x1000 3 0x303000 demo_perm vm_state_ok)
    as (r & s' & F' & k & E & G & Hk & He & Hf & Hc).
  - reflexivity.
  - lia.
  - lia.
  - vm_compute. discriminate.
  - split; [discriminate|reflexivity].
  - lia.
  - vm_compute. discriminate.
  - intros i _. rewrite demo_pte. reflexivity.
  - assert (match mappages demo_root 0x1000 (3 * PGSIZE) 0x303000 demo_perm vm_state with Ok x _ => x =? 0 | _ => false end = true) as Hr
      by (vm_compute; reflexivity). rewrite E in Hr. apply Z.eqb_eq in Hr. subst r. destruct Hc as [[_ ->]|[Hc _]]; [|discriminate Hc].
    exists s', F'. split; [exact E|]. split; [exact G|]. apply (He 2). lia.
Defined.

Lemma mappages_panics_witness :
  exists s', mappages demo_root 1 PGSIZE 0x303000 demo_perm vm_state =
             Panic "mappages: va not aligned" s'.
Proof.
  apply (proj1 (mappages_panics vm_state demo_root demo_free 1 PGSIZE 0x303000 demo_perm eq_refl)).
  vm_compute. discriminate.
Defined.
