(* ===== verification/VmCopy.v ===== *)
(** copyin and copyout (kernel/vm.c) as reads and writes of one flat user
    memory. *)

From stdpp Require Import base gmap strings numbers list.
From S2P Require Import Prelude KState KString Spinlock Kalloc Vm VmPte VmTree VmSpec.

(** * The user's view of memory *)

Definition umapped (m : mem) (root va : Z) : Prop :=
  nz (Z.land (pte_at m root va) PTE_V) = true /\ nz (Z.land (pte_at m root va) PTE_U) = true.
Definition uwritable (m : mem) (root va : Z) : Prop :=
  umapped m root va /\ nz (Z.land (pte_at m root va) PTE_W) = true.

(** the physical address and the byte at a user address *)
Definition uaddr (m : mem) (root va : Z) : Z := PTE2PA (pte_at m root va) + va mod PGSIZE.
Definition ubyte (m : mem) (root va : Z) : Z := ldb m (uaddr m root va).

(** user pages are data pages, each mapped once *)
Record user_ok (im : image) (m : mem) (root : Z) (F : list Z) : Prop := {
  uo_pt : pt_inv im m root F;
  uo_good : forall va, 0 <= va < MAXVA -> umapped m root va ->
    good_page im (PTE2PA (pte_at m root va)) /\ not_table m root (PTE2PA (pte_at m root va));
  uo_inj : forall va va', 0 <= va < MAXVA -> 0 <= va' < MAXVA ->
    umapped m root va -> umapped m root va' ->
    PTE2PA (pte_at m root va) = PTE2PA (pte_at m root va') -> va / PGSIZE = va' / PGSIZE
}.

(** ** Pages and offsets *)

Lemma PGROUNDDOWN_div va : 0 <= va < 2 ^ 64 -> PGROUNDDOWN va = va / PGSIZE * PGSIZE.
Proof.
  intros Hva. unfold PGROUNDDOWN. rewrite u64_small by done.
  change (Z.lnot (PGSIZE - 1)) with (Z.lnot (Z.ones 12)).
  rewrite <-Z.ldiff_land, Z.ldiff_ones_r by lia.
  by rewrite Z.shiftl_mul_pow2, Z.shiftr_div_pow2 by lia.
Qed.

Lemma page_split va : va = va / PGSIZE * PGSIZE + va mod PGSIZE.
Proof. rewrite Z.mul_comm. apply Z.div_mod. done. Qed.

Lemma page_offset va : 0 <= va mod PGSIZE < PGSIZE.
Proof. apply Z.mod_pos_bound. done. Qed.

Lemma page_base_div va : (va / PGSIZE * PGSIZE) / PGSIZE = va / PGSIZE.
Proof. by apply Z.div_mul. Qed.

Lemma PX_page l va va' :
  0 <= l -> 0 <= va < 2 ^ 64 -> 0 <= va' < 2 ^ 64 -> va / PGSIZE = va' / PGSIZE ->
  PX l va = PX l va'.
Proof.
  intros Hl Hv Hv' He. rewrite !PX_div by done.
  rewrite Z.pow_add_r by lia. change (2 ^ 12) with PGSIZE.
  rewrite <-!Z.div_div by (try apply Z.pow_pos_nonneg; done || lia). by rewrite He.
Qed.

Lemma pte_at_page m root va va' :
  0 <= va < MAXVA -> 0 <= va' < MAXVA -> va / PGSIZE = va' / PGSIZE ->
  pte_at m root va = pte_at m root va'.
Proof.
  change MAXVA with (2 ^ 38). intros Hv Hv' He. unfold pte_at.
  rewrite (PX_page 2 va va'), (PX_page 1 va va'), (PX_page 0 va va') by lia. done.
Qed.

Lemma page_base_range va : 0 <= va < MAXVA -> 0 <= va / PGSIZE * PGSIZE <= va.
Proof. intros H. pose proof (page_split va). pose proof (page_offset va).
  pose proof (Z.div_pos va PGSIZE). unfold PGSIZE in *. lia. Qed.

Lemma pte_at_base m root va :
  0 <= va < MAXVA -> pte_at m root (va / PGSIZE * PGSIZE) = pte_at m root va.
Proof.
  intros H. pose proof (page_base_range va H).
  apply pte_at_page; [lia|lia|apply page_base_div].
Qed.

(** ** Storing a chunk *)

Lemma ldb_stn_in m a l b x :
  a <= b -> l !! Z.to_nat (b - a) = Some x -> ldb (stn m a l) b = u8 x.
Proof.
  revert m a. induction l as [|y l IH]; intros m a Hab Hx; [done|]. cbn [stn].
  destruct (Z.eq_dec a b) as [->|Hne].
  - rewrite Z.sub_diag in Hx. injection Hx as ->. rewrite ldb_stn_out by lia. apply ldb_stb_eq.
  - apply IH; [lia|]. replace (Z.to_nat (b - a)) with (S (Z.to_nat (b - (a + 1)))) in Hx by lia.
    done.
Qed.

Section chunk.
Context (im : image) (m : mem) (root : Z) (F : list Z).
Hypothesis Huo : user_ok im m root F.
Context (va : Z) (bytes : list Z).
Hypothesis Hva : 0 <= va < MAXVA.
Hypothesis Hmap : umapped m root va.
Hypothesis Hfit : va mod PGSIZE + Z.of_nat (length bytes) <= PGSIZE.
Hypothesis Hb : Forall byte_ok bytes.

Let m' := stn m (uaddr m root va) bytes.

Lemma chunk_out a :
a < PTE2PA (pte_at m root va) \/ PTE2PA (pte_at m root va) + PGSIZE <= a ->
ldb m' a = ldb m a.
Proof.
intros Ha. apply ldb_stn_out. unfold uaddr. pose proof (page_offset va). lia.
Qed.

Lemma chunk_pte va' : pte_at m' root va' = pte_at m root va'.
Proof.
destruct (uo_good _ _ _ _ Huo va Hva Hmap) as [Hg Hn].
eapply pte_at_write_page; [apply Huo|apply Hg|exact Hn|apply chunk_out].
Qed.

Lemma chunk_page_of n : node_ok n -> page_of m' root n = page_of m root n.
Proof.
destruct (uo_good _ _ _ _ Huo va Hva Hmap) as [Hg Hn].
intros Hno. eapply page_of_write_page; [apply Huo|apply Hg|exact Hn|apply chunk_out|done].
Qed.

Lemma chunk_ok : user_ok im m' root F.
Proof.
split.
- eapply pt_inv_ext; [apply Huo|apply chunk_page_of|done].
- intros v Hv Hmv. unfold umapped in Hmv. rewrite !chunk_pte in *.
  destruct (uo_good _ _ _ _ Huo v Hv Hmv) as [Hg Hn]. split; [done|].
  intros n Hno. rewrite chunk_page_of by done. by apply Hn.
- intros v v' Hv Hv' Hm1 Hm2. unfold umapped in Hm1, Hm2. rewrite !chunk_pte in *.
  by apply (uo_inj _ _ _ _ Huo).
Qed.

Lemma chunk_byte v :
0 <= v < MAXVA -> umapped m root v ->
ubyte m' root v =
if (va <=? v) && (v <? va + Z.of_nat (length bytes))
then zget bytes (v - va) else ubyte m root v.
Proof.
intros Hv Hmv. unfold ubyte, uaddr. rewrite chunk_pte.
destruct (uo_good _ _ _ _ Huo v Hv Hmv) as [[Hga Hg] _].
destruct (uo_good _ _ _ _ Huo va Hva Hmap) as [[Hga' Hg'] _].
pose proof (page_offset v) as Ho. pose proof (page_offset va) as Ho'.
pose proof (page_split v) as Hs. pose proof (page_split va) as Hs'.
destruct (Z.eq_dec (v / PGSIZE) (va / PGSIZE)) as [He|He].
- rewrite (pte_at_page m root v va Hv Hva He).
  destruct (Z.leb_spec va v) as [H1|H1]; simpl.
  + destruct (Z.ltb_spec v (va + Z.of_nat (length bytes))) as [H2|H2].
    * destruct (lookup_lt_is_Some_2 bytes (Z.to_nat (v - va)) ltac:(lia)) as [x Hx].
      unfold zget. rewrite Hx. simpl.
      unfold m'. rewrite (ldb_stn_in _ _ _ _ x).
      -- rewrite Forall_forall in Hb. apply u8_small. apply Hb.
         by eapply list_elem_of_lookup_2.
      -- unfold uaddr. lia.
      -- rewrite <-Hx. f_equal. unfold uaddr. lia.
    * apply ldb_stn_out. unfold uaddr. lia.
  + apply ldb_stn_out. unfold uaddr. lia.
- assert (Hpp : PTE2PA (pte_at m root v) <> PTE2PA (pte_at m root va)).
  { intros Heq. apply He. by apply (uo_inj _ _ _ _ Huo). }
  pose proof (aligned_disjoint _ _ Hga Hga' Hpp) as Hd. unfold page_disjoint in Hd.
  rewrite chunk_out by lia.
  destruct (Z.leb_spec va v), (Z.ltb_spec v (va + Z.of_nat (length bytes))); simpl; try done.
  exfalso. apply He. unfold PGSIZE in *. 
  assert (v / 4096 * 4096 < va / 4096 * 4096 + 8192) by lia. lia.
Qed.
End chunk.

(** * copyout *)

Lemma user_page_run s root F va :
  user_ok (k_img s) (k_mem s) root F -> 0 <= va < MAXVA -> umapped (k_mem s) root va ->
  user_page root (va / PGSIZE * PGSIZE) s = Ok (PTE2PA (pte_at (k_mem s) root va)) s.
Proof.
  intros Huo Hva Hm. pose proof (page_base_range va Hva).
  unfold user_page. erewrite bind_ok by (eapply walkaddr_run; [apply Huo|lia]).
  destruct (Z.ltb_spec (va / PGSIZE * PGSIZE) MAXVA); [|lia].
  destruct (uo_good _ _ _ _ Huo va Hva Hm) as [Hg _].
  rewrite pte_at_base by done. cbv zeta. destruct Hm as [-> ->]. cbn [andb].
  pose proof (good_page_pos _ _ Hg).
  destruct (Z.eqb_spec (PTE2PA (pte_at (k_mem s) root va)) 0); [lia|done].
Qed.

(** bytes copied in one round at [va] when [len] remain *)
Definition chunk_len (va len : Z) : Z := Z.min len (PGSIZE - va mod PGSIZE).

Lemma copyout_round s root F va src :
  user_ok (k_img s) (k_mem s) root F -> 0 <= va < MAXVA -> uwritable (k_mem s) root va ->
  src <> [] ->
  let n := Z.to_nat (chunk_len va (Z.of_nat (length src))) in
  copyout_body root (va, src) s =
  Ok (inl (va / PGSIZE * PGSIZE + PGSIZE, drop n src))
     (set_mem (fun m => stn m (uaddr m root va) (take n src)) s).
Proof.
  intros Huo Hva [Hm HW] Hsrc n. unfold copyout_body. destruct src as [|b src]; [done|].
  assert (Hmax : MAXVA = 2 ^ 38) by done.
  pose proof (page_base_range va Hva) as Hbase. pose proof (page_split va) as Hs.
  rewrite PGROUNDDOWN_div by lia.
  destruct (Z.leb_spec MAXVA (va / PGSIZE * PGSIZE)); [lia|].
  erewrite bind_ok by by apply (user_page_run s root F).
  destruct (uo_good _ _ _ _ Huo va Hva Hm) as [Hg _]. pose proof (good_page_pos _ _ Hg).
  destruct (Z.eqb_spec (PTE2PA (pte_at (k_mem s) root va)) 0); [lia|].
  erewrite bind_ok by (apply walk_noalloc; lia).
  destruct (pte_ptr_cases _ _ _ _ (va / PGSIZE * PGSIZE) (uo_pt _ _ _ _ Huo))
    as [[_ Hz0]|(Hne & Hld & _)].
  { rewrite pte_at_base in Hz0 by done. destruct Hm as [HV _]. by rewrite Hz0 in HV. }
  destruct (Z.eqb_spec (pte_ptr (k_mem s) root (va / PGSIZE * PGSIZE)) 0); [done|].
  unfold load64. mstep. rewrite Hld, pte_at_base by done.
  unfold nz in HW. apply negb_true_iff in HW. rewrite HW. mstep.
  rewrite u64_small by (unfold PGSIZE in *; lia).
  replace (va - va / PGSIZE * PGSIZE) with (va mod PGSIZE) by lia.
  replace (if Z.of_nat (length (b :: src)) <? PGSIZE - va mod PGSIZE
           then Z.of_nat (length (b :: src)) else PGSIZE - va mod PGSIZE)
    with (chunk_len va (Z.of_nat (length (b :: src)))).
  2: { unfold chunk_len.
       destruct (Z.ltb_spec (Z.of_nat (length (b :: src))) (PGSIZE - va mod PGSIZE)); lia. }
  done.
Qed.

Lemma zget_take l n i : 0 <= i < Z.of_nat n -> zget (take n l) i = zget l i.
Proof. intros Hi. unfold zget. by rewrite lookup_take_lt by lia. Qed.

Lemma zget_drop l n i : 0 <= i -> zget (drop n l) i = zget l (i + Z.of_nat n).
Proof. intros Hi. unfold zget. rewrite lookup_drop. do 2 f_equal. lia. Qed.

(** inside one page the user addresses are consecutive in physical memory *)
Lemma uaddr_page m root va k : 0 <= va -> 0 <= k -> va + k < MAXVA -> va mod PGSIZE + k < PGSIZE ->
  uaddr m root (va + k) = uaddr m root va + k.
Proof.
  intros Hva Hk Hend Hfit. unfold uaddr. pose proof (page_offset va) as Ho. pose proof (page_split va) as Hs.
  assert (Hd : (va + k) / PGSIZE = va / PGSIZE) by (symmetry; apply Z.div_unique with (va mod PGSIZE + k); lia).
  rewrite (pte_at_page m root (va + k) va) by (done || lia). pose proof (page_split (va + k)) as Hs'. rewrite Hd in Hs'. lia.
Qed.

(** a store to a page changes the bytes of its addresses only *)
Lemma chunk_frame m root va bytes a : 0 <= va -> va + Z.of_nat (length bytes) <= MAXVA -> va mod PGSIZE + Z.of_nat (length bytes) <= PGSIZE ->
  (forall v, va <= v < va + Z.of_nat (length bytes) -> uaddr m root v <> a) -> ldb (stn m (uaddr m root va) bytes) a = ldb m a.
Proof.
  intros Hva Hend Hfit Ha. apply ldb_stn_out.
  destruct (decide (uaddr m root va <= a < uaddr m root va + Z.of_nat (length bytes))) as [H|]; [|lia].
  exfalso. apply (Ha (va + (a - uaddr m root va))); [lia|]. rewrite uaddr_page by lia. lia.
Qed.

Lemma copyout_loop fuel s root F va src :
  user_ok (k_img s) (k_mem s) root F -> Forall byte_ok src ->
  0 <= va -> va + Z.of_nat (length src) <= MAXVA ->
  (forall v, va <= v < va + Z.of_nat (length src) -> uwritable (k_mem s) root v) ->
  (length src < fuel)%nat ->
  exists m', whileM fuel (copyout_body root) (va, src) s = Ok 0 (set_mem (fun _ => m') s) /\
    user_ok (k_img s) m' root F /\
    (forall v, pte_at m' root v = pte_at (k_mem s) root v) /\
    (forall v, 0 <= v < MAXVA -> umapped (k_mem s) root v ->
       ubyte m' root v =
       if (va <=? v) && (v <? va + Z.of_nat (length src))
       then zget src (v - va) else ubyte (k_mem s) root v) /\
    (forall a, (forall v, va <= v < va + Z.of_nat (length src) -> uaddr (k_mem s) root v <> a) -> ldb m' a = ldb (k_mem s) a).
Proof.
  revert s va src. induction fuel as [|fuel IH]; intros s va src Huo Hb Hva Hend Hw Hf; [lia|].
  destruct src as [|b src].
  { exists (k_mem s). split; [done|]. split; [done|]. split; [done|]. split; [|done]. intros v Hv Hm.
    destruct (Z.leb_spec va v), (Z.ltb_spec v (va + Z.of_nat (length (@nil Z)))); simpl in *; (done || lia). }
  set (l := b :: src) in *. assert (Hl : 0 < Z.of_nat (length l)) by (simpl; lia).
  assert (Hva' : 0 <= va < MAXVA) by lia.
  assert (Hwv : uwritable (k_mem s) root va) by (apply Hw; lia).
  pose proof (page_offset va) as Ho. pose proof (page_split va) as Hs.
  set (c := chunk_len va (Z.of_nat (length l))).
  assert (Hc : 0 < c <= Z.of_nat (length l) /\ va mod PGSIZE + c <= PGSIZE)
    by (unfold c, chunk_len; lia).
  erewrite whileM_step by (apply (copyout_round s root F); [done..|discriminate]).
  fold c. set (n := Z.to_nat c).
  assert (Hlt : length (take n l) = n) by (rewrite length_take; lia).
  assert (Hbt : Forall byte_ok (take n l)) by by apply Forall_take.
  destruct Hwv as [Hmv HWv].
  pose proof (chunk_ok _ _ _ _ Huo va (take n l) Hva' Hmv ltac:(lia)) as Hok1.
  pose proof (chunk_pte _ _ _ _ Huo va (take n l) Hva' Hmv ltac:(lia)) as Hpt1.
  pose proof (chunk_byte _ _ _ _ Huo va (take n l) Hva' Hmv ltac:(lia) Hbt) as Hby1.
  assert (Hfr1 : forall a, (forall v, va <= v < va + Z.of_nat n -> uaddr (k_mem s) root v <> a) ->
    ldb (stn (k_mem s) (uaddr (k_mem s) root va) (take n l)) a = ldb (k_mem s) a).
  { intros a Ha. apply (chunk_frame _ root va); [done|lia|rewrite Hlt; lia|]. by rewrite Hlt. }
  set (m1 := stn (k_mem s) (uaddr (k_mem s) root va) (take n l)) in *.
  set (s1 := set_mem _ s). assert (Hs1 : k_mem s1 = m1) by done.
  assert (Hlen : Z.of_nat (length (drop n l)) = Z.of_nat (length l) - c)
    by (rewrite length_drop; lia).
  (* either the chunk ended the copy or it ended at a page boundary *)
  assert (Hnext : drop n l <> [] -> va / PGSIZE * PGSIZE + PGSIZE = va + c).
  { intros Hne. assert (0 < Z.of_nat (length (drop n l))) by (destruct (drop n l); [done|simpl; lia]).
    unfold c, chunk_len in *. lia. }
  destruct (decide (drop n l = [])) as [Hd|Hd].
  - rewrite Hd in *. change (Z.of_nat (length (@nil Z))) with 0 in Hlen. exists m1.
    split; [destruct fuel; [simpl in Hf; lia|]; done|]. split; [exact Hok1|]. split; [exact Hpt1|].
    split; [|intros a Ha; apply Hfr1; intros v Hv; apply Ha; lia].
    intros v Hv Hm. rewrite Hby1, Hlt by done. replace (Z.of_nat n) with (Z.of_nat (length l)) by lia.
    destruct (Z.leb_spec va v), (Z.ltb_spec v (va + Z.of_nat (length l))); simpl; try done.
    apply zget_take. lia.
  - rewrite (Hnext Hd).
    destruct (IH s1 (va + c) (drop n l)) as (m' & E & Hok' & Hpt' & Hby' & Hfr').
    + exact Hok1.
    + by apply Forall_drop.
    + lia.
    + lia.
    + intros v Hv. unfold uwritable, umapped. rewrite Hs1, !Hpt1. apply Hw. lia.
    + rewrite length_drop. lia.
    + exists m'. split; [exact E|]. split; [exact Hok'|]. split.
      { intros v. rewrite Hpt', Hs1. apply Hpt1. }
      split; [|intros a Ha; rewrite Hfr', Hs1; [apply Hfr1; intros v Hv; apply Ha; lia|];
        intros v Hv; unfold uaddr; rewrite Hs1, Hpt1; apply Ha; lia].
      intros v Hv Hm. rewrite Hby'; [|done|unfold umapped; by rewrite Hs1, !Hpt1].
      rewrite Hs1, Hby1, Hlt by done.
      destruct (Z.leb_spec va v), (Z.leb_spec (va + c) v), (Z.ltb_spec v (va + c + Z.of_nat (length (drop n l)))),
        (Z.ltb_spec v (va + Z.of_nat (length l))), (Z.ltb_spec v (va + Z.of_nat n)); simpl; try lia; try done.
      * rewrite zget_drop by lia. f_equal. lia.
      * apply zget_take. lia.
Qed.

(** * copyin *)

(** the user bytes [va .. va+n-1] *)
Definition ubytes (m : mem) (root va : Z) (n : nat) : list Z :=
  map (fun k => ubyte m root (va + Z.of_nat k)) (seq 0 n).

Lemma ubytes_app m root va n k :
  ubytes m root va (n + k) = ubytes m root va n ++ ubytes m root (va + Z.of_nat n) k.
Proof.
  unfold ubytes. rewrite seq_app, map_app. f_equal. rewrite Nat.add_0_l.
  rewrite <-(Nat.add_0_r n) at 1. rewrite <-fmap_add_seq.
  change (?f <$> ?l) with (map f l). rewrite map_map. apply map_ext. intros i. f_equal. lia.
Qed.

(** inside one page the user bytes are consecutive in physical memory *)
Lemma ubytes_page m root va n :
  0 <= va -> va + Z.of_nat n <= MAXVA -> va mod PGSIZE + Z.of_nat n <= PGSIZE ->
  ldn m (uaddr m root va) n = ubytes m root va n.
Proof.
  intros Hva Hend Hfit. unfold ldn, ubytes. apply map_ext_in. intros k Hk. apply in_seq in Hk.
  unfold ubyte. rewrite uaddr_page by lia. done.
Qed.

Lemma copyin_round s root F acc va len :
  user_ok (k_img s) (k_mem s) root F -> 0 <= va -> 0 < len -> va + len <= MAXVA ->
  umapped (k_mem s) root va ->
  let n := chunk_len va len in
  copyin_body root (acc, va, len) s =
  Ok (inl (acc ++ ubytes (k_mem s) root va (Z.to_nat n), va / PGSIZE * PGSIZE + PGSIZE, len - n)) s.
Proof.
  intros Huo Hva Hlen Hend Hm n. unfold copyin_body.
  assert (Hmax : MAXVA = 2 ^ 38) by done.
  assert (Hva' : 0 <= va < MAXVA) by lia.
  pose proof (page_base_range va Hva') as Hbase. pose proof (page_split va) as Hs.
  pose proof (page_offset va) as Ho.
  destruct (Z.ltb_spec 0 len); [|lia]. cbn [negb]. rewrite PGROUNDDOWN_div by lia.
  erewrite bind_ok by by apply (user_page_run s root F).
  destruct (uo_good _ _ _ _ Huo va Hva' Hm) as [Hg _]. pose proof (good_page_pos _ _ Hg).
  destruct (Z.eqb_spec (PTE2PA (pte_at (k_mem s) root va)) 0); [lia|]. mstep.
  rewrite u64_small by (unfold PGSIZE in *; lia).
  replace (va - va / PGSIZE * PGSIZE) with (va mod PGSIZE) by lia.
  replace (if len <? PGSIZE - va mod PGSIZE then len else PGSIZE - va mod PGSIZE) with n.
  2: { unfold n, chunk_len. destruct (Z.ltb_spec len (PGSIZE - va mod PGSIZE)); lia. }
  rewrite <-ubytes_page; [done|lia|unfold n, chunk_len; lia|unfold n, chunk_len; lia].
Qed.

Lemma copyin_loop fuel s root F acc va len :
  user_ok (k_img s) (k_mem s) root F -> 0 <= va -> 0 <= len -> va + len <= MAXVA ->
  (forall v, va <= v < va + len -> umapped (k_mem s) root v) ->
  len < Z.of_nat fuel ->
  whileM fuel (copyin_body root) (acc, va, len) s =
  Ok (0, acc ++ ubytes (k_mem s) root va (Z.to_nat len)) s.
Proof.
  intros Huo. revert acc va len. induction fuel as [|fuel IH]; intros acc va len Hva Hlen Hend Hm Hf; [lia|].
  destruct (Z.eq_dec len 0) as [->|Hne].
  { erewrite whileM_stop by reflexivity. by rewrite app_nil_r. }
  pose proof (page_offset va) as Ho. pose proof (page_split va) as Hs.
  erewrite whileM_step by (apply (copyin_round s root F); [done|lia|lia|lia|apply Hm; lia]).
  set (n := chunk_len va len).
  assert (Hn : 0 < n <= len) by (unfold n, chunk_len; lia).
  assert (Hstep : va / PGSIZE * PGSIZE + PGSIZE = va + n \/ len - n = 0)
    by (unfold n, chunk_len; lia).
  destruct Hstep as [Hstep|Hstep].
  - rewrite Hstep, IH; [|lia|lia|lia|intros v Hv; apply Hm; lia|lia].
    rewrite <-app_assoc. do 3 f_equal.
    replace (Z.to_nat len) with (Z.to_nat n + Z.to_nat (len - n))%nat by lia.
    rewrite ubytes_app. by rewrite Z2Nat.id by lia.
  - rewrite Hstep. destruct fuel as [|fuel]; [lia|]. erewrite whileM_stop by reflexivity.
    do 4 f_equal. lia.
Qed.

(** C4: [copyout] and [copyin] implement one flat, byte-addressed user
    memory, across any number of pages: on a range mapped for the user, copyin
    succeeds, returns the bytes of the range and changes nothing; on a range
    mapped writable, copyout succeeds and changes exactly the bytes of the range
    to [src], for every user address, without touching the page table, and no
    byte of physical memory but those the range is mapped to. *)
Theorem copy_refines_flat_memory s root F :
  user_ok (k_img s) (k_mem s) root F ->
  (forall va n, 0 <= va -> 0 <= n -> va + n <= MAXVA -> (forall v, va <= v < va + n -> umapped (k_mem s) root v) ->
     copyin root va n s = Ok (0, ubytes (k_mem s) root va (Z.to_nat n)) s) /\
  (forall va src, Forall byte_ok src -> 0 <= va -> va + Z.of_nat (length src) <= MAXVA ->
     (forall v, va <= v < va + Z.of_nat (length src) -> uwritable (k_mem s) root v) ->
     exists m', copyout root va src s = Ok 0 (set_mem (fun _ => m') s) /\
       user_ok (k_img s) m' root F /\
       (forall v, pte_at m' root v = pte_at (k_mem s) root v) /\
       (forall v, 0 <= v < MAXVA -> umapped (k_mem s) root v ->
          ubyte m' root v =
          if (va <=? v) && (v <? va + Z.of_nat (length src))
          then zget src (v - va) else ubyte (k_mem s) root v) /\
       (forall a, (forall v, va <= v < va + Z.of_nat (length src) -> uaddr (k_mem s) root v <> a) ->
          ldb m' a = ldb (k_mem s) a)).
Proof.
  intros Huo. split.
  - intros va n Hva Hn Hend Hm. unfold copyin. by rewrite (copyin_loop _ s root F [] va) by (done || lia).
  - intros va src Hb Hva Hend Hw. unfold copyout. apply (copyout_loop _ s root F); (done || lia).
Qed.

(** what copyout wrote, copyin reads back. *)
Theorem copyout_copyin_roundtrip s root F va src :
  user_ok (k_img s) (k_mem s) root F -> Forall byte_ok src ->
  0 <= va -> va + Z.of_nat (length src) <= MAXVA ->
  (forall v, va <= v < va + Z.of_nat (length src) -> uwritable (k_mem s) root v) ->
  exists s', copyout root va src s = Ok 0 s' /\
             copyin root va (Z.of_nat (length src)) s' = Ok (0, src) s'.
Proof.
  intros Huo Hb Hva Hend Hw.
  destruct (copyout_loop (length src + 2) s root F va src) as (m' & E & Hok' & Hpt & Hby & _);
    [done..|lia|].
  exists (set_mem (fun _ => m') s). split; [exact E|].
  unfold copyin. rewrite (copyin_loop _ _ root F [] va); [|exact Hok'|lia|lia|lia| |lia].
  - do 2 f_equal. simpl. rewrite Nat2Z.id. ksimp.
    apply list_eq. intros i. unfold ubytes. rewrite list_lookup_fmap.
    destruct (decide (i < length src)%nat) as [Hi|Hi].
    + rewrite lookup_seq_lt by lia. cbn [fmap option_fmap option_map].
      rewrite Hby; [|lia|apply Hw; lia].
      destruct (Z.leb_spec va (va + Z.of_nat (0 + i))),
        (Z.ltb_spec (va + Z.of_nat (0 + i)) (va + Z.of_nat (length src))); try lia. cbn [andb].
      destruct (lookup_lt_is_Some_2 src i Hi) as [x Hx]. rewrite Hx. f_equal. unfold zget.
      replace (Z.to_nat (va + Z.of_nat (0 + i) - va)) with i by lia. by rewrite Hx.
    + rewrite lookup_seq_ge by lia. symmetry. apply lookup_ge_None. lia.
  - intros v Hv. ksimp. unfold umapped. rewrite Hpt. apply Hw. lia.
Qed.

(** * The theorems at a concrete state *)

(** one user page mapped into the empty table of [vm_state] *)
Lemma demo_user_state :
  exists s F, k_img s = image0 /\ user_ok (k_img s) (k_mem s) demo_root F /\
    forall v, 0x1000 <= v < 0x2000 -> uwritable (k_mem s) demo_root v.
Proof.
  destruct (mappages_page vm_state demo_root demo_free 0x1000 0x303000 demo_perm vm_state_ok)
    as (r & s & F & E & G & Hother & Hr); [done|done|done|by rewrite demo_pte|].
  assert (r = 0) as ->.
  { assert (match mappages demo_root 0x1000 PGSIZE 0x303000 demo_perm vm_state with
            | Ok x _ => x =? 0 | _ => false end = true) as Hc by (vm_compute; reflexivity).
    rewrite E in Hc. by apply Z.eqb_eq. }
  destruct Hr as [[_ Hpte]|[? _]]; [|done]. exists s, F.
  assert (Hin : forall v, 0 <= v < MAXVA -> v / PGSIZE = 1 ->
            pte_at (k_mem s) demo_root v = Z.lor (Z.lor (PA2PTE 0x303000) demo_perm) PTE_V).
  { intros v Hv Hp. rewrite <-Hpte. apply pte_at_page; [exact Hv|split; [discriminate|reflexivity]|].
    rewrite Hp. reflexivity. }
  assert (Hmap : forall v, 0 <= v < MAXVA -> umapped (k_mem s) demo_root v -> v / PGSIZE = 1).
  { intros v Hv [Hm _]. destruct (decide (v / PGSIZE = 1)) as [|Hne]; [done|].
    rewrite Hother, demo_pte in Hm by done. done. }
  assert (Hpa : PTE2PA (Z.lor (Z.lor (PA2PTE 0x303000) demo_perm) PTE_V) = 0x303000) by done.
  split; [by destruct (gr_state _ _ _ _ _ G) as (m & fl & ->)|]. split; [|intros v Hv].
  - split.
    + apply (vo_pt _ _ _ (gr_ok _ _ _ _ _ G)).
    + intros v Hv Hm. pose proof (Hmap v Hv Hm) as Hp. rewrite Hin, Hpa by done. split.
      * destruct (gr_state _ _ _ _ _ G) as (m & fl & ->). apply (good_page_demo 3). lia.
      * apply (gr_data _ _ _ _ _ G); [reflexivity| |].
        -- apply (bool_decide_eq_false (0x303000 ∈ demo_free)). vm_compute. reflexivity.
        -- intros n Hn Hp'. apply demo_pages in Hp' as [_ Hp']; [discriminate Hp'|exact Hn].
    + intros v v' Hv Hv' Hm Hm' _. rewrite (Hmap v), (Hmap v') by done. done.
  - assert (v / PGSIZE = 1) as Hp.
    { symmetry. apply Z.div_unique with (v - 0x1000); unfold PGSIZE; lia. }
    assert (0 <= v < MAXVA) as Hr by (change MAXVA with 0x4000000000; lia).
    unfold uwritable, umapped. rewrite Hin by assumption. split_and!; vm_compute; reflexivity.
Qed.

Lemma copy_refines_flat_memory_witness :
  exists s m', copyout demo_root 0x1ffd [1; 2; 3] s = Ok 0 (set_mem (fun _ => m') s).
Proof.
  destruct demo_user_state as (s & F & _ & Hu & Hw).
  destruct (proj2 (copy_refines_flat_memory s demo_root F Hu) 0x1ffd [1; 2; 3]) as (m' & E & _).
  - repeat constructor; lia.
  - lia.
  - vm_compute. discriminate.
  - intros v Hv. apply Hw. simpl in Hv. lia.
  - exists s, m'. exact E.
Defined.

Lemma copyout_copyin_roundtrip_witness :
  exists s s', copyout demo_root 0x1000 [7; 0; 9] s = Ok 0 s' /\
               copyin demo_root 0x1000 3 s' = Ok (0, [7; 0; 9]) s'.
Proof.
  destruct demo_user_state as (s & F & _ & Hu & Hw). exists s.
  apply (copyout_copyin_roundtrip s demo_root F 0x1000 [7; 0; 9] Hu).
  - repeat constructor; lia.
  - lia.
  - vm_compute. discriminate.
  - intros v Hv. apply Hw. simpl in Hv. lia.
Defined.
