(* ===== verification/VmFork.v ===== *)
(** Unmapping and copying address spaces (kernel/vm.c): uvmunmap gives pages
    back, uvmcopy makes the memory of a child process. *)

From stdpp Require Import base gmap strings numbers list.
From S2P Require Import Prelude KState KString Spinlock Kalloc Vm VmPte VmTree VmSpec VmCopy.

(** * Data pages *)

Definition vvalid (m : mem) (root va : Z) : Prop := nz (Z.land (pte_at m root va) PTE_V) = true.
Definition vpage (m : mem) (root va : Z) : Z := PTE2PA (pte_at m root va).

#[export] Instance vvalid_dec m root va : Decision (vvalid m root va).
Proof. unfold vvalid. apply _. Defined.

(** only the page [q] differs *)
Definition page_write (q : Z) (m m' : mem) : Prop := forall a, a < q \/ q + PGSIZE <= a -> ldb m' a = ldb m a.

(** ** The allocator below a page table *)

Lemma vm_ok_write s root F q m' fl :
  vm_ok s root F -> q mod PGSIZE = 0 -> not_table (k_mem s) root q -> page_write q (k_mem s) m' ->
  forall F', free_pages (with_mem m' fl s) F' -> (forall n p, node_ok n -> page_of (k_mem s) root n = Some p -> p ∉ F') ->
  vm_ok (with_mem m' fl s) root F'.
Proof.
  intros [V1 V2 V3] Hq Hn Hw F' Hf Hd. split; [done| |done].
  assert (forall n, node_ok n -> page_of m' root n = page_of (k_mem s) root n) as Hpg by (by eapply page_of_write_page).
  destruct V2 as [G I]. split; cbn.
  - intros n p Hok Hp. change (page_of m' root n = Some p) in Hp. rewrite Hpg in Hp by done. split; [by apply (G n)|by apply (Hd n)].
  - intros n n' p H1 H2 H3 H4. change (page_of m' root n = Some p) in H3. change (page_of m' root n' = Some p) in H4.
    rewrite Hpg in H3, H4 by done. by apply (I n n' p).
Qed.

(** kalloc takes a page that is no table *)
Lemma vm_ok_kalloc s root q F : vm_ok s root (q :: F) ->
  exists m' fl, kalloc s = Ok q (with_mem m' fl s) /\ vm_ok (with_mem m' fl s) root F /\ page_write q (k_mem s) m' /\
    good_page (k_img s) q /\ q ∉ F /\ not_table (k_mem s) root q.
Proof.
  intros V. pose proof V as [V1 V2 V3]. pose proof V1 as [C G N]. apply Forall_cons in G as [Gq G]. apply NoDup_cons in N as [Nq N].
  pose proof (good_page_pos _ _ Gq) as Hpos. cbn [chain] in C. destruct C as [Hr C].
  assert (not_table (k_mem s) root q) as Hnt by (eapply free_not_table; [done|set_solver]).
  exists (memset (k_mem s) q 5 PGSIZE), (ld64 (k_mem s) q).
  assert (page_write q (k_mem s) (memset (k_mem s) q 5 PGSIZE)) as Hw by (intros a Ha; by apply ldb_memset_out).
  split_and!; try done.
  - rewrite (kalloc_run s q); [reflexivity|done|lia|done].
  - eapply vm_ok_write; [exact V|apply Gq|done|done| |].
    + split; [|done|done]. cbn. apply (chain_write_page (k_mem s) _ q _ F (k_img s)); [done|apply Gq|done|exact Hw|done].
    + intros n p Hn Hp Hin. destruct (pt_good _ _ _ _ V2 n p Hn Hp) as [_ H]. set_solver.
Qed.

Lemma vm_ok_kfree s root q F : vm_ok s root F -> good_page (k_img s) q -> q ∉ F -> not_table (k_mem s) root q ->
  exists m' fl, kfree q s = Ok tt (with_mem m' fl s) /\ vm_ok (with_mem m' fl s) root (q :: F) /\ page_write q (k_mem s) m'.
Proof.
  intros V Gq Hq Hnt. pose proof V as [V1 V2 V3].
  exists (kfree_mem (k_mem s) q (k_freelist s)), q.
  assert (page_write q (k_mem s) (kfree_mem (k_mem s) q (k_freelist s))) as Hw.
  { intros a Ha. unfold kfree_mem. rewrite ldb_st64_out by (unfold PGSIZE in Ha; lia). by apply ldb_memset_out. }
  assert (kfree q s = Ok tt (with_mem (kfree_mem (k_mem s) q (k_freelist s)) q s)) as E by (by rewrite kfree_run).
  split_and!; [done| |done]. eapply vm_ok_write; [exact V|apply Gq|done|done| |].
  - destruct (kfree_pushes q s F V1 V3 Gq Hq) as (s' & E' & Hf & _). rewrite E in E'. injection E' as <-. exact Hf.
  - intros n p Hn Hp [->|Hin]%elem_of_cons; [by apply (Hnt n Hn)|]. destruct (pt_good _ _ _ _ V2 n p Hn Hp) as [_ H]. done.
Qed.

(** * uvmunmap *)

(** [s'] is [s] after pages were given back: only memory and the free list
    changed, tables stay, and pages that are neither free now nor tables kept
    their contents *)
Record shrinks (root : Z) (s : kstate) (F : list Z) (s' : kstate) (F' : list Z) : Prop := {
  sh_state : exists m fl, s' = with_mem m fl s;
  sh_ok : vm_ok s' root F';
  sh_free p : p ∈ F -> p ∈ F';
  sh_pages n : node_ok n -> page_of (k_mem s') root n = page_of (k_mem s) root n;
  sh_data d : d mod PGSIZE = 0 -> d ∉ F' -> not_table (k_mem s) root d ->
    forall a, d <= a < d + PGSIZE -> ldb (k_mem s') a = ldb (k_mem s) a;
  sh_ptrs : ptrs (k_mem s) root -> ptrs (k_mem s') root
}.

Lemma shrinks_refl root s F : vm_ok s root F -> shrinks root s F s F.
Proof. intros H. split; try done. by exists (k_mem s), (k_freelist s). Qed.

Lemma shrinks_trans root s F s1 F1 s2 F2 : shrinks root s F s1 F1 -> shrinks root s1 F1 s2 F2 -> shrinks root s F s2 F2.
Proof.
  intros [(m1 & f1 & E1) O1 L1 P1 D1 T1] [(m2 & f2 & E2) O2 L2 P2 D2 T2]. split; [|done|by auto| | |by auto].
  - exists m2, f2. by rewrite E2, E1.
  - intros n Hn. by rewrite P2, P1.
  - intros d Hd HF Hn a Ha. rewrite (D2 d); [|done|done| |done].
    + apply (D1 d); auto.
    + intros n Hok. rewrite P1 by done. by apply Hn.
Qed.

Lemma vvalid_ptr s root F va : vm_ok s root F -> vvalid (k_mem s) root va ->
  exists p, page_of (k_mem s) root (N0 (PX 2 va) (PX 1 va)) = Some p /\ pte_ptr (k_mem s) root va = pte_addr p (PX 0 va) /\
    pte_ptr (k_mem s) root va <> 0 /\ ld64 (k_mem s) (pte_addr p (PX 0 va)) = pte_at (k_mem s) root va.
Proof.
  intros V Hv. destruct (pte_ptr_cases _ _ _ _ va (vo_pt _ _ _ V)) as [[_ E]|(Hne & Hl & p & Hp & E)].
  - unfold vvalid in Hv. by rewrite E in Hv.
  - exists p. rewrite <-E. done.
Qed.

(** a page that has no entry is passed over *)
Lemma unmap_skip s root F stop a : vm_ok s root F -> 0 <= a < MAXVA -> a < stop -> ~ vvalid (k_mem s) root a ->
  uvmunmap_body root stop true a s = Ok (inl (u64 (a + PGSIZE))) s.
Proof.
  intros V Ha Hs Hv. unfold uvmunmap_body. rewrite (proj2 (Z.ltb_lt a stop)) by done. cbn [negb].
  erewrite bind_ok by (by apply walk_noalloc). destruct (pte_ptr_cases _ _ _ _ a (vo_pt _ _ _ V)) as [[-> _]|(Hne & Hl & _)]; [done|].
  rewrite (proj2 (Z.eqb_neq _ _) Hne). unfold load64. mstep. rewrite Hl.
  unfold vvalid, nz in Hv. destruct (Z.eqb_spec (Z.land (pte_at (k_mem s) root a) PTE_V) 0) as [E|E]; [done|]. by destruct Hv.
Qed.

Lemma unmap_page s root F stop a : vm_ok s root F -> 0 <= a < MAXVA -> a < stop -> vvalid (k_mem s) root a ->
  let q := vpage (k_mem s) root a in good_page (k_img s) q -> not_table (k_mem s) root q -> q ∉ F ->
  exists s', uvmunmap_body root stop true a s = Ok (inl (u64 (a + PGSIZE))) s' /\ shrinks root s F s' (q :: F) /\
    pte_at (k_mem s') root a = 0 /\
    forall va, 0 <= va < MAXVA -> va / PGSIZE <> a / PGSIZE -> pte_at (k_mem s') root va = pte_at (k_mem s) root va.
Proof.
  intros V Ha Hs Hv q Gq Hnt Hq. destruct (vvalid_ptr s root F a V Hv) as (p & Hp & Eptr & Hne & Hl).
  destruct (vm_ok_kfree s root q F V Gq Hq Hnt) as (m1 & fl & Ek & V1 & Hw). set (s1 := with_mem m1 fl s) in *.
  assert (forall n, node_ok n -> page_of m1 root n = page_of (k_mem s) root n) as Hpg.
  { eapply page_of_write_page; [apply V|apply Gq|done|done]. }
  assert (forall va, pte_at m1 root va = pte_at (k_mem s) root va) as Hpt.
  { intros va. eapply pte_at_write_page; [apply V|apply Gq|done|done]. }
  assert (node_ok (N0 (PX 2 a) (PX 1 a))) as Hno by (split; apply PX_range).
  assert (page_of (k_mem s1) root (N0 (PX 2 a) (PX 1 a)) = Some p) as Hp1 by (by rewrite <-Hp; apply Hpg).
  pose proof (store_leaf_grows s1 root (q :: F) _ _ p (PX 0 a) 0 V1 Hno (PX_range _ _) Hp1) as Gr.
  destruct (pte_at_store_leaf _ (k_mem s1) root (q :: F) a p 0 (vo_pt _ _ _ V1)) as [Hz Ho]; [done|done|done|].
  set (s2 := set_mem (fun m => st64 m (pte_addr p (PX 0 a)) 0) s1) in *. exists s2. split_and!.
  - unfold uvmunmap_body. rewrite (proj2 (Z.ltb_lt a stop)) by done. cbn [negb]. erewrite bind_ok by (by apply walk_noalloc).
    rewrite (proj2 (Z.eqb_neq _ _) Hne), Eptr. unfold load64. mstep. rewrite Hl. unfold vvalid, nz in Hv.
    destruct (Z.land (pte_at (k_mem s) root a) PTE_V =? 0); [done|]. cbn [whenM]. erewrite bind_ok by exact Ek.
    unfold store64. mstep. done.
  - split; [by exists (k_mem s2), fl|apply Gr|set_solver| | |].
    + intros n Hn. rewrite <-Hpg by done. apply (page_of_store_leaf (k_img s) m1 root (q :: F) (PX 2 a) (PX 1 a)); try done; [apply V1|apply PX_range].
    + intros d Hd HdF Hdn x Hx. destruct (gr_data _ _ _ _ _ Gr d Hd HdF) as [_ Hb].
      { intros n Hn. change (page_of m1 root n <> Some d). rewrite Hpg by done. by apply Hdn. }
      rewrite Hb by done. apply Hw. assert (page_disjoint d q) as D by (apply aligned_disjoint; [done|apply Gq|set_solver]).
      unfold page_disjoint in D. lia.
    + intros P. apply (gr_ptrs _ _ _ _ _ Gr). exact (ptrs_write_page _ _ m1 root F q (vo_pt _ _ _ V) (proj1 Gq) Hnt Hw P).
  - exact Hz.
  - intros va Hva Hne'. rewrite <-Hpt. by apply Ho.
Qed.

(** the valid entries of [lo, hi) map distinct data pages *)
Record data_ok (im : image) (m : mem) (root : Z) (F : list Z) (lo hi : Z) : Prop := {
  da_page va : lo <= va < hi -> vvalid m root va ->
    good_page im (vpage m root va) /\ not_table m root (vpage m root va) /\ vpage m root va ∉ F;
  da_inj va va' : lo <= va < hi -> lo <= va' < hi -> vvalid m root va -> vvalid m root va' ->
    vpage m root va = vpage m root va' -> va / PGSIZE = va' / PGSIZE
}.

Lemma data_ok_sub im m root F lo hi lo' hi' : data_ok im m root F lo hi -> lo <= lo' -> hi' <= hi -> data_ok im m root F lo' hi'.
Proof. intros [D1 D2] H1 H2. split; intros; [apply D1|apply D2]; (done || lia). Qed.

Lemma data_ok_ext im m m' root F F' lo hi : data_ok im m root F lo hi ->
  (forall va, lo <= va < hi -> pte_at m' root va = pte_at m root va) ->
  (forall n, node_ok n -> page_of m' root n = page_of m root n) ->
  (forall va, lo <= va < hi -> vvalid m root va -> vpage m root va ∉ F') -> data_ok im m' root F' lo hi.
Proof.
  intros [D1 D2] Hp Hn HF. split; unfold vvalid, vpage in *.
  - intros va Hva. rewrite Hp by done. intros Hv. destruct (D1 va Hva Hv) as (G & T & _). split_and!; [done| |by apply HF].
    intros n Hok. rewrite Hn by done. by apply T.
  - intros va va' Ha Hb. rewrite !Hp by done. by apply D2.
Qed.

Lemma page_next a va : a mod PGSIZE = 0 -> a + PGSIZE <= va -> va / PGSIZE <> a / PGSIZE.
Proof. intros Ha Hv. unfold PGSIZE in *. Z.to_euclidean_division_equations; lia. Qed.
Lemma page_same a va : a mod PGSIZE = 0 -> a <= va < a + PGSIZE -> va / PGSIZE = a / PGSIZE.
Proof. intros Ha Hv. unfold PGSIZE in *. Z.to_euclidean_division_equations; lia. Qed.
Lemma page_before a va : a mod PGSIZE = 0 -> va < a -> va / PGSIZE <> a / PGSIZE.
Proof. intros Ha Hv. unfold PGSIZE in *. Z.to_euclidean_division_equations; lia. Qed.
Lemma aligned_next a : a mod PGSIZE = 0 -> (a + PGSIZE) mod PGSIZE = 0.
Proof. intros Ha. unfold PGSIZE in *. Z.to_euclidean_division_equations; lia. Qed.

(** what uvmunmap of the pages of [lo, hi) leaves *)
Record unmapped (root lo hi : Z) (s : kstate) (F : list Z) (s' : kstate) (F' : list Z) : Prop := {
  um_shrinks : shrinks root s F s' F';
  um_gone va : lo <= va < hi -> ~ vvalid (k_mem s') root va;
  um_others va : 0 <= va < MAXVA -> ~ lo <= va < hi -> pte_at (k_mem s') root va = pte_at (k_mem s) root va;
  um_free p : p ∈ F' <-> p ∈ F \/ exists va, lo <= va < hi /\ vvalid (k_mem s) root va /\ vpage (k_mem s) root va = p
}.

(** the first page is gone, then the others *)
Lemma unmapped_cons root a hi s F s1 F1 s2 F2 :
  a mod PGSIZE = 0 -> 0 <= a -> a + PGSIZE <= hi -> hi <= MAXVA -> shrinks root s F s1 F1 -> ~ vvalid (k_mem s1) root a ->
  (forall va, 0 <= va < MAXVA -> va / PGSIZE <> a / PGSIZE -> pte_at (k_mem s1) root va = pte_at (k_mem s) root va) ->
  (forall p, p ∈ F1 <-> p ∈ F \/ vvalid (k_mem s) root a /\ vpage (k_mem s) root a = p) ->
  unmapped root (a + PGSIZE) hi s1 F1 s2 F2 -> unmapped root a hi s F s2 F2.
Proof.
  intros Hal H0 Hhi Hmax Sh Hgone Hsame HF1 [U1 U2 U3 U4]. assert (0 < PGSIZE) as HP by done.
  assert (forall m va, a <= va < a + PGSIZE -> pte_at m root va = pte_at m root a) as Hpg.
  { intros m va Hva. apply pte_at_page; [lia|lia|by apply page_same]. }
  split.
  - by eapply shrinks_trans.
  - intros va Hva. destruct (decide (va < a + PGSIZE)); [|apply U2; lia].
    unfold vvalid in *. rewrite (Hpg _ va) by lia. rewrite U3 by lia. done.
  - intros va Hva Hn. rewrite U3 by lia. apply Hsame; [done|].
    destruct (decide (va < a)); [by apply page_before|by apply page_next; (done || lia)].
  - intros p. rewrite U4, HF1. unfold vvalid, vpage in *. split.
    + intros [[H|[H1 H2]]|(va & Hva & H1 & H2)]; [by left|right; exists a; split; [lia|done]|].
      right. exists va. rewrite Hsame in H1, H2 by (lia || by apply page_next; (done || lia)). split; [lia|done].
    + intros [H|(va & Hva & H1 & H2)]; [by do 2 left|]. destruct (decide (va < a + PGSIZE)) as [Hlt|Hge].
      * left. right. by rewrite (Hpg _ va) in H1, H2 by lia.
      * right. exists va. rewrite Hsame by (lia || by apply page_next; (done || lia)). split; [lia|done].
Qed.

Lemma unmap_loop root hi k : forall s F a, vm_ok s root F -> a mod PGSIZE = 0 -> 0 <= a -> a + Z.of_nat k * PGSIZE = hi -> hi <= MAXVA ->
  data_ok (k_img s) (k_mem s) root F a hi ->
  exists s' F', whileM (S k) (uvmunmap_body root hi true) a s = Ok tt s' /\ unmapped root a hi s F s' F'.
Proof.
  induction k as [|k IH]; intros s F a V Hal H0 Hhi Hmax D.
  - exists s, F. split.
    + apply whileM_stop. unfold uvmunmap_body. by rewrite (proj2 (Z.ltb_ge a hi)) by lia.
    + split; [by apply shrinks_refl|lia|done|]. intros p. split; [by left|]. intros [H|(va & Hva & _)]; [done|lia].
  - assert (0 < PGSIZE /\ MAXVA < 2 ^ 40) as [HP HM] by done.
    assert (u64 (a + PGSIZE) = a + PGSIZE) as Eu by (apply u64_small; lia).
    destruct (decide (vvalid (k_mem s) root a)) as [Hv|Hv].
    + destruct (da_page _ _ _ _ _ _ D a ltac:(lia) Hv) as (G & T & Hq).
      destruct (unmap_page s root F hi a V ltac:(lia) ltac:(lia) Hv G T Hq) as (s1 & E1 & Sh & Hz & Hs1).
      assert (k_img s1 = k_img s) as Ei by (by destruct Sh as [(m & fl & ->) _ _ _ _ _]).
      destruct (IH s1 (vpage (k_mem s) root a :: F) (a + PGSIZE)) as (s' & F' & E' & U); [apply Sh|by apply aligned_next|lia|lia|done| |].
      { rewrite Ei. apply (data_ok_ext _ (k_mem s) _ _ F); [by apply (data_ok_sub _ _ _ _ a hi); [|lia..]| |apply Sh|].
        - intros va Hva. apply Hs1; [lia|by apply page_next; (done || lia)].
        - intros va Hva Hvv [E|Hin]%elem_of_cons; [|by apply (da_page _ _ _ _ _ _ D va); [lia|..]].
          apply (da_inj _ _ _ _ _ _ D) in E; [|lia|lia|done|done]. by apply (page_next a va) in E; [|done|lia]. }
      exists s', F'. split; [rewrite (whileM_step _ _ _ _ _ _ E1), Eu; exact E'|].
      eapply (unmapped_cons root a hi s F s1); [done|done|lia|done|done| |done| |done].
      * unfold vvalid. by rewrite Hz.
      * intros p. rewrite elem_of_cons. naive_solver.
    + pose proof (unmap_skip s root F hi a V ltac:(lia) ltac:(lia) Hv) as E1. rewrite Eu in E1.
      destruct (IH s F (a + PGSIZE)) as (s' & F' & E' & U); [done|by apply aligned_next|lia|lia|done|by apply (data_ok_sub _ _ _ _ a hi); [|lia..]|].
      exists s', F'. split; [by rewrite (whileM_step _ _ _ _ _ _ E1)|].
      eapply (unmapped_cons root a hi s F s); [done|done|lia|done|by apply shrinks_refl|done|done| |done].
      intros p. naive_solver.
Qed.

(** no page of the range is mapped, all other entries are as before, and
    exactly the pages that were mapped in the range are on the free list *)
Lemma uvmunmap_run s root F k va : vm_ok s root F -> va mod PGSIZE = 0 -> 0 <= va -> va + Z.of_nat k * PGSIZE <= MAXVA ->
  data_ok (k_img s) (k_mem s) root F va (va + Z.of_nat k * PGSIZE) ->
  exists s' F', uvmunmap root va (Z.of_nat k) true s = Ok tt s' /\ unmapped root va (va + Z.of_nat k * PGSIZE) s F s' F'.
Proof.
  intros V Hal H0 Hmax D. destruct (unmap_loop root (va + Z.of_nat k * PGSIZE) k s F va) as (s' & F' & E & U); try done.
  exists s', F'. split; [|done]. unfold uvmunmap. rewrite Hal. cbn [Z.eqb negb]. rewrite Nat2Z.id.
  rewrite u64_small; [exact E|]. change MAXVA with (2 ^ 38) in *. unfold PGSIZE in *. lia.
Qed.

(** * uvmcopy *)

Definition flags_of (pte : Z) : Z := Z.land pte (u64 (Z.lnot PPN_MASK)).

Lemma flags_of_ok pte : 0 <= pte < 2 ^ 64 -> 0 <= flags_of pte < 2 ^ 64 /\ Z.land (flags_of pte) PPN_MASK = 0.
Proof.
  intros Hp. unfold flags_of. split.
  - assert (Z.land pte (u64 (Z.lnot PPN_MASK)) mod 2 ^ 64 = Z.land pte (u64 (Z.lnot PPN_MASK))) as E.
    { apply Z.bits_inj'. intros i Hi. destruct (Z.ltb_spec i 64) as [H|H]; [by rewrite Z.mod_pow2_bits_low|].
      rewrite Z.mod_pow2_bits_high, Z.land_spec, (testbit_high pte 64) by lia. done. }
    rewrite <-E. by apply Z.mod_pos_bound.
  - rewrite <-Z.land_assoc. change (Z.land (u64 (Z.lnot PPN_MASK)) PPN_MASK) with 0. apply Z.land_0_r.
Qed.

Lemma flags_of_valid pte : nz (Z.land pte PTE_V) = true -> Z.lor (flags_of pte) PTE_V = flags_of pte.
Proof.
  intros Hv. assert (Z.testbit pte 0 = true) as H0.
  { destruct (Z.testbit pte 0) eqn:E; [done|]. exfalso. apply nz_true in Hv. apply Hv. apply Z.bits_inj'. intros i Hi.
    rewrite Z.land_spec, testbit_PTE_V, Z.bits_0. destruct (Z.eqb_spec i 0) as [->|]; [by rewrite E|apply andb_false_r]. }
  apply Z.bits_inj'. intros i Hi. unfold flags_of. rewrite Z.lor_spec, Z.land_spec, testbit_PTE_V.
  destruct (Z.eqb_spec i 0) as [->|]; [|by rewrite orb_false_r]. by rewrite H0.
Qed.

Lemma pte_at_range m root va : 0 <= pte_at m root va < 2 ^ 64.
Proof. unfold pte_at. destruct (page_of m root _); [apply ld64_range|done]. Qed.

Section copy.
Context (old new hi : Z) (s0 : kstate) (F0 : list Z).
Local Abbreviation m0 := (k_mem s0).

(** the pages of the parent: tables and data *)
Definition owned (d : Z) : Prop :=
  (exists n, node_ok n /\ page_of m0 old n = Some d) \/ (exists va, 0 <= va < hi /\ vpage m0 old va = d).

(** the parent's memory is mapped, the child has none yet, and they share
    no page *)
Record forkable : Prop := {
  fo_old : pt_inv (k_img s0) m0 old F0;
  fo_data : data_ok (k_img s0) m0 old F0 0 hi;
  fo_mapped va : 0 <= va < hi -> vvalid m0 old va;
  fo_new : vm_ok s0 new F0;
  fo_empty va : 0 <= va < hi -> ~ vvalid m0 new va;
  fo_apart d : owned d -> not_table m0 new d;
  fo_hi : 0 <= hi <= MAXVA /\ hi mod PGSIZE = 0
}.
Hypothesis FO : forkable.

Lemma owned_page d : owned d -> d mod PGSIZE = 0 /\ d ∉ F0.
Proof.
  intros [(n & Hn & Hp)|(va & Hva & <-)].
  - destruct (pt_good _ _ _ _ (fo_old FO) n d Hn Hp) as [[G _] H]. done.
  - destruct (da_page _ _ _ _ _ _ (fo_data FO) va Hva (fo_mapped FO va Hva)) as ([G _] & _ & H). done.
Qed.

(** a page that is neither free nor a table of the child *)
Definition outside (d : Z) : Prop := d mod PGSIZE = 0 /\ d ∉ F0 /\ not_table m0 new d.

Lemma owned_outside d : owned d -> outside d.
Proof. intros Hd. destruct (owned_page d Hd) as [H1 H2]. split_and!; [done|done|by apply (fo_apart FO)]. Qed.

(** such pages, the parent's among them, are as they were *)
Definition kept (m : mem) : Prop := forall d a, outside d -> d <= a < d + PGSIZE -> ldb m a = ldb m0 a.

Lemma kept_tables m : kept m -> forall n, node_ok n -> page_of m old n = page_of m0 old n.
Proof.
  intros K. apply page_of_ext. intros n p i Hn Hi Hp. apply ld64_ext. intros a Ha. pose proof (pte_addr_in p i Hi).
  apply (K p); [apply owned_outside; left; by exists n|lia].
Qed.

Lemma kept_pte m va : kept m -> pte_at m old va = pte_at m0 old va.
Proof.
  intros K. assert (node_ok (N0 (PX 2 va) (PX 1 va))) as Hn by (split; apply PX_range).
  apply pte_at_ext; [by apply kept_tables|]. intros p Hp. apply ld64_ext. intros a Ha.
  pose proof (pte_addr_in p (PX 0 va) (PX_range _ _)). apply (K p); [apply owned_outside; left; eauto|lia].
Qed.

(** the pages below [i] have been copied *)
Record copied (i : Z) (s : kstate) (F : list Z) : Prop := {
  cp_state : exists m fl, s = with_mem m fl s0;
  cp_ok : vm_ok s new F;
  cp_free p : p ∈ F -> p ∈ F0;
  cp_kept : kept (k_mem s);
  cp_apart d : outside d -> not_table (k_mem s) new d;
  cp_data : data_ok (k_img s0) (k_mem s) new F 0 i;
  cp_new va : 0 <= va < i -> vvalid (k_mem s) new va /\ vpage (k_mem s) new va ∈ F0 /\
    flags_of (pte_at (k_mem s) new va) = flags_of (pte_at m0 old va) /\
    forall o, 0 <= o < PGSIZE -> ldb (k_mem s) (vpage (k_mem s) new va + o) = ldb m0 (vpage m0 old va + o);
  cp_ptrs : ptrs m0 new -> ptrs (k_mem s) new;
  cp_keep n p : node_ok n -> page_of m0 new n = Some p -> page_of (k_mem s) new n = Some p
}.

(** nothing else has been mapped, and every page taken is a table or a copy *)
Record copying (i : Z) (s : kstate) (F : list Z) : Prop := {
  cg_copied : copied i s F;
  cg_rest va : 0 <= va < MAXVA -> ~ 0 <= va < i -> pte_at (k_mem s) new va = pte_at m0 new va;
  cg_used p : p ∈ F0 -> p ∈ F \/ (exists n, node_ok n /\ page_of (k_mem s) new n = Some p) \/
    exists va, 0 <= va < i /\ vpage (k_mem s) new va = p
}.

Lemma copying_start : copying 0 s0 F0.
Proof.
  split; [split|..]; try (intros; lia); try done.
  - by exists m0, (k_freelist s0).
  - apply FO.
  - by intros d (_ & _ & H).
  - split; intros; lia.
  - by left.
Qed.

(** changes away from the copies and the parent's pages *)
Lemma copied_frame i s F s' F' : copied i s F -> 0 <= i <= MAXVA -> (exists m fl, s' = with_mem m fl s) -> vm_ok s' new F' -> (forall p, p ∈ F' -> p ∈ F) ->
  (forall d, d mod PGSIZE = 0 -> d ∉ F -> not_table (k_mem s) new d -> not_table (k_mem s') new d /\
    forall a, d <= a < d + PGSIZE -> ldb (k_mem s') a = ldb (k_mem s) a) ->
  (forall va, 0 <= va < i -> pte_at (k_mem s') new va = pte_at (k_mem s) new va) ->
  (ptrs (k_mem s) new -> ptrs (k_mem s') new) ->
  (forall n p, node_ok n -> page_of (k_mem s) new n = Some p -> page_of (k_mem s') new n = Some p) -> copied i s' F'.
Proof.
  intros [C1 C2 C3 C4 C5 C6 C7 C8 C9] Hi (m & fl & Es) V HF Hd Hp Hpt Hkeep.
  assert (forall d, outside d -> d ∉ F) as HoF by (intros d (_ & Hn & _) Hin; by apply Hn, C3).
  assert (forall va, 0 <= va < i -> vvalid (k_mem s) new va /\ not_table (k_mem s') new (vpage (k_mem s) new va) /\
    forall a, vpage (k_mem s) new va <= a < vpage (k_mem s) new va + PGSIZE -> ldb (k_mem s') a = ldb (k_mem s) a) as Hpage.
  { intros va Hva. destruct (C7 va Hva) as (Hv & _). destruct (da_page _ _ _ _ _ _ C6 va Hva Hv) as ([G _] & T & Hn).
    split; [done|]. by apply Hd. }
  split.
  - destruct C1 as (m1 & fl1 & E1). exists m, fl. by rewrite Es, E1.
  - exact V.
  - auto.
  - intros d a Hod Ha. destruct (Hd d) as [_ Hb]; [apply Hod|by apply HoF|by apply C5|]. rewrite Hb by done. by apply (C4 d).
  - intros d Hod. apply Hd; [apply Hod|by apply HoF|by apply C5].
  - split; unfold vvalid, vpage in *.
    + intros va Hva. rewrite Hp by done. intros Hv. destruct (da_page _ _ _ _ _ _ C6 va Hva Hv) as (G & T & Hn). split_and!; [done|by apply Hpage|auto].
    + intros va va' H1 H2. rewrite !Hp by done. by apply C6.
  - intros va Hva. destruct (C7 va Hva) as (Hv & HF0 & Hfl & Hb). unfold vvalid, vpage in *. rewrite Hp by done. split_and!; [done..|].
    intros o Ho. destruct (Hpage va Hva) as (_ & _ & Hsame). rewrite Hsame by lia. by apply Hb.
  - auto.
  - auto.
Qed.

(** one page more *)
Lemma copied_extend i s F : copied i s F -> i mod PGSIZE = 0 -> 0 <= i -> i + PGSIZE <= hi ->
  let q := vpage (k_mem s) new i in vvalid (k_mem s) new i -> good_page (k_img s0) q -> not_table (k_mem s) new q -> q ∉ F -> q ∈ F0 ->
  (forall va, 0 <= va < i -> vpage (k_mem s) new va <> q) -> flags_of (pte_at (k_mem s) new i) = flags_of (pte_at m0 old i) ->
  (forall o, 0 <= o < PGSIZE -> ldb (k_mem s) (q + o) = ldb m0 (vpage m0 old i + o)) -> copied (i + PGSIZE) s F.
Proof.
  intros [C1 C2 C3 C4 C5 C6 C7 C8 C9] Hal H0 Hhi q Hv G T HqF HqF0 Hne Hfl Hb. destruct (fo_hi FO) as [Hmax _]. assert (0 < PGSIZE) as HP by done.
  assert (forall m root va, i <= va < i + PGSIZE -> pte_at m root va = pte_at m root i) as Hpg.
  { intros m root va Hva. apply pte_at_page; [lia|lia|by apply page_same]. }
  split; try done.
  - split.
    + intros va Hva Hvv. destruct (decide (va < i)); [by apply C6; [lia|]|]. unfold vpage. by rewrite Hpg by lia.
    + intros va va' H1 H2 V1 V2 E. destruct (decide (va < i)), (decide (va' < i)).
      * apply C6; (done || lia).
      * exfalso. apply (Hne va); [lia|]. rewrite E. unfold q, vpage. by rewrite (Hpg _ _ va') by lia.
      * exfalso. apply (Hne va'); [lia|]. rewrite <-E. unfold q, vpage. by rewrite (Hpg _ _ va) by lia.
      * rewrite (page_same i va), (page_same i va') by (done || lia). done.
  - intros va Hva. destruct (decide (va < i)); [apply C7; lia|]. unfold vvalid, vpage in *. rewrite !(Hpg _ _ va) by lia. done.
Qed.

(** a page with the contents of a page of the parent *)
Lemma take_page i s q F : copied i s (q :: F) -> 0 <= i < hi ->
  exists sA m fl, let s' := with_mem m fl s in kalloc s = Ok q sA /\ memmoveM q (vpage m0 old i) PGSIZE sA = Ok tt s' /\ vm_ok s' new F /\
    page_write q (k_mem s) m /\ (forall o, 0 <= o < PGSIZE -> ldb m (q + o) = ldb m0 (vpage m0 old i + o)) /\
    good_page (k_img s0) q /\ q ∉ F /\ not_table (k_mem s) new q.
Proof.
  intros [C1 C2 C3 C4 C5 C6 C7 C8 C9] Hi. destruct (vm_ok_kalloc s new q F C2) as (mA & fl & Ek & VA & WA & G & HqF & Hnt).
  assert (k_img s = k_img s0) as Ei by (by destruct C1 as (? & ? & ->)). rewrite Ei in G.
  set (pa := vpage m0 old i). assert (outside pa) as Ho by (apply owned_outside; right; by exists i). destruct Ho as (Hpa & HpaF & Hpat).
  assert (page_disjoint pa q) as Hd.
  { apply aligned_disjoint; [done|apply G|]. intros ->. apply HpaF, C3. set_solver. }
  exists (with_mem mA fl s), (memmove mA q pa PGSIZE), fl.
  assert (page_write q mA (memmove mA q pa PGSIZE)) as WB.
  { intros a Ha. rewrite memmove_spec by done. destruct (Z.leb_spec q a), (Z.ltb_spec a (q + PGSIZE)); cbn [andb]; (done || lia). }
  assert (not_table mA new q) as HntA.
  { intros n Hn. rewrite (page_of_write_page _ (k_mem s) mA new _ q (vo_pt _ _ _ C2)); [by apply Hnt|apply G|done|done|done]. }
  split_and!; try done.
  - pose proof VA as [[Ch Gf Nd] _ _]. apply (vm_ok_write (with_mem mA fl s) new F q _ fl); [exact VA|apply G|done|exact WB| |].
    + split; [|done|done]. by apply (chain_write_page mA _ q _ F (k_img s0)); [by rewrite <-Ei|apply G|done|exact WB|].
    + intros n p Hn Hp. apply (pt_good _ _ _ _ (vo_pt _ _ _ VA) n p Hn Hp).
  - intros a Ha. by rewrite WB, WA.
  - intros o Hoo. rewrite memmove_spec by done. destruct (Z.leb_spec q (q + o)), (Z.ltb_spec (q + o) (q + PGSIZE)); try lia. cbn [andb].
    replace (pa + (q + o - q)) with (pa + o) by lia. rewrite WA by (unfold page_disjoint in Hd; lia). apply (C4 pa); [done|lia].
Qed.

(** the effect of taking [q] and of page-table work, on everything else *)
Record maps_page (i q : Z) (s : kstate) (F : list Z) (s' : kstate) (F' : list Z) : Prop := {
  mg_state : exists m fl, s' = with_mem m fl s;
  mg_ok : vm_ok s' new F';
  mg_free p : p ∈ F' -> p ∈ F;
  mg_q : good_page (k_img s0) q /\ q ∉ F' /\ not_table (k_mem s') new q;
  mg_bytes o : 0 <= o < PGSIZE -> ldb (k_mem s') (q + o) = ldb m0 (vpage m0 old i + o);
  mg_data d : d mod PGSIZE = 0 -> d ∉ q :: F -> not_table (k_mem s) new d -> not_table (k_mem s') new d /\
    forall a, d <= a < d + PGSIZE -> ldb (k_mem s') a = ldb (k_mem s) a;
  mg_pte va : 0 <= va < MAXVA -> va / PGSIZE <> i / PGSIZE -> pte_at (k_mem s') new va = pte_at (k_mem s) new va;
  mg_keep n p : node_ok n -> page_of (k_mem s) new n = Some p -> page_of (k_mem s') new n = Some p;
  mg_used p : p ∈ F -> p ∈ F' \/ exists n, node_ok n /\ page_of (k_mem s') new n = Some p;
  mg_ptrs : ptrs (k_mem s) new -> ptrs (k_mem s') new
}.

Lemma map_copy i s q F : copying i s (q :: F) -> i mod PGSIZE = 0 -> 0 <= i < hi ->
  let fl := flags_of (pte_at m0 old i) in
  exists sA sB r s' F', kalloc s = Ok q sA /\ memmoveM q (vpage m0 old i) PGSIZE sA = Ok tt sB /\
    mappages new i PGSIZE q fl sB = Ok r s' /\ maps_page i q s F s' F' /\
    (r = 0 /\ pte_at (k_mem s') new i = Z.lor (Z.lor (PA2PTE q) fl) PTE_V \/
     r = -1 /\ pte_at (k_mem s') new i = pte_at (k_mem s) new i).
Proof.
  intros [C Hrest Hused] Hal Hi fl. destruct (take_page i s q F C Hi) as (sA & m & f & EA & EB & VB & WB & Hby & G & HqF & Hnt).
  set (sB := with_mem m f s) in *. destruct (fo_hi FO) as [Hmax _].
  assert (forall n, node_ok n -> page_of m new n = page_of (k_mem s) new n) as Hpg.
  { eapply page_of_write_page; [apply (vo_pt _ _ _ (cp_ok _ _ _ C))|apply G|done|done]. }
  assert (forall va, pte_at m new va = pte_at (k_mem s) new va) as Hpt.
  { intros va. eapply pte_at_write_page; [apply (vo_pt _ _ _ (cp_ok _ _ _ C))|apply G|done|done]. }
  assert (not_table m new q) as HntB by (intros n Hn; rewrite Hpg by done; by apply Hnt).
  destruct (flags_of_ok (pte_at m0 old i) (pte_at_range _ _ _)) as [Hfl _].
  destruct (mappages_page sB new F i q fl VB Hal) as (r & s' & F' & E & Gr & Ho & Hr); [lia|done| |].
  { change (nz (Z.land (pte_at m new i) PTE_V) = false). rewrite Hpt, Hrest by lia.
    apply not_true_iff_false. apply (fo_empty FO); lia. }
  exists sA, sB, r, s', F'. split_and!; try done.
  - destruct (gr_data _ _ _ _ _ Gr q (proj1 G) HqF HntB) as [Hn' Hb']. split.
    + destruct (gr_state _ _ _ _ _ Gr) as (m' & f' & ->). by exists m', f'.
    + apply Gr.
    + intros p Hp. destruct (gr_suffix _ _ _ _ _ Gr) as [l ->]. set_solver.
    + split_and!; [done| |done]. intros Hin. apply HqF. destruct (gr_suffix _ _ _ _ _ Gr) as [l ->]. set_solver.
    + intros o Hoo. rewrite Hb' by lia. by apply Hby.
    + intros d Hd HdF Hdn. destruct (gr_data _ _ _ _ _ Gr d Hd) as [D1 D2]; [set_solver| |].
      { intros n Hn. change (page_of m new n <> Some d). rewrite Hpg by done. by apply Hdn. }
      split; [done|]. intros a Ha. rewrite D2 by done. apply WB.
      assert (page_disjoint d q) as Hdq by (apply aligned_disjoint; [done|apply G|set_solver]). unfold page_disjoint in Hdq. lia.
    + intros va Hva Hne. rewrite Ho by done. apply Hpt.
    + intros n p Hn Hp. apply Gr; [done|]. change (page_of m new n = Some p). by rewrite Hpg.
    + apply Gr.
    + intros P. apply (gr_ptrs _ _ _ _ _ Gr). exact (ptrs_write_page _ _ m new _ q (vo_pt _ _ _ (cp_ok _ _ _ C)) (proj1 G) Hnt WB P).
  - destruct Hr as [[-> Hr]|(-> & _ & Hr)]; [by left|right]. split; [done|]. rewrite Hr. apply Hpt.
Qed.

Lemma maps_copied i q s F s' F' : copied i s (q :: F) -> 0 <= i <= MAXVA -> i mod PGSIZE = 0 -> maps_page i q s F s' F' -> copied i s' F'.
Proof.
  intros C Hi Hal [M1 M2 M3 M4 M5 M6 M7 M8 M9 M10]. apply (copied_frame i s (q :: F)); try done.
  - intros p Hp. right. auto.
  - intros va Hva. apply M7; [lia|]. by apply page_before; [|lia].
Qed.

(** the copy is in place *)
Lemma copying_next i q s F s' F' : copying i s (q :: F) -> i mod PGSIZE = 0 -> 0 <= i -> i + PGSIZE <= hi -> maps_page i q s F s' F' ->
  pte_at (k_mem s') new i = Z.lor (Z.lor (PA2PTE q) (flags_of (pte_at m0 old i))) PTE_V -> copying (i + PGSIZE) s' F'.
Proof.
  intros [C Hrest Hused] Hal H0 Hhi M Ep. destruct (fo_hi FO) as [Hmax _]. assert (0 < PGSIZE) as HP by done.
  pose proof (maps_copied i q s F s' F' C ltac:(lia) Hal M) as C'. destruct M as [M1 M2 M3 (G & HqF & Hnt) M5 M6 M7 M8 M9 M10].
  destruct (flags_of_ok (pte_at m0 old i) (pte_at_range _ _ _)) as [Hfl Hmask].
  destruct (pte_roundtrip q (flags_of (pte_at m0 old i)) (proj1 G)) as (Epa & Efl & Ev); [by eapply good_page_56|done|done|].
  rewrite <-Ep in Epa, Efl, Ev. change (Z.land (pte_at (k_mem s') new i) (u64 (Z.lnot PPN_MASK))) with (flags_of (pte_at (k_mem s') new i)) in Efl.
  rewrite flags_of_valid in Efl by (apply (fo_mapped FO); lia).
  assert (forall va, 0 <= va < i -> vpage (k_mem s') new va = vpage (k_mem s) new va) as Hsame.
  { intros va Hva. unfold vpage. rewrite M7; [done|lia|]. by apply page_before; [|lia]. }
  split.
  - apply copied_extend; try done; unfold vpage; rewrite Epa; try done.
    + apply (cp_free _ _ _ C). set_solver.
    + intros va Hva E. change (PTE2PA (pte_at (k_mem s') new va)) with (vpage (k_mem s') new va) in E. rewrite Hsame in E by done.
      destruct (cp_new _ _ _ C va Hva) as (Hv & _). destruct (da_page _ _ _ _ _ _ (cp_data _ _ _ C) va Hva Hv) as (_ & _ & Hn). set_solver.
  - intros va Hva Hn. rewrite M7, Hrest; [done|done|lia|done|]. destruct (decide (va < i)); [by apply page_before|by apply page_next; (done || lia)].
  - intros p Hp. destruct (Hused p Hp) as [[->|H]%elem_of_cons|[(n & Hn & H)|(va & Hva & H)]].
    + right. right. exists i. split; [lia|exact Epa].
    + destruct (M9 p H) as [H'|H']; [by left|by right; left].
    + right. left. exists n. auto.
    + right. right. exists va. split; [lia|]. by rewrite Hsame.
Qed.

(** the page is given back when it cannot be mapped *)
Lemma copying_back i q s F s' F' : copying i s (q :: F) -> i mod PGSIZE = 0 -> 0 <= i -> i + PGSIZE <= hi -> maps_page i q s F s' F' ->
  pte_at (k_mem s') new i = pte_at (k_mem s) new i ->
  exists s'', kfree q s' = Ok tt s'' /\ copying i s'' (q :: F').
Proof.
  intros [C Hrest Hused] Hal H0 Hhi M Ep. destruct (fo_hi FO) as [Hmax _]. assert (0 < PGSIZE) as HP by done.
  destruct M as [(m1 & f1 & E1) M2 M3 (G & HqF & Hnt) M5 M6 M7 M8 M9 M10].
  assert (k_img s' = k_img s0) as Ei by (by rewrite E1; destruct (cp_state _ _ _ C) as (? & ? & ->)).
  destruct (vm_ok_kfree s' new q F' M2) as (m2 & f2 & E2 & V2 & W2); [by rewrite Ei|done|done|].
  assert (forall n, node_ok n -> page_of m2 new n = page_of (k_mem s') new n) as Hpg.
  { eapply page_of_write_page; [apply M2|apply G|done|done]. }
  assert (forall va, pte_at m2 new va = pte_at (k_mem s') new va) as Hpt.
  { intros va. eapply pte_at_write_page; [apply M2|apply G|done|done]. }
  assert (forall va, 0 <= va < MAXVA -> pte_at m2 new va = pte_at (k_mem s) new va) as Hpt0.
  { intros va Hva. rewrite Hpt. destruct (decide (va / PGSIZE = i / PGSIZE)) as [E|E]; [|by apply M7].
    rewrite !(fun m => pte_at_page m new va i) by (done || lia). exact Ep. }
  exists (with_mem m2 f2 s'). split; [done|]. split.
  - apply (copied_frame i s (q :: F)); try done.
    + lia.
    + exists m2, f2. by rewrite E1.
    + set_solver.
    + intros d Hd HdF Hdn. destruct (M6 d Hd HdF Hdn) as [D1 D2]. split.
      * intros n Hn. change (page_of m2 new n <> Some d). rewrite Hpg by done. by apply D1.
      * intros a Ha. rewrite <-D2 by done. apply W2.
        assert (page_disjoint d q) as Hdq by (apply aligned_disjoint; [done|apply G|set_solver]). unfold page_disjoint in Hdq. lia.
    + intros va Hva. apply Hpt0. lia.
    + intros P. exact (ptrs_write_page _ _ m2 new F' q (vo_pt _ _ _ M2) (proj1 G) Hnt W2 (M10 P)).
    + intros n p Hn Hp. change (page_of m2 new n = Some p). rewrite Hpg by done. by apply M8.
  - intros va Hva Hn. change (pte_at m2 new va = pte_at m0 new va). rewrite Hpt0 by done. by apply Hrest.
  - intros p Hp. destruct (Hused p Hp) as [[->|H]%elem_of_cons|[(n & Hn & H)|(va & Hva & H)]].
    + left. set_solver.
    + destruct (M9 p H) as [H'|(n & Hn & H')]; [left; set_solver|right; left; exists n]. split; [done|].
      change (page_of m2 new n = Some p). by rewrite Hpg.
    + right. left. exists n. split; [done|]. change (page_of m2 new n = Some p). rewrite Hpg by done. auto.
    + right. right. exists va. split; [done|]. rewrite <-H. unfold vpage. f_equal. apply Hpt0. lia.
Qed.

Lemma copy_step i s F sz : copying i s F -> i mod PGSIZE = 0 -> 0 <= i -> i + PGSIZE <= hi -> i < sz ->
  exists s' F', (uvmcopy_body old new sz i s = Ok (inl (i + PGSIZE)) s' /\ copying (i + PGSIZE) s' F') \/
    (uvmcopy_body old new sz i s = (uvmunmap new 0 (i / PGSIZE) true ;; ret (inr (-1))) s' /\ copying i s' F').
Proof.
  intros Cg Hal H0 Hhi Hsz. pose proof Cg as [C Hrest Hused]. destruct (fo_hi FO) as [Hmax _]. assert (0 < PGSIZE /\ MAXVA < 2 ^ 40) as [HP HM] by done.
  assert (k_img s = k_img s0) as Ei by (by destruct (cp_state _ _ _ C) as (? & ? & ->)).
  assert (pt_inv (k_img s) (k_mem s) old F) as Io.
  { rewrite Ei. eapply pt_inv_ext; [apply (fo_old FO)|apply kept_tables, C|apply C]. }
  pose proof (fo_mapped FO i ltac:(lia)) as Hv. pose proof (kept_pte _ i (cp_kept _ _ _ C)) as Ep.
  assert (uvmcopy_body old new sz i s = (let! mem := kalloc in
    if mem =? 0 then uvmunmap new 0 (i / PGSIZE) true ;; ret (inr (-1))
    else memmoveM mem (vpage m0 old i) PGSIZE ;;
      let! r := mappages new i PGSIZE mem (flags_of (pte_at m0 old i)) in
      if negb (r =? 0) then kfree mem ;; uvmunmap new 0 (i / PGSIZE) true ;; ret (inr (-1))
      else ret (inl (u64 (i + PGSIZE)))) s) as Eb.
  { unfold uvmcopy_body. rewrite (proj2 (Z.ltb_lt i sz)) by done. cbn [negb]. erewrite bind_ok by (apply walk_noalloc; lia).
    destruct (pte_ptr_cases _ _ _ _ i Io) as [[_ E]|(Hne & Hl & _)]; [rewrite Ep in E; unfold vvalid in Hv; by rewrite E in Hv|].
    rewrite (proj2 (Z.eqb_neq _ _) Hne). unfold load64. mstep. rewrite Hl, Ep. unfold vvalid, nz in Hv.
    by destruct (Z.land (pte_at m0 old i) PTE_V =? 0). }
  destruct F as [|q F].
  { exists s, []. right. split; [|done]. rewrite Eb. destruct (cp_ok _ _ _ C) as [[Ch _ _] _ Hl]. by erewrite bind_ok by (by apply kalloc_empty). }
  destruct (map_copy i s q F Cg Hal ltac:(lia)) as (sA & sB & r & s' & F' & EA & EB & E & M & Hr).
  destruct (mg_q _ _ _ _ _ _ M) as (G & _). pose proof (good_page_pos _ _ G) as Hq.
  erewrite bind_ok in Eb by exact EA. rewrite (proj2 (Z.eqb_neq q 0)) in Eb by lia. erewrite bind_ok in Eb by exact EB.
  erewrite bind_ok in Eb by exact E. destruct Hr as [[-> Ept]|[-> Ept]].
  - exists s', F'. left. change (0 =? 0) with true in Eb. cbn [negb] in Eb. rewrite u64_small in Eb by lia. split; [exact Eb|].
    by eapply copying_next.
  - destruct (copying_back i q s F s' F' Cg Hal H0 Hhi M Ept) as (s2 & E2 & C2). exists s2, (q :: F'). right.
    change (-1 =? 0) with false in Eb. cbn [negb] in Eb. by erewrite bind_ok in Eb by exact E2.
Qed.

Definition hole_messages : list string := ["uvmcopy: pte should exist"; "uvmcopy: page not present"]%string.

(** what uvmcopy leaves: a copy of the parent's memory, or nothing of it *)
Record fork_fails (s' : kstate) (F' : list Z) : Prop := {
  ff_state : exists m fl, s' = with_mem m fl s0;
  ff_ok : vm_ok s' new F';
  ff_kept : kept (k_mem s');
  ff_empty va : 0 <= va < hi -> ~ vvalid (k_mem s') new va;
  ff_used p : p ∈ F0 -> p ∈ F' \/ exists n, node_ok n /\ page_of (k_mem s') new n = Some p;
  ff_free p : p ∈ F' -> p ∈ F0;
  ff_rest va : hi <= va < MAXVA -> pte_at (k_mem s') new va = pte_at m0 new va;
  ff_ptrs : ptrs m0 new -> ptrs (k_mem s') new;
  ff_apart d : outside d -> not_table (k_mem s') new d;
  ff_keep n p : node_ok n -> page_of m0 new n = Some p -> page_of (k_mem s') new n = Some p
}.

Lemma copying_undo i s F : copying i s F -> i mod PGSIZE = 0 -> 0 <= i <= hi ->
  exists s' F', uvmunmap new 0 (i / PGSIZE) true s = Ok tt s' /\ fork_fails s' F'.
Proof.
  intros [C Hrest Hused] Hal Hi. destruct (fo_hi FO) as [Hmax _]. assert (0 < PGSIZE) as HP by done.
  assert (i / PGSIZE * PGSIZE = i) as Ei by (unfold PGSIZE in *; Z.to_euclidean_division_equations; lia).
  assert (0 <= i / PGSIZE) as Hq by (apply Z.div_pos; lia).
  assert (k_img s = k_img s0) as Eimg by (by destruct (cp_state _ _ _ C) as (? & ? & ->)).
  assert (0 + Z.of_nat (Z.to_nat (i / PGSIZE)) * PGSIZE = i) as Ek by lia.
  destruct (uvmunmap_run s new F (Z.to_nat (i / PGSIZE)) 0) as (s' & F' & E & U); [apply C|done|done|lia|rewrite Ek, Eimg; apply C|].
  rewrite Z2Nat.id in E by lia. rewrite Ek in U. destruct U as [Sh Hgone Hoth Hfree]. exists s', F'. split; [done|].
  assert (forall p, p ∈ F' -> p ∈ F0) as HF.
  { intros p Hp. apply Hfree in Hp as [Hp|(va & Hva & _ & <-)]; [by apply C|]. apply (cp_new _ _ _ C va Hva). }
  split.
  - destruct (sh_state _ _ _ _ _ Sh) as (m & fl & ->). destruct (cp_state _ _ _ C) as (m1 & f1 & ->). by exists m, fl.
  - apply Sh.
  - intros d a Hd Ha. pose proof Hd as (Hda & HdF & _). rewrite (sh_data _ _ _ _ _ Sh d); [|done|auto|by apply C|done].
    by apply (cp_kept _ _ _ C d).
  - intros va Hva. destruct (decide (va < i)); [apply Hgone; lia|]. unfold vvalid. rewrite Hoth, Hrest by lia. by apply (fo_empty FO).
  - intros p Hp. rewrite Hfree. destruct (Hused p Hp) as [H|[(n & Hn & H)|(va & Hva & H)]]; [by left; left| |].
    + right. exists n. split; [done|]. by rewrite (sh_pages _ _ _ _ _ Sh).
    + left. right. exists va. split; [done|]. split; [|done]. apply (cp_new _ _ _ C va Hva).
  - exact HF.
  - intros va Hva. rewrite Hoth by lia. apply Hrest; lia.
  - intros P. apply Sh, C, P.
  - intros d Hd n Hn. rewrite (sh_pages _ _ _ _ _ Sh) by done. by apply (cp_apart _ _ _ C).
  - intros n p Hn Hp. rewrite (sh_pages _ _ _ _ _ Sh) by done. by apply (cp_keep _ _ _ C).
Qed.

Lemma copy_loop sz k : hi - PGSIZE < sz <= hi -> forall i s F fuel, copying i s F -> i mod PGSIZE = 0 -> 0 <= i -> i + Z.of_nat k * PGSIZE = hi ->
  (k < fuel)%nat ->
  exists r s' F', whileM fuel (uvmcopy_body old new sz) i s = Ok r s' /\ (r = 0 /\ copying hi s' F' \/ r = -1 /\ fork_fails s' F').
Proof.
  intros Hsz. destruct (fo_hi FO) as [Hmax Hhal]. assert (0 < PGSIZE) as HP by done.
  induction k as [|k IH]; intros i s F fuel Cg Hal H0 Hk Hf; (destruct fuel as [|fuel]; [lia|]).
  - exists 0, s, F. split; [|left; split; [done|]; replace hi with i by lia; exact Cg]. apply whileM_stop. unfold uvmcopy_body.
    by rewrite (proj2 (Z.ltb_ge i sz)) by lia.
  - destruct (copy_step i s F sz Cg Hal H0 ltac:(lia)) as (s1 & F1 & [[E1 C1]|[E1 C1]]); [lia|..].
    + destruct (IH (i + PGSIZE) s1 F1 fuel C1) as (r & s' & F' & E & H); [by apply aligned_next|lia|lia|lia|].
      exists r, s', F'. split; [by rewrite (whileM_step _ _ _ _ _ _ E1)|done].
    + destruct (copying_undo i s1 F1 C1 Hal ltac:(lia)) as (s2 & F2 & E2 & Hff). exists (-1), s2, F2. split; [|by right].
      apply whileM_stop. rewrite E1. by erewrite bind_ok by exact E2.
Qed.

(** a page that is not there *)
Lemma copy_hole i s F sz : copying i s F -> 0 <= i < sz -> i < MAXVA -> ~ vvalid m0 old i -> u_panicked (k_uart s0) = 0 ->
  exists msg s', uvmcopy_body old new sz i s = Panic msg s' /\ msg ∈ hole_messages.
Proof.
  intros [C _ _] Hi Hmax Hv Hu. destruct (cp_state _ _ _ C) as (m & fl & Es).
  assert (u_panicked (k_uart s) = 0) as Hu' by (by rewrite Es). assert (k_img s = k_img s0) as Ei by (by rewrite Es).
  assert (pt_inv (k_img s) (k_mem s) old F) as Io.
  { rewrite Ei. eapply pt_inv_ext; [apply (fo_old FO)|apply kept_tables, C|apply C]. }
  pose proof (kept_pte _ i (cp_kept _ _ _ C)) as Ep. unfold uvmcopy_body. rewrite (proj2 (Z.ltb_lt i sz)) by lia. cbn [negb].
  erewrite bind_ok by (apply walk_noalloc; lia). destruct (pte_ptr_cases _ _ _ _ i Io) as [[-> _]|(Hne & Hl & _)].
  - destruct (panic_is_panic (A := Z + Z) "uvmcopy: pte should exist" s Hu') as (s' & E). eexists _, s'. split; [exact E|left].
  - rewrite (proj2 (Z.eqb_neq _ _) Hne). unfold load64. mstep. rewrite Hl, Ep. unfold vvalid, nz in Hv.
    destruct (Z.land (pte_at m0 old i) PTE_V =? 0); [|by destruct Hv].
    destruct (panic_is_panic (A := Z + Z) "uvmcopy: page not present" s Hu') as (s' & E). eexists _, s'. split; [exact E|right; left].
Qed.

Lemma copy_loop_hole sz k : hi < sz -> hi < MAXVA -> ~ vvalid m0 old hi -> u_panicked (k_uart s0) = 0 ->
  forall i s F fuel, copying i s F -> i mod PGSIZE = 0 -> 0 <= i -> i + Z.of_nat k * PGSIZE = hi -> (k < fuel)%nat ->
  (exists msg s', whileM fuel (uvmcopy_body old new sz) i s = Panic msg s' /\ msg ∈ hole_messages) \/
  (exists s' F', whileM fuel (uvmcopy_body old new sz) i s = Ok (-1) s' /\ fork_fails s' F').
Proof.
  intros Hsz Hmax Hv Hu. assert (0 < PGSIZE) as HP by done.
  induction k as [|k IH]; intros i s F fuel Cg Hal H0 Hk Hf; (destruct fuel as [|fuel]; [lia|]).
  - assert (i = hi) as -> by lia. destruct (copy_hole hi s F sz Cg) as (msg & s' & E & Hm); [lia|done..|].
    left. exists msg, s'. split; [|done]. cbn [whileM]. unfold bind. by rewrite E.
  - destruct (copy_step i s F sz Cg Hal H0 ltac:(lia)) as (s1 & F1 & [[E1 C1]|[E1 C1]]); [lia|..].
    + rewrite (whileM_step _ _ _ _ _ _ E1). apply (IH (i + PGSIZE) s1 F1 fuel C1); [by apply aligned_next|lia|lia|lia].
    + destruct (copying_undo i s1 F1 C1 Hal ltac:(lia)) as (s2 & F2 & E2 & Hff). right. exists s2, F2. split; [|done].
      apply whileM_stop. rewrite E1. by erewrite bind_ok by exact E2.
Qed.

Lemma uvmcopy_run sz : 0 <= sz <= MAXVA -> hi = PGROUNDUP sz ->
  exists r s' F', uvmcopy old new sz s0 = Ok r s' /\ (r = 0 /\ copying hi s' F' \/ r = -1 /\ fork_fails s' F').
Proof.
  intros Hsz Ehi. rewrite PGROUNDUP_div in Ehi by (change MAXVA with (2 ^ 38) in Hsz; unfold PGSIZE; lia).
  apply (copy_loop sz (Z.to_nat (hi / PGSIZE))) with (F := F0); try done.
  - unfold PGSIZE in *. Z.to_euclidean_division_equations; lia.
  - apply copying_start.
  - unfold PGSIZE in *. Z.to_euclidean_division_equations; lia.
  - unfold PGSIZE in *. Z.to_euclidean_division_equations; lia.
Qed.
End copy.

(** * Theorems *)

(** C6: fork's copy of memory.  uvmcopy returns 0 and the child has every page
    of the parent below the size, with the same attribute bits (the T-Head ones
    too) and the same bytes, in distinct pages that were free; or it returns -1
    with the child's memory unmapped, and every page it took is free again or a
    table of the child, which the caller frees.  The parent's tables and pages
    are as they were. *)
Theorem uvmcopy_correct old new sz s F :
  forkable old new (PGROUNDUP sz) s F -> 0 <= sz <= MAXVA ->
  exists r s' F', uvmcopy old new sz s = Ok r s' /\ vm_ok s' new F' /\
    (forall va, pte_at (k_mem s') old va = pte_at (k_mem s) old va) /\
    (forall va, 0 <= va < PGROUNDUP sz -> ubyte (k_mem s') old va = ubyte (k_mem s) old va) /\
    (r = 0 /\ data_ok (k_img s) (k_mem s') new F' 0 (PGROUNDUP sz) /\
       (forall va, 0 <= va < PGROUNDUP sz -> vvalid (k_mem s') new va /\ vpage (k_mem s') new va ∈ F /\
          flags_of (pte_at (k_mem s') new va) = flags_of (pte_at (k_mem s) old va) /\
          ubyte (k_mem s') new va = ubyte (k_mem s) old va) \/
     r = -1 /\ (forall va, 0 <= va < PGROUNDUP sz -> ~ vvalid (k_mem s') new va) /\
       forall p, p ∈ F -> p ∈ F' \/ exists n, node_ok n /\ page_of (k_mem s') new n = Some p).
Proof.
  intros FO Hsz. destruct (uvmcopy_run old new _ s F FO sz Hsz eq_refl) as (r & s' & F' & E & H). exists r, s', F'. split; [done|].
  assert (kept new s F (k_mem s')) as K by (destruct H as [[_ [C _ _]]|[_ C]]; apply C).
  assert (forall va, pte_at (k_mem s') old va = pte_at (k_mem s) old va) as Hp by (intros va; by eapply kept_pte).
  split; [destruct H as [[_ [C _ _]]|[_ C]]; apply C|]. split; [done|]. split.
  - intros va Hva. unfold ubyte, uaddr. rewrite Hp. apply (K (vpage (k_mem s) old va)); [eapply owned_outside; [exact FO|right; by exists va]|].
    pose proof (page_offset va). unfold vpage. lia.
  - destruct H as [[-> [C _ _]]|[-> C]]; [left|right]; (split; [done|]).
    + split; [apply C|]. intros va Hva. destruct (cp_new _ _ _ _ _ _ _ C va Hva) as (H1 & H2 & H3 & H4). split_and!; try done.
      apply H4, page_offset.
    + split; apply C.
Qed.

(** C39: a hole in the parent's memory: every page below [h] is mapped and the
    page at [h], below the size, is not, as sbrk leaves it with lazy allocation.
    uvmcopy never succeeds: it copies the pages below the hole and panics there
    with one of its two messages, unless memory runs out before it gets there,
    when it returns -1 with everything given back. *)
Theorem uvmcopy_unmapped_panics old new h sz s F :
  forkable old new h s F -> h < sz -> h < MAXVA -> ~ vvalid (k_mem s) old h -> u_panicked (k_uart s) = 0 ->
  (exists msg s', uvmcopy old new sz s = Panic msg s' /\ msg ∈ hole_messages) \/
  (exists s' F', uvmcopy old new sz s = Ok (-1) s' /\ fork_fails new h s F s' F').
Proof.
  intros FO Hsz Hmax Hv Hu. destruct (fo_hi _ _ _ _ _ FO) as [Hh Hal]. unfold uvmcopy. assert (PGSIZE = 4096) as HP by done.
  apply (copy_loop_hole old new h s F FO sz (Z.to_nat (h / PGSIZE)) Hsz Hmax Hv Hu) with (F := F); try done.
  - eapply copying_start. exact FO.
  - unfold PGSIZE in *. Z.to_euclidean_division_equations; lia.
  - unfold PGSIZE in *. Z.to_euclidean_division_equations; lia.
Qed.

(** * Witnesses *)

Definition demo_child : Z := 0x304000.

(** a parent with one page at 0, and an empty table for the child *)
Definition demo_parent_state : kstate :=
  match mappages demo_root 0 PGSIZE 0x303000 demo_perm vm_state with Ok _ s => s | _ => vm_state end.

Lemma demo_fork : exists F, forkable demo_root demo_child 4096 demo_parent_state F /\ u_panicked (k_uart demo_parent_state) = 0 /\
  ~ vvalid (k_mem demo_parent_state) demo_root 4096.
Proof.
  destruct (mappages_page vm_state demo_root demo_free 0 0x303000 demo_perm vm_state_ok)
    as (r & s & F & E & G & Hother & Hr); [done|done|done|by rewrite demo_pte|].
  assert (r = 0) as ->.
  { assert (match mappages demo_root 0 PGSIZE 0x303000 demo_perm vm_state with Ok x _ => x =? 0 | _ => false end = true) as Hc by (vm_compute; reflexivity).
    rewrite E in Hc. by apply Z.eqb_eq. }
  assert (demo_parent_state = s) as -> by (unfold demo_parent_state; by rewrite E). clear E.
  destruct Hr as [[_ Hpte]|[? _]]; [|done]. exists F.
  assert (k_img s = image0 /\ u_panicked (k_uart s) = 0) as [Ei Hu].
  { destruct (gr_state _ _ _ _ _ G) as (m & fl & ->). split; reflexivity. }
  assert (forall d, d = 0x303000 \/ d = demo_child -> d ∉ F /\ not_table (k_mem s) demo_root d /\
    forall a, d <= a < d + PGSIZE -> ldb (k_mem s) a = ldb (k_mem vm_state) a) as Hd.
  { intros d Hd. assert (d ∉ demo_free) as HdF by (destruct Hd as [-> | ->]; by apply (bool_decide_eq_false (_ ∈ demo_free))).
    destruct (gr_data _ _ _ _ _ G d) as [D1 D2]; [by destruct Hd as [-> | ->]|done| |].
    - intros n Hn Hp. apply demo_pages in Hp as [_ Hp]; [|done]. by destruct Hd as [-> | ->].
    - split; [|split; [exact D1|exact D2]]. intros Hin. apply HdF. destruct (gr_suffix _ _ _ _ _ G) as [l El]. rewrite El. apply elem_of_app. by right. }
  assert (forall va, 0 <= va < 4096 -> pte_at (k_mem s) demo_root va = Z.lor (Z.lor (PA2PTE 0x303000) demo_perm) PTE_V) as Hin.
  { intros va Hva. rewrite <-Hpte. apply pte_at_page; [change MAXVA with 0x4000000000; lia|split; [discriminate|reflexivity]|]. by apply page_same. }
  assert (forall n p, node_ok n -> page_of (k_mem s) demo_child n = Some p -> n = NRoot /\ p = demo_child) as Hnew.
  { assert (forall i, idx_ok i -> entry (k_mem s) demo_child i = 0) as He.
    { intros i Hi. unfold entry. rewrite (ld64_ext _ (k_mem vm_state)).
      - apply demo_zero; [right; left|done].
      - intros a Ha. destruct (Hd demo_child) as (_ & _ & H); [by right|]. apply H. pose proof (pte_addr_in demo_child i Hi). lia. }
    intros [|i|i j] p Hn; cbn [node_ok page_of next] in *; [by intros [= <-]|by rewrite He|by rewrite He by apply Hn]. }
  split; [|split; [exact Hu|unfold vvalid; rewrite Hother, demo_pte by done; discriminate]].
  assert (Hpa : PTE2PA (Z.lor (Z.lor (PA2PTE 0x303000) demo_perm) PTE_V) = 0x303000) by reflexivity.
  assert (good_page (k_img s) 0x303000 /\ good_page (k_img s) demo_child) as [G3 G4].
  { rewrite Ei. split; [apply (good_page_demo 3); lia|apply (good_page_demo 4); lia]. }
  destruct (Hd 0x303000) as (N3 & T3 & _); [by left|]. destruct (Hd demo_child) as (N4 & T4 & _); [by right|].
  split.
  - apply (gr_ok _ _ _ _ _ G).
  - split.
    + intros va Hva _. unfold vpage. rewrite Hin, Hpa by done. done.
    + intros va va' Hva Hva' _ _ _. rewrite (page_same 0 va), (page_same 0 va') by (done || unfold PGSIZE; lia). done.
  - intros va Hva. unfold vvalid. by rewrite Hin.
  - destruct (gr_ok _ _ _ _ _ G) as [V1 V2 V3]. split; [exact V1| |exact V3]. split.
    + intros n p Hn Hp. apply Hnew in Hp as [_ ->]; [|done]. done.
    + intros n n' p Hn Hn' Hp Hp'. apply Hnew in Hp as [-> _]; [|done]. by apply Hnew in Hp' as [-> _].
  - intros va Hva. unfold vvalid, pte_at. destruct (page_of (k_mem s) demo_child _) as [p|] eqn:Ep; [|done].
    apply Hnew in Ep as [Ep _]; [done|split; apply PX_range].
  - intros d Ho n Hn Hp. apply Hnew in Hp as [_ ->]; [|done]. destruct Ho as [(n' & Hn' & Hp)|(va & Hva & Hp)].
    + by apply (T4 n').
    + unfold vpage in Hp. rewrite Hin, Hpa in Hp by done. discriminate Hp.
  - done.
Qed.

Lemma uvmcopy_correct_witness : exists s', uvmcopy demo_root demo_child 4000 demo_parent_state = Ok 0 s' /\ vvalid (k_mem s') demo_child 0.
Proof.
  destruct demo_fork as (F & FO & _).
  destruct (uvmcopy_correct demo_root demo_child 4000 demo_parent_state F FO) as (r & s' & F' & E & _ & _ & _ & H); [split; discriminate|].
  assert (match uvmcopy demo_root demo_child 4000 demo_parent_state with Ok x _ => x =? 0 | _ => false end = true) as Hr by (vm_compute; reflexivity).
  rewrite E in Hr. apply Z.eqb_eq in Hr. subst r. exists s'. split; [exact E|].
  destruct H as [(_ & _ & H)|[H _]]; [|discriminate H]. apply (H 0). split; [discriminate|reflexivity].
Defined.

(** the second page is missing *)
Lemma uvmcopy_unmapped_panics_witness : exists msg s', uvmcopy demo_root demo_child 8192 demo_parent_state = Panic msg s' /\ msg ∈ hole_messages.
Proof.
  destruct demo_fork as (F & FO & Hu & Hv).
  destruct (uvmcopy_unmapped_panics demo_root demo_child 4096 8192 demo_parent_state F FO) as [H|(s' & F' & E & _)]; [reflexivity|reflexivity|exact Hv|exact Hu|exact H|].
  assert (match uvmcopy demo_root demo_child 8192 demo_parent_state with Ok _ _ => false | _ => true end = true) as Hr by (vm_compute; reflexivity).
  rewrite E in Hr. discriminate Hr.
Defined.
