(* ===== verification/VmFree.v ===== *)
(** Freeing page tables (kernel/vm.c): freewalk gives every page of a tree
    back to the allocator, uvmfree the pages of an address space. *)

From stdpp Require Import base gmap strings numbers list.
From S2P Require Import Prelude KState KString Spinlock Kalloc Vm VmPte VmTree VmSpec VmCopy VmFork.

(** * The pages of a tree of tables *)

Definition valid_entry (m : mem) (p i : Z) : bool := nz (Z.land (entry m p i) PTE_V).
Definition kid (m : mem) (p i : Z) : Z := PTE2PA (entry m p i).

(** the pages of the table [p] with [d] levels below it, in the order
    freewalk meets them *)
Fixpoint tpages (d : nat) (m : mem) (p : Z) : list Z :=
  p :: match d with
       | O => []
       | S d => flat_map (fun i => if valid_entry m p i then tpages d m (kid m p i) else []) (zseq 0 512)
       end.

(** valid entries are pointers, and the tables of the last level are empty *)
Fixpoint twf (d : nat) (m : mem) (p : Z) : Prop :=
  forall i, idx_ok i -> valid_entry m p i = true ->
    match d with
    | O => False
    | S d => Z.land (entry m p i) RWX = 0 /\ twf d m (kid m p i)
    end.

(** the subtrees at the indices [l] *)
Definition sub (d : nat) (m : mem) (p : Z) (l : list Z) : list Z :=
  flat_map (fun i => if valid_entry m p i then tpages d m (kid m p i) else []) l.

Definition same_on (P : list Z) (m m' : mem) : Prop :=
  forall q a, q ∈ P -> q <= a < q + PGSIZE -> ldb m' a = ldb m a.
Definition same_off (P : list Z) (m m' : mem) : Prop :=
  forall a, (forall q, q ∈ P -> a < q \/ q + PGSIZE <= a) -> ldb m' a = ldb m a.

Lemma same_on_entry P m m' p i : same_on P m m' -> p ∈ P -> idx_ok i -> entry m' p i = entry m p i.
Proof. intros H Hp Hi. apply ld64_ext. intros a Ha. pose proof (pte_addr_in p i Hi). apply (H p); [done|lia]. Qed.

Lemma same_on_sub P Q m m' : same_on P m m' -> Q ⊆ P -> same_on Q m m'.
Proof. intros H HQ q a Hq. apply H. by apply HQ. Qed.

Lemma tpages_self d m p : p ∈ tpages d m p.
Proof. destruct d; left. Qed.

Lemma elem_of_sub d m p l q : q ∈ sub d m p l <-> exists i, i ∈ l /\ valid_entry m p i = true /\ q ∈ tpages d m (kid m p i).
Proof.
  unfold sub. rewrite list_elem_of_In, in_flat_map. split.
  - intros (i & Hi & Hq). exists i. rewrite list_elem_of_In. destruct (valid_entry m p i); [|done]. by rewrite list_elem_of_In.
  - intros (i & Hi & Hv & Hq). exists i. rewrite <-list_elem_of_In. split; [done|]. rewrite Hv. by apply list_elem_of_In.
Qed.

Lemma sub_ext d m m' p l :
  (forall i, i ∈ l -> entry m' p i = entry m p i) ->
  (forall i, i ∈ l -> valid_entry m p i = true -> tpages d m' (kid m p i) = tpages d m (kid m p i)) ->
  sub d m' p l = sub d m p l.
Proof.
  intros He Ht. unfold sub. induction l as [|i l IH]; [done|]. cbn [flat_map]. f_equal.
  - unfold valid_entry, kid in *. rewrite He by left. destruct (nz _) eqn:Hv; [|done]. apply Ht; [left|done].
  - apply IH; intros; [apply He|apply Ht]; by try right.
Qed.

(** the tree is determined by the bytes of its pages *)
Lemma tpages_ext d m m' : forall p, same_on (tpages d m p) m m' -> tpages d m' p = tpages d m p.
Proof.
  induction d as [|d IH]; intros p H; [done|]. cbn [tpages]. f_equal. apply (sub_ext d m m' p).
  - intros i Hi. apply elem_of_zseq in Hi. eapply same_on_entry; [exact H|apply tpages_self|done].
  - intros i Hi Hv. apply IH. eapply same_on_sub; [exact H|]. intros q Hq. right. apply elem_of_sub. eauto.
Qed.

Lemma twf_ext d m m' : forall p, same_on (tpages d m p) m m' -> twf d m p -> twf d m' p.
Proof.
  induction d as [|d IH]; intros p H W i Hi; unfold valid_entry, kid;
    rewrite (same_on_entry _ m m' p i H (tpages_self _ _ _) Hi); intros Hv; [by apply (W i)|].
  destruct (W i Hi Hv) as [HX HW]. split; [done|]. apply IH; [|done].
  eapply same_on_sub; [exact H|]. intros q Hq. right. apply elem_of_sub. exists i. split; [by apply elem_of_zseq|done].
Qed.

(** * freewalk *)

(** [s'] has the pages [P] back on the free list, and only pages of [W] changed *)
Record gives_back (P W : list Z) (s : kstate) (F : list Z) (s' : kstate) (F' : list Z) : Prop := {
  gb_state : exists m fl, s' = with_mem m fl s;
  gb_free : free_pages s' F';
  gb_list : F' ≡ₚ P ++ F;
  gb_same : same_off W (k_mem s) (k_mem s')
}.

Lemma gives_back_lock P W s F s' F' l : gives_back P W s F s' F' -> lock_free l s -> lock_free l s'.
Proof. intros [(m & fl & ->) _ _ _] H. exact H. Qed.
Lemma gives_back_img P W s F s' F' : gives_back P W s F s' F' -> k_img s' = k_img s.
Proof. by intros [(m & fl & ->) _ _ _]. Qed.

Lemma gives_back_nil W s F : free_pages s F -> gives_back [] W s F s F.
Proof. intros H. split; [by exists (k_mem s), (k_freelist s)|done|done|done]. Qed.

Lemma gives_back_app P Q W s F s1 F1 s2 F2 :
  gives_back P W s F s1 F1 -> gives_back Q W s1 F1 s2 F2 -> gives_back (P ++ Q) W s F s2 F2.
Proof.
  intros [(m1 & f1 & E1) A1 L1 S1] [(m2 & f2 & E2) A2 L2 S2]. split; [|done| |].
  - exists m2, f2. by rewrite E2, E1.
  - rewrite L2, L1. by rewrite <-!app_assoc, (Permutation_app_swap_app P Q).
  - intros a Ha. by rewrite S2, S1.
Qed.

Lemma gives_back_mono P W W' s F s' F' : gives_back P W s F s' F' -> W ⊆ W' -> gives_back P W' s F s' F'.
Proof. intros [E A L S] H. split; [done..|]. intros a Ha. apply S. intros q Hq. apply Ha. by apply H. Qed.

Lemma gives_back_one p s F : free_pages s F -> lock_free LKmem s -> good_page (k_img s) p -> p ∉ F ->
  exists s', kfree p s = Ok tt s' /\ gives_back [p] [p] s F s' (p :: F).
Proof.
  intros Hf Hl Hg Hn. destruct (kfree_pushes p s F Hf Hl Hg Hn) as (s' & E & Hf' & _). exists s'. split; [done|].
  rewrite kfree_run in E by done. injection E as <-. split; [by eexists _, _|done|done|].
  intros a Ha. assert (a < p \/ p + PGSIZE <= a) as Hap by (apply Ha; left).
  change (ldb (kfree_mem (k_mem s) p (k_freelist s)) a = ldb (k_mem s) a). unfold kfree_mem.
  rewrite ldb_st64_out by (unfold PGSIZE in *; lia). by apply ldb_memset_out.
Qed.

(** a store into a page that is not free *)
Lemma gives_back_store p i x s F : free_pages s F -> p mod PGSIZE = 0 -> idx_ok i -> p ∉ F ->
  gives_back [] [p] s F (set_mem (fun m => st64 m (pte_addr p i) x) s) F.
Proof.
  intros [C G N] Hp Hi Hn. pose proof (pte_addr_in p i Hi).
  assert (forall a, a < p \/ p + PGSIZE <= a -> ldb (st64 (k_mem s) (pte_addr p i) x) a = ldb (k_mem s) a) as Hs.
  { intros a Ha. apply ldb_st64_out. lia. }
  split; [by eexists _, _| |done|].
  - split; [|done|done]. by apply (chain_write_page (k_mem s) _ p _ F (k_img s)).
  - intros a Ha. apply Hs, Ha. left.
Qed.

(** a page off [P] is the same page *)
Lemma same_off_on P Q m m' : same_off P m m' -> (forall p q, p ∈ P -> q ∈ Q -> page_disjoint p q) -> same_on Q m m'.
Proof.
  intros H D q a Hq Ha. apply H. intros p Hp. specialize (D p q Hp Hq). unfold page_disjoint in D. lia.
Qed.

Definition aligned_pages (P : list Z) : Prop := forall p, p ∈ P -> p mod PGSIZE = 0.
Lemma apart_disjoint P Q : aligned_pages P -> aligned_pages Q -> (forall p, p ∈ P -> p ∈ Q -> False) ->
  forall p q, p ∈ P -> q ∈ Q -> page_disjoint p q.
Proof. intros HP HQ H p q Hp Hq. apply aligned_disjoint; [auto|auto|]. intros ->. by apply (H q). Qed.

(** the body of freewalk's loop *)
Definition fw_body (n : nat) (p i : Z) : K unit :=
  let! pte := load64 (pte_addr p i) in
  if nz (Z.land pte PTE_V) && (Z.land pte (orl [PTE_R; PTE_W; PTE_X]) =? 0)
  then freewalk n (PTE2PA pte) ;; store64 (pte_addr p i) 0
  else if nz (Z.land pte PTE_V) then panic "freewalk: leaf"
  else ret tt.

Lemma freewalk_S n p : freewalk (S n) p = (forM_ (zseq 0 512) (fw_body n p) ;; kfree p).
Proof. reflexivity. Qed.

(** freewalk works on trees of [d] levels *)
Definition frees (d n : nat) : Prop := forall s p F, twf d (k_mem s) p -> free_pages s F -> lock_free LKmem s ->
  Forall (good_page (k_img s)) (tpages d (k_mem s) p) -> NoDup (tpages d (k_mem s) p ++ F) ->
  exists s' F', freewalk n p s = Ok tt s' /\ gives_back (tpages d (k_mem s) p) (tpages d (k_mem s) p) s F s' F'.

Lemma fw_body_skip n p i s : valid_entry (k_mem s) p i = false -> fw_body n p i s = Ok tt s.
Proof.
  intros H. unfold fw_body, load64. mstep. change (ld64 (k_mem s) (pte_addr p i)) with (entry (k_mem s) p i).
  unfold valid_entry in H. by rewrite H.
Qed.

Lemma fw_body_run d n p i s F : frees d n -> idx_ok i -> valid_entry (k_mem s) p i = true ->
  Z.land (entry (k_mem s) p i) RWX = 0 -> twf d (k_mem s) (kid (k_mem s) p i) -> free_pages s F -> lock_free LKmem s ->
  p mod PGSIZE = 0 -> p ∉ F ->
  let T := tpages d (k_mem s) (kid (k_mem s) p i) in Forall (good_page (k_img s)) T -> NoDup (T ++ F) -> p ∉ T ->
  exists s' F', fw_body n p i s = Ok tt s' /\ gives_back T (p :: T) s F s' F' /\
    forall i', idx_ok i' -> i' <> i -> entry (k_mem s') p i' = entry (k_mem s) p i'.
Proof.
  intros Hfr Hi Hv HX HW Hf Hl Hp HpF T HT HN HpT.
  destruct (Hfr s (kid (k_mem s) p i) F HW Hf Hl HT HN) as (s1 & F1 & E1 & G1). fold T in G1.
  assert (p ∉ F1) as Hp1 by (rewrite (gb_list _ _ _ _ _ _ G1), elem_of_app; tauto).
  pose proof (gives_back_store p i 0 s1 F1 (gb_free _ _ _ _ _ _ G1) Hp Hi Hp1) as G2.
  eexists _, F1. split; [|split].
  - unfold fw_body, load64. mstep. change (ld64 (k_mem s) (pte_addr p i)) with (entry (k_mem s) p i).
    unfold valid_entry in Hv. rewrite Hv. change (orl [PTE_R; PTE_W; PTE_X]) with RWX. rewrite HX. change (true && (0 =? 0)) with true.
    cbv iota. erewrite bind_ok by exact E1. reflexivity.
  - rewrite <-(app_nil_r T) at 1. eapply gives_back_app.
    + eapply gives_back_mono; [exact G1|]. intros q Hq. by right.
    + eapply gives_back_mono; [exact G2|]. intros q Hq. apply list_elem_of_singleton in Hq as ->. left.
  - intros i' Hi' Hne. transitivity (entry (k_mem s1) p i').
    + apply ld64_st64_ne. unfold pte_addr, idx_ok in *. lia.
    + apply (same_on_entry [p]); [|left|done]. eapply same_off_on; [apply G1|]. apply apart_disjoint.
      * intros q Hq. rewrite Forall_forall in HT. apply (HT q Hq).
      * by intros q ->%list_elem_of_singleton.
      * by intros q Hq ->%list_elem_of_singleton.
Qed.

Lemma fw_loop d n p : frees d n -> forall l s F, NoDup l -> (forall i, i ∈ l -> idx_ok i) ->
  (forall i, i ∈ l -> valid_entry (k_mem s) p i = true -> Z.land (entry (k_mem s) p i) RWX = 0 /\ twf d (k_mem s) (kid (k_mem s) p i)) ->
  free_pages s F -> lock_free LKmem s -> p mod PGSIZE = 0 -> p ∉ F ->
  let T := sub d (k_mem s) p l in Forall (good_page (k_img s)) T -> NoDup (T ++ F) -> p ∉ T ->
  exists s' F', forM_ l (fw_body n p) s = Ok tt s' /\ gives_back T (p :: T) s F s' F'.
Proof.
  intros Hfr. induction l as [|i l IH]; intros s F Hnd Hidx HW Hf Hl Hp HpF T HT HN HpT.
  { exists s, F. split; [done|]. by apply gives_back_nil. }
  apply NoDup_cons in Hnd as [Hil Hnd]. cbn [forM_]. destruct (valid_entry (k_mem s) p i) eqn:Hv.
  - assert (T = tpages d (k_mem s) (kid (k_mem s) p i) ++ sub d (k_mem s) p l) as ET by (unfold T, sub; cbn [flat_map]; by rewrite Hv).
    set (T1 := tpages d (k_mem s) (kid (k_mem s) p i)) in *. set (T2 := sub d (k_mem s) p l) in *. rewrite ET in HT, HN, HpT.
    apply Forall_app in HT as [G1 G2]. rewrite <-app_assoc in HN. apply NoDup_app in HN as (N1 & N12 & N2).
    destruct (HW i ltac:(left) Hv) as [HX Hw].
    destruct (fw_body_run d n p i s F Hfr) as (s1 & F1 & E1 & B1 & He); fold T1; [apply Hidx; left|done|done|done|done|done|done|done|done| |set_solver|].
    { apply NoDup_app. apply NoDup_app in N2 as (_ & _ & N2). split_and!; [done| |done]. intros q Hq HF. apply (N12 q Hq). set_solver. }
    assert (aligned_pages T1 /\ aligned_pages T2) as [A1 A2].
    { rewrite Forall_forall in G1. rewrite Forall_forall in G2. split; intros q Hq; [apply (G1 q Hq)|apply (G2 q Hq)]. }
    assert (same_on T2 (k_mem s) (k_mem s1)) as Hsame.
    { eapply same_off_on; [apply B1|]. apply apart_disjoint; [intros q [->|Hq]%elem_of_cons; auto|done|].
      intros q [->|Hq]%elem_of_cons H2; [set_solver|]. apply (N12 q Hq). set_solver. }
    assert (forall i', i' ∈ l -> entry (k_mem s1) p i' = entry (k_mem s) p i') as He'.
    { intros i' Hi'. apply He; [apply Hidx; by right|]. by intros ->. }
    assert (forall i', i' ∈ l -> valid_entry (k_mem s) p i' = true -> same_on (tpages d (k_mem s) (kid (k_mem s) p i')) (k_mem s) (k_mem s1)) as Ht.
    { intros i' Hi' Hv'. eapply same_on_sub; [exact Hsame|]. intros q Hq. apply elem_of_sub. eauto. }
    assert (sub d (k_mem s1) p l = T2) as E2 by (apply sub_ext; [done|]; intros i' Hi' Hv'; apply tpages_ext; auto).
    destruct (IH s1 F1) as (s2 & F2 & EL & B2); rewrite ?E2; try done.
    + intros i' Hi'. apply Hidx. by right.
    + intros i' Hi'. unfold valid_entry, kid. rewrite He' by done. intros Hv'. destruct (HW i' ltac:(by right) Hv') as [HX' Hw'].
      split; [done|]. apply (twf_ext d (k_mem s)); [by apply Ht|done].
    + apply B1.
    + by eapply gives_back_lock.
    + rewrite (gb_list _ _ _ _ _ _ B1). set_solver.
    + by rewrite (gives_back_img _ _ _ _ _ _ B1).
    + rewrite (gb_list _ _ _ _ _ _ B1), Permutation_app_swap_app. apply NoDup_app. split_and!; done.
    + set_solver.
    + exists s2, F2. split; [by erewrite bind_ok by exact E1|]. rewrite ET. rewrite E2 in B2.
      eapply gives_back_app; (eapply gives_back_mono; [done|set_solver]).
  - assert (T = sub d (k_mem s) p l) as ET by (unfold T, sub; cbn [flat_map]; by rewrite Hv). rewrite ET in *.
    destruct (IH s F) as (s2 & F2 & EL & B2); try done.
    + intros i' Hi'. apply Hidx. by right.
    + intros i' Hi'. apply HW. by right.
    + exists s2, F2. split; [|done]. by erewrite bind_ok by (by apply fw_body_skip).
Qed.

Lemma list_subseteq_cons_one (p : Z) T : [p] ⊆ p :: T.
Proof. intros q Hq. apply list_elem_of_singleton in Hq as ->. left. Qed.

(** every page of the tree goes back to the allocator, once *)
Lemma freewalk_run d : forall n, (d < n)%nat -> frees d n.
Proof.
  induction d as [|d IH]; intros n Hn; (destruct n as [|n]; [lia|]); intros s p F HW Hf Hl HT HN.
  - cbn [tpages] in *. pose proof (proj1 (Forall_singleton _ _) HT) as Hg. apply NoDup_app in HN as (_ & HpF & _).
    destruct (gives_back_one p s F Hf Hl Hg (HpF p ltac:(left))) as (s' & E & B). exists s', (p :: F). split; [|done].
    rewrite freewalk_S. erewrite bind_ok; [exact E|]. assert (forall l, (forall i, i ∈ l -> idx_ok i) -> forM_ l (fw_body n p) s = Ok tt s) as H.
    { induction l as [|i l IHl]; intros Hi; [done|]. cbn [forM_]. erewrite bind_ok.
      - apply IHl. intros j Hj. apply Hi. by right.
      - apply fw_body_skip. destruct (valid_entry (k_mem s) p i) eqn:Hv; [|done]. destruct (HW i (Hi i ltac:(left)) Hv). }
    apply H. intros i Hi. by apply elem_of_zseq in Hi.
  - change (tpages (S d) (k_mem s) p) with (p :: sub d (k_mem s) p (zseq 0 512)) in *. set (T := sub d (k_mem s) p (zseq 0 512)) in *.
    apply Forall_cons in HT as [Hg HT]. cbn [app] in HN. apply NoDup_cons in HN as [Hp HN].
    rewrite elem_of_app in Hp.
    destruct (fw_loop d n p (IH n ltac:(lia)) (zseq 0 512) s F) as (s1 & F1 & E1 & B1);
      [apply NoDup_zseq|intros i Hi; by apply elem_of_zseq in Hi| |exact Hf|exact Hl|apply Hg|tauto|exact HT|exact HN|tauto|].
    { intros i Hi Hv. apply elem_of_zseq in Hi. exact (HW i Hi Hv). }
    fold T in B1. clearbody T. destruct (gives_back_one p s1 F1) as (s2 & E2 & B2).
    + apply B1.
    + by eapply gives_back_lock.
    + by rewrite (gives_back_img _ _ _ _ _ _ B1).
    + rewrite (gb_list _ _ _ _ _ _ B1), elem_of_app. exact Hp.
    + exists s2, (p :: F1). split; [rewrite freewalk_S; by erewrite bind_ok by exact E1|].
      pose proof (gives_back_app _ _ (p :: T) _ _ _ _ _ _ B1 (gives_back_mono _ _ (p :: T) _ _ _ _ B2 (list_subseteq_cons_one p T))) as [X1 X2 X3 X4].
      split; [done|done| |done]. rewrite X3. by rewrite (Permutation_app_comm T [p]).
Qed.

(** ** The tree of a well-formed address space *)

(** the address with the given indices *)
Definition va_of (i j k : Z) : Z := (i * 512 + j) * 2097152 + k * 4096.

Lemma va_of_PX i j k : 0 <= i < 256 -> idx_ok j -> idx_ok k ->
  0 <= va_of i j k < MAXVA /\ PX 2 (va_of i j k) = i /\ PX 1 (va_of i j k) = j /\ PX 0 (va_of i j k) = k.
Proof.
  unfold idx_ok, va_of. intros Hi Hj Hk. change MAXVA with (2 ^ 38). split; [lia|].
  rewrite !PX_div by lia. change (12 + 9 * 2) with 30. change (12 + 9 * 1) with 21. change (12 + 9 * 0) with 12.
  split_and!; Z.to_euclidean_division_equations; lia.
Qed.

Definition empty_space (m : mem) (root : Z) : Prop := forall va, 0 <= va < MAXVA -> ~ vvalid m root va.

Section tree.
Context (im : image) (m : mem) (root : Z) (F : list Z).
Hypothesis I : pt_inv im m root F.
Hypothesis P : ptrs m root.

Lemma page_N1 i : page_of m root (N1 i) = if valid_entry m root i then Some (kid m root i) else None.
Proof. reflexivity. Qed.
Lemma page_N0 i j q : page_of m root (N1 i) = Some q -> page_of m root (N0 i j) = if valid_entry m q j then Some (kid m q j) else None.
Proof. intros H. change (page_of m root (N0 i j)) with (next m (page_of m root (N1 i)) j). by rewrite H. Qed.

(** the pages of the subtree at [i], and of the whole tree *)
Lemma elem_tpages1 i q x : idx_ok i -> page_of m root (N1 i) = Some q ->
  x ∈ tpages 1 m q <-> x = q \/ exists j, idx_ok j /\ page_of m root (N0 i j) = Some x.
Proof.
  intros Hi Hq. change (tpages 1 m q) with (q :: sub 0 m q (zseq 0 512)). rewrite elem_of_cons, elem_of_sub. f_equiv. split.
  - intros (j & Hj & Hv & Hx). apply elem_of_zseq in Hj. apply list_elem_of_singleton in Hx as ->. exists j. split; [done|].
    rewrite (page_N0 i j q) by done. by rewrite Hv.
  - intros (j & Hj & Hx). rewrite (page_N0 i j q) in Hx by done. exists j. destruct (valid_entry m q j); [|done].
    injection Hx as <-. split; [by apply elem_of_zseq|]. split; [done|left].
Qed.

Lemma elem_tpages2 x : x ∈ tpages 2 m root <-> exists n, node_ok n /\ page_of m root n = Some x.
Proof.
  change (tpages 2 m root) with (root :: sub 1 m root (zseq 0 512)). rewrite elem_of_cons, elem_of_sub. split.
  - intros [->|(i & Hi & Hv & Hx)]; [by exists NRoot|]. apply elem_of_zseq in Hi.
    assert (page_of m root (N1 i) = Some (kid m root i)) as Hp by (by rewrite page_N1, Hv).
    apply (elem_tpages1 i) in Hx as [->|(j & Hj & Hx)]; [by exists (N1 i)|by exists (N0 i j)|done|done].
  - intros (n & Hn & Hx). destruct n as [|i|i j]; [left; by injection Hx as <-|right; exists i|right; exists i].
    + rewrite page_N1 in Hx. destruct (valid_entry m root i); [|done]. injection Hx as <-. split; [by apply elem_of_zseq|]. split; [done|left].
    + destruct Hn as [Hi Hj]. destruct (valid_entry m root i) eqn:Hv.
      * assert (page_of m root (N1 i) = Some (kid m root i)) as Hp by (by rewrite page_N1, Hv).
        split; [by apply elem_of_zseq|]. split; [done|]. apply (elem_tpages1 i); [done|done|]. right. eauto.
      * change (page_of m root (N0 i j)) with (next m (page_of m root (N1 i)) j) in Hx. by rewrite page_N1, Hv in Hx.
Qed.

Lemma NoDup_sub d p l : NoDup l -> (forall i, i ∈ l -> valid_entry m p i = true -> NoDup (tpages d m (kid m p i))) ->
  (forall i j x, i ∈ l -> j ∈ l -> valid_entry m p i = true -> valid_entry m p j = true ->
     x ∈ tpages d m (kid m p i) -> x ∈ tpages d m (kid m p j) -> i = j) -> NoDup (sub d m p l).
Proof.
  intros Hl H1 H2. unfold sub. change (NoDup (l ≫= fun i => if valid_entry m p i then tpages d m (kid m p i) else [])).
  apply NoDup_bind; [|intros i Hi; destruct (valid_entry m p i) eqn:E; [by apply H1|constructor]|done].
  intros i j x Hi Hj. destruct (valid_entry m p i) eqn:E1, (valid_entry m p j) eqn:E2; try (intros Hx Hy; by apply elem_of_nil in Hx || by apply elem_of_nil in Hy).
  intros Hx Hy. by apply (H2 i j x).
Qed.

Lemma NoDup_tpages1 i q : idx_ok i -> page_of m root (N1 i) = Some q -> NoDup (tpages 1 m q).
Proof.
  intros Hi Hq. change (tpages 1 m q) with (q :: sub 0 m q (zseq 0 512)).
  assert (forall j, idx_ok j -> valid_entry m q j = true -> page_of m root (N0 i j) = Some (kid m q j)) as Hj.
  { intros j Hj Hv. by rewrite (page_N0 i j q), Hv by done. }
  apply NoDup_cons. split.
  - rewrite elem_of_sub. intros (j & Hjl & Hv & Hx). apply elem_of_zseq in Hjl. apply list_elem_of_singleton in Hx as Hx.
    pose proof (Hj j Hjl Hv) as Hp. rewrite <-Hx in Hp.
    by pose proof (pt_inj _ _ _ _ I (N1 i) (N0 i j) q Hi (conj Hi Hjl) Hq Hp).
  - apply NoDup_sub; [apply NoDup_zseq|intros; apply NoDup_singleton|].
    intros j j' x Hjl Hjl' Hv Hv' Hx Hx'. apply elem_of_zseq in Hjl, Hjl'.
    apply list_elem_of_singleton in Hx as ->. apply list_elem_of_singleton in Hx' as Hx'.
    pose proof (Hj j Hjl Hv) as H1. pose proof (Hj j' Hjl' Hv') as H2. rewrite <-Hx' in H2.
    by pose proof (pt_inj _ _ _ _ I (N0 i j) (N0 i j') _ (conj Hi Hjl) (conj Hi Hjl') H1 H2) as [= ->].
Qed.

Lemma subtree_node i q x : idx_ok i -> page_of m root (N1 i) = Some q -> x ∈ tpages 1 m q ->
  exists n, node_ok n /\ page_of m root n = Some x /\ (n = N1 i \/ exists j, n = N0 i j).
Proof.
  intros Hi Hq Hx. apply (elem_tpages1 i) in Hx as [->|(j & Hj & Hx)]; [exists (N1 i); eauto|exists (N0 i j)|done|done].
  split_and!; [done|done|by right; exists j].
Qed.

Lemma NoDup_tpages2 : NoDup (tpages 2 m root).
Proof.
  change (tpages 2 m root) with (root :: sub 1 m root (zseq 0 512)).
  assert (forall i, valid_entry m root i = true -> page_of m root (N1 i) = Some (kid m root i)) as Hp.
  { intros i Hv. by rewrite page_N1, Hv. }
  apply NoDup_cons. split.
  - rewrite elem_of_sub. intros (i & Hi & Hv & Hx). apply elem_of_zseq in Hi.
    destruct (subtree_node i _ root Hi (Hp i Hv) Hx) as (n & Hn & Hpn & Hc).
    pose proof (pt_inj _ _ _ _ I NRoot n root Logic.I Hn eq_refl Hpn) as <-. destruct Hc as [?|[??]]; done.
  - apply NoDup_sub; [apply NoDup_zseq| |].
    + intros i Hi Hv. apply elem_of_zseq in Hi. apply (NoDup_tpages1 i); [done|auto].
    + intros i i' x Hi Hi' Hv Hv' Hx Hx'. apply elem_of_zseq in Hi, Hi'.
      destruct (subtree_node i _ x Hi (Hp i Hv) Hx) as (n & Hn & Hpn & Hc).
      destruct (subtree_node i' _ x Hi' (Hp i' Hv') Hx') as (n' & Hn' & Hpn' & Hc').
      pose proof (pt_inj _ _ _ _ I n n' x Hn Hn' Hpn Hpn') as <-. destruct Hc as [->|[j ->]], Hc' as [E|[j' E]]; congruence.
Qed.

Lemma twf_empty : empty_space m root -> twf 2 m root.
Proof.
  intros He i Hi Hv. assert (i < 256) as Hlow.
  { destruct (decide (i < 256)); [done|]. unfold valid_entry, idx_ok in *. by rewrite (pr_high _ _ P) in Hv by lia. }
  split; [by apply (pr_inner _ _ P NRoot)|]. assert (page_of m root (N1 i) = Some (kid m root i)) as Hp by (by rewrite page_N1, Hv).
  intros j Hj Hvj. split; [by apply (pr_inner _ _ P (N1 i) _ j)|].
  assert (page_of m root (N0 i j) = Some (kid m (kid m root i) j)) as Hp0 by (by rewrite (page_N0 i j _ Hp), Hvj).
  intros k Hk Hvk. destruct (va_of_PX i j k) as (Hva & E2 & E1 & E0); [unfold idx_ok in *; lia|done|done|].
  apply (He _ Hva). unfold vvalid, pte_at. rewrite E2, E1, E0, Hp0. exact Hvk.
Qed.
End tree.

(** freewalk of an address space with nothing mapped frees its tables *)
Lemma freewalk_space s root F : vm_ok s root F -> ptrs (k_mem s) root -> empty_space (k_mem s) root ->
  exists s' F', freewalk 4 root s = Ok tt s' /\ gives_back (tpages 2 (k_mem s) root) (tpages 2 (k_mem s) root) s F s' F'.
Proof.
  intros [V1 V2 V3] P He. apply (freewalk_run 2 4 ltac:(lia)); [by eapply twf_empty|done|done|..].
  - apply Forall_forall. intros q (n & Hn & Hq)%elem_tpages2. by apply (pt_good _ _ _ _ V2 n).
  - apply NoDup_app. split_and!; [by eapply NoDup_tpages2| |apply V1]. intros q (n & Hn & Hq)%elem_tpages2. by apply (pt_good _ _ _ _ V2 n).
Qed.

(** * uvmfree *)

(** uvmunmap of one page that is not to be freed: the entry is cleared *)
Lemma unmap_keep s root F va : vm_ok s root F -> va mod PGSIZE = 0 -> 0 <= va -> va + PGSIZE <= MAXVA ->
  exists s', uvmunmap root va 1 false s = Ok tt s' /\ grows root s F s' F /\
    (forall n, node_ok n -> page_of (k_mem s') root n = page_of (k_mem s) root n) /\ ~ vvalid (k_mem s') root va /\
    forall va', 0 <= va' < MAXVA -> va' / PGSIZE <> va / PGSIZE -> pte_at (k_mem s') root va' = pte_at (k_mem s) root va'.
Proof.
  intros V Hal H0 Hmax. assert (0 < PGSIZE /\ MAXVA < 2 ^ 40) as [HP HM] by done.
  assert (uvmunmap root va 1 false s = whileM 2 (uvmunmap_body root (va + PGSIZE) false) va s) as E0.
  { unfold uvmunmap. rewrite Hal. cbn [Z.eqb negb]. by rewrite Z.mul_1_l, u64_small by lia. }
  assert (forall s1, whileM 1 (uvmunmap_body root (va + PGSIZE) false) (u64 (va + PGSIZE)) s1 = Ok tt s1) as E1.
  { intros s1. apply whileM_stop. unfold uvmunmap_body. rewrite u64_small by lia. by rewrite Z.ltb_irrefl. }
  assert (exists s', uvmunmap_body root (va + PGSIZE) false va s = Ok (inl (u64 (va + PGSIZE))) s' /\ grows root s F s' F /\
    (forall n, node_ok n -> page_of (k_mem s') root n = page_of (k_mem s) root n) /\ ~ vvalid (k_mem s') root va /\
    forall va', 0 <= va' < MAXVA -> va' / PGSIZE <> va / PGSIZE -> pte_at (k_mem s') root va' = pte_at (k_mem s) root va') as (s' & E & H).
  { destruct (decide (vvalid (k_mem s) root va)) as [Hv|Hv].
    - destruct (vvalid_ptr s root F va V Hv) as (p & Hp & Eptr & Hne & Hl).
      assert (node_ok (N0 (PX 2 va) (PX 1 va))) as Hno by (split; apply PX_range).
      pose proof (store_leaf_grows s root F _ _ p (PX 0 va) 0 V Hno (PX_range _ _) Hp) as Gr.
      destruct (pte_at_store_leaf _ (k_mem s) root F va p 0 (vo_pt _ _ _ V)) as [Hz Ho]; [done|lia|done|].
      eexists. split; [|split; [exact Gr|]].
      + unfold uvmunmap_body. rewrite (proj2 (Z.ltb_lt _ _)) by lia. cbn [negb]. erewrite bind_ok by (apply walk_noalloc; lia).
        rewrite (proj2 (Z.eqb_neq _ _) Hne), Eptr. unfold load64. mstep. rewrite Hl. unfold vvalid, nz in Hv.
        destruct (Z.land (pte_at (k_mem s) root va) PTE_V =? 0); [done|]. unfold whenM, store64. mstep. mstep. reflexivity.
      + split; [|split; [|exact Ho]].
        * apply (page_of_store_leaf (k_img s) (k_mem s) root F (PX 2 va) (PX 1 va)); [apply V|done|apply PX_range|done].
        * unfold vvalid. change (nz (Z.land (pte_at (st64 (k_mem s) (pte_addr p (PX 0 va)) 0) root va) PTE_V) <> true). by rewrite Hz.
    - exists s. split; [|split; [by apply grows_refl|done]].
      unfold uvmunmap_body. rewrite (proj2 (Z.ltb_lt _ _)) by lia. cbn [negb]. erewrite bind_ok by (apply walk_noalloc; lia).
      destruct (pte_ptr_cases _ _ _ _ va (vo_pt _ _ _ V)) as [[-> _]|(Hne & Hl & _)]; [done|].
      rewrite (proj2 (Z.eqb_neq _ _) Hne). unfold load64. mstep. rewrite Hl.
      unfold vvalid, nz in Hv. destruct (Z.land (pte_at (k_mem s) root va) PTE_V =? 0); [done|]. by destruct Hv. }
  exists s'. split; [|done]. rewrite E0. by rewrite (whileM_step _ _ _ _ _ _ E), E1.
Qed.

(** the pages an address space owns: its tables, and the data below [hi] *)
Definition space_page (m : mem) (root hi p : Z) : Prop :=
  (exists n, node_ok n /\ page_of m root n = Some p) \/ exists va, 0 <= va < hi /\ vvalid m root va /\ vpage m root va = p.

(** exactly those pages are free now in addition, and no other page changed *)
Record space_freed (root hi : Z) (s : kstate) (F : list Z) (s' : kstate) (F' : list Z) : Prop := {
  sf_state : exists m fl, s' = with_mem m fl s;
  sf_free : free_pages s' F';
  sf_list p : p ∈ F' <-> p ∈ F \/ space_page (k_mem s) root hi p;
  sf_same d : d mod PGSIZE = 0 -> d ∉ F' -> forall a, d <= a < d + PGSIZE -> ldb (k_mem s') a = ldb (k_mem s) a
}.

Lemma uvmfree_run s root F sz : vm_ok s root F -> ptrs (k_mem s) root -> 0 <= sz <= MAXVA - PGSIZE ->
  data_ok (k_img s) (k_mem s) root F 0 (PGROUNDUP sz) ->
  (forall va, PGROUNDUP sz <= va < MAXVA -> ~ vvalid (k_mem s) root va) ->
  exists s' F', uvmfree root sz s = Ok tt s' /\ space_freed root (PGROUNDUP sz) s F s' F'.
Proof.
  intros V P Hsz D Hout. assert (0 < PGSIZE) as HP by done.
  assert (PGROUNDUP sz = (sz + PGSIZE - 1) / PGSIZE * PGSIZE) as Eup.
  { apply PGROUNDUP_div. change MAXVA with (2 ^ 38) in Hsz. unfold PGSIZE in *. lia. }
  assert (0 <= PGROUNDUP sz <= MAXVA /\ PGROUNDUP sz / PGSIZE * PGSIZE = PGROUNDUP sz /\ 0 <= PGROUNDUP sz / PGSIZE) as (Hup & Ediv & Hk).
  { change MAXVA with (2 ^ 38) in *. rewrite Eup. unfold PGSIZE in *. Z.to_euclidean_division_equations; lia. }
  assert (exists s1 F1, whenM (0 <? sz) (uvmunmap root 0 (PGROUNDUP sz / PGSIZE) true) s = Ok tt s1 /\ unmapped root 0 (PGROUNDUP sz) s F s1 F1)
    as (s1 & F1 & E1 & [Sh Hgone Hoth Hfree]).
  { destruct (uvmunmap_run s root F (Z.to_nat (PGROUNDUP sz / PGSIZE)) 0 V) as (s1 & F1 & E1 & U);
      rewrite ?Z2Nat.id, ?Z.add_0_l, ?Ediv in * by done; try (done || lia).
    destruct (Z.ltb_spec 0 sz) as [Hpos|Hpos]; [by exists s1, F1|]. exists s, F. split; [done|].
    assert (PGROUNDUP sz = 0) as -> by (replace sz with 0 by lia; done).
    split; [by apply shrinks_refl|lia|done|]. intros p. split; [by left|]. intros [H|(va & Hva & _)]; [done|lia]. }
  destruct (freewalk_space s1 root F1 (sh_ok _ _ _ _ _ Sh) (sh_ptrs _ _ _ _ _ Sh P)) as (s2 & F2 & E2 & B2).
  { intros va Hva. destruct (decide (va < PGROUNDUP sz)); [apply Hgone; lia|]. unfold vvalid. rewrite Hoth by lia. apply Hout. lia. }
  exists s2, F2. split; [unfold uvmfree; by erewrite bind_ok by exact E1|].
  assert (forall q, q ∈ tpages 2 (k_mem s1) root <-> exists n, node_ok n /\ page_of (k_mem s) root n = Some q) as HT.
  { intros q. rewrite elem_tpages2. split; intros (n & Hn & Hp); exists n; (split; [done|]);
      by rewrite (sh_pages _ _ _ _ _ Sh) in * by done. }
  assert (forall p, p ∈ F2 <-> p ∈ F \/ space_page (k_mem s) root (PGROUNDUP sz) p) as HF.
  { intros p. rewrite (gb_list _ _ _ _ _ _ B2), elem_of_app, HT, Hfree. unfold space_page. tauto. }
  split.
  - destruct (gb_state _ _ _ _ _ _ B2) as (m2 & f2 & ->). destruct (sh_state _ _ _ _ _ Sh) as (m1 & f1 & ->). by exists m2, f2.
  - apply B2.
  - exact HF.
  - intros d Hd HdF a Ha. rewrite HF in HdF. transitivity (ldb (k_mem s1) a).
    + eapply (same_off_on _ [d]); [apply B2| |left|exact Ha]. apply apart_disjoint; [|by intros q ->%list_elem_of_singleton|].
      * intros q (n & Hn & Hq)%HT. apply (pt_good _ _ _ _ (vo_pt _ _ _ V) n q Hn Hq).
      * intros q Hq ->%list_elem_of_singleton. apply HdF. right. left. by apply HT.
    + apply (sh_data _ _ _ _ _ Sh d); [done| | |done].
      * rewrite Hfree. unfold space_page in HdF. tauto.
      * intros n Hn Hp. apply HdF. right. left. by exists n.
Qed.
