(* ===== verification/ProcSync.v ===== *)
(** kernel/proc.c, first part: the switch to the scheduler and the
    synchronisation primitives built on it (sched, yield, sleep, wakeup, kkill,
    setkilled, killed, scheduler), and kernel/sleeplock.c.

    [swtch] is the outcome [Susp]: the state the kernel thread leaves behind
    and the continuation it runs when it is switched back to, whatever the
    other threads have made of the state by then.  The saved registers
    ([p->context]) of a suspended thread are that continuation. *)

From stdpp Require Import base gmap strings numbers list.
From S2P Require Import Prelude KState KString Spinlock.

(** * Definitions *)

(** the bound of the model on how often a thread finds its condition still
    false after a wakeup: the [while(..) sleep(..)] loops of the kernel *)
Definition WAKEUPS : nat := Nat.pow 2 12.

(** [swtch]: leave the hart to another thread *)
Definition swtch : K unit := fun s => Susp s (fun s' => Ok tt s').

Definition sched : K unit :=
  let! p := myproc_deref in
  let! hl := holding (LProc p) in
  if negb (nz hl) then panic "sched p->lock"
  else
  let! noff := gets (fun s => h_noff (k_hart s)) in
  if negb (noff =? 1) then panic "sched locks"
  else
  let! pr := get_proc p in
  if bool_decide (p_state pr = RUNNING) then panic "sched RUNNING"
  else
  let! i := intr_get in
  if nz i then panic "sched interruptible"
  else
  let! intena := gets (fun s => h_intena (k_hart s)) in
  swtch ;;
  modify (set_hart (h_set_intena (fun _ => intena))).

Definition yield : K unit :=
  let! p := myproc_deref in
  acquire (LProc p) ;;
  modify (upd_proc p (p_set_state (fun _ => RUNNABLE))) ;;
  sched ;;
  release (LProc p).

(** A kernel thread as the sequence of the statements it executes on shared
    state: other harts run between two of them.  [seqrun] is the thread on a
    hart that nobody interleaves with. *)
Inductive thr : Type :=
| Done
| Do {A : Type} (m : K A) (k : A -> thr).

Fixpoint seqrun (t : thr) : K unit :=
  match t with
  | Done => ret tt
  | Do m k => let! a := m in seqrun (k a)
  end.

Notation "'do!' x ':=' m 'in' k" := (Do m (fun x => k))
  (at level 10, x name, m at level 99, k at level 200) : kernel_scope.
Notation "m '>>' k" := (Do m (fun _ => k)) (at level 100, k at level 200, right associativity) : kernel_scope.

(** [sleep], then [k] *)
Definition sleep_thr (ch : chan) (lk : lockid) (k : thr) : thr :=
  do! p := myproc_deref in
  acquire (LProc p) >>
  release lk >>
  modify (upd_proc p (p_set_chan (fun _ => ch))) >>
  modify (upd_proc p (p_set_state (fun _ => SLEEPING))) >>
  sched >>
  modify (upd_proc p (p_set_chan (fun _ => ChNull))) >>
  release (LProc p) >>
  acquire lk >> k.

Definition sleep (ch : chan) (lk : lockid) : K unit := seqrun (sleep_thr ch lk Done).

(** the indices of the process table *)
Definition procs : list nat := seq 0 (Z.to_nat NPROC).

(** the body of the loop of [wakeup], then [k] *)
Definition wakeup_body_thr (ch : chan) (i : nat) (k : thr) : thr :=
  do! me := myproc in
  if bool_decide (me = Some i) then k
  else
    acquire (LProc i) >>
    do! p := get_proc i in
    whenM (bool_decide (p_state p = SLEEPING /\ p_chan p = ch))
      (modify (upd_proc i (p_set_state (fun _ => RUNNABLE)))) >>
    release (LProc i) >> k.

Definition wakeup_body (ch : chan) (i : nat) : K unit := seqrun (wakeup_body_thr ch i Done).

Definition wakeup (ch : chan) : K unit := forM_ procs (wakeup_body ch).

Definition kkill_body (pid : Z) (i : nat) : K (option Z) :=
  acquire (LProc i) ;;
  let! p := get_proc i in
  if p_pid p =? pid then
    modify (upd_proc i (p_set_killed (fun _ => 1))) ;;
    whenM (bool_decide (p_state p = SLEEPING))
      (modify (upd_proc i (p_set_state (fun _ => RUNNABLE)))) ;;
    release (LProc i) ;;
    ret (Some 0)
  else
    release (LProc i) ;; ret None.

Definition kkill (pid : Z) : K Z :=
  let! r := forM procs (kkill_body pid) in ret (default (-1) r).

Definition setkilled (p : nat) : K unit :=
  acquire (LProc p) ;;
  modify (upd_proc p (p_set_killed (fun _ => 1))) ;;
  release (LProc p).

Definition killed (p : nat) : K Z :=
  acquire (LProc p) ;;
  let! pr := get_proc p in
  release (LProc p) ;;
  ret (p_killed pr).

(** One iteration of the inner loop of [scheduler]; the result is [found].
    The process it switches to runs until it switches back. *)
Definition scheduler_try (i : nat) (found : bool) : K bool :=
  acquire (LProc i) ;;
  let! p := get_proc i in
  let! found :=
    if bool_decide (p_state p = RUNNABLE) then
      modify (upd_proc i (p_set_state (fun _ => RUNNING))) ;;
      modify (set_hart (h_set_proc (fun _ => Some i))) ;;
      swtch ;;
      modify (set_hart (h_set_proc (fun _ => None))) ;;
      ret true
    else ret found in
  release (LProc i) ;;
  ret found.

(** what is left of the iteration when the process has switched back *)
Definition scheduler_back (i : nat) : thr :=
  modify (set_hart (h_set_proc (fun _ => None))) >>
  release (LProc i) >> Done.

Fixpoint scheduler_scan (l : list nat) (found : bool) : K bool :=
  match l with
  | [] => ret found
  | i :: l' => let! found := scheduler_try i found in scheduler_scan l' found
  end.

(** [rounds] iterations of the [for(;;)]; an iteration that finds nothing
    waits for an interrupt, which changes nothing here *)
Definition scheduler (rounds : nat) : K unit :=
  modify (set_hart (h_set_proc (fun _ => None))) ;;
  forM_ (seq 0 rounds) (fun _ =>
    intr_on ;;
    intr_off ;;
    let! found := scheduler_scan procs false in
    ret tt).

(** ** kernel/sleeplock.c *)

(** the sleep lock inside its buffer or inode *)
Definition get_sleeplock (sl : sleeplock_id) : K sleeplock :=
  match sl with
  | SLBuf i => let! b := get_buf i in ret (b_lock b)
  | SLInode i => let! ip := get_inode i in ret (i_lock ip)
  end.

Definition upd_sleeplock (sl : sleeplock_id) (x : sleeplock) : kstate -> kstate :=
  match sl with
  | SLBuf i => upd_buf i (b_set_lock (fun _ => x))
  | SLInode i => upd_inode i (i_set_lock (fun _ => x))
  end.

Definition initsleeplock (sl : sleeplock_id) : K unit :=
  initlock (LSleep sl) ;;
  modify (upd_sleeplock sl (mksleeplock 0 0)).

Definition acquiresleep (sl : sleeplock_id) : K unit :=
  acquire (LSleep sl) ;;
  whileM WAKEUPS (fun _ : unit =>
    let! l := get_sleeplock sl in
    if nz (sl_locked l) then sleep (ChSleep sl) (LSleep sl) ;; ret (inl tt)
    else ret (inr tt)) tt ;;
  let! p := myproc_deref in
  let! pr := get_proc p in
  modify (upd_sleeplock sl (mksleeplock 1 (p_pid pr))) ;;
  release (LSleep sl).

Definition releasesleep (sl : sleeplock_id) : K unit :=
  acquire (LSleep sl) ;;
  modify (upd_sleeplock sl (mksleeplock 0 0)) ;;
  wakeup (ChSleep sl) ;;
  release (LSleep sl).

Definition holdingsleep (sl : sleeplock_id) : K Z :=
  acquire (LSleep sl) ;;
  let! l := get_sleeplock sl in
  let! r :=
    if nz (sl_locked l) then
      let! p := myproc_deref in
      let! pr := get_proc p in
      ret (b2z (sl_pid l =? p_pid pr))
    else ret 0 in
  release (LSleep sl) ;;
  ret r.
