(* ===== verification/SyncSpec.v ===== *)
(** Theorems about ProcSync.v: wakeup and kkill as functions of the process
    table, the behaviour of sleep, the guards of sched, and sleep locks. *)

From stdpp Require Import base gmap strings numbers list.
From S2P Require Import Prelude KState KString Spinlock ProcSync.

(** * Loops over a table *)

(** A loop over the indices of a table whose body updates the entry it
    visits maps the update over the table. *)
Lemma foldl_alter_imap {A} (f : nat -> A -> A) (l : list A) (k : nat) pre :
  length pre = k ->
  foldl (fun t i => alter (f i) i t) (pre ++ l) (seq k (length l)) =
  pre ++ imap (fun i => f (k + i)%nat) l.
Proof.
  revert k pre. induction l as [|x l IH]; intros k pre Hk; cbn [length seq foldl imap].
  { by rewrite !app_nil_r. }
  rewrite alter_app_r_alt by lia. rewrite Hk, Nat.sub_diag. cbn [alter list_alter].
  rewrite (cons_middle (f k x)), app_assoc, IH by (rewrite length_app; simpl; lia).
  rewrite <-app_assoc. simpl. rewrite Nat.add_0_r. f_equal. f_equal.
  apply imap_ext. intros i y Hy. simpl. f_equal. lia.
Qed.

Lemma foldl_alter_seq {A} (f : nat -> A -> A) (l : list A) :
  foldl (fun t i => alter (f i) i t) l (seq 0 (length l)) = imap f l.
Proof. apply (foldl_alter_imap f l 0 []). done. Qed.

(** a monadic loop whose body acts as a state function, under an invariant *)
Lemma forM_run {A} (P : kstate -> Prop) (body : A -> K unit) (g : A -> kstate -> kstate) l s :
  (forall x t, x ∈ l -> P t -> body x t = Ok tt (g x t)) ->
  (forall x t, x ∈ l -> P t -> P (g x t)) ->
  P s -> forM_ l body s = Ok tt (foldl (fun t x => g x t) s l).
Proof.
  revert s. induction l as [|x l IH]; intros s Hb Hp Hs; cbn [forM_ foldl]; [done|].
  erewrite bind_ok by (apply Hb; [set_solver|done]).
  apply IH.
  - intros y t Hy. apply Hb. set_solver.
  - intros y t Hy. apply Hp. set_solver.
  - apply Hp; [set_solver|done].
Qed.

Lemma foldl_set_procs {A} (f : A -> list proc -> list proc) l s :
  foldl (fun t x => set_procs (f x) t) s l = set_procs (fun p => foldl (fun t x => f x t) p l) s.
Proof.
  revert s. induction l as [|x l IH]; intros s; cbn [foldl]; [done|]. by rewrite IH.
Qed.

(** * wakeup *)

(** what wakeup does to the process at index [i] *)
Definition wake (ch : chan) (me : option nat) (i : nat) (p : proc) : proc :=
  if bool_decide (me = Some i) then p
  else if bool_decide (p_state p = SLEEPING /\ p_chan p = ch)
       then p_set_state (fun _ => RUNNABLE) p else p.

(** the table has its [NPROC] entries and no process lock is taken *)
Definition procs_ok (s : kstate) : Prop :=
  hart_ok (k_hart s) /\ length (k_procs s) = Z.to_nat NPROC /\
  forall i, h_locks (k_hart s) !! LProc i = None.

(** a section on the lock of one process that only changes that process *)
Lemma set_hart_id s : set_hart (fun _ => k_hart s) s = s.
Proof. done. Qed.

Lemma wakeup_body_run ch i s :
  procs_ok s -> (i < Z.to_nat NPROC)%nat ->
  wakeup_body ch i s = Ok tt (set_procs (alter (wake ch (h_proc (k_hart s)) i) i) s).
Proof.
  intros (Hok & Hlen & Hf) Hi. unfold wakeup_body, wakeup_body_thr. cbn [seqrun]. mstep. unfold wake.
  destruct (decide (h_proc (k_hart s) = Some i)) as [E|E].
  { rewrite bool_decide_true by done. cbn [seqrun]. unfold ret. f_equal.
    unfold set_procs. rewrite list_alter_id by reflexivity. done. }
  rewrite bool_decide_false by done. cbn [seqrun]. erewrite bind_ok by (apply acquire_run; by split).
  destruct (lookup_lt_is_Some_2 (k_procs s) i) as [p Hp]; [lia|].
  erewrite bind_ok by (apply get_proc_ok; exact Hp).
  destruct (decide (p_state p = SLEEPING /\ p_chan p = ch)) as [D|D].
  - rewrite bool_decide_true by done. cbn [whenM]. mstep.
    erewrite bind_ok by (apply (release_locked _ _ (k_hart s)); [done|apply Hf|done]).
    unfold ret. f_equal. unfold upd_proc, set_procs, set_hart. cbn. f_equal.
    apply list_alter_ext; [|done]. intros q Hq. rewrite Hp in Hq. injection Hq as <-.
    by rewrite bool_decide_true.
  - rewrite bool_decide_false by done. cbn [whenM]. mstep.
    erewrite bind_ok by (apply (release_locked _ _ (k_hart s)); [done|apply Hf|done]).
    unfold ret. f_equal. unfold set_procs, set_hart. cbn. f_equal.
    symmetry. rewrite <-(list_alter_id id (k_procs s) i) at 2 by done.
    apply list_alter_ext; [|done]. intros q Hq. rewrite Hp in Hq. injection Hq as <-.
    by rewrite bool_decide_false.
Qed.

Lemma procs_ok_alter f i s : procs_ok s -> procs_ok (set_procs (alter f i) s).
Proof. intros (H1 & H2 & H3). split; [done|]. split; [|done]. ksimp. by rewrite length_alter. Qed.

Lemma wakeup_run ch s :
  procs_ok s -> wakeup ch s = Ok tt (set_procs (imap (wake ch (h_proc (k_hart s)))) s).
Proof.
  intros Hp. unfold wakeup.
  rewrite (forM_run (fun t => procs_ok t /\ k_hart t = k_hart s) _
             (fun i => set_procs (alter (wake ch (h_proc (k_hart s)) i) i))).
  - f_equal. rewrite (foldl_set_procs (fun i => alter (wake ch (h_proc (k_hart s)) i) i)).
    unfold set_procs. f_equal. unfold procs. destruct Hp as (_ & <- & _).
    apply foldl_alter_seq.
  - intros i t Hi [Ht He]. rewrite <-He. apply wakeup_body_run; [done|].
    apply elem_of_seq in Hi. lia.
  - intros i t _ [Ht He]. split; [by apply procs_ok_alter|done].
  - done.
Qed.

(** * kkill *)

Definition kill (p : proc) : proc :=
  p_set_killed (fun _ => 1)
    (if bool_decide (p_state p = SLEEPING) then p_set_state (fun _ => RUNNABLE) p else p).

Lemma kkill_body_run pid i s p :
  procs_ok s -> k_procs s !! i = Some p ->
  kkill_body pid i s =
  if p_pid p =? pid then Ok (Some 0) (upd_proc i kill s) else Ok None s.
Proof.
  intros (Hok & Hlen & Hf) Hp. unfold kkill_body.
  erewrite bind_ok by (apply acquire_run; by split).
  erewrite bind_ok by (apply get_proc_ok; exact Hp).
  destruct (p_pid p =? pid); [|].
  - mstep. unfold kill, whenM. destruct (decide (p_state p = SLEEPING)) as [D|D].
    + rewrite bool_decide_true by done. mstep.
      erewrite bind_ok by (apply (release_locked _ _ (k_hart s)); [done|apply Hf|done]).
      unfold ret, upd_proc, set_procs, set_hart. cbn. do 2 f_equal.
      rewrite list_alter_alter_eq. apply list_alter_ext; [|done].
      intros q Hq. rewrite Hp in Hq. injection Hq as <-. simpl. by rewrite bool_decide_true.
    + rewrite bool_decide_false by done. mstep.
      erewrite bind_ok by (apply (release_locked _ _ (k_hart s)); [done|apply Hf|done]).
      unfold ret, upd_proc, set_procs, set_hart. cbn. do 2 f_equal.
      apply list_alter_ext; [|done].
      intros q Hq. rewrite Hp in Hq. injection Hq as <-. simpl. by rewrite bool_decide_false.
  - by erewrite bind_ok by (apply (release_locked _ _ (k_hart s)); [done|apply Hf|done]).
Qed.

Lemma kkill_scan pid s l k :
  procs_ok s -> (forall i, (i < length l)%nat -> k_procs s !! (k + i)%nat = l !! i) ->
  forM (seq k (length l)) (kkill_body pid) s =
  match list_find (fun p => p_pid p = pid) l with
  | Some (i, _) => Ok (Some 0) (upd_proc (k + i) kill s)
  | None => Ok None s
  end.
Proof.
  intros Hok. revert k. induction l as [|p l IH]; intros k Hl; cbn [length seq list_find]; [done|].
  pose proof (Hl 0%nat ltac:(simpl; lia)) as Hp. rewrite Nat.add_0_r in Hp.
  pose proof (kkill_body_run pid k s p Hok Hp) as Hb.
  destruct (decide (p_pid p = pid)) as [E|E].
  - rewrite (proj2 (Z.eqb_eq _ _) E) in Hb. erewrite forM_cons_some by exact Hb.
    by rewrite Nat.add_0_r.
  - rewrite (proj2 (Z.eqb_neq _ _) E) in Hb. erewrite forM_cons_none by exact Hb.
    rewrite IH.
    + destruct (list_find _ l) as [[i q]|]; simpl; [|done].
      by replace (k + S i)%nat with (S (k + i)) by lia.
    + intros i Hi. replace (S k + i)%nat with (k + S i)%nat by lia. apply (Hl (S i)). simpl. lia.
Qed.

(** [kkill] marks the first process of the table with the given pid as
    killed and makes it runnable if it sleeps, and returns 0; without such a
    process it returns -1 and changes nothing. *)
Theorem kkill_spec pid s :
  procs_ok s ->
  kkill pid s =
  match list_find (fun p => p_pid p = pid) (k_procs s) with
  | Some (i, _) => Ok 0 (upd_proc i kill s)
  | None => Ok (-1) s
  end.
Proof.
  intros Hok. unfold kkill, procs. pose proof Hok as (_ & Hlen & _). rewrite <-Hlen.
  pose proof (kkill_scan pid s (k_procs s) 0 Hok ltac:(done)) as H.
  destruct (list_find _ (k_procs s)) as [[i q]|]; by erewrite bind_ok by exact H.
Qed.

(** * sched and sleep *)

Lemma sched_run p s :
  hart_ok (k_hart s) -> h_proc (k_hart s) = Some p ->
  h_locks (k_hart s) !! LProc p = Some (h_id (k_hart s)) ->
  h_noff (k_hart s) = 1 ->
  (exists pr, k_procs s !! p = Some pr /\ p_state pr <> RUNNING) ->
  sched s = Susp s (fun s' => Ok tt (set_hart (h_set_intena (fun _ => h_intena (k_hart s))) s')).
Proof.
  intros Hok Hp Hl Hn (pr & Hpr & Hst). unfold sched.
  erewrite bind_ok by (by apply myproc_deref_run). mstep.
  rewrite bool_decide_true by done. simpl. mstep. rewrite Hn. simpl.
  erewrite bind_ok by (apply get_proc_ok; exact Hpr). rewrite bool_decide_false by done.
  mstep. rewrite (ho_in _ Hok) by lia. done.
Qed.

(** the guards of [sched]: it switches to the scheduler only when the
    process lock is held, it is the only lock held, the process is no longer
    RUNNING and interrupts are off; otherwise it panics. *)
Theorem sched_guards p pr s :
  hart_ok (k_hart s) -> h_proc (k_hart s) = Some p -> k_procs s !! p = Some pr ->
  u_panicked (k_uart s) = 0 ->
  (h_locks (k_hart s) !! LProc p <> Some (h_id (k_hart s)) ->
     exists s', sched s = Panic "sched p->lock" s') /\
  (h_locks (k_hart s) !! LProc p = Some (h_id (k_hart s)) -> h_noff (k_hart s) <> 1 ->
     exists s', sched s = Panic "sched locks" s') /\
  (h_locks (k_hart s) !! LProc p = Some (h_id (k_hart s)) -> h_noff (k_hart s) = 1 ->
     p_state pr = RUNNING -> exists s', sched s = Panic "sched RUNNING" s') /\
  (h_locks (k_hart s) !! LProc p = Some (h_id (k_hart s)) -> h_noff (k_hart s) = 1 ->
     p_state pr <> RUNNING -> exists k, sched s = Susp s k).
Proof.
  intros Hok Hp Hpr Hu. repeat split.
  - intros Hl. unfold sched. erewrite bind_ok by (by apply myproc_deref_run). mstep.
    rewrite bool_decide_false by done. simpl. by apply panic_is_panic.
  - intros Hl Hn. unfold sched. erewrite bind_ok by (by apply myproc_deref_run). mstep.
    rewrite bool_decide_true by done. simpl. mstep.
    rewrite (proj2 (Z.eqb_neq _ _) Hn). simpl. by apply panic_is_panic.
  - intros Hl Hn Hst. unfold sched. erewrite bind_ok by (by apply myproc_deref_run). mstep.
    rewrite bool_decide_true by done. simpl. mstep. rewrite Hn. simpl.
    erewrite bind_ok by (apply get_proc_ok; exact Hpr). rewrite bool_decide_true by done.
    by apply panic_is_panic.
  - intros Hl Hn Hst. eexists. apply (sched_run p); eauto.
Qed.

(** the hart after releasing the outer of two nested locks *)
Lemma release_outer l1 l2 h :
  hart_ok h -> l1 <> l2 -> h_locks h !! l1 = None -> h_noff h = 0 ->
  h_pop (h_set_locks (delete l1) (hart_lock l2 (hart_lock l1 h))) = hart_lock l2 h.
Proof.
  intros Hok Hne Hf Hn. destruct h as [id pr noff intena sst locks]. simpl in *. subst noff.
  unfold h_pop, hart_lock, h_push, h_set_locks. cbn [h_id h_proc h_noff h_intena h_sstatus h_locks].
  change (0 + 1 + 1 - 1) with 1. change (0 + 1) with 1. cbn [Z.eqb Pos.eqb andb].
  f_equal.
  - apply clear_SIE_off. by rewrite testbit_clear_SIE, andb_false_r by lia.
  - rewrite delete_insert_ne by done. by rewrite delete_insert_id.
Qed.

Lemma release_outer_run l1 l2 h s :
  hart_ok h -> l1 <> l2 -> h_locks h !! l1 = None -> h_noff h = 0 ->
  k_hart s = hart_lock l2 (hart_lock l1 h) ->
  release l1 s = Ok tt (set_hart (fun _ => hart_lock l2 h) s).
Proof.
  intros Hok Hne Hf Hn Hs.
  pose proof (hart_lock_ok l2 _ (hart_lock_ok l1 _ Hok)) as Hok2.
  rewrite release_run.
  - unfold set_hart. by rewrite Hs, release_outer.
  - rewrite Hs. simpl. rewrite lookup_insert_ne by done. by rewrite lookup_insert_eq.
  - rewrite Hs. apply (ho_in _ Hok2). simpl. lia.
  - rewrite Hs. simpl. lia.
Qed.

(** the hart of a kernel thread that resumes from [sched] on the hart [h] the
    scheduler runs on, once it has released its process lock: the interrupt
    flag is the thread's own *)
Definition resume_hart (intena : Z) (h : hart) : hart :=
  mkhart (h_id h) (h_proc h) 0 intena
    (if nz intena then Z.lor (Z.land (h_sstatus h) (Z.lnot SSTATUS_SIE)) SSTATUS_SIE
     else Z.land (h_sstatus h) (Z.lnot SSTATUS_SIE)) (h_locks h).

Lemma resume_hart_ok ia h : ia = 0 \/ ia = 1 -> hart_ok (resume_hart ia h).
Proof.
  intros Hia. split; simpl; [lia| |lia]. intros _. rewrite h_intr_bit. simpl.
  destruct Hia as [->| ->]; simpl.
  - by rewrite testbit_clear_SIE, andb_false_r by lia.
  - rewrite Z.lor_spec. change (Z.testbit SSTATUS_SIE 1) with true. by rewrite orb_true_r.
Qed.

Lemma h_intr_01 h : h_intr h = 0 \/ h_intr h = 1.
Proof. unfold h_intr. destruct (nz _); simpl; auto. Qed.

Lemma release_resumed l ia h s :
  hart_ok h -> h_noff h = 0 -> h_locks h !! l = None ->
  k_hart s = h_set_intena (fun _ => ia) (hart_lock l h) ->
  release l s = Ok tt (set_hart (fun _ => resume_hart ia h) s).
Proof.
  intros Hok Hn Hf Hs. rewrite release_run.
  - unfold set_hart. rewrite Hs. do 2 f_equal. unfold h_pop, resume_hart. simpl. rewrite Hn.
    change (0 + 1 - 1) with 0. cbn [Z.eqb andb]. f_equal. by rewrite delete_insert_id.
  - rewrite Hs. simpl. by rewrite lookup_insert_eq.
  - rewrite Hs. apply (ho_in _ (hart_lock_ok l _ Hok)). simpl. lia.
  - rewrite Hs. simpl. lia.
Qed.

Lemma sleep_run ch lk p s h :
  k_hart s = hart_lock lk h -> hart_ok h -> h_noff h = 0 -> h_proc h = Some p ->
  h_locks h !! lk = None -> h_locks h !! LProc p = None -> lk <> LProc p ->
  is_Some (k_procs s !! p) ->
  exists k, sleep ch lk s =
    Susp (set_hart (fun _ => hart_lock (LProc p) h)
            (upd_proc p (fun q => p_set_state (fun _ => SLEEPING) (p_set_chan (fun _ => ch) q)) s)) k /\
    forall s2 h2, k_hart s2 = hart_lock (LProc p) h2 -> hart_ok h2 -> h_noff h2 = 0 ->
      h_locks h2 !! lk = None -> h_locks h2 !! LProc p = None ->
      k s2 = Ok tt (set_hart (fun _ => hart_lock lk (resume_hart (h_intr h) h2))
                      (upd_proc p (p_set_chan (fun _ => ChNull)) s2)).
Proof.
  intros Hh Hok Hn Hp Hlk Hlp Hne [pr Hpr].
  unfold sleep, sleep_thr. cbn [seqrun]. erewrite bind_ok.
  2: { apply (myproc_deref_run s p); rewrite Hh; [by apply hart_lock_ok|exact Hp]. }
  erewrite bind_ok.
  2: { apply acquire_run. split; rewrite Hh; [by apply hart_lock_ok|].
       simpl. by rewrite lookup_insert_ne. }
  erewrite bind_ok.
  2: { apply (release_outer_run lk (LProc p) h); [done..|]. ksimp. by rewrite Hh. }
  mstep. mstep. unfold bind at 1. rewrite (sched_run p).
  - eexists. split.
    + cbn [rbind]. f_equal. unfold upd_proc, set_procs, set_hart. cbn. f_equal.
      by rewrite list_alter_alter_eq.
    + intros s2 h2 Hs2 Hok2 Hn2 Hl2 Hp2. cbn [rbind]. mstep.
      erewrite bind_ok.
      2: { apply (release_resumed (LProc p) (h_intr h) h2); [done..|]. ksimp. rewrite Hs2.
           simpl. by rewrite Hn. }
      erewrite bind_ok; [done|]. apply acquire_run. split; [apply resume_hart_ok, h_intr_01|exact Hl2].
  - ksimp. by apply hart_lock_ok.
  - exact Hp.
  - ksimp. simpl. by rewrite lookup_insert_eq.
  - ksimp. simpl. lia.
  - eexists. ksimp. split.
    + rewrite !list_lookup_alter_eq, Hpr. reflexivity.
    + done.
Qed.

(** C11: what [sleep] does when the hart runs it without being interleaved: it
    switches to the scheduler with the process SLEEPING on [ch], the process
    lock as the only lock held and [lk] released, nothing else changed; when
    the scheduler resumes the process (on whatever hart, in whatever state the
    others have left), it returns with [lk] held again, the process lock free,
    the channel cleared and the thread's own interrupt state. *)
Theorem sleep_correct ch lk p s h :
  k_hart s = hart_lock lk h -> hart_ok h -> h_noff h = 0 -> h_proc h = Some p ->
  h_locks h !! lk = None -> h_locks h !! LProc p = None -> lk <> LProc p ->
  is_Some (k_procs s !! p) ->
  exists k, sleep ch lk s =
    Susp (set_hart (fun _ => hart_lock (LProc p) h)
            (upd_proc p (fun q => p_set_state (fun _ => SLEEPING) (p_set_chan (fun _ => ch) q)) s)) k /\
    forall s2 h2, k_hart s2 = hart_lock (LProc p) h2 -> hart_ok h2 -> h_noff h2 = 0 ->
      h_locks h2 !! lk = None -> h_locks h2 !! LProc p = None ->
      k s2 = Ok tt (set_hart (fun _ => hart_lock lk (resume_hart (h_intr h) h2))
                      (upd_proc p (p_set_chan (fun _ => ChNull)) s2)).
Proof. apply sleep_run. Qed.

(** * Sleep locks *)

(** the sleep lock of a buffer or inode in a state *)
Definition slock (s : kstate) (sl : sleeplock_id) : option sleeplock :=
  match sl with
  | SLBuf i => b_lock <$> k_bufs s !! i
  | SLInode i => i_lock <$> k_itable s !! i
  end.

Lemma get_sleeplock_run sl s l : slock s sl = Some l -> get_sleeplock sl s = Ok l s.
Proof.
  destruct sl as [i|i]; simpl; intros H.
  - destruct (k_bufs s !! i) as [b|] eqn:E; [|done]. injection H as <-.
    by erewrite bind_ok by (apply get_buf_ok; exact E).
  - destruct (k_itable s !! i) as [b|] eqn:E; [|done]. injection H as <-.
    by erewrite bind_ok by (apply get_inode_ok; exact E).
Qed.

Lemma slock_set_hart f sl s : slock (set_hart f s) sl = slock s sl.
Proof. by destruct sl. Qed.

Lemma slock_upd_eq sl x s l : slock s sl = Some l -> slock (upd_sleeplock sl x s) sl = Some x.
Proof.
  destruct sl as [i|i]; simpl; intros H; ksimp; rewrite list_lookup_alter_eq.
  - by destruct (k_bufs s !! i).
  - by destruct (k_itable s !! i).
Qed.

Lemma upd_sleeplock_hart sl x s : k_hart (upd_sleeplock sl x s) = k_hart s.
Proof. by destruct sl. Qed.

Lemma upd_sleeplock_procs sl x s : k_procs (upd_sleeplock sl x s) = k_procs s.
Proof. by destruct sl. Qed.

Lemma upd_sleeplock_set_hart sl x f s :
  upd_sleeplock sl x (set_hart f s) = set_hart f (upd_sleeplock sl x s).
Proof. by destruct sl. Qed.

(** the running process can work on the sleep lock without waiting for a
    spin lock *)
Record thread_ok (s : kstate) (p : nat) (pr : proc) : Prop := {
  to_hart : hart_ok (k_hart s);
  to_proc : h_proc (k_hart s) = Some p;
  to_pr : k_procs s !! p = Some pr;
  to_len : length (k_procs s) = Z.to_nat NPROC;
  to_plocks : forall i, h_locks (k_hart s) !! LProc i = None
}.

Lemma WAKEUPS_S : exists n, WAKEUPS = S n.
Proof. exists (Nat.pred WAKEUPS). vm_compute. reflexivity. Qed.

Lemma acquiresleep_run sl s p pr l :
  thread_ok s p pr -> h_locks (k_hart s) !! LSleep sl = None ->
  slock s sl = Some l -> sl_locked l = 0 ->
  acquiresleep sl s = Ok tt (upd_sleeplock sl (mksleeplock 1 (p_pid pr)) s).
Proof.
  intros [Hok Hp Hpr Hlen Hf] Hsl Hl H0. unfold acquiresleep.
  erewrite bind_ok by (apply acquire_run; by split).
  destruct WAKEUPS_S as [n ->].
  erewrite bind_ok.
  2: { apply whileM_stop. erewrite bind_ok.
       2: { apply get_sleeplock_run. rewrite slock_set_hart. exact Hl. }
       rewrite H0. simpl. reflexivity. }
  erewrite bind_ok by (apply (myproc_deref_run _ p); [by apply hart_lock_ok|exact Hp]).
  erewrite bind_ok by (apply get_proc_ok; exact Hpr). mstep.
  rewrite upd_sleeplock_set_hart.
  rewrite (release_locked _ _ (k_hart s)); [|done|exact Hsl|ksimp; by rewrite upd_sleeplock_hart].
  f_equal. unfold set_hart. simpl. by destruct sl.
Qed.

Lemma holdingsleep_run sl s p pr l :
  thread_ok s p pr -> h_locks (k_hart s) !! LSleep sl = None ->
  slock s sl = Some l ->
  holdingsleep sl s = Ok (b2z (nz (sl_locked l) && (sl_pid l =? p_pid pr))) s.
Proof.
  intros [Hok Hp Hpr Hlen Hf] Hsl Hl. unfold holdingsleep.
  erewrite bind_ok by (apply acquire_run; by split).
  erewrite bind_ok by (apply get_sleeplock_run; rewrite slock_set_hart; exact Hl).
  destruct (nz (sl_locked l)); cbn [andb].
  - erewrite bind_ok.
    2: { erewrite bind_ok by (apply (myproc_deref_run _ p); [by apply hart_lock_ok|exact Hp]).
         erewrite bind_ok by (apply get_proc_ok; exact Hpr). reflexivity. }
    by erewrite bind_ok by (apply (release_locked _ _ (k_hart s)); done).
  - mstep. by erewrite bind_ok by (apply (release_locked _ _ (k_hart s)); done).
Qed.

Lemma releasesleep_run sl s p pr l :
  thread_ok s p pr -> h_locks (k_hart s) !! LSleep sl = None ->
  slock s sl = Some l ->
  releasesleep sl s =
  Ok tt (set_procs (imap (wake (ChSleep sl) (Some p))) (upd_sleeplock sl (mksleeplock 0 0) s)).
Proof.
  intros [Hok Hp Hpr Hlen Hf] Hsl Hl. unfold releasesleep.
  erewrite bind_ok by (apply acquire_run; by split). mstep.
  rewrite upd_sleeplock_set_hart.
  erewrite bind_ok.
  2: { apply wakeup_run. split; [|split].
       - ksimp. rewrite upd_sleeplock_hart. by apply hart_lock_ok.
       - ksimp. by rewrite upd_sleeplock_procs.
       - intros i. ksimp. rewrite upd_sleeplock_hart. simpl.
         by rewrite lookup_insert_ne. }
  ksimp. rewrite upd_sleeplock_hart.
  change (h_proc (hart_lock (LSleep sl) (k_hart s))) with (h_proc (k_hart s)). rewrite Hp.
  rewrite (release_locked _ _ (k_hart s)); [|done|exact Hsl|ksimp; by rewrite upd_sleeplock_hart].
  f_equal. unfold set_hart, set_procs. simpl. by destruct sl.
Qed.

Lemma thread_ok_upd_sleeplock sl x s p pr :
  thread_ok s p pr -> thread_ok (upd_sleeplock sl x s) p pr.
Proof. destruct sl; intros []; by split. Qed.

Lemma acquiresleep_blocks sl s p pr l :
  thread_ok s p pr -> h_noff (k_hart s) = 0 -> h_locks (k_hart s) !! LSleep sl = None ->
  slock s sl = Some l -> sl_locked l <> 0 ->
  exists s1 k q, acquiresleep sl s = Susp s1 k /\ slock s1 sl = Some l /\
    k_procs s1 !! p = Some q /\ p_state q = SLEEPING /\ p_chan q = ChSleep sl.
Proof.
  intros [Hok Hp Hpr Hlen Hf] Hn Hsl Hl H1. unfold acquiresleep.
  erewrite bind_ok by (apply acquire_run; by split).
  destruct WAKEUPS_S as [n ->]. cbn [whileM].
  destruct (sleep_run (ChSleep sl) (LSleep sl) p (set_hart (hart_lock (LSleep sl)) s) (k_hart s))
    as (k & E & _); [done..|].
  unfold bind at 1. unfold bind at 1. unfold bind at 1.
  rewrite (get_sleeplock_run sl _ l) by (by rewrite slock_set_hart).
  cbn [rbind]. rewrite (proj2 (nz_true _) H1). unfold bind at 1. rewrite E. cbn [rbind].
  eexists _, _, _. split; [reflexivity|]. rewrite slock_set_hart. split.
  { revert Hl. clear. by destruct sl. }
  ksimp. rewrite list_lookup_alter_eq, Hpr. split; [reflexivity|]. done.
Qed.

(** a sleep lock excludes: acquiresleep of a free lock returns with the
    lock recorded as this process's, which holdingsleep confirms; of a taken
    lock it does not return but suspends the process on the lock's channel,
    the holder unchanged; releasesleep frees the lock and makes every process
    sleeping on it runnable. *)
Theorem sleeplock_exclusive sl s p pr l :
  thread_ok s p pr -> h_noff (k_hart s) = 0 -> h_locks (k_hart s) !! LSleep sl = None ->
  slock s sl = Some l ->
  (sl_locked l = 0 -> exists s', acquiresleep sl s = Ok tt s' /\
     slock s' sl = Some (mksleeplock 1 (p_pid pr)) /\ holdingsleep sl s' = Ok 1 s') /\
  (sl_locked l <> 0 -> exists s1 k q, acquiresleep sl s = Susp s1 k /\ slock s1 sl = Some l /\
     k_procs s1 !! p = Some q /\ p_state q = SLEEPING /\ p_chan q = ChSleep sl) /\
  (exists s', releasesleep sl s = Ok tt s' /\ slock s' sl = Some (mksleeplock 0 0) /\
     k_procs s' = imap (wake (ChSleep sl) (Some p)) (k_procs s)).
Proof.
  intros Ht Hn Hsl Hl. split; [|split].
  - intros H0. eexists. split; [by eapply acquiresleep_run|].
    split; [by eapply slock_upd_eq|].
    rewrite (holdingsleep_run sl _ p pr (mksleeplock 1 (p_pid pr))).
    + simpl. by rewrite Z.eqb_refl.
    + by apply thread_ok_upd_sleeplock.
    + by rewrite upd_sleeplock_hart.
    + by eapply slock_upd_eq.
  - intros H1. by eapply acquiresleep_blocks.
  - eexists. split; [by eapply releasesleep_run|]. split.
    + transitivity (slock (upd_sleeplock sl (mksleeplock 0 0) s) sl); [by destruct sl|].
      by eapply slock_upd_eq.
    + ksimp. by rewrite upd_sleeplock_procs.
Qed.

(** * The theorems at concrete states *)

Lemma thread_state_ok d : thread_ok (thread_state d) 0 (p_set_pid (fun _ => 1) (p_set_state (fun _ => RUNNING) proc0)).
Proof.
  split.
  - apply hart_ok_idle.
  - reflexivity.
  - reflexivity.
  - reflexivity.
  - intros i. apply lookup_empty.
Qed.

Lemma thread_state_procs d : procs_ok (thread_state d).
Proof. destruct (thread_state_ok d). by split. Qed.

Lemma kkill_spec_witness :
  kkill 1 (thread_state []) = Ok 0 (upd_proc 0 kill (thread_state [])).
Proof. apply (kkill_spec 1 (thread_state []) (thread_state_procs [])). Defined.

Lemma sched_guards_witness : exists s', sched (thread_state []) = Panic "sched p->lock" s'.
Proof.
  apply (proj1 (sched_guards 0 _ (thread_state []) (to_hart _ _ _ (thread_state_ok []))
    eq_refl eq_refl eq_refl)).
  vm_compute. discriminate.
Defined.

Lemma sleep_correct_witness :
  exists s1 k, sleep ChTicks LTicks (set_hart (hart_lock LTicks) (thread_state [])) = Susp s1 k.
Proof.
  destruct (sleep_correct ChTicks LTicks 0 (set_hart (hart_lock LTicks) (thread_state []))
    (k_hart (thread_state []))) as (k & E & _).
  - reflexivity.
  - apply hart_ok_idle.
  - reflexivity.
  - reflexivity.
  - reflexivity.
  - reflexivity.
  - discriminate.
  - eexists. reflexivity.
  - eexists _, k. exact E.
Defined.

Lemma sleeplock_exclusive_witness :
  exists s', acquiresleep (SLBuf 3) (thread_state []) = Ok tt s' /\
             holdingsleep (SLBuf 3) s' = Ok 1 s'.
Proof.
  destruct (sleeplock_exclusive (SLBuf 3) (thread_state []) 0 _ sleeplock0 (thread_state_ok []))
    as (H & _).
  - reflexivity.
  - reflexivity.
  - reflexivity.
  - destruct (H eq_refl) as (s' & E1 & _ & E2). exists s'. split; [exact E1|exact E2].
Defined.
