(* ===== verification/LostWakeup.v ===== *)
(** Kernel threads of several harts, interleaved statement by statement, and
    the race of kernel/proc.c between sleep() and wakeup(): a process that
    goes to sleep while other harts change its condition and call wakeup. *)

From stdpp Require Import base gmap strings numbers list relations.
From Stdlib Require Import FunctionalExtensionality.
From S2P Require Import Prelude KState KString Spinlock ProcSync SyncSpec.

(** * Definitions *)

(** The harts of the machine: the state they share, with the lock table, and
    for every hart its own registers and the thread it runs. *)
Record conf := mkconf { c_state : kstate; c_threads : list (hart * thr) }.

(** the state as a hart sees it *)
Definition on_hart (h : hart) (s : kstate) : kstate :=
  set_hart (fun g => h_set_locks (fun _ => h_locks g) h) s.

(** One statement of a thread.  A thread that spins on a lock, or has
    panicked, takes no step; a thread that switches away leaves its hart to
    the scheduler, which had switched to the process of the hart. *)
Definition tstep (h : hart) (t : thr) (s : kstate) : option (kstate * thr) :=
  match t with
  | Done => None
  | Do m k =>
      match m (on_hart h s) with
      | Ok a s' => Some (s', k a)
      | Susp s' _ => (fun p => (s', scheduler_back p)) <$> h_proc h
      | _ => None
      end
  end.

Definition hart_step (i : nat) (c : conf) : option conf :=
  match c_threads c !! i with
  | Some (h, t) =>
      (fun '(s', t') => mkconf s' (<[i := (k_hart s', t')]> (c_threads c))) <$> tstep h t (c_state c)
  | None => None
  end.

(** some hart executes a statement *)
Definition step (c c' : conf) : Prop := exists i, hart_step i c = Some c'.

Definition finished (t : hart * thr) : Prop := t.2 = Done.

(** [wakeup] over a part of the process table, then [k] *)
Definition wakeup_thr (ch : chan) (l : list nat) (k : thr) : thr := foldr (wakeup_body_thr ch) k l.

(** a thread that changes the condition and wakes the sleepers, as
    [releasesleep] does: [acquire(lk); ..; wakeup(ch); release(lk);] *)
Definition waker_thr (ch : chan) (lk : lockid) (f : kstate -> kstate) : thr :=
  acquire lk >> modify f >> wakeup_thr ch procs (release lk >> Done).

(** a hart that runs it *)
Record waker := mkwaker { w_hart : hart; w_upd : kstate -> kstate }.

Definition race (ch : chan) (lk : lockid) (s : kstate) (ks : list waker) : conf :=
  mkconf s ((k_hart s, sleep_thr ch lk Done) ::
            map (fun k => (w_hart k, waker_thr ch lk (w_upd k))) ks).

(** * The threads are the code *)

Lemma seqrun_wakeup ch l k : seqrun (wakeup_thr ch l k) = (forM_ l (wakeup_body ch) ;; seqrun k).
Proof.
  induction l as [|i l IH]; [done|]. apply functional_extensionality. intros s.
  cbn [wakeup_thr foldr forM_]. fold (wakeup_thr ch l k). rewrite bind_assoc, <-IH. unfold wakeup_body, wakeup_body_thr. cbn [seqrun].
  rewrite bind_assoc. f_equal. apply functional_extensionality. intros me. destruct (bool_decide (me = Some i)); [done|].
  cbn [seqrun]. do 4 (rewrite ?bind_assoc; f_equal; apply functional_extensionality; intros ?).
Qed.

Lemma seqrun_section ch lk f l :
  seqrun (acquire lk >> modify f >> wakeup_thr ch l (release lk >> Done)) =
  ((acquire lk ;; modify f ;; forM_ l (wakeup_body ch) ;; release lk) ;; ret tt).
Proof. cbn [seqrun]. rewrite seqrun_wakeup. by rewrite !bind_assoc. Qed.

(** releasesleep is such a thread *)
Lemma releasesleep_thr sl :
  seqrun (waker_thr (ChSleep sl) (LSleep sl) (upd_sleeplock sl (mksleeplock 0 0))) = (releasesleep sl ;; ret tt).
Proof. exact (seqrun_section (ChSleep sl) (LSleep sl) (upd_sleeplock sl (mksleeplock 0 0)) procs). Qed.

(** the scheduler runs [scheduler_back] when the process switches back to it *)
Lemma scheduler_back_run i found s p :
  procs_ok s -> k_procs s !! i = Some p -> p_state p = RUNNABLE ->
  scheduler_try i found s =
  Susp (set_hart (fun _ => h_set_proc (fun _ => Some i) (hart_lock (LProc i) (k_hart s)))
          (upd_proc i (p_set_state (fun _ => RUNNING)) s))
       (seqrun (scheduler_back i) ;; ret true).
Proof.
  intros (Hok & _ & Hf) Hp Hst. unfold scheduler_try. erewrite bind_ok by (apply acquire_run; by split).
  erewrite bind_ok by (apply get_proc_ok; exact Hp). rewrite bool_decide_true by done.
  unfold bind at 1. erewrite bind_ok by reflexivity. erewrite bind_ok by reflexivity. unfold bind at 1. cbn [rbind swtch].
  unfold swtch. cbn [rbind]. f_equal. unfold scheduler_back. cbn [seqrun]. rewrite !bind_assoc. reflexivity.
Qed.

(** * One statement on a hart *)

Abbreviation locks s := (h_locks (k_hart s)).

(** a hart between two statements: who it is, the process it runs, how deep
    its [push_off] nesting is *)
Record calm (id : Z) (pr : option nat) (n : Z) (h : hart) : Prop := {
  ca_id : h_id h = id;
  ca_proc : h_proc h = pr;
  ca_noff : h_noff h = n;
  ca_ok : hart_ok h;
  ca_intena : h_intena h = 0 \/ h_intena h = 1
}.

Lemma calm_locks id pr n h f : calm id pr n h -> calm id pr n (h_set_locks f h).
Proof. intros [? ? ? [? ? ?] ?]. by repeat split. Qed.

Lemma calm_push id pr n h : calm id pr n h -> calm id pr (n + 1) (h_push h).
Proof.
  intros [? ? ? Hok Hi]. split; cbn; try done; [lia|by apply h_push_ok|]. destruct (h_noff h =? 0); [apply h_intr_01|done].
Qed.

Lemma calm_pop id pr n h : calm id pr n h -> 0 < n -> calm id pr (n - 1) (h_pop h).
Proof.
  intros [? ? <- [H1 H2 H3] Hi] Hn. split; cbn; try done. pose proof (H3 Hn) as H0. rewrite h_intr_bit in H0. split; cbn; [lia| |].
  - intros E0. rewrite h_intr_bit. cbn. rewrite (proj2 (Z.eqb_eq _ _) E0). cbn [andb]. destruct Hi as [->| ->]; cbn [nz Z.eqb negb].
    + by rewrite H0.
    + rewrite Z.lor_spec. change (Z.testbit SSTATUS_SIE 1) with true. by rewrite orb_true_r.
  - intros Hp. rewrite h_intr_bit. cbn. destruct (Z.eqb_spec (h_noff h - 1) 0); [lia|]. exact H0.
Qed.

Lemma calm_acquire id pr n h s l : calm id pr n h -> locks s !! l = None ->
  exists h', acquire l (on_hart h s) = Ok tt (set_hart (fun _ => h') s) /\
    calm id pr (n + 1) h' /\ h_locks h' = <[l := id]> (locks s).
Proof.
  intros C Hl. eexists. split; [|split].
  - rewrite acquire_run; [reflexivity|]. split; [|exact Hl]. apply (calm_locks _ _ _ _ (fun _ => locks s)) in C. apply C.
  - apply calm_locks, calm_push, calm_locks, C.
  - change (<[l := h_id h]> (locks s) = <[l := id]> (locks s)). by rewrite (ca_id _ _ _ _ C).
Qed.

Lemma calm_release id pr n h s l : calm id pr n h -> 0 < n -> locks s !! l = Some id ->
  exists h', release l (on_hart h s) = Ok tt (set_hart (fun _ => h') s) /\
    calm id pr (n - 1) h' /\ h_locks h' = delete l (locks s).
Proof.
  intros C Hn Hl. pose proof (calm_locks _ _ _ _ (fun _ => locks s) C) as [C1 C2 C3 C4 C5]. eexists. split; [|split].
  - rewrite release_run; [reflexivity| | |].
    + change (locks s !! l = Some (h_id h)). by rewrite Hl, (ca_id _ _ _ _ C).
    + apply (ho_in _ C4). by rewrite C3.
    + change (0 < h_noff (h_set_locks (fun _ => locks s) h)). by rewrite C3.
  - apply calm_pop; [|done]. apply calm_locks, calm_locks, C.
  - reflexivity.
Qed.

(** a lock another hart holds stops the thread *)
Lemma calm_blocked id pr n h s l x : calm id pr n h -> locks s !! l = Some x -> x <> id ->
  exists s', acquire l (on_hart h s) = Hang "acquire: spinning" s'.
Proof.
  intros C Hl Hx. unfold acquire. erewrite bind_ok by apply push_off_run. erewrite bind_ok by apply holding_run.
  change (h_locks (k_hart (set_hart h_push (on_hart h s)))) with (locks s). change (h_id (k_hart (set_hart h_push (on_hart h s)))) with (h_id h).
  rewrite Hl, (ca_id _ _ _ _ C), bool_decide_false by congruence. cbn [b2z nz Z.eqb negb]. rewrite bind_gets.
  change (h_locks (k_hart (set_hart h_push (on_hart h s)))) with (locks s). rewrite Hl. eexists. reflexivity.
Qed.

(** * The states of the race *)

(** where the sleeping thread is: before each of its statements up to the
    switch, then in the scheduler *)
Inductive sphase := SStart | SAcq | SRel | SChan | SState | SSched | SBack | SUnlock | SEnd.

#[global] Instance sphase_eq_dec : EqDecision sphase.
Proof. solve_decision. Defined.

(** where a waking thread is: [WLoop l] with the processes [l] left to visit *)
Inductive wphase :=
| WStart | WUpd | WLoop (l : list nat)
| WAcq (i : nat) (l : list nat) | WGet (i : nat) (l : list nat)
| WSet (i : nat) (q : proc) (l : list nat) | WRel (i : nat) (l : list nat) | WEnd.

(** the locks held *)
Definition s_lk (a : sphase) : bool := match a with SStart | SAcq | SRel => true | _ => false end.
Definition s_pl (a : sphase) : bool := match a with SStart | SAcq | SEnd => false | _ => true end.
Definition s_noff (a : sphase) : Z := match a with SRel => 2 | SEnd => 0 | _ => 1 end.
Definition waiting (w : wphase) : bool := match w with WStart => true | _ => false end.
Definition inside (w : wphase) : bool := match w with WStart | WEnd => false | _ => true end.
Definition held (w : wphase) : option nat := match w with WGet i _ | WSet i _ _ | WRel i _ => Some i | _ => None end.
Definition w_noff (w : wphase) : Z := b2z (inside w) + match held w with Some _ => 1 | None => 0 end.

(** the processes a thread has still to visit *)
Definition todo (w : wphase) : list nat :=
  match w with
  | WStart | WUpd => procs
  | WLoop l => l
  | WAcq i l | WGet i l | WSet i _ l => i :: l
  | WRel i l => l
  | WEnd => []
  end.

(** statements left *)
Definition s_rank (a : sphase) : nat :=
  match a with SStart => 8 | SAcq => 7 | SRel => 6 | SChan => 5 | SState => 4 | SSched => 3 | SBack => 2 | SUnlock => 1 | SEnd => 0 end.
Definition w_rank (w : wphase) : nat :=
  match w with
  | WStart => 5 * length procs + 3 | WUpd => 5 * length procs + 2 | WLoop l => 5 * length l + 1
  | WAcq _ l => 5 * length l + 5 | WGet _ l => 5 * length l + 4 | WSet _ _ l => 5 * length l + 3 | WRel _ l => 5 * length l + 2 | WEnd => 0
  end.

Section race.
Context (ch : chan) (lk : lockid) (p : nat) (me : Z) (ks : list waker).
Hypothesis Hlk : forall i, lk <> LProc i.
Hypothesis Hp : (p < Z.to_nat NPROC)%nat.
Hypothesis Hids : NoDup (me :: map (fun k => h_id (w_hart k)) ks).
Hypothesis Hother : forall k, k ∈ ks -> h_proc (w_hart k) <> Some p.
Hypothesis Hupd : forall k s, k ∈ ks -> k_hart (w_upd k s) = k_hart s /\ k_procs (w_upd k s) = k_procs s.

(** the programs *)
Definition s_thr (a : sphase) : thr :=
  let sw := sched >> modify (upd_proc p (p_set_chan (fun _ => ChNull))) >> release (LProc p) >> acquire lk >> Done in
  let st := modify (upd_proc p (p_set_state (fun _ => SLEEPING))) >> sw in
  let sc := modify (upd_proc p (p_set_chan (fun _ => ch))) >> st in
  match a with
  | SStart => sleep_thr ch lk Done
  | SAcq => acquire (LProc p) >> release lk >> sc
  | SRel => release lk >> sc
  | SChan => sc | SState => st | SSched => sw
  | SBack => scheduler_back p
  | SUnlock => release (LProc p) >> Done
  | SEnd => Done
  end.

Definition w_thr (f : kstate -> kstate) (w : wphase) : thr :=
  let loop l := wakeup_thr ch l (release lk >> Done) in
  let set i q l := whenM (bool_decide (p_state q = SLEEPING /\ p_chan q = ch))
    (modify (upd_proc i (p_set_state (fun _ => RUNNABLE)))) >> release (LProc i) >> loop l in
  match w with
  | WStart => waker_thr ch lk f
  | WUpd => modify f >> loop procs
  | WLoop l => loop l
  | WAcq i l => acquire (LProc i) >> do! q := get_proc i in set i q l
  | WGet i l => do! q := get_proc i in set i q l
  | WSet i q l => set i q l
  | WRel i l => release (LProc i) >> loop l
  | WEnd => Done
  end.

Definition s_proc (a : sphase) : option nat := match a with SUnlock | SEnd => None | _ => Some p end.

(** the process as the sleeping thread has left it *)
Definition asleep (q : proc) : Prop := p_state q = SLEEPING /\ p_chan q = ch.
Definition woken (q : proc) : Prop := p_state q = RUNNABLE /\ p_chan q = ch.
Definition s_says (a : sphase) (q : proc) : Prop :=
  match a with
  | SStart | SAcq | SRel | SChan => True
  | SState => p_chan q = ch
  | SSched | SBack | SUnlock => asleep q
  | SEnd => asleep q \/ woken q
  end.

(** what holds of a waking thread: it is in the section of [lk] only after
    the sleeping thread has left it, and once it has visited the process this
    has been woken *)
Record w_says (a : sphase) (L : gmap lockid Z) (q : proc) (k : waker) (w : wphase) : Prop := {
  ws_lk : inside w = true -> L !! lk = Some (h_id (w_hart k)) /\ s_lk a = false;
  ws_pl i : held w = Some i -> L !! LProc i = Some (h_id (w_hart k));
  ws_todo i : i ∈ todo w -> (i < Z.to_nat NPROC)%nat;
  ws_held i : held w = Some i -> (i < Z.to_nat NPROC)%nat;
  ws_seen x l : w = WSet p x l -> asleep x \/ woken q;
  ws_done : p ∉ todo w -> a = SEnd /\ woken q
}.

Record inv (a : sphase) (ws : list wphase) (c : conf) : Prop := {
  iv_len : length ws = length ks;
  iv_procs : length (k_procs (c_state c)) = Z.to_nat NPROC;
  iv_s : exists h, c_threads c !! 0%nat = Some (h, s_thr a) /\ calm me (s_proc a) (s_noff a) h;
  iv_w j k w : ks !! j = Some k -> ws !! j = Some w ->
    exists h, c_threads c !! S j = Some (h, w_thr (w_upd k) w) /\ calm (h_id (w_hart k)) (h_proc (w_hart k)) (w_noff w) h;
  iv_q : exists q, k_procs (c_state c) !! p = Some q /\ s_says a q /\
    forall j k w, ks !! j = Some k -> ws !! j = Some w -> w_says a (locks (c_state c)) q k w;
  iv_slk : s_lk a = true -> locks (c_state c) !! lk = Some me;
  iv_spl : s_pl a = true -> locks (c_state c) !! LProc p = Some me;
  iv_lk x : locks (c_state c) !! lk = Some x -> s_lk a = true /\ x = me \/
    exists j k w, ks !! j = Some k /\ ws !! j = Some w /\ inside w = true /\ x = h_id (w_hart k);
  iv_pl i x : locks (c_state c) !! LProc i = Some x -> i = p /\ s_pl a = true /\ x = me \/
    exists j k w, ks !! j = Some k /\ ws !! j = Some w /\ held w = Some i /\ x = h_id (w_hart k)
}.
Local Abbreviation wid k := (h_id (w_hart k)).

Lemma wid_me j k : ks !! j = Some k -> wid k <> me.
Proof.
  intros Hj E. apply NoDup_cons in Hids as [Hn _]. apply Hn. apply list_elem_of_fmap. exists k.
  split; [done|]. by eapply list_elem_of_lookup_2.
Qed.

Lemma wid_inj j j' k k' : ks !! j = Some k -> ks !! j' = Some k' -> wid k = wid k' -> j = j'.
Proof.
  intros Hj Hj' E. apply NoDup_cons in Hids as [_ Hn]. eapply (NoDup_lookup _ _ _ (wid k) Hn); [by rewrite list_lookup_fmap, Hj|].
  by rewrite list_lookup_fmap, Hj', E.
Qed.

Lemma held_inside w i : held w = Some i -> inside w = true.
Proof. by destruct w. Qed.

Lemma w_says_s a a' L L' q q' j k w : a <> SEnd -> ks !! j = Some k -> w_says a L q k w ->
  (s_lk a = true \/ L !! LProc p = Some me) -> (s_lk a = false -> s_lk a' = false /\ L' !! lk = L !! lk) ->
  (forall i, i <> p -> L' !! LProc i = L !! LProc i) -> w_says a' L' q' k w.
Proof.
  intros Ha Hj [W1 W2 W3 W4 W5 W6] HL H1 H2.
  assert (forall i, held w = Some i -> i <> p) as Hne.
  { intros i Hi ->. destruct (W1 (held_inside _ _ Hi)) as [_ E]. destruct HL as [|HL]; [congruence|].
    rewrite (W2 _ Hi) in HL. injection HL. by eapply wid_me. }
  split; try done.
  - intros Hi. destruct (W1 Hi) as [E1 E2]. destruct (H1 E2) as [? ->]. done.
  - intros i Hi. rewrite H2 by (by apply Hne). by apply W2.
  - intros x l ->. by destruct (Hne p).
  - intros Hi. by destruct (W6 Hi).
Qed.

Lemma w_says_out a L L' q q' k w : inside w = false -> (woken q -> woken q') ->
  w_says a L q k w -> w_says a L' q' k w.
Proof. intros Hi Hq [W1 W2 W3 W4 W5 W6]. split; try done; destruct w; try done; intros H; destruct (W6 H); auto. Qed.

(** ** The sleeping thread moves *)

Lemma inv_s a a' ws c s' q' : inv a ws c -> a <> SEnd -> calm me (s_proc a') (s_noff a') (k_hart s') ->
  length (k_procs s') = Z.to_nat NPROC -> k_procs s' !! p = Some q' -> s_says a' q' ->
  (s_lk a = false -> s_lk a' = false /\ locks s' !! lk = locks (c_state c) !! lk) ->
  (forall i, i <> p -> locks s' !! LProc i = locks (c_state c) !! LProc i) ->
  locks s' !! LProc p = (if s_pl a' then Some me else None) ->
  (s_lk a = true -> locks s' !! lk = if s_lk a' then Some me else None) ->
  inv a' ws (mkconf s' (<[0%nat := (k_hart s', s_thr a')]> (c_threads c))).
Proof.
  intros [I1 I2 I3 I4 I5 I6 I7 I8 I9] Ha Cm Hlen Hq Hs H1 H2 H3 H4. destruct I3 as (h & I3 & _). destruct I5 as (q & I5 & _ & I5').
  assert (s_lk a = true \/ locks (c_state c) !! LProc p = Some me) as HL.
  { destruct (s_lk a) eqn:E; [by left|right]. apply I7. by destruct a. }
  split; cbn [c_state c_threads]; try done.
  - exists (k_hart s'). split; [|done]. by rewrite list_lookup_insert_eq by (by eapply lookup_lt_Some).
  - intros j k w Hk Hw. destruct (I4 j k w Hk Hw) as (h' & E & C'). exists h'. split; [|done]. by rewrite list_lookup_insert_ne.
  - exists q'. split; [done|]. split; [done|]. intros j k w Hk Hw. eapply w_says_s; [exact Ha|exact Hk|by eapply I5'|done..].
  - intros E. destruct (s_lk a) eqn:Ea; [by rewrite H4, E|]. destruct (H1 eq_refl) as [? _]. congruence.
  - intros E. by rewrite H3, E.
  - intros x Hx. destruct (s_lk a) eqn:Ea.
    + rewrite H4 in Hx by done. left. destruct (s_lk a'); [|done]. by injection Hx as <-.
    + destruct (H1 eq_refl) as [E1 E2]. rewrite E2 in Hx. destruct (I8 x Hx) as [[? _]|?]; [done|by right].
  - intros i x Hx. destruct (decide (i = p)) as [->|Hi].
    + rewrite H3 in Hx. left. destruct (s_pl a'); [|done]. by injection Hx as <-.
    + rewrite H2 in Hx by done. destruct (I9 i x Hx) as [(? & _)|?]; [done|by right].
Qed.

Lemma hart_step_run i c h t s' t' : c_threads c !! i = Some (h, t) -> tstep h t (c_state c) = Some (s', t') ->
  hart_step i c = Some (mkconf s' (<[i := (k_hart s', t')]> (c_threads c))).
Proof. intros E1 E2. unfold hart_step. by rewrite E1, E2. Qed.

(** a statement of the sleeping thread that leaves the locks alone *)
Lemma s_step_same a a' ws c h h' f q : inv a ws c -> a <> SEnd -> a' <> SEnd ->
  c_threads c !! 0%nat = Some (h, s_thr a) ->
  tstep h (s_thr a) (c_state c) = Some (set_hart (fun _ => h_set_locks (fun _ => locks (c_state c)) h') (upd_proc p f (c_state c)), s_thr a') ->
  calm me (s_proc a') (s_noff a') h' -> k_procs (c_state c) !! p = Some q -> s_says a' (f q) ->
  s_lk a' = s_lk a -> s_pl a' = s_pl a -> (s_pl a = false -> locks (c_state c) !! LProc p = None) ->
  exists c', hart_step 0 c = Some c' /\ inv a' ws c'.
Proof.
  intros I Ha Ha' Ht E Cm Hq Hs E1 E2 Hn. eexists. split; [by eapply hart_step_run|].
  eapply inv_s; [exact I|done|by apply calm_locks| | |exact Hs|..].
  - ksimp. rewrite length_alter. by destruct I.
  - ksimp. by rewrite list_lookup_alter_eq, Hq.
  - intros E0. split; [congruence|done].
  - done.
  - rewrite E2. change (locks (c_state c) !! LProc p = if s_pl a then Some me else None).
    destruct (s_pl a) eqn:Es; [by apply (iv_spl _ _ _ I)|by apply Hn].
  - intros E0. rewrite E1, E0. change (locks (c_state c) !! lk = Some me). by apply (iv_slk _ _ _ I).
Qed.

Lemma s_plock_free a ws c : inv a ws c -> s_lk a = true -> s_pl a = false -> locks (c_state c) !! LProc p = None.
Proof.
  intros I E1 E2. destruct (locks (c_state c) !! LProc p) as [x|] eqn:E; [|done].
  destruct (iv_pl _ _ _ I p x E) as [(_ & ? & _)|(j & k & w & Hk & Hw & Hh & _)]; [congruence|].
  destruct (iv_q _ _ _ I) as (q & _ & _ & W). destruct (W j k w Hk Hw) as [W1 _ _ _ _ _].
  destruct (W1 (held_inside _ _ Hh)). congruence.
Qed.

Lemma upd_proc_id s : upd_proc p id s = s.
Proof. unfold upd_proc, set_procs. by rewrite list_alter_id. Qed.

Lemma s_step a ws c : inv a ws c -> a <> SEnd ->
  exists a' c', hart_step 0 c = Some c' /\ inv a' ws c' /\ (s_rank a' < s_rank a)%nat.
Proof.
  intros I Ha. destruct (iv_s _ _ _ I) as (h & Ht & Cm). destruct (iv_q _ _ _ I) as (q & Hq & Hs & _).
  pose proof (calm_locks _ _ _ _ (fun _ => locks (c_state c)) Cm) as CL. pose proof (s_plock_free _ _ _ I) as Hpf.
  pose proof (iv_spl _ _ _ I) as Hspl. pose proof (iv_slk _ _ _ I) as Hslk. pose proof (iv_procs _ _ _ I) as Hlen.
  destruct a; try done.
  - exists SAcq. edestruct (s_step_same SStart SAcq ws c h h id q) as (c' & E & I'); [done..| | |exact Hq| | | |auto|].
    { cbn [tstep s_thr sleep_thr]. unfold sleep_thr. rewrite (myproc_deref_run _ p); [|apply CL|apply CL]. rewrite upd_proc_id. reflexivity. }
    all: try done. exists c'. split; [done|]. split; [done|]. cbn. lia.
  - destruct (calm_acquire _ _ _ _ _ (LProc p) Cm (Hpf eq_refl eq_refl)) as (h' & E & C' & EL). exists SRel. eexists.
    split; [eapply hart_step_run; [exact Ht|]; cbn [tstep s_thr]; by rewrite E|]. split; [|cbn; lia].
    eapply inv_s; [exact I|done|exact C'|done|exact Hq|done|done|..]; change (locks (set_hart (fun _ => h') (c_state c))) with (h_locks h'); rewrite EL.
    + intros i Hi. rewrite lookup_insert_ne; congruence.
    + by rewrite lookup_insert_eq.
    + intros _. rewrite lookup_insert_ne by (intros E'; by apply (Hlk p)). by apply Hslk.
  - destruct (calm_release _ _ _ _ _ lk Cm ltac:(done) (Hslk eq_refl)) as (h' & E & C' & EL). exists SChan. eexists.
    split; [eapply hart_step_run; [exact Ht|]; cbn [tstep s_thr]; by rewrite E|]. split; [|cbn; lia].
    eapply inv_s; [exact I|done|exact C'|done|exact Hq|done|done|..]; change (locks (set_hart (fun _ => h') (c_state c))) with (h_locks h'); rewrite EL.
    + intros i Hi. by rewrite lookup_delete_ne by apply Hlk.
    + rewrite lookup_delete_ne by apply Hlk. by apply Hspl.
    + intros _. apply lookup_delete_eq.
  - exists SState. edestruct (s_step_same SChan SState ws c h h (p_set_chan (fun _ => ch)) q) as (c' & E & I'); try done.
    exists c'. split; [done|]. split; [done|]. cbn. lia.
  - exists SSched. edestruct (s_step_same SState SSched ws c h h (p_set_state (fun _ => SLEEPING)) q) as (c' & E & I'); try done.
    exists c'. split; [done|]. split; [done|]. cbn. lia.
  - exists SBack. edestruct (s_step_same SSched SBack ws c h h id q) as (c' & E & I'); [done..| | |exact Hq| | | |done|].
    { cbn [tstep s_thr]. rewrite (sched_run p).
      - rewrite (ca_proc _ _ _ _ Cm), upd_proc_id. reflexivity.
      - apply CL.
      - apply CL.
      - change (locks (c_state c) !! LProc p = Some (h_id h)). rewrite (ca_id _ _ _ _ Cm). by apply Hspl.
      - apply CL.
      - exists q. split; [exact Hq|]. destruct Hs as [-> _]. done. }
    all: try done. exists c'. split; [done|]. split; [done|]. cbn. lia.
  - exists SUnlock. edestruct (s_step_same SBack SUnlock ws c h (h_set_proc (fun _ => None) h) id q) as (c' & E & I'); [done..| | |exact Hq| | | |done|].
    { rewrite upd_proc_id. reflexivity. }
    { destruct Cm as [? ? ? [? ? ?] ?]. by repeat split. }
    all: try done. exists c'. split; [done|]. split; [done|]. cbn. lia.
  - destruct (calm_release _ _ _ _ _ (LProc p) Cm ltac:(done) (Hspl eq_refl)) as (h' & E & C' & EL). exists SEnd. eexists.
    split; [eapply hart_step_run; [exact Ht|]; cbn [tstep s_thr]; by rewrite E|]. split; [|cbn; lia].
    eapply inv_s; [exact I|done|exact C'|done|exact Hq|by left|..]; change (locks (set_hart (fun _ => h') (c_state c))) with (h_locks h'); rewrite EL.
    + intros _. split; [done|]. rewrite lookup_delete_ne; [done|]. intros E'. by apply (Hlk p).
    + intros i Hi. rewrite lookup_delete_ne; congruence.
    + apply lookup_delete_eq.
    + done.
Qed.

(** ** A waking thread moves *)

(** only the thread that holds [lk], or takes it, moves: the others wait for
    it or have finished *)
Lemma others_out a ws c j k w j' k' w' : inv a ws c -> ks !! j = Some k -> ws !! j = Some w ->
  (inside w = true \/ locks (c_state c) !! lk = None) -> ks !! j' = Some k' -> ws !! j' = Some w' -> j' <> j -> inside w' = false.
Proof.
  intros I Hk Hw Hin Hk' Hw' Hne. destruct (inside w') eqn:E; [|done]. destruct (iv_q _ _ _ I) as (q & _ & _ & W).
  destruct (ws_lk _ _ _ _ _ (W j' k' w' Hk' Hw') E) as [E' _]. destruct Hin as [Hin|Hin]; [|congruence].
  destruct (ws_lk _ _ _ _ _ (W j k w Hk Hw) Hin) as [E2 _]. rewrite E2 in E'. injection E' as E'.
  destruct Hne. by eapply wid_inj.
Qed.

Lemma w_leaves_lk a ws c j k w : inv a ws c -> ks !! j = Some k -> ws !! j = Some w ->
  (inside w = true \/ locks (c_state c) !! lk = None) -> s_lk a = false.
Proof.
  intros I Hk Hw [Hin|Hin].
  - destruct (iv_q _ _ _ I) as (q & _ & _ & W). by destruct (ws_lk _ _ _ _ _ (W j k w Hk Hw) Hin).
  - destruct (s_lk a) eqn:E; [|done]. rewrite (iv_slk _ _ _ I E) in Hin. done.
Qed.

Lemma inv_w a ws c j k w w' s' q q' : inv a ws c -> ks !! j = Some k -> ws !! j = Some w ->
  (inside w = true \/ locks (c_state c) !! lk = None) ->
  calm (wid k) (h_proc (w_hart k)) (w_noff w') (k_hart s') -> length (k_procs s') = Z.to_nat NPROC ->
  k_procs (c_state c) !! p = Some q -> k_procs s' !! p = Some q' -> (s_says a q -> s_says a q') -> (woken q -> woken q') ->
  w_says a (locks s') q' k w' ->
  (forall x, locks s' !! lk = Some x -> x = wid k /\ inside w' = true) ->
  (forall i x, locks s' !! LProc i = Some x ->
     held w' = Some i /\ x = wid k \/ locks (c_state c) !! LProc i = Some x /\ held w <> Some i) ->
  (locks (c_state c) !! LProc p = Some me -> locks s' !! LProc p = Some me) ->
  inv a (<[j := w']> ws) (mkconf s' (<[S j := (k_hart s', w_thr (w_upd k) w')]> (c_threads c))).
Proof.
  intros I Hk Hw Hin Cm Hlen Hq Hq' Hsq Hwq W' H1 H2 H3. pose proof (w_leaves_lk _ _ _ _ _ _ I Hk Hw Hin) as Hlk0.
  assert (forall j' k' w'', ks !! j' = Some k' -> ws !! j' = Some w'' -> j' <> j -> inside w'' = false) as Hout.
  { intros j' k' w'' E1 E2 E3. exact (others_out a ws c j k w j' k' w'' I Hk Hw Hin E1 E2 E3). }
  destruct I as [I1 I2 I3 I4 I5 I6 I7 I8 I9]. destruct I5 as (q0 & E0 & I5 & W). assert (q0 = q) as -> by congruence.
  assert ((j < length ws)%nat) as Hj by (by eapply lookup_lt_Some).
  split; cbn [c_state c_threads]; try done.
  - by rewrite length_insert.
  - destruct I3 as (h & E & C'). exists h. split; [|done]. by rewrite list_lookup_insert_ne.
  - intros j' k' w'' Hk' Hw'. destruct (decide (j' = j)) as [->|Hne].
    + rewrite list_lookup_insert_eq in Hw' by done. injection Hw' as <-. assert (k' = k) as -> by congruence.
      exists (k_hart s'). split; [|done]. destruct (I4 j k w Hk Hw) as (h & E & _). by rewrite list_lookup_insert_eq by (by eapply lookup_lt_Some).
    + rewrite list_lookup_insert_ne in Hw' by congruence. destruct (I4 j' k' w'' Hk' Hw') as (h & E & C'). exists h. split; [|done].
      rewrite list_lookup_insert_ne; [done|congruence].
  - exists q'. split; [done|]. split; [by apply Hsq|]. intros j' k' w'' Hk' Hw'. destruct (decide (j' = j)) as [->|Hne].
    + rewrite list_lookup_insert_eq in Hw' by done. injection Hw' as <-. by assert (k' = k) as -> by congruence.
    + rewrite list_lookup_insert_ne in Hw' by congruence. eapply w_says_out; [by eapply Hout|exact Hwq|by eapply W].
  - congruence.
  - intros Hs. by apply H3, I7.
  - intros x Hx. destruct (H1 x Hx) as [-> Hi]. right. exists j, k, w'. by rewrite list_lookup_insert_eq.
  - intros i x Hx. destruct (H2 i x Hx) as [[Hh ->]|[Hx' Hh]].
    { right. exists j, k, w'. by rewrite list_lookup_insert_eq. }
    destruct (I9 i x Hx') as [?|(j' & k' & w'' & Hk' & Hw' & Hh' & ->)]; [by left|]. right. exists j', k', w''.
    destruct (decide (j' = j)) as [->|Hne]; [congruence|]. by rewrite list_lookup_insert_ne by congruence.
Qed.

(** a statement of a waking thread that leaves the locks and the processes alone *)
Lemma w_step_same a ws c j k w w' h s' q : inv a ws c -> ks !! j = Some k -> ws !! j = Some w -> inside w = true -> inside w' = true ->
  c_threads c !! S j = Some (h, w_thr (w_upd k) w) -> tstep h (w_thr (w_upd k) w) (c_state c) = Some (s', w_thr (w_upd k) w') ->
  k_hart s' = h_set_locks (fun _ => locks (c_state c)) h -> k_procs s' = k_procs (c_state c) -> held w' = held w ->
  k_procs (c_state c) !! p = Some q -> (forall x l, w' = WSet p x l -> asleep x \/ woken q) ->
  (p ∉ todo w' -> p ∉ todo w) -> (forall i, i ∈ todo w' -> (i < Z.to_nat NPROC)%nat) ->
  exists c', hart_step (S j) c = Some c' /\ inv a (<[j := w']> ws) c'.
Proof.
  intros I Hk Hw Hi Hi' Ht E Eh Ep Ehd Hq Hseen Htodo Hr. eexists. split; [by eapply hart_step_run|].
  destruct (iv_w _ _ _ I j k w Hk Hw) as (h0 & Ht0 & Cm). assert (h0 = h) as -> by congruence.
  destruct (iv_q _ _ _ I) as (q0 & Hq0 & Hs & W). assert (q0 = q) as -> by congruence. destruct (W j k w Hk Hw) as [W1 W2 W3 W4 W5 W6].
  assert (locks s' = locks (c_state c)) as EL by (by rewrite Eh).
  eapply inv_w; [exact I|exact Hk|exact Hw|by left| | |exact Hq|by rewrite Ep|done|done|..]; rewrite ?EL, ?Ep; try by destruct I.
  - rewrite Eh. apply calm_locks. unfold w_noff in *. by rewrite Hi', Ehd, <-Hi.
  - split; rewrite ?Ehd; try done.
    + intros _. by apply W1.
    + auto.
  - intros x Hx. destruct (W1 Hi) as [E1 _]. rewrite E1 in Hx. by injection Hx as <-.
  - intros i x Hx. rewrite Ehd. destruct (decide (held w = Some i)) as [Hh|]; [|by right].
    left. split; [done|]. rewrite (W2 i Hh) in Hx. by injection Hx as <-.
Qed.

(** the lock a waking thread is about to take *)
Definition wants (w : wphase) : option lockid :=
  match w with WStart => Some lk | WAcq i _ => Some (LProc i) | _ => None end.

(** the sleeping thread has gone when another one holds the process lock *)
Lemma s_gone a ws c j k w : inv a ws c -> ks !! j = Some k -> ws !! j = Some w -> held w = Some p -> a = SEnd.
Proof.
  intros I Hk Hw Hh. destruct (iv_q _ _ _ I) as (q & _ & _ & W). destruct (W j k w Hk Hw) as [W1 W2 _ _ _ _].
  destruct (W1 (held_inside _ _ Hh)) as [_ E1]. destruct (s_pl a) eqn:E2; [|by destruct a].
  pose proof (iv_spl _ _ _ I E2) as E. rewrite (W2 p Hh) in E. injection E as E. by destruct (wid_me j k Hk).
Qed.

Lemma w_step_acquire a ws c j k w w' h l q : inv a ws c -> ks !! j = Some k -> ws !! j = Some w ->
  c_threads c !! S j = Some (h, w_thr (w_upd k) w) ->
  w_thr (w_upd k) w = (acquire l >> w_thr (w_upd k) w') -> locks (c_state c) !! l = None ->
  k_procs (c_state c) !! p = Some q -> wants w = Some l ->
  (w = WStart /\ w' = WUpd \/ exists i r, w = WAcq i r /\ w' = WGet i r) ->
  exists c', hart_step (S j) c = Some c' /\ inv a (<[j := w']> ws) c'.
Proof.
  intros I Hk Hw Ht Et Hf Hq Hwant Hcase. destruct (iv_w _ _ _ I j k w Hk Hw) as (h0 & Ht0 & Cm). assert (h0 = h) as -> by congruence.
  destruct (iv_q _ _ _ I) as (q0 & Hq0 & Hs & W). assert (q0 = q) as -> by congruence. destruct (W j k w Hk Hw) as [W1 W2 W3 W4 W5 W6].
  destruct (calm_acquire _ _ _ _ _ l Cm Hf) as (h' & E & C' & EL). eexists. split.
  { eapply hart_step_run; [exact Ht|]. rewrite Et. cbn [tstep]. by rewrite E. }
  assert (inside w = true \/ locks (c_state c) !! lk = None) as Hin.
  { destruct Hcase as [[-> ->]|(i & r & -> & ->)]; [right|by left]. by injection Hwant as <-. }
  pose proof (w_leaves_lk _ _ _ _ _ _ I Hk Hw Hin) as Hlk0.
  eapply inv_w; [exact I|exact Hk|exact Hw|exact Hin| |by destruct I|exact Hq|exact Hq|done|done|..];
    change (locks (set_hart (fun _ => h') (c_state c))) with (h_locks h'); rewrite ?EL.
  - change (k_hart (set_hart (fun _ => h') (c_state c))) with h'. by destruct Hcase as [[-> ->]|(i & r & -> & ->)].
  - destruct Hcase as [[-> ->]|(i & r & -> & ->)]; injection Hwant as <-.
    + split; try done. intros _. by rewrite lookup_insert_eq.
    + destruct (W1 eq_refl). split; try done.
      * intros _. split; [|done]. rewrite lookup_insert_ne; [done|]. intros E'. by apply (Hlk i).
      * intros i' [= <-]. apply lookup_insert_eq.
      * intros i' [= <-]. apply W3. cbn. set_solver.
  - intros x Hx. destruct Hcase as [[-> ->]|(i & r & -> & ->)]; injection Hwant as <-.
    + rewrite lookup_insert_eq in Hx. by injection Hx as <-.
    + rewrite lookup_insert_ne in Hx by (intros E'; by apply (Hlk i)). destruct (W1 eq_refl) as [E1 _].
      rewrite E1 in Hx. by injection Hx as <-.
  - intros i' x Hx. destruct Hcase as [[-> ->]|(i & r & -> & ->)]; injection Hwant as <-.
    + rewrite lookup_insert_ne in Hx by apply Hlk. by right.
    + destruct (decide (i' = i)) as [->|Hne]; [left|right].
      * rewrite lookup_insert_eq in Hx. by injection Hx as <-.
      * rewrite lookup_insert_ne in Hx by congruence. done.
  - intros Hme. rewrite lookup_insert_ne; [done|]. congruence.
Qed.

Lemma w_step_release a ws c j k w w' h l q : inv a ws c -> ks !! j = Some k -> ws !! j = Some w ->
  c_threads c !! S j = Some (h, w_thr (w_upd k) w) ->
  w_thr (w_upd k) w = (release l >> w_thr (w_upd k) w') -> k_procs (c_state c) !! p = Some q ->
  (w = WLoop [] /\ w' = WEnd /\ l = lk \/ exists i r, w = WRel i r /\ w' = WLoop r /\ l = LProc i) ->
  exists c', hart_step (S j) c = Some c' /\ inv a (<[j := w']> ws) c'.
Proof.
  intros I Hk Hw Ht Et Hq Hcase. destruct (iv_w _ _ _ I j k w Hk Hw) as (h0 & Ht0 & Cm). assert (h0 = h) as -> by congruence.
  destruct (iv_q _ _ _ I) as (q0 & Hq0 & Hs & W). assert (q0 = q) as -> by congruence. destruct (W j k w Hk Hw) as [W1 W2 W3 W4 W5 W6].
  assert (inside w = true /\ 0 < w_noff w /\ locks (c_state c) !! l = Some (wid k)) as (Hin & Hn & Hl).
  { destruct Hcase as [(-> & _ & ->)|(i & r & -> & _ & ->)]; split_and!; try done; [by apply W1|by apply W2]. }
  destruct (calm_release _ _ _ _ _ l Cm Hn Hl) as (h' & E & C' & EL). eexists. split.
  { eapply hart_step_run; [exact Ht|]. rewrite Et. cbn [tstep]. by rewrite E. }
  eapply inv_w; [exact I|exact Hk|exact Hw|by left| |by destruct I|exact Hq|exact Hq|done|done|..];
    change (locks (set_hart (fun _ => h') (c_state c))) with (h_locks h'); rewrite ?EL.
  - change (k_hart (set_hart (fun _ => h') (c_state c))) with h'. by destruct Hcase as [(-> & -> & ->)|(i & r & -> & -> & ->)].
  - destruct Hcase as [(-> & -> & ->)|(i & r & -> & -> & ->)]; [by split|]. destruct (W1 eq_refl). split; try done.
    intros _. split; [|done]. rewrite lookup_delete_ne; [done|]. intros E'. by apply (Hlk i).
  - intros x Hx. destruct Hcase as [(-> & -> & ->)|(i & r & -> & -> & ->)]; [by rewrite lookup_delete_eq in Hx|].
    rewrite lookup_delete_ne in Hx by (intros E'; by apply (Hlk i)). destruct (W1 eq_refl) as [E1 _]. rewrite E1 in Hx. by injection Hx as <-.
  - intros i' x Hx. right. destruct Hcase as [(-> & -> & ->)|(i & r & -> & -> & ->)].
    + by rewrite lookup_delete_ne in Hx by apply Hlk.
    + destruct (decide (i' = i)) as [->|Hne]; [by rewrite lookup_delete_eq in Hx|].
      rewrite lookup_delete_ne in Hx by congruence. split; [done|]. cbn. congruence.
  - intros Hme. rewrite lookup_delete_ne; [done|]. intros ->. rewrite Hme in Hl. injection Hl as Hl. by destruct (wid_me j k Hk).
Qed.

(** the statement that wakes the process, if it sleeps on the channel *)
Lemma w_step_set a ws c j k i x r h q : inv a ws c -> ks !! j = Some k -> ws !! j = Some (WSet i x r) ->
  c_threads c !! S j = Some (h, w_thr (w_upd k) (WSet i x r)) -> k_procs (c_state c) !! p = Some q ->
  exists c', hart_step (S j) c = Some c' /\ inv a (<[j := WRel i r]> ws) c'.
Proof.
  intros I Hk Hw Ht Hq. destruct (iv_w _ _ _ I j k _ Hk Hw) as (h0 & Ht0 & Cm). assert (h0 = h) as -> by congruence.
  destruct (iv_q _ _ _ I) as (q0 & Hq0 & Hs & W). assert (q0 = q) as -> by congruence. destruct (W j k _ Hk Hw) as [W1 W2 W3 W4 W5 W6].
  destruct (W1 eq_refl) as [E1 E2]. set (b := bool_decide (p_state x = SLEEPING /\ p_chan x = ch)).
  set (s' := if b then upd_proc i (p_set_state (fun _ => RUNNABLE)) (on_hart h (c_state c)) else on_hart h (c_state c)).
  eexists. split.
  { eapply (hart_step_run _ _ _ _ s' (w_thr (w_upd k) (WRel i r))); [exact Ht|]. cbn [tstep w_thr]. fold b. unfold whenM, s'. by destruct b. }
  assert (k_hart s' = h_set_locks (fun _ => locks (c_state c)) h) as Eh by (unfold s'; by destruct b).
  assert (exists q', k_procs s' !! p = Some q' /\ (q' = q /\ i <> p \/ woken q' /\ a = SEnd)) as (q' & Hq' & Hc).
  { destruct (decide (i = p)) as [->|Hne].
    - pose proof (s_gone _ _ _ _ _ _ I Hk Hw eq_refl) as ->. assert (p_chan q = ch) as Hch by (by destruct Hs as [[]|[]]).
      unfold s'. destruct (W5 x r eq_refl) as [Hx|Hx].
      + unfold b. rewrite bool_decide_true by exact Hx. eexists. split; [ksimp; by rewrite list_lookup_alter_eq, Hq|]. by right.
      + destruct b; eexists; (split; [ksimp; rewrite ?list_lookup_alter_eq; by rewrite Hq|]); by right.
    - exists q. split; [|by left]. unfold s'. destruct b; [|done]. ksimp. by rewrite list_lookup_alter_ne by done. }
  eapply inv_w; [exact I|exact Hk|exact Hw|by left| | |exact Hq|exact Hq'|..]; rewrite ?Eh; try done.
  - by apply calm_locks.
  - unfold s'. destruct b; [ksimp; rewrite length_alter|]; by destruct I.
  - destruct Hc as [[-> _]|[Hc ->]]; [done|]. by right.
  - by destruct Hc as [[-> _]|[Hc _]].
  - split; try done.
    + intros y Hy. apply W3. cbn. set_solver.
    + intros Hr. destruct Hc as [[-> Hne]|[Hc ->]]; [|done]. apply W6. cbn. apply not_elem_of_cons. split; [congruence|done].
  - intros y Hy. change (locks (c_state c) !! lk = Some y) in Hy. rewrite E1 in Hy. by injection Hy as <-.
  - intros i' y Hy. change (locks (c_state c) !! LProc i' = Some y) in Hy. destruct (decide (i' = i)) as [->|Hne]; [left|right].
    + rewrite (W2 i eq_refl) in Hy. by injection Hy as <-.
    + split; [done|]. cbn. congruence.
Qed.

#[local] Opaque procs.

Lemma w_step a ws c j k w : inv a ws c -> ks !! j = Some k -> ws !! j = Some w -> w <> WEnd ->
  (forall l, wants w = Some l -> locks (c_state c) !! l = None) ->
  exists w' c', hart_step (S j) c = Some c' /\ inv a (<[j := w']> ws) c' /\ (w_rank w' < w_rank w)%nat.
Proof.
  intros I Hk Hw Hne Hfree. destruct (iv_w _ _ _ I j k w Hk Hw) as (h & Ht & Cm).
  destruct (iv_q _ _ _ I) as (q & Hq & Hs & W). destruct (W j k w Hk Hw) as [W1 W2 W3 W4 W5 W6].
  pose proof (calm_locks _ _ _ _ (fun _ => locks (c_state c)) Cm) as CL.
  enough (exists w', (exists c', hart_step (S j) c = Some c' /\ inv a (<[j := w']> ws) c') /\ (w_rank w' < w_rank w)%nat) as (w' & (c' & ? & ?) & ?)
    by (by exists w', c').
  destruct w as [| |[|i l]|i l|i l|i x l|i l|]; try done.
  - exists WUpd. split; [|cbn; lia]. eapply w_step_acquire; [done|exact Hk|exact Hw|exact Ht|done|by apply Hfree|done..|by left].
  - exists (WLoop procs). split; [|cbn; lia]. destruct (Hupd k (on_hart h (c_state c))) as [U1 U2]; [by eapply list_elem_of_lookup_2|].
    eapply (w_step_same a ws c j k WUpd (WLoop procs) h (w_upd k (on_hart h (c_state c)))); [exact I|exact Hk|exact Hw|done|done|exact Ht|reflexivity|exact U1|exact U2|done|exact Hq|done|auto|exact W3].
  - exists WEnd. split; [|cbn; lia]. eapply w_step_release; [done|exact Hk|exact Hw|exact Ht|done..|by left].
  - assert (tstep h (w_thr (w_upd k) (WLoop (i :: l))) (c_state c) =
      Some (on_hart h (c_state c), w_thr (w_upd k) (if bool_decide (h_proc (w_hart k) = Some i) then WLoop l else WAcq i l))) as E.
    { cbn [w_thr wakeup_thr foldr]. unfold wakeup_body_thr at 1. cbn [tstep]. rewrite myproc_run by apply CL.
      change (h_proc (k_hart (on_hart h (c_state c)))) with (h_proc h). rewrite (ca_proc _ _ _ _ Cm). by case_bool_decide. }
    destruct (decide (h_proc (w_hart k) = Some i)) as [Hi|Hi].
    + rewrite bool_decide_true in E by done. exists (WLoop l). split; [|cbn; lia].
      eapply w_step_same; [done|exact Hk|exact Hw|done|done|exact Ht|exact E|done..| |].
      * intros Hn. cbn. apply not_elem_of_cons. split; [|done]. intros ->. apply (Hother k); [by eapply list_elem_of_lookup_2|done].
      * intros y Hy. apply W3. cbn. by apply list_elem_of_further.
    + rewrite bool_decide_false in E by done. exists (WAcq i l). split; [|cbn; lia].
      eapply w_step_same; [done|exact Hk|exact Hw|done|done|exact Ht|exact E|done..].
  - exists (WGet i l). split; [|cbn; lia].
    eapply w_step_acquire; [done|exact Hk|exact Hw|exact Ht|done|by apply Hfree|done..|right; by exists i, l].
  - assert ((i < length (k_procs (c_state c)))%nat) as Hi by (rewrite (iv_procs _ _ _ I); by apply W4).
    destruct (lookup_lt_is_Some_2 _ _ Hi) as [x Hx]. exists (WSet i x l). split; [|cbn; lia].
    eapply (w_step_same a ws c j k (WGet i l) (WSet i x l) h (on_hart h (c_state c))); [exact I|exact Hk|exact Hw|done|done|exact Ht| |done|done|done|exact Hq| |auto|exact W3].
    + cbn [tstep w_thr]. rewrite (get_proc_ok i (on_hart h (c_state c)) x) by exact Hx. reflexivity.
    + intros x' l' [= -> -> ->]. assert (x' = q) as -> by congruence.
      pose proof (s_gone _ _ _ _ _ _ I Hk Hw eq_refl) as ->. exact Hs.
  - exists (WRel i l). split; [|cbn; lia]. by eapply w_step_set.
  - exists (WLoop l). split; [|cbn; lia]. eapply w_step_release; [done|exact Hk|exact Hw|exact Ht|done..|right; by exists i, l].
Qed.

Lemma w_blocked a ws c j k w l x : inv a ws c -> ks !! j = Some k -> ws !! j = Some w -> wants w = Some l ->
  locks (c_state c) !! l = Some x -> hart_step (S j) c = None.
Proof.
  intros I Hk Hw Hl Hx. destruct (iv_w _ _ _ I j k w Hk Hw) as (h & Ht & Cm). assert (x <> wid k) as Hne.
  { intros ->. pose proof (wid_me j k Hk) as Hme. destruct w; try done; injection Hl as <-.
    - destruct (iv_lk _ _ _ I _ Hx) as [[_ ?]|(j' & k' & w' & Hk' & Hw' & Hi & E)]; [done|].
      assert (j = j') as <- by (by eapply wid_inj). by assert (w' = WStart) as -> by congruence.
    - destruct (iv_pl _ _ _ I _ _ Hx) as [(_ & _ & ?)|(j' & k' & w' & Hk' & Hw' & Hi & E)]; [done|].
      assert (j = j') as <- by (by eapply wid_inj). by assert (w' = WAcq i l0) as -> by congruence. }
  destruct (calm_blocked _ _ _ _ _ l x Cm Hx Hne) as (s' & E). unfold hart_step. rewrite Ht.
  destruct w; try done; injection Hl as <-; cbn [w_thr]; unfold waker_thr; cbn [tstep]; by rewrite E.
Qed.

Lemma w_thr_done f w : w_thr f w = Done -> w = WEnd.
Proof. by destruct w as [| |[|i l]| | | | |]. Qed.
Lemma s_thr_done a : s_thr a = Done -> a = SEnd.
Proof. by destruct a. Qed.

Definition rank (a : sphase) (ws : list wphase) : nat := s_rank a + sum_list_with w_rank ws.

Lemma sum_insert (f : wphase -> nat) ws j w w' : ws !! j = Some w ->
  (sum_list_with f (<[j := w']> ws) + f w = sum_list_with f ws + f w')%nat.
Proof.
  revert j. induction ws as [|x ws IH]; intros [|j]; cbn; try done.
  - intros [= ->]. lia.
  - intros E. rewrite <-!Nat.add_assoc. f_equal. exact (IH j E).
Qed.

(** every statement of a hart keeps the invariant and comes nearer to the end *)
Lemma inv_step a ws c c' : inv a ws c -> length (c_threads c) = S (length ks) -> step c c' ->
  exists a' ws', inv a' ws' c' /\ length (c_threads c') = S (length ks) /\ (rank a' ws' < rank a ws)%nat.
Proof.
  intros I Hn [i E]. assert (length (c_threads c') = S (length ks)) as Hn'.
  { unfold hart_step in E. destruct (c_threads c !! i) as [[h t]|]; [|done]. destruct (tstep h t (c_state c)) as [[s' t']|]; [|done].
    injection E as <-. cbn. by rewrite length_insert. }
  destruct i as [|j].
  - assert (a <> SEnd) as Ha.
    { intros ->. destruct (iv_s _ _ _ I) as (h & Ht & _). unfold hart_step in E. by rewrite Ht in E. }
    destruct (s_step a ws c I Ha) as (a' & c'' & E' & I' & Hr). assert (c'' = c') as -> by congruence.
    exists a', ws. split; [done|]. split; [done|]. unfold rank. lia.
  - assert ((j < length ks)%nat) as Hj.
    { unfold hart_step in E. destruct (c_threads c !! S j) eqn:Et; [|done]. apply lookup_lt_Some in Et. lia. }
    destruct (lookup_lt_is_Some_2 _ _ Hj) as [k Hk]. rewrite <-(iv_len _ _ _ I) in Hj. destruct (lookup_lt_is_Some_2 _ _ Hj) as [w Hw].
    destruct (iv_w _ _ _ I j k w Hk Hw) as (h & Ht & _).
    assert (w <> WEnd) as Hne by (intros ->; unfold hart_step in E; by rewrite Ht in E).
    destruct (w_step a ws c j k w I Hk Hw Hne) as (w' & c'' & E' & I' & Hr).
    { intros l Hl. destruct (locks (c_state c) !! l) as [x|] eqn:Ex; [|done].
      rewrite (w_blocked _ _ _ _ _ _ _ _ I Hk Hw Hl Ex) in E. done. }
    assert (c'' = c') as -> by congruence. exists a, (<[j := w']> ws). split; [done|]. split; [done|].
    unfold rank. pose proof (sum_insert w_rank ws j w w' Hw). lia.
Qed.

Lemma inv_sn a ws c : inv a ws c -> length (c_threads c) = S (length ks) -> sn step c.
Proof.
  remember (rank a ws) as n eqn:En. revert a ws c En. induction (lt_wf n) as [n _ IH]. intros a ws c -> I Hn. constructor.
  intros c' Hc. destruct (inv_step a ws c c' I Hn Hc) as (a' & ws' & I' & Hn' & Hr). by eapply (IH _ Hr).
Qed.

Lemma inv_steps c c' : rtc step c c' -> forall a ws, inv a ws c -> length (c_threads c) = S (length ks) ->
  exists a' ws', inv a' ws' c' /\ length (c_threads c') = S (length ks).
Proof.
  induction 1 as [c|c c1 c' H1 _ IH]; intros a ws I Hn; [by exists a, ws|].
  destruct (inv_step a ws c c1 I Hn H1) as (a' & ws' & I' & Hn' & _). by eapply IH.
Qed.

(** no deadlock: some hart can always execute its next statement *)
Lemma inv_progress a ws c : inv a ws c -> length (c_threads c) = S (length ks) ->
  Forall finished (c_threads c) \/ exists c', step c c'.
Proof.
  intros I Hn. destruct (decide (a = SEnd)) as [->|Ha].
  2: { destruct (s_step a ws c I Ha) as (a' & c' & E & _). right. exists c'. by exists 0%nat. }
  assert (forall j w, ws !! j = Some w -> exists k, ks !! j = Some k) as Hks.
  { intros j w Hw. apply lookup_lt_is_Some_2. rewrite <-(iv_len _ _ _ I). by eapply lookup_lt_Some. }
  assert (forall j w, ws !! j = Some w -> w <> WEnd -> (forall l, wants w = Some l -> locks (c_state c) !! l = None) -> exists c', step c c') as Hgo.
  { intros j w Hw Hne Hf. destruct (Hks j w Hw) as [k Hk]. destruct (w_step SEnd ws c j k w I Hk Hw Hne Hf) as (w' & c' & E & _).
    exists c'. by exists (S j). }
  destruct (list_find (fun w => inside w = true) ws) as [[j w]|] eqn:Ef.
  { apply list_find_Some in Ef as (Hw & Hin & _). right. apply (Hgo j w Hw); [by intros ->|]. intros l Hl.
    destruct (Hks j w Hw) as [k Hk]. destruct w; try done. injection Hl as <-.
    destruct (locks (c_state c) !! LProc i) as [x|] eqn:Ex; [|done].
    destruct (iv_pl _ _ _ I _ _ Ex) as [(_ & ? & _)|(j' & k' & w' & Hk' & Hw' & Hh & _)]; [done|].
    destruct (decide (j' = j)) as [->|Hne]; [rewrite Hw in Hw'; by injection Hw' as <-|].
    pose proof (others_out _ _ _ _ _ _ _ _ _ I Hk Hw (or_introl Hin) Hk' Hw' Hne) as Ho. by rewrite (held_inside _ _ Hh) in Ho. }
  apply list_find_None in Ef. rewrite Forall_lookup in Ef.
  destruct (list_find (fun w => waiting w = true) ws) as [[j w]|] eqn:Es.
  { apply list_find_Some in Es as (Hw & Hst & _). destruct w; try done. right. apply (Hgo j WStart Hw); [done|].
    intros l [= <-]. destruct (locks (c_state c) !! lk) as [x|] eqn:Ex; [|done].
    destruct (iv_lk _ _ _ I _ Ex) as [[? _]|(j' & k' & w' & _ & Hw' & Hi & _)]; [done|]. by destruct (Ef j' w' Hw'). }
  apply list_find_None in Es. rewrite Forall_lookup in Es. left. apply Forall_lookup. intros [|j] t Ht.
  { destruct (iv_s _ _ _ I) as (h & E & _). rewrite E in Ht. by injection Ht as <-. }
  assert ((j < length ws)%nat) as Hj by (rewrite (iv_len _ _ _ I); apply lookup_lt_Some in Ht; lia).
  destruct (lookup_lt_is_Some_2 _ _ Hj) as [w Hw]. destruct (Hks j w Hw) as [k Hk].
  destruct (iv_w _ _ _ I j k w Hk Hw) as (h & E & _). rewrite E in Ht. injection Ht as <-.
  specialize (Ef j w Hw). specialize (Es j w Hw). destruct w; try done.
Qed.
End race.

(** * Theorems *)

Section start.
Context (ch : chan) (lk : lockid) (p : nat) (s : kstate) (h : hart) (ks : list waker).

(** A process on its way to sleep: its hart holds [lk] and no other lock, no
    process lock is taken; the other harts are outside every section, run
    another process or none, and change neither the harts nor the process
    table before they call wakeup. *)
Record about_to_sleep : Prop := {
  as_lk i : lk <> LProc i;
  as_p : (p < Z.to_nat NPROC)%nat;
  as_procs : length (k_procs s) = Z.to_nat NPROC;
  as_hart : k_hart s = hart_lock lk h;
  as_ok : hart_ok h;
  as_noff : h_noff h = 0;
  as_proc : h_proc h = Some p;
  as_free i : h_locks h !! LProc i = None;
  as_ids : NoDup (h_id h :: map (fun k => h_id (w_hart k)) ks);
  as_wakers k : k ∈ ks -> hart_ok (w_hart k) /\ h_noff (w_hart k) = 0 /\ h_proc (w_hart k) <> Some p;
  as_upd k t : k ∈ ks -> k_hart (w_upd k t) = k_hart t /\ k_procs (w_upd k t) = k_procs t
}.

Lemma calm_idle g : hart_ok g -> h_noff g = 0 -> calm (h_id g) (h_proc g) 0 g.
Proof. intros Hok Hn. split; try done. rewrite (ho_out _ Hok Hn). apply h_intr_01. Qed.

Lemma inv_race : about_to_sleep ->
  inv ch lk p (h_id h) ks SStart (replicate (length ks) WStart) (race ch lk s ks) /\
  length (c_threads (race ch lk s ks)) = S (length ks).
Proof.
  intros [A1 A2 A3 A4 A5 A6 A7 A8 A9 A10 A11]. split; [|cbn; by rewrite length_map].
  destruct (lookup_lt_is_Some_2 (k_procs s) p) as [q Hq]; [lia|].
  assert (forall j w, replicate (length ks) WStart !! j = Some w -> w = WStart) as Hst.
  { intros j w E. by apply lookup_replicate in E as [-> _]. }
  assert (locks s = <[lk := h_id h]> (h_locks h)) as EL by (by rewrite A4).
  split; cbn [race c_state c_threads].
  - apply length_replicate.
  - exact A3.
  - exists (k_hart s). split; [done|]. rewrite A4. change (s_proc p SStart) with (Some p). rewrite <-A7. apply calm_locks. change (s_noff SStart) with (0 + 1). apply calm_push.
    by apply calm_idle.
  - intros j k w Hk Hw. apply Hst in Hw as ->. exists (w_hart k). split.
    { change (((fun k => (w_hart k, waker_thr ch lk (w_upd k))) <$> ks) !! j = Some (w_hart k, w_thr ch lk (w_upd k) WStart)).
      by rewrite list_lookup_fmap, Hk. }
    destruct (A10 k) as (? & ? & _); [by eapply list_elem_of_lookup_2|]. by apply calm_idle.
  - exists q. split; [done|]. split; [done|]. intros j k w Hk Hw. apply Hst in Hw as ->. split; try done.
    + intros i Hi. apply elem_of_seq in Hi. lia.
    + intros Hn. destruct Hn. apply elem_of_seq. lia.
  - intros _. rewrite EL. apply lookup_insert_eq.
  - done.
  - intros x Hx. left. rewrite EL, lookup_insert_eq in Hx. by injection Hx as <-.
  - intros i x Hx. rewrite EL, lookup_insert_ne, A8 in Hx by apply A1. done.
Qed.
End start.

(** C12: no wakeup is lost, in any interleaving of the statements of the harts:
    one hart executes sleep(ch, lk) for a process, any number of others
    acquire lk, change the condition, call wakeup(ch) and release lk.  Every
    execution ends, with no hart spinning for ever or panicked.  From the
    moment the sleeper has given up lk until the end, either it still holds
    its process lock or the process is SLEEPING on ch or RUNNABLE; and as soon
    as one of the others is through, the process is RUNNABLE. *)
Theorem no_lost_wakeup ch lk p s h ks : about_to_sleep lk p s h ks ->
  sn step (race ch lk s ks) /\
  forall c, rtc step (race ch lk s ks) c ->
    (Forall finished (c_threads c) \/ exists c', step c c') /\
    exists q, k_procs (c_state c) !! p = Some q /\
      (locks (c_state c) !! lk <> Some (h_id h) ->
       locks (c_state c) !! LProc p = Some (h_id h) \/ asleep ch q \/ woken ch q) /\
      (forall j t, c_threads c !! S j = Some t -> finished t -> p_state q = RUNNABLE /\ p_chan q = ch).
Proof.
  intros A. destruct (inv_race ch _ _ _ _ _ A) as [I Hn]. destruct A as [A1 A2 A3 A4 A5 A6 A7 A8 A9 A10 A11].
  assert (forall k, k ∈ ks -> h_proc (w_hart k) <> Some p) as A10' by (intros; by apply A10).
  split; [by eapply inv_sn|]. intros c Hc.
  destruct (inv_steps ch lk p (h_id h) ks A1 A2 A9 A10' A11 _ c Hc _ _ I Hn) as (a & ws & I' & Hn'). split; [by eapply inv_progress|].
  destruct (iv_q _ _ _ _ _ _ _ _ I') as (q & Hq & Hs & W). exists q. split; [done|]. split.
  - intros Hne. destruct a; try (by destruct Hne; apply (iv_slk _ _ _ _ _ _ _ _ I')); try (left; by apply (iv_spl _ _ _ _ _ _ _ _ I')).
    by right.
  - intros j t Ht Hd. assert ((j < length ks)%nat) as Hj by (apply lookup_lt_Some in Ht; lia).
    destruct (lookup_lt_is_Some_2 _ _ Hj) as [k Hk]. rewrite <-(iv_len _ _ _ _ _ _ _ _ I') in Hj. destruct (lookup_lt_is_Some_2 _ _ Hj) as [w Hw].
    destruct (iv_w _ _ _ _ _ _ _ _ I' j k w Hk Hw) as (h' & E & _). rewrite E in Ht. injection Ht as <-. apply w_thr_done in Hd as ->.
    apply (ws_done _ _ _ _ _ _ _ _ (W j k WEnd Hk Hw)). apply not_elem_of_nil.
Qed.

(** * Witness *)

(** process 0 goes to sleep on the tick counter while two other harts tick *)
Definition demo_wakers : list waker :=
  [mkwaker (mkhart 1 None 0 0 0 ∅) (set_ticks (fun t => t + 1)); mkwaker (mkhart 2 None 0 0 0 ∅) (set_ticks (fun t => t + 1))].

Lemma no_lost_wakeup_witness :
  sn step (race ChTicks LTicks (set_hart (hart_lock LTicks) (thread_state [])) demo_wakers).
Proof.
  refine (proj1 (no_lost_wakeup ChTicks LTicks 0 (set_hart (hart_lock LTicks) (thread_state [])) (k_hart (thread_state [])) demo_wakers _)).
  split; try reflexivity.
  - discriminate.
  - apply Nat.ltb_lt. reflexivity.
  - apply hart_ok_idle.
  - apply (NoDup_ListNoDup [0; 1; 2]%Z). repeat constructor; cbn; lia.
  - intros k Hk. cbn in Hk. apply list_elem_of_In in Hk. destruct Hk as [<-|[<-|[]]]; (split; [apply hart_ok_idle|split; [reflexivity|discriminate]]).
  - intros k t Hk. apply list_elem_of_In in Hk. destruct Hk as [<-|[<-|[]]]; split; reflexivity.
Defined.
