(* ===== verification/Bio.v ===== *)
(** kernel/bio.c and kernel/ramdisk.c: the buffer cache over the RAM disk.

    The cache is the array [bcache.buf] with the doubly linked list through
    [prev] and [next]; index [NBUF] is the list head [bcache.head]. *)

From stdpp Require Import base gmap strings numbers list.
From S2P Require Import Prelude KState KString Spinlock Printf ProcSync.

(** * Definitions *)

Definition HEAD : nat := Z.to_nat NBUF.

Definition ramdisk_init (fs_img_start : Z) : K unit :=
  let! n := gets (fun s => Z.of_nat (length (k_disk s))) in
  let fs_img_end := fs_img_start + n * BSIZE in
  printf "ramdisk: mapped at %p - %p, size %d KB\n"
    [VWord fs_img_start; VWord fs_img_end; VWord ((fs_img_end - fs_img_start) / 1024)].

(** [b->blockno * BSIZE] is computed in 32 bits; the image is [k_disk], of
    whole blocks, so the address is the start of one of its blocks. *)
Definition diskaddr (blockno : Z) : Z := u32 (blockno * BSIZE).

(** A write is also entered in [k_writes], the history of the disk: a crash
    leaves the disk with a prefix of it. *)
Definition ramdisk_rw (b : nat) (write : bool) : K unit :=
  let! h := holdingsleep (SLBuf b) in
  if negb (nz h) then panic "ramdisk_rw: buf not locked"
  else
    let! bf := get_buf b in
    let addr := diskaddr (b_blockno bf) in
    let! disk := gets k_disk in
    if Z.of_nat (length disk) * BSIZE <? addr + BSIZE then
      printf "ramdisk: panic access blockno %d\n" [VWord (b_blockno bf)] ;;
      panic "ramdisk: read/write out of bounds"
    else
      let i := Z.to_nat (addr / BSIZE) in
      if write then
        modify (set_disk (<[i := b_data bf]>)) ;;
        modify (set_writes (fun w => w ++ [(i, b_data bf)]))
      else
        modify (upd_buf b (b_set_data (fun _ => default [] (disk !! i)))) ;;
        modify (upd_buf b (b_set_valid (fun _ => 1))).

(** [bcache.head.next->prev = b; bcache.head.next = b;] *)
Definition push_front (b : nat) : K unit :=
  let! h := get_buf HEAD in
  modify (upd_buf (b_next h) (b_set_prev (fun _ => b))) ;;
  modify (upd_buf HEAD (b_set_next (fun _ => b))).

Definition binit_one (b : nat) : K unit :=
  let! h := get_buf HEAD in
  modify (upd_buf b (b_set_next (fun _ => b_next h))) ;;
  modify (upd_buf b (b_set_prev (fun _ => HEAD))) ;;
  initsleeplock (SLBuf b) ;;
  push_front b.

Definition binit : K unit :=
  initlock LBcache ;;
  modify (upd_buf HEAD (b_set_prev (fun _ => HEAD))) ;;
  modify (upd_buf HEAD (b_set_next (fun _ => HEAD))) ;;
  forM_ (seq 0 HEAD) binit_one.

(** [for(b = head.next; b != &head; b = b->next) if(hit b) return b], with
    [step] the link followed; the list has at most [NBUF] buffers. *)
Fixpoint list_search (fuel : nat) (step : buf -> nat) (hit : buf -> bool) (b : nat)
  : K (option nat) :=
  if (b =? HEAD)%nat then ret None
  else match fuel with
       | O => outoffuel
       | S fuel' =>
           let! bf := get_buf b in
           if hit bf then ret (Some b) else list_search fuel' step hit (step bf)
       end.

Definition bget (dev blockno : Z) : K nat :=
  acquire LBcache ;;
  let! h := get_buf HEAD in
  let! r := list_search HEAD b_next
              (fun b => (b_dev b =? dev) && (b_blockno b =? blockno)) (b_next h) in
  match r with
  | Some b =>
      modify (upd_buf b (b_set_refcnt (fun n => n + 1))) ;;
      release LBcache ;;
      acquiresleep (SLBuf b) ;;
      ret b
  | None =>
      let! h := get_buf HEAD in
      let! r := list_search HEAD b_prev (fun b => b_refcnt b =? 0) (b_prev h) in
      match r with
      | Some b =>
          modify (upd_buf b (b_set_dev (fun _ => dev))) ;;
          modify (upd_buf b (b_set_blockno (fun _ => blockno))) ;;
          modify (upd_buf b (b_set_valid (fun _ => 0))) ;;
          modify (upd_buf b (b_set_refcnt (fun _ => 1))) ;;
          release LBcache ;;
          acquiresleep (SLBuf b) ;;
          ret b
      | None => panic "bget: no buffers"
      end
  end.

Definition bread (dev blockno : Z) : K nat :=
  let! b := bget dev blockno in
  let! bf := get_buf b in
  whenM (negb (nz (b_valid bf)))
    (ramdisk_rw b false ;;
     modify (upd_buf b (b_set_valid (fun _ => 1)))) ;;
  ret b.

Definition bwrite (b : nat) : K unit :=
  let! h := holdingsleep (SLBuf b) in
  if negb (nz h) then panic "bwrite" else ramdisk_rw b true.

(** the relinking of a buffer nobody references, in brelse *)
Definition move_to_front (b : nat) : K unit :=
  let! bf := get_buf b in
  modify (upd_buf (b_next bf) (b_set_prev (fun _ => b_prev bf))) ;;
  let! bf := get_buf b in
  modify (upd_buf (b_prev bf) (b_set_next (fun _ => b_next bf))) ;;
  let! h := get_buf HEAD in
  modify (upd_buf b (b_set_next (fun _ => b_next h))) ;;
  modify (upd_buf b (b_set_prev (fun _ => HEAD))) ;;
  push_front b.

Definition brelse (b : nat) : K unit :=
  let! h := holdingsleep (SLBuf b) in
  if negb (nz h) then panic "brelse"
  else
    releasesleep (SLBuf b) ;;
    acquire LBcache ;;
    modify (upd_buf b (b_set_refcnt (fun n => n - 1))) ;;
    let! bf := get_buf b in
    whenM (b_refcnt bf =? 0) (move_to_front b) ;;
    release LBcache.

Definition bpin (b : nat) : K unit :=
  acquire LBcache ;;
  modify (upd_buf b (b_set_refcnt (fun n => n + 1))) ;;
  release LBcache.

Definition bunpin (b : nat) : K unit :=
  acquire LBcache ;;
  modify (upd_buf b (b_set_refcnt (fun n => n - 1))) ;;
  release LBcache.

(** access to [b->data] *)
Definition bdata (b : nat) : K (list Z) := let! bf := get_buf b in ret (b_data bf).
Definition set_bdata (b : nat) (d : list Z) : K unit :=
  modify (upd_buf b (b_set_data (fun _ => d))).
