(* ===== verification/BioRing.v ===== *)
(** The doubly linked list of the buffer cache: well-formedness, traversal
    and the relinking done by binit and brelse. *)

From stdpp Require Import base gmap strings numbers list.
From S2P Require Import Prelude KState KString Spinlock ProcSync SyncSpec Bio.

(** * Segments of the list *)

Definition nxt (bs : list buf) (i : nat) : option nat := b_next <$> bs !! i.
Definition prv (bs : list buf) (i : nat) : option nat := b_prev <$> bs !! i.

(** from [a], the links lead through [l] to [z], and back *)
Fixpoint seg (bs : list buf) (a : nat) (l : list nat) (z : nat) : Prop :=
  match l with
  | [] => nxt bs a = Some z /\ prv bs z = Some a
  | b :: l' => nxt bs a = Some b /\ prv bs b = Some a /\ seg bs b l' z
  end.

(** the ring of the cache, in the order of use: first the most recent *)
Record ring (bs : list buf) (l : list nat) : Prop := {
  ring_seg : seg bs HEAD l HEAD;
  ring_perm : l ≡ₚ seq 0 HEAD;
  ring_len : length bs = S HEAD
}.

Lemma seg_app bs a l1 b l2 z : seg bs a (l1 ++ b :: l2) z <-> seg bs a l1 b /\ seg bs b l2 z.
Proof.
  revert a. induction l1 as [|x l1 IH]; intros a; cbn [seg app]; [tauto|].
  rewrite IH. tauto.
Qed.

(** first and last element of [a :: l], [l ++ [z]] *)
Definition lastn (a : nat) (l : list nat) : nat := default a (last l).
Definition firstn (l : list nat) (z : nat) : nat := default z (head l).

Lemma lastn_cons a b l : lastn a (b :: l) = lastn b l.
Proof. unfold lastn. rewrite last_cons. by destruct (last l). Qed.

Lemma seg_next bs a l z : seg bs a l z -> nxt bs a = Some (firstn l z).
Proof. destruct l; simpl; tauto. Qed.

Lemma seg_prev bs a l z : seg bs a l z -> prv bs z = Some (lastn a l).
Proof.
  revert a. induction l as [|b l IH]; intros a; cbn [seg]; [by intros [_ H]|].
  intros (_ & _ & H). rewrite lastn_cons. by apply IH.
Qed.

(** A segment depends only on the links along it. *)
Lemma seg_ext bs bs' a l z :
  (forall x, x ∈ a :: l -> nxt bs' x = nxt bs x) ->
  (forall x, x ∈ l ++ [z] -> prv bs' x = prv bs x) ->
  seg bs a l z -> seg bs' a l z.
Proof.
  revert a. induction l as [|b l IH]; intros a Hn Hp; cbn [seg app] in *.
  - rewrite (Hn a), (Hp z) by set_solver. done.
  - rewrite (Hn a), (Hp b) by set_solver. intros (H1 & H2 & H3). split_and!; [done..|].
    apply IH; [set_solver|set_solver|done].
Qed.

(** the end of a segment moved to [c] *)
Lemma seg_retarget_end bs bs' a l b c :
  NoDup (a :: l) ->
  (forall x, x ∈ a :: l -> x <> lastn a l -> nxt bs' x = nxt bs x) ->
  (forall x, x ∈ l -> prv bs' x = prv bs x) ->
  nxt bs' (lastn a l) = Some c -> prv bs' c = Some (lastn a l) ->
  seg bs a l b -> seg bs' a l c.
Proof.
  revert a. induction l as [|x l IH]; intros a Hnd Hn Hp Hc1 Hc2; cbn [seg]; [done|].
  rewrite lastn_cons in *. apply NoDup_cons in Hnd as [Ha Hnd].
  intros (H1 & H2 & H3). split_and!.
  - rewrite Hn; [done|set_solver|]. intros ->.
    assert (lastn x l ∈ x :: l) as Hin.
    { unfold lastn. destruct (last l) as [y|] eqn:E; simpl; [|set_solver].
      apply last_Some in E as [l' ->]. set_solver. }
    done.
  - rewrite Hp by set_solver. done.
  - apply IH; [done| |set_solver|done|done|done]. intros y Hy Hne. apply Hn; set_solver.
Qed.

(** the start of a segment moved to [c] *)
Lemma seg_retarget_start bs bs' a c l z :
  (forall x, x ∈ l -> nxt bs' x = nxt bs x) ->
  (forall x, x ∈ tail (l ++ [z]) -> prv bs' x = prv bs x) ->
  nxt bs' c = Some (firstn l z) -> prv bs' (firstn l z) = Some c ->
  seg bs a l z -> seg bs' c l z.
Proof.
  intros Hn Hp H1 H2. destruct l as [|b l]; cbn [seg]; [done|].
  intros (_ & _ & H3). split_and!; [done..|]. simpl in Hp.
  eapply seg_ext; [| |exact H3]; intros x Hx; [apply Hn|apply Hp]; done.
Qed.

(** * Traversal *)

(** the first buffer of the list that satisfies [hit] *)
Fixpoint first_hit (bs : list buf) (hit : buf -> bool) (l : list nat) : option nat :=
  match l with
  | [] => None
  | i :: l' =>
      match bs !! i with
      | Some b => if hit b then Some i else first_hit bs hit l'
      | None => first_hit bs hit l'
      end
  end.

Lemma nxt_lookup bs i j : nxt bs i = Some j -> exists b, bs !! i = Some b /\ b_next b = j.
Proof. unfold nxt. destruct (bs !! i) as [b|]; simpl; [|done]. intros [= <-]. eauto. Qed.

Lemma prv_lookup bs i j : prv bs i = Some j -> exists b, bs !! i = Some b /\ b_prev b = j.
Proof. unfold prv. destruct (bs !! i) as [b|]; simpl; [|done]. intros [= <-]. eauto. Qed.

Lemma list_search_next hit fuel l s a :
  seg (k_bufs s) a l HEAD -> HEAD ∉ l -> (length l <= fuel)%nat ->
  list_search fuel b_next hit (firstn l HEAD) s = Ok (first_hit (k_bufs s) hit l) s.
Proof.
  revert fuel a. induction l as [|b l IH]; intros fuel a Hs Hh Hf.
  { unfold firstn. simpl. destruct fuel; cbn [list_search]; by rewrite Nat.eqb_refl. }
  cbn [seg] in Hs. destruct Hs as (_ & _ & Hs).
  change (firstn (b :: l) HEAD) with b. simpl in Hf. destruct fuel as [|fuel]; [lia|].
  cbn [list_search first_hit].
  rewrite (proj2 (Nat.eqb_neq b HEAD)) by set_solver.
  destruct (nxt_lookup _ _ _ (seg_next _ _ _ _ Hs)) as (bf & Hb & Hn).
  erewrite bind_ok by (apply get_buf_ok; exact Hb). rewrite Hb.
  destruct (hit bf); [done|]. rewrite Hn. apply (IH fuel b); [done|set_solver|lia].
Qed.

Lemma seg_snoc bs a l b z : seg bs a (l ++ [b]) z <-> seg bs a l b /\ seg bs b [] z.
Proof. apply seg_app. Qed.

Lemma list_search_prev hit fuel l s z :
  seg (k_bufs s) HEAD l z -> HEAD ∉ l -> (length l <= fuel)%nat ->
  list_search fuel b_prev hit (lastn HEAD l) s = Ok (first_hit (k_bufs s) hit (rev l)) s.
Proof.
  revert fuel z. induction l as [|b l IH] using rev_ind; intros fuel z Hs Hh Hf.
  { unfold lastn. simpl. destruct fuel; cbn [list_search]; by rewrite Nat.eqb_refl. }
  apply seg_snoc in Hs as [Hs Hz]. rewrite length_app in Hf. simpl in Hf.
  destruct fuel as [|fuel]; [lia|].
  assert (lastn HEAD (l ++ [b]) = b) as -> by (unfold lastn; by rewrite last_snoc).
  rewrite rev_app_distr. simpl. cbn [list_search].
  rewrite (proj2 (Nat.eqb_neq b HEAD)) by set_solver.
  destruct (prv_lookup _ _ _ (seg_prev _ _ _ _ Hs)) as (bf & Hb & Hn).
  erewrite bind_ok by (apply get_buf_ok; exact Hb). rewrite Hb.
  destruct (hit bf); [done|]. rewrite Hn. apply (IH fuel b); [done|set_solver|lia].
Qed.

Lemma first_hit_Some bs hit l i :
  first_hit bs hit l = Some i -> i ∈ l /\ exists b, bs !! i = Some b /\ hit b = true.
Proof.
  induction l as [|j l IH]; cbn [first_hit]; [done|].
  destruct (bs !! j) as [b|] eqn:E.
  - destruct (hit b) eqn:Hh; [intros [= <-]|intros H; destruct (IH H)]; set_solver.
  - intros H. destruct (IH H). set_solver.
Qed.

Lemma first_hit_None bs hit l i b :
  first_hit bs hit l = None -> i ∈ l -> bs !! i = Some b -> hit b = false.
Proof.
  induction l as [|j l IH]; cbn [first_hit]; [set_solver|].
  destruct (bs !! j) as [c|] eqn:E.
  - destruct (hit c) eqn:Hh; [done|]. intros H [->|Hin]%elem_of_cons Hb; [congruence|auto].
  - intros H [->|Hin]%elem_of_cons Hb; [congruence|auto].
Qed.

(** * Relinking *)

Lemma nxt_set_next_eq bs i v : is_Some (bs !! i) -> nxt (alter (b_set_next (fun _ => v)) i bs) i = Some v.
Proof. intros [b Hb]. unfold nxt. by rewrite list_lookup_alter_eq, Hb. Qed.
Lemma nxt_set_next_ne bs f i j : i <> j -> nxt (alter (b_set_next f) i bs) j = nxt bs j.
Proof. intros. unfold nxt. by rewrite list_lookup_alter_ne. Qed.
Lemma prv_set_prev_eq bs i v : is_Some (bs !! i) -> prv (alter (b_set_prev (fun _ => v)) i bs) i = Some v.
Proof. intros [b Hb]. unfold prv. by rewrite list_lookup_alter_eq, Hb. Qed.
Lemma prv_set_prev_ne bs f i j : i <> j -> prv (alter (b_set_prev f) i bs) j = prv bs j.
Proof. intros. unfold prv. by rewrite list_lookup_alter_ne. Qed.

Lemma nxt_alter bs f i j : (forall b, b_next (f b) = b_next b) -> nxt (alter f i bs) j = nxt bs j.
Proof.
  intros Hf. unfold nxt. destruct (decide (i = j)) as [->|]; [|by rewrite list_lookup_alter_ne].
  rewrite list_lookup_alter_eq. destruct (bs !! j); simpl; [by rewrite Hf|done].
Qed.
Lemma prv_alter bs f i j : (forall b, b_prev (f b) = b_prev b) -> prv (alter f i bs) j = prv bs j.
Proof.
  intros Hf. unfold prv. destruct (decide (i = j)) as [->|]; [|by rewrite list_lookup_alter_ne].
  rewrite list_lookup_alter_eq. destruct (bs !! j); simpl; [by rewrite Hf|done].
Qed.

Lemma alter_is_Some {A} (f : A -> A) i j (bs : list A) : is_Some (bs !! j) -> is_Some (alter f i bs !! j).
Proof. intros H. apply lookup_lt_is_Some. rewrite length_alter. by apply lookup_lt_is_Some. Qed.

(** an update of a buffer that leaves its links alone keeps the ring *)
Lemma ring_alter bs l f i :
  (forall b, b_next (f b) = b_next b) -> (forall b, b_prev (f b) = b_prev b) ->
  ring bs l -> ring (alter f i bs) l.
Proof.
  intros Hn Hp [H1 H2 H3]. split; [|done|by rewrite length_alter].
  eapply seg_ext; [| |exact H1]; intros x _; [by apply nxt_alter|by apply prv_alter].
Qed.

Lemma ring_nodup bs l : ring bs l -> NoDup (HEAD :: l).
Proof.
  intros [_ H2 _]. rewrite H2. apply NoDup_cons. split; [|apply NoDup_seq].
  intros H%elem_of_seq. lia.
Qed.

Lemma ring_some bs l i : ring bs l -> i ∈ HEAD :: l -> is_Some (bs !! i).
Proof.
  intros [_ H2 H3] Hi. apply lookup_lt_is_Some. rewrite H3. rewrite H2 in Hi.
  apply elem_of_cons in Hi as [->|Hi%elem_of_seq]; lia.
Qed.

(** taking [b] out of the list *)
Definition unlink (bs : list buf) (b p n : nat) : list buf :=
  alter (b_set_next (fun _ => n)) p (alter (b_set_prev (fun _ => p)) n bs).

Lemma seg_unlink bs l1 b l2 :
  NoDup (HEAD :: l1 ++ b :: l2) -> (forall i, i ∈ HEAD :: l1 ++ b :: l2 -> is_Some (bs !! i)) ->
  seg bs HEAD l1 b -> seg bs b l2 HEAD ->
  seg (unlink bs b (lastn HEAD l1) (firstn l2 HEAD)) HEAD (l1 ++ l2) HEAD.
Proof.
  intros Hnd Hs H1 H2. remember (lastn HEAD l1) as p eqn:Ep.
  remember (firstn l2 HEAD) as n eqn:En.
  assert (Hp : p ∈ HEAD :: l1).
  { subst p. unfold lastn. destruct (last l1) as [y|] eqn:E; simpl; [|set_solver].
    apply last_Some in E as [l' ->]. set_solver. }
  assert (Hn : n ∈ l2 ++ [HEAD]) by (subst n; destruct l2; simpl; set_solver).
  apply NoDup_cons in Hnd as [Hh Hnd].
  pose proof Hnd as (Hnd1 & Hd & Hnd2)%NoDup_app.
  apply NoDup_cons in Hnd2 as [Hb2 Hnd2].
  assert (Hnl : forall x, x ∈ l1 -> x <> n).
  { intros x Hx ->. apply elem_of_app in Hn as [Hn| ->%list_elem_of_singleton].
    - apply (Hd n Hx). by right.
    - apply Hh. apply elem_of_app. by left. }
  assert (Hend : seg (unlink bs b p n) HEAD l1 n).
  { eapply seg_retarget_end; rewrite <-?Ep; [| | | | |exact H1].
    - apply NoDup_cons. split; [set_solver|done].
    - intros x Hx Hne. unfold unlink. rewrite nxt_set_next_ne by done. by rewrite nxt_alter.
    - intros x Hx. unfold unlink. rewrite prv_alter by done. apply prv_set_prev_ne.
      intros E. exact (Hnl x Hx (eq_sym E)).
    - unfold unlink. apply nxt_set_next_eq, alter_is_Some, Hs. set_solver.
    - unfold unlink. rewrite prv_alter by done. apply prv_set_prev_eq, Hs. set_solver. }
  destruct l2 as [|x l2]; unfold firstn in En; simpl in En; subst n; [by rewrite app_nil_r|].
  apply seg_app. split; [exact Hend|]. cbn [seg] in H2. destruct H2 as (_ & _ & H2).
  apply NoDup_cons in Hnd2 as [Hx Hnd2].
  eapply seg_ext; [| |exact H2]; intros y Hy; unfold unlink.
  - rewrite nxt_set_next_ne; [by rewrite nxt_alter|]. intros ->.
    apply elem_of_cons in Hp as [->|Hp].
    + apply Hh, elem_of_app. right. by right.
    + apply (Hd y Hp). by right.
  - rewrite prv_alter by done. apply prv_set_prev_ne. intros ->.
    apply elem_of_app in Hy as [Hy| ->%list_elem_of_singleton]; [done|].
    apply Hh, elem_of_app. right. right. by left.
Qed.

(** putting [b] at the front, before [f] *)
Definition link_front (bs : list buf) (b f : nat) : list buf :=
  alter (b_set_next (fun _ => b)) HEAD (alter (b_set_prev (fun _ => b)) f
    (alter (b_set_prev (fun _ => HEAD)) b (alter (b_set_next (fun _ => f)) b bs))).

Lemma seg_link_front bs b l :
  b <> HEAD -> b ∉ l -> HEAD ∉ l -> NoDup l ->
  (forall i, i ∈ HEAD :: b :: l -> is_Some (bs !! i)) ->
  seg bs HEAD l HEAD -> seg (link_front bs b (firstn l HEAD)) HEAD (b :: l) HEAD.
Proof.
  intros Hb Hbl Hl Hnd Hs H1. remember (firstn l HEAD) as f eqn:Ef.
  assert (Hf : f ∈ l ++ [HEAD]) by (subst f; destruct l; simpl; set_solver).
  assert (Hfb : f <> b) by set_solver.
  cbn [seg]. unfold link_front. split_and!.
  - apply nxt_set_next_eq. repeat apply alter_is_Some. apply Hs. set_solver.
  - rewrite prv_alter by done. rewrite prv_set_prev_ne by done.
    apply prv_set_prev_eq. repeat apply alter_is_Some. apply Hs. set_solver.
  - eapply (seg_retarget_start bs _ HEAD); rewrite <-?Ef; [| | | |exact H1].
    + intros x Hx. rewrite nxt_set_next_ne by set_solver. rewrite !nxt_alter by done.
      rewrite nxt_set_next_ne by set_solver. done.
    + intros x Hx. rewrite prv_alter by done.
      assert (x <> f /\ x <> b) as [Hxf Hxb].
      { subst f. destruct l as [|y l]; simpl in *; [set_solver|].
        unfold firstn. simpl.
        apply NoDup_cons in Hnd as [? ?]. set_solver. }
      rewrite !prv_set_prev_ne by done. by rewrite prv_alter.
    + rewrite nxt_set_next_ne by done. rewrite !nxt_alter by done.
      apply nxt_set_next_eq, Hs. set_solver.
    + rewrite prv_alter by done. apply prv_set_prev_eq. repeat apply alter_is_Some.
      apply Hs. set_solver.
Qed.

(** the table after move_to_front *)
Definition to_front (bs : list buf) (b : nat) (l1 l2 : list nat) : list buf :=
  link_front (unlink bs b (lastn HEAD l1) (firstn l2 HEAD)) b (firstn (l1 ++ l2) HEAD).

Lemma ring_to_front bs l1 b l2 :
  ring bs (l1 ++ b :: l2) -> ring (to_front bs b l1 l2) (b :: l1 ++ l2).
Proof.
  intros Hr. pose proof (ring_nodup _ _ Hr) as Hnd. pose proof Hr as [H1 H2 H3].
  apply seg_app in H1 as [H1 H1'].
  assert (Hs : forall i, i ∈ HEAD :: l1 ++ b :: l2 -> is_Some (bs !! i)).
  { intros i. by apply (ring_some _ _ i Hr). }
  split.
  - unfold to_front. pose proof Hnd as [Hh Hnd']%NoDup_cons.
    apply NoDup_app in Hnd' as (Hn1 & Hd & Hn2). apply NoDup_cons in Hn2 as [Hb Hn2].
    apply seg_link_front; [set_solver|set_solver|set_solver| | |by apply seg_unlink].
    + apply NoDup_app. split_and!; [done|set_solver|done].
    + intros i Hi. unfold unlink. repeat apply alter_is_Some. apply Hs. set_solver.
  - rewrite <-H2. by rewrite Permutation_middle.
  - unfold to_front, link_front, unlink. by rewrite !length_alter.
Qed.

(** the contents of a buffer, without its links *)
Definition core (b : buf) : buf := b_set_prev (fun _ => O) (b_set_next (fun _ => O) b).

Lemma core_alter (bs : list buf) f i j :
  (forall b, core (f b) = core b) -> core <$> alter f i bs !! j = core <$> bs !! j.
Proof.
  intros Hf. destruct (decide (i = j)) as [->|]; [|by rewrite list_lookup_alter_ne].
  rewrite list_lookup_alter_eq. destruct (bs !! j); simpl; [by rewrite Hf|done].
Qed.

Lemma to_front_core bs b l1 l2 i : core <$> to_front bs b l1 l2 !! i = core <$> bs !! i.
Proof. unfold to_front, link_front, unlink. by rewrite !core_alter. Qed.

Lemma push_front_run b f s :
  nxt (k_bufs s) HEAD = Some f ->
  push_front b s =
  Ok tt (set_bufs (fun bs => alter (b_set_next (fun _ => b)) HEAD
                              (alter (b_set_prev (fun _ => b)) f bs)) s).
Proof.
  intros Hn. destruct (nxt_lookup _ _ _ Hn) as (h & Hh & <-). unfold push_front.
  erewrite bind_ok by (apply get_buf_ok; exact Hh). done.
Qed.

Lemma move_to_front_run b l1 l2 s :
  ring (k_bufs s) (l1 ++ b :: l2) ->
  move_to_front b s = Ok tt (set_bufs (fun bs => to_front bs b l1 l2) s).
Proof.
  intros Hr. pose proof (ring_nodup _ _ Hr) as Hnd.
  assert (Hs : forall i, i ∈ HEAD :: l1 ++ b :: l2 -> is_Some (k_bufs s !! i)).
  { intros i. by apply (ring_some _ _ i Hr). }
  pose proof (ring_seg _ _ Hr) as H. apply seg_app in H as [H1 H2].
  pose proof (seg_unlink _ _ _ _ Hnd Hs H1 H2) as Hu.
  destruct (nxt_lookup _ _ _ (seg_next _ _ _ _ H2)) as (bf & Hb & Hbn).
  pose proof (seg_prev _ _ _ _ H1) as Hbp. unfold prv in Hbp. rewrite Hb in Hbp.
  injection Hbp as Hbp.
  assert (b <> HEAD /\ b <> firstn l2 HEAD) as [Hbh Hbf].
  { apply NoDup_cons in Hnd as [Hh Hnd]. apply NoDup_app in Hnd as (_ & _ & Hnd).
    apply NoDup_cons in Hnd as [Hb' _]. destruct l2; unfold firstn; simpl; set_solver. }
  unfold move_to_front. erewrite bind_ok by (apply get_buf_ok; exact Hb). mstep.
  erewrite bind_ok.
  2: { apply get_buf_ok. ksimp. rewrite Hbn, list_lookup_alter_ne by done. exact Hb. }
  mstep. rewrite Hbn, Hbp.
  destruct (nxt_lookup _ _ _ (seg_next _ _ _ _ Hu)) as (h & Hh & Hhn).
  erewrite bind_ok by (apply get_buf_ok; exact Hh). mstep. mstep.
  rewrite (push_front_run b (firstn (l1 ++ l2) HEAD)).
  - rewrite Hhn. done.
  - ksimp. rewrite nxt_alter by done. rewrite nxt_set_next_ne by done.
    by apply (seg_next _ _ _ _ Hu).
Qed.

(** * binit *)

Lemma upd_sleeplock_buf i x s : upd_sleeplock (SLBuf i) x s = upd_buf i (b_set_lock (fun _ => x)) s.
Proof. done. Qed.

Lemma binit_one_run b f s :
  b <> HEAD -> f <> b -> nxt (k_bufs s) HEAD = Some f ->
  binit_one b s =
  Ok tt (set_hart (h_set_locks (delete (LSleep (SLBuf b))))
           (set_bufs (fun bs => alter (b_set_lock (fun _ => mksleeplock 0 0)) b
                                  (link_front bs b f)) s)).
Proof.
  intros Hb Hf Hn. destruct (nxt_lookup _ _ _ Hn) as (h & Hh & Hhn). unfold binit_one.
  erewrite bind_ok by (apply get_buf_ok; exact Hh). mstep. mstep.
  unfold initsleeplock, initlock. unfold bind at 1. mstep. cbn [modify rbind].
  rewrite upd_sleeplock_buf, (push_front_run b f).
  - f_equal. unfold set_hart, upd_buf, set_bufs. cbn. f_equal. unfold link_front. rewrite Hhn.
    rewrite (list_alter_alter_ne _ (b_set_lock _) _ f b) by done.
    by rewrite (list_alter_alter_ne _ (b_set_lock _) _ HEAD b) by done.
  - ksimp. rewrite !nxt_alter by done. rewrite nxt_set_next_ne by done. done.
Qed.

(** what binit leaves alone: everything but links and locks *)
Definition idle_fields (b : buf) : Z * Z * Z * Z * list Z :=
  (b_valid b, b_dev b, b_blockno b, b_refcnt b, b_data b).

Record binit_rel (s s' : kstate) : Prop := {
  br_procs : k_procs s' = k_procs s;
  br_disk : k_disk s' = k_disk s;
  br_hart : k_hart s' = h_set_locks (fun _ => h_locks (k_hart s')) (k_hart s);
  br_locks : forall lk, h_locks (k_hart s) !! lk = None -> h_locks (k_hart s') !! lk = None;
  br_bufs : forall i, idle_fields <$> k_bufs s' !! i = idle_fields <$> k_bufs s !! i
}.

#[export] Instance binit_rel_trans : Transitive binit_rel.
Proof.
  intros s1 s2 s3 [A1 A2 A3 A4 A5] [B1 B2 B3 B4 B5].
  split; [congruence|congruence| |auto|intros i; by rewrite B5].
  rewrite B3 at 1. rewrite A3 at 1. by destruct (k_hart s1).
Qed.

#[export] Instance binit_rel_refl : Reflexive binit_rel.
Proof. intros s. split; try done. by destruct (k_hart s). Qed.

Lemma idle_fields_alter (bs : list buf) f i j :
  (forall b, idle_fields (f b) = idle_fields b) ->
  idle_fields <$> alter f i bs !! j = idle_fields <$> bs !! j.
Proof.
  intros Hf. destruct (decide (i = j)) as [->|]; [|by rewrite list_lookup_alter_ne].
  rewrite list_lookup_alter_eq. destruct (bs !! j); simpl; [by rewrite Hf|done].
Qed.

Lemma binit_rel_unlock s lk g :
  (forall (bs : list buf) i, idle_fields <$> g bs !! i = idle_fields <$> bs !! i) ->
  binit_rel s (set_hart (h_set_locks (delete lk)) (set_bufs g s)).
Proof.
  intros Hg. split; try done.
  - intros lk' Hl. ksimp. simpl. destruct (decide (lk = lk')) as [->|].
    + apply lookup_delete_eq.
    + by rewrite lookup_delete_ne.
  - intros i. ksimp. apply Hg.
Qed.

(** the loop of binit, [k] buffers linked so far *)
Lemma binit_loop n k s :
  (k + n = HEAD)%nat -> length (k_bufs s) = S HEAD ->
  seg (k_bufs s) HEAD (rev (seq 0 k)) HEAD ->
  (forall i, (i < k)%nat -> slock s (SLBuf i) = Some (mksleeplock 0 0)) ->
  exists s', forM_ (seq k n) binit_one s = Ok tt s' /\ length (k_bufs s') = S HEAD /\
    seg (k_bufs s') HEAD (rev (seq 0 HEAD)) HEAD /\
    (forall i, (i < HEAD)%nat -> slock s' (SLBuf i) = Some (mksleeplock 0 0)) /\
    binit_rel s s'.
Proof.
  revert k s. induction n as [|n IH]; intros k s Hk Hlen Hseg Hlk; cbn [seq forM_].
  { exists s. assert (k = HEAD) as -> by lia. split_and!; (done || reflexivity). }
  set (f := firstn (rev (seq 0 k)) HEAD).
  assert (Hin : forall i, i ∈ rev (seq 0 k) <-> (i < k)%nat).
  { intros i. rewrite list_elem_of_In, <-in_rev, in_seq. lia. }
  assert (Hf : f = HEAD \/ (f < k)%nat).
  { unfold f, firstn. destruct (rev (seq 0 k)) as [|x l] eqn:E; simpl; [by left|right].
    apply Hin. set_solver. }
  erewrite bind_ok by (apply (binit_one_run k f); [lia|lia|by apply seg_next]).
  match goal with |- context [forM_ _ _ ?t] => set (s1 := t) end.
  assert (Hrel : binit_rel s s1).
  { apply binit_rel_unlock. intros bs i. unfold link_front. by rewrite !idle_fields_alter. }
  enough (exists s', forM_ (seq (S k) n) binit_one s1 = Ok tt s' /\ length (k_bufs s') = S HEAD /\
    seg (k_bufs s') HEAD (rev (seq 0 HEAD)) HEAD /\
    (forall i, (i < HEAD)%nat -> slock s' (SLBuf i) = Some (mksleeplock 0 0)) /\
    binit_rel s1 s') as (s' & G1 & G2 & G3 & G4 & G5).
  { exists s'. split_and!; try done. by transitivity s1. }
  unfold s1. apply IH; [lia| | |].
  - ksimp. unfold link_front. by rewrite !length_alter.
  - ksimp. rewrite seq_S, rev_app_distr. change (rev [(0 + k)%nat] ++ rev (seq 0 k)) with (k :: rev (seq 0 k)).
    eapply seg_ext.
    3: { apply (seg_link_front (k_bufs s) k); [lia| | | | |exact Hseg].
         - rewrite Hin. lia.
         - rewrite Hin. lia.
         - apply NoDup_ListNoDup, NoDup_rev, seq_NoDup.
         - intros i Hi. apply lookup_lt_is_Some. rewrite Hlen.
           apply elem_of_cons in Hi as [->|[->|Hi%Hin]%elem_of_cons]; lia. }
    + intros x _. by rewrite nxt_alter.
    + intros x _. by rewrite prv_alter.
  - intros i Hi. rewrite slock_set_hart. unfold slock. ksimp.
    destruct (decide (i = k)) as [->|Hne].
    + rewrite list_lookup_alter_eq.
      destruct (lookup_lt_is_Some_2 (link_front (k_bufs s) k f) k) as [b ->]; [|done].
      unfold link_front. rewrite !length_alter. lia.
    + rewrite list_lookup_alter_ne by done. specialize (Hlk i ltac:(lia)). unfold slock in Hlk.
      transitivity (b_lock <$> (core <$> link_front (k_bufs s) k f !! i)).
      { by destruct (link_front (k_bufs s) k f !! i). }
      unfold link_front. rewrite !core_alter by done. rewrite <-Hlk.
      by destruct (k_bufs s !! i).
Qed.

Lemma binit_run s :
  length (k_bufs s) = S HEAD ->
  exists s', binit s = Ok tt s' /\ ring (k_bufs s') (rev (seq 0 HEAD)) /\
    (forall i, (i < HEAD)%nat -> slock s' (SLBuf i) = Some (mksleeplock 0 0)) /\
    h_locks (k_hart s') !! LBcache = None /\ binit_rel s s'.
Proof.
  intros Hlen. unfold binit, initlock. mstep. mstep. mstep.
  match goal with |- context [forM_ _ _ ?t] => set (s1 := t) end.
  assert (Hrel : binit_rel s s1).
  { change s1 with (set_hart (h_set_locks (delete LBcache)) (set_bufs (fun bs =>
      alter (b_set_next (fun _ => HEAD)) HEAD (alter (b_set_prev (fun _ => HEAD)) HEAD bs)) s)).
    apply binit_rel_unlock. intros bs i. by rewrite !idle_fields_alter. }
  destruct (binit_loop HEAD 0 s1) as (s' & E & Hl & Hseg & Hlk & Hrel').
  - done.
  - unfold s1. ksimp. by rewrite !length_alter.
  - unfold s1. ksimp. simpl. split.
    + apply nxt_set_next_eq, alter_is_Some, lookup_lt_is_Some. lia.
    + rewrite prv_alter by done. apply prv_set_prev_eq, lookup_lt_is_Some. lia.
  - intros i Hi. lia.
  - exists s'. split; [exact E|]. split; [split; [done| |done]|].
    { apply Permutation_sym, Permutation_rev. }
    split; [done|]. split; [|by transitivity s1].
    apply (br_locks _ _ Hrel'). unfold s1. ksimp. apply lookup_delete_eq.
Qed.

(** after [binit] the buffers form one doubly linked ring through the
    head, every buffer in it exactly once (the last of the array first), and
    every buffer is unlocked. *)
Theorem binit_ring s :
  length (k_bufs s) = S HEAD ->
  exists s', binit s = Ok tt s' /\ ring (k_bufs s') (rev (seq 0 HEAD)) /\
    (forall i, (i < HEAD)%nat -> slock s' (SLBuf i) = Some (mksleeplock 0 0)).
Proof.
  intros Hlen. destruct (binit_run s Hlen) as (s' & E & Hr & Hl & _). by exists s'.
Qed.

Lemma binit_ring_witness :
  exists s', binit boot_state = Ok tt s' /\ ring (k_bufs s') (rev (seq 0 HEAD)).
Proof.
  destruct (binit_ring boot_state eq_refl) as (s' & E & R & _). exists s'. split; [exact E|exact R].
Defined.
