(* ===== verification/BioSpec.v ===== *)
(** The contract of the buffer cache: [bview s n] is the content of block [n]
    as its users see it, [bref s n] the number of references to it.  bread
    returns a locked buffer with [bview s n]; nothing the cache does by
    itself (eviction, LRU order) changes a view. *)

From stdpp Require Import base gmap strings numbers list.
From S2P Require Import Prelude KState KString Spinlock Printf ProcSync SyncSpec Bio BioRing.

(** * The invariant *)

(** the buffer holds block [n] of the file system's device *)
Definition caches (n : Z) (b : buf) : Prop := b_dev b = ROOTDEV /\ b_blockno b = n.

#[export] Instance caches_dec n b : Decision (caches n b).
Proof. unfold caches. apply _. Defined.

Definition disk_block (s : kstate) (n : Z) : list Z :=
  if n <? 0 then [] else default [] (k_disk s !! Z.to_nat n).
Definition disk_len (s : kstate) : Z := Z.of_nat (length (k_disk s)).

(** one buffer: never used, or holding a block of the disk; a buffer nobody
    references holds what the disk holds *)
Record buf_ok (s : kstate) (pid : Z) (held : bool) (b : buf) : Prop := {
  bk_dev : (b_dev b = 0 /\ b_refcnt b = 0 /\ held = false) \/
           (b_dev b = ROOTDEV /\ b_valid b = 1 /\ 0 <= b_blockno b < disk_len s);
  bk_len : length (b_data b) = Z.to_nat BSIZE;
  bk_ref : (if held then 1 else 0) <= b_refcnt b;
  bk_lock : b_lock b = if held then mksleeplock 1 pid else mksleeplock 0 0;
  bk_clean : b_dev b = ROOTDEV -> b_refcnt b = 0 -> b_data b = disk_block s (b_blockno b)
}.

(** The cache with list [l], worked on by process [p], which holds the locks
    of the buffers [H]; no other process waits for a buffer. *)
Record bio_ok (s : kstate) (p : nat) (pr : proc) (l H : list nat) : Prop := {
  bo_thread : thread_ok s p pr;
  bo_lbc : h_locks (k_hart s) !! LBcache = None;
  bo_lsl : forall i, h_locks (k_hart s) !! LSleep (SLBuf i) = None;
  bo_nowait : forall i q j, k_procs s !! i = Some q -> p_state q = SLEEPING ->
                p_chan q <> ChSleep (SLBuf j);
  bo_ring : ring (k_bufs s) l;
  bo_buf : forall i b, (i < HEAD)%nat -> k_bufs s !! i = Some b ->
             buf_ok s (p_pid pr) (bool_decide (i ∈ H)) b;
  bo_head : forall b, k_bufs s !! HEAD = Some b -> b_dev b = 0;
  bo_uniq : forall n i j b c, k_bufs s !! i = Some b -> k_bufs s !! j = Some c ->
              caches n b -> caches n c -> i = j;
  bo_disk : Forall (fun d => length d = Z.to_nat BSIZE) (k_disk s) /\ disk_len s <= 2 ^ 22
}.

(** ** Views *)

Definition bview (s : kstate) (n : Z) : list Z :=
  match list_find (caches n) (k_bufs s) with
  | Some (_, b) => b_data b
  | None => disk_block s n
  end.

Definition bref (s : kstate) (n : Z) : Z :=
  match list_find (caches n) (k_bufs s) with
  | Some (_, b) => b_refcnt b
  | None => 0
  end.

(** no buffer holds [n] *)
Definition uncached (s : kstate) (n : Z) : Prop :=
  forall i b, k_bufs s !! i = Some b -> ~ caches n b.

Lemma find_uncached s n : uncached s n -> list_find (caches n) (k_bufs s) = None.
Proof.
  intros Hu. apply list_find_None, Forall_lookup. intros i b Hb. by apply (Hu i).
Qed.

Lemma cached_or_not s n :
  uncached s n \/ exists i b, k_bufs s !! i = Some b /\ caches n b.
Proof.
  destruct (list_find (caches n) (k_bufs s)) as [[i b]|] eqn:E.
  - right. apply list_find_Some in E as (Hb & Hc & _). eauto.
  - left. intros i b Hb Hc. apply list_find_None in E. rewrite Forall_lookup in E.
    by apply (E i b).
Qed.

Section views.
Context (s : kstate).
Hypothesis uniq : forall n i j b c, k_bufs s !! i = Some b -> k_bufs s !! j = Some c ->
  caches n b -> caches n c -> i = j.

Lemma find_cached n i b :
  k_bufs s !! i = Some b -> caches n b -> list_find (caches n) (k_bufs s) = Some (i, b).
Proof.
  intros Hb Hc. apply list_find_Some. split_and!; [done..|].
  intros j c Hj Hlt Hcc. pose proof (uniq n i j b c Hb Hj Hc Hcc). lia.
Qed.

Lemma bview_cached n i b : k_bufs s !! i = Some b -> caches n b -> bview s n = b_data b.
Proof. intros Hb Hc. unfold bview. by rewrite (find_cached n i b). Qed.

Lemma bref_cached n i b : k_bufs s !! i = Some b -> caches n b -> bref s n = b_refcnt b.
Proof. intros Hb Hc. unfold bref. by rewrite (find_cached n i b). Qed.
End views.

Lemma bview_uncached s n : uncached s n -> bview s n = disk_block s n.
Proof. intros Hu. unfold bview. by rewrite find_uncached. Qed.
Lemma bref_uncached s n : uncached s n -> bref s n = 0.
Proof. intros Hu. unfold bref. by rewrite find_uncached. Qed.

(** the index of a caching buffer is not the list head *)
Lemma cached_index s p pr l H n i b :
  bio_ok s p pr l H -> k_bufs s !! i = Some b -> caches n b -> (i < HEAD)%nat.
Proof.
  intros Ho Hb [Hc _]. pose proof (lookup_lt_Some _ _ _ Hb) as Hlt.
  rewrite (ring_len _ _ (bo_ring _ _ _ _ _ Ho)) in Hlt.
  destruct (decide (i = HEAD)) as [->|]; [|lia].
  by rewrite (bo_head _ _ _ _ _ Ho b Hb) in Hc.
Qed.

(** * Replacing one buffer

    Every operation but the relinking replaces one buffer by another that
    holds the same block, or recycles a clean one. *)

Definition put_buf (i : nat) (b : buf) : kstate -> kstate := set_bufs (<[i := b]>).

Section replace.
Context (s : kstate) (p : nat) (pr : proc) (l H H' : list nat) (i : nat) (b b' : buf).
Hypothesis Hok : bio_ok s p pr l H.
Hypothesis Hi : (i < HEAD)%nat.
Hypothesis Hb : k_bufs s !! i = Some b.
Hypothesis Hlinks : b_next b' = b_next b /\ b_prev b' = b_prev b.
Hypothesis Hheld : forall j, j <> i -> (j ∈ H' <-> j ∈ H).

Let s' := put_buf i b' s.

Lemma put_buf_lookup j : k_bufs s' !! j = if decide (i = j) then Some b' else k_bufs s !! j.
Proof.
  unfold s', put_buf. ksimp. destruct (decide (i = j)) as [<-|Hne].
  - apply list_lookup_insert_eq. by eapply lookup_lt_Some.
  - by rewrite list_lookup_insert_ne.
Qed.

(** [b'] holds [n], which no other buffer holds *)
Lemma put_buf_ok n :
  buf_ok s (p_pid pr) (bool_decide (i ∈ H')) b' -> caches n b' ->
  (forall j c, j <> i -> k_bufs s !! j = Some c -> ~ caches n c) ->
  bio_ok s' p pr l H'.
Proof.
  intros Hbk Hc Hu. destruct Hok as [H1 H2 H3 H4 H5 H6 H7 H8 H9].
  split; try done.
  - destruct H1. by split.
  - replace (k_bufs s') with (alter (fun _ => b') i (k_bufs s)).
    + destruct H5 as [Hs Hp Hl]. split; [|done|by rewrite length_alter].
      eapply seg_ext; [| |exact Hs]; intros x _; unfold nxt, prv;
        destruct (decide (i = x)) as [<-|]; rewrite ?list_lookup_alter_eq,
        ?list_lookup_alter_ne by done; rewrite ?Hb; simpl; by rewrite ?(proj1 Hlinks), ?(proj2 Hlinks).
    + unfold s', put_buf. ksimp. by rewrite list_insert_alter.
  - intros j c Hj Hjc. rewrite put_buf_lookup in Hjc.
    destruct (decide (i = j)) as [<-|Hne]; [simplify_eq; destruct Hbk; by split|].
    rewrite (bool_decide_ext _ _ (Hheld j (not_eq_sym Hne))).
    destruct (H6 j c Hj Hjc). by split.
  - intros c Hc'. rewrite put_buf_lookup in Hc'. destruct (decide (i = HEAD)); [lia|by apply H7].
  - intros m j k c d Hj Hk Hcj Hck. rewrite put_buf_lookup in Hj, Hk.
    destruct (decide (i = j)) as [<-|Hn1], (decide (i = k)) as [<-|Hn2]; simplify_eq; try done.
    + destruct Hc, Hcj. assert (m = n) as -> by congruence. exfalso. by apply (Hu k d).
    + destruct Hc, Hck. assert (m = n) as -> by congruence. exfalso. by apply (Hu j c).
    + by eapply H8.
Qed.

Lemma put_buf_uniq n :
  caches n b' -> (forall j c, j <> i -> k_bufs s !! j = Some c -> ~ caches n c) ->
  forall m j k c d, k_bufs s' !! j = Some c -> k_bufs s' !! k = Some d ->
    caches m c -> caches m d -> j = k.
Proof.
  intros Hc Hu m j k c d Hj Hk Hcj Hck. rewrite put_buf_lookup in Hj, Hk.
  destruct (decide (i = j)) as [<-|Hn1], (decide (i = k)) as [<-|Hn2]; simplify_eq; try done.
  - destruct Hc, Hcj. assert (m = n) as -> by congruence. exfalso. by apply (Hu k d).
  - destruct Hc, Hck. assert (m = n) as -> by congruence. exfalso. by apply (Hu j c).
  - by eapply (bo_uniq _ _ _ _ _ Hok).
Qed.

(** the views afterwards: [n] is what [b'] says, every other block keeps
    its view, provided that a recycled buffer was unreferenced *)
Lemma put_buf_views n m :
  caches n b' -> (forall j c, j <> i -> k_bufs s !! j = Some c -> ~ caches n c) ->
  (caches n b \/ b_refcnt b = 0) ->
  bview s' m = (if decide (m = n) then b_data b' else bview s m) /\
  bref s' m = (if decide (m = n) then b_refcnt b' else bref s m).
Proof.
  intros Hc Hu Hcase. pose proof (put_buf_uniq n Hc Hu) as Hq.
  assert (Hi' : k_bufs s' !! i = Some b') by (rewrite put_buf_lookup; by case_decide).
  destruct (decide (m = n)) as [->|Hne].
  { split; [by eapply (bview_cached s' Hq)|by eapply (bref_cached s' Hq)]. }
  destruct (cached_or_not s m) as [Hum|(j & c & Hj & Hcj)].
  - assert (Hum' : uncached s' m).
    { intros j c Hj. rewrite put_buf_lookup in Hj.
      destruct (decide (i = j)); [simplify_eq|by apply (Hum j)].
      intros [_ Hm]. destruct Hc. congruence. }
    by rewrite !bview_uncached, !bref_uncached.
  - destruct (decide (i = j)) as [<-|Hij].
    + simplify_eq.
      assert (Hum' : uncached s' m).
      { intros k d Hk. rewrite put_buf_lookup in Hk.
        destruct (decide (i = k)) as [|Hik]; [simplify_eq|].
        - intros [_ Hm]. destruct Hc. congruence.
        - intros Hd. apply Hik. by eapply (bo_uniq _ _ _ _ _ Hok). }
      destruct Hcase as [Hcn|Hr]; [destruct Hcn, Hcj; congruence|].
      rewrite (bview_uncached s' m), (bref_uncached s' m) by done.
      rewrite (bview_cached s (bo_uniq _ _ _ _ _ Hok) m i b),
              (bref_cached s (bo_uniq _ _ _ _ _ Hok) m i b) by done.
      destruct Hcj as [Hd Hm].
      rewrite (bk_clean _ _ _ _ (bo_buf _ _ _ _ _ Hok i b Hi Hb)), Hm by done. by rewrite Hr.
    + assert (Hj' : k_bufs s' !! j = Some c) by (rewrite put_buf_lookup; by case_decide).
      rewrite (bview_cached s' Hq m j c), (bref_cached s' Hq m j c) by done.
      by rewrite (bview_cached s (bo_uniq _ _ _ _ _ Hok) m j c),
              (bref_cached s (bo_uniq _ _ _ _ _ Hok) m j c).
Qed.
End replace.

(** * Equations of the operations *)

Lemma alter_insert_eq {A} (f : A -> A) i (x : A) (t : list A) :
  t !! i = Some x -> alter f i t = <[i := f x]> t.
Proof.
  intros Hx. rewrite list_insert_alter. apply list_alter_ext; [|done]. intros y Hy. congruence.
Qed.

Lemma upd_buf_put i f s b : k_bufs s !! i = Some b -> upd_buf i f s = put_buf i (f b) s.
Proof. intros Hb. unfold upd_buf, put_buf, set_bufs. by rewrite (alter_insert_eq f i b). Qed.

Lemma put_buf_eq i b s c : k_bufs s !! i = Some c -> k_bufs (put_buf i b s) !! i = Some b.
Proof. intros Hc. unfold put_buf. ksimp. apply list_lookup_insert_eq. by eapply lookup_lt_Some. Qed.

Lemma put_put i b c s : put_buf i c (put_buf i b s) = put_buf i c s.
Proof. unfold put_buf, set_bufs. cbn. by rewrite list_insert_insert_eq. Qed.

Lemma thread_ok_put i b s p pr : thread_ok s p pr -> thread_ok (put_buf i b s) p pr.
Proof. intros []. by split. Qed.

Lemma diskaddr_small n : 0 <= n < 2 ^ 22 -> diskaddr n = n * BSIZE.
Proof. intros Hn. apply u32_small. change BSIZE with 1024. lia. Qed.

Section ramdisk.
Context (s : kstate) (p : nat) (pr : proc) (i : nat) (b : buf).
Hypothesis Ht : thread_ok s p pr.
Hypothesis Hfree : h_locks (k_hart s) !! LSleep (SLBuf i) = None.
Hypothesis Hb : k_bufs s !! i = Some b.
Hypothesis Hlock : b_lock b = mksleeplock 1 (p_pid pr).

Lemma holdingsleep_held : holdingsleep (SLBuf i) s = Ok 1 s.
Proof.
  rewrite (holdingsleep_run (SLBuf i) s p pr (b_lock b)); [|done|done|simpl; by rewrite Hb].
  rewrite Hlock. simpl. by rewrite Z.eqb_refl.
Qed.

Hypothesis Hno : 0 <= b_blockno b < disk_len s.
Hypothesis Hsize : disk_len s <= 2 ^ 22.

Lemma ramdisk_bound :
  (Z.of_nat (length (k_disk s)) * BSIZE <? diskaddr (b_blockno b) + BSIZE) = false /\
  Z.to_nat (diskaddr (b_blockno b) / BSIZE) = Z.to_nat (b_blockno b).
Proof.
  unfold disk_len in *. rewrite diskaddr_small by lia. split.
  - apply Z.ltb_ge. change BSIZE with 1024. lia.
  - by rewrite Z.div_mul.
Qed.

Lemma ramdisk_read :
  ramdisk_rw i false s =
  Ok tt (put_buf i (b_set_valid (fun _ => 1)
           (b_set_data (fun _ => disk_block s (b_blockno b)) b)) s).
Proof.
  unfold disk_block. rewrite (proj2 (Z.ltb_ge _ _) (proj1 Hno)).
  unfold ramdisk_rw. erewrite bind_ok by exact holdingsleep_held.
  change (negb (nz 1)) with false. cbv iota.
  erewrite bind_ok by (apply get_buf_ok; exact Hb). mstep.
  destruct ramdisk_bound as [E1 E2].
  match goal with |- (if ?c then _ else _) _ = _ => replace c with false by (symmetry; exact E1) end.
  rewrite E2. mstep.
  rewrite (upd_buf_put i _ s b) by done. unfold modify.
  erewrite upd_buf_put by (by eapply put_buf_eq). by rewrite put_put.
Qed.

Lemma ramdisk_write :
  ramdisk_rw i true s =
  Ok tt (set_writes (fun w => w ++ [(Z.to_nat (b_blockno b), b_data b)])
           (set_disk (<[Z.to_nat (b_blockno b) := b_data b]>) s)).
Proof.
  unfold ramdisk_rw. erewrite bind_ok by exact holdingsleep_held.
  change (negb (nz 1)) with false. cbv iota.
  erewrite bind_ok by (apply get_buf_ok; exact Hb). mstep.
  destruct ramdisk_bound as [E1 E2].
  match goal with |- (if ?c then _ else _) _ = _ => replace c with false by (symmetry; exact E1) end.
  by rewrite E2.
Qed.
End ramdisk.

Section bread.
Context (s : kstate) (p : nat) (pr : proc) (l H : list nat) (n : Z).
Hypothesis Hok : bio_ok s p pr l H.

Lemma index_in_ring i : (i < HEAD)%nat <-> i ∈ l.
Proof. rewrite (ring_perm _ _ (bo_ring _ _ _ _ _ Hok)), elem_of_seq. lia. Qed.

Lemma ring_length : length l = HEAD.
Proof. rewrite (ring_perm _ _ (bo_ring _ _ _ _ _ Hok)). apply length_seq. Qed.

Lemma head_not_in_ring : HEAD ∉ l.
Proof. rewrite <-index_in_ring. lia. Qed.

(** the search for the block *)
Definition hit_block (b : buf) : bool := (b_dev b =? ROOTDEV) && (b_blockno b =? n).

Lemma hit_block_caches b : hit_block b = true <-> caches n b.
Proof. unfold hit_block, caches. rewrite andb_true_iff, !Z.eqb_eq. done. Qed.

Lemma search_hit i b :
  k_bufs s !! i = Some b -> caches n b -> first_hit (k_bufs s) hit_block l = Some i.
Proof.
  intros Hb Hc. destruct (first_hit (k_bufs s) hit_block l) as [j|] eqn:E.
  - apply first_hit_Some in E as (_ & c & Hj & Hh). f_equal.
    apply hit_block_caches in Hh. by eapply (bo_uniq _ _ _ _ _ Hok).
  - assert (hit_block b = false) as Hf.
    { eapply first_hit_None; [exact E| |exact Hb]. apply index_in_ring. by eapply cached_index. }
    apply hit_block_caches in Hc. congruence.
Qed.

Lemma search_miss : uncached s n -> first_hit (k_bufs s) hit_block l = None.
Proof.
  intros Hu. destruct (first_hit (k_bufs s) hit_block l) as [j|] eqn:E; [|done].
  apply first_hit_Some in E as (_ & c & Hj & Hh). apply hit_block_caches in Hh.
  exfalso. by apply (Hu j c).
Qed.

Let s1 := set_hart (hart_lock LBcache) s.

Lemma bget_search :
  exists h, get_buf HEAD s1 = Ok h s1 /\
    list_search HEAD b_next hit_block (b_next h) s1 = Ok (first_hit (k_bufs s) hit_block l) s1 /\
    list_search HEAD b_prev (fun b => b_refcnt b =? 0) (b_prev h) s1 =
      Ok (first_hit (k_bufs s) (fun b => b_refcnt b =? 0) (rev l)) s1.
Proof.
  pose proof (ring_seg _ _ (bo_ring _ _ _ _ _ Hok)) as Hs.
  destruct (nxt_lookup _ _ _ (seg_next _ _ _ _ Hs)) as (h & Hh & Hn).
  pose proof (seg_prev _ _ _ _ Hs) as Hp. unfold prv in Hp. rewrite Hh in Hp.
  injection Hp as Hp. exists h. rewrite Hn, Hp.
  pose proof ring_length. pose proof head_not_in_ring. split_and!.
  - apply get_buf_ok. exact Hh.
  - apply (list_search_next _ _ _ s1 HEAD); [exact Hs|done|lia].
  - apply (list_search_prev _ _ _ s1 HEAD); [exact Hs|done|lia].
Qed.

Lemma release_bcache t :
  k_hart t = hart_lock LBcache (k_hart s) ->
  release LBcache t = Ok tt (set_hart (fun _ => k_hart s) t).
Proof.
  intros Ht. apply release_locked; [apply (to_hart _ _ _ (bo_thread _ _ _ _ _ Hok))| |done].
  apply (bo_lbc _ _ _ _ _ Hok).
Qed.

Lemma acquire_bcache : acquire LBcache s = Ok tt s1.
Proof.
  apply acquire_run. split; [apply (to_hart _ _ _ (bo_thread _ _ _ _ _ Hok))|].
  apply (bo_lbc _ _ _ _ _ Hok).
Qed.

(** taking the sleep lock of an unlocked buffer *)
Lemma acquiresleep_buf i b b' :
  k_bufs s !! i = Some b -> b_lock b' = mksleeplock 0 0 ->
  acquiresleep (SLBuf i) (put_buf i b' s) =
  Ok tt (put_buf i (b_set_lock (fun _ => mksleeplock 1 (p_pid pr)) b') s).
Proof.
  intros Hb Hl. rewrite (acquiresleep_run (SLBuf i) _ p pr (mksleeplock 0 0)).
  - f_equal. rewrite upd_sleeplock_buf.
    erewrite upd_buf_put by (by eapply put_buf_eq). by rewrite put_put.
  - apply thread_ok_put, (bo_thread _ _ _ _ _ Hok).
  - apply (bo_lsl _ _ _ _ _ Hok).
  - unfold slock. erewrite put_buf_eq by exact Hb. simpl. by rewrite Hl.
  - done.
Qed.

Lemma bget_hit i b :
  k_bufs s !! i = Some b -> caches n b -> i ∉ H ->
  bget ROOTDEV n s =
  Ok i (put_buf i (b_set_lock (fun _ => mksleeplock 1 (p_pid pr))
                     (b_set_refcnt (fun r => r + 1) b)) s).
Proof.
  intros Hb Hc Hi. unfold bget. erewrite bind_ok by exact acquire_bcache.
  destruct bget_search as (h & Eh & En & _). erewrite bind_ok by exact Eh.
  erewrite bind_ok by exact En. rewrite (search_hit i b) by done. mstep.
  erewrite bind_ok by (by apply release_bcache).
  change (set_hart (fun _ => k_hart s) (upd_buf i (b_set_refcnt (fun r => r + 1)) s1))
    with (upd_buf i (b_set_refcnt (fun r => r + 1)) s).
  rewrite (upd_buf_put i _ s b) by done.
  erewrite bind_ok; [reflexivity|]. eapply acquiresleep_buf; [exact Hb|]. simpl.
  rewrite (bk_lock _ _ _ _ (bo_buf _ _ _ _ _ Hok i b ltac:(by eapply cached_index) Hb)).
  by rewrite bool_decide_false.
Qed.

(** the least recently used unreferenced buffer *)
Definition victim : option nat :=
  first_hit (k_bufs s) (fun b => b_refcnt b =? 0) (rev l).

Lemma victim_spec i :
  victim = Some i ->
  (i < HEAD)%nat /\ i ∉ H /\ exists b, k_bufs s !! i = Some b /\ b_refcnt b = 0 /\
    b_lock b = mksleeplock 0 0.
Proof.
  intros E. apply first_hit_Some in E as (Hi & b & Hb & Hr). apply Z.eqb_eq in Hr.
  assert (Hlt : (i < HEAD)%nat).
  { apply index_in_ring. by rewrite list_elem_of_In, in_rev, <-list_elem_of_In. }
  pose proof (bo_buf _ _ _ _ _ Hok i b Hlt Hb) as Hbk. split; [done|].
  assert (i ∉ H) as HiH.
  { intros Hin. pose proof (bk_ref _ _ _ _ Hbk) as Hr'.
    rewrite bool_decide_true in Hr' by done. lia. }
  split; [done|]. exists b. split_and!; [done..|].
  rewrite (bk_lock _ _ _ _ Hbk). by rewrite bool_decide_false.
Qed.

Lemma bget_miss i b :
  uncached s n -> victim = Some i -> k_bufs s !! i = Some b ->
  bget ROOTDEV n s =
  Ok i (put_buf i (mkbuf 0 ROOTDEV n (mksleeplock 1 (p_pid pr)) 1 (b_prev b) (b_next b)
                     (b_data b)) s).
Proof.
  intros Hu Hv Hb. destruct (victim_spec i Hv) as (Hi & HiH & c & Hc & Hr & Hl). simplify_eq.
  unfold bget. erewrite bind_ok by exact acquire_bcache.
  destruct bget_search as (h & Eh & En & Ep). erewrite bind_ok by exact Eh.
  erewrite bind_ok by exact En. rewrite search_miss by done.
  erewrite bind_ok by exact Eh. erewrite bind_ok by exact Ep. unfold victim in Hv.
  rewrite Hv. mstep. mstep. mstep. mstep.
  erewrite bind_ok by (by apply release_bcache).
  match goal with |- context [set_hart _ ?t] => set (t1 := t) end.
  replace (set_hart (fun _ => k_hart s) t1) with
    (put_buf i (mkbuf 0 ROOTDEV n (b_lock b) 1 (b_prev b) (b_next b) (b_data b)) s).
  - erewrite bind_ok; [reflexivity|]. eapply acquiresleep_buf; [exact Hb|exact Hl].
  - unfold t1, put_buf, upd_buf, set_bufs, set_hart. cbn. f_equal.
    rewrite !list_alter_alter_eq. symmetry. by rewrite (alter_insert_eq _ i b).
Qed.

Lemma bget_full :
  u_panicked (k_uart s) = 0 -> uncached s n -> victim = None ->
  exists s', bget ROOTDEV n s = Panic "bget: no buffers" s'.
Proof.
  intros Hp Hu Hv. unfold bget. erewrite bind_ok by exact acquire_bcache.
  destruct bget_search as (h & Eh & En & Ep). erewrite bind_ok by exact Eh.
  erewrite bind_ok by exact En. rewrite search_miss by done.
  erewrite bind_ok by exact Eh. erewrite bind_ok by exact Ep. unfold victim in Hv.
  rewrite Hv. by apply panic_is_panic.
Qed.
End bread.

Section bread_run.
Context (s : kstate) (p : nat) (pr : proc) (l H : list nat) (n : Z).
Hypothesis Hok : bio_ok s p pr l H.
Hypothesis Hn : 0 <= n < disk_len s.
Hypothesis Hfree : forall i b, k_bufs s !! i = Some b -> caches n b -> i ∉ H.

(** the buffer bread returns: [b] is the buffer before *)
Definition got (b : buf) : buf :=
  mkbuf 1 ROOTDEV n (mksleeplock 1 (p_pid pr)) (bref s n + 1) (b_prev b) (b_next b) (bview s n).

Lemma bread_run :
  ~ uncached s n \/ victim s l <> None ->
  exists i b, (i < HEAD)%nat /\ k_bufs s !! i = Some b /\ i ∉ H /\
    (caches n b \/ b_refcnt b = 0) /\
    (forall j c, j <> i -> k_bufs s !! j = Some c -> ~ caches n c) /\
    bread ROOTDEV n s = Ok i (put_buf i (got b) s).
Proof.
  intros Hroom. destruct (cached_or_not s n) as [Hu|(i & b & Hb & Hc)].
  - destruct (victim s l) as [i|] eqn:Hv; [|tauto].
    destruct (victim_spec _ _ _ _ _ Hok i Hv) as (Hi & HiH & b & Hb & Hr & Hl).
    exists i, b. split_and!; [done..|by right| |].
    { intros j c _ Hj. by apply (Hu j). }
    unfold bread. erewrite bind_ok by (by eapply bget_miss).
    set (b1 := mkbuf _ _ _ _ _ _ _ _).
    assert (Hb1 : k_bufs (put_buf i b1 s) !! i = Some b1) by (by eapply put_buf_eq).
    erewrite bind_ok by (apply get_buf_ok; exact Hb1). 
    assert (b_valid b1 = 0) as -> by done. change (negb (nz 0)) with true. cbn [whenM].
    erewrite bind_ok.
    2: { erewrite bind_ok.
         2: { apply (ramdisk_read _ p pr i b1); [|apply (bo_lsl _ _ _ _ _ Hok)|done..|].
              - apply thread_ok_put, (bo_thread _ _ _ _ _ Hok).
              - apply (bo_disk _ _ _ _ _ Hok). }
         unfold modify. reflexivity. }
    unfold ret. f_equal. rewrite put_put.
    erewrite upd_buf_put by (by eapply put_buf_eq). rewrite put_put.
    unfold got. by rewrite bref_uncached, bview_uncached by done.
  - exists i, b. assert (Hi : (i < HEAD)%nat) by (by eapply cached_index).
    assert (HiH : i ∉ H) by (by eapply Hfree).
    split_and!; [done..|by left| |].
    { intros j c Hne Hj Hcc. apply Hne. by eapply (bo_uniq _ _ _ _ _ Hok). }
    unfold bread. erewrite bind_ok by (by eapply bget_hit).
    erewrite bind_ok by (apply get_buf_ok; by eapply put_buf_eq).
    cbn [b_valid b_set_lock b_set_refcnt].
    pose proof (bo_buf _ _ _ _ _ Hok i b Hi Hb) as Hbk.
    assert (b_valid b = 1) as Hv.
    { destruct (bk_dev _ _ _ _ Hbk) as [(Hd & _)|(_ & Hv & _)]; [|done].
      destruct Hc. unfold ROOTDEV in *. lia. }
    rewrite Hv. change (negb (nz 1)) with false. cbn [whenM]. mstep. unfold ret. do 2 f_equal.
    destruct Hc as [Hc1 Hc2]. unfold got.
    rewrite (bref_cached s (bo_uniq _ _ _ _ _ Hok) n i b) by done.
    rewrite (bview_cached s (bo_uniq _ _ _ _ _ Hok) n i b) by done.
    destruct b; simpl in *. by subst.
Qed.


Lemma bview_length m : 0 <= m < disk_len s -> length (bview s m) = Z.to_nat BSIZE.
Proof.
  intros Hm. destruct (cached_or_not s m) as [Hu|(i & b & Hb & Hc)].
  - rewrite bview_uncached by done. unfold disk_block.
    rewrite (proj2 (Z.ltb_ge _ _) (proj1 Hm)).
    destruct (lookup_lt_is_Some_2 (k_disk s) (Z.to_nat m)) as [d Hd]; [unfold disk_len in Hm; lia|].
    rewrite Hd. simpl. destruct (bo_disk _ _ _ _ _ Hok) as [Hf _].
    rewrite Forall_lookup in Hf. by eapply Hf.
  - rewrite (bview_cached s (bo_uniq _ _ _ _ _ Hok) m i b) by done.
    apply (bk_len _ _ _ _ (bo_buf _ _ _ _ _ Hok i b ltac:(by eapply cached_index) Hb)).
Qed.

Lemma bref_nonneg m : 0 <= bref s m.
Proof.
  destruct (cached_or_not s m) as [Hu|(i & b & Hb & Hc)]; [by rewrite bref_uncached|].
  rewrite (bref_cached s (bo_uniq _ _ _ _ _ Hok) m i b) by done.
  pose proof (bk_ref _ _ _ _ (bo_buf _ _ _ _ _ Hok i b ltac:(by eapply cached_index) Hb)).
  destruct (bool_decide _); lia.
Qed.
End bread_run.

(** * Writing, releasing and pinning a held buffer *)

Section held.
Context (s : kstate) (p : nat) (pr : proc) (l H : list nat) (i : nat) (b : buf) (n : Z).
Hypothesis Hok : bio_ok s p pr l H.
Hypothesis Hb : k_bufs s !! i = Some b.
Hypothesis Hc : caches n b.
Hypothesis HiH : i ∈ H.

Lemma held_index : (i < HEAD)%nat.
Proof. by eapply cached_index. Qed.

Lemma held_buf : buf_ok s (p_pid pr) true b.
Proof.
  pose proof (bo_buf _ _ _ _ _ Hok i b held_index Hb) as Hbk.
  by rewrite bool_decide_true in Hbk.
Qed.

Lemma held_others j c : j <> i -> k_bufs s !! j = Some c -> ~ caches n c.
Proof. intros Hne Hj Hcc. apply Hne. by eapply (bo_uniq _ _ _ _ _ Hok). Qed.

Lemma held_range : 0 <= n < disk_len s.
Proof.
  destruct (bk_dev _ _ _ _ held_buf) as [(Hd & _)|(_ & _ & Hr)].
  - destruct Hc as [Hd' _]. unfold ROOTDEV in *. lia.
  - destruct Hc as [_ <-]. done.
Qed.

Lemma bwrite_run :
  bwrite i s = Ok tt (set_writes (fun w => w ++ [(Z.to_nat n, b_data b)])
                        (set_disk (<[Z.to_nat n := b_data b]>) s)).
Proof.
  unfold bwrite. pose proof (bk_lock _ _ _ _ held_buf) as Hl. cbn in Hl.
  pose proof (bo_thread _ _ _ _ _ Hok) as Ht.
  pose proof (bo_lsl _ _ _ _ _ Hok i) as Hf.
  erewrite bind_ok by (by eapply holdingsleep_held).
  change (negb (nz 1)) with false. cbv iota.
  destruct Hc as [_ Hno]. rewrite (ramdisk_write s p pr i b); try done.
  - by rewrite Hno.
  - rewrite Hno. apply held_range.
  - apply (bo_disk _ _ _ _ _ Hok).
Qed.

(** the release of the sleep lock, with nobody waiting for it *)
Lemma releasesleep_buf :
  releasesleep (SLBuf i) s = Ok tt (put_buf i (b_set_lock (fun _ => mksleeplock 0 0) b) s).
Proof.
  rewrite (releasesleep_run (SLBuf i) s p pr (b_lock b)).
  - f_equal. rewrite upd_sleeplock_buf, (upd_buf_put i _ s b) by done.
    unfold set_procs, put_buf, set_bufs. cbn. f_equal.
    apply list_eq. intros j. rewrite list_lookup_imap.
    destruct (k_procs s !! j) as [q|] eqn:Hq; simpl; [|done]. f_equal. unfold wake.
    case_bool_decide; [done|]. rewrite bool_decide_false; [done|].
    intros [Hs Hch]. by apply (bo_nowait _ _ _ _ _ Hok j q i).
  - apply (bo_thread _ _ _ _ _ Hok).
  - apply (bo_lsl _ _ _ _ _ Hok).
  - simpl. by rewrite Hb.
Qed.

(** the buffer after brelse, links aside *)
Definition released : buf :=
  b_set_refcnt (fun r => r - 1) (b_set_lock (fun _ => mksleeplock 0 0) b).

Lemma brelse_run :
  exists l1 l2, l = l1 ++ i :: l2 /\
  brelse i s = Ok tt (if b_refcnt b =? 1
                      then set_bufs (fun bs => to_front bs i l1 l2) (put_buf i released s)
                      else put_buf i released s).
Proof.
  assert (Hil : i ∈ l) by (eapply index_in_ring; [exact Hok|apply held_index]).
  apply list_elem_of_split in Hil as (l1 & l2 & Hl). exists l1, l2. split; [done|].
  unfold brelse. pose proof (bk_lock _ _ _ _ held_buf) as Hlk. cbn in Hlk.
  pose proof (bo_thread _ _ _ _ _ Hok) as Ht. pose proof (bo_lsl _ _ _ _ _ Hok i) as Hf.
  erewrite bind_ok by (by eapply holdingsleep_held).
  change (negb (nz 1)) with false. cbv iota.
  erewrite bind_ok by exact releasesleep_buf.
  set (s1 := put_buf i _ s).
  erewrite bind_ok.
  2: { apply acquire_run. split; [apply (to_hart _ _ _ Ht)|apply (bo_lbc _ _ _ _ _ Hok)]. }
  mstep.
  assert (Hs1 : k_bufs s1 !! i = Some (b_set_lock (fun _ => mksleeplock 0 0) b))
    by (by eapply put_buf_eq).
  replace (upd_buf i (b_set_refcnt (fun r => r - 1)) (set_hart (hart_lock LBcache) s1))
    with (set_hart (hart_lock LBcache) (put_buf i released s)).
  2: { change (upd_buf i (b_set_refcnt (fun r => r - 1)) (set_hart (hart_lock LBcache) s1))
         with (set_hart (hart_lock LBcache) (upd_buf i (b_set_refcnt (fun r => r - 1)) s1)).
       f_equal. erewrite upd_buf_put by exact Hs1. unfold s1. by rewrite put_put. }
  set (s2 := put_buf i released s).
  assert (Hs2 : k_bufs s2 !! i = Some released) by (by eapply put_buf_eq).
  erewrite bind_ok by (apply get_buf_ok; exact Hs2).
  change (b_refcnt released) with (b_refcnt b - 1).
  assert (Hr : (b_refcnt b - 1 =? 0) = (b_refcnt b =? 1)) by lia. rewrite Hr.
  assert (Hring : ring (k_bufs s2) l).
  { unfold s2, released. rewrite <-(upd_buf_put i (fun b => b_set_refcnt (fun r => r - 1)
      (b_set_lock (fun _ => mksleeplock 0 0) b)) s b) by done.
    apply (ring_alter (k_bufs s)); [done|done|apply (bo_ring _ _ _ _ _ Hok)]. }
  destruct (b_refcnt b =? 1); cbn [whenM].
  - erewrite bind_ok.
    2: { apply (move_to_front_run i l1 l2). rewrite Hl in Hring. exact Hring. }
    by rewrite (release_bcache s p pr l H Hok).
  - mstep. by rewrite (release_bcache s p pr l H Hok).
Qed.

Lemma bpin_run : bpin i s = Ok tt (put_buf i (b_set_refcnt (fun r => r + 1) b) s).
Proof.
  unfold bpin. erewrite bind_ok by (by eapply acquire_bcache). mstep.
  rewrite (release_bcache s p pr l H Hok) by done.
  by rewrite <-(upd_buf_put i _ s b) by done.
Qed.

Lemma bunpin_run : bunpin i s = Ok tt (put_buf i (b_set_refcnt (fun r => r - 1) b) s).
Proof.
  unfold bunpin. erewrite bind_ok by (by eapply acquire_bcache). mstep.
  rewrite (release_bcache s p pr l H Hok) by done.
  by rewrite <-(upd_buf_put i _ s b) by done.
Qed.
End held.

(** ** Relinking and writing keep the invariant and the views *)

Lemma caches_core n b : caches n (core b) <-> caches n b.
Proof. done. Qed.

(** two tables with the same contents, links aside *)
Lemma core_some (bs bs' : list buf) i b' :
  (forall j, core <$> bs' !! j = core <$> bs !! j) -> bs' !! i = Some b' ->
  exists b, bs !! i = Some b /\ core b' = core b.
Proof.
  intros Hc Hb. specialize (Hc i). rewrite Hb in Hc. destruct (bs !! i) as [b|]; [|done].
  exists b. split; [done|]. unfold fmap, option_fmap, option_map in Hc. congruence.
Qed.

Lemma core_fields b b' :
  core b' = core b ->
  b_valid b' = b_valid b /\ b_dev b' = b_dev b /\ b_blockno b' = b_blockno b /\
  b_lock b' = b_lock b /\ b_refcnt b' = b_refcnt b /\ b_data b' = b_data b.
Proof. destruct b, b'. unfold core. simpl. intros [= <- <- <- <- <- <-]. done. Qed.

Lemma relink_ok s p pr l H bs' l' :
  bio_ok s p pr l H -> ring bs' l' ->
  (forall j, core <$> bs' !! j = core <$> k_bufs s !! j) ->
  bio_ok (set_bufs (fun _ => bs') s) p pr l' H /\
  forall m, bview (set_bufs (fun _ => bs') s) m = bview s m /\
            bref (set_bufs (fun _ => bs') s) m = bref s m.
Proof.
  intros Hok Hr Hcore. pose proof Hok as [H1 H2 H3 H4 H5 H6 H7 H8 H9].
  assert (Hq : forall n i j b c, bs' !! i = Some b -> bs' !! j = Some c ->
            caches n b -> caches n c -> i = j).
  { intros n i j b' c' Hi Hj Hb Hc.
    destruct (core_some _ _ _ _ Hcore Hi) as (b & Hi' & Eb).
    destruct (core_some _ _ _ _ Hcore Hj) as (c & Hj' & Ec).
    apply core_fields in Eb as (_ & Eb1 & Eb2 & _). apply core_fields in Ec as (_ & Ec1 & Ec2 & _).
    apply (H8 n i j b c); [done|done|..]; unfold caches in *; split; (congruence || lia). }
  split.
  - split; try done.
    + destruct H1. by split.
    + intros i b' Hi Hb'. destruct (core_some _ _ _ _ Hcore Hb') as (b & Hb & E).
      apply core_fields in E as (E1 & E2 & E3 & E4 & E5 & E6).
      destruct (H6 i b Hi Hb) as [G1 G2 G3 G4 G5].
      split; rewrite ?E1, ?E2, ?E3, ?E4, ?E5, ?E6; done.
    + intros b' Hb'. destruct (core_some _ _ _ _ Hcore Hb') as (b & Hb & E).
      apply core_fields in E as (_ & E2 & _). rewrite E2. by apply H7.
  - intros m. destruct (cached_or_not s m) as [Hu|(i & b & Hb & Hc)].
    + assert (Hu' : uncached (set_bufs (fun _ => bs') s) m).
      { intros j c' Hj. destruct (core_some _ _ _ _ Hcore Hj) as (c & Hj' & E).
        apply core_fields in E as (_ & E2 & E3 & _). intros [Hd Hn]. apply (Hu j c Hj').
        split; congruence. }
      by rewrite !bview_uncached, !bref_uncached.
    + pose proof (Hcore i) as Hi. rewrite Hb in Hi.
      destruct (bs' !! i) as [b'|] eqn:Hb'; [|done].
      assert (core b' = core b) as E' by (unfold fmap, option_fmap, option_map in Hi; congruence).
      apply core_fields in E' as (E1 & E2 & E3 & E4 & E5 & E6).
      assert (Hc' : caches m b') by (destruct Hc; split; congruence).
      rewrite (bview_cached (set_bufs (fun _ => bs') s) Hq m i b'),
              (bref_cached (set_bufs (fun _ => bs') s) Hq m i b') by done.
      by rewrite (bview_cached s H8 m i b), (bref_cached s H8 m i b).
Qed.
