(* ===== verification/BlockStore.v ===== *)
(** The interface between the buffer cache and the layers above it: the
    class [BlockStore] states what bread, bwrite, brelse, bpin and bunpin
    promise in terms of a view of the blocks, their reference counts and the
    disk; the buffer cache of bio.c is an instance. *)

From stdpp Require Import base gmap strings numbers list.
From S2P Require Import Prelude KState KString Spinlock Printf ProcSync SyncSpec Bio BioRing BioSpec.

(** * The interface *)

(** [s'] differs from [s] only in the cache and the disk *)
Definition io_frame (s s' : kstate) : Prop :=
  s' = set_bufs (fun _ => k_bufs s') (set_disk (fun _ => k_disk s')
         (set_writes (fun _ => k_writes s') s)).

#[export] Instance io_frame_refl : Reflexive io_frame.
Proof. intros s. done. Qed.
#[export] Instance io_frame_trans : Transitive io_frame.
Proof. intros s1 s2 s3 H1 H2. unfold io_frame in *. rewrite H2, H1. done. Qed.

(** the disk and its history are untouched *)
Definition same_disk (s s' : kstate) : Prop :=
  k_disk s' = k_disk s /\ k_writes s' = k_writes s.

Definition bump (R : Z -> Z) (n d : Z) : Z -> Z := fun m => if decide (m = n) then R m + d else R m.
Definition vset (V : Z -> list Z) (n : Z) (d : list Z) : Z -> list Z :=
  fun m => if decide (m = n) then d else V m.

(** fewer than [NBUF] blocks are referenced *)
Definition room (R : Z -> Z) : Prop :=
  exists ns : list Z, (forall m, R m <> 0 -> m ∈ ns) /\ (length ns < HEAD)%nat.

(** the locks the cache takes *)
Definition io_lock (l : lockid) : bool :=
  match l with LBcache | LSleep _ | LProc _ => true | _ => false end.

(** [cache s H V R]: the buffers [H] (index, block) are held, block [n] has
    the content [V n] and [R n] references. *)
Class BlockStore (cache : kstate -> list (nat * Z) -> (Z -> list Z) -> (Z -> Z) -> Prop) : Prop := {
  bs_read s H V R n :
    cache s H V R -> 0 <= n < disk_len s -> n ∉ H.*2 -> room R \/ 0 < R n ->
    exists i s', bread ROOTDEV n s = Ok i s' /\ io_frame s s' /\ same_disk s s' /\
                 cache s' ((i, n) :: H) V (bump R n 1);
  bs_data s H V R i n : cache s H V R -> (i, n) ∈ H -> bdata i s = Ok (V n) s;
  bs_set s H V R i n d :
    cache s H V R -> (i, n) ∈ H -> length d = Z.to_nat BSIZE ->
    exists s', set_bdata i d s = Ok tt s' /\ io_frame s s' /\ same_disk s s' /\
               cache s' H (vset V n d) R;
  bs_write s H V R i n :
    cache s H V R -> (i, n) ∈ H ->
    exists s', bwrite i s = Ok tt s' /\ io_frame s s' /\
               k_disk s' = <[Z.to_nat n := V n]> (k_disk s) /\
               k_writes s' = k_writes s ++ [(Z.to_nat n, V n)] /\
               cache s' H V R;
  bs_release s H H' V R i n :
    cache s H V R -> H ≡ₚ (i, n) :: H' -> 1 < R n \/ V n = disk_block s n ->
    exists s', brelse i s = Ok tt s' /\ io_frame s s' /\ same_disk s s' /\
               cache s' H' V (bump R n (-1));
  bs_pin s H V R i n :
    cache s H V R -> (i, n) ∈ H ->
    exists s', bpin i s = Ok tt s' /\ io_frame s s' /\ same_disk s s' /\
               cache s' H V (bump R n 1);
  bs_unpin s H V R i n :
    cache s H V R -> (i, n) ∈ H -> 1 < R n ->
    exists s', bunpin i s = Ok tt s' /\ io_frame s s' /\ same_disk s s' /\
               cache s' H V (bump R n (-1));
  bs_blockno s H V R i n :
    cache s H V R -> (i, n) ∈ H -> exists b, k_bufs s !! i = Some b /\ b_blockno b = n;
  bs_len s H V R n : cache s H V R -> 0 <= n < disk_len s -> length (V n) = Z.to_nat BSIZE;
  (** a block without references has the content of the disk *)
  bs_clean s H V R n : cache s H V R -> R n = 0 -> V n = disk_block s n;
  bs_ext s H V V' R R' :
    cache s H V R -> (forall n, V' n = V n) -> (forall n, R' n = R n) -> cache s H V' R';
  (** the other components' state is not part of the cache *)
  bs_frame s s' H V R :
    cache s H V R -> k_hart s' = k_hart s -> k_procs s' = k_procs s ->
    k_bufs s' = k_bufs s -> k_disk s' = k_disk s -> cache s' H V R;
  (** it can be used with other spin locks held, *)
  bs_hart s H V R h :
    cache s H V R -> hart_ok h -> h_proc h = h_proc (k_hart s) ->
    (forall l, io_lock l = true -> h_locks h !! l = h_locks (k_hart s) !! l) ->
    cache (set_hart (fun _ => h) s) H V R;
  (** and by a thread that wakes others *)
  bs_procs s H V R : cache s H V R -> procs_ok s;
  bs_wake s H V R ch :
    cache s H V R -> cache (set_procs (imap (wake ch (h_proc (k_hart s)))) s) H V R
}.

(** * The buffer cache implements it *)

Definition bio_cache (p : nat) (pr : proc) (s : kstate) (H : list (nat * Z))
  (V : Z -> list Z) (R : Z -> Z) : Prop :=
  (exists l, bio_ok s p pr l H.*1) /\ NoDup H.*1 /\
  (forall i n, (i, n) ∈ H -> exists b, k_bufs s !! i = Some b /\ caches n b) /\
  (forall n, V n = bview s n) /\ (forall n, R n = bref s n).

Section instance.
Context (p : nat) (pr : proc).

Lemma elem_of_fst (H : list (nat * Z)) i n : (i, n) ∈ H -> i ∈ H.*1.
Proof. intros Hi. apply list_elem_of_fmap. by exists (i, n). Qed.
Lemma elem_of_snd (H : list (nat * Z)) i n : (i, n) ∈ H -> n ∈ H.*2.
Proof. intros Hi. apply list_elem_of_fmap. by exists (i, n). Qed.

(** pigeonhole: with fewer than NBUF referenced blocks, some buffer is
    unreferenced *)
Lemma room_victim s l H R :
  bio_ok s p pr l H -> (forall n, R n = bref s n) -> room R -> victim s l <> None.
Proof.
  intros Hok HR (ns & Hns & Hlen) Hv. unfold victim in Hv.
  assert (Hall : forall i, (i < HEAD)%nat -> exists b, k_bufs s !! i = Some b /\
            caches (b_blockno b) b /\ b_blockno b ∈ ns).
  { intros i Hi.
    destruct (lookup_lt_is_Some_2 (k_bufs s) i) as [b Hb].
    { rewrite (ring_len _ _ (bo_ring _ _ _ _ _ Hok)). lia. }
    assert (Hr : b_refcnt b <> 0).
    { assert ((b_refcnt b =? 0) = false) as E; [|by apply Z.eqb_neq].
      apply (first_hit_None (k_bufs s) (fun b => b_refcnt b =? 0) (rev l) i b Hv); [|done].
      rewrite list_elem_of_In, <-in_rev, <-list_elem_of_In. by eapply index_in_ring. }
    exists b. split; [done|].
    destruct (bk_dev _ _ _ _ (bo_buf _ _ _ _ _ Hok i b Hi Hb)) as [(_ & Hz & _)|(Hd & _)]; [done|].
    split; [by split|]. apply Hns. rewrite HR.
    by rewrite (bref_cached s (bo_uniq _ _ _ _ _ Hok) _ i b). }
  set (f := fun i => default 0 (b_blockno <$> k_bufs s !! i)).
  assert (Hnd : NoDup (f <$> seq 0 HEAD)).
  { apply NoDup_fmap_2_strong; [|apply NoDup_seq].
    intros i j Hi Hj. apply elem_of_seq in Hi, Hj. unfold f.
    destruct (Hall i ltac:(lia)) as (b & Hb & Hcb & _).
    destruct (Hall j ltac:(lia)) as (c & Hc & Hcc & _). rewrite Hb, Hc. simpl. intros E.
    rewrite E in Hcb. by eapply (bo_uniq _ _ _ _ _ Hok). }
  assert (Hsub : (f <$> seq 0 HEAD) ⊆+ ns).
  { apply NoDup_submseteq; [done|]. intros m Hm. apply list_elem_of_fmap in Hm as (i & -> & Hi).
    apply elem_of_seq in Hi. unfold f. destruct (Hall i ltac:(lia)) as (b & -> & _ & Hin). done. }
  apply submseteq_length in Hsub. rewrite length_fmap, length_seq in Hsub. lia.
Qed.

Lemma put_cache s H H' V V' R R' l i b b' n :
  bio_ok s p pr l H.*1 -> NoDup H'.*1 ->
  (forall j m, (j, m) ∈ H -> exists b, k_bufs s !! j = Some b /\ caches m b) ->
  (forall m, V m = bview s m) -> (forall m, R m = bref s m) ->
  (i < HEAD)%nat -> k_bufs s !! i = Some b ->
  b_next b' = b_next b /\ b_prev b' = b_prev b -> caches n b' ->
  buf_ok s (p_pid pr) (bool_decide (i ∈ H'.*1)) b' ->
  (forall j c, j <> i -> k_bufs s !! j = Some c -> ~ caches n c) ->
  (caches n b \/ b_refcnt b = 0) ->
  (forall j, j <> i -> (j ∈ H'.*1 <-> j ∈ H.*1)) ->
  (forall j m, (j, m) ∈ H' -> (j, m) ∈ H \/ (j = i /\ m = n)) ->
  (forall m, (i, m) ∈ H -> m = n) ->
  (forall m, V' m = vset V n (b_data b') m) ->
  (forall m, R' m = if decide (m = n) then b_refcnt b' else R m) ->
  bio_cache p pr (put_buf i b' s) H' V' R'.
Proof.
  intros Hok Hnd Hheld HV HR Hi Hb Hlinks Hc Hbk Hu Hcase HH Hsub Hin HV' HR'.
  split_and!.
  - exists l. by eapply (put_buf_ok s p pr l H.*1 H'.*1 i b b').
  - done.
  - intros j m Hj. rewrite (put_buf_lookup s i b b') by done.
    destruct (Hsub j m Hj) as [Hj'|[-> ->]].
    + destruct (decide (i = j)) as [<-|]; [|by apply Hheld]. rewrite (Hin m Hj'). by exists b'.
    + rewrite decide_True by done. by exists b'.
  - intros m. destruct (put_buf_views s p pr l H.*1 H'.*1 i b b' Hok Hi Hb Hlinks HH n m Hc Hu Hcase) as [-> _].
    rewrite HV'. unfold vset. destruct (decide (m = n)); [done|apply HV].
  - intros m. destruct (put_buf_views s p pr l H.*1 H'.*1 i b b' Hok Hi Hb Hlinks HH n m Hc Hu Hcase) as [_ ->].
    rewrite HR'. destruct (decide (m = n)); [done|apply HR].
Qed.

Lemma cache_held s H V R i n :
  bio_cache p pr s H V R -> (i, n) ∈ H ->
  exists l b, bio_ok s p pr l H.*1 /\ k_bufs s !! i = Some b /\ caches n b /\
    buf_ok s (p_pid pr) true b /\ V n = b_data b /\ R n = b_refcnt b /\
    (forall m, (i, m) ∈ H -> m = n) /\ (i < HEAD)%nat /\
    (forall j c, j <> i -> k_bufs s !! j = Some c -> ~ caches n c).
Proof.
  intros ([l Hok] & Hnd & Hheld & HV & HR) Hin. destruct (Hheld i n Hin) as (b & Hb & Hc).
  exists l, b. split_and!; try done.
  - eapply held_buf; [done..|]. by eapply elem_of_fst.
  - rewrite HV. by eapply (bview_cached s (bo_uniq _ _ _ _ _ Hok)).
  - rewrite HR. by eapply (bref_cached s (bo_uniq _ _ _ _ _ Hok)).
  - intros m Hm. destruct (Hheld i m Hm) as (c & Hb' & [_ Hm']). simplify_eq. by destruct Hc.
  - by eapply cached_index.
  - intros j c. by eapply held_others.
Qed.

Lemma bio_read s H V R n :
  bio_cache p pr s H V R -> 0 <= n < disk_len s -> n ∉ H.*2 -> room R \/ 0 < R n ->
  exists i s', bread ROOTDEV n s = Ok i s' /\ io_frame s s' /\ same_disk s s' /\
               bio_cache p pr s' ((i, n) :: H) V (bump R n 1).
Proof.
  intros ([l Hok] & Hnd & Hheld & HV & HR) Hn HnH Hroom.
  destruct (bread_run s p pr l H.*1 n Hok Hn) as (i & b & Hi & Hb & HiH & Hcase & Hu & E).
  { intros i b Hb [_ Hc] Hin. apply list_elem_of_fmap in Hin as ([j m] & -> & Hin).
    destruct (Hheld j m Hin) as (c & Hj & [_ Hm]). simpl in Hb. simplify_eq.
    apply HnH. by eapply elem_of_snd. }
  { destruct Hroom as [Hroom|Hroom]; [right; by eapply room_victim|left].
    intros Hun. rewrite HR, bref_uncached in Hroom by done. lia. }
  exists i, (put_buf i (got s pr n b) s). split; [exact E|]. split; [done|]. split; [done|].
  pose proof (bref_nonneg s p pr l H.*1 Hok n) as Hr0.
  eapply (put_cache s H _ V _ R _ l i b (got s pr n b) n); try done.
  - simpl. by apply NoDup_cons.
  - rewrite bool_decide_true by set_solver. split; simpl.
    + by right.
    + by eapply bview_length.
    + lia.
    + done.
    + lia.
  - intros j Hne. simpl. set_solver.
  - intros j m Hj. apply elem_of_cons in Hj as [[= -> ->]|Hj]; auto.
  - intros m Hm. exfalso. apply HiH. by eapply elem_of_fst.
  - intros m. unfold vset. simpl. destruct (decide (m = n)) as [->|]; [apply HV|done].
  - intros m. unfold bump. simpl. destruct (decide (m = n)) as [->|]; [by rewrite HR|done].
Qed.

Lemma bio_set s H V R i n d :
  bio_cache p pr s H V R -> (i, n) ∈ H -> length d = Z.to_nat BSIZE ->
  exists s', set_bdata i d s = Ok tt s' /\ io_frame s s' /\ same_disk s s' /\
             bio_cache p pr s' H (vset V n d) R.
Proof.
  intros Hca Hin Hd.
  destruct (cache_held s H V R i n Hca Hin)
    as (l & b & Hok & Hb & Hc & Hbk & HVn & HRn & Huq & Hi & Hu).
  destruct Hca as (_ & Hnd & Hheld & HV & HR).
  eexists. split; [reflexivity|]. split; [done|]. split; [done|].
  rewrite (upd_buf_put i _ s b) by done.
  eapply (put_cache s H H V _ R R l i b _ n); try done; auto.
  - rewrite bool_decide_true by (by eapply elem_of_fst).
    destruct Hbk as [G1 G2 G3 G4 G5]. split; simpl; try done. intros. lia.
  - intros m. destruct (decide (m = n)) as [->|]; [exact HRn|done].
Qed.

Lemma bio_ref s H V R i n (f : Z -> Z) d :
  bio_cache p pr s H V R -> (i, n) ∈ H -> (forall r, f r = r + d) -> 1 <= R n + d ->
  bio_cache p pr (upd_buf i (b_set_refcnt f) s) H V (bump R n d).
Proof.
  intros Hca Hin Hf Hd.
  destruct (cache_held s H V R i n Hca Hin)
    as (l & b & Hok & Hb & Hc & Hbk & HVn & HRn & Huq & Hi & Hu).
  destruct Hca as (_ & Hnd & Hheld & HV & HR).
  rewrite (upd_buf_put i _ s b) by done.
  eapply (put_cache s H H V _ R _ l i b _ n); try done; auto.
  - rewrite bool_decide_true by (by eapply elem_of_fst).
    destruct Hbk as [G1 G2 G3 G4 G5]. rewrite HRn in Hd. split; simpl; try done.
    + destruct G1 as [(_ & _ & G1)|G1]; [done|by right].
    + rewrite Hf. lia.
    + rewrite Hf. lia.
  - intros m. unfold vset. destruct (decide (m = n)) as [->|]; [exact HVn|done].
  - intros m. unfold bump. simpl. destruct (decide (m = n)) as [->|]; [|done].
    by rewrite Hf, HRn.
Qed.

Lemma bio_pin s H V R i n :
  bio_cache p pr s H V R -> (i, n) ∈ H ->
  exists s', bpin i s = Ok tt s' /\ io_frame s s' /\ same_disk s s' /\
             bio_cache p pr s' H V (bump R n 1).
Proof.
  intros Hca Hin. destruct (cache_held s H V R i n Hca Hin)
    as (l & b & Hok & Hb & Hc & Hbk & HVn & HRn & Huq & Hi & Hu).
  eexists. split; [by eapply bpin_run|]. split; [done|]. split; [done|].
  rewrite <-(upd_buf_put i _ s b) by done. apply bio_ref; [done..|].
  pose proof (bk_ref _ _ _ _ Hbk). simpl in *. lia.
Qed.

Lemma bio_unpin s H V R i n :
  bio_cache p pr s H V R -> (i, n) ∈ H -> 1 < R n ->
  exists s', bunpin i s = Ok tt s' /\ io_frame s s' /\ same_disk s s' /\
             bio_cache p pr s' H V (bump R n (-1)).
Proof.
  intros Hca Hin HR. destruct (cache_held s H V R i n Hca Hin)
    as (l & b & Hok & Hb & Hc & Hbk & HVn & HRn & Huq & Hi & Hu).
  eexists. split; [by eapply bunpin_run|]. split; [done|]. split; [done|].
  rewrite <-(upd_buf_put i _ s b) by done. apply bio_ref; [done|done|intros; lia|lia].
Qed.

Lemma disk_block_insert s n m d :
  0 <= n < disk_len s -> m <> n ->
  disk_block (set_disk (<[Z.to_nat n := d]>) s) m = disk_block s m.
Proof.
  intros Hn Hne. unfold disk_block. destruct (Z.ltb_spec m 0); [done|]. ksimp.
  by rewrite list_lookup_insert_ne by lia.
Qed.

Lemma bio_write s H V R i n :
  bio_cache p pr s H V R -> (i, n) ∈ H ->
  exists s', bwrite i s = Ok tt s' /\ io_frame s s' /\
             k_disk s' = <[Z.to_nat n := V n]> (k_disk s) /\
             k_writes s' = k_writes s ++ [(Z.to_nat n, V n)] /\
             bio_cache p pr s' H V R.
Proof.
  intros Hca Hin. destruct (cache_held s H V R i n Hca Hin)
    as (l & b & Hok & Hb & Hc & Hbk & HVn & HRn & Huq & Hi & Hu).
  assert (HiH : i ∈ H.*1) by (by eapply elem_of_fst).
  assert (Hn : 0 <= n < disk_len s) by (by eapply held_range).
  eexists. split; [by eapply bwrite_run|]. rewrite <-HVn. split; [done|].
  split; [done|]. split; [done|].
  destruct Hca as (_ & Hnd & Hheld & HV & HR). set (s1 := set_disk _ s).
  assert (Hdl : disk_len s1 = disk_len s).
  { unfold disk_len, s1. ksimp. by rewrite length_insert. }
  split_and!; try done.
  - exists l. destruct Hok as [H1 H2 H3 H4 H5 H6 H7 H8 H9]. split; try done.
    + destruct H1. by split.
    + intros j c Hj Hjc. destruct (H6 j c Hj Hjc) as [G1 G2 G3 G4 G5]. split; try done.
      * destruct G1 as [G1|(G1 & G1' & G1'')]; [by left|right].
        change (disk_len (set_writes _ s1)) with (disk_len s1). by rewrite Hdl.
      * intros Hd Hr0. rewrite G5 by done.
        destruct G1 as [(Hz & _)|(_ & _ & G1)]; [unfold ROOTDEV in *; lia|].
        symmetry. apply disk_block_insert; [done|].
        intros Hbn. destruct (decide (j = i)) as [->|Hne].
        -- assert (c = b) as -> by (change (k_bufs s !! i = Some c) in Hjc; congruence).
           pose proof (bk_ref _ _ _ _ Hbk). simpl in *. lia.
        -- by apply (Hu j c Hne Hjc).
    + destruct H9 as [H9 H9']. split; [|change (disk_len s1 <= 2 ^ 22); lia].
      apply Forall_insert; [done|]. rewrite HVn. apply (bk_len _ _ _ _ Hbk).
  - intros m. rewrite HV. destruct (cached_or_not s m) as [Hum|(j & c & Hj & Hcj)].
    + rewrite (bview_uncached s) by done.
      rewrite (bview_uncached (set_writes _ s1)) by exact Hum.
      symmetry. apply disk_block_insert; [done|]. intros ->. by apply (Hum i b).
    + rewrite (bview_cached s (bo_uniq _ _ _ _ _ Hok) m j c) by done.
      by rewrite (bview_cached (set_writes _ s1) (bo_uniq _ _ _ _ _ Hok) m j c).
Qed.

Lemma bio_relink s H V R bs' l' :
  bio_cache p pr s H V R -> ring bs' l' ->
  (forall j, core <$> bs' !! j = core <$> k_bufs s !! j) ->
  bio_cache p pr (set_bufs (fun _ => bs') s) H V R.
Proof.
  intros ([l Hok] & Hnd & Hheld & HV & HR) Hr Hcore.
  destruct (relink_ok s p pr l H.*1 bs' l' Hok Hr Hcore) as [Hok' Hv].
  split_and!; [by exists l'|done| | |].
  - intros i n Hin. destruct (Hheld i n Hin) as (b & Hb & Hc). specialize (Hcore i).
    change (exists b0, bs' !! i = Some b0 /\ caches n b0).
    rewrite Hb in Hcore. destruct (bs' !! i) as [b'|]; [|done]. exists b'. split; [done|].
    assert (core b' = core b) as E by (unfold fmap, option_fmap, option_map in Hcore; congruence).
    apply core_fields in E as (_ & E2 & E3 & _). destruct Hc. split; congruence.
  - intros m. rewrite HV. symmetry. apply Hv.
  - intros m. rewrite HR. symmetry. apply Hv.
Qed.

Lemma bio_release s H H' V R i n :
  bio_cache p pr s H V R -> H ≡ₚ (i, n) :: H' -> 1 < R n \/ V n = disk_block s n ->
  exists s', brelse i s = Ok tt s' /\ io_frame s s' /\ same_disk s s' /\
             bio_cache p pr s' H' V (bump R n (-1)).
Proof.
  intros Hca HH Hclean. assert (Hin : (i, n) ∈ H) by (rewrite HH; set_solver).
  destruct (cache_held s H V R i n Hca Hin)
    as (l & b & Hok & Hb & Hc & Hbk & HVn & HRn & Huq & Hi & Hu).
  destruct Hca as (_ & Hnd & Hheld & HV & HR).
  assert (Hnd' : NoDup (i :: H'.*1)) by (by rewrite HH in Hnd).
  apply NoDup_cons in Hnd' as [HiH' Hnd'].
  destruct (brelse_run s p pr l H.*1 i b n Hok Hb Hc) as (l1 & l2 & Hl & E).
  { by eapply elem_of_fst. }
  assert (Hput : bio_cache p pr (put_buf i (released b) s) H' V (bump R n (-1))).
  { eapply (put_cache s H H' V _ R _ l i b _ n); try done; auto.
    - rewrite bool_decide_false by done. destruct Hbk as [G1 G2 G3 G4 G5]. split; simpl; try done.
      + destruct G1 as [(_ & _ & G1)|G1]; [done|by right].
      + lia.
      + intros _ Hr0. destruct Hclean as [Hcl|Hcl]; [lia|].
        destruct Hc as [_ ->]. congruence.
    - intros j Hne. rewrite HH. simpl. set_solver.
    - intros j m Hj. left. rewrite HH. set_solver.
    - intros m. unfold vset. destruct (decide (m = n)) as [->|]; [exact HVn|done].
    - intros m. unfold bump. destruct (decide (m = n)) as [->|]; [|done]. simpl. lia. }
  destruct (b_refcnt b =? 1).
  - eexists. split; [exact E|]. split; [done|]. split; [done|].
    eapply bio_relink; [exact Hput| |].
    + apply ring_to_front. destruct Hput as ((l' & Hok') & _). rewrite <-Hl.
      assert (ring (k_bufs (put_buf i (released b) s)) l) as Hr; [|exact Hr].
      unfold released. rewrite <-(upd_buf_put i (fun b => b_set_refcnt (fun r => r - 1)
        (b_set_lock (fun _ => mksleeplock 0 0) b)) s b) by done.
      apply (ring_alter (k_bufs s)); [done|done|apply (bo_ring _ _ _ _ _ Hok)].
    + intros j. apply to_front_core.
  - eexists. split; [exact E|]. split; [done|]. split; [done|]. exact Hput.
Qed.

Lemma bio_frame s s' H V R :
  bio_cache p pr s H V R -> k_hart s' = k_hart s -> k_procs s' = k_procs s ->
  k_bufs s' = k_bufs s -> k_disk s' = k_disk s -> bio_cache p pr s' H V R.
Proof.
  intros ([l Hok] & Hnd & Hheld & HV & HR) E1 E2 E3 E4.
  assert (Hdl : disk_len s' = disk_len s) by (unfold disk_len; by rewrite E4).
  assert (Hdb : forall m, disk_block s' m = disk_block s m)
    by (intros m; unfold disk_block; by rewrite E4).
  split_and!; try done.
  - exists l. destruct Hok as [H1 H2 H3 H4 H5 H6 H7 H8 H9].
    split; rewrite ?E1, ?E2, ?E3, ?E4; try done.
    + destruct H1. split; rewrite ?E1, ?E2; done.
    + intros i b Hi Hb. destruct (H6 i b Hi Hb) as [G1 G2 G3 G4 G5].
      split; rewrite ?Hdl; try done. intros. rewrite Hdb. auto.
    + by rewrite Hdl.
  - by rewrite E3.
  - intros m. rewrite HV. unfold bview. rewrite E3. by rewrite Hdb.
  - intros m. rewrite HR. unfold bref. by rewrite E3.
Qed.

Lemma bio_hart s H V R h :
  bio_cache p pr s H V R -> hart_ok h -> h_proc h = h_proc (k_hart s) ->
  (forall l, io_lock l = true -> h_locks h !! l = h_locks (k_hart s) !! l) ->
  bio_cache p pr (set_hart (fun _ => h) s) H V R.
Proof.
  intros ([l Hok] & Hnd & Hheld & HV & HR) Hh Hp Hl. split_and!; try done.
  exists l. destruct Hok as [[T1 T2 T3 T4 T5] H2 H3 H4 H5 H6 H7 H8 H9]. split; try done.
  - split; ksimp; try done; [by rewrite Hp|]. intros i. by rewrite Hl.
  - ksimp. by rewrite Hl.
  - intros i. ksimp. by rewrite Hl.
  - intros i b Hi Hb. destruct (H6 i b Hi Hb). by split.
Qed.

Lemma bio_wake s H V R ch :
  bio_cache p pr s H V R ->
  bio_cache p pr (set_procs (imap (wake ch (h_proc (k_hart s)))) s) H V R.
Proof.
  intros ([l Hok] & Hnd & Hheld & HV & HR). split_and!; try done.
  exists l. destruct Hok as [[T1 T2 T3 T4 T5] H2 H3 H4 H5 H6 H7 H8 H9]. split; try done.
  - split; ksimp; try done; [|by rewrite length_imap].
    rewrite list_lookup_imap, T3, T2. simpl. unfold wake. by rewrite bool_decide_true.
  - intros i q j. ksimp. rewrite list_lookup_imap. destruct (k_procs s !! i) as [q0|] eqn:E; [|done].
    intros [= <-] Hst. unfold wake in *. destruct (bool_decide _); [by eapply H4|].
    destruct (bool_decide (p_state q0 = SLEEPING /\ _)); [done|by eapply H4].
  - intros i b Hi Hb. destruct (H6 i b Hi Hb). by split.
Qed.

Lemma bio_clean s H V R n : bio_cache p pr s H V R -> R n = 0 -> V n = disk_block s n.
Proof.
  intros ([l Hok] & _ & _ & HV & HR) Hr. rewrite HV.
  destruct (cached_or_not s n) as [Hu|(i & b & Hb & Hc)]; [by apply bview_uncached|].
  rewrite HR, (bref_cached s (bo_uniq _ _ _ _ _ Hok) n i b) in Hr by done.
  rewrite (bview_cached s (bo_uniq _ _ _ _ _ Hok) n i b) by done.
  destruct (bo_buf _ _ _ _ _ Hok i b ltac:(by eapply cached_index) Hb) as [_ _ _ _ Hcl].
  destruct Hc as [Hd <-]. by apply Hcl.
Qed.

#[export] Instance bio_cache_store : BlockStore (bio_cache p pr).
Proof.
  split.
  - apply bio_read.
  - intros s H V R i n Hca Hin. destruct (cache_held s H V R i n Hca Hin)
      as (l & b & Hok & Hb & Hc & Hbk & HVn & _).
    unfold bdata. erewrite bind_ok by (apply get_buf_ok; exact Hb). by rewrite HVn.
  - apply bio_set.
  - apply bio_write.
  - apply bio_release.
  - apply bio_pin.
  - apply bio_unpin.
  - intros s H V R i n Hca Hin. destruct (cache_held s H V R i n Hca Hin)
      as (l & b & Hok & Hb & [_ Hc] & _). by exists b.
  - intros s H V R n ([l Hok] & _ & _ & HV & _) Hn. rewrite HV. by eapply bview_length.
  - apply bio_clean.
  - intros s H V V' R R' ([l Hok] & Hnd & Hheld & HV & HR) HV' HR'.
    split_and!; [by exists l|done|done|..]; intros m; [by rewrite HV'|by rewrite HR'].
  - apply bio_frame.
  - apply bio_hart.
  - intros s H V R ([l Hok] & _). destruct (bo_thread _ _ _ _ _ Hok). by split.
  - apply bio_wake.
Qed.
End instance.


(** * The cache at boot *)

Lemma buf_after_init s s' i b :
  binit_rel s s' -> k_bufs s = replicate (S HEAD) buf0 -> k_bufs s' !! i = Some b ->
  idle_fields b = idle_fields buf0.
Proof.
  intros Hrel Hbs Hb. pose proof (br_bufs _ _ Hrel i) as Hf. rewrite Hb, Hbs in Hf.
  destruct (replicate (S HEAD) buf0 !! i) as [c|] eqn:E; [|done].
  apply lookup_replicate in E as [-> _].
  unfold fmap, option_fmap, option_map in Hf. congruence.
Qed.

Lemma idle_fields_eq b c :
  idle_fields b = idle_fields c ->
  b_valid b = b_valid c /\ b_dev b = b_dev c /\ b_refcnt b = b_refcnt c /\ b_data b = b_data c.
Proof. unfold idle_fields. intros [= H1 H2 _ H4 H5]. done. Qed.

Lemma binit_cache s p pr :
  thread_ok s p pr ->
  (forall i, h_locks (k_hart s) !! LSleep (SLBuf i) = None) ->
  (forall i q j, k_procs s !! i = Some q -> p_state q = SLEEPING -> p_chan q <> ChSleep (SLBuf j)) ->
  k_bufs s = replicate (S HEAD) buf0 ->
  Forall (fun d => length d = Z.to_nat BSIZE) (k_disk s) -> disk_len s <= 2 ^ 22 ->
  exists s', binit s = Ok tt s' /\ bio_cache p pr s' [] (disk_block s) (fun _ => 0) /\
             k_disk s' = k_disk s.
Proof.
  intros [T1 T2 T3 T4 T5] Hsl Hnw Hbs Hd Hdl.
  destruct (binit_run s) as (s' & E & Hr & Hl & Hbc & Hrel); [by rewrite Hbs, length_replicate|].
  exists s'. split; [exact E|]. pose proof Hrel as [R1 R2 R3 R4 _]. split; [|done].
  pose proof (fun i b Hb => buf_after_init s s' i b Hrel Hbs Hb) as Hbuf.
  assert (Hun : forall n, uncached s' n).
  { intros n i b Hb [Hdev _]. apply Hbuf, idle_fields_eq in Hb as (_ & Hdev' & _).
    rewrite Hdev in Hdev'. done. }
  assert (Hdl' : disk_len s' = disk_len s) by (unfold disk_len; by rewrite R2).
  split_and!.
  - exists (rev (seq 0 HEAD)). split; try done.
    + split; rewrite ?R1; try done.
      * rewrite R3. destruct T1. by split.
      * rewrite R3. done.
      * intros i. by apply R4.
    + intros i. by apply R4.
    + rewrite R1. done.
    + intros i b Hi Hb. specialize (Hl i Hi). unfold slock in Hl.
      rewrite Hb in Hl. injection Hl as Hl.
      apply Hbuf, idle_fields_eq in Hb as (B1 & B2 & B4 & B5).
      rewrite bool_decide_false by (simpl; set_solver). split.
      * by left.
      * rewrite B5. apply length_replicate.
      * rewrite B4. done.
      * done.
      * rewrite B2. done.
    + intros b Hb. by apply Hbuf, idle_fields_eq in Hb as (_ & -> & _).
    + intros n i j b c Hb Hc Hcb Hcc. exfalso. by apply (Hun n i b).
    + by rewrite R2, Hdl'.
  - constructor.
  - set_solver.
  - intros n. rewrite bview_uncached by done. unfold disk_block. by rewrite R2.
  - intros n. by rewrite bref_uncached.
Qed.

(** * A full cache *)

Lemma bufs_of_blocks s p pr l H (bl : list Z) :
  bio_ok s p pr l H -> NoDup bl -> (forall m, m ∈ bl -> bref s m <> 0) ->
  exists ix, NoDup ix /\ length ix = length bl /\
    forall i, i ∈ ix -> (i < HEAD)%nat /\ exists b m, k_bufs s !! i = Some b /\ caches m b /\
      m ∈ bl /\ b_refcnt b <> 0.
Proof.
  intros Hok. induction bl as [|x bl IH]; intros Hnd Hr.
  { exists []. split; [constructor|]. split; [done|set_solver]. }
  apply NoDup_cons in Hnd as [Hx Hnd].
  destruct IH as (ix & H1 & H2 & H3); [done|intros m Hm; apply Hr; set_solver|].
  destruct (cached_or_not s x) as [Hu|(i & b & Hb & Hc)].
  { exfalso. apply (Hr x); [set_solver|by apply bref_uncached]. }
  assert (Hrb : b_refcnt b <> 0).
  { rewrite <-(bref_cached s (bo_uniq _ _ _ _ _ Hok) x i b) by done. apply Hr. set_solver. }
  exists (i :: ix). split_and!.
  - apply NoDup_cons. split; [|done]. intros Hi.
    destruct (H3 i Hi) as (_ & c & m & Hb' & [_ Hm] & Hin & _). simplify_eq.
    destruct Hc as [_ Hc']. congruence.
  - simpl. lia.
  - intros j Hj. apply elem_of_cons in Hj as [->|Hj].
    + split; [by eapply cached_index|]. exists b, x. split_and!; [done|done|set_solver|done].
    + destruct (H3 j Hj) as (A1 & c & m & A2 & A3 & A4 & A5). split; [done|]. exists c, m.
      split_and!; [done|done|set_solver|done].
Qed.

(** as many referenced blocks as buffers: every buffer holds one of them *)
Lemma all_bufs s p pr l H (bl : list Z) i :
  bio_ok s p pr l H -> NoDup bl -> length bl = HEAD -> (forall m, m ∈ bl -> bref s m <> 0) ->
  (i < HEAD)%nat -> exists b m, k_bufs s !! i = Some b /\ caches m b /\ m ∈ bl /\ b_refcnt b <> 0.
Proof.
  intros Hok Hnd Hlen Hr Hi.
  destruct (bufs_of_blocks s p pr l H bl Hok Hnd Hr) as (ix & H1 & H2 & H3). apply H3.
  assert (ix ≡ₚ seq 0 HEAD) as ->; [|apply elem_of_seq; lia].
  apply submseteq_length_Permutation.
  - apply NoDup_submseteq; [done|]. intros j Hj. apply elem_of_seq. destruct (H3 j Hj). lia.
  - rewrite length_seq. lia.
Qed.

Lemma all_referenced s p pr l H (bl : list Z) i b :
  bio_ok s p pr l H -> NoDup bl -> length bl = HEAD -> (forall m, m ∈ bl -> bref s m <> 0) ->
  (i < HEAD)%nat -> k_bufs s !! i = Some b -> b_refcnt b <> 0.
Proof.
  intros Hok Hnd Hlen Hr Hi Hb.
  destruct (all_bufs s p pr l H bl i Hok Hnd Hlen Hr Hi) as (c & m & Hb' & _ & _ & Hn). congruence.
Qed.

(** nothing else is cached and no buffer can be recycled *)
Lemma cache_full s p pr l H (bl : list Z) n :
  bio_ok s p pr l H -> NoDup bl -> length bl = HEAD -> (forall m, m ∈ bl -> bref s m <> 0) ->
  n ∉ bl -> uncached s n /\ victim s l = None.
Proof.
  intros Hok Hnd Hlen Hr Hn. split.
  - intros i b Hb Hc. pose proof (cached_index _ _ _ _ _ _ _ _ Hok Hb Hc) as Hi.
    destruct (all_bufs s p pr l H bl i Hok Hnd Hlen Hr Hi) as (c & m & Hb' & [_ Hm] & Hin & _).
    simplify_eq. destruct Hc as [_ Hc']. congruence.
  - destruct (victim s l) as [i|] eqn:E; [|done].
    destruct (victim_spec _ _ _ _ _ Hok i E) as (Hi & _ & b & Hb & Hr0 & _).
    by destruct (all_referenced s p pr l H bl i b Hok Hnd Hlen Hr Hi Hb).
Qed.

(** * Properties *)

(** C2: the buffer cache of bio.c implements the block-store contract, for
    whatever process uses it: bread of a block nobody holds returns a locked
    buffer with the block's current content and keeps it in the cache,
    whether it was cached or a buffer had to be recycled; data written
    through a held buffer is the block's content from then on; bwrite puts
    it on the disk; brelse, bpin and bunpin count the references; no
    operation changes the content of any other block. *)
Theorem bio_implements_block_store p pr : BlockStore (bio_cache p pr).
Proof. apply bio_cache_store. Qed.

(** [binit] on the zeroed buffers of a booting kernel establishes the
    cache: no buffer held or referenced, the content of every block that of
    the disk. *)
Theorem binit_establishes_cache s p pr :
  thread_ok s p pr ->
  (forall i, h_locks (k_hart s) !! LSleep (SLBuf i) = None) ->
  (forall i q j, k_procs s !! i = Some q -> p_state q = SLEEPING -> p_chan q <> ChSleep (SLBuf j)) ->
  k_bufs s = replicate (S HEAD) buf0 ->
  Forall (fun d => length d = Z.to_nat BSIZE) (k_disk s) -> disk_len s <= 2 ^ 22 ->
  exists s', binit s = Ok tt s' /\ bio_cache p pr s' [] (disk_block s) (fun _ => 0) /\
             k_disk s' = k_disk s.
Proof. apply binit_cache. Qed.

Lemma bump_bump R n d e m : bump (bump R n d) n e m = bump R n (d + e) m.
Proof. unfold bump. destruct (decide (m = n)); lia. Qed.
Lemma bump_0 R n m : bump R n 0 m = R m.
Proof. unfold bump. destruct (decide (m = n)); lia. Qed.

(** replace the content of a block on disk *)
Definition write_block (n : Z) (d : list Z) : K unit :=
  let! b := bread ROOTDEV n in
  set_bdata b d ;; bwrite b ;; brelse b.
Definition read_block (n : Z) : K (list Z) :=
  let! b := bread ROOTDEV n in
  let! d := bdata b in
  brelse b ;; ret d.

Section client.
Context {cache} `{BS : BlockStore cache}.

Lemma read_block_run s V R n :
  cache s [] V R -> 0 <= n < disk_len s -> room R -> R n = 0 -> V n = disk_block s n ->
  exists s', read_block n s = Ok (V n) s' /\ io_frame s s' /\ same_disk s s' /\ cache s' [] V R.
Proof.
  intros Hc Hn Hr HR HV.
  destruct (bs_read s [] V R n Hc Hn) as (i & s1 & E1 & F1 & D1 & C1); [set_solver|by left|].
  unfold read_block. erewrite bind_ok by exact E1.
  erewrite bind_ok by (eapply (bs_data _ _ _ _ i n); [exact C1|set_solver]).
  destruct (bs_release s1 [(i, n)] [] V (bump R n 1) i n C1) as (s2 & E2 & F2 & D2 & C2); [done|..].
  { right. rewrite HV. unfold disk_block. by rewrite (proj1 D1). }
  erewrite bind_ok by exact E2. exists s2. split; [done|]. split; [by transitivity s1|].
  split; [destruct D1, D2; split; congruence|].
  eapply bs_ext; [exact C2|done|]. intros m. by rewrite bump_bump, bump_0.
Qed.

Lemma write_block_run s V R n d :
  cache s [] V R -> 0 <= n < disk_len s -> room R -> length d = Z.to_nat BSIZE ->
  exists s', write_block n d s = Ok tt s' /\ io_frame s s' /\
    k_disk s' = <[Z.to_nat n := d]> (k_disk s) /\ cache s' [] (vset V n d) R.
Proof.
  intros Hc Hn Hr Hd.
  destruct (bs_read s [] V R n Hc Hn) as (i & s1 & E1 & F1 & D1 & C1); [set_solver|by left|].
  unfold write_block. erewrite bind_ok by exact E1.
  destruct (bs_set s1 _ V _ i n d C1) as (s2 & E2 & F2 & D2 & C2); [set_solver|done|].
  erewrite bind_ok by exact E2.
  destruct (bs_write s2 _ _ _ i n C2) as (s3 & E3 & F3 & D3 & _ & C3); [set_solver|].
  erewrite bind_ok by exact E3.
  assert (Hv : vset V n d n = d) by (unfold vset; by rewrite decide_True).
  rewrite Hv in D3.
  destruct (bs_release s3 [(i, n)] [] _ _ i n C3) as (s4 & E4 & F4 & D4 & C4); [done|..].
  { right. rewrite Hv. unfold disk_block. rewrite D3, (proj1 D2), (proj1 D1).
    destruct (Z.ltb_spec n 0); [lia|]. rewrite list_lookup_insert_eq; [done|].
    unfold disk_len in Hn. lia. }
  exists s4. split; [done|]. split; [by transitivity s1; [|transitivity s2; [|transitivity s3]]|].
  split.
  - rewrite (proj1 D4), D3, (proj1 D2), (proj1 D1). done.
  - eapply bs_ext; [exact C4|done|]. intros m. by rewrite bump_bump, bump_0.
Qed.
End client.

(** what is written to a block through the cache is what the next bread
    of the block delivers, and it is on the disk; every other block keeps
    its content. *)
Theorem block_write_read p pr s V R n d :
  bio_cache p pr s [] V R -> 0 <= n < disk_len s -> room R -> R n = 0 ->
  length d = Z.to_nat BSIZE ->
  exists s', (write_block n d ;; read_block n) s = Ok d s' /\
    k_disk s' = <[Z.to_nat n := d]> (k_disk s) /\
    bio_cache p pr s' [] (vset V n d) R.
Proof.
  intros Hc Hn Hr HR Hd.
  destruct (write_block_run s V R n d Hc Hn Hr Hd) as (s1 & E1 & F1 & D1 & C1).
  erewrite bind_ok by exact E1.
  assert (Hv : vset V n d n = d) by (unfold vset; by rewrite decide_True).
  assert (Hl : disk_len s1 = disk_len s) by (unfold disk_len; by rewrite D1, length_insert).
  destruct (read_block_run s1 (vset V n d) R n C1) as (s2 & E2 & F2 & D2 & C2); [lia|done|done| |].
  { rewrite Hv. unfold disk_block. rewrite D1. destruct (Z.ltb_spec n 0); [lia|].
    rewrite list_lookup_insert_eq; [done|]. unfold disk_len in Hn. lia. }
  exists s2. rewrite Hv in E2. split; [exact E2|]. split; [|done].
  by rewrite (proj1 D2).
Qed.

(** with every buffer referenced, a request for a block that is not
    cached panics. *)
Theorem bget_no_buffers_panics s p pr l H n :
  bio_ok s p pr l H -> uncached s n -> u_panicked (k_uart s) = 0 ->
  (forall i b, (i < HEAD)%nat -> k_bufs s !! i = Some b -> b_refcnt b <> 0) ->
  exists s', bread ROOTDEV n s = Panic "bget: no buffers" s'.
Proof.
  intros Hok Hu Hp Hall.
  assert (Hv : victim s l = None).
  { destruct (victim s l) as [i|] eqn:E; [|done].
    destruct (victim_spec _ _ _ _ _ Hok i E) as (Hi & _ & b & Hb & Hr & _).
    exfalso. by apply (Hall i b). }
  destruct (bget_full s p pr l H n Hok Hp Hu Hv) as (s' & E).
  exists s'. unfold bread. by apply bind_panic.
Qed.

(** * The theorems at concrete states *)

(** a zeroed disk of 80 blocks *)
Definition demo_disk : list (list Z) := replicate 80 (replicate (Z.to_nat BSIZE) 0).
Definition demo_pr : proc := p_set_pid (fun _ => 1) (p_set_state (fun _ => RUNNING) proc0).
Definition disk_state : kstate := thread_state demo_disk.

Lemma disk_state_nowait i q j :
  k_procs disk_state !! i = Some q -> p_state q = SLEEPING -> p_chan q <> ChSleep (SLBuf j).
Proof.
  intros Hq. change (k_procs disk_state) with (<[0%nat := demo_pr]> (replicate (Z.to_nat NPROC) proc0)) in Hq.
  destruct (decide (i = 0%nat)) as [->|Hne].
  - by injection Hq as <-.
  - rewrite list_lookup_insert_ne in Hq by done. by apply lookup_replicate in Hq as [-> _].
Qed.

Lemma demo_disk_blocks : Forall (fun d => length d = Z.to_nat BSIZE) demo_disk.
Proof. apply Forall_replicate. apply length_replicate. Qed.

Lemma demo_disk_len : disk_len disk_state = 80.
Proof. reflexivity. Qed.

Lemma binit_establishes_cache_witness :
  exists s', binit disk_state = Ok tt s' /\
    bio_cache 0 demo_pr s' [] (disk_block disk_state) (fun _ => 0).
Proof.
  destruct (binit_establishes_cache disk_state 0 demo_pr (thread_state_ok _)) as (s' & E & C & _).
  - intros i. apply lookup_empty.
  - apply disk_state_nowait.
  - reflexivity.
  - apply demo_disk_blocks.
  - rewrite demo_disk_len. discriminate.
  - exists s'. split; [exact E|exact C].
Defined.

(** the cache right after boot *)
Lemma demo_cache :
  exists s, bio_cache 0 demo_pr s [] (disk_block disk_state) (fun _ => 0) /\ disk_len s = 80 /\
    k_hart s = k_hart disk_state /\ k_uart s = k_uart disk_state /\ k_disk s = demo_disk.
Proof.
  destruct (binit_cache disk_state 0 demo_pr (thread_state_ok _)) as (s' & E & C & D).
  - intros i. apply lookup_empty.
  - apply disk_state_nowait.
  - reflexivity.
  - apply demo_disk_blocks.
  - rewrite demo_disk_len. discriminate.
  - exists s'. split; [exact C|]. split; [unfold disk_len; rewrite D; reflexivity|].
    assert (match binit disk_state with
            | Ok _ t => k_hart t = k_hart disk_state /\ k_uart t = k_uart disk_state | _ => False end) as H
      by (vm_compute; split; reflexivity).
    rewrite E in H. destruct H as [H1 H2]. split; [exact H1|]. split; [exact H2|]. exact D.
Qed.

(** the same with [k] blocks from [33] on pinned *)
Definition demo_blocks (k : nat) : list Z := map (fun i => 33 + Z.of_nat i) (seq 0 k).

Lemma demo_pinned k :
  (k <= 30)%nat ->
  exists s, bio_cache 0 demo_pr s [] (disk_block disk_state)
              (fun m => if decide (m ∈ demo_blocks k) then 1 else 0) /\
    k_hart s = k_hart disk_state /\ k_uart s = k_uart disk_state /\ k_disk s = demo_disk.
Proof.
  induction k as [|k IH]; intros Hk.
  { destruct demo_cache as (s & C & L & F). exists s. split; [|done]. eapply bs_ext; [exact C|done|done]. }
  destruct IH as (s & C & Fh & Fu & Fd); [lia|].
  assert (L : disk_len s = 80) by (unfold disk_len; rewrite Fd; reflexivity).
  set (n := 33 + Z.of_nat k). assert (Hn : 0 <= n < disk_len s) by (rewrite L; lia).
  assert (Hnew : n ∉ demo_blocks k).
  { unfold demo_blocks. intros Hin. rewrite list_elem_of_In, in_map_iff in Hin.
    destruct Hin as (i & Hi & Hs). apply in_seq in Hs. lia. }
  destruct (bs_read s [] _ _ n C Hn) as (i & s1 & E1 & F1 & D1 & C1).
  { set_solver. }
  { left. exists (demo_blocks k). split.
    - intros m. by destruct (decide (m ∈ demo_blocks k)).
    - unfold demo_blocks. rewrite length_map, length_seq. change HEAD with 30%nat. lia. }
  destruct (bs_pin s1 _ _ _ i n C1) as (s2 & E2 & F2 & D2 & C2); [set_solver|].
  destruct (bs_release s2 [(i, n)] [] _ _ i n C2) as (s3 & E3 & F3 & D3 & C3); [done|..].
  { left. unfold bump. destruct (decide (n = n)); [|done]. destruct (decide (n ∈ demo_blocks k)); lia. }
  exists s3. assert (F : io_frame s s3) by (transitivity s1; [done|transitivity s2; done]).
  assert (Fd3 : k_disk s3 = demo_disk) by (destruct D1, D2, D3; congruence).
  split; [|by rewrite F].
  eapply bs_ext; [exact C3|done|]. intros m. unfold bump, demo_blocks. rewrite seq_S, map_app.
  cbn [map]. fold (demo_blocks k). change (33 + Z.of_nat (0 + k)) with n.
  destruct (decide (m = n)) as [->|Hne].
  - rewrite (decide_False (P := n ∈ demo_blocks k)) by exact Hnew. rewrite decide_True by set_solver. lia.
  - destruct (decide (m ∈ demo_blocks k)) as [Hin|Hin].
    + rewrite decide_True by set_solver. done.
    + rewrite decide_False by set_solver. done.
Qed.

Lemma block_write_read_witness :
  exists s s', (write_block 5 (replicate (Z.to_nat BSIZE) 7) ;; read_block 5) s =
               Ok (replicate (Z.to_nat BSIZE) 7) s'.
Proof.
  destruct demo_cache as (s & C & L & _). exists s.
  destruct (block_write_read 0 demo_pr s _ _ 5 (replicate (Z.to_nat BSIZE) 7) C) as (s' & E & _).
  - rewrite L. lia.
  - exists []. split; [intros m H; contradiction H; reflexivity|]. apply Nat.ltb_lt. reflexivity.
  - reflexivity.
  - apply length_replicate.
  - exists s'. exact E.
Defined.

Lemma demo_blocks_nodup k : NoDup (demo_blocks k).
Proof. apply (NoDup_fmap_2_strong (fun i => 33 + Z.of_nat i)); [intros; lia|apply NoDup_seq]. Qed.

Lemma bget_no_buffers_panics_witness :
  exists s s', bread ROOTDEV 5 s = Panic "bget: no buffers" s'.
Proof.
  destruct (demo_pinned 30) as (s & ([l Hok] & _ & _ & _ & HR) & _ & Fu & _); [lia|]. exists s.
  assert (Hr : forall m, m ∈ demo_blocks 30 -> bref s m <> 0).
  { intros m Hm. rewrite <-HR, decide_True by exact Hm. discriminate. }
  assert (H5 : 5 ∉ demo_blocks 30)
    by (apply (bool_decide_eq_false (5 ∈ demo_blocks 30)); vm_compute; reflexivity).
  destruct (cache_full s 0 demo_pr l [] (demo_blocks 30) 5 Hok (demo_blocks_nodup 30) eq_refl Hr H5)
    as [Hu _].
  apply (bget_no_buffers_panics s 0 demo_pr l [] 5 Hok Hu).
  - rewrite Fu. reflexivity.
  - intros i b Hi Hb.
    apply (all_referenced s 0 demo_pr l [] (demo_blocks 30) i b Hok (demo_blocks_nodup 30) eq_refl Hr Hi Hb).
Defined.
