(* ===== verification/Log.v ===== *)
(** kernel/log.c: the write-ahead log.

    [log.lh] is in [k_log]; the entries of [lh.block] are kept as the 32-bit
    patterns the on-disk header holds. *)

From stdpp Require Import base gmap strings numbers list.
From S2P Require Import Prelude KState KString Spinlock Printf ProcSync Bio.

(** * Definitions *)

Definition get_log : K log := gets (fun s => k_log s).
Definition lh_n : K Z := gets (fun s => l_n (k_log s)).
Definition set_lh_n (n : Z) : K unit := modify (set_log (l_set_n (fun _ => n))).

(** [log.lh.block[i]]: an access outside the array is undefined *)
Definition lh_block (i : Z) : K Z :=
  let! l := get_log in
  if i <? LOGBLOCKS then ret (zget (l_block l) i) else ub "log.lh.block".
Definition set_lh_block (i x : Z) : K unit :=
  if i <? LOGBLOCKS then modify (set_log (l_set_block (fun b => zput b i x)))
  else ub "log.lh.block".

(** [for(i = 0; i < log.lh.n; i++) body i], [log.lh.n] not changed by it *)
Definition for_lh (body : Z -> K unit) : K unit :=
  let! n := lh_n in forM_ (zseq 0 (Z.to_nat n)) body.

Definition log_dev : K Z := let! l := get_log in ret (u32 (l_dev l)).
Definition log_blockno (i : Z) : K Z := let! l := get_log in ret (u32 (l_start l + i)).

Definition install_one (recovering : bool) (tail : Z) : K unit :=
  let! dst := lh_block tail in
  whenM recovering
    (printf "recovering tail %d dst %d\n" [VWord tail; VWord dst]) ;;
  let! dev := log_dev in
  let! lno := log_blockno (tail + 1) in
  let! lbuf := bread dev lno in
  let! dst := lh_block tail in
  let! dbuf := bread dev dst in
  let! d := bdata lbuf in
  set_bdata dbuf d ;;
  bwrite dbuf ;;
  whenM (negb recovering) (bunpin dbuf) ;;
  brelse lbuf ;;
  brelse dbuf.

Definition install_trans (recovering : bool) : K unit := for_lh (install_one recovering).

Definition read_head : K unit :=
  let! dev := log_dev in
  let! hno := log_blockno 0 in
  let! b := bread dev hno in
  let! lh := bdata b in
  set_lh_n (s32 (get32 lh 0)) ;;
  for_lh (fun i => set_lh_block i (get32 lh (4 + 4 * i))) ;;
  brelse b.

Definition write_head : K unit :=
  let! dev := log_dev in
  let! hno := log_blockno 0 in
  let! b := bread dev hno in
  let! d := bdata b in
  let! n := lh_n in
  set_bdata b (put32 d 0 n) ;;
  for_lh (fun i =>
    let! x := lh_block i in
    let! d := bdata b in
    set_bdata b (put32 d (4 + 4 * i) x)) ;;
  bwrite b ;;
  brelse b.

Definition recover_from_log : K unit :=
  read_head ;;
  install_trans true ;;
  set_lh_n 0 ;;
  write_head.

Definition SIZEOF_LOGHEADER : Z := 4 + 4 * LOGBLOCKS.

Definition initlog (dev : Z) : K unit :=
  if BSIZE <=? SIZEOF_LOGHEADER then panic "initlog: too big logheader"
  else
    initlock LLog ;;
    let! sb := gets k_sb in
    modify (set_log (l_set_start (fun _ => s32 (sb_logstart sb)))) ;;
    modify (set_log (l_set_dev (fun _ => dev))) ;;
    recover_from_log.

(** one pass of the [while(1)] of begin_op *)
Definition begin_op_body (_ : unit) : K (unit + unit) :=
  let! l := get_log in
  if nz (l_committing l) then sleep ChLog LLog ;; ret (inl tt)
  else if LOGBLOCKS <? l_n l + (l_outstanding l + 1) * MAXOPBLOCKS
       then sleep ChLog LLog ;; ret (inl tt)
       else
         modify (set_log (l_set_outstanding (fun n => n + 1))) ;;
         release LLog ;;
         ret (inr tt).

Definition begin_op : K unit :=
  acquire LLog ;;
  whileM WAKEUPS begin_op_body tt.

Definition write_log_one (tail : Z) : K unit :=
  let! dev := log_dev in
  let! lno := log_blockno (tail + 1) in
  let! to := bread dev lno in
  let! src := lh_block tail in
  let! from := bread dev src in
  let! d := bdata from in
  set_bdata to d ;;
  bwrite to ;;
  brelse from ;;
  brelse to.

Definition write_log : K unit := for_lh write_log_one.

Definition commit : K unit :=
  let! n := lh_n in
  whenM (0 <? n)
    (write_log ;;
     write_head ;;
     install_trans false ;;
     set_lh_n 0 ;;
     write_head).

Definition end_op : K unit :=
  acquire LLog ;;
  modify (set_log (l_set_outstanding (fun n => n - 1))) ;;
  let! l := get_log in
  if nz (l_committing l) then panic "log.committing"
  else
  let! do_commit :=
    if l_outstanding l =? 0 then
      modify (set_log (l_set_committing (fun _ => 1))) ;; ret true
    else wakeup ChLog ;; ret false in
  release LLog ;;
  whenM do_commit
    (commit ;;
     acquire LLog ;;
     modify (set_log (l_set_committing (fun _ => 0))) ;;
     wakeup ChLog ;;
     release LLog).

(** [for (i = 0; i < log.lh.n; i++) if (log.lh.block[i] == b->blockno) break;] *)
Fixpoint absorb (blocks : list Z) (blockno : Z) (i n : nat) : nat :=
  match n with
  | O => i
  | S n' => if zget blocks (Z.of_nat i) =? blockno then i
            else absorb blocks blockno (S i) n'
  end.

Definition log_write (b : nat) : K unit :=
  acquire LLog ;;
  let! l := get_log in
  if LOGBLOCKS <=? l_n l then panic "too big a transaction"
  else if l_outstanding l <? 1 then panic "log_write outside of trans"
  else
    let! bf := get_buf b in
    let i := Z.of_nat (absorb (l_block l) (b_blockno bf) 0 (Z.to_nat (l_n l))) in
    set_lh_block i (b_blockno bf) ;;
    whenM (i =? l_n l)
      (bpin b ;;
       modify (set_log (l_set_n (fun n => n + 1)))) ;;
    release LLog.
