(* ===== verification/LogDisk.v ===== *)
(** Crash safety of the write-ahead log at the level of disk blocks: the
    layout of the on-disk header, the writes a commit performs, recovery,
    and what recovery finds after a crash at any point of a commit. *)

From stdpp Require Import base gmap strings numbers list.
From S2P Require Import Prelude KState.

(** * The header block *)

Definition head_n (h : list Z) : Z := s32 (get32 h 0).
Definition head_block (h : list Z) (i : Z) : Z := get32 h (4 + 4 * i).

(** write_head's stores into the header block [d] *)
Definition head_bytes (d : list Z) (bl : list Z) : list Z :=
  foldl (fun d i => put32 d (4 + 4 * i) (zget bl i)) (put32 d 0 (Z.of_nat (length bl)))
    (zseq 0 (length bl)).

Lemma zseq_S lo n : zseq lo (S n) = zseq lo n ++ [lo + Z.of_nat n].
Proof. unfold zseq. rewrite seq_S, map_app. done. Qed.

Lemma length_zseq lo n : length (zseq lo n) = n.
Proof. unfold zseq. by rewrite length_map, length_seq. Qed.

Lemma foldl_put32 bl n d :
  length d = Z.to_nat BSIZE -> (n <= 30)%nat ->
  let d' := foldl (fun d i => put32 d (4 + 4 * i) (zget bl i)) d (zseq 0 n) in
  length d' = Z.to_nat BSIZE /\ get32 d' 0 = get32 d 0 /\
  forall i, 0 <= i < Z.of_nat n -> head_block d' i = u32 (zget bl i).
Proof.
  intros Hd. induction n as [|n IH]; intros Hn; cbn zeta.
  { split_and!; [done|done|lia]. }
  rewrite zseq_S, foldl_app. cbn [foldl]. rewrite Z.add_0_l.
  destruct IH as (IH1 & IH2 & IH3); [lia|]. set (d1 := foldl _ d _) in *.
  assert (HB : Z.of_nat (length d1) = 1024) by (rewrite IH1; done).
  split_and!.
  - rewrite length_put32; [done|lia|lia].
  - rewrite get32_put32_ne; [done|lia..].
  - intros i Hi. unfold head_block. destruct (decide (i = Z.of_nat n)) as [->|Hne].
    + apply get32_put32_eq; lia.
    + rewrite get32_put32_ne by lia. apply IH3. lia.
Qed.

(** what read_head finds in a header that write_head wrote *)
Lemma head_roundtrip d bl :
  length d = Z.to_nat BSIZE -> (length bl <= 30)%nat -> Forall (fun m => 0 <= m < 2 ^ 32) bl ->
  length (head_bytes d bl) = Z.to_nat BSIZE /\ head_n (head_bytes d bl) = Z.of_nat (length bl) /\
  forall i, 0 <= i < Z.of_nat (length bl) -> head_block (head_bytes d bl) i = zget bl i.
Proof.
  intros Hd Hl Hbl. unfold head_bytes.
  assert (HB : Z.of_nat (length d) = 1024) by (rewrite Hd; done).
  destruct (foldl_put32 bl (length bl) (put32 d 0 (Z.of_nat (length bl)))) as (H1 & H2 & H3).
  { rewrite length_put32 by lia. done. }
  { done. }
  split; [done|]. split.
  - unfold head_n. rewrite H2, get32_put32_eq by lia. unfold s32.
    rewrite u32_small by lia. apply signed_small; lia.
  - intros i Hi. rewrite H3 by done. apply u32_small. rewrite Forall_lookup in Hbl.
    unfold zget. destruct (lookup_lt_is_Some_2 bl (Z.to_nat i)) as [x Hx]; [lia|].
    rewrite Hx. by eapply Hbl.
Qed.

(** the block numbers a header holds *)
Definition head_list (h : list Z) : list Z := map (head_block h) (zseq 0 (Z.to_nat (head_n h))).

Lemma length_head_list h : length (head_list h) = Z.to_nat (head_n h).
Proof. unfold head_list. by rewrite length_map, length_zseq. Qed.

Lemma zget_map_zseq f n t : 0 <= t < Z.of_nat n -> zget (map f (zseq 0 n)) t = f t.
Proof.
  intros Ht. unfold zget, zseq. rewrite map_map. change (map ?g ?l) with (g <$> l).
  rewrite list_lookup_fmap, lookup_seq_lt by lia. simpl. f_equal. lia.
Qed.

(** filling the entries of an array in order *)
Lemma length_foldl_zput f b l : length (foldl (fun b i => zput b i (f i)) b l) = length b.
Proof.
  revert b. induction l as [|i l IH]; intros b; cbn [foldl]; [done|]. by rewrite IH, length_zput.
Qed.

Lemma take_foldl_zput f b n :
  (n <= length b)%nat ->
  take n (foldl (fun b i => zput b i (f i)) b (zseq 0 n)) = map f (zseq 0 n).
Proof.
  induction n as [|n IH]; intros Hn; [done|]. rewrite zseq_S, foldl_app, map_app. cbn [foldl map].
  rewrite Z.add_0_l. set (x := foldl _ b _) in *.
  assert (Hx : length x = length b) by apply length_foldl_zput.
  unfold zput. rewrite Nat2Z.id, (take_S_r _ _ (f (Z.of_nat n))).
  - rewrite take_insert_ge by lia. by rewrite IH by lia.
  - apply list_lookup_insert_eq. lia.
Qed.

(** * Disks and writes *)

Abbreviation disk_t := (list (list Z)).
Definition dget (d : disk_t) (n : Z) : list Z := default [] (d !! Z.to_nat n).

Definition apply_writes (ws : list (nat * list Z)) (d : disk_t) : disk_t :=
  foldl (fun d w => <[w.1 := w.2]> d) d ws.

Lemma apply_writes_app ws1 ws2 d : apply_writes (ws1 ++ ws2) d = apply_writes ws2 (apply_writes ws1 d).
Proof. apply foldl_app. Qed.

Lemma length_apply_writes ws d : length (apply_writes ws d) = length d.
Proof.
  revert d. induction ws as [|w ws IH]; intros d; [done|]. cbn [apply_writes foldl].
  change (length (apply_writes ws (<[w.1:=w.2]> d)) = length d).
  rewrite IH. apply length_insert.
Qed.

Lemma apply_writes_ne ws d i :
  (forall w, w ∈ ws -> w.1 <> i) -> apply_writes ws d !! i = d !! i.
Proof.
  revert d. induction ws as [|w ws IH]; intros d Hw; [done|]. cbn [apply_writes foldl].
  change (apply_writes ws (<[w.1:=w.2]> d) !! i = d !! i).
  rewrite IH by (intros w' Hw'; apply Hw; set_solver).
  apply list_lookup_insert_ne. apply Hw. set_solver.
Qed.

(** writes to distinct blocks: each block holds what was written to it *)
Lemma apply_writes_eq ws d w :
  NoDup (ws.*1) -> w ∈ ws -> (w.1 < length d)%nat -> apply_writes ws d !! w.1 = Some w.2.
Proof.
  revert d. induction ws as [|v ws IH]; intros d Hnd Hw Hl; [set_solver|].
  apply NoDup_cons in Hnd as [Hv Hnd]. cbn [apply_writes foldl].
  change (apply_writes ws (<[v.1:=v.2]> d) !! w.1 = Some w.2).
  apply elem_of_cons in Hw as [->|Hw].
  - rewrite apply_writes_ne.
    + by apply list_lookup_insert_eq.
    + intros w' Hw' E. apply Hv. rewrite <-E. by apply list_elem_of_fmap_2.
  - apply IH; [done|done|by rewrite length_insert].
Qed.

Section log_area.
(** the first block of the log: the header; log block [t] follows at
    [LS + t + 1] *)
Context (LS : Z).
Definition in_log (m : Z) : Prop := LS <= m <= LS + LOGBLOCKS.
Lemma in_log_LS : in_log LS.
Proof. unfold in_log. assert (LOGBLOCKS = 30) as HL by done. lia. Qed.

(** recovery: copy the logged blocks home, then clear the header *)
Definition install_writes (h : list Z) (d : disk_t) : list (nat * list Z) :=
  map (fun t => (Z.to_nat (head_block h t), dget d (LS + t + 1))) (zseq 0 (Z.to_nat (head_n h))).
Definition recover_writes (d : disk_t) : list (nat * list Z) :=
  install_writes (dget d LS) d ++ [(Z.to_nat LS, head_bytes (dget d LS) [])].
Definition recover_disk (d : disk_t) : disk_t := apply_writes (recover_writes d) d.

(** the writes of a commit of the blocks [bl] with contents [V], over the
    header block [h] *)
Definition log_writes (bl : list Z) (V : Z -> list Z) : list (nat * list Z) :=
  map (fun t => (Z.to_nat (LS + t + 1), V (zget bl t))) (zseq 0 (length bl)).
Definition home_writes (bl : list Z) (V : Z -> list Z) : list (nat * list Z) :=
  map (fun t => (Z.to_nat (zget bl t), V (zget bl t))) (zseq 0 (length bl)).
Definition commit_writes (h : list Z) (bl : list Z) (V : Z -> list Z) : list (nat * list Z) :=
  log_writes bl V ++ [(Z.to_nat LS, head_bytes h bl)] ++ home_writes bl V ++
  [(Z.to_nat LS, head_bytes (head_bytes h bl) [])].

(** a transaction that fits the log *)
Record trans_ok (d : disk_t) (bl : list Z) : Prop := {
  to_start : 0 <= LS;
  to_end : LS + LOGBLOCKS < Z.of_nat (length d);
  to_size : Z.of_nat (length d) <= 2 ^ 22;
  to_fit : (length bl <= Z.to_nat LOGBLOCKS)%nat;
  to_nodup : NoDup bl;
  to_home : Forall (fun m => 0 <= m < Z.of_nat (length d) /\ ~ in_log m) bl
}.

(** the content of a home block before and after the transaction *)
Definition new_block (d : disk_t) (bl : list Z) (V : Z -> list Z) (m : Z) : list Z :=
  if decide (m ∈ bl) then V m else dget d m.

(** ** Facts about the writes *)

Lemma zget_elem bl t : 0 <= t < Z.of_nat (length bl) -> zget bl t ∈ bl.
Proof.
  intros Ht. unfold zget. destruct (lookup_lt_is_Some_2 bl (Z.to_nat t)) as [x Hx]; [lia|].
  rewrite Hx. by eapply list_elem_of_lookup_2.
Qed.

Lemma elem_zget bl m : m ∈ bl -> exists t, 0 <= t < Z.of_nat (length bl) /\ zget bl t = m.
Proof.
  intros Hm. apply list_elem_of_lookup in Hm as [i Hi]. exists (Z.of_nat i).
  pose proof (lookup_lt_Some _ _ _ Hi). split; [lia|]. unfold zget. by rewrite Nat2Z.id, Hi.
Qed.

Lemma elem_map_zseq {A} (f : Z -> A) n w :
  w ∈ map f (zseq 0 n) -> exists t, 0 <= t < Z.of_nat n /\ w = f t.
Proof.
  rewrite list_elem_of_In, in_map_iff. intros (t & <- & Ht).
  apply list_elem_of_In, elem_of_zseq in Ht. exists t. split; [lia|done].
Qed.

Lemma map_zseq_elem {A} (f : Z -> A) n t : 0 <= t < Z.of_nat n -> f t ∈ map f (zseq 0 n).
Proof.
  intros Ht. rewrite list_elem_of_In. apply in_map, list_elem_of_In, elem_of_zseq. lia.
Qed.

Lemma NoDup_map_zseq (f : Z -> nat) (g : Z -> list Z) n :
  (forall t u, 0 <= t < Z.of_nat n -> 0 <= u < Z.of_nat n -> f t = f u -> t = u) ->
  NoDup (map (fun t => (f t, g t)) (zseq 0 n)).*1.
Proof.
  intros Hf. assert ((map (fun t => (f t, g t)) (zseq 0 n)).*1 = f <$> zseq 0 n) as ->.
  { induction (zseq 0 n) as [|t l IH]; [done|]. cbn. by f_equal. }
  apply NoDup_fmap_2_strong.
  - intros t u Ht Hu. apply elem_of_zseq in Ht, Hu. apply Hf; lia.
  - unfold zseq. apply NoDup_fmap_2_strong; [intros; lia|apply NoDup_seq].
Qed.

Section commit.
Context (d : disk_t) (bl : list Z) (V : Z -> list Z).
Hypothesis Hok : trans_ok d bl.

Lemma home_range m : m ∈ bl -> 0 <= m < Z.of_nat (length d) /\ ~ in_log m.
Proof. intros Hm. pose proof (to_home _ _ Hok) as H. rewrite Forall_forall in H. auto. Qed.

Lemma zget_inj t u :
  0 <= t < Z.of_nat (length bl) -> 0 <= u < Z.of_nat (length bl) ->
  zget bl t = zget bl u -> t = u.
Proof.
  intros Ht Hu E. unfold zget in E.
  destruct (lookup_lt_is_Some_2 bl (Z.to_nat t)) as [x Hx]; [lia|].
  destruct (lookup_lt_is_Some_2 bl (Z.to_nat u)) as [y Hy]; [lia|].
  rewrite Hx, Hy in E. simpl in E. subst y.
  pose proof (NoDup_lookup _ _ _ _ (to_nodup _ _ Hok) Hx Hy). lia.
Qed.

Lemma log_writes_spec x t :
  length x = length d -> 0 <= t < Z.of_nat (length bl) ->
  dget (apply_writes (log_writes bl V) x) (LS + t + 1) = V (zget bl t).
Proof.
  intros Hx Ht. destruct Hok as [H1 H2 H3 H4 H5 H6].
  assert (LOGBLOCKS = 30) as HL by done. change (Z.to_nat LOGBLOCKS) with 30%nat in H4.
  unfold dget. erewrite (apply_writes_eq _ _ (Z.to_nat (LS + t + 1), V (zget bl t))); [done|..].
  - apply NoDup_map_zseq. intros; lia.
  - by apply (map_zseq_elem (fun t => (Z.to_nat (LS + t + 1), V (zget bl t)))).
  - simpl. lia.
Qed.

Lemma home_writes_spec x m :
  length x = length d -> m ∈ bl -> dget (apply_writes (home_writes bl V) x) m = V m.
Proof.
  intros Hx Hm. destruct (elem_zget bl m Hm) as (t & Ht & <-).
  pose proof (home_range _ Hm) as Hr. unfold dget.
  erewrite (apply_writes_eq _ _ (Z.to_nat (zget bl t), V (zget bl t))); [done|..].
  - apply NoDup_map_zseq. intros u v Hu Hv E. apply zget_inj; [done|done|].
    pose proof (home_range _ (zget_elem bl u Hu)). pose proof (home_range _ (zget_elem bl v Hv)).
    lia.
  - by apply (map_zseq_elem (fun t => (Z.to_nat (zget bl t), V (zget bl t)))).
  - simpl. lia.
Qed.

(** blocks the writes of a phase do not touch *)
Lemma dget_ne ws x m :
  0 <= m -> (forall w, w ∈ ws -> w.1 <> Z.to_nat m) -> dget (apply_writes ws x) m = dget x m.
Proof. intros Hm Hw. unfold dget. by rewrite apply_writes_ne. Qed.

Lemma log_writes_ne w m :
  w ∈ log_writes bl V -> 0 <= m -> ~ in_log m \/ m = LS -> w.1 <> Z.to_nat m.
Proof.
  intros Hw Hm Hn. apply elem_map_zseq in Hw as (t & Ht & ->). simpl.
  destruct Hok as [H1 H2 H3 H4 H5 H6]. assert (LOGBLOCKS = 30) as HL by done.
  change (Z.to_nat LOGBLOCKS) with 30%nat in H4. unfold in_log in Hn. lia.
Qed.

Lemma home_writes_ne w m :
  w ∈ home_writes bl V -> 0 <= m -> m ∉ bl -> w.1 <> Z.to_nat m.
Proof.
  intros Hw Hm Hn. apply elem_map_zseq in Hw as (t & Ht & ->). simpl.
  pose proof (home_range _ (zget_elem bl t Ht)). intros E. apply Hn.
  replace m with (zget bl t) by lia. by apply zget_elem.
Qed.

(** ** Recovery of the disks a crash can leave *)

Lemma recover_clean x m :
  head_n (dget x LS) = 0 -> 0 <= m -> m <> LS -> dget (recover_disk x) m = dget x m.
Proof.
  intros H0 Hm Hne. unfold recover_disk, recover_writes, install_writes. rewrite H0.
  change (map _ (zseq 0 (Z.to_nat 0))) with (@nil (nat * list Z)).
  pose proof (to_start _ _ Hok). apply dget_ne; [done|].
  intros w Hw. apply list_elem_of_singleton in Hw as ->. simpl. lia.
Qed.

Lemma recover_committed x m :
  length x = length d -> head_n (dget x LS) = Z.of_nat (length bl) ->
  (forall t, 0 <= t < Z.of_nat (length bl) -> head_block (dget x LS) t = zget bl t) ->
  (forall t, 0 <= t < Z.of_nat (length bl) -> dget x (LS + t + 1) = V (zget bl t)) ->
  0 <= m -> ~ in_log m ->
  dget (recover_disk x) m = if decide (m ∈ bl) then V m else dget x m.
Proof.
  intros Hx Hn Hb Hl Hm Hnl. unfold recover_disk, recover_writes.
  assert (install_writes (dget x LS) x = home_writes bl V) as ->.
  { unfold install_writes, home_writes. rewrite Hn, Nat2Z.id. apply map_ext_in.
    intros t Ht. apply list_elem_of_In, elem_of_zseq in Ht. rewrite Hb, Hl by lia. done. }
  pose proof (to_start _ _ Hok). rewrite apply_writes_app, dget_ne; [|done|].
  - destruct (decide (m ∈ bl)) as [Hin|Hin]; [by apply home_writes_spec|].
    apply dget_ne; [done|]. intros w Hw. by apply home_writes_ne.
  - intros w Hw. apply list_elem_of_singleton in Hw as ->. simpl.
    assert (LOGBLOCKS = 30) as HL by done. unfold in_log in Hnl. lia.
Qed.

Lemma recover_empty_head x :
  length x = length d -> length (dget x LS) = Z.to_nat BSIZE ->
  head_n (dget (recover_disk x) LS) = 0.
Proof.
  intros Hx Hl. unfold recover_disk, recover_writes. rewrite apply_writes_app.
  pose proof (to_start _ _ Hok). pose proof (to_end _ _ Hok).
  assert (LOGBLOCKS = 30) as HL by done. unfold dget at 1.
  rewrite (apply_writes_eq _ _ (Z.to_nat LS, head_bytes (dget x LS) [])).
  - simpl. destruct (head_roundtrip (dget x LS) []) as (_ & E & _); [done|simpl; lia|done|].
    exact E.
  - apply NoDup_singleton.
  - set_solver.
  - simpl. rewrite length_apply_writes. lia.
Qed.
End commit.
End log_area.

(** * Crash safety *)

Section crash.
Context (LS : Z) (d : disk_t) (bl : list Z) (V : Z -> list Z).
Hypothesis Hok : trans_ok LS d bl.
Hypothesis Hhead : length (dget d LS) = Z.to_nat BSIZE.
Hypothesis Hempty : head_n (dget d LS) = 0.

Let h := dget d LS.
Let ws := commit_writes LS h bl V.

(** the disk after the first [k] writes of the commit *)
Definition crashed (k : nat) : disk_t := apply_writes (take k ws) d.

Lemma home_u32 : Forall (fun m => 0 <= m < 2 ^ 32) bl.
Proof.
  apply Forall_forall. intros m Hm. destruct (home_range LS d bl Hok m Hm) as [Hm' _].
  pose proof (to_size _ _ _ Hok). lia.
Qed.

Lemma fit : (length bl <= 30)%nat.
Proof. exact (to_fit _ _ _ Hok). Qed.

Lemma length_log_writes : length (log_writes LS bl V) = length bl.
Proof. unfold log_writes. by rewrite length_map, length_zseq. Qed.
Lemma length_home_writes : length (home_writes bl V) = length bl.
Proof. unfold home_writes. by rewrite length_map, length_zseq. Qed.

(** before the header is written: the old header, the old home blocks *)
Lemma crashed_before k m :
  (k <= length bl)%nat -> 0 <= m -> ~ in_log LS m \/ m = LS -> dget (crashed k) m = dget d m.
Proof.
  intros Hk Hm Hn. unfold crashed, ws, commit_writes.
  rewrite take_app_le by (rewrite length_log_writes; lia).
  apply dget_ne; [done|]. intros w Hw. apply (log_writes_ne LS d bl V Hok w m); [|done|done].
  by apply elem_of_take in Hw as (i & Hw & _); eapply list_elem_of_lookup_2.
Qed.

(** the disk once the header is written and [j] home blocks installed *)
Definition installed (j : nat) : disk_t :=
  apply_writes (take j (home_writes bl V))
    (<[Z.to_nat LS := head_bytes h bl]> (apply_writes (log_writes LS bl V) d)).

Lemma length_installed j : length (installed j) = length d.
Proof. unfold installed. by rewrite length_apply_writes, length_insert, length_apply_writes. Qed.

Lemma home_take_ne j m w :
  w ∈ take j (home_writes bl V) -> 0 <= m -> in_log LS m \/ m ∉ bl -> w.1 <> Z.to_nat m.
Proof.
  intros Hw Hm Hn. apply (home_writes_ne LS d bl V Hok w m); [|done|].
  - apply elem_of_take in Hw as (i & Hw & _). by eapply list_elem_of_lookup_2.
  - destruct Hn as [Hn|Hn]; [|done]. intros Hin. by apply (home_range LS d bl Hok m Hin).
Qed.

Lemma installed_head j : dget (installed j) LS = head_bytes h bl.
Proof.
  pose proof (to_start _ _ _ Hok). pose proof (to_end _ _ _ Hok).
  assert (LOGBLOCKS = 30) as HL by done. unfold installed.
  rewrite dget_ne; [|done|intros w Hw; by apply (home_take_ne j); [| |left; apply in_log_LS]].
  unfold dget. rewrite list_lookup_insert_eq; [done|]. rewrite length_apply_writes. lia.
Qed.

Lemma installed_log j t :
  0 <= t < Z.of_nat (length bl) -> dget (installed j) (LS + t + 1) = V (zget bl t).
Proof.
  intros Ht. pose proof (to_start _ _ _ Hok). pose proof fit.
  assert (LOGBLOCKS = 30) as HL by done. unfold installed.
  rewrite dget_ne; [|lia|].
  - unfold dget. rewrite list_lookup_insert_ne by lia.
    by apply (log_writes_spec LS d bl V Hok d t).
  - intros w Hw. apply (home_take_ne j); [done|lia|]. left. unfold in_log. lia.
Qed.

Lemma installed_other j m : 0 <= m -> ~ in_log LS m -> m ∉ bl -> dget (installed j) m = dget d m.
Proof.
  intros Hm Hn Hin. pose proof (to_start _ _ _ Hok). unfold installed.
  rewrite dget_ne; [|done|intros w Hw; apply (home_take_ne j); auto].
  unfold dget. rewrite list_lookup_insert_ne.
  - apply (dget_ne (log_writes LS bl V) d m Hm).
    intros w Hw. by apply (log_writes_ne LS d bl V Hok); auto.
  - intros E. apply Hn. replace m with LS by lia. apply in_log_LS.
Qed.

Lemma crashed_after j :
  (j <= length bl)%nat -> crashed (length bl + 1 + j) = installed j.
Proof.
  intros Hj. unfold crashed, ws, commit_writes, installed.
  rewrite take_app_ge, length_log_writes by (rewrite length_log_writes; lia).
  replace (length bl + 1 + j - length bl)%nat with (S j) by lia.
  rewrite apply_writes_app. cbn [app take apply_writes foldl fst snd].
  rewrite take_app_le by (rewrite length_home_writes; lia). done.
Qed.

Lemma crashed_done k :
  (2 * length bl + 2 <= k)%nat ->
  crashed k = <[Z.to_nat LS := head_bytes (head_bytes h bl) []]> (installed (length bl)).
Proof.
  intros Hk. unfold crashed. rewrite take_ge.
  - unfold ws, commit_writes, installed. rewrite !apply_writes_app.
    cbn [apply_writes foldl fst snd]. by rewrite take_ge by (rewrite length_home_writes; lia).
  - unfold ws, commit_writes. rewrite !length_app, length_log_writes, length_home_writes.
    simpl. lia.
Qed.

Lemma installed_home m : m ∈ bl -> dget (installed (length bl)) m = V m.
Proof.
  intros Hm. unfold installed. rewrite take_ge by (rewrite length_home_writes; lia).
  apply (home_writes_spec LS d bl V Hok); [|done]. by rewrite length_insert, length_apply_writes.
Qed.

(** recovery after a crash, for every block outside the log *)
Lemma crash_recover k m :
  0 <= m -> ~ in_log LS m ->
  dget (recover_disk LS (crashed k)) m =
  if decide (k <= length bl)%nat then dget d m else new_block d bl V m.
Proof.
  intros Hm Hn. pose proof (to_start _ _ _ Hok). pose proof (to_end _ _ _ Hok).
  assert (LOGBLOCKS = 30) as HL by done.
  assert (Hne : m <> LS) by (intros ->; apply Hn, in_log_LS).
  destruct (head_roundtrip h bl Hhead fit home_u32) as (R1 & R2 & R3).
  destruct (decide (k <= length bl)%nat) as [Hk|Hk].
  - rewrite (recover_clean LS d bl Hok); [|by rewrite crashed_before by auto|done|done].
    apply crashed_before; auto.
  - destruct (decide (k <= 2 * length bl + 1)%nat) as [Hk2|Hk2].
    + replace k with (length bl + 1 + (k - length bl - 1))%nat by lia.
      rewrite crashed_after by lia.
      rewrite (recover_committed LS d bl V Hok); try done.
      * unfold new_block. destruct (decide (m ∈ bl)); [done|by apply installed_other].
      * apply length_installed.
      * by rewrite installed_head.
      * intros t Ht. by rewrite installed_head, R3.
      * intros t Ht. by apply installed_log.
    + rewrite crashed_done by lia.
      assert (Hl : (Z.to_nat LS < length (installed (length bl)))%nat)
        by (rewrite length_installed; lia).
      destruct (head_roundtrip (head_bytes h bl) [] R1) as (_ & R2' & _); [simpl; lia|done|].
      rewrite (recover_clean LS d bl Hok); [|by unfold dget; rewrite list_lookup_insert_eq|done|done].
      unfold dget at 1. rewrite list_lookup_insert_ne by lia.
      change (dget (installed (length bl)) m = new_block d bl V m).
      unfold new_block. destruct (decide (m ∈ bl)); [by apply installed_home|by apply installed_other].
Qed.

Lemma head_list_bytes x l :
  length x = Z.to_nat BSIZE -> (length l <= 30)%nat -> Forall (fun m => 0 <= m < 2 ^ 32) l ->
  head_list (head_bytes x l) = l.
Proof.
  intros Hx Hl Hr. destruct (head_roundtrip x l Hx Hl Hr) as (_ & R2 & R3).
  unfold head_list. rewrite R2, Nat2Z.id. apply list_eq. intros i.
  destruct (decide (i < length l)%nat) as [Hi|Hi].
  - unfold zseq. rewrite map_map. change (map ?g ?l) with (g <$> l).
    rewrite list_lookup_fmap, lookup_seq_lt by done. simpl. rewrite R3 by lia. unfold zget.
    replace (Z.to_nat (0 + Z.of_nat i)) with i by lia.
    by destruct (lookup_lt_is_Some_2 l i Hi) as [y ->].
  - rewrite !lookup_ge_None_2; [done|lia|]. rewrite length_map, length_zseq. lia.
Qed.

(** the header a crash leaves is readable: empty or the whole transaction *)
Lemma crashed_head k :
  0 <= head_n (dget (crashed k) LS) /\
  (head_list (dget (crashed k) LS) = [] \/ head_list (dget (crashed k) LS) = bl).
Proof.
  pose proof (to_start _ _ _ Hok). destruct (head_roundtrip h bl Hhead fit home_u32) as (R1 & R2 & R3).
  destruct (decide (k <= length bl)%nat) as [Hk|Hk].
  - rewrite crashed_before by auto. unfold head_list. rewrite Hempty. split; [lia|by left].
  - destruct (decide (k <= 2 * length bl + 1)%nat) as [Hk2|Hk2].
    + replace k with (length bl + 1 + (k - length bl - 1))%nat by lia.
      rewrite crashed_after, installed_head by lia. rewrite R2. split; [lia|right].
      apply head_list_bytes; [done|apply fit|apply home_u32].
    + rewrite crashed_done by lia. pose proof (to_end _ _ _ Hok). assert (LOGBLOCKS = 30) as HL by done.
      unfold dget. rewrite list_lookup_insert_eq by (rewrite length_installed; lia). simpl.
      destruct (head_roundtrip (head_bytes h bl) [] R1) as (_ & E & _); [simpl; lia|done|].
      rewrite E. split; [simpl; lia|left]. by apply head_list_bytes; [|simpl; lia|].
Qed.

Lemma length_crashed k : length (crashed k) = length d.
Proof. apply length_apply_writes. Qed.
End crash.

(** * Crashes during recovery *)

Section recover_crash.
Context (LS : Z) (d : disk_t).
Let h := dget d LS.
Let bl := head_list h.
Hypothesis Hn : 0 <= head_n h.
Hypothesis Hok : trans_ok LS d bl.

(** what recovery installs at a home block *)
Let V (m : Z) : list Z := dget (apply_writes (install_writes LS h d) d) m.

Lemma zget_head t : 0 <= t < Z.of_nat (length bl) -> zget bl t = head_block h t.
Proof.
  intros Ht. unfold bl, head_list in *. rewrite length_map, length_zseq in Ht.
  by apply zget_map_zseq.
Qed.

Lemma length_bl : Z.of_nat (length bl) = head_n h.
Proof. unfold bl. rewrite length_head_list. lia. Qed.

Lemma install_writes_keys :
  NoDup (install_writes LS h d).*1.
Proof.
  apply NoDup_map_zseq. intros t u Ht Hu E. pose proof length_bl.
  rewrite <-!zget_head in E by lia. apply (zget_inj LS d bl Hok); [lia|lia|].
  pose proof (home_range LS d bl Hok _ (zget_elem bl t ltac:(lia))).
  pose proof (home_range LS d bl Hok _ (zget_elem bl u ltac:(lia))). lia.
Qed.

Lemma install_V t : 0 <= t < Z.of_nat (length bl) -> V (zget bl t) = dget d (LS + t + 1).
Proof.
  intros Ht. pose proof length_bl. rewrite zget_head by done. unfold V, dget at 1.
  erewrite (apply_writes_eq _ _ (Z.to_nat (head_block h t), dget d (LS + t + 1))); [done|..].
  - apply install_writes_keys.
  - apply (map_zseq_elem (fun t => (Z.to_nat (head_block h t), dget d (LS + t + 1)))). lia.
  - simpl. pose proof (home_range LS d bl Hok _ (zget_elem bl t ltac:(lia))) as Hr.
    rewrite zget_head in Hr by done. lia.
Qed.

Lemma install_is_home : install_writes LS h d = home_writes bl V.
Proof.
  unfold install_writes, home_writes. pose proof length_bl.
  replace (length bl) with (Z.to_nat (head_n h)) by lia. apply map_ext_in. intros t Ht.
  apply list_elem_of_In, elem_of_zseq in Ht. rewrite install_V, zget_head by lia. done.
Qed.

(** recovering again after a crash at write [k] of a recovery *)
Lemma recover_crash k m :
  length h = Z.to_nat BSIZE -> 0 <= m -> ~ in_log LS m ->
  dget (recover_disk LS (apply_writes (take k (recover_writes LS d)) d)) m = dget (recover_disk LS d) m.
Proof.
  intros Hh Hm Hnl. pose proof (to_start _ _ _ Hok). pose proof (to_end _ _ _ Hok).
  assert (LOGBLOCKS = 30) as HL by done. pose proof (to_fit _ _ _ Hok) as Hf.
  change (Z.to_nat LOGBLOCKS) with 30%nat in Hf. pose proof length_bl as Hlb.
  assert (Hlen : length (install_writes LS h d) = length bl).
  { unfold install_writes. rewrite length_map, length_zseq. lia. }
  assert (Hne : m <> LS) by (intros ->; apply Hnl, in_log_LS).
  assert (Hkeep : forall j a, 0 <= a -> in_log LS a \/ a ∉ bl ->
            dget (apply_writes (take j (install_writes LS h d)) d) a = dget d a).
  { intros j a Ha Hor. apply dget_ne; [done|]. intros w Hw. rewrite install_is_home in Hw.
    by apply (home_take_ne LS d bl V Hok j a w). }
  destruct (decide (k <= length bl)%nat) as [Hk|Hk].
  - assert (take k (recover_writes LS d) = take k (install_writes LS h d)) as ->.
    { unfold recover_writes. apply take_app_le. fold h. lia. }
    set (x := apply_writes _ d).
    assert (Hx : dget x LS = h) by (apply Hkeep; [done|left; apply in_log_LS]).
    assert (Ex : dget (recover_disk LS x) m = if decide (m ∈ bl) then V m else dget x m).
    { apply (recover_committed LS d bl V Hok); rewrite ?Hx; try done.
      - apply length_apply_writes.
      - intros t Ht. by rewrite zget_head.
      - intros t Ht. rewrite install_V by done. apply Hkeep; [lia|]. left. unfold in_log. lia. }
    assert (Ed : dget (recover_disk LS d) m = if decide (m ∈ bl) then V m else dget d m).
    { apply (recover_committed LS d bl V Hok); try done.
      - intros t Ht. by rewrite zget_head.
      - intros t Ht. by rewrite install_V. }
    rewrite Ex, Ed. destruct (decide (m ∈ bl)) as [Hin|Hin]; [done|]. apply Hkeep; auto.
  - rewrite take_ge.
    2: { unfold recover_writes. rewrite length_app. fold h. simpl. lia. }
    change (apply_writes (recover_writes LS d) d) with (recover_disk LS d).
    rewrite (recover_clean LS d bl Hok); [done| |done|done].
    by eapply (recover_empty_head LS d bl V Hok d).
Qed.
End recover_crash.
