(* ===== verification/LogSpec.v ===== *)
(** The log code of log.c refines the disk-level commit and recovery of
    LogDisk.v, over any block store that satisfies the interface of
    BlockStore.v; crash safety and the reservation discipline of
    begin_op/log_write follow. *)

From stdpp Require Import base gmap strings numbers list.
From S2P Require Import Prelude KState KString Spinlock Printf ProcSync SyncSpec Bio BioRing BioSpec.
From S2P Require Import BlockStore Log LogDisk.

(** * Disk effects of an operation *)

Record wrote (s s' : kstate) (ws : list (nat * list Z)) : Prop := {
  wr_frame : io_frame s s';
  wr_disk : k_disk s' = apply_writes ws (k_disk s);
  wr_hist : k_writes s' = k_writes s ++ ws
}.

Lemma wrote_nil s s' : io_frame s s' -> same_disk s s' -> wrote s s' [].
Proof. intros Hf [H1 H2]. split; [done|done|]. by rewrite app_nil_r. Qed.

Lemma wrote_trans s1 s2 s3 w1 w2 : wrote s1 s2 w1 -> wrote s2 s3 w2 -> wrote s1 s3 (w1 ++ w2).
Proof.
  intros [A1 A2 A3] [B1 B2 B3]. split.
  - by transitivity s2.
  - by rewrite apply_writes_app, B2, A2.
  - by rewrite B3, A3, app_assoc.
Qed.

Lemma wrote_len s s' ws : wrote s s' ws -> disk_len s' = disk_len s.
Proof. intros [_ Hd _]. unfold disk_len. by rewrite Hd, length_apply_writes. Qed.

Lemma io_frame_log s s' : io_frame s s' -> k_log s' = k_log s.
Proof. intros H. rewrite H. done. Qed.
Lemma io_frame_hart s s' : io_frame s s' -> k_hart s' = k_hart s.
Proof. intros H. rewrite H. done. Qed.
Lemma io_frame_uart s s' : io_frame s s' -> k_uart s' = k_uart s.
Proof. intros H. rewrite H. done. Qed.
Lemma io_frame_procs s s' : io_frame s s' -> k_procs s' = k_procs s.
Proof. intros H. rewrite H. done. Qed.

(** * The log in memory *)

(** the log of the device at [LS] holds the block numbers [bl] *)
Record log_at (LS : Z) (s : kstate) (bl : list Z) : Prop := {
  la_dev : l_dev (k_log s) = ROOTDEV;
  la_start : l_start (k_log s) = LS;
  la_n : l_n (k_log s) = Z.of_nat (length bl);
  la_len : length (l_block (k_log s)) = Z.to_nat LOGBLOCKS;
  la_block : take (length bl) (l_block (k_log s)) = bl;
  la_trans : trans_ok LS (k_disk s) bl
}.

(** the references of a transaction nobody is working in: one for each
    logged block *)
Definition pinned (bl : list Z) (m : Z) : Z := if decide (m ∈ bl) then 1 else 0.

Section log.
Context {cache} `{BS : BlockStore cache}.
Context (LS : Z).

Lemma log_at_wrote s s' ws bl : log_at LS s bl -> wrote s s' ws -> log_at LS s' bl.
Proof.
  intros [H1 H2 H3 H4 H5 H6] Hw. rewrite <-(io_frame_log _ _ (wr_frame _ _ _ Hw)) in *.
  split; try done. destruct H6 as [T1 T2 T3 T4 T5 T6].
  assert (length (k_disk s') = length (k_disk s)) as E
    by (by rewrite (wr_disk _ _ _ Hw), length_apply_writes).
  split; rewrite ?E; done.
Qed.

Section one.
Context (s : kstate) (bl : list Z).
Hypothesis Hla : log_at LS s bl.

Lemma log_dev_run : log_dev s = Ok ROOTDEV s.
Proof. unfold log_dev, get_log. mstep. by rewrite (la_dev _ _ _ Hla). Qed.

Lemma log_blockno_run i : 0 <= i <= LOGBLOCKS -> log_blockno i s = Ok (LS + i) s.
Proof.
  intros Hi. unfold log_blockno, get_log. mstep. rewrite (la_start _ _ _ Hla). unfold ret.
  destruct (la_trans _ _ _ Hla) as [T1 T2 T3 _ _ _].
  rewrite u32_small; [done|]. change LOGBLOCKS with 30 in *. lia.
Qed.

Lemma lh_block_run t : 0 <= t < Z.of_nat (length bl) -> lh_block t s = Ok (zget bl t) s.
Proof.
  intros Ht. unfold lh_block, get_log. mstep.
  pose proof (to_fit _ _ _ (la_trans _ _ _ Hla)) as Hf.
  change (Z.to_nat LOGBLOCKS) with 30%nat in Hf.
  destruct (Z.ltb_spec t LOGBLOCKS) as [_|Hge]; [|change LOGBLOCKS with 30 in Hge; lia].
  unfold ret. f_equal.
  transitivity (zget (take (length bl) (l_block (k_log s))) t).
  - unfold zget. by rewrite lookup_take_lt by lia.
  - by rewrite (la_block _ _ _ Hla).
Qed.

Lemma for_lh_run body : for_lh body s = forM_ (zseq 0 (length bl)) body s.
Proof. unfold for_lh, lh_n. mstep. by rewrite (la_n _ _ _ Hla), Nat2Z.id. Qed.

Lemma home_in t : 0 <= t < Z.of_nat (length bl) ->
  0 <= zget bl t < disk_len s /\ ~ in_log LS (zget bl t).
Proof. intros Ht. apply (home_range LS (k_disk s) bl (la_trans _ _ _ Hla)). by apply zget_elem. Qed.

Lemma area_in i : 0 <= i <= LOGBLOCKS -> 0 <= LS + i < disk_len s /\ in_log LS (LS + i).
Proof.
  intros Hi. destruct (la_trans _ _ _ Hla) as [T1 T2 T3 _ _ _]. unfold disk_len, in_log. lia.
Qed.

Lemma pinned_room : (length bl < HEAD)%nat -> room (pinned bl).
Proof.
  intros Hl. exists bl. split; [|done]. intros m. unfold pinned. by destruct (decide (m ∈ bl)).
Qed.
End one.

(** ** write_log *)

Lemma write_log_one_run s bl V t :
  log_at LS s bl -> cache s [] V (pinned bl) -> (length bl < HEAD)%nat ->
  0 <= t < Z.of_nat (length bl) ->
  exists s', write_log_one t s = Ok tt s' /\
    wrote s s' [(Z.to_nat (LS + t + 1), V (zget bl t))] /\
    cache s' [] (vset V (LS + t + 1) (V (zget bl t))) (pinned bl).
Proof.
  intros Hla Hc Hlt Ht. pose proof (to_fit _ _ _ (la_trans _ _ _ Hla)) as Hfit.
  change (Z.to_nat LOGBLOCKS) with 30%nat in Hfit.
  set (lb := LS + t + 1). set (hb := zget bl t).
  destruct (home_in s bl Hla t Ht) as [Hhb Hnl]. fold hb in Hhb, Hnl.
  destruct (area_in s bl Hla (t + 1)) as [Hlb Hin]; [change LOGBLOCKS with 30; lia|].
  rewrite Z.add_assoc in Hlb, Hin. fold lb in Hlb, Hin.
  assert (Hne : lb <> hb) by (intros E; by rewrite E in Hin).
  assert (Hp : pinned bl hb = 1) by (unfold pinned; rewrite decide_True; [done|by apply zget_elem]).
  unfold write_log_one. erewrite bind_ok by (by eapply log_dev_run).
  erewrite bind_ok by (eapply log_blockno_run; [exact Hla|change LOGBLOCKS with 30; lia]).
  rewrite Z.add_assoc. fold lb.
  destruct (bs_read s [] V _ lb Hc Hlb) as (to & s1 & E1 & F1 & D1 & C1);
    [set_solver|left; by apply pinned_room|]. erewrite bind_ok by exact E1.
  pose proof (wrote_nil _ _ F1 D1) as W1.
  pose proof (log_at_wrote _ _ _ _ Hla W1) as Hla1. pose proof (wrote_len _ _ _ W1) as L1.
  erewrite bind_ok by (by eapply lh_block_run). fold hb.
  destruct (bs_read s1 _ V _ hb C1) as (from & s2 & E2 & F2 & D2 & C2).
  { lia. } { set_solver. }
  { right. unfold bump. rewrite decide_False by done. lia. }
  erewrite bind_ok by exact E2. pose proof (wrote_nil _ _ F2 D2) as W2.
  erewrite bind_ok by (eapply (bs_data _ _ _ _ from hb); [exact C2|set_solver]).
  destruct (bs_set s2 _ V _ to lb (V hb) C2) as (s3 & E3 & F3 & D3 & C3).
  { set_solver. } { eapply bs_len; [exact Hc|done]. }
  erewrite bind_ok by exact E3. pose proof (wrote_nil _ _ F3 D3) as W3.
  destruct (bs_write s3 _ _ _ to lb C3) as (s4 & E4 & F4 & D4 & W4' & C4); [set_solver|].
  erewrite bind_ok by exact E4.
  assert (Hv : vset V lb (V hb) lb = V hb) by (unfold vset; by rewrite decide_True).
  rewrite Hv in D4, W4'.
  assert (W4 : wrote s3 s4 [(Z.to_nat lb, V hb)]) by (by split).
  destruct (bs_release s4 [(from, hb); (to, lb)] [(to, lb)] _ _ from hb C4) as (s5 & E5 & F5 & D5 & C5).
  { done. }
  { left. unfold bump. rewrite decide_True by done. rewrite decide_False by done. lia. }
  erewrite bind_ok by exact E5. pose proof (wrote_nil _ _ F5 D5) as W5.
  destruct (bs_release s5 [(to, lb)] [] _ _ to lb C5) as (s6 & E6 & F6 & D6 & C6).
  { done. }
  { right. rewrite Hv. unfold disk_block. rewrite (proj1 D5), D4.
    destruct (Z.ltb_spec lb 0); [lia|]. rewrite list_lookup_insert_eq; [done|].
    rewrite (proj1 D3), (proj1 D2), (proj1 D1). unfold disk_len in Hlb. lia. }
  exists s6. split; [done|]. pose proof (wrote_nil _ _ F6 D6) as W6. split.
  - pose proof (wrote_trans _ _ _ _ _ W1 (wrote_trans _ _ _ _ _ W2 (wrote_trans _ _ _ _ _ W3
      (wrote_trans _ _ _ _ _ W4 (wrote_trans _ _ _ _ _ W5 W6))))) as W. exact W.
  - eapply bs_ext; [exact C6|done|]. intros m. unfold bump.
    destruct (decide (m = lb)), (decide (m = hb)); lia.
Qed.

Lemma zseq_cons k j : zseq k (S j) = k :: zseq (k + 1) j.
Proof.
  unfold zseq. cbn [seq map]. f_equal; [lia|]. rewrite <-seq_shift, map_map.
  apply map_ext. intros i. lia.
Qed.

Lemma write_log_loop bl V0 j : forall k s V,
  log_at LS s bl -> cache s [] V (pinned bl) -> (length bl < HEAD)%nat ->
  (forall m, ~ in_log LS m -> V m = V0 m) -> 0 <= k -> k + Z.of_nat j = Z.of_nat (length bl) ->
  exists s' V', forM_ (zseq k j) write_log_one s = Ok tt s' /\
    wrote s s' (map (fun t => (Z.to_nat (LS + t + 1), V0 (zget bl t))) (zseq k j)) /\
    cache s' [] V' (pinned bl) /\
    (forall m, m <= LS + k \/ LS + Z.of_nat (length bl) < m -> V' m = V m) /\
    (forall t, k <= t < Z.of_nat (length bl) -> V' (LS + t + 1) = V0 (zget bl t)).
Proof.
  induction j as [|j IH]; intros k s V Hla Hc Hlt HV Hk Hj.
  { exists s, V. split_and!; [done|by apply wrote_nil|done|done|lia]. }
  rewrite zseq_cons. cbn [forM_ map]. assert (Ht : 0 <= k < Z.of_nat (length bl)) by lia.
  pose proof (to_fit _ _ _ (la_trans _ _ _ Hla)) as Hfit.
  change (Z.to_nat LOGBLOCKS) with 30%nat in Hfit.
  assert (LOGBLOCKS = 30) as HL by done.
  destruct (write_log_one_run s bl V k Hla Hc Hlt Ht) as (s1 & E1 & W1 & C1).
  erewrite bind_ok by exact E1.
  assert (HV0 : V (zget bl k) = V0 (zget bl k)) by (apply HV; by eapply home_in).
  rewrite HV0 in W1, C1.
  destruct (IH (k + 1) s1 (vset V (LS + k + 1) (V0 (zget bl k)))) as (s2 & V2 & E2 & W2 & C2 & G1 & G2).
  - by eapply log_at_wrote.
  - done.
  - done.
  - intros m Hm. unfold vset. rewrite decide_False; [by apply HV|]. intros ->. apply Hm.
    unfold in_log. lia.
  - lia.
  - lia.
  - exists s2, V2. split; [done|]. split; [by apply (wrote_trans _ _ _ _ _ W1 W2)|].
    split; [done|]. split.
    + intros m Hm. rewrite G1 by lia. unfold vset. rewrite decide_False; [done|lia].
    + intros t Ht'. destruct (decide (t = k)) as [->|Hne]; [|apply G2; lia].
      rewrite G1 by lia. unfold vset. by rewrite decide_True.
Qed.

(** ** write_head *)

Lemma write_head_loop bl b R (l : list Z) : forall s V,
  log_at LS s bl -> cache s [(b, LS)] V R -> length (V LS) = Z.to_nat BSIZE ->
  (forall i, i ∈ l -> 0 <= i < Z.of_nat (length bl)) ->
  exists s', forM_ l (fun i =>
      let! x := lh_block i in
      let! d := bdata b in
      set_bdata b (put32 d (4 + 4 * i) x)) s = Ok tt s' /\
    wrote s s' [] /\
    cache s' [(b, LS)] (vset V LS (foldl (fun d i => put32 d (4 + 4 * i) (zget bl i)) (V LS) l)) R.
Proof.
  induction l as [|i l IH]; intros s V Hla Hc Hlen Hi; cbn [forM_ foldl].
  { exists s. split; [done|]. split; [by apply wrote_nil|]. eapply bs_ext; [exact Hc| |done].
    intros m. unfold vset. by destruct (decide (m = LS)) as [->|]. }
  assert (Hin : 0 <= i < Z.of_nat (length bl)) by (apply Hi; set_solver).
  pose proof (to_fit _ _ _ (la_trans _ _ _ Hla)) as Hfit.
  change (Z.to_nat LOGBLOCKS) with 30%nat in Hfit.
  assert (HB : Z.of_nat (length (V LS)) = 1024) by (rewrite Hlen; done).
  set (d1 := put32 (V LS) (4 + 4 * i) (zget bl i)).
  assert (Hd1 : length d1 = Z.to_nat BSIZE) by (unfold d1; rewrite length_put32 by lia; done).
  destruct (bs_set s _ V R b LS d1 Hc) as (s1 & E1 & F1 & D1 & C1); [set_solver|done|].
  pose proof (wrote_nil _ _ F1 D1) as W1.
  erewrite bind_ok.
  2: { erewrite bind_ok by (by eapply lh_block_run).
       erewrite bind_ok by (eapply (bs_data _ _ _ _ b LS); [exact Hc|set_solver]). exact E1. }
  assert (Hv : vset V LS d1 LS = d1) by (unfold vset; by rewrite decide_True).
  destruct (IH s1 (vset V LS d1)) as (s2 & E2 & W2 & C2).
  - by eapply log_at_wrote.
  - done.
  - by rewrite Hv.
  - intros k Hk. apply Hi. set_solver.
  - exists s2. split; [exact E2|]. split; [apply (wrote_trans _ _ _ _ _ W1 W2)|].
    eapply bs_ext; [exact C2| |done]. intros m. unfold vset at 1 2. rewrite Hv.
    destruct (decide (m = LS)); [done|]. unfold vset. by rewrite decide_False.
Qed.

Lemma write_head_run s bl V R :
  log_at LS s bl -> cache s [] V R -> room R ->
  exists s', write_head s = Ok tt s' /\ wrote s s' [(Z.to_nat LS, head_bytes (V LS) bl)] /\
    cache s' [] (vset V LS (head_bytes (V LS) bl)) R.
Proof.
  intros Hla Hc Hr. destruct (area_in s bl Hla 0) as [HLS _]; [done|]. rewrite Z.add_0_r in HLS.
  unfold write_head. erewrite bind_ok by (by eapply log_dev_run).
  erewrite bind_ok by (by eapply log_blockno_run). rewrite Z.add_0_r.
  destruct (bs_read s [] V R LS Hc HLS) as (b & s1 & E1 & F1 & D1 & C1); [set_solver|by left|].
  erewrite bind_ok by exact E1. pose proof (wrote_nil _ _ F1 D1) as W1.
  pose proof (log_at_wrote _ _ _ _ Hla W1) as Hla1.
  assert (HVl : length (V LS) = Z.to_nat BSIZE) by (by apply (bs_len s [] V R LS)).
  assert (HB : Z.of_nat (length (V LS)) = 1024) by (rewrite HVl; done).
  erewrite bind_ok by (eapply (bs_data _ _ _ _ b LS); [exact C1|set_solver]).
  unfold lh_n. rewrite bind_gets, (la_n _ _ _ Hla1).
  set (d1 := put32 (V LS) 0 (Z.of_nat (length bl))).
  assert (Hd1 : length d1 = Z.to_nat BSIZE) by (unfold d1; rewrite length_put32 by lia; done).
  destruct (bs_set s1 _ V _ b LS d1 C1) as (s2 & E2 & F2 & D2 & C2); [set_solver|done|].
  erewrite bind_ok by exact E2. pose proof (wrote_nil _ _ F2 D2) as W2.
  pose proof (log_at_wrote _ _ _ _ Hla1 W2) as Hla2.
  assert (Hv : vset V LS d1 LS = d1) by (unfold vset; by rewrite decide_True).
  destruct (write_head_loop bl b (bump R LS 1) (zseq 0 (length bl)) s2 (vset V LS d1) Hla2 C2)
    as (s3 & E3 & W3 & C3).
  { by rewrite Hv. } { intros i Hi. apply elem_of_zseq in Hi. lia. }
  erewrite bind_ok by (rewrite (for_lh_run s2 bl Hla2); exact E3).
  rewrite Hv in C3.
  change (foldl _ d1 (zseq 0 (length bl))) with (head_bytes (V LS) bl) in C3.
  destruct (bs_write s3 _ _ _ b LS C3) as (s4 & E4 & F4 & D4 & H4 & C4); [set_solver|].
  erewrite bind_ok by exact E4.
  assert (Hv2 : forall U x, vset U LS x LS = x) by (intros; unfold vset; by rewrite decide_True).
  rewrite Hv2 in D4, H4.
  assert (W4 : wrote s3 s4 [(Z.to_nat LS, head_bytes (V LS) bl)]) by (by split).
  destruct (bs_release s4 [(b, LS)] [] _ _ b LS C4) as (s5 & E5 & F5 & D5 & C5).
  { done. }
  { right. rewrite Hv2. unfold disk_block. rewrite D4.
    destruct (Z.ltb_spec LS 0); [lia|]. rewrite list_lookup_insert_eq; [done|].
    pose proof (wrote_len _ _ _ (wrote_trans _ _ _ _ _ W1 (wrote_trans _ _ _ _ _ W2 W3))) as L.
    unfold disk_len in *. lia. }
  exists s5. split; [exact E5|]. pose proof (wrote_nil _ _ F5 D5) as W5. split.
  - exact (wrote_trans _ _ _ _ _ W1 (wrote_trans _ _ _ _ _ W2 (wrote_trans _ _ _ _ _ W3
      (wrote_trans _ _ _ _ _ W4 W5)))).
  - eapply bs_ext; [exact C5| |].
    + intros m. unfold vset. by destruct (decide (m = LS)).
    + intros m. by rewrite bump_bump, bump_0.
Qed.

(** ** install_trans *)

(** the common part of both modes: [R] before, [dr] the reference the
    transaction holds on the home block *)
Definition install_copy (recovering : bool) (lb hb : Z) : K unit :=
  let! lbuf := bread ROOTDEV lb in
  let! dbuf := bread ROOTDEV hb in
  let! d := bdata lbuf in
  set_bdata dbuf d ;;
  bwrite dbuf ;;
  whenM (negb recovering) (bunpin dbuf) ;;
  brelse lbuf ;;
  brelse dbuf.

Lemma install_copy_run rec s V R lb hb :
  cache s [] V R -> 0 <= lb < disk_len s -> 0 <= hb < disk_len s -> lb <> hb ->
  room R -> (room (bump R lb 1) \/ 0 < R hb) ->
  V lb = disk_block s lb -> (rec = false -> 0 < R hb) -> 0 <= R hb ->
  exists s', install_copy rec lb hb s = Ok tt s' /\
    wrote s s' [(Z.to_nat hb, V lb)] /\
    cache s' [] (vset V hb (V lb)) (if rec then R else bump R hb (-1)).
Proof.
  intros Hc Hlb Hhb Hne Hr1 Hr2 Hclean Hrec HR0. unfold install_copy.
  destruct (bs_read s [] V R lb Hc Hlb) as (lbuf & s1 & E1 & F1 & D1 & C1);
    [set_solver|by left|]. erewrite bind_ok by exact E1. pose proof (wrote_nil _ _ F1 D1) as W1.
  destruct (bs_read s1 _ V _ hb C1) as (dbuf & s2 & E2 & F2 & D2 & C2).
  { by rewrite (wrote_len _ _ _ W1). } { set_solver. }
  { destruct Hr2 as [Hr2|Hr2]; [by left|right]. unfold bump. by rewrite decide_False. }
  erewrite bind_ok by exact E2. pose proof (wrote_nil _ _ F2 D2) as W2.
  erewrite bind_ok by (eapply (bs_data _ _ _ _ lbuf lb); [exact C2|set_solver]).
  destruct (bs_set s2 _ V _ dbuf hb (V lb) C2) as (s3 & E3 & F3 & D3 & C3).
  { set_solver. } { by apply (bs_len s [] V R lb). }
  erewrite bind_ok by exact E3. pose proof (wrote_nil _ _ F3 D3) as W3.
  assert (Hv : vset V hb (V lb) hb = V lb) by (unfold vset; by rewrite decide_True).
  assert (Hv' : vset V hb (V lb) lb = V lb) by (unfold vset; by rewrite decide_False).
  destruct (bs_write s3 _ _ _ dbuf hb C3) as (s4 & E4 & F4 & D4 & H4 & C4); [set_solver|].
  rewrite Hv in D4, H4. erewrite bind_ok by exact E4.
  assert (W4 : wrote s3 s4 [(Z.to_nat hb, V lb)]) by (by split).
  pose proof (wrote_trans _ _ _ _ _ W1 (wrote_trans _ _ _ _ _ W2 W3)) as W13.
  (* the reference of the transaction *)
  set (R5 := if rec then bump (bump R lb 1) hb 1 else bump (bump (bump R lb 1) hb 1) hb (-1)).
  assert (exists s5, whenM (negb rec) (bunpin dbuf) s4 = Ok tt s5 /\ wrote s4 s5 [] /\
            cache s5 [(dbuf, hb); (lbuf, lb)] (vset V hb (V lb)) R5) as (s5 & E5 & W5 & C5).
  { destruct rec; cbn [negb whenM].
    - exists s4. split; [done|]. split; [by apply wrote_nil|done].
    - destruct (bs_unpin s4 _ _ _ dbuf hb C4) as (s5 & E5 & F5 & D5 & C5).
      { set_solver. }
      { unfold bump. rewrite decide_True, decide_False by done. specialize (Hrec eq_refl). lia. }
      exists s5. split; [done|]. split; [by apply wrote_nil|done]. }
  erewrite bind_ok by exact E5.
  pose proof (wrote_trans _ _ _ _ _ W13 (wrote_trans _ _ _ _ _ W4 W5)) as W05.
  assert (Hd5 : k_disk s5 = <[Z.to_nat hb := V lb]> (k_disk s)).
  { rewrite (wr_disk _ _ _ W05). done. }
  destruct (bs_release s5 [(dbuf, hb); (lbuf, lb)] [(dbuf, hb)] _ _ lbuf lb C5)
    as (s6 & E6 & F6 & D6 & C6).
  { apply Permutation_swap. }
  { right. rewrite Hv', Hclean. unfold disk_block. rewrite Hd5.
    destruct (Z.ltb_spec lb 0); [lia|]. by rewrite list_lookup_insert_ne by lia. }
  erewrite bind_ok by exact E6. pose proof (wrote_nil _ _ F6 D6) as W6.
  destruct (bs_release s6 [(dbuf, hb)] [] _ _ dbuf hb C6) as (s7 & E7 & F7 & D7 & C7).
  { done. }
  { right. rewrite Hv. unfold disk_block. rewrite (proj1 D6), Hd5.
    destruct (Z.ltb_spec hb 0); [lia|]. rewrite list_lookup_insert_eq; [done|].
    unfold disk_len in Hhb. lia. }
  exists s7. split; [exact E7|]. pose proof (wrote_nil _ _ F7 D7) as W7. split.
  - exact (wrote_trans _ _ _ _ _ W05 (wrote_trans _ _ _ _ _ W6 W7)).
  - eapply bs_ext; [exact C7|done|]. intros m. unfold R5.
    destruct rec; unfold bump; destruct (decide (m = hb)), (decide (m = lb)); lia.
Qed.

(** install_one after its message *)
Definition install_rest (recovering : bool) (t : Z) : K unit :=
  let! dev := log_dev in
  let! lno := log_blockno (t + 1) in
  let! lbuf := bread dev lno in
  let! dst := lh_block t in
  let! dbuf := bread dev dst in
  let! d := bdata lbuf in
  set_bdata dbuf d ;;
  bwrite dbuf ;;
  whenM (negb recovering) (bunpin dbuf) ;;
  brelse lbuf ;;
  brelse dbuf.

Lemma install_rest_copy rec s bl V R t :
  log_at LS s bl -> cache s [] V R -> room R -> 0 <= t < Z.of_nat (length bl) ->
  install_rest rec t s = install_copy rec (LS + t + 1) (zget bl t) s.
Proof.
  intros Hla Hc Hr Ht. pose proof (to_fit _ _ _ (la_trans _ _ _ Hla)) as Hfit.
  change (Z.to_nat LOGBLOCKS) with 30%nat in Hfit. assert (LOGBLOCKS = 30) as HL by done.
  destruct (area_in s bl Hla (t + 1)) as [Hlb _]; [lia|]. rewrite Z.add_assoc in Hlb.
  unfold install_rest, install_copy. erewrite bind_ok by (by eapply log_dev_run).
  erewrite bind_ok by (eapply log_blockno_run; [exact Hla|lia]). rewrite Z.add_assoc.
  destruct (bs_read s [] V R (LS + t + 1) Hc Hlb) as (lbuf & s1 & E1 & F1 & D1 & C1);
    [set_solver|by left|].
  pose proof (log_at_wrote _ _ _ _ Hla (wrote_nil _ _ F1 D1)) as Hla1.
  rewrite !(bind_ok _ _ _ _ _ E1). by erewrite bind_ok by (by eapply lh_block_run).
Qed.

Lemma pinned_drop bl t m :
  NoDup bl -> 0 <= t < Z.of_nat (length bl) ->
  bump (pinned (drop (Z.to_nat t) bl)) (zget bl t) (-1) m = pinned (drop (Z.to_nat (t + 1)) bl) m.
Proof.
  intros Hnd Ht. replace (Z.to_nat (t + 1)) with (S (Z.to_nat t)) by lia.
  destruct (lookup_lt_is_Some_2 bl (Z.to_nat t)) as [x Hx]; [lia|].
  assert (zget bl t = x) as -> by (unfold zget; by rewrite Hx).
  pose proof (drop_S bl x _ Hx) as E.
  assert (NoDup (x :: drop (S (Z.to_nat t)) bl)) as Hnd'.
  { rewrite <-E. rewrite <-(take_drop (Z.to_nat t) bl) in Hnd.
    apply NoDup_app in Hnd as (_ & _ & Hnd). exact Hnd. }
  apply NoDup_cons in Hnd' as [Hx' _]. unfold bump, pinned. rewrite E.
  destruct (decide (m = x)) as [->|Hne].
  - rewrite decide_True by set_solver. rewrite decide_False by done. done.
  - destruct (decide (m ∈ drop (S (Z.to_nat t)) bl)) as [Hi|Hi].
    + rewrite decide_True by set_solver. done.
    + rewrite decide_False by set_solver. done.
Qed.

Lemma length_drop_le {A} n (l : list A) : (length (drop n l) <= length l)%nat.
Proof. rewrite length_drop. lia. Qed.

(** installing a committed transaction: blocks [t..] are still pinned, and
    their content is already the one in the log *)
Lemma install_loop bl V0 j : forall t s V,
  log_at LS s bl -> cache s [] V (pinned (drop (Z.to_nat t) bl)) -> (length bl < HEAD)%nat ->
  0 <= t -> t + Z.of_nat j = Z.of_nat (length bl) ->
  (forall u, t <= u < Z.of_nat (length bl) ->
     V (LS + u + 1) = V0 (zget bl u) /\ disk_block s (LS + u + 1) = V0 (zget bl u)) ->
  exists s' V', forM_ (zseq t j) (install_one false) s = Ok tt s' /\
    wrote s s' (map (fun u => (Z.to_nat (zget bl u), V0 (zget bl u))) (zseq t j)) /\
    cache s' [] V' (fun _ => 0) /\
    (forall m, V' m = if decide (m ∈ drop (Z.to_nat t) bl) then V0 m else V m).
Proof.
  induction j as [|j IH]; intros t s V Hla Hc Hlt Ht Hj Hlog.
  { exists s, V. rewrite drop_ge in * by lia. split_and!; [done|by apply wrote_nil| |done].
    eapply bs_ext; [exact Hc|done|done]. }
  assert (Htl : 0 <= t < Z.of_nat (length bl)) by lia.
  pose proof (to_fit _ _ _ (la_trans _ _ _ Hla)) as Hfit.
  change (Z.to_nat LOGBLOCKS) with 30%nat in Hfit. assert (LOGBLOCKS = 30) as HL by done.
  destruct (area_in s bl Hla (t + 1)) as [Hlb Hin]; [lia|]. rewrite Z.add_assoc in Hlb, Hin.
  destruct (home_in s bl Hla t Htl) as [Hhb Hnl].
  assert (Hne : LS + t + 1 <> zget bl t) by (intros E; by rewrite E in Hin).
  assert (Hx : bl !! Z.to_nat t = Some (zget bl t)).
  { unfold zget. destruct (lookup_lt_is_Some_2 bl (Z.to_nat t)) as [x Hx]; [lia|]. by rewrite Hx. }
  pose proof (drop_S bl _ _ Hx) as Edrop.
  assert (Hp : pinned (drop (Z.to_nat t) bl) (zget bl t) = 1).
  { unfold pinned. rewrite Edrop, decide_True by set_solver. done. }
  pose proof (length_drop_le (Z.to_nat t) bl) as Hdl.
  assert (Hroom : room (pinned (drop (Z.to_nat t) bl))) by (apply pinned_room; lia).
  destruct (Hlog t ltac:(lia)) as [HVl HDl].
  destruct (install_copy_run false s V _ (LS + t + 1) (zget bl t) Hc Hlb Hhb Hne)
    as (s1 & E1 & W1 & C1); [done|right; lia|by rewrite HDl|lia|lia|].
  rewrite zseq_cons. cbn [forM_ map].
  assert (E1' : install_one false t s = Ok tt s1).
  { transitivity (install_rest false t s); [|by rewrite (install_rest_copy false s bl V _ t Hla Hc)].
    unfold install_one. erewrite bind_ok by (by eapply lh_block_run). cbn [whenM]. mstep. done. }
  erewrite bind_ok by exact E1'. rewrite HVl in W1, C1.
  pose proof (to_nodup _ _ _ (la_trans _ _ _ Hla)) as Hnd.
  destruct (IH (t + 1) s1 (vset V (zget bl t) (V0 (zget bl t)))) as (s2 & V2 & E2 & W2 & C2 & G2).
  - by eapply log_at_wrote.
  - eapply bs_ext; [exact C1|done|]. intros m. symmetry. by apply pinned_drop.
  - done.
  - lia.
  - lia.
  - intros u Hu. destruct (Hlog u ltac:(lia)) as [G1 G2].
    destruct (area_in s bl Hla (u + 1)) as [Hu' Hul]; [lia|]. rewrite Z.add_assoc in Hu', Hul.
    assert (Hne' : LS + u + 1 <> zget bl t) by (intros E; by rewrite E in Hul).
    split.
    + unfold vset. by rewrite decide_False.
    + rewrite <-G2. unfold disk_block. rewrite (wr_disk _ _ _ W1). cbn.
      destruct (Z.ltb_spec (LS + u + 1) 0); [lia|]. by rewrite list_lookup_insert_ne by lia.
  - exists s2, V2. split; [done|]. split; [exact (wrote_trans _ _ _ _ _ W1 W2)|]. split; [done|].
    intros m. rewrite G2. replace (Z.to_nat (t + 1)) with (S (Z.to_nat t)) by lia.
    rewrite Edrop. unfold vset.
    destruct (decide (m ∈ drop (S (Z.to_nat t)) bl)) as [Hi|Hi].
    + rewrite decide_True by set_solver. done.
    + destruct (decide (m = zget bl t)) as [->|Hm].
      * by rewrite decide_True by set_solver.
      * by rewrite decide_False by set_solver.
Qed.

(** ** commit *)

Lemma disk_block_dget s n : 0 <= n -> disk_block s n = dget (k_disk s) n.
Proof. intros Hn. unfold disk_block, dget. by destruct (Z.ltb_spec n 0); [lia|]. Qed.

Lemma log_at_clear s bl : log_at LS s bl -> log_at LS (set_log (l_set_n (fun _ => 0)) s) [].
Proof.
  intros [H1 H2 H3 H4 H5 [T1 T2 T3 T4 T5 T6]]. split; try done. split; try done.
  - simpl. lia.
  - constructor.
Qed.

(** a commit performs [commit_writes], in that order, and leaves the log
    empty and every block unreferenced *)
Lemma commit_run s bl V :
  log_at LS s bl -> cache s [] V (pinned bl) -> (0 < length bl < HEAD)%nat ->
  exists s' V', commit s = Ok tt s' /\
    wrote (set_log (l_set_n (fun _ => 0)) s) s' (commit_writes LS (dget (k_disk s) LS) bl V) /\
    cache s' [] V' (fun _ => 0) /\ log_at LS s' [] /\ (forall m, ~ in_log LS m -> V' m = V m).
Proof.
  intros Hla Hc [Hpos Hlt]. destruct (area_in s bl Hla 0) as [HLS HinLS]; [done|].
  rewrite Z.add_0_r in HLS, HinLS. assert (LOGBLOCKS = 30) as HL by done.
  pose proof (la_trans _ _ _ Hla) as Hok.
  assert (HVLS : V LS = dget (k_disk s) LS).
  { rewrite <-disk_block_dget by lia. eapply bs_clean; [exact Hc|]. unfold pinned.
    rewrite decide_False; [done|]. intros Hin. by destruct (home_range LS (k_disk s) bl Hok LS Hin). }
  unfold commit, lh_n. rewrite bind_gets, (la_n _ _ _ Hla).
  destruct (Z.ltb_spec 0 (Z.of_nat (length bl))) as [_|]; [|lia]. cbn [whenM].
  (* the log blocks *)
  destruct (write_log_loop bl V (length bl) 0 s V Hla Hc Hlt) as (s1 & V1 & E1 & W1 & C1 & G1 & G1');
    [done|lia|lia|].
  assert (E1' : write_log s = Ok tt s1) by (unfold write_log; by rewrite (for_lh_run s bl Hla)).
  erewrite bind_ok by exact E1'. pose proof (log_at_wrote _ _ _ _ Hla W1) as Hla1.
  (* the header: the commit point *)
  destruct (write_head_run s1 bl V1 (pinned bl) Hla1 C1) as (s2 & E2 & W2 & C2); [by apply pinned_room|].
  erewrite bind_ok by exact E2. pose proof (log_at_wrote _ _ _ _ Hla1 W2) as Hla2.
  rewrite (G1 LS), HVLS in W2, C2 by lia. set (h := dget (k_disk s) LS) in *.
  (* the home blocks *)
  destruct (install_loop bl V (length bl) 0 s2 (vset V1 LS (head_bytes h bl)))
    as (s3 & V3 & E3 & W3 & C3 & G3); [done|done|done|lia|lia| |].
  { intros u Hu. destruct (area_in s bl Hla (u + 1)) as [Hu' _].
    { pose proof (to_fit _ _ _ Hok). change (Z.to_nat LOGBLOCKS) with 30%nat in *. lia. }
    rewrite Z.add_assoc in Hu'. split.
    - unfold vset. rewrite decide_False by lia. apply G1'. lia.
    - rewrite disk_block_dget by lia. rewrite (wr_disk _ _ _ W2). cbn [apply_writes foldl fst snd].
      unfold dget. rewrite list_lookup_insert_ne by lia. rewrite (wr_disk _ _ _ W1).
      by apply (log_writes_spec LS (k_disk s) bl V Hok (k_disk s) u). }
  assert (E3' : install_trans false s2 = Ok tt s3)
    by (unfold install_trans; by rewrite (for_lh_run s2 bl Hla2)).
  erewrite bind_ok by exact E3'. pose proof (log_at_wrote _ _ _ _ Hla2 W3) as Hla3.
  unfold set_lh_n. rewrite bind_modify. set (s3' := set_log _ s3).
  (* the header again, empty *)
  destruct (write_head_run s3' [] V3 (fun _ => 0)) as (s4 & E4 & W4 & C4).
  { by eapply log_at_clear. } { by eapply bs_frame. } { exists []. split; [done|]. change HEAD with 30%nat. simpl. lia. }
  assert (HV3 : V3 LS = head_bytes h bl).
  { rewrite G3, drop_0. destruct (decide (LS ∈ bl)) as [Hin|_].
    - by destruct (home_range LS (k_disk s) bl Hok LS Hin).
    - unfold vset. by rewrite decide_True. }
  rewrite HV3 in W4, C4.
  exists s4, (vset V3 LS (head_bytes (head_bytes h bl) [])). split; [exact E4|]. split_and!.
  - pose proof (wrote_trans _ _ _ _ _ W1 (wrote_trans _ _ _ _ _ W2 W3)) as [F D Hh].
    destruct W4 as [F4 D4 H4]. split.
    + transitivity s3'; [|done]. unfold s3'. rewrite F. done.
    + rewrite D4. change (k_disk s3') with (k_disk s3). rewrite D. rewrite <-apply_writes_app.
      unfold commit_writes. by rewrite <-!app_assoc.
    + rewrite H4. change (k_writes s3') with (k_writes s3). rewrite Hh. unfold commit_writes.
      by rewrite <-!app_assoc.
  - done.
  - eapply log_at_wrote; [|exact W4]. by eapply log_at_clear.
  - intros m Hm. unfold vset. rewrite decide_False by (by intros ->). rewrite G3, drop_0.
    destruct (decide (m ∈ bl)); [done|]. unfold vset. rewrite decide_False by (by intros ->).
    apply G1. unfold in_log in Hm. pose proof (to_fit _ _ _ Hok).
    change (Z.to_nat LOGBLOCKS) with 30%nat in *. lia.
Qed.

(** ** Recovery *)

(** the log is configured for the device; what it holds does not matter *)
Definition log_cfg (s : kstate) : Prop := log_at LS (set_log (l_set_n (fun _ => 0)) s) [].

Lemma read_head_loop lh n s :
  (n <= 30)%nat ->
  forM_ (zseq 0 n) (fun i => set_lh_block i (get32 lh (4 + 4 * i))) s =
  Ok tt (set_log (l_set_block (fun b => foldl (fun b i => zput b i (head_block lh i)) b (zseq 0 n))) s).
Proof.
  intros Hn.
  etransitivity.
  { apply (forM_run (fun _ => True) _
      (fun i => set_log (l_set_block (fun b => zput b i (head_block lh i))))); [|done|done].
    intros i t Hi _. apply elem_of_zseq in Hi. unfold set_lh_block.
    destruct (Z.ltb_spec i LOGBLOCKS) as [_|Hge]; [done|]. change LOGBLOCKS with 30 in Hge. lia. }
  f_equal. clear Hn. revert s. induction (zseq 0 n) as [|i l IH]; intros s; cbn [foldl].
  - destruct (k_log s) as [] eqn:E. unfold set_log, l_set_block. rewrite E. cbn. rewrite <-E. done.
  - by rewrite IH.
Qed.

Lemma read_head_run s V R :
  log_cfg s -> cache s [] V R -> room R -> V LS = disk_block s LS ->
  0 <= head_n (V LS) -> trans_ok LS (k_disk s) (head_list (V LS)) ->
  exists s', read_head s = Ok tt s' /\ log_at LS s' (head_list (V LS)) /\ cache s' [] V R /\
    same_disk s s' /\ io_frame (set_log (fun _ => k_log s') s) s'.
Proof.
  intros Hcfg Hc Hr Hclean Hn0 Hok. destruct (area_in _ _ Hcfg 0) as [HLS _]; [done|].
  rewrite Z.add_0_r in HLS. change (disk_len (set_log _ s)) with (disk_len s) in HLS.
  pose proof (to_fit _ _ _ Hok) as Hfit. change (Z.to_nat LOGBLOCKS) with 30%nat in Hfit.
  rewrite length_head_list in Hfit.
  unfold read_head. erewrite bind_ok.
  2: { unfold log_dev, get_log. mstep. pose proof (la_dev _ _ _ Hcfg) as E.
       change (l_dev (k_log s) = ROOTDEV) in E. by rewrite E. }
  erewrite bind_ok.
  2: { unfold log_blockno, get_log. mstep. pose proof (la_start _ _ _ Hcfg) as E.
       change (l_start (k_log s) = LS) in E. by rewrite E. }
  change (u32 ROOTDEV) with ROOTDEV. rewrite Z.add_0_r, u32_small.
  2: { pose proof (to_size _ _ _ Hok). unfold disk_len in HLS. lia. }
  destruct (bs_read s [] V R LS Hc HLS) as (b & s1 & E1 & F1 & D1 & C1); [set_solver|by left|].
  erewrite bind_ok by exact E1.
  erewrite bind_ok by (eapply (bs_data _ _ _ _ b LS); [exact C1|set_solver]).
  unfold set_lh_n. rewrite bind_modify. change (s32 (get32 (V LS) 0)) with (head_n (V LS)).
  set (s2 := set_log _ s1). set (n := Z.to_nat (head_n (V LS))) in *.
  assert (E2 : for_lh (fun i => set_lh_block i (get32 (V LS) (4 + 4 * i))) s2 =
    Ok tt (set_log (l_set_block (fun b => foldl (fun b i => zput b i (head_block (V LS) i)) b (zseq 0 n))) s2)).
  { unfold for_lh, lh_n. mstep. by apply read_head_loop. }
  erewrite bind_ok by exact E2. set (s3 := set_log _ s2).
  assert (C3 : cache s3 [(b, LS)] V (bump R LS 1)) by (by eapply bs_frame).
  destruct (bs_release s3 [(b, LS)] [] V _ b LS C3) as (s4 & E4 & F4 & D4 & C4); [done|..].
  { right. rewrite Hclean. unfold disk_block. by rewrite <-(proj1 D1). }
  exists s4. split; [exact E4|].
  assert (Hl : k_log s4 = k_log s3) by (by apply io_frame_log).
  assert (Hd : k_disk s4 = k_disk s) by (rewrite (proj1 D4); apply D1).
  assert (Hl1 : k_log s1 = k_log s) by (by apply io_frame_log).
  split_and!.
  - split; rewrite ?Hl, ?Hd; try done.
    + change (l_dev (k_log s1) = ROOTDEV). rewrite Hl1. exact (la_dev _ _ _ Hcfg).
    + change (l_start (k_log s1) = LS). rewrite Hl1. exact (la_start _ _ _ Hcfg).
    + change (head_n (V LS) = Z.of_nat (length (head_list (V LS)))). rewrite length_head_list.
      lia.
    + change (length (foldl (fun b i => zput b i (head_block (V LS) i)) (l_block (k_log s1)) (zseq 0 n))
              = Z.to_nat LOGBLOCKS).
      rewrite length_foldl_zput, Hl1. exact (la_len _ _ _ Hcfg).
    + rewrite length_head_list. apply take_foldl_zput. 
      change (n <= length (l_block (k_log s1)))%nat. rewrite Hl1.
      pose proof (la_len _ _ _ Hcfg) as E. change (length (l_block (k_log s)) = 30%nat) in E. lia.
  - eapply bs_ext; [exact C4|done|]. intros m. by rewrite bump_bump, bump_0.
  - destruct D1, D4. split; [done|]. etransitivity; [done|]. done.
  - transitivity s3; [|done]. rewrite Hl. unfold s3, s2. rewrite F1. done.
Qed.

(** the console can be printed to *)
Definition can_print (s : kstate) : Prop :=
  hart_ok (k_hart s) /\ h_locks (k_hart s) !! LPr = None /\ quiet_uart s.

(** disk effects of code that also prints [o] *)
Definition wrote_out (s s' : kstate) (ws : list (nat * list Z)) : Prop :=
  exists o, wrote (emit o s) s' ws.

Lemma wrote_out_trans s1 s2 s3 w1 w2 :
  wrote_out s1 s2 w1 -> wrote_out s2 s3 w2 -> wrote_out s1 s3 (w1 ++ w2).
Proof.
  intros [o W1] [o' [F D Hh]]. exists (o ++ o').
  assert (W1' : wrote (emit (o ++ o') s1) (emit o' s2) w1).
  { destruct W1 as [F1 D1 H1]. split; [|done|done]. rewrite <-emit_app. unfold io_frame.
    rewrite F1. done. }
  eapply wrote_trans; [exact W1'|]. by split.
Qed.

Lemma can_print_out s s' ws : can_print s -> wrote_out s s' ws -> can_print s'.
Proof.
  intros (H1 & H2 & H3 & H4) [o [F _ _]]. unfold can_print, quiet_uart.
  rewrite (io_frame_hart _ _ F), (io_frame_uart _ _ F). done.
Qed.

Lemma log_at_out s s' ws bl : log_at LS s bl -> wrote_out s s' ws -> log_at LS s' bl.
Proof. intros Hla [o W]. eapply log_at_wrote; [|exact W]. by destruct Hla. Qed.

Lemma room_zero : room (fun _ => 0).
Proof. exists []. split; [done|]. change HEAD with 30%nat. simpl. lia. Qed.

Lemma install_one_recover s bl V t :
  log_at LS s bl -> cache s [] V (fun _ => 0) -> can_print s -> 0 <= t < Z.of_nat (length bl) ->
  exists s', install_one true t s = Ok tt s' /\
    wrote_out s s' [(Z.to_nat (zget bl t), V (LS + t + 1))] /\
    cache s' [] (vset V (zget bl t) (V (LS + t + 1))) (fun _ => 0).
Proof.
  intros Hla Hc (P1 & P2 & P3) Ht. unfold install_one.
  erewrite bind_ok by (by eapply lh_block_run). cbn [whenM].
  destruct (printf_run "recovering tail %d dst %d\n" [VWord t; VWord (zget bl t)] s P1 P2 P3)
    as [o Eo]; [done|]. erewrite bind_ok by exact Eo.
  assert (Hla' : log_at LS (emit o s) bl) by (by destruct Hla).
  assert (Hc' : cache (emit o s) [] V (fun _ => 0)) by (by eapply bs_frame).
  pose proof (to_fit _ _ _ (la_trans _ _ _ Hla)) as Hfit.
  change (Z.to_nat LOGBLOCKS) with 30%nat in Hfit. assert (LOGBLOCKS = 30) as HL by done.
  destruct (area_in _ bl Hla' (t + 1)) as [Hlb Hin]; [lia|]. rewrite Z.add_assoc in Hlb, Hin.
  destruct (home_in _ bl Hla' t Ht) as [Hhb Hnl].
  assert (Hne : LS + t + 1 <> zget bl t) by (intros E; by rewrite E in Hin).
  destruct (install_copy_run true (emit o s) V (fun _ => 0) (LS + t + 1) (zget bl t) Hc' Hlb Hhb Hne)
    as (s1 & E1 & W1 & C1).
  - apply room_zero.
  - left. exists [LS + t + 1]. split; [|change HEAD with 30%nat; simpl; lia].
    intros m. unfold bump. destruct (decide (m = LS + t + 1)); [set_solver|lia].
  - by eapply bs_clean.
  - done.
  - lia.
  - exists s1. split; [|split; [by exists o|done]].
    rewrite <-E1, <-(install_rest_copy true (emit o s) bl V _ t Hla' Hc' room_zero Ht). done.
Qed.

Lemma recover_loop bl V0 j : forall t s V,
  log_at LS s bl -> cache s [] V (fun _ => 0) -> can_print s ->
  0 <= t -> t + Z.of_nat j = Z.of_nat (length bl) ->
  (forall u, t <= u < Z.of_nat (length bl) -> V (LS + u + 1) = V0 (LS + u + 1)) ->
  exists s' V', forM_ (zseq t j) (install_one true) s = Ok tt s' /\
    wrote_out s s' (map (fun u => (Z.to_nat (zget bl u), V0 (LS + u + 1))) (zseq t j)) /\
    cache s' [] V' (fun _ => 0).
Proof.
  induction j as [|j IH]; intros t s V Hla Hc Hp Ht Hj HV.
  { exists s, V. split_and!; [done| |done]. exists []. rewrite emit_nil. by apply wrote_nil. }
  rewrite zseq_cons. cbn [forM_ map].
  destruct (install_one_recover s bl V t Hla Hc Hp) as (s1 & E1 & W1 & C1); [lia|].
  erewrite bind_ok by exact E1. rewrite HV in W1, C1 by lia.
  pose proof (to_fit _ _ _ (la_trans _ _ _ Hla)) as Hfit.
  change (Z.to_nat LOGBLOCKS) with 30%nat in Hfit. assert (LOGBLOCKS = 30) as HL by done.
  destruct (IH (t + 1) s1 (vset V (zget bl t) (V0 (LS + t + 1)))) as (s2 & V2 & E2 & W2 & C2).
  - by eapply log_at_out.
  - done.
  - by eapply can_print_out.
  - lia.
  - lia.
  - intros u Hu. unfold vset. rewrite decide_False; [apply HV; lia|]. intros E.
    destruct (home_in s bl Hla t) as [_ Hnl]; [lia|]. apply Hnl. rewrite <-E.
    unfold in_log. lia.
  - exists s2, V2. split; [done|]. split; [|done]. exact (wrote_out_trans _ _ _ _ _ W1 W2).
Qed.

Lemma recover_run s V :
  log_cfg s -> cache s [] V (fun _ => 0) -> can_print s ->
  0 <= head_n (dget (k_disk s) LS) -> trans_ok LS (k_disk s) (head_list (dget (k_disk s) LS)) ->
  exists s' V', recover_from_log s = Ok tt s' /\ k_disk s' = recover_disk LS (k_disk s) /\
    k_writes s' = k_writes s ++ recover_writes LS (k_disk s) /\
    log_at LS s' [] /\ cache s' [] V' (fun _ => 0).
Proof.
  intros Hcfg Hc Hp Hn0 Hok. destruct (area_in _ _ Hcfg 0) as [HLS _]; [done|].
  rewrite Z.add_0_r in HLS.
  assert (HV : forall m, 0 <= m -> V m = dget (k_disk s) m).
  { intros m Hm. rewrite <-disk_block_dget by done. by eapply bs_clean. }
  set (h := dget (k_disk s) LS) in *. pose proof (HV LS ltac:(lia)) as HVLS. fold h in HVLS.
  destruct (read_head_run s V _ Hcfg Hc room_zero) as (s1 & E1 & Hla1 & C1 & D1 & F1).
  { by eapply bs_clean. } { by rewrite HVLS. } { by rewrite HVLS. }
  unfold recover_from_log. erewrite bind_ok by exact E1. rewrite HVLS in Hla1.
  destruct (recover_loop (head_list h) V (length (head_list h)) 0 s1 V Hla1 C1)
    as (s2 & V2 & E2 & W2 & C2); [|lia|lia|done|].
  { destruct Hp as (P1 & P2 & P3). unfold can_print, quiet_uart.
    by rewrite (io_frame_hart _ _ F1), (io_frame_uart _ _ F1). }
  erewrite bind_ok by (unfold install_trans; rewrite (for_lh_run s1 _ Hla1); exact E2).
  unfold set_lh_n. rewrite bind_modify. set (s3 := set_log _ s2).
  pose proof (log_at_out _ _ _ _ Hla1 W2) as Hla2.
  assert (C3 : cache s3 [] V2 (fun _ => 0)) by (by eapply bs_frame).
  assert (Hla3 : log_at LS s3 []) by (by eapply log_at_clear).
  destruct (write_head_run s3 [] V2 (fun _ => 0) Hla3 C3 room_zero) as (s4 & E4 & W4 & C4).
  destruct W2 as [o [F2 D2 H2]]. destruct D1 as [D1 D1'].
  change (k_disk (emit o s1)) with (k_disk s1) in D2.
  change (k_writes (emit o s1)) with (k_writes s1) in H2. rewrite D1 in D2. rewrite D1' in H2.
  assert (Hws : map (fun u => (Z.to_nat (zget (head_list h) u), V (LS + u + 1)))
                  (zseq 0 (length (head_list h))) = install_writes LS h (k_disk s)).
  { unfold install_writes. rewrite length_head_list. apply map_ext_in. intros u Hu.
    apply list_elem_of_In, elem_of_zseq in Hu. unfold head_list. rewrite zget_map_zseq by lia.
    rewrite HV by lia. done. }
  assert (HV2 : V2 LS = h).
  { transitivity (disk_block s2 LS); [by eapply bs_clean|]. rewrite disk_block_dget by lia.
    rewrite D2. apply dget_ne; [lia|]. intros w Hw. rewrite Hws in Hw.
    apply elem_map_zseq in Hw as (u & Hu & ->). simpl.
    assert (head_block h u ∈ head_list h) as Hin.
    { unfold head_list. by apply map_zseq_elem. }
    destruct (home_range LS (k_disk s) _ Hok _ Hin) as [Hr Hnl]. intros E. apply Hnl.
    replace (head_block h u) with LS by lia.
    unfold in_log. change LOGBLOCKS with 30. lia. }
  rewrite HV2 in W4, C4. rewrite Hws in D2, H2.
  exists s4, (vset V2 LS (head_bytes h [])). split; [exact E4|].
  destruct W4 as [F4 D4 H4]. change (k_disk s3) with (k_disk s2) in D4.
  change (k_writes s3) with (k_writes s2) in H4. split_and!.
  - rewrite D4, D2. unfold recover_disk, recover_writes. fold h. by rewrite apply_writes_app.
  - rewrite H4, H2. unfold recover_writes. fold h. by rewrite <-app_assoc.
  - eapply log_at_wrote; [exact Hla3|]. by split.
  - done.
Qed.
End log.
