(* ===== verification/LogOps.v ===== *)
(** The transaction operations of log.c over the interface of BlockStore.v:
    begin_op's reservation, log_write's absorption, end_op's commit; and the
    properties of the log. *)

From stdpp Require Import base gmap strings numbers list.
From S2P Require Import Prelude KState KString Spinlock Printf ProcSync SyncSpec Bio BioRing BioSpec.
From S2P Require Import BlockStore Log LogDisk LogSpec.

(** * begin_op *)

Lemma begin_op_run s :
  lock_free LLog s -> l_committing (k_log s) = 0 ->
  l_n (k_log s) + (l_outstanding (k_log s) + 1) * MAXOPBLOCKS <= LOGBLOCKS ->
  begin_op s = Ok tt (set_log (l_set_outstanding (fun n => n + 1)) s).
Proof.
  intros [Hok Hl] Hc Hfit. unfold begin_op. erewrite bind_ok by (apply acquire_run; by split).
  destruct WAKEUPS_S as [n ->]. apply whileM_stop. unfold begin_op_body, get_log. mstep.
  change (k_log (set_hart _ s)) with (k_log s). rewrite Hc. cbn [nz negb Z.eqb].
  change (nz 0) with false. cbv iota.
  destruct (Z.ltb_spec LOGBLOCKS (l_n (k_log s) + (l_outstanding (k_log s) + 1) * MAXOPBLOCKS)); [lia|].
  mstep. erewrite bind_ok by (by apply (release_locked LLog _ (k_hart s))). done.
Qed.

(** otherwise it goes to sleep on the log, having given the lock back *)
Lemma begin_op_waits s p :
  lock_free LLog s -> h_noff (k_hart s) = 0 -> h_proc (k_hart s) = Some p ->
  h_locks (k_hart s) !! LProc p = None -> is_Some (k_procs s !! p) ->
  l_committing (k_log s) <> 0 \/
  LOGBLOCKS < l_n (k_log s) + (l_outstanding (k_log s) + 1) * MAXOPBLOCKS ->
  exists s1 k q, begin_op s = Susp s1 k /\ k_log s1 = k_log s /\
    h_locks (k_hart s1) !! LLog = None /\
    k_procs s1 !! p = Some q /\ p_state q = SLEEPING /\ p_chan q = ChLog.
Proof.
  intros [Hok Hl] Hn Hp Hlp [pr Hpr] Hw. unfold begin_op.
  erewrite bind_ok by (apply acquire_run; by split). set (s0 := set_hart (hart_lock LLog) s).
  destruct (sleep_run ChLog LLog p s0 (k_hart s)) as (k & E & _); try done.
  destruct WAKEUPS_S as [n ->]. cbn [whileM].
  assert (Hb : begin_op_body tt s0 = (sleep ChLog LLog ;; ret (inl tt)) s0).
  { unfold begin_op_body, get_log. mstep. change (k_log s0) with (k_log s).
    destruct (nz (l_committing (k_log s))) eqn:Ec; [done|]. apply nz_false in Ec.
    destruct (Z.ltb_spec LOGBLOCKS (l_n (k_log s) + (l_outstanding (k_log s) + 1) * MAXOPBLOCKS));
      [done|]. destruct Hw; [done|lia]. }
  unfold bind at 1. rewrite Hb. unfold bind at 1. rewrite E. cbn [rbind].
  eexists _, _, _. split; [reflexivity|]. split_and!.
  - done.
  - ksimp. rewrite hart_lock_locks, lookup_insert_ne by done. exact Hl.
  - ksimp. rewrite list_lookup_alter_eq. change (k_procs s0) with (k_procs s). by rewrite Hpr.
  - done.
  - done.
Qed.

(** * log_write *)

Lemma absorb_spec bl no : forall i n,
  (absorb bl no i n <= i + n)%nat /\
  ((absorb bl no i n < i + n)%nat -> zget bl (Z.of_nat (absorb bl no i n)) = no) /\
  (forall j, (i <= j < absorb bl no i n)%nat -> zget bl (Z.of_nat j) <> no).
Proof.
  intros i n. revert i. induction n as [|n IH]; intros i; cbn [absorb].
  { split_and!; lia. }
  destruct (Z.eqb_spec (zget bl (Z.of_nat i)) no) as [E|E].
  { split_and!; [lia|done|lia]. }
  destruct (IH (S i)) as (H1 & H2 & H3). split_and!; [lia|intros; apply H2; lia|].
  intros j Hj. destruct (decide (j = i)) as [->|]; [done|]. apply H3. lia.
Qed.

(** the index log_write uses: that of the block, or the end of the list *)
Lemma absorb_index blocks bl no :
  take (length bl) blocks = bl ->
  let i := absorb blocks no 0 (length bl) in
  (no ∈ bl -> (i < length bl)%nat /\ blocks !! i = Some no) /\ (no ∉ bl -> i = length bl).
Proof.
  intros Ht i. destruct (absorb_spec blocks no 0 (length bl)) as (H1 & H2 & H3). fold i in H1, H2, H3.
  assert (Hb : forall j, (j < length bl)%nat -> bl !! j = Some (zget blocks (Z.of_nat j)) /\
                blocks !! j = Some (zget blocks (Z.of_nat j))).
  { intros j Hj. destruct (lookup_lt_is_Some_2 bl j Hj) as [x Hx].
    assert (blocks !! j = Some x) as E by (rewrite <-Ht, lookup_take_lt in Hx by done; done).
    unfold zget. by rewrite Nat2Z.id, E, Hx. }
  split; intros Hin.
  - assert (i < length bl)%nat as Hlt.
    { destruct (decide (i < length bl)%nat) as [|Hge]; [done|]. exfalso.
      apply list_elem_of_lookup in Hin as [j Hj]. pose proof (lookup_lt_Some _ _ _ Hj) as Hjl.
      apply (H3 j); [lia|]. destruct (Hb j Hjl) as [E _]. congruence. }
    split; [done|]. rewrite (proj2 (Hb i Hlt)). f_equal. apply H2. lia.
  - destruct (decide (i < length bl)%nat) as [Hlt|]; [|lia]. exfalso. apply Hin.
    rewrite <-(H2 ltac:(lia)). eapply list_elem_of_lookup_2. by apply Hb.
Qed.

Section ops.
Context {cache} `{BS : BlockStore cache}.
Context (LS : Z).

(** entering and leaving a critical section of the log lock *)
Lemma cache_lock s H V R :
  cache s H V R -> hart_ok (k_hart s) -> cache (set_hart (hart_lock LLog) s) H V R.
Proof.
  intros Hc Hh. apply (bs_hart s H V R (hart_lock LLog (k_hart s)) Hc); [by apply hart_lock_ok|done|].
  intros l Hl. rewrite hart_lock_locks, lookup_insert_ne; [done|]. by intros <-.
Qed.

Lemma cache_unlock s H V R h :
  cache s H V R -> k_hart s = hart_lock LLog h -> hart_ok h -> cache (set_hart (fun _ => h) s) H V R.
Proof.
  intros Hc Hs Hh. apply (bs_hart s H V R h Hc); [done|by rewrite Hs|].
  intros l Hl. rewrite Hs, hart_lock_locks, lookup_insert_ne; [done|]. by intros <-.
Qed.

Lemma log_at_log s s' bl :
  log_at LS s bl -> l_dev (k_log s') = l_dev (k_log s) -> l_start (k_log s') = l_start (k_log s) ->
  l_n (k_log s') = l_n (k_log s) -> l_block (k_log s') = l_block (k_log s) ->
  k_disk s' = k_disk s -> log_at LS s' bl.
Proof. intros [H1 H2 H3 H4 H5 H6] E1 E2 E3 E4 E5. split; rewrite ?E1, ?E2, ?E3, ?E4, ?E5; done. Qed.

(** the log with one more block *)
Lemma log_at_snoc s s' bl n :
  log_at LS s bl -> (length bl < 30)%nat -> n ∉ bl -> 0 <= n < disk_len s -> ~ in_log LS n ->
  l_dev (k_log s') = l_dev (k_log s) -> l_start (k_log s') = l_start (k_log s) ->
  l_n (k_log s') = l_n (k_log s) + 1 ->
  l_block (k_log s') = zput (l_block (k_log s)) (Z.of_nat (length bl)) n ->
  k_disk s' = k_disk s -> log_at LS s' (bl ++ [n]).
Proof.
  intros [H1 H2 H3 H4 H5 [T1 T2 T3 T4 T5 T6]] Hlt Hn Hr Hnl E1 E2 E3 E4 E5.
  change (Z.to_nat LOGBLOCKS) with 30%nat in *.
  split; rewrite ?E1, ?E2, ?E3, ?E4, ?E5; try done.
  - rewrite H3, length_app. simpl. lia.
  - by rewrite length_zput.
  - rewrite length_app. simpl. unfold zput. rewrite Nat2Z.id, Nat.add_1_r, (take_S_r _ _ n).
    + by rewrite take_insert_ge, H5 by lia.
    + apply list_lookup_insert_eq. lia.
  - split; try done.
    + rewrite length_app. simpl. change (Z.to_nat LOGBLOCKS) with 30%nat. lia.
    + apply NoDup_app. split; [done|]. split; [|apply NoDup_singleton].
      intros x Hx ->%list_elem_of_singleton. done.
    + apply Forall_app. split; [done|]. apply Forall_singleton. done.
Qed.

Lemma log_write_run s bl H V R i n :
  log_at LS s bl -> cache s H V R -> (i, n) ∈ H -> lock_free LLog s ->
  (length bl < 30)%nat -> 1 <= l_outstanding (k_log s) ->
  0 <= n < disk_len s -> ~ in_log LS n ->
  exists s', log_write i s = Ok tt s' /\ io_frame (set_log (fun _ => k_log s') s) s' /\ same_disk s s' /\
    l_outstanding (k_log s') = l_outstanding (k_log s) /\
    l_committing (k_log s') = l_committing (k_log s) /\
    log_at LS s' (if decide (n ∈ bl) then bl else bl ++ [n]) /\
    cache s' H V (if decide (n ∈ bl) then R else bump R n 1).
Proof.
  intros Hla Hc Hin [Hok Hl] Hlt Hout Hn Hnl. unfold log_write.
  erewrite bind_ok by (apply acquire_run; by split). set (s0 := set_hart (hart_lock LLog) s).
  assert (C0 : cache s0 H V R) by (by apply cache_lock).
  unfold get_log. mstep. change (k_log s0) with (k_log s).
  rewrite (la_n _ _ _ Hla). destruct (Z.leb_spec LOGBLOCKS (Z.of_nat (length bl))) as [Hge|_].
  { change LOGBLOCKS with 30 in Hge. lia. }
  destruct (Z.ltb_spec (l_outstanding (k_log s)) 1); [lia|].
  destruct (bs_blockno s0 H V R i n C0 Hin) as (b & Hb & Hbn).
  erewrite bind_ok by (apply get_buf_ok; exact Hb). rewrite Hbn, Nat2Z.id.
  destruct (absorb_index _ bl n (la_block _ _ _ Hla)) as [Ain Aout].
  set (k := absorb _ _ _ _) in *. pose proof (la_len _ _ _ Hla) as Hlen.
  change (Z.to_nat LOGBLOCKS) with 30%nat in Hlen.
  assert (Hk : (k <= length bl)%nat) by (destruct (decide (n ∈ bl)) as [E|E];
    [destruct (Ain E); lia|rewrite (Aout E); lia]).
  unfold set_lh_block. destruct (Z.ltb_spec (Z.of_nat k) LOGBLOCKS) as [_|Hge];
    [|change LOGBLOCKS with 30 in Hge; lia]. mstep. set (s1 := set_log _ s0).
  assert (C1 : cache s1 H V R) by (by eapply bs_frame).
  destruct (decide (n ∈ bl)) as [E|E].
  - destruct (Ain E) as [Hkl Hbk]. destruct (Z.eqb_spec (Z.of_nat k) (Z.of_nat (length bl))); [lia|].
    cbn [whenM]. mstep. rewrite (release_locked LLog s1 (k_hart s)) by done.
    eexists. split; [done|]. split_and!; try done.
    + eapply log_at_log; [exact Hla|done|done|done| |done].
      change (zput (l_block (k_log s)) (Z.of_nat k) n = l_block (k_log s)). unfold zput.
      rewrite Nat2Z.id. by apply list_insert_id.
    + by apply cache_unlock.
  - specialize (Aout E). destruct (Z.eqb_spec (Z.of_nat k) (Z.of_nat (length bl))); [|lia].
    cbn [whenM]. destruct (bs_pin s1 H V R i n C1 Hin) as (s2 & E2 & F2 & D2 & C2).
    assert (Em : (bpin i ;; modify (set_log (l_set_n (fun x => x + 1)))) s1 =
                 Ok tt (set_log (l_set_n (fun x => x + 1)) s2)) by (by erewrite bind_ok).
    erewrite bind_ok by exact Em. set (s3 := set_log _ s2).
    assert (Hh3 : k_hart s3 = hart_lock LLog (k_hart s)) by (apply (io_frame_hart _ _ F2)).
    assert (Hl3 : k_log s3 = l_set_n (fun x => x + 1) (k_log s1))
      by (unfold s3; ksimp; f_equal; apply (io_frame_log _ _ F2)).
    rewrite (release_locked LLog s3 (k_hart s)) by done.
    eexists. split; [done|]. split_and!; ksimp; try done; rewrite ?Hl3; try done.
    + unfold s3. rewrite F2. done.
    + eapply (log_at_snoc s); [exact Hla|done|done|done|done|..]; ksimp; rewrite ?Hl3; try done.
      * unfold s1. cbn. by rewrite Aout.
      * apply D2.
    + apply cache_unlock; [|done|done]. by eapply bs_frame.
Qed.

(** ** end_op *)

Lemma end_op_not_last s H V R :
  cache s H V R -> lock_free LLog s ->
  l_committing (k_log s) = 0 -> l_outstanding (k_log s) <> 1 ->
  end_op s = Ok tt (set_procs (imap (wake ChLog (h_proc (k_hart s))))
                      (set_log (l_set_outstanding (fun n => n - 1)) s)).
Proof.
  intros Hc [Hok Hl] H0 H1. unfold end_op. erewrite bind_ok by (apply acquire_run; by split).
  mstep. unfold get_log. mstep. set (s0 := set_log _ _).
  change (l_committing (k_log s0)) with (l_committing (k_log s)).
  change (l_outstanding (k_log s0)) with (l_outstanding (k_log s) - 1). rewrite H0.
  change (nz 0) with false. cbv iota.
  destruct (Z.eqb_spec (l_outstanding (k_log s) - 1) 0); [lia|].
  assert (C0 : cache s0 H V R) by (eapply bs_frame; [by apply cache_lock|done..]).
  assert (E1 : (wakeup ChLog ;; ret false) s0 =
    Ok false (set_procs (imap (wake ChLog (h_proc (k_hart s0)))) s0)).
  { erewrite bind_ok by (apply wakeup_run; by eapply bs_procs). done. }
  erewrite bind_ok by exact E1.
  erewrite bind_ok by (by apply (release_locked LLog _ (k_hart s))). done.
Qed.

(** commit, an empty transaction included: the home blocks end up with
    their cached contents *)
Lemma commit_any s bl V :
  log_at LS s bl -> cache s [] V (pinned bl) -> (length bl < HEAD)%nat ->
  exists s' V', commit s = Ok tt s' /\ k_hart s' = k_hart s /\
    k_log s' = l_set_n (fun _ => 0) (k_log s) /\ log_at LS s' [] /\
    cache s' [] V' (fun _ => 0) /\ (forall m, ~ in_log LS m -> V' m = V m).
Proof.
  intros Hla Hc Hlt. destruct bl as [|x bl].
  - exists s, V. unfold commit, lh_n. rewrite bind_gets, (la_n _ _ _ Hla). cbn [length whenM].
    split_and!; try done. pose proof (la_n _ _ _ Hla) as Hn. destruct (k_log s). cbn in Hn. by rewrite Hn.
  - destruct (commit_run LS s (x :: bl) V Hla Hc) as (s' & V' & E & W & C & L & G).
    { simpl in *. lia. }
    pose proof (wr_frame _ _ _ W) as F. exists s', V'. split_and!; try done.
    + by rewrite (io_frame_hart _ _ F).
    + by rewrite (io_frame_log _ _ F).
Qed.

Lemma end_op_last s bl V :
  log_at LS s bl -> cache s [] V (pinned bl) -> (length bl < HEAD)%nat -> lock_free LLog s ->
  l_committing (k_log s) = 0 -> l_outstanding (k_log s) = 1 ->
  exists s' V', end_op s = Ok tt s' /\ k_hart s' = k_hart s /\
    l_outstanding (k_log s') = 0 /\ l_committing (k_log s') = 0 /\ log_at LS s' [] /\
    cache s' [] V' (fun _ => 0) /\ (forall m, ~ in_log LS m -> V' m = V m).
Proof.
  intros Hla Hc Hlt [Hok Hl] H0 H1. unfold end_op. erewrite bind_ok by (apply acquire_run; by split).
  mstep. unfold get_log. mstep. set (s0 := set_log _ _).
  change (l_committing (k_log s0)) with (l_committing (k_log s)).
  change (l_outstanding (k_log s0)) with (l_outstanding (k_log s) - 1). rewrite H0, H1.
  change (nz 0) with false. cbv iota. change (1 - 1 =? 0) with true. cbv iota.
  erewrite bind_ok by reflexivity. set (s1 := set_log _ s0).
  erewrite bind_ok by (by apply (release_locked LLog _ (k_hart s))). cbn [whenM].
  set (s2 := set_hart _ s1).
  assert (Hla2 : log_at LS s2 bl) by (by eapply log_at_log).
  assert (C2 : cache s2 [] V (pinned bl)) by (by eapply bs_frame).
  destruct (commit_any s2 bl V Hla2 C2 Hlt) as (s3 & V3 & E3 & Hh3 & L3 & Hla3 & C3 & G3).
  change (k_hart s2) with (k_hart s) in Hh3.
  erewrite bind_ok by exact E3.
  assert (Hlk : lock_free LLog s3) by (split; by rewrite Hh3).
  mrun acquire_run. mstep. set (s4 := set_log _ _).
  assert (C4 : cache s4 [] V3 (fun _ => 0)).
  { eapply bs_frame; [apply cache_lock; [exact C3|by rewrite Hh3]|done..]. }
  erewrite bind_ok by (apply wakeup_run; by eapply bs_procs).
  assert (Hh4 : k_hart s4 = hart_lock LLog (k_hart s)) by (unfold s4; ksimp; by rewrite Hh3).
  rewrite (release_locked LLog _ (k_hart s)) by done.
  eexists _, V3. split; [done|]. split_and!; ksimp; try done.
  - unfold s4. ksimp. cbn. rewrite L3. change (l_outstanding (k_log s) - 1 = 0). lia.
  - eapply log_at_log; [exact Hla3|done..].
  - apply cache_unlock; [|done|done]. by apply bs_wake.
Qed.
End ops.

(** * Properties *)

Section crash_claims.
Context (p : nat) (pr : proc) (LS : Z).

Lemma recover_after_crash s bl V k t q qr U :
  trans_ok LS (k_disk s) bl -> length (dget (k_disk s) LS) = Z.to_nat BSIZE ->
  head_n (dget (k_disk s) LS) = 0 ->
  k_disk t = apply_writes (take k (commit_writes LS (dget (k_disk s) LS) bl V)) (k_disk s) ->
  log_cfg LS t -> bio_cache q qr t [] U (fun _ => 0) -> can_print t ->
  exists t', recover_from_log t = Ok tt t' /\
    forall m, 0 <= m -> ~ in_log LS m ->
      dget (k_disk t') m = if decide (k <= length bl)%nat then dget (k_disk s) m
                           else new_block (k_disk s) bl V m.
Proof.
  intros Hok Hhl Hh0 Hd Hcfg Hc Hp.
  change (k_disk t = crashed LS (k_disk s) bl V k) in Hd.
  destruct (crashed_head LS (k_disk s) bl V Hok Hhl Hh0 k) as [Hn Hl].
  destruct (recover_run LS t U Hcfg Hc Hp) as (t' & U' & E & D & _).
  - by rewrite Hd.
  - rewrite Hd. pose proof (la_trans _ _ _ Hcfg) as T0. change (k_disk (set_log _ t)) with (k_disk t) in T0.
    rewrite Hd in T0. destruct Hl as [->| ->]; [done|].
    destruct Hok as [A1 A2 A3 A4 A5 A6]. split; rewrite ?length_crashed; done.
  - exists t'. split; [exact E|]. intros m Hm Hnl. rewrite D, Hd.
    by apply crash_recover.
Qed.
End crash_claims.

(** C1: crash atomicity of a commit.  Commit of a transaction [bl] runs to
    completion and performs a sequence of block writes [ws]; if the machine
    stops after any prefix of them, a kernel that boots on the disk left
    behind and runs recover_from_log gets, for every block outside the log,
    the contents of before the transaction when the crash came before the
    header write, and the contents of after it otherwise: never a mixture. *)
Theorem commit_crash_atomic p pr LS s bl V :
  log_at LS s bl -> bio_cache p pr s [] V (pinned bl) -> (0 < length bl < HEAD)%nat ->
  head_n (dget (k_disk s) LS) = 0 ->
  exists s' ws, commit s = Ok tt s' /\ k_writes s' = k_writes s ++ ws /\
    k_disk s' = apply_writes ws (k_disk s) /\
    forall k t q qr U,
      k_disk t = apply_writes (take k ws) (k_disk s) ->
      log_cfg LS t -> bio_cache q qr t [] U (fun _ => 0) -> can_print t ->
      exists t', recover_from_log t = Ok tt t' /\
        forall m, 0 <= m -> ~ in_log LS m ->
          dget (k_disk t') m = if decide (k <= length bl)%nat then dget (k_disk s) m
                               else new_block (k_disk s) bl V m.
Proof.
  intros Hla Hc Hlen Hh0.
  destruct (commit_run LS s bl V Hla Hc Hlen) as (s' & V' & E & W & _).
  exists s', (commit_writes LS (dget (k_disk s) LS) bl V). split; [exact E|].
  split; [apply (wr_hist _ _ _ W)|]. split; [apply (wr_disk _ _ _ W)|].
  intros k t q qr U Hd Hcfg Hct Hp. pose proof (la_trans _ _ _ Hla) as Hok.
  eapply (recover_after_crash LS s bl V k t q qr U); try done.
  pose proof (to_start _ _ _ Hok). pose proof (to_end _ _ _ Hok). assert (LOGBLOCKS = 30) as HL by done.
  rewrite <-disk_block_dget by lia.
  assert (Hr : pinned bl LS = 0).
  { unfold pinned. rewrite decide_False; [done|]. intros Hin.
    destruct (home_range LS (k_disk s) bl Hok LS Hin) as [_ Hnl]. apply Hnl, in_log_LS. }
  rewrite <-(bs_clean s [] V _ LS Hc Hr). eapply bs_len; [exact Hc|]. unfold disk_len. lia.
Qed.

(** C23: recovery is idempotent and can itself crash: recover_from_log copies
    the logged blocks home and clears the header, and recovering again from
    the disk left by any prefix of its writes gives the same contents for
    every block outside the log. *)
Theorem recovery_idempotent p pr LS s V :
  log_cfg LS s -> bio_cache p pr s [] V (fun _ => 0) -> can_print s ->
  0 <= head_n (dget (k_disk s) LS) -> trans_ok LS (k_disk s) (head_list (dget (k_disk s) LS)) ->
  exists s' ws, recover_from_log s = Ok tt s' /\ k_writes s' = k_writes s ++ ws /\
    k_disk s' = apply_writes ws (k_disk s) /\ head_n (dget (k_disk s') LS) = 0 /\
    forall k m, 0 <= m -> ~ in_log LS m ->
      dget (recover_disk LS (apply_writes (take k ws) (k_disk s))) m = dget (k_disk s') m.
Proof.
  intros Hcfg Hc Hp Hn Hok. destruct (recover_run LS s V Hcfg Hc Hp Hn Hok) as (s' & V' & E & D & Hw & _).
  pose proof (to_start _ _ _ Hok). pose proof (to_end _ _ _ Hok). assert (LOGBLOCKS = 30) as HL by done.
  assert (Hl : length (dget (k_disk s) LS) = Z.to_nat BSIZE).
  { rewrite <-disk_block_dget by lia. rewrite <-(bs_clean s [] V _ LS Hc) by done.
    eapply bs_len; [exact Hc|]. unfold disk_len. lia. }
  exists s', (recover_writes LS (k_disk s)). split; [exact E|]. split; [done|]. split; [done|].
  split.
  - rewrite D. by eapply (recover_empty_head LS (k_disk s) _ V Hok).
  - intros k m Hm Hnl. rewrite D. by apply recover_crash.
Qed.

(** log_write on a held buffer logs its block and returns: a block that
    is already in the transaction is absorbed (the log and the references do
    not change), a new one is appended to the log and its buffer pinned; the
    disk is not touched. *)
Theorem log_write_absorbs p pr LS s bl H V R i n :
  log_at LS s bl -> bio_cache p pr s H V R -> (i, n) ∈ H -> lock_free LLog s ->
  (length bl < 30)%nat -> 1 <= l_outstanding (k_log s) ->
  0 <= n < disk_len s -> ~ in_log LS n ->
  exists s', log_write i s = Ok tt s' /\ io_frame (set_log (fun _ => k_log s') s) s' /\ same_disk s s' /\
    l_outstanding (k_log s') = l_outstanding (k_log s) /\
    l_committing (k_log s') = l_committing (k_log s) /\
    log_at LS s' (if decide (n ∈ bl) then bl else bl ++ [n]) /\
    bio_cache p pr s' H V (if decide (n ∈ bl) then R else bump R n 1).
Proof. apply log_write_run. Qed.

(** C33: begin_op admits an operation exactly when no commit is running and
    the log has room for MAXOPBLOCKS more blocks for each operation it has
    admitted and for this one; otherwise the process sleeps on the log with
    the lock given back and the log unchanged. *)
Theorem begin_op_reserves s p :
  lock_free LLog s -> h_noff (k_hart s) = 0 -> h_proc (k_hart s) = Some p ->
  h_locks (k_hart s) !! LProc p = None -> is_Some (k_procs s !! p) ->
  if (l_committing (k_log s) =? 0) &&
     (l_n (k_log s) + (l_outstanding (k_log s) + 1) * MAXOPBLOCKS <=? LOGBLOCKS)
  then begin_op s = Ok tt (set_log (l_set_outstanding (fun n => n + 1)) s)
  else exists s1 k q, begin_op s = Susp s1 k /\ k_log s1 = k_log s /\
         h_locks (k_hart s1) !! LLog = None /\
         k_procs s1 !! p = Some q /\ p_state q = SLEEPING /\ p_chan q = ChLog.
Proof.
  intros Hl Hn Hp Hlp Hpr. destruct (Z.eqb_spec (l_committing (k_log s)) 0) as [Hc|Hc]; cbn [andb].
  - destruct (Z.leb_spec (l_n (k_log s) + (l_outstanding (k_log s) + 1) * MAXOPBLOCKS) LOGBLOCKS).
    + by apply begin_op_run.
    + apply begin_op_waits; auto.
  - apply begin_op_waits; auto.
Qed.

(** C32: the last end_op commits: it returns with the log empty and idle, the
    interrupt and lock state restored, no buffer pinned, and every block
    outside the log on disk with the contents the transaction gave it. *)
Theorem end_op_commits p pr LS s bl V :
  log_at LS s bl -> bio_cache p pr s [] V (pinned bl) -> (length bl < HEAD)%nat -> lock_free LLog s ->
  l_committing (k_log s) = 0 -> l_outstanding (k_log s) = 1 ->
  exists s', end_op s = Ok tt s' /\ k_hart s' = k_hart s /\
    l_outstanding (k_log s') = 0 /\ l_committing (k_log s') = 0 /\ log_at LS s' [] /\
    forall m, 0 <= m -> ~ in_log LS m -> dget (k_disk s') m = V m.
Proof.
  intros Hla Hc Hlt Hlf H0 H1.
  destruct (end_op_last LS s bl V Hla Hc Hlt Hlf H0 H1) as (s' & V' & E & A1 & A2 & A3 & A4 & C & G).
  exists s'. split_and!; try done. intros m Hm Hnl. rewrite <-G by done.
  rewrite <-disk_block_dget by done. symmetry. by eapply bs_clean.
Qed.

(** C40: the error path of a full transaction: with LOGBLOCKS = NBUF = 30
    logged blocks every buffer is pinned, and the commit panics in its first
    bread of a log block. *)
Theorem full_log_panics p pr LS s bl V :
  log_at LS s bl -> bio_cache p pr s [] V (pinned bl) -> length bl = Z.to_nat LOGBLOCKS ->
  u_panicked (k_uart s) = 0 ->
  exists s', commit s = Panic "bget: no buffers" s'.
Proof.
  intros Hla ([l Hok] & _ & _ & _ & HR) Hlen Hp. pose proof (la_trans _ _ _ Hla) as Ht.
  destruct (area_in LS s bl Hla 1) as [Hr1 Hin1]; [done|].
  destruct (cache_full s p pr l [] bl (LS + 1) Hok (to_nodup _ _ _ Ht) Hlen) as [Hu Hv].
  { intros m Hm. rewrite <-HR. unfold pinned. rewrite decide_True by done. lia. }
  { intros Hin. by destruct (home_range LS (k_disk s) bl Ht _ Hin). }
  destruct (bget_full s p pr l [] (LS + 1) Hok Hp Hu Hv) as (s' & E). exists s'.
  unfold commit, lh_n. rewrite bind_gets, (la_n _ _ _ Hla), Hlen. cbn [whenM Z.ltb].
  change (0 <? Z.of_nat (Z.to_nat LOGBLOCKS)) with true. cbn [whenM]. apply bind_panic.
  unfold write_log. rewrite (for_lh_run LS s bl Hla), Hlen.
  change (Z.to_nat LOGBLOCKS) with 30%nat. rewrite zseq_cons. cbn [forM_]. apply bind_panic.
  unfold write_log_one. erewrite bind_ok by (by eapply log_dev_run).
  erewrite bind_ok by (by eapply log_blockno_run). apply bind_panic.
  unfold bread. apply bind_panic. exact E.
Qed.

(** * The theorems at concrete states *)

(** the log of [k] blocks from 33 on, on the device of [demo_pinned]; the log
    area is at block 2 *)
Definition demo_log (k : nat) (out : Z) : log :=
  mklog 2 out 0 ROOTDEV (Z.of_nat k) (demo_blocks 30).

Lemma demo_trans k : (k <= 30)%nat -> trans_ok 2 demo_disk (demo_blocks k).
Proof.
  intros Hk. split.
  - lia.
  - reflexivity.
  - discriminate.
  - unfold demo_blocks. rewrite length_map, length_seq. change (Z.to_nat LOGBLOCKS) with 30%nat. lia.
  - apply demo_blocks_nodup.
  - apply Forall_forall. intros m Hm. unfold demo_blocks in Hm. rewrite list_elem_of_In, in_map_iff in Hm.
    destruct Hm as (i & <- & Hi). apply in_seq in Hi. unfold in_log.
    change (Z.of_nat (length demo_disk)) with 80. change LOGBLOCKS with 30. lia.
Qed.

Lemma demo_transaction k out :
  (k <= 30)%nat ->
  exists s, log_at 2 s (demo_blocks k) /\
    bio_cache 0 demo_pr s [] (disk_block disk_state) (pinned (demo_blocks k)) /\
    k_hart s = k_hart disk_state /\ k_uart s = k_uart disk_state /\ k_disk s = demo_disk /\
    l_outstanding (k_log s) = out /\ l_committing (k_log s) = 0.
Proof.
  intros Hk. destruct (demo_pinned k Hk) as (s & C & Fh & Fu & Fd).
  exists (set_log (fun _ => demo_log k out) s).
  assert (Hl : length (demo_blocks k) = k) by (unfold demo_blocks; by rewrite length_map, length_seq).
  split_and!; try done.
  - split; try done.
    + by rewrite Hl.
    + rewrite Hl. change (take k (demo_blocks 30) = demo_blocks k). unfold demo_blocks.
      change (map ?g ?l) with (g <$> l). rewrite <-fmap_take. f_equal. rewrite take_seq. f_equal. lia.
    + change (trans_ok 2 (k_disk s) (demo_blocks k)). rewrite Fd. by apply demo_trans.
  - eapply (bs_frame s); [exact C|done..].
Qed.

Lemma demo_lock_free s : k_hart s = k_hart disk_state -> lock_free LLog s.
Proof. intros E. unfold lock_free. rewrite E. split; [apply hart_ok_idle|apply lookup_empty]. Qed.

Lemma commit_crash_atomic_witness : exists s s', commit s = Ok tt s'.
Proof.
  destruct (demo_transaction 2 1) as (s & L & C & _ & _ & Fd & _); [lia|].
  destruct (commit_crash_atomic 0 demo_pr 2 s (demo_blocks 2) _ L C) as (s' & ws & E & _).
  - split; apply Nat.ltb_lt; reflexivity.
  - rewrite Fd. vm_compute. reflexivity.
  - exists s, s'. exact E.
Defined.

Lemma recovery_idempotent_witness : exists s s', recover_from_log s = Ok tt s'.
Proof.
  destruct (demo_transaction 0 0) as (s & L & C & Fh & Fu & Fd & _); [lia|].
  destruct (recovery_idempotent 0 demo_pr 2 s (disk_block disk_state)) as (s' & ws & E & _).
  - exact (log_at_clear 2 s _ L).
  - exact C.
  - unfold can_print, quiet_uart. rewrite Fh, Fu.
    split; [apply hart_ok_idle|]. split; [apply lookup_empty|]. split; reflexivity.
  - rewrite Fd. vm_compute. discriminate.
  - rewrite Fd. assert (head_list (dget demo_disk 2) = []) as -> by (vm_compute; reflexivity).
    apply (demo_trans 0). lia.
  - exists s, s'. exact E.
Defined.

Lemma log_write_absorbs_witness : exists s i s', log_write i s = Ok tt s'.
Proof.
  destruct (demo_transaction 2 1) as (s & L & C & Fh & _ & Fd & Fo & _); [lia|].
  assert (Hn : 0 <= 40 < disk_len s) by (unfold disk_len; rewrite Fd; split; [lia|reflexivity]).
  destruct (bs_read s [] _ _ 40 C Hn) as (i & s1 & E1 & F1 & D1 & C1).
  { apply not_elem_of_nil. }
  { left. apply (pinned_room (demo_blocks 2)). apply Nat.ltb_lt. reflexivity. }
  destruct (log_write_absorbs 0 demo_pr 2 s1 (demo_blocks 2) _ _ _ i 40
    (log_at_wrote 2 _ _ _ _ L (wrote_nil _ _ F1 D1)) C1) as (s' & E & _).
  - apply list_elem_of_here.
  - apply demo_lock_free. rewrite (io_frame_hart _ _ F1). exact Fh.
  - apply Nat.ltb_lt. reflexivity.
  - rewrite (io_frame_log _ _ F1), Fo. lia.
  - unfold disk_len. rewrite (proj1 D1). exact Hn.
  - unfold in_log. change LOGBLOCKS with 30. lia.
  - exists s1, i, s'. exact E.
Defined.

Lemma begin_op_reserves_witness :
  begin_op disk_state = Ok tt (set_log (l_set_outstanding (fun n => n + 1)) disk_state).
Proof.
  apply (begin_op_reserves disk_state 0).
  - apply demo_lock_free. reflexivity.
  - reflexivity.
  - reflexivity.
  - apply lookup_empty.
  - eexists. reflexivity.
Defined.

Lemma end_op_commits_witness : exists s s', end_op s = Ok tt s'.
Proof.
  destruct (demo_transaction 2 1) as (s & L & C & Fh & _ & _ & Fo & Fc); [lia|].
  destruct (end_op_commits 0 demo_pr 2 s (demo_blocks 2) _ L C) as (s' & E & _).
  - apply Nat.ltb_lt. reflexivity.
  - apply demo_lock_free. exact Fh.
  - exact Fc.
  - exact Fo.
  - exists s, s'. exact E.
Defined.

Lemma full_log_panics_witness : exists s s', commit s = Panic "bget: no buffers" s'.
Proof.
  destruct (demo_transaction 30 3) as (s & L & C & _ & Fu & _); [lia|]. exists s.
  apply (full_log_panics 0 demo_pr 2 s (demo_blocks 30) _ L C).
  - reflexivity.
  - rewrite Fu. reflexivity.
Defined.
