(* ===== verification/FsTx.v ===== *)
(** Inside a transaction: the view of the disk blocks a file-system operation
    works on.  [tx s bl H V] says that block [n] has the content [V n], that
    the blocks [bl] are logged and that the buffers [H] are held; the lemmas
    give bread, log_write and brelse as reads and updates of [V]. *)

From stdpp Require Import base gmap strings numbers list.
From S2P Require Import Prelude KState KString Spinlock Printf ProcSync SyncSpec Bio BioRing BioSpec.
From S2P Require Import BlockStore Log LogDisk LogSpec LogOps.

(** the log after logging [n] *)
Definition logged (n : Z) (bl : list Z) : list Z := if decide (n ∈ bl) then bl else bl ++ [n].

(** one reference for each logged and for each held block *)
Definition refs (bl : list Z) (H : list (nat * Z)) (m : Z) : Z :=
  pinned bl m + if decide (m ∈ H.*2) then 1 else 0.

(** only the cache and the log changed; the disk did not *)
Definition fs_frame (s s' : kstate) : Prop :=
  s' = set_log (fun _ => k_log s') (set_bufs (fun _ => k_bufs s') s).

#[export] Instance fs_frame_refl : Reflexive fs_frame.
Proof. intros s. done. Qed.
#[export] Instance fs_frame_trans : Transitive fs_frame.
Proof. intros s1 s2 s3 H1 H2. unfold fs_frame in *. rewrite H2, H1. done. Qed.

Lemma fs_frame_io s s' : io_frame s s' -> same_disk s s' -> fs_frame s s'.
Proof. intros H [D W]. unfold fs_frame, io_frame in *. rewrite H at 1. rewrite D, W. rewrite H. done. Qed.

Lemma fs_frame_log s s' : io_frame (set_log (fun _ => k_log s') s) s' -> same_disk s s' -> fs_frame s s'.
Proof. intros H [D W]. unfold fs_frame, io_frame in *. rewrite H at 1. rewrite D, W. done. Qed.

Section tx.
Context {cache} `{BS : BlockStore cache}.
Context (LS : Z).

Record tx (s : kstate) (bl : list Z) (H : list (nat * Z)) (V : Z -> list Z) : Prop := {
  tx_log : log_at LS s bl;
  tx_cache : cache s H V (refs bl H);
  tx_clean : forall m, m ∉ bl -> V m = disk_block s m;
  tx_lock : lock_free LLog s;
  tx_out : 1 <= l_outstanding (k_log s)
}.

(** a block a file-system operation may update *)
Definition home (s : kstate) (n : Z) : Prop := 0 <= n < disk_len s /\ ~ in_log LS n.

Lemma refs_cons bl H i n m : n ∉ H.*2 -> refs bl ((i, n) :: H) m = bump (refs bl H) n 1 m.
Proof.
  intros Hn. unfold refs, bump. cbn [fmap list_fmap snd].
  destruct (decide (m = n)) as [->|Hne].
  - rewrite decide_True by set_solver. rewrite decide_False by done. lia.
  - destruct (decide (m ∈ H.*2)); [rewrite decide_True by set_solver|rewrite decide_False by set_solver]; lia.
Qed.

Lemma refs_logged bl H n m : n ∉ bl -> refs (logged n bl) H m = bump (refs bl H) n 1 m.
Proof.
  intros Hn. unfold refs, logged, bump, pinned. rewrite (decide_False (P := n ∈ bl)) by done.
  destruct (decide (m = n)) as [->|Hne].
  - rewrite (decide_True (P := n ∈ bl ++ [n])) by set_solver. rewrite (decide_False (P := n ∈ bl)) by done. lia.
  - destruct (decide (m ∈ bl)); [rewrite (decide_True (P := m ∈ bl ++ [n])) by set_solver
      |rewrite (decide_False (P := m ∈ bl ++ [n])) by set_solver]; lia.
Qed.

Lemma logged_in n bl : n ∈ logged n bl.
Proof. unfold logged. destruct (decide (n ∈ bl)); [done|set_solver]. Qed.
Lemma logged_sub n bl m : m ∈ bl -> m ∈ logged n bl.
Proof. unfold logged. destruct (decide (n ∈ bl)); [done|set_solver]. Qed.
Lemma length_logged n bl : (length (logged n bl) <= S (length bl))%nat.
Proof. unfold logged. destruct (decide (n ∈ bl)); rewrite ?length_app; simpl; lia. Qed.

Lemma refs_room bl H : (length bl + length H < 30)%nat -> room (refs bl H).
Proof.
  intros Hl. exists (bl ++ H.*2). split.
  - intros m. unfold refs, pinned. rewrite elem_of_app.
    destruct (decide (m ∈ bl)), (decide (m ∈ H.*2)); [by left|by left|by right|]. intros Hne. by destruct Hne.
  - rewrite length_app, length_fmap. change HEAD with 30%nat. lia.
Qed.

(** what the frame keeps *)
Lemma tx_io s s' bl H H' V :
  tx s bl H V -> io_frame s s' -> same_disk s s' -> cache s' H' V (refs bl H') -> tx s' bl H' V.
Proof.
  intros [T1 T2 T3 T4 T5] F D C. split.
  - eapply log_at_wrote; [exact T1|by apply wrote_nil].
  - done.
  - intros m Hm. rewrite T3 by done. unfold disk_block. by rewrite (proj1 D).
  - unfold lock_free in *. by rewrite (io_frame_hart _ _ F).
  - by rewrite (io_frame_log _ _ F).
Qed.

Lemma tx_bread s bl H V n :
  tx s bl H V -> 0 <= n < disk_len s -> n ∉ H.*2 -> (length bl + length H < 30)%nat ->
  exists i s', bread ROOTDEV n s = Ok i s' /\ tx s' bl ((i, n) :: H) V /\ fs_frame s s'.
Proof.
  intros Ht Hn HnH Hroom.
  destruct (bs_read s H V _ n (tx_cache _ _ _ _ Ht) Hn HnH) as (i & s' & E & F & D & C).
  { left. by apply refs_room. }
  exists i, s'. split; [exact E|]. split; [|by apply fs_frame_io].
  eapply tx_io; [exact Ht|done|done|]. eapply bs_ext; [exact C|done|]. intros m. by apply refs_cons.
Qed.

Lemma tx_bdata s bl H V i n : tx s bl H V -> (i, n) ∈ H -> bdata i s = Ok (V n) s.
Proof. intros Ht Hin. by eapply bs_data; [apply Ht|]. Qed.

Lemma tx_len s bl H V n : tx s bl H V -> 0 <= n < disk_len s -> length (V n) = Z.to_nat BSIZE.
Proof. intros Ht Hn. by eapply bs_len; [apply Ht|]. Qed.

Lemma tx_brelse s bl H V i n :
  tx s bl ((i, n) :: H) V -> n ∉ H.*2 ->
  exists s', brelse i s = Ok tt s' /\ tx s' bl H V /\ fs_frame s s'.
Proof.
  intros Ht HnH.
  destruct (bs_release s ((i, n) :: H) H V _ i n (tx_cache _ _ _ _ Ht)) as (s' & E & F & D & C).
  { done. }
  { destruct (decide (n ∈ bl)) as [Hin|Hin]; [left|right; by apply (tx_clean _ _ _ _ Ht)].
    unfold refs, pinned. rewrite (decide_True (P := n ∈ bl)) by done.
    rewrite decide_True by (cbn; set_solver). lia. }
  exists s'. split; [exact E|]. split; [|by apply fs_frame_io].
  eapply tx_io; [exact Ht|done|done|]. eapply bs_ext; [exact C|done|]. intros m.
  unfold bump. rewrite refs_cons by done. unfold bump. destruct (decide (m = n)); lia.
Qed.

(** the store into a held buffer followed by log_write *)
Lemma tx_store s bl H V i n d :
  tx s bl H V -> (i, n) ∈ H -> home s n -> (length bl < 30)%nat -> length d = Z.to_nat BSIZE ->
  exists s1 s', set_bdata i d s = Ok tt s1 /\ log_write i s1 = Ok tt s' /\
    tx s' (logged n bl) H (vset V n d) /\ fs_frame s s'.
Proof.
  intros Ht Hin [Hn Hnl] Hlt Hd. pose proof Ht as [T1 T2 T3 T4 T5].
  destruct (bs_set s H V _ i n d T2 Hin Hd) as (s1 & E1 & F1 & D1 & C1).
  pose proof (wrote_nil _ _ F1 D1) as W1.
  destruct (log_write_run LS s1 bl H _ _ i n (log_at_wrote LS _ _ _ _ T1 W1) C1 Hin)
    as (s2 & E2 & F2 & D2 & Ho & _ & L2 & C2).
  { unfold lock_free in *. by rewrite (io_frame_hart _ _ F1). }
  { done. }
  { by rewrite (io_frame_log _ _ F1). }
  { by rewrite (wrote_len _ _ _ W1). }
  { done. }
  exists s1, s2. split; [exact E1|]. split; [exact E2|]. split.
  - split.
    + exact L2.
    + eapply bs_ext; [exact C2|done|]. intros m. unfold logged.
      destruct (decide (n ∈ bl)) as [Hb|Hb]; [done|].
      rewrite <-refs_logged by done. unfold logged. by rewrite decide_False.
    + intros m Hm. assert (m <> n) as Hne by (intros ->; apply Hm, logged_in).
      unfold vset. rewrite decide_False by done. rewrite T3 by (intros Hb; by apply Hm, logged_sub).
      unfold disk_block. by rewrite (proj1 D2), (proj1 D1).
    + unfold lock_free in *. rewrite F2. ksimp. by rewrite (io_frame_hart _ _ F1).
    + rewrite Ho. by rewrite (io_frame_log _ _ F1).
  - transitivity s1; [by apply fs_frame_io|by apply fs_frame_log].
Qed.

Lemma fs_frame_disk s s' : fs_frame s s' -> disk_len s' = disk_len s.
Proof. intros F. rewrite F. done. Qed.
Lemma fs_frame_sb s s' : fs_frame s s' -> k_sb s' = k_sb s.
Proof. intros F. rewrite F. done. Qed.
Lemma fs_frame_home s s' n : fs_frame s s' -> home s n -> home s' n.
Proof. intros F [H1 H2]. split; [by rewrite (fs_frame_disk _ _ F)|done]. Qed.

(** read a block: bread, look at it, brelse *)
Lemma tx_read s bl H V n :
  tx s bl H V -> 0 <= n < disk_len s -> n ∉ H.*2 -> (length bl + length H < 30)%nat ->
  exists i s1 s2, bread ROOTDEV n s = Ok i s1 /\ bdata i s1 = Ok (V n) s1 /\ tx s1 bl ((i, n) :: H) V /\
    brelse i s1 = Ok tt s2 /\ tx s2 bl H V /\ fs_frame s s1 /\ fs_frame s s2.
Proof.
  intros Ht Hn HnH Hr. destruct (tx_bread s bl H V n Ht Hn HnH Hr) as (i & s1 & E1 & T1 & F1).
  destruct (tx_brelse s1 bl H V i n T1 HnH) as (s2 & E2 & T2 & F2).
  exists i, s1, s2. split_and!; try done.
  - eapply tx_bdata; [exact T1|set_solver].
  - by transitivity s1.
Qed.

(** update a block: bread, change it, log_write, brelse *)
Lemma tx_update s bl H V n :
  tx s bl H V -> home s n -> n ∉ H.*2 -> (length bl + length H < 30)%nat ->
  exists i s1, bread ROOTDEV n s = Ok i s1 /\ bdata i s1 = Ok (V n) s1 /\
    tx s1 bl ((i, n) :: H) V /\ fs_frame s s1 /\
    (forall d, length d = Z.to_nat BSIZE -> exists s2 s3 s', set_bdata i d s1 = Ok tt s2 /\
       log_write i s2 = Ok tt s3 /\ brelse i s3 = Ok tt s' /\
       tx s' (logged n bl) H (vset V n d) /\ fs_frame s s').
Proof.
  intros Ht Hn HnH Hr. destruct (tx_bread s bl H V n Ht (proj1 Hn) HnH Hr) as (i & s1 & E1 & T1 & F1).
  exists i, s1. split_and!; try done.
  { eapply tx_bdata; [exact T1|set_solver]. }
  intros d Hd. destruct (tx_store s1 bl _ V i n d T1) as (s2 & s3 & E2 & E3 & T3 & F3); try done; try lia.
  { set_solver. }
  { by apply (fs_frame_home _ _ _ F1). }
  destruct (tx_brelse s3 _ H _ i n T3 HnH) as (s4 & E4 & T4 & F4).
  exists s2, s3, s4. split_and!; try done. transitivity s1; [done|]. by transitivity s3.
Qed.

(** extensionality of the view *)
Lemma tx_ext s bl H V V' : tx s bl H V -> (forall m, V' m = V m) -> tx s bl H V'.
Proof.
  intros [T1 T2 T3 T4 T5] HV. split; try done.
  - by eapply bs_ext; [exact T2| |].
  - intros m Hm. by rewrite HV, T3.
Qed.

(** the transaction does not depend on what the other components change *)
Lemma tx_frame s s' bl H V :
  tx s bl H V -> k_hart s' = k_hart s -> k_procs s' = k_procs s -> k_bufs s' = k_bufs s ->
  k_disk s' = k_disk s -> k_log s' = k_log s -> tx s' bl H V.
Proof.
  intros [T1 T2 T3 T4 T5] Eh Ep Eb Ed El. split.
  - destruct T1. split; by rewrite ?El, ?Ed.
  - by eapply (bs_frame s).
  - intros m Hm. rewrite T3 by done. unfold disk_block. by rewrite Ed.
  - unfold lock_free in *. by rewrite Eh.
  - by rewrite El.
Qed.
End tx.
