(* ===== verification/Fs.v ===== *)
(** kernel/fs.c: the file system's blocks, inodes, directories and paths;
    either_copyout and either_copyin of kernel/proc.c.

    An inode pointer is an index into [itable.inode].  The on-disk [struct
    dinode] and [struct dirent] are read and written at their byte offsets
    inside the block buffers. *)

From stdpp Require Import base gmap strings numbers list.
From S2P Require Import Prelude KState KString Spinlock Printf Kalloc Vm ProcSync Bio Log.

(** * Kernel or user pointers *)

(** The address argument of readi, writei and the copy routines: a user
    virtual address, a physical address the kernel maps one to one, or a
    position inside an object of the caller's stack frame. *)
Inductive kptr :=
| UserVA (a : Z)
| KernPA (a : Z)
| KernLocal (obj : list Z) (off : Z).

Definition kptr_add (p : kptr) (m : Z) : kptr :=
  match p with
  | UserVA a => UserVA (u64 (a + m))
  | KernPA a => KernPA (a + m)
  | KernLocal obj off => KernLocal obj (off + m)
  end.

(** the result and the destination after the copy *)
Definition either_copyout (dst : kptr) (src : list Z) : K (Z * kptr) :=
  let! p := myproc_deref in
  match dst with
  | UserVA a =>
      let! pr := get_proc p in
      let! r := copyout (p_pagetable pr) a src in
      ret (r, dst)
  | KernPA a => modify (set_mem (fun m => stn m a src)) ;; ret (0, dst)
  | KernLocal obj off => ret (0, KernLocal (splice off src obj) off)
  end.

(** the result and the bytes copied *)
Definition either_copyin (src : kptr) (len : Z) : K (Z * list Z) :=
  let! p := myproc_deref in
  match src with
  | UserVA a =>
      let! pr := get_proc p in
      copyin (p_pagetable pr) a len
  | KernPA a => let! l := gets (fun s => ldn (k_mem s) a (Z.to_nat len)) in ret (0, l)
  | KernLocal obj off => ret (0, slice off len obj)
  end.

(** * Superblock *)

Definition sb_of_bytes (d : list Z) : superblock :=
  mksb (get32 d 0) (get32 d 4) (get32 d 8) (get32 d 12) (get32 d 16) (get32 d 20)
       (get32 d 24) (get32 d 28).

(** [bread] never returns a null pointer, so the check after it is dead *)
Definition readsb (dev : Z) : K unit :=
  let! bp := bread (u32 dev) 1 in
  let! d := bdata bp in
  modify (set_sb (fun _ => sb_of_bytes d)) ;;
  brelse bp.

(** block of the inode [i], block of the bitmap bit of block [b] *)
Definition IBLOCK (i : Z) (sb : superblock) : Z := u32 (i / IPB + sb_inodestart sb).
Definition BBLOCK (b : Z) (sb : superblock) : Z := u32 (b / BPB + sb_bmapstart sb).

(** * Blocks *)

Definition bzero (dev bno : Z) : K unit :=
  let! bp := bread dev bno in
  set_bdata bp (replicate (Z.to_nat BSIZE) 0) ;;
  log_write bp ;;
  brelse bp.

Definition bit_mask (bi : Z) : Z := Z.shiftl 1 (bi mod 8).

(** the inner loop of balloc: the first clear bit among [n] bits from [bi] *)
Fixpoint find_free_bit (data : list Z) (bi : Z) (n : nat) : option Z :=
  match n with
  | O => None
  | S n' =>
      if Z.land (zget data (bi / 8)) (bit_mask bi) =? 0 then Some bi
      else find_free_bit data (bi + 1) n'
  end.

Definition balloc_body (dev b : Z) : K (option Z) :=
  let! sb := gets k_sb in
  let! bp := bread dev (BBLOCK b sb) in
  let! d := bdata bp in
  match find_free_bit d 0 (Z.to_nat (Z.min BPB (sb_size sb - b))) with
  | Some bi =>
      set_bdata bp (zput d (bi / 8) (Z.lor (zget d (bi / 8)) (bit_mask bi))) ;;
      log_write bp ;;
      brelse bp ;;
      bzero dev (b + bi) ;;
      ret (Some (b + bi))
  | None => brelse bp ;; ret None
  end.

(** [for(b = 0; b < sb.size; b += BPB)] *)
Definition bitmap_blocks (sb : superblock) : list Z :=
  map (fun k => k * BPB) (zseq 0 (Z.to_nat ((sb_size sb + BPB - 1) / BPB))).

Definition balloc (dev : Z) : K Z :=
  let! sb := gets k_sb in
  let! r := forM (bitmap_blocks sb) (balloc_body dev) in
  match r with
  | Some b => ret b
  | None => printf "balloc: out of blocks\n" [] ;; ret 0
  end.

Definition bfree (dev b : Z) : K unit :=
  let! sb := gets k_sb in
  let! bp := bread dev (BBLOCK b sb) in
  let bi := b mod BPB in
  let! d := bdata bp in
  if Z.land (zget d (bi / 8)) (bit_mask bi) =? 0 then panic "freeing free block"
  else
    set_bdata bp (zput d (bi / 8) (Z.land (zget d (bi / 8)) (Z.lnot (bit_mask bi)))) ;;
    log_write bp ;;
    brelse bp.

(** * Inodes *)

Definition iinit : K unit :=
  initlock LItable ;;
  forM_ (seq 0 (Z.to_nat NINODE)) (fun i => initsleeplock (SLInode i)).

(** The loop of iget over the table: the entry of (dev, inum), and the first
    empty slot seen before it. *)
Fixpoint iget_scan (l : list inode) (i : nat) (dev inum : Z) (empty : option nat)
  : option nat * option nat :=
  match l with
  | [] => (None, empty)
  | ip :: l' =>
      if (0 <? i_ref ip) && (i_dev ip =? dev) && (i_inum ip =? inum) then (Some i, empty)
      else
        let empty :=
          match empty with
          | None => if i_ref ip =? 0 then Some i else None
          | Some _ => empty
          end in
        iget_scan l' (S i) dev inum empty
  end.

Definition iget (dev inum : Z) : K nat :=
  acquire LItable ;;
  let! tab := gets k_itable in
  match iget_scan tab 0 dev inum None with
  | (Some i, _) =>
      modify (upd_inode i (i_set_ref (fun n => n + 1))) ;;
      release LItable ;;
      ret i
  | (None, None) => panic "iget: no inodes"
  | (None, Some i) =>
      modify (upd_inode i (i_set_dev (fun _ => dev))) ;;
      modify (upd_inode i (i_set_inum (fun _ => inum))) ;;
      modify (upd_inode i (i_set_ref (fun _ => 1))) ;;
      modify (upd_inode i (i_set_valid (fun _ => 0))) ;;
      release LItable ;;
      ret i
  end.

(** offset of the dinode [inum] in its block, and its fields *)
Definition dinode_off (inum : Z) : Z := inum mod IPB * SIZEOF_DINODE.
Definition di_type (d : list Z) (o : Z) : Z := s16 (get16 d o).
Definition di_major (d : list Z) (o : Z) : Z := s16 (get16 d (o + 2)).
Definition di_minor (d : list Z) (o : Z) : Z := s16 (get16 d (o + 4)).
Definition di_nlink (d : list Z) (o : Z) : Z := s16 (get16 d (o + 6)).
Definition di_size (d : list Z) (o : Z) : Z := get32 d (o + 8).
Definition di_addr (d : list Z) (o i : Z) : Z := get32 d (o + 12 + 4 * i).
Definition di_addrs (d : list Z) (o : Z) : list Z :=
  map (di_addr d o) (zseq 0 (Z.to_nat (NDIRECT + 1))).

Definition ialloc_body (dev type : Z) (inum : Z) : K (option nat) :=
  let! sb := gets k_sb in
  let! bp := bread dev (IBLOCK inum sb) in
  let! d := bdata bp in
  let o := dinode_off inum in
  if di_type d o =? 0 then
    let d := splice o (replicate (Z.to_nat SIZEOF_DINODE) 0) d in
    set_bdata bp (put16 d o type) ;;
    log_write bp ;;
    brelse bp ;;
    let! ip := iget dev inum in
    ret (Some ip)
  else
    brelse bp ;; ret None.

(** [for(inum = 1; inum < sb.ninodes; inum++)] *)
Definition inums (sb : superblock) : list Z := zseq 1 (Z.to_nat (sb_ninodes sb - 1)).

Definition ialloc (dev type : Z) : K (option nat) :=
  let! sb := gets k_sb in
  let! r := forM (inums sb) (ialloc_body dev type) in
  match r with
  | Some ip => ret (Some ip)
  | None => printf "ialloc: no inodes\n" [] ;; ret None
  end.

(** the bytes of a [struct dinode] *)
Definition dinode_bytes (ip : inode) : list Z :=
  le_bytes 2 (i_type ip) ++ le_bytes 2 (i_major ip) ++ le_bytes 2 (i_minor ip) ++
  le_bytes 2 (i_nlink ip) ++ le_bytes 4 (i_size ip) ++
  flat_map (le_bytes 4) (i_addrs ip).

Definition iupdate (ip : nat) : K unit :=
  let! sb := gets k_sb in
  let! ino := get_inode ip in
  let! bp := bread (i_dev ino) (IBLOCK (i_inum ino) sb) in
  let! d := bdata bp in
  set_bdata bp (splice (dinode_off (i_inum ino)) (dinode_bytes ino) d) ;;
  log_write bp ;;
  brelse bp.

Definition idup (ip : nat) : K nat :=
  acquire LItable ;;
  modify (upd_inode ip (i_set_ref (fun n => n + 1))) ;;
  release LItable ;;
  ret ip.

(** the body of ilock after the sleep lock is taken, when [valid == 0] *)
Definition iload (i : nat) : K unit :=
  let! ip := get_inode i in
  let! sb := gets k_sb in
  let! bp := bread (i_dev ip) (IBLOCK (i_inum ip) sb) in
  let! d := bdata bp in
  let o := dinode_off (i_inum ip) in
  modify (upd_inode i (fun ip =>
    mkinode (i_dev ip) (i_inum ip) (i_ref ip) (i_lock ip) (i_valid ip)
      (di_type d o) (di_major d o) (di_minor d o) (di_nlink d o) (di_size d o)
      (di_addrs d o))) ;;
  brelse bp ;;
  modify (upd_inode i (i_set_valid (fun _ => 1))) ;;
  let! ip := get_inode i in
  if i_type ip =? 0 then panic "ilock: no type" else ret tt.

Definition ilock (ip : option nat) : K unit :=
  match ip with
  | None => panic "ilock"
  | Some i =>
      let! ino := get_inode i in
      if i_ref ino <? 1 then panic "ilock"
      else
        acquiresleep (SLInode i) ;;
        let! ino := get_inode i in
        whenM (i_valid ino =? 0) (iload i)
  end.

Definition iunlock (ip : option nat) : K unit :=
  match ip with
  | None => panic "iunlock"
  | Some i =>
      let! h := holdingsleep (SLInode i) in
      let! ino := get_inode i in
      if negb (nz h) || (i_ref ino <? 1) then panic "iunlock"
      else releasesleep (SLInode i)
  end.

(** * Inode content *)

Definition set_addr (ip : nat) (k x : Z) : K unit :=
  modify (upd_inode ip (i_set_addrs (fun a => zput a k x))).

Definition bmap (ip : nat) (bn : Z) : K Z :=
  let! ino := get_inode ip in
  if bn <? NDIRECT then
    let addr := zget (i_addrs ino) bn in
    if addr =? 0 then
      let! addr := balloc (i_dev ino) in
      if addr =? 0 then ret 0
      else set_addr ip bn addr ;; ret addr
    else ret addr
  else
  let bn := bn - NDIRECT in
  if bn <? NINDIRECT then
    let addr := zget (i_addrs ino) NDIRECT in
    let! addr :=
      if addr =? 0 then
        let! addr := balloc (i_dev ino) in
        whenM (negb (addr =? 0)) (set_addr ip NDIRECT addr) ;;
        ret addr
      else ret addr in
    if addr =? 0 then ret 0
    else
    let! bp := bread (i_dev ino) addr in
    let! a := bdata bp in
    let addr := get32 a (4 * bn) in
    let! addr :=
      if addr =? 0 then
        let! addr := balloc (i_dev ino) in
        whenM (nz addr)
          (let! a := bdata bp in
           set_bdata bp (put32 a (4 * bn) addr) ;;
           log_write bp) ;;
        ret addr
      else ret addr in
    brelse bp ;;
    ret addr
  else panic "bmap: out of range".

Definition itrunc_direct (ip : nat) (i : Z) : K unit :=
  let! ino := get_inode ip in
  whenM (nz (zget (i_addrs ino) i))
    (bfree (i_dev ino) (zget (i_addrs ino) i) ;;
     set_addr ip i 0).

Definition itrunc_indirect (ip bp : nat) (j : Z) : K unit :=
  let! ino := get_inode ip in
  let! a := bdata bp in
  whenM (nz (get32 a (4 * j))) (bfree (i_dev ino) (get32 a (4 * j))).

Definition itrunc (ip : nat) : K unit :=
  forM_ (zseq 0 (Z.to_nat NDIRECT)) (itrunc_direct ip) ;;
  let! ino := get_inode ip in
  whenM (nz (zget (i_addrs ino) NDIRECT))
    (let! bp := bread (i_dev ino) (zget (i_addrs ino) NDIRECT) in
     forM_ (zseq 0 (Z.to_nat NINDIRECT)) (itrunc_indirect ip bp) ;;
     brelse bp ;;
     bfree (i_dev ino) (zget (i_addrs ino) NDIRECT) ;;
     set_addr ip NDIRECT 0) ;;
  modify (upd_inode ip (i_set_size (fun _ => 0))) ;;
  iupdate ip.

Definition iput (ip : nat) : K unit :=
  acquire LItable ;;
  let! ino := get_inode ip in
  whenM ((i_ref ino =? 1) && nz (i_valid ino) && (i_nlink ino =? 0))
    (acquiresleep (SLInode ip) ;;
     release LItable ;;
     itrunc ip ;;
     modify (upd_inode ip (i_set_type (fun _ => 0))) ;;
     iupdate ip ;;
     modify (upd_inode ip (i_set_valid (fun _ => 0))) ;;
     releasesleep (SLInode ip) ;;
     acquire LItable) ;;
  modify (upd_inode ip (i_set_ref (fun n => n - 1))) ;;
  release LItable.

Definition iunlockput (ip : nat) : K unit :=
  iunlock (Some ip) ;; iput ip.

Definition ireclaim_body (dev inum : Z) : K unit :=
  let! sb := gets k_sb in
  let! bp := bread dev (IBLOCK inum sb) in
  let! d := bdata bp in
  let o := dinode_off inum in
  let! ip :=
    if nz (di_type d o) && (di_nlink d o =? 0) then
      printf "ireclaim: orphaned inode %d\n" [VWord inum] ;;
      let! ip := iget dev inum in
      ret (Some ip)
    else ret None in
  brelse bp ;;
  match ip with
  | Some i =>
      begin_op ;;
      ilock (Some i) ;;
      iunlock (Some i) ;;
      iput i ;;
      end_op
  | None => ret tt
  end.

Definition ireclaim (dev : Z) : K unit :=
  let! sb := gets k_sb in
  forM_ (inums sb) (ireclaim_body dev).

Definition fsinit (dev : Z) : K unit :=
  readsb dev ;;
  let! sb := gets k_sb in
  if negb (sb_magic sb =? FSMAGIC) then panic "invalid file system"
  else
    initlog dev ;;
    ireclaim dev.

(** struct stat, as stati fills it *)
Record stat := mkstat { st_dev : Z; st_ino : Z; st_type : Z; st_nlink : Z; st_size : Z }.

Definition stati (ip : inode) : stat :=
  mkstat (s32 (i_dev ip)) (i_inum ip) (i_type ip) (i_nlink ip) (i_size ip).

(** loop variables of readi and writei: [tot], [off] and the pointer *)
Definition readi_body (ip : nat) (n : Z) (i : Z * Z * kptr) : K (Z * Z * kptr + (Z * kptr)) :=
  let '(tot, off, dst) := i in
  if negb (tot <? n) then ret (inr (tot, dst))
  else
    let! addr := bmap ip (off / BSIZE) in
    if addr =? 0 then ret (inr (tot, dst))
    else
      let! ino := get_inode ip in
      let! bp := bread (i_dev ino) addr in
      let m := Z.min (n - tot) (BSIZE - off mod BSIZE) in
      let! d := bdata bp in
      let! r := either_copyout dst (slice (off mod BSIZE) m d) in
      if (r : Z * kptr).1 =? -1 then brelse bp ;; ret (inr (-1, r.2))
      else
        brelse bp ;;
        ret (inl (u32 (tot + m), u32 (off + m), kptr_add r.2 m)).

(** the byte count and the destination afterwards *)
Definition readi (ip : nat) (dst : kptr) (off n : Z) : K (Z * kptr) :=
  let! ino := get_inode ip in
  if (i_size ino <? off) || (u32 (off + n) <? off) then ret (0, dst)
  else
    let n := if i_size ino <? u32 (off + n) then u32 (i_size ino - off) else n in
    let! ' (tot, dst') := whileM (Z.to_nat n + 1) (readi_body ip n) (0, off, dst) in
    ret (s32 tot, dst').

Definition writei_body (ip : nat) (n : Z) (i : Z * Z * kptr) : K (Z * Z * kptr + (Z * Z)) :=
  let '(tot, off, src) := i in
  if negb (tot <? n) then ret (inr (tot, off))
  else
    let! addr := bmap ip (off / BSIZE) in
    if addr =? 0 then ret (inr (tot, off))
    else
      let! ino := get_inode ip in
      let! bp := bread (i_dev ino) addr in
      let m := Z.min (n - tot) (BSIZE - off mod BSIZE) in
      let! r := either_copyin src m in
      let! d := bdata bp in
      set_bdata bp (splice (off mod BSIZE) (r : Z * list Z).2 d) ;;
      if r.1 =? -1 then brelse bp ;; ret (inr (tot, off))
      else
        log_write bp ;;
        brelse bp ;;
        ret (inl (u32 (tot + m), u32 (off + m), kptr_add src m)).

Definition writei (ip : nat) (src : kptr) (off n : Z) : K Z :=
  let! ino := get_inode ip in
  if (i_size ino <? off) || (u32 (off + n) <? off) then ret (-1)
  else if MAXFILE * BSIZE <? u32 (off + n) then ret (-1)
  else
    let! ' (tot, off') := whileM (Z.to_nat n + 1) (writei_body ip n) (0, off, src) in
    let! ino := get_inode ip in
    whenM (i_size ino <? off') (modify (upd_inode ip (i_set_size (fun _ => off')))) ;;
    iupdate ip ;;
    ret (s32 tot).

(** * Directories *)

Definition namecmp (s t : list Z) : Z := strncmp (rlist s) (rlist t) DIRSIZ.

(** a local [struct dirent] *)
Definition dirent0 : list Z := replicate (Z.to_nat SIZEOF_DIRENT) 0.
Definition de_inum (de : list Z) : Z := get16 de 0.
Definition de_name (de : list Z) : list Z := slice 2 DIRSIZ de.
Definition kptr_obj (p : kptr) : list Z :=
  match p with KernLocal obj _ => obj | _ => [] end.

(** [for(off = 0; off < dp->size; off += sizeof(de))] *)
Definition dirent_offs (size : Z) : list Z :=
  map (fun k => k * SIZEOF_DIRENT)
      (zseq 0 (Z.to_nat ((size + SIZEOF_DIRENT - 1) / SIZEOF_DIRENT))).

(** [readi(dp, 0, &de, off, sizeof(de))], with its panic *)
Definition read_dirent (dp : nat) (off : Z) (msg : string) : K (list Z) :=
  let! ' (n, p) := readi dp (KernLocal dirent0 0) off SIZEOF_DIRENT in
  if negb (n =? SIZEOF_DIRENT) then panic msg else ret (kptr_obj p).

Definition dirlookup_body (dp : nat) (name : list Z) (off : Z) : K (option (nat * Z)) :=
  let! de := read_dirent dp off "dirlookup read" in
  if de_inum de =? 0 then ret None
  else if namecmp name (de_name de) =? 0 then
    let! dpi := get_inode dp in
    let! ip := iget (i_dev dpi) (de_inum de) in
    ret (Some (ip, off))
  else ret None.

(** the inode and the offset of its entry ([*poff]) *)
Definition dirlookup (dp : nat) (name : list Z) : K (option (nat * Z)) :=
  let! dpi := get_inode dp in
  if negb (i_type dpi =? T_DIR) then panic "dirlookup not DIR"
  else forM (dirent_offs (i_size dpi)) (dirlookup_body dp name).

Definition dirlink_empty (dp : nat) (off : Z) : K (option Z) :=
  let! de := read_dirent dp off "dirlink read" in
  ret (if de_inum de =? 0 then Some off else None).

Definition dirlink (dp : nat) (name : list Z) (inum : Z) : K Z :=
  let! r := dirlookup dp name in
  match r with
  | Some (ip, _) => iput ip ;; ret (-1)
  | None =>
      let! dpi := get_inode dp in
      let! r := forM (dirent_offs (i_size dpi)) (dirlink_empty dp) in
      let off := default (Z.of_nat (length (dirent_offs (i_size dpi))) * SIZEOF_DIRENT) r in
      let de := le_bytes 2 inum ++ strncpy (rlist name) DIRSIZ in
      let! n := writei dp (KernLocal de 0) off SIZEOF_DIRENT in
      if negb (n =? SIZEOF_DIRENT) then ret (-1) else ret 0
  end.

(** * Paths *)

(** a path is the bytes of the string before its NUL *)
Definition SLASH : Z := 47.

Fixpoint skip_slashes (path : list Z) : list Z :=
  match path with
  | c :: path' => if c =? SLASH then skip_slashes path' else path
  | [] => []
  end.

(** the element at the start of the path, and what follows it *)
Fixpoint take_elem (path : list Z) : list Z * list Z :=
  match path with
  | c :: path' =>
      if c =? SLASH then ([], path)
      else let '(e, rest) := take_elem path' in (c :: e, rest)
  | [] => ([], [])
  end.

(** [None] is the null pointer; otherwise the rest of the path and the array
    [name] after the copy *)
Definition skipelem (path name : list Z) : option (list Z * list Z) :=
  match skip_slashes path with
  | [] => None
  | path =>
      let '(e, rest) := take_elem path in
      let name :=
        if DIRSIZ <=? Z.of_nat (length e) then store_array name (take (Z.to_nat DIRSIZ) e)
        else store_array name (e ++ [0]) in
      Some (skip_slashes rest, name)
  end.

(** loop variables of namex: [ip], [path], [name]; the result is the inode
    pointer returned and the array [name] *)
Definition namex_body (parent : bool) (i : nat * list Z * list Z)
  : K (nat * list Z * list Z + (option nat * list Z)) :=
  let '(ip, path, name) := i in
  match skipelem path name with
  | None =>
      if parent then iput ip ;; ret (inr (None, name))
      else ret (inr (Some ip, name))
  | Some (path, name) =>
      ilock (Some ip) ;;
      let! ino := get_inode ip in
      if negb (i_type ino =? T_DIR) then iunlockput ip ;; ret (inr (None, name))
      else if parent && bool_decide (path = []) then
        iunlock (Some ip) ;; ret (inr (Some ip, name))
      else
        let! next := dirlookup ip name in
        match next with
        | None => iunlockput ip ;; ret (inr (None, name))
        | Some (next, _) => iunlockput ip ;; ret (inl (next, path, name))
        end
  end.

Definition namex (path : list Z) (parent : bool) : K (option nat * list Z) :=
  let! ip :=
    if zget path 0 =? SLASH then iget ROOTDEV ROOTINO
    else
      let! p := myproc_deref in
      let! pr := get_proc p in
      let! cwd := deref "cwd" (p_cwd pr) in
      idup cwd in
  whileM (length path + 2) (namex_body parent)
    (ip, path, replicate (Z.to_nat DIRSIZ) 0).

Definition namei (path : list Z) : K (option nat) :=
  let! r := namex path false in ret (r : option nat * list Z).1.

Definition nameiparent (path : list Z) : K (option nat * list Z) := namex path true.
