(* ===== verification/FsBlock.v ===== *)
(** The block allocator of kernel/fs.c, inside a transaction: bzero, balloc
    and bfree over the bitmap blocks.  [used] reads the bitmap as a set of
    block numbers; [fs_layout] is the disk layout mkfs writes, and
    [blocks_ok] the invariant that no metadata block is ever free. *)

From stdpp Require Import base gmap strings numbers list.
From S2P Require Import Prelude KState KString Spinlock Printf ProcSync SyncSpec Bio BioRing BioSpec.
From S2P Require Import BlockStore Log LogDisk LogSpec LogOps FsTx Kalloc Vm Fs.

(** * Bits of a bitmap block *)

Definition dbit (d : list Z) (j : Z) : bool := Z.testbit (zget d (j / 8)) (j mod 8).

Definition zero_block : list Z := replicate (Z.to_nat BSIZE) 0.
Definition mark (d : list Z) (bi : Z) : list Z := zput d (bi / 8) (Z.lor (zget d (bi / 8)) (bit_mask bi)).
Definition unmark (d : list Z) (bi : Z) : list Z :=
  zput d (bi / 8) (Z.land (zget d (bi / 8)) (Z.lnot (bit_mask bi))).

Lemma bit_mask_spec bi k : 0 <= k -> Z.testbit (bit_mask bi) k = bool_decide (k = bi mod 8).
Proof.
  intros Hk. unfold bit_mask. rewrite Z.shiftl_1_l. rewrite Z.pow2_bits_eqb by (apply Z.mod_pos_bound; lia).
  destruct (Z.eqb_spec (bi mod 8) k) as [E|E]; [by rewrite bool_decide_true|by rewrite bool_decide_false by congruence].
Qed.

Lemma dbit_test d bi : (Z.land (zget d (bi / 8)) (bit_mask bi) =? 0) = negb (dbit d bi).
Proof.
  unfold dbit. pose proof (Z.mod_pos_bound bi 8 ltac:(lia)) as Hm.
  destruct (Z.testbit (zget d (bi / 8)) (bi mod 8)) eqn:E; cbn [negb].
  - apply Z.eqb_neq. intros H. assert (Z.testbit 0 (bi mod 8) = true) as Hb; [|by rewrite Z.bits_0 in Hb].
    rewrite <-H, Z.land_spec, E, bit_mask_spec by lia. by rewrite bool_decide_true.
  - apply Z.eqb_eq. apply Z.bits_inj'. intros k Hk. rewrite Z.land_spec, bit_mask_spec, Z.bits_0 by done.
    destruct (decide (k = bi mod 8)) as [->|Hne]; [by rewrite E|].
    rewrite bool_decide_false by done. apply andb_false_r.
Qed.

(** two bits at the same place of the same byte are the same *)
Lemma same_bit i j : i / 8 = j / 8 -> i mod 8 = j mod 8 -> i = j.
Proof. intros H1 H2. rewrite (Z.div_mod i 8), (Z.div_mod j 8) by lia. by rewrite H1, H2. Qed.

Lemma dbit_put d bi j x :
  0 <= bi -> 0 <= j -> bi / 8 < Z.of_nat (length d) ->
  dbit (zput d (bi / 8) x) j = if decide (j / 8 = bi / 8) then Z.testbit x (j mod 8) else dbit d j.
Proof.
  intros Hbi Hj Hl. unfold dbit. pose proof (Z.div_pos bi 8 Hbi ltac:(lia)). pose proof (Z.div_pos j 8 Hj ltac:(lia)).
  destruct (decide (j / 8 = bi / 8)) as [E|E].
  - rewrite E, zget_zput_eq by lia. done.
  - by rewrite zget_zput_ne by lia.
Qed.

Lemma dbit_mark d bi j :
  0 <= bi -> 0 <= j -> bi / 8 < Z.of_nat (length d) ->
  dbit (mark d bi) j = if decide (j = bi) then true else dbit d j.
Proof.
  intros Hbi Hj Hl. unfold mark. rewrite dbit_put by done. pose proof (Z.mod_pos_bound j 8 ltac:(lia)).
  destruct (decide (j / 8 = bi / 8)) as [E|E].
  - rewrite Z.lor_spec, bit_mask_spec by lia. unfold dbit. rewrite <-E. destruct (decide (j = bi)) as [->|Hne].
    + rewrite bool_decide_true by done. apply orb_true_r.
    + rewrite bool_decide_false by (intros ?; by apply Hne, same_bit). apply orb_false_r.
  - destruct (decide (j = bi)) as [->|]; done.
Qed.

Lemma dbit_unmark d bi j :
  0 <= bi -> 0 <= j -> bi / 8 < Z.of_nat (length d) ->
  dbit (unmark d bi) j = if decide (j = bi) then false else dbit d j.
Proof.
  intros Hbi Hj Hl. unfold unmark. rewrite dbit_put by done. pose proof (Z.mod_pos_bound j 8 ltac:(lia)).
  destruct (decide (j / 8 = bi / 8)) as [E|E].
  - rewrite Z.land_spec, Z.lnot_spec, bit_mask_spec by lia. unfold dbit. rewrite <-E.
    destruct (decide (j = bi)) as [->|Hne].
    + rewrite bool_decide_true by done. apply andb_false_r.
    + rewrite bool_decide_false by (intros ?; by apply Hne, same_bit). apply andb_true_r.
  - destruct (decide (j = bi)) as [->|]; done.
Qed.

(** the scan of a bitmap block finds the first clear bit *)
Lemma find_free_bit_some d bi n k :
  find_free_bit d bi n = Some k ->
  bi <= k < bi + Z.of_nat n /\ dbit d k = false /\ forall j, bi <= j < k -> dbit d j = true.
Proof.
  revert bi. induction n as [|n IH]; intros bi E; [done|]. cbn [find_free_bit] in E.
  rewrite dbit_test in E. destruct (dbit d bi) eqn:Eb; cbn [negb] in E.
  - destruct (IH _ E) as (H1 & H2 & H3). split; [lia|]. split; [done|].
    intros j Hj. destruct (decide (j = bi)) as [->|]; [done|apply H3; lia].
  - injection E as <-. split; [lia|]. split; [done|]. intros; lia.
Qed.

Lemma find_free_bit_none d bi n :
  find_free_bit d bi n = None -> forall j, bi <= j < bi + Z.of_nat n -> dbit d j = true.
Proof.
  revert bi. induction n as [|n IH]; intros bi E j Hj; [lia|]. cbn [find_free_bit] in E.
  rewrite dbit_test in E. destruct (dbit d bi) eqn:Eb; cbn [negb] in E; [|done].
  destruct (decide (j = bi)) as [->|]; [done|]. apply (IH _ E). lia.
Qed.

(** * The bitmap as a set of blocks *)

Definition used (sb : superblock) (V : Z -> list Z) (b : Z) : bool := dbit (V (BBLOCK b sb)) (b mod BPB).

(** the first block after the boot block, the super block, the log, the
    inodes and the bitmap: [nmeta] of mkfs *)
Definition data_start (sb : superblock) : Z := sb_bmapstart sb + sb_size sb / BPB + 1.

Record fs_layout (LS : Z) (sb : superblock) (len : Z) : Prop := {
  fl_log : 2 <= LS;
  fl_inodes : LS + LOGBLOCKS < sb_inodestart sb;
  fl_ninodes : 0 <= sb_ninodes sb;
  fl_bmap : sb_inodestart sb + sb_ninodes sb / IPB < sb_bmapstart sb;
  fl_data : data_start sb <= sb_size sb;
  fl_size : sb_size sb <= len;
  fl_len : len < 2 ^ 32
}.

(** no metadata block is free, and no block somebody holds; held blocks are
    not bitmap blocks *)
Record blocks_ok (sb : superblock) (H : list (nat * Z)) (V : Z -> list Z) : Prop := {
  bk_meta b : 0 <= b < data_start sb -> used sb V b = true;
  bk_held n : n ∈ H.*2 -> 0 <= n < sb_size sb -> used sb V n = true;
  bk_bmap n : n ∈ H.*2 -> ~ sb_bmapstart sb <= n < data_start sb
}.

(** the order of the areas *)
Lemma layout_pos LS sb len :
  fs_layout LS sb len -> 0 < sb_inodestart sb <= sb_bmapstart sb /\ sb_bmapstart sb < data_start sb.
Proof.
  intros [L1 L2 L3 L4 L5 L6 L7]. unfold data_start in *. change LOGBLOCKS with 30 in *.
  change BPB with 8192 in *. change IPB with 16 in *. Z.to_euclidean_division_equations; lia.
Qed.

Lemma bblock_in LS sb len b :
  fs_layout LS sb len -> 0 <= b < sb_size sb ->
  BBLOCK b sb = b / BPB + sb_bmapstart sb /\ sb_bmapstart sb <= BBLOCK b sb < data_start sb.
Proof.
  intros [L1 L2 L3 L4 L5 L6 L7] Hb. unfold data_start in *. change LOGBLOCKS with 30 in *.
  assert (0 <= b / BPB <= sb_size sb / BPB) as Hd.
  { split; [apply Z.div_pos; change BPB with 8192; lia|apply Z.div_le_mono; change BPB with 8192; lia]. }
  pose proof (Z.div_pos (sb_ninodes sb) IPB L3 ltac:(change IPB with 16; lia)).
  unfold BBLOCK. rewrite (u32_small (b / BPB + sb_bmapstart sb)) by lia. lia.
Qed.

Lemma layout_home LS sb s b :
  fs_layout LS sb (disk_len s) -> sb_bmapstart sb <= b < sb_size sb -> home LS s b.
Proof.
  intros [L1 L2 L3 L4 L5 L6 L7] Hb. unfold home, in_log. change LOGBLOCKS with 30 in *.
  pose proof (Z.div_pos (sb_ninodes sb) IPB L3 ltac:(change IPB with 16; lia)). lia.
Qed.

(** a bitmap block is not a data block *)
Lemma bblock_ne LS sb len b n :
  fs_layout LS sb len -> 0 <= b < sb_size sb -> ~ sb_bmapstart sb <= n < data_start sb -> BBLOCK b sb <> n.
Proof. intros L Hb Hn. destruct (bblock_in LS sb len b L Hb). lia. Qed.

Lemma used_vset_data LS sb len V n d b :
  fs_layout LS sb len -> ~ sb_bmapstart sb <= n < data_start sb -> 0 <= b < sb_size sb ->
  used sb (vset V n d) b = used sb V b.
Proof.
  intros L Hn Hb. unfold used, vset.
  by rewrite decide_False by exact (bblock_ne LS sb len b n L Hb Hn).
Qed.

(** changing bit [b] of the bitmap to [x] *)
Lemma used_vset_bit LS sb len V b b' d x :
  fs_layout LS sb len -> 0 <= b < sb_size sb -> 0 <= b' < sb_size sb ->
  (forall j, 0 <= j -> dbit d j = if decide (j = b mod BPB) then x else dbit (V (BBLOCK b sb)) j) ->
  used sb (vset V (BBLOCK b sb) d) b' = if decide (b' = b) then x else used sb V b'.
Proof.
  intros L Hb Hb' Hd. unfold used, vset.
  destruct (bblock_in LS sb len b L Hb) as [E1 _], (bblock_in LS sb len b' L Hb') as [E2 _].
  pose proof (Z.mod_pos_bound b' BPB ltac:(reflexivity)).
  destruct (decide (BBLOCK b' sb = BBLOCK b sb)) as [E|E].
  - rewrite Hd by lia. rewrite E. assert (b' / BPB = b / BPB) as Eq by lia.
    destruct (decide (b' = b)) as [->|Hne]; [by rewrite decide_True|].
    rewrite decide_False; [done|]. intros Em. apply Hne.
    rewrite (Z.div_mod b' BPB), (Z.div_mod b BPB) by done. by rewrite Eq, Em.
  - rewrite decide_False; [done|]. by intros ->.
Qed.

Lemma bit_in_block b : b mod BPB / 8 < BSIZE.
Proof. apply Z.div_lt_upper_bound; [lia|]. change (8 * BSIZE) with BPB. by apply Z.mod_pos_bound. Qed.

(** the view after [b] has been taken from, or given back to, the bitmap *)
Definition take_bit (sb : superblock) (V : Z -> list Z) (b : Z) : Z -> list Z :=
  vset V (BBLOCK b sb) (mark (V (BBLOCK b sb)) (b mod BPB)).
Definition drop_bit (sb : superblock) (V : Z -> list Z) (b : Z) : Z -> list Z :=
  vset V (BBLOCK b sb) (unmark (V (BBLOCK b sb)) (b mod BPB)).
Definition alloc_view (sb : superblock) (V : Z -> list Z) (b : Z) : Z -> list Z :=
  vset (take_bit sb V b) b zero_block.
Definition alloc_log (sb : superblock) (bl : list Z) (b : Z) : list Z :=
  logged b (logged (BBLOCK b sb) bl).

Lemma used_take LS sb len V b b' :
  fs_layout LS sb len -> 0 <= b < sb_size sb -> 0 <= b' < sb_size sb ->
  length (V (BBLOCK b sb)) = Z.to_nat BSIZE ->
  used sb (take_bit sb V b) b' = if decide (b' = b) then true else used sb V b'.
Proof.
  intros L Hb Hb' Hl. eapply used_vset_bit; [done..|]. intros j Hj. apply dbit_mark; [|done|].
  - by apply Z.mod_pos_bound.
  - rewrite Hl. apply bit_in_block.
Qed.

Lemma used_drop LS sb len V b b' :
  fs_layout LS sb len -> 0 <= b < sb_size sb -> 0 <= b' < sb_size sb ->
  length (V (BBLOCK b sb)) = Z.to_nat BSIZE ->
  used sb (drop_bit sb V b) b' = if decide (b' = b) then false else used sb V b'.
Proof.
  intros L Hb Hb' Hl. eapply used_vset_bit; [done..|]. intros j Hj. apply dbit_unmark; [|done|].
  - by apply Z.mod_pos_bound.
  - rewrite Hl. apply bit_in_block.
Qed.

(** * The operations *)

Section alloc.
Context {cache} `{BS : BlockStore cache}.
Context (LS : Z).
Local Notation tx := (@FsTx.tx cache).

Lemma bzero_run s bl H V n :
  tx LS s bl H V -> home LS s n -> n ∉ H.*2 -> (length bl + length H < 30)%nat ->
  exists s', bzero ROOTDEV n s = Ok tt s' /\ tx LS s' (logged n bl) H (vset V n zero_block) /\ fs_frame s s'.
Proof.
  intros Ht Hn HnH Hr. destruct (tx_update LS s bl H V n Ht Hn HnH Hr) as (i & s1 & E1 & _ & _ & _ & U).
  destruct (U zero_block) as (s2 & s3 & s' & E2 & E3 & E4 & T & F); [apply length_replicate|].
  exists s'. split; [|done]. unfold bzero. erewrite bind_ok by exact E1.
  change (replicate (Z.to_nat BSIZE) 0) with zero_block.
  erewrite bind_ok by exact E2. erewrite bind_ok by exact E3. exact E4.
Qed.

(** a bitmap block in use by the allocator only *)
Lemma bblock_free s H V b :
  fs_layout LS (k_sb s) (disk_len s) -> blocks_ok (k_sb s) H V -> 0 <= b < sb_size (k_sb s) ->
  home LS s (BBLOCK b (k_sb s)) /\ BBLOCK b (k_sb s) ∉ H.*2.
Proof.
  intros L O Hb. destruct (bblock_in _ _ _ b L Hb) as [_ Hr]. split.
  - eapply layout_home; [exact L|]. pose proof (fl_data _ _ _ L). lia.
  - intros Hin. exact (bk_bmap _ _ _ O _ Hin Hr).
Qed.

(** a free block is a data block nobody holds *)
Lemma free_block s H V b :
  fs_layout LS (k_sb s) (disk_len s) -> blocks_ok (k_sb s) H V -> 0 <= b < sb_size (k_sb s) ->
  used (k_sb s) V b = false -> data_start (k_sb s) <= b /\ home LS s b /\ b ∉ H.*2.
Proof.
  intros L O Hb Hu. assert (data_start (k_sb s) <= b) as Hd.
  { destruct (decide (data_start (k_sb s) <= b)); [done|]. rewrite (bk_meta _ _ _ O) in Hu by lia. done. }
  split; [done|]. split.
  - eapply layout_home; [exact L|]. unfold data_start in Hd.
    assert (0 <= sb_size (k_sb s) / BPB) by (apply Z.div_pos; [lia|reflexivity]). lia.
  - intros Hin. rewrite (bk_held _ _ _ O b Hin Hb) in Hu. done.
Qed.

Lemma block_of k bi : 0 <= bi < BPB -> (k * BPB + bi) / BPB = k /\ (k * BPB + bi) mod BPB = bi.
Proof.
  intros Hb. rewrite Z.add_comm. rewrite Z.div_add, Z.mod_add by done.
  split; [rewrite Z.div_small by done; lia|by apply Z.mod_small].
Qed.

Lemma BBLOCK_of k bi sb : 0 <= bi < BPB -> BBLOCK (k * BPB + bi) sb = BBLOCK (k * BPB) sb.
Proof.
  intros Hb. unfold BBLOCK. destruct (block_of k bi Hb) as [-> _].
  destruct (block_of k 0) as [E _]; [done|]. rewrite Z.add_0_r in E. by rewrite E.
Qed.

(** [used] inside one bitmap block *)
Lemma used_of k bi sb V : 0 <= bi < BPB -> used sb V (k * BPB + bi) = dbit (V (BBLOCK (k * BPB) sb)) bi.
Proof. intros Hb. unfold used. rewrite BBLOCK_of by done. by destruct (block_of k bi Hb) as [_ ->]. Qed.

Lemma length_mark d bi : length (mark d bi) = length d.
Proof. apply length_zput. Qed.
Lemma length_unmark d bi : length (unmark d bi) = length d.
Proof. apply length_zput. Qed.

(** what balloc did when it took block [b] *)
Definition balloc_took (s : kstate) (bl : list Z) (H : list (nat * Z)) (V : Z -> list Z) (b : Z) (s' : kstate) : Prop :=
  0 <= b < sb_size (k_sb s) /\ used (k_sb s) V b = false /\
  (forall b', 0 <= b' < b -> used (k_sb s) V b' = true) /\
  tx LS s' (alloc_log (k_sb s) bl b) H (alloc_view (k_sb s) V b) /\ fs_frame s s'.

Lemma balloc_body_run s bl H V k :
  tx LS s bl H V -> fs_layout LS (k_sb s) (disk_len s) -> blocks_ok (k_sb s) H V ->
  (length bl + length H < 29)%nat -> 0 <= k -> k * BPB < sb_size (k_sb s) ->
  (forall b, 0 <= b < k * BPB -> used (k_sb s) V b = true) ->
  (exists b s', balloc_body ROOTDEV (k * BPB) s = Ok (Some b) s' /\ balloc_took s bl H V b s') \/
  (exists s', balloc_body ROOTDEV (k * BPB) s = Ok None s' /\ tx LS s' bl H V /\ fs_frame s s' /\
     forall b, 0 <= b < sb_size (k_sb s) -> b < (k + 1) * BPB -> used (k_sb s) V b = true).
Proof.
  intros Ht L O Hr Hk0 Hk Hbelow.
  assert (0 <= k * BPB < sb_size (k_sb s)) as Hkr by (change BPB with 8192 in *; lia).
  destruct (bblock_free s H V _ L O Hkr) as [Hh HnH]. pose proof (tx_len LS _ _ _ _ _ Ht (proj1 Hh)) as Hlen.
  destruct (tx_update LS s bl H V _ Ht Hh HnH) as (i & s1 & E1 & Ed & T1 & F1 & U); [lia|].
  unfold balloc_body. mstep. erewrite bind_ok by exact E1. erewrite bind_ok by exact Ed.
  set (sb := k_sb s) in *. set (d := V (BBLOCK (k * BPB) sb)) in *.
  change (find_free_bit d 0 _) with (find_free_bit d 0 (Z.to_nat (Z.min BPB (sb_size sb - k * BPB)))).
  destruct (find_free_bit d 0 (Z.to_nat (Z.min BPB (sb_size sb - k * BPB)))) as [bi|] eqn:Ef.
  - cbv iota beta. left. apply find_free_bit_some in Ef as (Hbi & Hfree & Hfirst).
    assert (0 <= bi < BPB) as Hbb by lia. set (b := k * BPB + bi). assert (0 <= b < sb_size sb) as Hb by lia.
    assert (used sb V b = false) as Hub by (unfold b; by rewrite used_of).
    destruct (free_block s H V b L O Hb Hub) as (Hds & Hhb & HbH).
    destruct (U (mark d bi)) as (s2 & s3 & s4 & E2 & E3 & E4 & T4 & F4); [by rewrite length_mark|].
    unfold mark in E2. erewrite bind_ok by exact E2. erewrite bind_ok by exact E3. erewrite bind_ok by exact E4.
    destruct (bzero_run s4 _ H _ b T4) as (s5 & E5 & T5 & F5).
    { by apply (fs_frame_home _ _ _ _ F4). }
    { done. }
    { pose proof (length_logged (BBLOCK (k * BPB) sb) bl). lia. }
    erewrite bind_ok by exact E5. exists b, s5. split; [done|].
    split; [exact Hb|]. split; [exact Hub|]. split; [|split].
    + intros b' Hb'. destruct (decide (b' < k * BPB)); [apply Hbelow; lia|].
      replace b' with (k * BPB + (b' - k * BPB)) by lia. rewrite used_of by lia. apply Hfirst. lia.
    + unfold alloc_log, alloc_view, take_bit, b. rewrite BBLOCK_of by done.
      destruct (block_of k bi Hbb) as [_ ->]. exact T5.
    + by transitivity s4.
  - cbv iota beta. right. destruct (tx_brelse LS s1 bl H V i _ T1 HnH) as (s2 & E2 & T2 & F2).
    erewrite bind_ok by exact E2. exists s2. split; [done|]. split; [done|]. split; [by transitivity s1|].
    intros b Hb Hlt. destruct (decide (b < k * BPB)); [apply Hbelow; lia|].
    replace b with (k * BPB + (b - k * BPB)) by lia. rewrite used_of by lia.
    eapply find_free_bit_none; [exact Ef|]. lia.
Qed.

Lemma balloc_took_frame s s1 bl H V b s' :
  fs_frame s s1 -> balloc_took s1 bl H V b s' -> balloc_took s bl H V b s'.
Proof.
  intros F (H1 & H2 & H3 & H4 & H5). unfold balloc_took. rewrite <-(fs_frame_sb _ _ F).
  split_and!; try done; try lia. by transitivity s1.
Qed.

Lemma balloc_loop m : forall s bl H V k,
  tx LS s bl H V -> fs_layout LS (k_sb s) (disk_len s) -> blocks_ok (k_sb s) H V ->
  (length bl + length H < 29)%nat -> 0 <= k ->
  k + Z.of_nat m = (sb_size (k_sb s) + BPB - 1) / BPB ->
  (forall b, 0 <= b < sb_size (k_sb s) -> b < k * BPB -> used (k_sb s) V b = true) ->
  (exists b s', forM (map (fun j => j * BPB) (zseq k m)) (balloc_body ROOTDEV) s = Ok (Some b) s' /\
     balloc_took s bl H V b s') \/
  (exists s', forM (map (fun j => j * BPB) (zseq k m)) (balloc_body ROOTDEV) s = Ok None s' /\
     tx LS s' bl H V /\ fs_frame s s' /\ forall b, 0 <= b < sb_size (k_sb s) -> used (k_sb s) V b = true).
Proof.
  induction m as [|m IH]; intros s bl H V k Ht L O Hr Hk Hm Hbelow.
  { right. exists s. split; [done|]. split; [done|]. split; [done|]. intros b Hb. apply Hbelow; [done|].
    change BPB with 8192 in *. Z.to_euclidean_division_equations; lia. }
  rewrite zseq_cons. cbn [map].
  assert (k * BPB < sb_size (k_sb s)) as Hlt.
  { change BPB with 8192 in *. Z.to_euclidean_division_equations; lia. }
  destruct (balloc_body_run s bl H V k Ht L O Hr Hk Hlt) as [(b & s' & E & T)|(s1 & E & T & F & Hall)].
  { intros b Hb. apply Hbelow; lia. }
  - left. exists b, s'. split; [|done]. by apply forM_cons_some.
  - rewrite (forM_cons_none _ _ _ _ _ E). rewrite <-(fs_frame_sb _ _ F) in *.
    destruct (IH s1 bl H V (k + 1)) as [(b & s' & E' & T')|(s' & E' & T' & F' & A')]; try done; try lia.
    + by rewrite (fs_frame_disk _ _ F).
    + left. exists b, s'. split; [done|]. by apply (balloc_took_frame s s1).
    + right. exists s'. split; [done|]. split; [done|]. split; [by transitivity s1|]. done.
Qed.

(** balloc: the least free block, or all are in use and it says so *)
Lemma balloc_run s bl H V :
  tx LS s bl H V -> fs_layout LS (k_sb s) (disk_len s) -> blocks_ok (k_sb s) H V ->
  (length bl + length H < 29)%nat -> can_print s ->
  (exists b s', balloc ROOTDEV s = Ok b s' /\ balloc_took s bl H V b s') \/
  (exists o s', balloc ROOTDEV s = Ok 0 s' /\ tx LS s' bl H V /\ fs_frame (emit o s) s' /\
     forall b, 0 <= b < sb_size (k_sb s) -> used (k_sb s) V b = true).
Proof.
  intros Ht L O Hr Hp.
  destruct (balloc_loop (Z.to_nat ((sb_size (k_sb s) + BPB - 1) / BPB)) s bl H V 0)
    as [(b & s' & E & T)|(s1 & E & T & F & Hall)]; try done; try lia.
  { rewrite Z2Nat.id; [done|]. pose proof (fl_data _ _ _ L) as Hd. unfold data_start in Hd.
    pose proof (fl_bmap _ _ _ L). pose proof (fl_inodes _ _ _ L). pose proof (fl_log _ _ _ L).
    pose proof (fl_ninodes _ _ _ L). change LOGBLOCKS with 30 in *. change BPB with 8192 in *. change IPB with 16 in *.
    Z.to_euclidean_division_equations; lia. }
  - left. exists b, s'. split; [|done]. unfold balloc. mstep. by erewrite bind_ok by exact E.
  - right. destruct Hp as (P1 & P2 & P3).
    destruct (printf_run "balloc: out of blocks\n" [] s1) as [o Eo].
    { by rewrite F. }
    { by rewrite F. }
    { unfold quiet_uart in *. by rewrite F. }
    { reflexivity. }
    exists o, (emit o s1). split.
    + unfold balloc. mstep. erewrite bind_ok by exact E. cbv iota beta. by erewrite bind_ok by exact Eo.
    + split; [by eapply tx_frame; [exact T|..]|]. split; [|done]. unfold fs_frame in *. rewrite F. done.
Qed.

(** the block taken is in use, and the allocator's invariant holds on *)
Lemma balloc_took_view s bl H V b s' :
  tx LS s bl H V -> fs_layout LS (k_sb s) (disk_len s) -> blocks_ok (k_sb s) H V -> balloc_took s bl H V b s' ->
  let V' := alloc_view (k_sb s) V b in
  data_start (k_sb s) <= b /\ V' b = zero_block /\
  (forall b', 0 <= b' < sb_size (k_sb s) -> used (k_sb s) V' b' = if decide (b' = b) then true else used (k_sb s) V b') /\
  (forall m, m <> b -> ~ sb_bmapstart (k_sb s) <= m < data_start (k_sb s) -> V' m = V m) /\
  blocks_ok (k_sb s) H V'.
Proof.
  intros Ht L O (Hb & Hu & _ & T & F) V'. destruct (free_block s H V b L O Hb Hu) as (Hd & _ & HbH).
  destruct (bblock_free s H V b L O Hb) as [Hh _]. pose proof (tx_len LS _ _ _ _ _ Ht (proj1 Hh)) as Hlen.
  assert (forall b', 0 <= b' < sb_size (k_sb s) ->
    used (k_sb s) V' b' = if decide (b' = b) then true else used (k_sb s) V b') as Hused.
  { intros b' Hb'. unfold V', alloc_view. rewrite (used_vset_data LS _ (disk_len s)) by (done || lia).
    by apply (used_take LS _ (disk_len s)). }
  split; [done|]. split; [unfold V', alloc_view, vset; by rewrite decide_True|]. split; [done|]. split.
  - intros m Hm Hnb. unfold V', alloc_view, take_bit, vset. rewrite decide_False by done.
    rewrite decide_False; [done|]. pose proof (bblock_ne LS _ _ b m L Hb Hnb). congruence.
  - pose proof (fl_data _ _ _ L). split.
    + intros b' Hb'. rewrite Hused by lia. destruct (decide (b' = b)); [done|]. by apply (bk_meta _ _ _ O).
    + intros n Hn Hr. rewrite Hused by lia. destruct (decide (n = b)); [done|]. by apply (bk_held _ _ _ O).
    + apply (bk_bmap _ _ _ O).
Qed.

Lemma length_alloc_log sb bl b : (length (alloc_log sb bl b) <= length bl + 2)%nat.
Proof.
  unfold alloc_log. pose proof (length_logged b (logged (BBLOCK b sb) bl)).
  pose proof (length_logged (BBLOCK b sb) bl). lia.
Qed.

Lemma bfree_run s bl H V b :
  tx LS s bl H V -> fs_layout LS (k_sb s) (disk_len s) -> blocks_ok (k_sb s) H V ->
  (length bl + length H < 30)%nat -> 0 <= b < sb_size (k_sb s) -> used (k_sb s) V b = true ->
  exists s', bfree ROOTDEV b s = Ok tt s' /\
    tx LS s' (logged (BBLOCK b (k_sb s)) bl) H (drop_bit (k_sb s) V b) /\ fs_frame s s'.
Proof.
  intros Ht L O Hr Hb Hu. destruct (bblock_free s H V b L O Hb) as [Hh HnH].
  pose proof (tx_len LS _ _ _ _ _ Ht (proj1 Hh)) as Hlen.
  destruct (tx_update LS s bl H V _ Ht Hh HnH Hr) as (i & s1 & E1 & Ed & T1 & F1 & U).
  destruct (U (unmark (V (BBLOCK b (k_sb s))) (b mod BPB))) as (s2 & s3 & s4 & E2 & E3 & E4 & T4 & F4);
    [by rewrite length_unmark|].
  exists s4. split; [|done]. unfold bfree. mstep. erewrite bind_ok by exact E1. cbv zeta.
  erewrite bind_ok by exact Ed. rewrite dbit_test. unfold used in Hu. rewrite Hu. cbn [negb].
  unfold unmark in E2. erewrite bind_ok by exact E2. erewrite bind_ok by exact E3. exact E4.
Qed.

Lemma bfree_free s bl H V b :
  tx LS s bl H V -> fs_layout LS (k_sb s) (disk_len s) -> blocks_ok (k_sb s) H V ->
  (length bl + length H < 30)%nat -> 0 <= b < sb_size (k_sb s) -> used (k_sb s) V b = false ->
  u_panicked (k_uart s) = 0 -> exists s', bfree ROOTDEV b s = Panic "freeing free block" s'.
Proof.
  intros Ht L O Hr Hb Hu Hp. destruct (bblock_free s H V b L O Hb) as [Hh HnH].
  destruct (tx_update LS s bl H V _ Ht Hh HnH Hr) as (i & s1 & E1 & Ed & T1 & F1 & _).
  unfold bfree. mstep. erewrite bind_ok by exact E1. cbv zeta.
  erewrite bind_ok by exact Ed. rewrite dbit_test. unfold used in Hu. rewrite Hu. cbn [negb].
  apply panic_is_panic. by rewrite F1.
Qed.

(** a freed block is free, the rest of the bitmap and of the disk is as
    before *)
Lemma bfree_view s bl H V b :
  tx LS s bl H V -> fs_layout LS (k_sb s) (disk_len s) -> blocks_ok (k_sb s) H V ->
  data_start (k_sb s) <= b < sb_size (k_sb s) -> b ∉ H.*2 ->
  let V' := drop_bit (k_sb s) V b in
  (forall b', 0 <= b' < sb_size (k_sb s) -> used (k_sb s) V' b' = if decide (b' = b) then false else used (k_sb s) V b') /\
  (forall m, ~ sb_bmapstart (k_sb s) <= m < data_start (k_sb s) -> V' m = V m) /\
  blocks_ok (k_sb s) H V'.
Proof.
  intros Ht L O Hb HbH V'. assert (0 <= b < sb_size (k_sb s)) as Hb0.
  { pose proof (layout_pos _ _ _ L). lia. }
  destruct (bblock_free s H V b L O Hb0) as [Hh _]. pose proof (tx_len LS _ _ _ _ _ Ht (proj1 Hh)) as Hlen.
  assert (forall b', 0 <= b' < sb_size (k_sb s) ->
    used (k_sb s) V' b' = if decide (b' = b) then false else used (k_sb s) V b') as Hused.
  { intros b' Hb'. by apply (used_drop LS _ (disk_len s)). }
  split; [done|]. split.
  - intros m Hnb. unfold V', drop_bit, vset. rewrite decide_False; [done|].
    pose proof (bblock_ne LS _ _ b m L Hb0 Hnb). congruence.
  - pose proof (fl_data _ _ _ L). split.
    + intros b' Hb'. rewrite Hused by lia. rewrite decide_False by lia. by apply (bk_meta _ _ _ O).
    + intros n Hn Hr. rewrite Hused by lia. rewrite decide_False by congruence. by apply (bk_held _ _ _ O).
    + apply (bk_bmap _ _ _ O).
Qed.
End alloc.

(** * Theorems *)

(** C24: balloc takes the least free block of the bitmap, marks exactly this
    block as in use and zeroes it; every other block outside the bitmap keeps
    its content, at most two blocks are added to the transaction, and no
    metadata or held block is ever handed out.  When all blocks are in use it
    returns 0 with a message and nothing changed. *)
Theorem balloc_correct p pr LS s bl H V :
  tx (cache := bio_cache p pr) LS s bl H V -> fs_layout LS (k_sb s) (disk_len s) -> blocks_ok (k_sb s) H V ->
  (length bl + length H < 29)%nat -> can_print s ->
  let sb := k_sb s in
  (exists b s' bl' V', balloc ROOTDEV s = Ok b s' /\ tx (cache := bio_cache p pr) LS s' bl' H V' /\ fs_frame s s' /\
     data_start sb <= b < sb_size sb /\ used sb V b = false /\
     (forall b', 0 <= b' < b -> used sb V b' = true) /\ V' b = zero_block /\
     (forall b', 0 <= b' < sb_size sb -> used sb V' b' = if decide (b' = b) then true else used sb V b') /\
     (forall m, m <> b -> ~ sb_bmapstart sb <= m < data_start sb -> V' m = V m) /\
     blocks_ok sb H V' /\ (length bl' <= length bl + 2)%nat) \/
  (exists o s', balloc ROOTDEV s = Ok 0 s' /\ tx (cache := bio_cache p pr) LS s' bl H V /\ fs_frame (emit o s) s' /\
     forall b, 0 <= b < sb_size sb -> used sb V b = true).
Proof.
  intros Ht L O Hr Hp sb.
  destruct (balloc_run LS s bl H V Ht L O Hr Hp) as [(b & s' & E & T)|(o & s' & E & T & F & Hall)].
  - left. destruct (balloc_took_view LS s bl H V b s' Ht L O T) as (Hd & Hz & Hused & Hother & O').
    destruct T as (Hb & Hu & Hleast & T & F). exists b, s', (alloc_log sb bl b), (alloc_view sb V b).
    split_and!; try done; try apply Hb. apply length_alloc_log.
  - right. by exists o, s'.
Qed.

(** bfree of a data block in use gives exactly this block back: the rest
    of the bitmap and all blocks outside it are as before; a block that is
    already free is a panic. *)
Theorem bfree_correct p pr LS s bl H V b :
  tx (cache := bio_cache p pr) LS s bl H V -> fs_layout LS (k_sb s) (disk_len s) -> blocks_ok (k_sb s) H V ->
  (length bl + length H < 30)%nat -> data_start (k_sb s) <= b < sb_size (k_sb s) -> 0 <= b ->
  b ∉ H.*2 -> u_panicked (k_uart s) = 0 ->
  let sb := k_sb s in
  if used sb V b
  then exists s' V', bfree ROOTDEV b s = Ok tt s' /\
         tx (cache := bio_cache p pr) LS s' (logged (BBLOCK b sb) bl) H V' /\ fs_frame s s' /\
         (forall b', 0 <= b' < sb_size sb -> used sb V' b' = if decide (b' = b) then false else used sb V b') /\
         (forall m, ~ sb_bmapstart sb <= m < data_start sb -> V' m = V m) /\ blocks_ok sb H V'
  else exists s', bfree ROOTDEV b s = Panic "freeing free block" s'.
Proof.
  intros Ht L O Hr Hb Hb0 HbH Hp sb. destruct (used sb V b) eqn:Hu.
  - destruct (bfree_run LS s bl H V b Ht L O Hr) as (s' & E & T & F); [lia|done|].
    destruct (bfree_view LS s bl H V b Ht L O Hb HbH) as (Hused & Hother & O').
    by exists s', (drop_bit sb V b).
  - eapply bfree_free; (done || lia).
Qed.

(** a block given back with bfree can be allocated again: the balloc that
    follows succeeds with a block not above it, with the block itself when no
    lower one was free. *)
Theorem bfree_balloc p pr LS s bl H V b :
  tx (cache := bio_cache p pr) LS s bl H V -> fs_layout LS (k_sb s) (disk_len s) -> blocks_ok (k_sb s) H V ->
  (length bl + length H < 28)%nat -> data_start (k_sb s) <= b < sb_size (k_sb s) -> 0 <= b ->
  b ∉ H.*2 -> used (k_sb s) V b = true -> can_print s ->
  exists b' s', (bfree ROOTDEV b ;; balloc ROOTDEV) s = Ok b' s' /\ b' <= b /\
    ((forall c, 0 <= c < b -> used (k_sb s) V c = true) -> b' = b).
Proof.
  intros Ht L O Hr Hb Hb0 HbH Hu Hp.
  destruct (bfree_run LS s bl H V b Ht L O) as (s1 & E1 & T1 & F1); [lia|lia|done|].
  destruct (bfree_view LS s bl H V b Ht L O Hb HbH) as (Hused & _ & O').
  erewrite bind_ok by exact E1. rewrite <-(fs_frame_sb _ _ F1) in *.
  assert (used (k_sb s1) (drop_bit (k_sb s1) V b) b = false) as Hfree by (rewrite Hused by lia; by rewrite decide_True).
  destruct (balloc_run LS s1 _ H _ T1) as [(b' & s' & E & T)|(o & s' & E & T & F & Hall)].
  - by rewrite (fs_frame_disk _ _ F1).
  - done.
  - pose proof (length_logged (BBLOCK b (k_sb s1)) bl). lia.
  - destruct Hp as (P1 & P2 & P3). unfold can_print, quiet_uart in *. by rewrite F1.
  - destruct T as (Hb' & Hu' & Hleast & _). exists b', s'. split; [done|].
    assert (b' <= b) as Hle.
    { destruct (decide (b' <= b)); [done|]. rewrite Hleast in Hfree by lia. done. }
    split; [done|]. intros Hlow. destruct (decide (b' = b)); [done|].
    rewrite Hused in Hu' by lia. rewrite decide_False in Hu' by done. rewrite Hlow in Hu' by lia. done.
  - rewrite Hall in Hfree by lia. done.
Qed.

(** * A file system of 80 blocks *)

Definition demo_sb : superblock := mksb FSMAGIC 80 44 16 31 2 33 35.
Definition demo_bitmap : list Z := [255; 255; 255; 255; 15] ++ replicate 1019 0.

Lemma demo_layout : fs_layout 2 demo_sb 80.
Proof. split; vm_compute; congruence. Qed.

Lemma demo_used b : 0 <= b < 36 -> dbit demo_bitmap b = true.
Proof.
  intros Hb. assert (forallb (dbit demo_bitmap) (zseq 0 36) = true) as Hall by (vm_compute; reflexivity).
  rewrite forallb_forall in Hall. apply Hall. unfold zseq. apply in_map_iff. exists (Z.to_nat b).
  split; [lia|]. apply in_seq. lia.
Qed.

Lemma demo_fs : exists s V, tx (cache := bio_cache 0 demo_pr) 2 s [35] [] V /\ k_sb s = demo_sb /\
  disk_len s = 80 /\ can_print s /\ blocks_ok demo_sb [] V /\ V 35 = demo_bitmap /\
  k_hart s = k_hart disk_state.
Proof.
  destruct (demo_transaction 0 1) as (s0 & L & C & Fh & Fu & Fd & Fo & _); [lia|].
  set (s1 := set_sb (fun _ => demo_sb) s0).
  assert (tx (cache := bio_cache 0 demo_pr) 2 s1 [] [] (disk_block disk_state)) as T1.
  { apply (tx_frame 2 s0); try done. split.
    - exact L.
    - exact C.
    - intros m _. unfold disk_block. by rewrite Fd.
    - by apply demo_lock_free.
    - lia. }
  assert (disk_len s1 = 80) as Hl by (unfold disk_len; change (k_disk s1) with (k_disk s0); rewrite Fd; reflexivity).
  destruct (tx_update 2 s1 [] [] _ 35 T1) as (i & s2 & _ & _ & _ & _ & U).
  { split; [lia|unfold in_log; change LOGBLOCKS with 30; lia]. }
  { apply not_elem_of_nil. }
  { simpl. lia. }
  destruct (U demo_bitmap) as (s3 & s4 & s' & _ & _ & _ & T & F); [reflexivity|].
  exists s', (vset (disk_block disk_state) 35 demo_bitmap). split; [exact T|].
  rewrite (fs_frame_sb _ _ F), (fs_frame_disk _ _ F). split; [reflexivity|]. split; [exact Hl|]. split.
  { unfold can_print, quiet_uart. rewrite F. ksimp. change (k_hart s1) with (k_hart s0). change (k_uart s1) with (k_uart s0).
    rewrite Fh, Fu. split; [apply hart_ok_idle|]. split; [apply lookup_empty|]. split; reflexivity. }
  split; [|split; [reflexivity|by rewrite F]]. split.
  - intros b Hb. assert (data_start demo_sb = 36) as Ed by reflexivity. rewrite Ed in Hb.
    unfold used. assert (BBLOCK b demo_sb = 35) as ->.
    { unfold BBLOCK. rewrite Z.div_small by (change BPB with 8192; lia). reflexivity. }
    rewrite Z.mod_small by (change BPB with 8192; lia). by apply demo_used.
  - intros n Hn. by apply elem_of_nil in Hn.
  - intros n Hn. by apply elem_of_nil in Hn.
Qed.

(** the demonstration file system after its first allocation, block 36 *)
Lemma demo_fs_alloc : exists s bl V, tx (cache := bio_cache 0 demo_pr) 2 s bl [] V /\ k_sb s = demo_sb /\
  disk_len s = 80 /\ can_print s /\ blocks_ok demo_sb [] V /\ used demo_sb V 36 = true /\ (length bl <= 3)%nat /\
  V 36 = zero_block.
Proof.
  destruct demo_fs as (s & V & T & Esb & El & Hp & O & E35 & _).
  assert (used demo_sb V 36 = false) as Hu.
  { unfold used. change (BBLOCK 36 demo_sb) with 35. rewrite E35. reflexivity. }
  pose proof demo_layout as L. rewrite <-Esb, <-El in L. rewrite <-Esb in O, Hu.
  destruct (balloc_run 2 s [35] [] V T L O) as [(b & s' & E & A)|(o & s' & _ & _ & _ & Hall)].
  - simpl. lia.
  - exact Hp.
  - destruct (balloc_took_view 2 s _ _ _ b s' T L O A) as (Hd & Hz & Hused & _ & O').
    destruct A as (Hb & Hub & Hleast & T' & F).
    assert (b = 36) as ->.
    { rewrite Esb in Hd. change (data_start demo_sb) with 36 in Hd. destruct (decide (b = 36)); [done|].
      rewrite Hleast in Hu by lia. discriminate. }
    exists s', (alloc_log (k_sb s) [35] 36), (alloc_view (k_sb s) V 36).
    rewrite (fs_frame_sb _ _ F), (fs_frame_disk _ _ F). split; [exact T'|]. split; [exact Esb|]. split; [exact El|].
    split. { destruct Hp as (P1 & P2 & P3). unfold can_print, quiet_uart in *. by rewrite F. }
    rewrite <-Esb. split; [exact O'|]. split.
    + rewrite Hused by exact Hb. by rewrite decide_True.
    + split; [apply (length_alloc_log (k_sb s) [35] 36)|exact Hz].
  - rewrite Esb in Hall, Hu. rewrite Hall in Hu by (change (sb_size demo_sb) with 80; lia). discriminate.
Qed.

Lemma balloc_correct_witness : exists s b s', balloc ROOTDEV s = Ok b s' /\ 36 <= b < 80.
Proof.
  destruct demo_fs as (s & V & T & Esb & El & Hp & O & E35 & _).
  assert (used demo_sb V 36 = false) as Hu.
  { unfold used. change (BBLOCK 36 demo_sb) with 35. rewrite E35. reflexivity. }
  pose proof demo_layout as L. rewrite <-Esb, <-El in L. rewrite <-Esb in O.
  destruct (balloc_correct 0 demo_pr 2 s [35] [] V T L O) as [(b & s' & bl' & V' & E & _ & _ & Hb & _)|(o & s' & _ & _ & _ & Hall)].
  - simpl. lia.
  - exact Hp.
  - exists s, b, s'. split; [exact E|]. rewrite Esb in Hb. exact Hb.
  - rewrite Esb in Hall. rewrite Hall in Hu by (change (sb_size demo_sb) with 80; lia). discriminate.
Defined.

Lemma bfree_correct_witness : exists s s', bfree ROOTDEV 36 s = Ok tt s'.
Proof.
  destruct demo_fs_alloc as (s & bl & V & T & Esb & El & Hp & O & Hu & Hl & _).
  pose proof demo_layout as L. rewrite <-Esb, <-El in L. rewrite <-Esb in O, Hu.
  pose proof (bfree_correct 0 demo_pr 2 s bl [] V 36 T L O) as B. cbv zeta in B. rewrite Hu in B.
  destruct B as (s' & V' & E & _).
  - simpl. lia.
  - rewrite Esb. vm_compute. split; congruence.
  - lia.
  - apply not_elem_of_nil.
  - destruct Hp as (_ & _ & [_ P]). exact P.
  - exists s, s'. exact E.
Defined.

Lemma bfree_balloc_witness : exists s b s', (bfree ROOTDEV 36 ;; balloc ROOTDEV) s = Ok b s' /\ b <= 36.
Proof.
  destruct demo_fs_alloc as (s & bl & V & T & Esb & El & Hp & O & Hu & Hl & _).
  pose proof demo_layout as L. rewrite <-Esb, <-El in L. rewrite <-Esb in O, Hu.
  destruct (bfree_balloc 0 demo_pr 2 s bl [] V 36 T L O) as (b & s' & E & Hle & _).
  - simpl. lia.
  - rewrite Esb. vm_compute. split; congruence.
  - lia.
  - apply not_elem_of_nil.
  - exact Hu.
  - exact Hp.
  - exists s, b, s'. split; [exact E|exact Hle].
Defined.
