(* ===== verification/FsInode.v ===== *)
(** Inodes of kernel/fs.c: the in-memory table (iget), and the encoding of an
    inode in its disk block (iupdate writes it, ilock reads it back). *)

From stdpp Require Import base gmap strings numbers list.
From S2P Require Import Prelude KState KString Spinlock Printf ProcSync SyncSpec Bio BioRing BioSpec.
From S2P Require Import BlockStore Log LogDisk LogSpec LogOps FsTx Kalloc Vm Fs FsBlock.

(** * The encoding of a dinode *)

(** a slice inside the replaced window *)
Lemma slice_splice_in {A} i j n (new l : list A) :
  0 <= i -> 0 <= j -> 0 <= n -> j + n <= Z.of_nat (length new) ->
  i + Z.of_nat (length new) <= Z.of_nat (length l) ->
  slice (i + j) n (splice i new l) = slice j n new.
Proof.
  intros Hi Hj Hn Hjn Hl. unfold slice, splice. rewrite Z2Nat.inj_add by lia.
  rewrite drop_app_ge by (rewrite length_take; lia).
  rewrite length_take_le by lia. replace (Z.to_nat i + Z.to_nat j - Z.to_nat i)%nat with (Z.to_nat j) by lia.
  rewrite drop_app_le by lia. rewrite take_app_le by (rewrite length_drop; lia). done.
Qed.

Lemma length_flat_le (l : list Z) : length (flat_map (le_bytes 4) l) = (4 * length l)%nat.
Proof. induction l as [|x l IH]; [done|]. cbn [flat_map length]. rewrite length_app, IH, length_le_bytes. lia. Qed.

Lemma slice_flat_le l : forall i : nat,
  (i < length l)%nat -> take 4 (drop (4 * i) (flat_map (le_bytes 4) l)) = le_bytes 4 (default 0 (l !! i)).
Proof.
  induction l as [|x l IH]; intros i Hi; [simpl in Hi; lia|]. cbn [flat_map]. destruct i as [|i].
  - rewrite Nat.mul_0_r. rewrite drop_0. rewrite take_app_le by (rewrite length_le_bytes; lia).
    rewrite take_ge by (rewrite length_le_bytes; lia). done.
  - replace (4 * S i)%nat with (4 + 4 * i)%nat by lia. rewrite <-drop_drop.
    rewrite drop_app_length' by (by rewrite length_le_bytes). apply IH. simpl in Hi. lia.
Qed.

Record dinode_ok (ip : inode) : Prop := {
  dk_type : - 2 ^ 15 <= i_type ip < 2 ^ 15;
  dk_major : - 2 ^ 15 <= i_major ip < 2 ^ 15;
  dk_minor : - 2 ^ 15 <= i_minor ip < 2 ^ 15;
  dk_nlink : - 2 ^ 15 <= i_nlink ip < 2 ^ 15;
  dk_size : 0 <= i_size ip < 2 ^ 32;
  dk_addrs : Forall (fun a => 0 <= a < 2 ^ 32) (i_addrs ip);
  dk_naddrs : length (i_addrs ip) = Z.to_nat (NDIRECT + 1)
}.

Lemma length_dinode_bytes ip : dinode_ok ip -> length (dinode_bytes ip) = Z.to_nat SIZEOF_DINODE.
Proof.
  intros [? ? ? ? ? ? Hn]. unfold dinode_bytes. rewrite !length_app, !length_le_bytes, length_flat_le, Hn. done.
Qed.

Lemma s16_bytes x : - 2 ^ 15 <= x < 2 ^ 15 -> s16 (le_val (le_bytes 2 x)) = x.
Proof.
  intros Hx. rewrite le_val_bytes. change (256 ^ Z.of_nat 2) with 65536. unfold s16, signed.
  change (2 ^ 16) with 65536. change (2 ^ (16 - 1)) with 32768. rewrite Z.mod_mod by lia.
  destruct (Z.ltb_spec (x mod 65536) 32768); Z.to_euclidean_division_equations; lia.
Qed.

(** the fields iload reads, as a function of the block *)
Definition load_dinode (d : list Z) (o : Z) (ip : inode) : inode :=
  mkinode (i_dev ip) (i_inum ip) (i_ref ip) (i_lock ip) (i_valid ip)
    (di_type d o) (di_major d o) (di_minor d o) (di_nlink d o) (di_size d o) (di_addrs d o).

(** the metadata two inodes share *)
Definition same_dinode (ip ip' : inode) : Prop :=
  i_type ip = i_type ip' /\ i_major ip = i_major ip' /\ i_minor ip = i_minor ip' /\
  i_nlink ip = i_nlink ip' /\ i_size ip = i_size ip' /\ i_addrs ip = i_addrs ip'.

Lemma dinode_roundtrip d o ip ip' :
  dinode_ok ip -> 0 <= o -> o + SIZEOF_DINODE <= Z.of_nat (length d) ->
  same_dinode (load_dinode (splice o (dinode_bytes ip) d) o ip') ip.
Proof.
  intros Hok Ho Hd. pose proof (length_dinode_bytes _ Hok) as Hl. change SIZEOF_DINODE with 64 in *.
  assert (forall j n, 0 <= j -> 0 <= n -> j + n <= 64 ->
    slice (o + j) n (splice o (dinode_bytes ip) d) = slice j n (dinode_bytes ip)) as Hs.
  { intros j n Hj Hn Hjn. apply slice_splice_in; rewrite ?Hl; lia. }
  assert (slice o 2 (splice o (dinode_bytes ip) d) = slice 0 2 (dinode_bytes ip)) as Hs0.
  { rewrite <-(Hs 0 2) by lia. by rewrite Z.add_0_r. }
  pose proof Hok as [H1 H2 H3 H4 H5 H6 H7]. unfold same_dinode, load_dinode.
  cbn [i_type i_major i_minor i_nlink i_size i_addrs].
  unfold di_type, di_major, di_minor, di_nlink, di_size, get16, get32. rewrite !Hs, Hs0 by lia.
  split_and!; try (by apply s16_bytes).
  - change (slice 8 4 (dinode_bytes ip)) with (le_bytes 4 (i_size ip)). by apply le_val_bytes_small.
  - unfold di_addrs. apply list_eq. intros k. unfold zseq. rewrite map_map.
    change (map ?g ?l) with (g <$> l). rewrite list_lookup_fmap.
    destruct (decide (k < Z.to_nat (NDIRECT + 1))%nat) as [Hk|Hk].
    + rewrite lookup_seq_lt by done. cbn [fmap option_fmap option_map]. destruct (lookup_lt_is_Some_2 (i_addrs ip) k) as [a Ha]; [lia|].
      rewrite Ha. f_equal. unfold di_addr, get32. change (Z.to_nat (NDIRECT + 1)) with 13%nat in Hk, H7.
      rewrite <-Z.add_assoc, Hs by lia.
      assert (slice (12 + 4 * (0 + Z.of_nat (0 + k))) 4 (dinode_bytes ip) = le_bytes 4 a) as ->.
      { unfold slice. replace (Z.to_nat (12 + 4 * (0 + Z.of_nat (0 + k)))) with (12 + 4 * k)%nat by lia.
        rewrite <-drop_drop. change (drop 12 (dinode_bytes ip)) with (flat_map (le_bytes 4) (i_addrs ip)).
        change (Z.to_nat 4) with 4%nat. rewrite slice_flat_le by lia. by rewrite Ha. }
      apply le_val_bytes_small. rewrite Forall_lookup in H6. by apply (H6 k).
    + rewrite lookup_ge_None_2 by (rewrite length_seq; lia). symmetry. apply lookup_ge_None_2. lia.
Qed.

(** the other inodes of the block are untouched *)
Lemma dinode_other d o o' ip ip' :
  dinode_ok ip -> 0 <= o -> 0 <= o' -> o + SIZEOF_DINODE <= Z.of_nat (length d) ->
  o' + SIZEOF_DINODE <= o \/ o + SIZEOF_DINODE <= o' ->
  load_dinode (splice o (dinode_bytes ip) d) o' ip' = load_dinode d o' ip'.
Proof.
  intros Hok Ho Ho' Hd Hdis. pose proof (length_dinode_bytes _ Hok) as Hl. change SIZEOF_DINODE with 64 in *.
  assert (forall j n, 0 <= j -> 0 <= n -> j + n <= 64 ->
    slice (o' + j) n (splice o (dinode_bytes ip) d) = slice (o' + j) n d) as Hs.
  { intros j n Hj Hn Hjn. apply slice_splice_ne; rewrite ?Hl; lia. }
  assert (slice o' 2 (splice o (dinode_bytes ip) d) = slice o' 2 d) as Hs0.
  { pose proof (Hs 0 2) as H0. rewrite Z.add_0_r in H0. apply H0; lia. }
  unfold load_dinode, di_type, di_major, di_minor, di_nlink, di_size, get16, get32.
  rewrite !Hs, Hs0 by lia. f_equal. unfold di_addrs, zseq. rewrite !map_map. apply map_ext_in. intros k Hk.
  apply in_seq in Hk. change (Z.to_nat (NDIRECT + 1)) with 13%nat in Hk. unfold di_addr, get32. rewrite <-!Z.add_assoc.
  by rewrite Hs by lia.
Qed.

(** * iupdate and ilock *)

(** the file system may have changed the cache, the log and the inode table,
    and may have printed *)
Definition ino_frame (s s' : kstate) : Prop :=
  exists o, s' = set_itable (fun _ => k_itable s') (set_log (fun _ => k_log s') (set_bufs (fun _ => k_bufs s') (emit o s))).

#[export] Instance ino_frame_refl : Reflexive ino_frame.
Proof. intros s. exists []. by rewrite emit_nil. Qed.
#[export] Instance ino_frame_trans : Transitive ino_frame.
Proof. intros s1 s2 s3 [o1 H1] [o2 H2]. exists (o1 ++ o2). rewrite H2, H1, <-emit_app. done. Qed.

Lemma fs_ino_frame o s s' : fs_frame (emit o s) s' -> ino_frame s s'.
Proof. intros F. exists o. rewrite F. done. Qed.
Lemma fs_ino_frame_quiet s s' : fs_frame s s' -> ino_frame s s'.
Proof. intros F. exists []. rewrite emit_nil, F. done. Qed.
Lemma ino_frame_upd i f s : ino_frame s (upd_inode i f s).
Proof. exists []. rewrite emit_nil. done. Qed.
#[export] Hint Resolve fs_ino_frame_quiet ino_frame_upd : kernel.

Lemma ino_frame_sb s s' : ino_frame s s' -> k_sb s' = k_sb s.
Proof. intros [o F]. rewrite F. done. Qed.
Lemma ino_frame_disk s s' : ino_frame s s' -> disk_len s' = disk_len s.
Proof. intros [o F]. rewrite F. done. Qed.
Lemma ino_frame_print s s' : ino_frame s s' -> can_print s -> can_print s'.
Proof. intros [o F] (P1 & P2 & P3). unfold can_print, quiet_uart in *. by rewrite F. Qed.
Lemma fs_frame_itable s s' : fs_frame s s' -> k_itable s' = k_itable s.
Proof. intros F. rewrite F. done. Qed.

Lemma iblock_in LS sb len inum :
  fs_layout LS sb len -> 0 <= inum < sb_ninodes sb ->
  IBLOCK inum sb = inum / IPB + sb_inodestart sb /\ sb_inodestart sb <= IBLOCK inum sb < sb_bmapstart sb.
Proof.
  intros [L1 L2 L3 L4 L5 L6 L7] Hi. unfold data_start in *. change LOGBLOCKS with 30 in *.
  assert (0 <= inum / IPB <= sb_ninodes sb / IPB) as Hd.
  { split; [apply Z.div_pos; change IPB with 16; lia|apply Z.div_le_mono; change IPB with 16; lia]. }
  assert (0 <= sb_size sb / BPB) by (change BPB with 8192 in *; Z.to_euclidean_division_equations; lia).
  unfold IBLOCK. rewrite (u32_small (inum / IPB + sb_inodestart sb)) by lia. lia.
Qed.

Lemma iblock_home LS s inum :
  fs_layout LS (k_sb s) (disk_len s) -> 0 <= inum < sb_ninodes (k_sb s) -> home LS s (IBLOCK inum (k_sb s)).
Proof.
  intros L Hi. destruct (iblock_in _ _ _ _ L Hi) as [_ Hr]. destruct L as [L1 L2 L3 L4 L5 L6 L7].
  unfold home, in_log, data_start in *. change LOGBLOCKS with 30 in *.
  assert (0 <= sb_size (k_sb s) / BPB) by (change BPB with 8192 in *; change IPB with 16 in *; Z.to_euclidean_division_equations; lia).
  lia.
Qed.

Lemma dinode_off_in inum : 0 <= dinode_off inum /\ dinode_off inum + SIZEOF_DINODE <= BSIZE.
Proof.
  unfold dinode_off. pose proof (Z.mod_pos_bound inum IPB ltac:(reflexivity)) as H.
  change SIZEOF_DINODE with 64. change IPB with 16 in *. change BSIZE with 1024. lia.
Qed.

(** the view after the inode has been written *)
Definition iupdate_view (sb : superblock) (V : Z -> list Z) (ino : inode) : Z -> list Z :=
  let n := IBLOCK (i_inum ino) sb in
  vset V n (splice (dinode_off (i_inum ino)) (dinode_bytes ino) (V n)).

(** the inode [inum] of the disk *)
Definition disk_inode (sb : superblock) (V : Z -> list Z) (inum : Z) (ip : inode) : inode :=
  load_dinode (V (IBLOCK inum sb)) (dinode_off inum) ip.

Section inode.
Context {cache} `{BS : BlockStore cache}.
Context (LS : Z).
Local Notation tx := (@FsTx.tx cache).

Lemma iupdate_run s bl H V ip ino :
  tx LS s bl H V -> fs_layout LS (k_sb s) (disk_len s) -> (length bl + length H < 30)%nat ->
  k_itable s !! ip = Some ino -> i_dev ino = ROOTDEV -> 0 <= i_inum ino < sb_ninodes (k_sb s) ->
  dinode_ok ino -> IBLOCK (i_inum ino) (k_sb s) ∉ H.*2 ->
  exists s', iupdate ip s = Ok tt s' /\
    tx LS s' (logged (IBLOCK (i_inum ino) (k_sb s)) bl) H (iupdate_view (k_sb s) V ino) /\ fs_frame s s'.
Proof.
  intros Ht L Hr Hip Hdev Hin Hok HnH. pose proof (iblock_home _ _ _ L Hin) as Hh.
  pose proof (tx_len LS _ _ _ _ _ Ht (proj1 Hh)) as Hlen.
  destruct (tx_update LS s bl H V _ Ht Hh HnH Hr) as (i & s1 & E1 & Ed & T1 & F1 & U).
  destruct (U (splice (dinode_off (i_inum ino)) (dinode_bytes ino) (V (IBLOCK (i_inum ino) (k_sb s)))))
    as (s2 & s3 & s4 & E2 & E3 & E4 & T4 & F4).
  { pose proof (dinode_off_in (i_inum ino)) as Ho. rewrite length_splice; [done|lia|].
    rewrite (length_dinode_bytes _ Hok), Hlen. change (Z.to_nat SIZEOF_DINODE) with 64%nat.
    change (Z.of_nat 64) with SIZEOF_DINODE. change (Z.of_nat (Z.to_nat BSIZE)) with BSIZE. lia. }
  exists s4. split; [|done]. unfold iupdate. mstep.
  erewrite bind_ok by (by apply get_inode_ok). rewrite Hdev.
  erewrite bind_ok by exact E1. erewrite bind_ok by exact Ed.
  erewrite bind_ok by exact E2. erewrite bind_ok by exact E3. exact E4.
Qed.

Lemma disk_inode_update s bl H V ino ip' :
  tx LS s bl H V -> fs_layout LS (k_sb s) (disk_len s) -> 0 <= i_inum ino < sb_ninodes (k_sb s) -> dinode_ok ino ->
  same_dinode (disk_inode (k_sb s) (iupdate_view (k_sb s) V ino) (i_inum ino) ip') ino /\
  forall inum, 0 <= inum < sb_ninodes (k_sb s) -> inum <> i_inum ino ->
    disk_inode (k_sb s) (iupdate_view (k_sb s) V ino) inum ip' = disk_inode (k_sb s) V inum ip'.
Proof.
  intros Ht L Hin Hok. pose proof (iblock_home _ _ _ L Hin) as Hh.
  pose proof (tx_len LS _ _ _ _ _ Ht (proj1 Hh)) as Hlen. pose proof (dinode_off_in (i_inum ino)) as Ho.
  unfold disk_inode, iupdate_view, vset. split.
  - rewrite decide_True by done. apply dinode_roundtrip; [done|lia|]. rewrite Hlen.
    change (Z.of_nat (Z.to_nat BSIZE)) with BSIZE. lia.
  - intros inum Hi Hne. destruct (decide (IBLOCK inum (k_sb s) = IBLOCK (i_inum ino) (k_sb s))) as [E|E]; [|done].
    rewrite E. apply dinode_other; [done|lia|apply dinode_off_in|rewrite Hlen; change (Z.of_nat (Z.to_nat BSIZE)) with BSIZE; lia|].
    destruct (iblock_in _ _ _ _ L Hi) as [E1 _], (iblock_in _ _ _ _ L Hin) as [E2 _].
    unfold dinode_off. change SIZEOF_DINODE with 64. change IPB with 16 in *.
    Z.to_euclidean_division_equations; lia.
Qed.

Lemma tx_upd_inode s bl H V i f : tx LS s bl H V -> tx LS (upd_inode i f s) bl H V.
Proof. intros Ht. by eapply (tx_frame LS s). Qed.

Lemma alter_insert (l : list inode) i f x : l !! i = Some x -> alter f i l = <[i := f x]> l.
Proof.
  intros Hx. apply list_eq. intros j. destruct (decide (i = j)) as [<-|Hne].
  - rewrite list_lookup_alter_eq, Hx, list_lookup_insert_eq; [done|]. by eapply lookup_lt_Some.
  - by rewrite list_lookup_alter_ne, list_lookup_insert_ne.
Qed.

Lemma alter_alter (l : list inode) i f g : alter f i (alter g i l) = alter (fun x => f (g x)) i l.
Proof.
  apply list_eq. intros j. destruct (decide (i = j)) as [<-|Hne].
  - rewrite !list_lookup_alter_eq. by destruct (l !! i).
  - by rewrite !list_lookup_alter_ne.
Qed.

Lemma upd_inode_twice i f g s : upd_inode i f (upd_inode i g s) = upd_inode i (fun x => f (g x)) s.
Proof.
  change (set_itable (fun t => alter f i (alter g i t)) s = set_itable (alter (fun x => f (g x)) i) s).
  unfold set_itable. by rewrite alter_alter.
Qed.

Lemma upd_inode_hart i f h s : set_hart (fun _ => k_hart s) (upd_inode i f (set_hart h s)) = upd_inode i f s.
Proof. reflexivity. Qed.

Lemma upd_inode_insert i f s a : k_itable s !! i = Some a -> upd_inode i f s = set_itable (<[i := f a]>) s.
Proof. intros Hi. unfold upd_inode, set_itable. by rewrite (alter_insert _ _ _ _ Hi). Qed.

(** the table entry after iload *)
Definition loaded (sb : superblock) (V : Z -> list Z) (ino : inode) : inode :=
  i_set_valid (fun _ => 1) (disk_inode sb V (i_inum ino) ino).

Lemma iload_run s bl H V j ino :
  tx LS s bl H V -> fs_layout LS (k_sb s) (disk_len s) -> (length bl + length H < 30)%nat ->
  k_itable s !! j = Some ino -> i_dev ino = ROOTDEV -> 0 <= i_inum ino < sb_ninodes (k_sb s) ->
  IBLOCK (i_inum ino) (k_sb s) ∉ H.*2 -> i_type (loaded (k_sb s) V ino) <> 0 ->
  exists s', iload j s = Ok tt s' /\ tx LS s' bl H V /\ ino_frame s s' /\
    k_itable s' = <[j := loaded (k_sb s) V ino]> (k_itable s).
Proof.
  intros Ht L Hr Hj Hdev Hin HnH Hty. pose proof (iblock_home _ _ _ L Hin) as Hh.
  destruct (tx_bread LS s bl H V _ Ht (proj1 Hh) HnH Hr) as (i & s1 & E1 & T1 & F1).
  assert (bdata i s1 = Ok (V (IBLOCK (i_inum ino) (k_sb s))) s1) as Ed by (eapply tx_bdata; [exact T1|set_solver]).
  unfold iload. erewrite bind_ok by (by apply get_inode_ok). mstep. rewrite Hdev.
  erewrite bind_ok by exact E1. erewrite bind_ok by exact Ed. cbv zeta. mstep.
  set (s2 := upd_inode j _ s1).
  assert (k_itable s2 = <[j := disk_inode (k_sb s) V (i_inum ino) ino]> (k_itable s)) as Et.
  { unfold s2. ksimp. rewrite (fs_frame_itable _ _ F1). rewrite (alter_insert _ _ _ _ Hj). done. }
  destruct (tx_brelse LS s2 bl H V i _ (tx_upd_inode _ _ _ _ _ _ T1) HnH) as (s3 & E3 & T3 & F3).
  erewrite bind_ok by exact E3. mstep.
  assert (j < length (k_itable s))%nat as Hlt by by eapply lookup_lt_Some.
  assert (k_itable (upd_inode j (i_set_valid (fun _ => 1)) s3) = <[j := loaded (k_sb s) V ino]> (k_itable s)) as Ev.
  { ksimp. rewrite (fs_frame_itable _ _ F3), Et.
    rewrite (alter_insert _ _ _ (disk_inode (k_sb s) V (i_inum ino) ino)) by (by apply list_lookup_insert_eq).
    by rewrite list_insert_insert_eq. }
  erewrite bind_ok.
  2: { apply get_inode_ok. rewrite Ev. by apply list_lookup_insert_eq. }
  rewrite (proj2 (Z.eqb_neq _ _) Hty). eexists. split; [done|]. split; [by apply tx_upd_inode|]. split; [|exact Ev].
  transitivity s1; [by apply fs_ino_frame_quiet|]. transitivity s2; [apply ino_frame_upd|].
  transitivity s3; [by apply fs_ino_frame_quiet|apply ino_frame_upd].
Qed.

Lemma ilock_run s bl H V j ino p pr :
  tx LS s bl H V -> fs_layout LS (k_sb s) (disk_len s) -> (length bl + length H < 30)%nat ->
  thread_ok s p pr -> h_locks (k_hart s) !! LSleep (SLInode j) = None ->
  k_itable s !! j = Some ino -> 1 <= i_ref ino -> sl_locked (i_lock ino) = 0 -> i_valid ino = 0 ->
  i_dev ino = ROOTDEV -> 0 <= i_inum ino < sb_ninodes (k_sb s) ->
  IBLOCK (i_inum ino) (k_sb s) ∉ H.*2 -> i_type (loaded (k_sb s) V ino) <> 0 ->
  exists s', ilock (Some j) s = Ok tt s' /\ tx LS s' bl H V /\ ino_frame s s' /\
    k_itable s' = <[j := loaded (k_sb s) V (i_set_lock (fun _ => mksleeplock 1 (p_pid pr)) ino)]> (k_itable s).
Proof.
  intros Ht L Hr Hth Hsl Hj Href Hfree Hval Hdev Hin HnH Hty. unfold ilock.
  erewrite bind_ok by (by apply get_inode_ok). rewrite (proj2 (Z.ltb_ge _ _)) by lia.
  set (lk := mksleeplock 1 (p_pid pr)). set (ino' := i_set_lock (fun _ => lk) ino).
  erewrite bind_ok.
  2: { eapply acquiresleep_run; [exact Hth|exact Hsl| |exact Hfree]. unfold slock. cbn. by rewrite Hj. }
  set (s1 := upd_inode j (i_set_lock (fun _ => lk)) s). change (upd_sleeplock (SLInode j) lk s) with s1.
  assert (k_itable s1 = <[j := ino']> (k_itable s)) as Et by (unfold s1; ksimp; by rewrite (alter_insert _ _ _ _ Hj)).
  assert (j < length (k_itable s))%nat as Hlt by by eapply lookup_lt_Some.
  assert (k_itable s1 !! j = Some ino') as Hj1 by (rewrite Et; by apply list_lookup_insert_eq).
  erewrite bind_ok by (by apply get_inode_ok). change (i_valid ino') with (i_valid ino). rewrite Hval. cbn [Z.eqb whenM].
  destruct (iload_run s1 bl H V j ino') as (s' & E & T & F & Ek); try done.
  { by apply tx_upd_inode. }
  exists s'. split; [done|]. split; [done|]. split.
  - transitivity s1; [apply ino_frame_upd|done].
  - rewrite Ek, Et. by rewrite list_insert_insert_eq.
Qed.
End inode.

(** * The inode table *)

(** a table entry that stands for the inode [inum] of [dev] *)
Definition is_entry (dev inum : Z) (ip : inode) : Prop := 0 < i_ref ip /\ i_dev ip = dev /\ i_inum ip = inum.

(** reference counts are counts, and an inode has at most one entry: two
    pointers to the same inode are the same pointer *)
Record itable_ok (tab : list inode) : Prop := {
  it_ref i a : tab !! i = Some a -> 0 <= i_ref a;
  it_unique i j a b dev inum : tab !! i = Some a -> tab !! j = Some b ->
    is_entry dev inum a -> is_entry dev inum b -> i = j
}.

Lemma iget_match dev inum ip :
  (0 <? i_ref ip) && (i_dev ip =? dev) && (i_inum ip =? inum) = true <-> is_entry dev inum ip.
Proof. unfold is_entry. rewrite !andb_true_iff, Z.ltb_lt, !Z.eqb_eq. tauto. Qed.

Lemma iget_scan_spec dev inum l : forall i e,
  match iget_scan l i dev inum e with
  | (Some k, _) => exists a, (i <= k)%nat /\ l !! (k - i)%nat = Some a /\ is_entry dev inum a
  | (None, e') => (forall k a, l !! k = Some a -> ~ is_entry dev inum a) /\
      match e with
      | Some k => e' = Some k
      | None => match e' with
                | Some k => exists a, (i <= k)%nat /\ l !! (k - i)%nat = Some a /\ i_ref a = 0
                | None => forall k a, l !! k = Some a -> i_ref a <> 0
                end
      end
  end.
Proof.
  induction l as [|ip l IH]; intros i e; cbn [iget_scan].
  { split; [by intros k a Hk; rewrite lookup_nil in Hk|]. destruct e; [done|]. intros k a Hk. by rewrite lookup_nil in Hk. }
  destruct ((0 <? i_ref ip) && (i_dev ip =? dev) && (i_inum ip =? inum)) eqn:Em.
  { exists ip. rewrite Nat.sub_diag. split; [lia|]. split; [done|]. by apply iget_match. }
  assert (~ is_entry dev inum ip) as Hno by (rewrite <-iget_match; congruence).
  set (e1 := match e with Some _ => e | None => if i_ref ip =? 0 then Some i else None end).
  specialize (IH (S i) e1). destruct (iget_scan l (S i) dev inum e1) as [[k|] e'].
  { destruct IH as (a & Hk & Ha & Hea). exists a. split; [lia|]. split; [|done].
    by replace (k - i)%nat with (S (k - S i)) by lia. }
  destruct IH as [Hall He]. split.
  { intros [|k] a Ha; [by injection Ha as <-|]. by eapply Hall. }
  unfold e1 in He. destruct e as [k|]; [done|]. destruct (Z.eqb_spec (i_ref ip) 0) as [E0|E0].
  - subst e'. exists ip. rewrite Nat.sub_diag. by split.
  - destruct e' as [k|].
    + destruct He as (a & Hk & Ha & Hz). exists a. split; [lia|]. split; [|done].
      by replace (k - i)%nat with (S (k - S i)) by lia.
    + intros [|k] a Ha; [by injection Ha as <-|]. by eapply He.
Qed.

(** the entry iget makes for an inode that has none *)
Definition fresh_entry (dev inum : Z) (ip : inode) : inode :=
  i_set_valid (fun _ => 0) (i_set_ref (fun _ => 1) (i_set_inum (fun _ => inum) (i_set_dev (fun _ => dev) ip))).

Lemma iget_hit s dev inum i a :
  lock_free LItable s -> itable_ok (k_itable s) -> k_itable s !! i = Some a -> is_entry dev inum a ->
  iget dev inum s = Ok i (upd_inode i (i_set_ref (fun n => n + 1)) s).
Proof.
  intros Hl Hok Hi Ha. unfold iget. erewrite bind_ok by (by apply acquire_run). mstep. ksimp.
  pose proof (iget_scan_spec dev inum (k_itable s) 0 None) as Hs.
  change (k_itable (set_hart (hart_lock LItable) s)) with (k_itable s).
  destruct (iget_scan (k_itable s) 0 dev inum None) as [[k|] e'].
  - destruct Hs as (b & _ & Hk & Hb). rewrite Nat.sub_0_r in Hk.
    rewrite (it_unique _ Hok k i b a dev inum) by done. mstep.
    destruct Hl as [Hh Hf]. erewrite bind_ok by (by apply (release_locked LItable _ (k_hart s))). done.
  - destruct Hs as [Hno _]. by destruct (Hno i a).
Qed.

Lemma iget_miss s dev inum :
  lock_free LItable s -> (forall i a, k_itable s !! i = Some a -> ~ is_entry dev inum a) ->
  (exists i a, k_itable s !! i = Some a /\ i_ref a = 0 /\
     iget dev inum s = Ok i (set_itable (<[i := fresh_entry dev inum a]>) s)) \/
  (forall i a, k_itable s !! i = Some a -> i_ref a <> 0) /\
  (u_panicked (k_uart s) = 0 -> exists s', iget dev inum s = Panic "iget: no inodes" s').
Proof.
  intros Hl Hno. unfold iget. pose proof (iget_scan_spec dev inum (k_itable s) 0 None) as Hs.
  destruct (iget_scan (k_itable s) 0 dev inum None) as [[k|] e'] eqn:Es.
  { destruct Hs as (b & _ & Hk & Hb). by destruct (Hno _ _ Hk). }
  destruct Hs as [_ He]. destruct e' as [k|].
  - left. destruct He as (a & _ & Hk & Hz). rewrite Nat.sub_0_r in Hk. exists k, a. split; [done|]. split; [done|].
    erewrite bind_ok by (by apply acquire_run). mstep.
    change (k_itable (set_hart (hart_lock LItable) s)) with (k_itable s). rewrite Es. cbv iota beta.
    repeat mstep. destruct Hl as [Hh Hf].
    erewrite bind_ok by (by apply (release_locked LItable _ (k_hart s))). unfold ret. f_equal.
    rewrite !upd_inode_twice, upd_inode_hart. by apply upd_inode_insert.
  - right. split; [done|]. intros Hp. erewrite bind_ok by (by apply acquire_run). mstep.
    change (k_itable (set_hart (hart_lock LItable) s)) with (k_itable s). rewrite Es. cbv iota beta.
    by apply panic_is_panic.
Qed.

(** what the table looks like after an entry has changed *)
Lemma itable_ok_insert tab i a x :
  itable_ok tab -> tab !! i = Some a -> 0 <= i_ref x ->
  (forall dev inum, is_entry dev inum x ->
     is_entry dev inum a \/ forall j b, tab !! j = Some b -> ~ is_entry dev inum b) ->
  itable_ok (<[i := x]> tab).
Proof.
  intros Hok Hi Hx Hent. assert (i < length tab)%nat as Hlt by by eapply lookup_lt_Some. split.
  - intros j b. destruct (decide (i = j)) as [<-|Hne].
    + rewrite list_lookup_insert_eq by done. by intros [= <-].
    + rewrite list_lookup_insert_ne by done. by apply it_ref.
  - intros j k b c dev inum Hb Hc Eb Ec.
    assert (forall m d, <[i := x]> tab !! m = Some d -> is_entry dev inum d -> m <> i ->
      tab !! m = Some d) as Hother.
    { intros m d Hm _ Hne. by rewrite list_lookup_insert_ne in Hm. }
    destruct (decide (j = i)) as [->|Hj], (decide (k = i)) as [->|Hk]; [done|..].
    + rewrite list_lookup_insert_eq in Hb by done. injection Hb as <-. apply Hother in Hc; [|done..].
      destruct (Hent dev inum Eb) as [Ea|Hno]; [by eapply (it_unique _ Hok)|by destruct (Hno k c)].
    + rewrite list_lookup_insert_eq in Hc by done. injection Hc as <-. apply Hother in Hb; [|done..].
      destruct (Hent dev inum Ec) as [Ea|Hno]; [by eapply (it_unique _ Hok)|by destruct (Hno j b)].
    + apply Hother in Hb, Hc; [|done..]. by eapply (it_unique _ Hok).
Qed.

(** * Theorems *)

(** C31: iget keeps the inode table well formed, so that an inode never has
    two entries: it returns the live entry of the inode with one more
    reference, otherwise takes a free entry with one reference that is to be
    read from disk; nothing else changes, and asking again gives the same
    pointer.  It panics exactly when the inode has no entry and none is
    free. *)
Theorem iget_correct dev inum s :
  lock_free LItable s -> itable_ok (k_itable s) -> u_panicked (k_uart s) = 0 ->
  (exists i a x, k_itable s !! i = Some a /\
     (is_entry dev inum a /\ x = i_set_ref (fun n => n + 1) a \/
      i_ref a = 0 /\ x = fresh_entry dev inum a /\ forall j b, k_itable s !! j = Some b -> ~ is_entry dev inum b) /\
     let s' := set_itable (<[i := x]>) s in
     iget dev inum s = Ok i s' /\ is_entry dev inum x /\ itable_ok (k_itable s') /\
     exists s'', iget dev inum s' = Ok i s'') \/
  ((forall i a, k_itable s !! i = Some a -> i_ref a <> 0 /\ ~ is_entry dev inum a) /\
   exists s', iget dev inum s = Panic "iget: no inodes" s').
Proof.
  intros Hl Hok Hp.
  assert (forall i a x, k_itable s !! i = Some a -> is_entry dev inum x -> itable_ok (<[i := x]> (k_itable s)) ->
    exists s'', iget dev inum (set_itable (<[i := x]>) s) = Ok i s'') as Hagain.
  { intros i a x Hi Hx Hx'. eexists. eapply iget_hit; [exact Hl|exact Hx'| |exact Hx].
    apply list_lookup_insert_eq. by eapply lookup_lt_Some. }
  destruct (iget_scan (k_itable s) 0 dev inum None) as [[i|] e] eqn:Es;
    pose proof (iget_scan_spec dev inum (k_itable s) 0 None) as Hs; rewrite Es in Hs.
  - left. destruct Hs as (a & _ & Hi & Ha). rewrite Nat.sub_0_r in Hi.
    set (x := i_set_ref (fun n => n + 1) a). pose proof Ha as (H1 & H2 & H3).
    assert (is_entry dev inum x) as Hx by (split; [|done]; change (0 < i_ref a + 1); lia).
    assert (itable_ok (<[i := x]> (k_itable s))) as Hok'.
    { eapply itable_ok_insert; [done|exact Hi|change (0 <= i_ref a + 1); lia|].
      intros dev' inum' (_ & E1 & E2). left. by split. }
    exists i, a, x. split; [done|]. split; [by left|]. split_and!; try done.
    + rewrite (iget_hit s dev inum i a) by done. by rewrite (upd_inode_insert _ _ _ _ Hi).
    + by eapply Hagain.
  - destruct Hs as [Hno _].
    destruct (iget_miss s dev inum Hl Hno) as [(i & a & Hi & Hz & E)|[Hfull HP]].
    + left. assert (is_entry dev inum (fresh_entry dev inum a)) as Hx by (split; [|done]; change (0 < 1); lia).
      assert (itable_ok (<[i := fresh_entry dev inum a]> (k_itable s))) as Hok'.
      { eapply itable_ok_insert; [done|exact Hi|change (0 <= 1); lia|]. intros dev' inum' (_ & <- & <-). by right. }
      exists i, a, (fresh_entry dev inum a). split; [done|]. split; [by right|]. split_and!; try done. by eapply Hagain.
    + right. split; [|by apply HP]. intros i a Hi. split; [by eapply Hfull|by eapply Hno].
Qed.

(** C36: what iupdate writes, ilock reads back: after iupdate of an inode, and
    whatever has become of the inode table in between, ilock of an entry for
    the same inode that is to be read from disk returns with the same type,
    device numbers, link count, size and block addresses, the entry valid and
    its sleep lock held by the caller; the other inodes of the disk are
    untouched. *)
Theorem iupdate_ilock p pr LS s bl V ip ino :
  tx (cache := bio_cache p pr) LS s bl [] V -> fs_layout LS (k_sb s) (disk_len s) -> (length bl < 29)%nat ->
  thread_ok s p pr -> k_itable s !! ip = Some ino -> i_dev ino = ROOTDEV ->
  0 <= i_inum ino < sb_ninodes (k_sb s) -> dinode_ok ino -> i_type ino <> 0 ->
  exists s1 V', iupdate ip s = Ok tt s1 /\
    tx (cache := bio_cache p pr) LS s1 (logged (IBLOCK (i_inum ino) (k_sb s)) bl) [] V' /\ fs_frame s s1 /\
    (forall inum x, 0 <= inum < sb_ninodes (k_sb s) -> inum <> i_inum ino ->
       disk_inode (k_sb s) V' inum x = disk_inode (k_sb s) V inum x) /\
    forall tab j jno, tab !! j = Some jno -> h_locks (k_hart s) !! LSleep (SLInode j) = None ->
      1 <= i_ref jno -> sl_locked (i_lock jno) = 0 -> i_valid jno = 0 ->
      i_dev jno = ROOTDEV -> i_inum jno = i_inum ino ->
      exists s' jno', ilock (Some j) (set_itable (fun _ => tab) s1) = Ok tt s' /\
        k_itable s' = <[j := jno']> tab /\ same_dinode jno' ino /\ i_valid jno' = 1 /\
        i_lock jno' = mksleeplock 1 (p_pid pr).
Proof.
  intros Ht L Hr Hth Hip Hdev Hin Hok Hty.
  destruct (iupdate_run LS s bl [] V ip ino Ht L) as (s1 & E1 & T1 & F1); try done.
  { simpl. lia. }
  { apply not_elem_of_nil. }
  exists s1, (iupdate_view (k_sb s) V ino). split; [done|]. split; [done|]. split; [done|]. split.
  { intros inum x Hi Hne. by apply (disk_inode_update LS s bl [] V ino x Ht L Hin Hok). }
  intros tab j jno Hj Hsl Href Hfree Hval Hdj Hij. set (s2 := set_itable (fun _ => tab) s1).
  assert (tx (cache := bio_cache p pr) LS s2 (logged (IBLOCK (i_inum ino) (k_sb s)) bl) [] (iupdate_view (k_sb s) V ino)) as T2
    by (by eapply (tx_frame LS s1)).
  pose proof (fs_frame_sb _ _ F1) as Esb. assert (k_sb s2 = k_sb s) as Esb2 by exact Esb.
  assert (disk_len s2 = disk_len s) as El2 by exact (fs_frame_disk _ _ F1).
  pose proof (proj1 (disk_inode_update LS s bl [] V ino jno Ht L Hin Hok)) as Hd.
  destruct (ilock_run LS s2 _ [] _ j jno p pr T2) as (s' & E' & T' & F' & Ek).
  - by rewrite Esb2, El2.
  - simpl. pose proof (length_logged (IBLOCK (i_inum ino) (k_sb s)) bl). lia.
  - destruct Hth. by split; unfold s2; ksimp; rewrite F1.
  - unfold s2. ksimp. by rewrite F1.
  - exact Hj.
  - done.
  - done.
  - done.
  - done.
  - by rewrite Esb2, Hij.
  - apply not_elem_of_nil.
  - rewrite Esb2. unfold loaded. rewrite Hij. destruct Hd as (Hd & _). cbn [i_set_valid i_type]. rewrite Hd. done.
  - eexists s', _. split; [exact E'|]. split; [exact Ek|]. rewrite Esb2.
    unfold loaded. cbn [i_inum i_set_lock]. rewrite Hij. split; [exact Hd|done].
Qed.

(** * Witnesses *)

Lemma cache_thread p pr s H V R : bio_cache p pr s H V R -> thread_ok s p pr.
Proof. intros ([l Hok] & _). apply (bo_thread _ _ _ _ _ Hok). Qed.

Definition demo_inode : inode := mkinode ROOTDEV 1 1 sleeplock0 1 T_DIR 0 0 1 2048 ([36; 37] ++ replicate 11 0).
Definition demo_itable : list inode := demo_inode :: replicate 49 inode0.

Lemma demo_itable_lookup i a : demo_itable !! i = Some a -> i = 0%nat /\ a = demo_inode \/ a = inode0.
Proof. destruct i as [|i]; [intros [= <-]; by left|]. intros Hi. right. by apply lookup_replicate in Hi as [-> _]. Qed.

Lemma demo_itable_ok : itable_ok demo_itable.
Proof.
  split.
  - intros i a Hi. destruct (demo_itable_lookup _ _ Hi) as [[_ ->]| ->]; cbv; discriminate.
  - intros i j a b dev inum Hi Hj Ha Hb.
    destruct (demo_itable_lookup _ _ Hi) as [[-> _]| ->]; [|by destruct Ha as [? _]].
    destruct (demo_itable_lookup _ _ Hj) as [[-> _]| ->]; [done|by destruct Hb as [? _]].
Qed.

Lemma demo_inode_ok : dinode_ok demo_inode.
Proof.
  split; try (split; [discriminate|reflexivity]); [|reflexivity].
  repeat (apply Forall_cons; split; [split; [discriminate|reflexivity]|]). constructor.
Qed.

Lemma iget_correct_witness :
  exists s i s', itable_ok (k_itable s) /\ iget ROOTDEV 1 s = Ok i s' /\ itable_ok (k_itable s').
Proof.
  set (s := set_itable (fun _ => demo_itable) boot_state).
  destruct (iget_correct ROOTDEV 1 s) as [(i & a & x & _ & _ & E & _ & Hok & _)|[Hno _]].
  - apply boot_lock_free.
  - exact demo_itable_ok.
  - reflexivity.
  - exists s, i, (set_itable (<[i := x]>) s). split; [exact demo_itable_ok|]. split; [exact E|exact Hok].
  - destruct (Hno 0%nat demo_inode eq_refl) as [_ Hn]. destruct Hn. split; [reflexivity|]. split; reflexivity.
Defined.

Lemma iupdate_ilock_witness : exists s s1 s', iupdate 0 s = Ok tt s1 /\
  ilock (Some 0%nat) (set_itable (fun _ => [i_set_valid (fun _ => 0) demo_inode]) s1) = Ok tt s'.
Proof.
  destruct demo_fs as (s0 & V & T0 & Esb & El & Hp & O & E35 & Eh).
  set (s := set_itable (fun _ => demo_itable) s0).
  assert (tx (cache := bio_cache 0 demo_pr) 2 s [35] [] V) as T by (apply (tx_frame 2 s0); done).
  assert (h_locks (k_hart s0) !! LSleep (SLInode 0) = None) as Hlk by (rewrite Eh; apply lookup_empty).
  destruct (iupdate_ilock 0 demo_pr 2 s [35] V 0 demo_inode T) as (s1 & V' & E1 & _ & _ & _ & Hload).
  - change (fs_layout 2 (k_sb s0) (disk_len s0)). rewrite Esb, El. apply demo_layout.
  - simpl. lia.
  - exact (cache_thread _ _ _ _ _ _ (tx_cache _ _ _ _ _ T)).
  - reflexivity.
  - reflexivity.
  - change (k_sb s) with (k_sb s0). rewrite Esb. vm_compute. split; congruence.
  - apply demo_inode_ok.
  - vm_compute. congruence.
  - destruct (Hload [i_set_valid (fun _ => 0) demo_inode] 0%nat (i_set_valid (fun _ => 0) demo_inode))
      as (s' & jno' & E' & _).
    + reflexivity.
    + exact Hlk.
    + discriminate.
    + reflexivity.
    + reflexivity.
    + reflexivity.
    + reflexivity.
    + exists s, s1, s'. split; [exact E1|exact E'].
Defined.
