(* ===== verification/FsFile.v ===== *)
(** The blocks of a file: bmap of kernel/fs.c against a view of a file as a
    map from file blocks to disk blocks.  [fblock V ino k] is the disk block
    of file block [k] (0 for none), [file_ok] says that the blocks of the file
    are data blocks in use, each for one purpose. *)

From stdpp Require Import base gmap strings numbers list.
From S2P Require Import Prelude KState KString Spinlock Printf ProcSync SyncSpec Bio BioRing BioSpec.
From S2P Require Import BlockStore Log LogDisk LogSpec LogOps FsTx Kalloc Vm Fs FsBlock FsInode.

(** * The blocks of a file *)

Definition ind_block (ino : inode) : Z := zget (i_addrs ino) NDIRECT.

Definition fblock (V : Z -> list Z) (ino : inode) (k : Z) : Z :=
  if k <? NDIRECT then zget (i_addrs ino) k
  else if ind_block ino =? 0 then 0 else get32 (V (ind_block ino)) (4 * (k - NDIRECT)).

(** all addresses of a file: its blocks, and at [MAXFILE] the indirect block *)
Definition faddr (V : Z -> list Z) (ino : inode) (k : Z) : Z :=
  if k =? MAXFILE then ind_block ino else fblock V ino k.

(** no disk block has two places in the file *)
Definition file_inj (V : Z -> list Z) (ino : inode) : Prop :=
  forall k k', 0 <= k <= MAXFILE -> 0 <= k' <= MAXFILE -> faddr V ino k <> 0 ->
    faddr V ino k = faddr V ino k' -> k = k'.

Record file_ok (sb : superblock) (V : Z -> list Z) (ino : inode) : Prop := {
  fk_dev : i_dev ino = ROOTDEV;
  fk_len : length (i_addrs ino) = Z.to_nat (NDIRECT + 1);
  fk_data k : 0 <= k <= MAXFILE -> faddr V ino k <> 0 ->
    data_start sb <= faddr V ino k < sb_size sb /\ used sb V (faddr V ino k) = true;
  fk_inj : file_inj V ino
}.

Lemma faddr_block V ino k : k < MAXFILE -> faddr V ino k = fblock V ino k.
Proof. intros Hk. unfold faddr. by rewrite (proj2 (Z.eqb_neq k MAXFILE)) by lia. Qed.
Lemma faddr_ind V ino : faddr V ino MAXFILE = ind_block ino.
Proof. reflexivity. Qed.

(** a file whose addresses are those of another one, but for slot [k] *)
Lemma file_ok_set sb V V' ino ino' k b :
  file_ok sb V ino -> i_dev ino' = ROOTDEV -> length (i_addrs ino') = Z.to_nat (NDIRECT + 1) ->
  (forall a, data_start sb <= a < sb_size sb -> used sb V a = true -> used sb V' a = true) ->
  (forall k', 0 <= k' <= MAXFILE -> faddr V' ino' k' = if decide (k' = k) then b else faddr V ino k') ->
  (b <> 0 -> data_start sb <= b < sb_size sb /\ used sb V' b = true /\
     forall k', 0 <= k' <= MAXFILE -> faddr V ino k' <> b) ->
  file_ok sb V' ino'.
Proof.
  intros [F1 F2 F3 F4] Hdev Hlen Hmono Hf Hb. split; [done|done|..].
  - intros k' Hk'. rewrite Hf by done. destruct (decide (k' = k)) as [->|Hne].
    + intros Hnz. by destruct (Hb Hnz) as (? & ? & _).
    + intros Hnz. destruct (F3 k' Hk' Hnz) as [Hr Hu]. split; [done|]. by apply Hmono.
  - intros k1 k2 H1 H2. rewrite !Hf by done.
    destruct (decide (k1 = k)) as [->|N1], (decide (k2 = k)) as [->|N2]; try done.
    + intros Hnz E. destruct (Hb Hnz) as (_ & _ & Hfresh). by destruct (Hfresh k2 H2).
    + intros Hnz E. rewrite E in Hnz. destruct (Hb Hnz) as (_ & _ & Hfresh). by destruct (Hfresh k1 H1).
    + by apply F4.
Qed.

(** the same addresses *)
Lemma file_ok_same sb V V' ino ino' :
  file_ok sb V ino -> i_dev ino' = ROOTDEV -> length (i_addrs ino') = Z.to_nat (NDIRECT + 1) ->
  (forall a, data_start sb <= a < sb_size sb -> used sb V a = true -> used sb V' a = true) ->
  (forall k', 0 <= k' <= MAXFILE -> faddr V' ino' k' = faddr V ino k') -> file_ok sb V' ino'.
Proof.
  intros F Hdev Hlen Hmono Hf. apply (file_ok_set sb V V' ino ino' (-1) 0); try done.
  intros k' Hk'. rewrite decide_False by lia. by apply Hf.
Qed.

(** the addresses only depend on the inode and the indirect block *)
Lemma faddr_ext V V' ino k :
  (ind_block ino <> 0 -> V' (ind_block ino) = V (ind_block ino)) -> faddr V' ino k = faddr V ino k.
Proof.
  intros H. unfold faddr, fblock. destruct (k =? MAXFILE); [done|]. destruct (k <? NDIRECT); [done|].
  destruct (Z.eqb_spec (ind_block ino) 0); [done|]. by rewrite H.
Qed.

Lemma get32_zero off : get32 zero_block off = 0.
Proof.
  unfold get32, slice, zero_block. rewrite drop_replicate, take_replicate.
  generalize (Z.to_nat 4 `min` (Z.to_nat BSIZE - Z.to_nat off))%nat as n.
  induction n as [|n IH]; [done|]. cbn [replicate le_val]. rewrite IH. done.
Qed.

(** the inode with address [k] set *)
Definition with_addr (k x : Z) (ino : inode) : inode := i_set_addrs (fun a => zput a k x) ino.

Lemma faddr_direct V ino k b k' :
  length (i_addrs ino) = Z.to_nat (NDIRECT + 1) -> 0 <= k < NDIRECT -> 0 <= k' ->
  faddr V (with_addr k b ino) k' = if decide (k' = k) then b else faddr V ino k'.
Proof.
  intros Hl Hk Hk'. change (Z.to_nat (NDIRECT + 1)) with 13%nat in Hl. change NDIRECT with 12 in *.
  assert (ind_block (with_addr k b ino) = ind_block ino) as Hi.
  { unfold ind_block, with_addr. cbn [i_set_addrs i_addrs]. apply zget_zput_ne; change NDIRECT with 12; lia. }
  unfold faddr, fblock. rewrite Hi. change MAXFILE with 268. change NDIRECT with 12.
  destruct (Z.eqb_spec k' 268); [by rewrite decide_False by lia|].
  destruct (Z.ltb_spec k' 12) as [Hlt|Hge]; [|by rewrite decide_False by lia].
  unfold with_addr. cbn [i_set_addrs i_addrs]. destruct (decide (k' = k)) as [->|Hne].
  - apply zget_zput_eq. rewrite Hl. lia.
  - apply zget_zput_ne; lia.
Qed.

(** a fresh, zeroed indirect block *)
Lemma faddr_indirect V ino b k' :
  length (i_addrs ino) = Z.to_nat (NDIRECT + 1) -> ind_block ino = 0 -> b <> 0 -> V b = zero_block -> 0 <= k' ->
  faddr V (with_addr NDIRECT b ino) k' = if decide (k' = MAXFILE) then b else faddr V ino k'.
Proof.
  intros Hl H0 Hb Hz Hk'. change (Z.to_nat (NDIRECT + 1)) with 13%nat in Hl.
  assert (ind_block (with_addr NDIRECT b ino) = b) as Hi.
  { unfold ind_block, with_addr. cbn [i_set_addrs i_addrs]. apply zget_zput_eq. rewrite Hl. by split. }
  unfold faddr, fblock. rewrite Hi, H0. destruct (Z.eqb_spec k' MAXFILE); [by rewrite decide_True|].
  rewrite decide_False by done. destruct (Z.ltb_spec k' NDIRECT) as [Hlt|Hge].
  - unfold with_addr. cbn [i_set_addrs i_addrs]. change NDIRECT with 12 in *. apply zget_zput_ne; lia.
  - rewrite (proj2 (Z.eqb_neq _ _) Hb), Hz. apply get32_zero.
Qed.

(** a new entry of the indirect block *)
Lemma faddr_entry V ino k b k' :
  length (V (ind_block ino)) = Z.to_nat BSIZE -> ind_block ino <> 0 -> NDIRECT <= k < MAXFILE ->
  0 <= b < 2 ^ 32 -> 0 <= k' <= MAXFILE ->
  faddr (vset V (ind_block ino) (put32 (V (ind_block ino)) (4 * (k - NDIRECT)) b)) ino k' =
  if decide (k' = k) then b else faddr V ino k'.
Proof.
  intros Hl Hi Hk Hb Hk'. unfold faddr, fblock, vset. rewrite decide_True by done.
  change MAXFILE with 268 in *. change NDIRECT with 12 in *. change (Z.to_nat BSIZE) with 1024%nat in Hl.
  destruct (Z.eqb_spec k' 268); [by rewrite decide_False by lia|].
  destruct (Z.ltb_spec k' 12) as [Hlt|Hge]; [by rewrite decide_False by lia|].
  rewrite (proj2 (Z.eqb_neq _ _) Hi). destruct (decide (k' = k)) as [->|Hne].
  - rewrite get32_put32_eq by (rewrite ?Hl; lia). by apply u32_small.
  - apply get32_put32_ne; rewrite ?Hl; lia.
Qed.

(** * bmap *)

(** a block that is in use and not part of the file keeps its content and
    stays so *)
Definition preserves (sb : superblock) (V : Z -> list Z) (ino : inode) (V' : Z -> list Z) (ino' : inode) : Prop :=
  forall m, 0 <= m < sb_size sb -> used sb V m = true -> (forall k, 0 <= k <= MAXFILE -> faddr V ino k <> m) ->
    used sb V' m = true /\ (forall k, 0 <= k <= MAXFILE -> faddr V' ino' k <> m) /\
    (~ sb_bmapstart sb <= m < data_start sb -> V' m = V m).

Lemma preserves_refl sb V ino : preserves sb V ino V ino.
Proof. by intros m. Qed.
Lemma preserves_trans sb V1 i1 V2 i2 V3 i3 :
  preserves sb V1 i1 V2 i2 -> preserves sb V2 i2 V3 i3 -> preserves sb V1 i1 V3 i3.
Proof.
  intros P1 P2 m Hm Hu Hf. destruct (P1 m Hm Hu Hf) as (U2 & F2 & E2). destruct (P2 m Hm U2 F2) as (U3 & F3 & E3).
  split; [done|]. split; [done|]. intros Hb. by rewrite E3, E2.
Qed.

Lemma blocks_ok_held sb H V i n :
  blocks_ok sb H V -> used sb V n = true -> data_start sb <= n -> blocks_ok sb ((i, n) :: H) V.
Proof.
  intros [B1 B2 B3] Hu Hn. split; [done|..]; cbn [fmap list_fmap snd]; intros m; rewrite elem_of_cons.
  - intros [->|Hm] Hr; [done|by apply B2].
  - intros [->|Hm]; [lia|by apply B3].
Qed.

Lemma blocks_ok_release sb H V i n : blocks_ok sb ((i, n) :: H) V -> blocks_ok sb H V.
Proof. intros [B1 B2 B3]. split; [done|..]; intros m Hm; [apply B2|apply B3]; cbn; set_solver. Qed.

(** writing a data block does not change the bitmap *)
Lemma blocks_ok_data LS sb len H V n d :
  fs_layout LS sb len -> blocks_ok sb H V -> ~ sb_bmapstart sb <= n < data_start sb -> blocks_ok sb H (vset V n d).
Proof.
  intros L [B1 B2 B3] Hn. pose proof (fl_data _ _ _ L). split; [|intros m Hm Hr|done].
  - intros b Hb. rewrite (used_vset_data LS _ len) by (done || lia). by apply B1.
  - rewrite (used_vset_data LS _ len) by (done || lia). by apply B2.
Qed.

Section file.
Context {cache} `{BS : BlockStore cache}.
Context (LS : Z).
Local Notation tx := (@FsTx.tx cache).

Record fstate (s : kstate) (bl : list Z) (V : Z -> list Z) (ip : nat) (ino : inode) : Prop := {
  st_tx : tx LS s bl [] V;
  st_layout : fs_layout LS (k_sb s) (disk_len s);
  st_blocks : blocks_ok (k_sb s) [] V;
  st_ino : k_itable s !! ip = Some ino;
  st_file : file_ok (k_sb s) V ino;
  st_print : can_print s
}.

Lemma fstate_frame s s' bl V ip ino :
  fstate s bl V ip ino -> fs_frame s s' -> tx LS s' bl [] V -> fstate s' bl V ip ino.
Proof.
  intros [S1 S2 S3 S4 S5 S6] F T. pose proof (fs_frame_sb _ _ F) as E. split; rewrite ?E; try done.
  - by rewrite (fs_frame_disk _ _ F).
  - by rewrite (fs_frame_itable _ _ F).
  - by apply (ino_frame_print s); [apply fs_ino_frame_quiet|].
Qed.

(** a data block is a home block, and not block 0 *)
Lemma data_home s b :
  fs_layout LS (k_sb s) (disk_len s) -> data_start (k_sb s) <= b < sb_size (k_sb s) -> home LS s b /\ 0 < b < 2 ^ 32.
Proof.
  intros L Hb. pose proof L as [L1 L2 L3 L4 L5 L6 L7].
  assert (sb_bmapstart (k_sb s) <= b /\ 0 < b).
  { pose proof (layout_pos _ _ _ L). lia. }
  split; [apply (layout_home LS _ s b L); lia|lia].
Qed.

(** balloc while a file is open: the new block is nobody's *)
Lemma file_balloc s bl H V ino :
  tx LS s bl H V -> fs_layout LS (k_sb s) (disk_len s) -> blocks_ok (k_sb s) H V ->
  (length bl + length H < 29)%nat -> can_print s -> file_ok (k_sb s) V ino ->
  (exists b s' bl' V', balloc ROOTDEV s = Ok b s' /\ tx LS s' bl' H V' /\ fs_frame s s' /\
     (length bl' <= length bl + 2)%nat /\ blocks_ok (k_sb s) H V' /\ V' b = zero_block /\
     data_start (k_sb s) <= b < sb_size (k_sb s) /\ used (k_sb s) V b = false /\ used (k_sb s) V' b = true /\
     (forall k, 0 <= k <= MAXFILE -> faddr V ino k <> b) /\
     (forall m, 0 <= m < sb_size (k_sb s) -> used (k_sb s) V m = true ->
        used (k_sb s) V' m = true /\ (~ sb_bmapstart (k_sb s) <= m < data_start (k_sb s) -> V' m = V m))) \/
  (exists s', balloc ROOTDEV s = Ok 0 s' /\ tx LS s' bl H V /\ ino_frame s s' /\ k_itable s' = k_itable s /\
     forall b, 0 <= b < sb_size (k_sb s) -> used (k_sb s) V b = true).
Proof.
  intros Ht L O Hr Hp Hf.
  destruct (balloc_run LS s bl H V Ht L O Hr Hp) as [(b & s' & E & T)|(o & s' & E & T & F & Hall)].
  - left. destruct (balloc_took_view LS s bl H V b s' Ht L O T) as (Hd & Hz & Hused & Hother & O').
    destruct T as (Hb & Hu & _ & T & F). exists b, s', (alloc_log (k_sb s) bl b), (alloc_view (k_sb s) V b).
    split; [done|]. split; [done|]. split; [done|]. split; [apply length_alloc_log|]. split; [done|]. split; [done|].
    split; [lia|]. split; [done|]. split; [rewrite Hused by done; by rewrite decide_True|]. split.
    + intros k Hk E'. assert (faddr V ino k <> 0) as Hnz by (destruct (data_home s b L ltac:(lia)); lia).
      destruct (fk_data _ _ _ Hf k Hk Hnz) as [_ Hu']. rewrite E' in Hu'. congruence.
    + intros m Hm Hum. assert (m <> b) as Hne by congruence. rewrite Hused by done. rewrite decide_False by done.
      split; [done|]. by apply Hother.
  - right. exists s'. split; [done|]. split; [done|]. split; [by apply (fs_ino_frame o)|]. split; [|done].
    by rewrite (fs_frame_itable _ _ F).
Qed.

(** what bmap leaves: block [bn] of the file is there, or the disk is full *)
Record bmap_post (s : kstate) (V : Z -> list Z) (ip : nat) (ino : inode) (bn : Z)
    (a : Z) (s' : kstate) (bl' : list Z) (V' : Z -> list Z) (ino' : inode) : Prop := {
  bp_state : fstate s' bl' V' ip ino';
  bp_frame : ino_frame s s';
  bp_table : k_itable s' = <[ip := ino']> (k_itable s);
  bp_inode : ino' = i_set_addrs (fun _ => i_addrs ino') ino;
  bp_addr : a = fblock V' ino' bn;
  bp_same k : 0 <= k < MAXFILE -> k <> bn -> fblock V' ino' k = fblock V ino k;
  bp_content k : 0 <= k < MAXFILE -> fblock V ino k <> 0 -> V' (fblock V ino k) = V (fblock V ino k);
  bp_hit : fblock V ino bn <> 0 -> a = fblock V ino bn;
  bp_new : fblock V ino bn = 0 -> a <> 0 -> V' a = zero_block;
  bp_full : a = 0 -> forall b, 0 <= b < sb_size (k_sb s) -> used (k_sb s) V' b = true;
  bp_others : preserves (k_sb s) V ino V' ino'
}.

(** one slot [k] of the file has become the fresh block [b]; of the blocks in
    use only [x], the indirect block, may have changed *)
Record slot_set (sb : superblock) (V : Z -> list Z) (ino : inode) (k b : Z) (V' : Z -> list Z) (ino' : inode) : Prop := {
  ss_slot k' : 0 <= k' <= MAXFILE -> faddr V' ino' k' = if decide (k' = k) then b else faddr V ino k';
  ss_data : data_start sb <= b < sb_size sb;
  ss_fresh : used sb V b = false;
  ss_used : used sb V' b = true;
  ss_ext m : 0 <= m < sb_size sb -> used sb V m = true -> used sb V' m = true /\
    (~ sb_bmapstart sb <= m < data_start sb -> m <> ind_block ino -> V' m = V m)
}.

Lemma slot_set_file LS' len sb V ino k b V' ino' :
  fs_layout LS' sb len -> file_ok sb V ino -> slot_set sb V ino k b V' ino' ->
  i_dev ino' = ROOTDEV -> length (i_addrs ino') = Z.to_nat (NDIRECT + 1) -> file_ok sb V' ino'.
Proof.
  intros L Hf [S1 S2 S3 S4 S5] Hdev Hlen. eapply (file_ok_set sb V V' ino ino' k b); try done.
  - intros a Ha Hu. apply S5; [|done]. pose proof (layout_pos _ _ _ L). lia.
  - intros Hb. split; [done|]. split; [done|]. intros k' Hk' E. rewrite <-E in Hb, S3.
    destruct (fk_data _ _ _ Hf k' Hk' Hb). congruence.
Qed.

Lemma slot_set_preserves sb V ino k b V' ino' : slot_set sb V ino k b V' ino' -> preserves sb V ino V' ino'.
Proof.
  intros [S1 S2 S3 S4 S5] m Hm Hu Hno. destruct (S5 m Hm Hu) as [Hu' He]. split; [done|]. split.
  - intros k' Hk'. rewrite S1 by done. destruct (decide (k' = k)); [congruence|by apply Hno].
  - intros Hb. apply He; [done|]. intros ->. by apply (Hno MAXFILE).
Qed.

(** the data blocks of the file are not its indirect block *)
Lemma fblock_ne_ind V ino k :
  file_inj V ino -> 0 <= k < MAXFILE -> fblock V ino k <> 0 -> fblock V ino k <> ind_block ino.
Proof.
  intros Hf Hk Hnz E. rewrite <-(faddr_block V ino) in Hnz, E by lia. rewrite <-(faddr_ind V) in E.
  assert (k = MAXFILE) by (apply Hf; lia || done). lia.
Qed.

Lemma slot_set_content LS' len sb V ino k b V' ino' k' :
  fs_layout LS' sb len -> file_ok sb V ino -> slot_set sb V ino k b V' ino' ->
  0 <= k' < MAXFILE -> fblock V ino k' <> 0 -> V' (fblock V ino k') = V (fblock V ino k').
Proof.
  intros L Hf S Hk Hnz. pose proof (fblock_ne_ind _ _ _ (fk_inj _ _ _ Hf) Hk Hnz) as Hne.
  rewrite <-(faddr_block V ino) in Hnz, Hne |- * by lia.
  destruct (fk_data _ _ _ Hf k' ltac:(lia) Hnz) as [Hr Hu]. apply (ss_ext _ _ _ _ _ _ _ S); [|done|lia|done].
  pose proof (layout_pos _ _ _ L). lia.
Qed.

(** balloc does not move the file *)
Lemma faddr_alloc LS' len sb V V' ino :
  fs_layout LS' sb len -> file_ok sb V ino ->
  (forall m, 0 <= m < sb_size sb -> used sb V m = true ->
     used sb V' m = true /\ (~ sb_bmapstart sb <= m < data_start sb -> V' m = V m)) ->
  forall k, faddr V' ino k = faddr V ino k.
Proof.
  intros L Hf He k. apply faddr_ext. intros Hnz. rewrite <-(faddr_ind V) in Hnz |- *.
  destruct (fk_data _ _ _ Hf MAXFILE ltac:(by split) Hnz) as [Hr Hu]. apply He; [|done|lia].
  pose proof (layout_pos _ _ _ L). lia.
Qed.

Lemma table_same (tab : list inode) ip ino : tab !! ip = Some ino -> <[ip := ino]> tab = tab.
Proof. apply list_insert_id. Qed.

(** the inode with another address *)
Lemma set_addr_run s bl V ip ino k b V0 :
  fs_layout LS (k_sb s) (disk_len s) -> tx LS s bl [] V -> blocks_ok (k_sb s) [] V -> can_print s ->
  k_itable s !! ip = Some ino -> file_ok (k_sb s) V0 ino -> 0 <= k <= NDIRECT ->
  slot_set (k_sb s) V0 ino (if decide (k = NDIRECT) then MAXFILE else k) b V (with_addr k b ino) ->
  exists s', set_addr ip k b s = Ok tt s' /\ fstate s' bl V ip (with_addr k b ino) /\ ino_frame s s' /\
    k_itable s' = <[ip := with_addr k b ino]> (k_itable s).
Proof.
  intros L T O Hp Hi Hf Hk S. eexists. split; [reflexivity|].
  rewrite (upd_inode_insert _ _ _ _ Hi). change (i_set_addrs (fun a => zput a k b) ino) with (with_addr k b ino).
  split; [|split; [exists []; by rewrite emit_nil|done]]. split; try done.
  - by eapply (tx_frame LS s).
  - apply list_lookup_insert_eq. by eapply lookup_lt_Some.
  - eapply (slot_set_file LS (disk_len s)); [done|exact Hf|exact S|apply (fk_dev _ _ _ Hf)|].
    unfold with_addr. cbn [i_set_addrs i_addrs]. rewrite length_zput. apply (fk_len _ _ _ Hf).
Qed.

Lemma fstate_ino_frame s s' bl bl' V ip ino :
  fstate s bl V ip ino -> ino_frame s s' -> k_itable s' = k_itable s -> tx LS s' bl' [] V -> fstate s' bl' V ip ino.
Proof.
  intros [S1 S2 S3 S4 S5 S6] F Et T. pose proof (ino_frame_sb _ _ F) as E. split; rewrite ?E, ?Et; try done.
  - by rewrite (ino_frame_disk _ _ F).
  - by apply (ino_frame_print s).
Qed.

(** nothing changed: the block was there, or the disk is full *)
Lemma post_unchanged s bl V ip ino bn s' bl' :
  fstate s bl V ip ino -> fstate s' bl' V ip ino -> ino_frame s s' -> k_itable s' = k_itable s ->
  (fblock V ino bn = 0 -> forall b, 0 <= b < sb_size (k_sb s) -> used (k_sb s) V b = true) ->
  bmap_post s V ip ino bn (fblock V ino bn) s' bl' V ino.
Proof.
  intros Hs Hs' F Et Hfull. split; try done.
  - by rewrite Et, (table_same _ _ _ (st_ino _ _ _ _ _ Hs)).
  - by destruct ino.
Qed.

(** block [bn] is the fresh block [b] *)
Lemma post_slot s bl V ip ino bn b s' bl' V' ino' :
  fstate s bl V ip ino -> 0 <= bn < MAXFILE -> slot_set (k_sb s) V ino bn b V' ino' -> fblock V ino bn = 0 ->
  fstate s' bl' V' ip ino' -> ino_frame s s' -> k_itable s' = <[ip := ino']> (k_itable s) ->
  ino' = i_set_addrs (fun _ => i_addrs ino') ino -> V' b = zero_block ->
  bmap_post s V ip ino bn b s' bl' V' ino'.
Proof.
  intros Hs Hbn S H0 Hs' F Et Ei Hz. pose proof (ss_slot _ _ _ _ _ _ _ S) as Hslot. split; try done.
  - rewrite <-(faddr_block V' ino') by lia. rewrite Hslot by lia. by rewrite decide_True.
  - intros k Hk Hne. rewrite <-!faddr_block by lia. rewrite Hslot by lia. by rewrite decide_False.
  - intros k Hk. eapply slot_set_content; [apply Hs|apply Hs|exact S|done].
  - intros Hb. destruct (data_home s b (st_layout _ _ _ _ _ Hs) (ss_data _ _ _ _ _ _ _ S)). lia.
  - by eapply slot_set_preserves.
Qed.

(** bmap after the indirect block has been made *)
Lemma post_after_ind s bl V ip ino bn a V1 ino1 b s1 bl1 s' bl' V' ino' :
  fstate s bl V ip ino -> 0 <= bn < MAXFILE -> slot_set (k_sb s) V ino MAXFILE b V1 ino1 -> fblock V ino bn = 0 ->
  fstate s1 bl1 V1 ip ino1 -> ino_frame s s1 -> k_itable s1 = <[ip := ino1]> (k_itable s) ->
  ino1 = i_set_addrs (fun _ => i_addrs ino1) ino ->
  bmap_post s1 V1 ip ino1 bn a s' bl' V' ino' -> bmap_post s V ip ino bn a s' bl' V' ino'.
Proof.
  intros Hs Hbn S H0 Hs1 F Et Ei P. pose proof (ss_slot _ _ _ _ _ _ _ S) as Hslot.
  assert (forall k, 0 <= k < MAXFILE -> fblock V1 ino1 k = fblock V ino k) as Hsame.
  { intros k Hk. rewrite <-!faddr_block by lia. rewrite Hslot by lia. by rewrite decide_False by lia. }
  destruct P as [P1 P2 P3 P4 P5 P6 P7 P8 P9 P10 P11]. pose proof (ino_frame_sb _ _ F) as Esb. split; try done.
  - by transitivity s1.
  - by rewrite P3, Et, list_insert_insert_eq.
  - rewrite P4, Ei. done.
  - intros k Hk Hne. rewrite P6 by done. by apply Hsame.
  - intros k Hk Hnz. rewrite <-(Hsame k Hk) in Hnz |- *. rewrite P7 by done. rewrite Hsame in Hnz |- * by done.
    eapply slot_set_content; [apply Hs|apply Hs|exact S|done|done].
  - intros _ Ha. apply P9; [by rewrite Hsame|done].
  - intros Ha b' Hb'. rewrite <-Esb. apply P10; [done|by rewrite Esb].
  - eapply preserves_trans; [by eapply slot_set_preserves|]. by rewrite <-Esb.
Qed.

Lemma bmap_direct s bl V ip ino bn :
  fstate s bl V ip ino -> 0 <= bn < NDIRECT -> (length bl < 29)%nat ->
  exists a s' bl' V' ino', bmap ip bn s = Ok a s' /\ bmap_post s V ip ino bn a s' bl' V' ino' /\
    (length bl' <= length bl + 2)%nat.
Proof.
  intros Hs Hbn Hr. pose proof Hs as [T L O Hi Hf Hp].
  assert (fblock V ino bn = zget (i_addrs ino) bn) as Eb.
  { unfold fblock. by rewrite (proj2 (Z.ltb_lt _ _)) by lia. }
  assert (bn < MAXFILE) as Hmax by (change MAXFILE with 268; change NDIRECT with 12 in *; lia).
  unfold bmap. erewrite bind_ok by (by apply get_inode_ok). rewrite (proj2 (Z.ltb_lt bn NDIRECT)) by lia.
  cbv zeta. rewrite <-Eb. destruct (Z.eqb_spec (fblock V ino bn) 0) as [E0|E0].
  2: { exists (fblock V ino bn), s, bl, V, ino. split; [done|]. split; [|lia]. by eapply post_unchanged. }
  rewrite (fk_dev _ _ _ Hf).
  destruct (file_balloc s bl [] V ino T L O) as [(b & s1 & bl1 & V1 & E & T1 & F1 & Hl & O1 & Hz & Hd & Hu & Hu1 & Hnew & He)
    |(s1 & E & T1 & F1 & Et & Hall)]; [simpl; lia|done|done|..].
  - erewrite bind_ok by exact E. destruct (data_home s b L Hd) as [_ Hpos]. rewrite (proj2 (Z.eqb_neq b 0)) by lia.
    pose proof (faddr_alloc LS _ _ _ _ _ L Hf He) as Hsame. pose proof (fs_frame_sb _ _ F1) as Esb.
    assert (slot_set (k_sb s) V ino bn b V1 (with_addr bn b ino)) as S.
    { split; try done.
      - intros k' Hk'. rewrite (faddr_direct _ _ _ _ _ (fk_len _ _ _ Hf)) by lia. by rewrite Hsame.
      - intros m Hm Hum. destruct (He m Hm Hum). split; [done|auto]. }
    destruct (set_addr_run s1 bl1 V1 ip ino bn b V) as (s2 & E2 & S2 & F2 & Et2).
    { by rewrite Esb, (fs_frame_disk _ _ F1). }
    { done. }
    { by rewrite Esb. }
    { apply (ino_frame_print s); [by apply fs_ino_frame_quiet|done]. }
    { by rewrite (fs_frame_itable _ _ F1). }
    { by rewrite Esb. }
    { lia. }
    { rewrite Esb, decide_False by lia. exact S. }
    erewrite bind_ok by exact E2. exists b, s2, bl1, V1, (with_addr bn b ino). split; [done|]. split; [|done].
    eapply post_slot; try done.
    + lia.
    + transitivity s1; [by apply fs_ino_frame_quiet|done].
    + by rewrite Et2, (fs_frame_itable _ _ F1).
  - erewrite bind_ok by exact E. cbn [Z.eqb]. exists 0, s1, bl, V, ino. split; [done|]. split; [|lia].
    rewrite <-E0. eapply post_unchanged; try done. by eapply (fstate_ino_frame s).
Qed.

(** bmap from where it reads the indirect block *)
Definition bmap_entry (dev addr bn : Z) : K Z :=
  let! bp := bread dev addr in
  let! a := bdata bp in
  let addr := get32 a (4 * bn) in
  let! addr :=
    if addr =? 0 then
      let! addr := balloc dev in
      whenM (nz addr)
        (let! a := bdata bp in
         set_bdata bp (put32 a (4 * bn) addr) ;;
         log_write bp) ;;
      ret addr
    else ret addr in
  brelse bp ;;
  ret addr.

Lemma ind_data s V ino :
  fs_layout LS (k_sb s) (disk_len s) -> file_ok (k_sb s) V ino -> ind_block ino <> 0 ->
  data_start (k_sb s) <= ind_block ino < sb_size (k_sb s) /\ used (k_sb s) V (ind_block ino) = true /\
  home LS s (ind_block ino).
Proof.
  intros L Hf Hnz. rewrite <-(faddr_ind V) in *. destruct (fk_data _ _ _ Hf MAXFILE) as [Hr Hu]; [by split|done|].
  split; [done|]. split; [done|]. by apply data_home.
Qed.

(** the new entry of the indirect block *)
Lemma entry_slot s V V2 ino bn b :
  fs_layout LS (k_sb s) (disk_len s) -> file_ok (k_sb s) V ino -> ind_block ino <> 0 -> NDIRECT <= bn < MAXFILE ->
  length (V2 (ind_block ino)) = Z.to_nat BSIZE -> data_start (k_sb s) <= b < sb_size (k_sb s) ->
  used (k_sb s) V b = false -> used (k_sb s) V2 b = true ->
  (forall m, 0 <= m < sb_size (k_sb s) -> used (k_sb s) V m = true ->
     used (k_sb s) V2 m = true /\ (~ sb_bmapstart (k_sb s) <= m < data_start (k_sb s) -> V2 m = V m)) ->
  slot_set (k_sb s) V ino bn b
    (vset V2 (ind_block ino) (put32 (V2 (ind_block ino)) (4 * (bn - NDIRECT)) b)) ino.
Proof.
  intros L Hf Hnz Hbn Hlen Hd Hu Hu2 He. destruct (ind_data s V ino L Hf Hnz) as (Hid & Hiu & _).
  pose proof (layout_pos _ _ _ L) as Hpos. destruct (data_home s b L Hd) as [_ Hb].
  assert (forall m, 0 <= m < sb_size (k_sb s) ->
    used (k_sb s) (vset V2 (ind_block ino) (put32 (V2 (ind_block ino)) (4 * (bn - NDIRECT)) b)) m = used (k_sb s) V2 m) as Hsame.
  { intros m Hm. apply (used_vset_data LS _ (disk_len s)); [done|lia|done]. }
  split; try done.
  - intros k' Hk'. rewrite faddr_entry by (done || lia). by rewrite (faddr_alloc LS _ _ _ _ _ L Hf He).
  - rewrite Hsame by lia. done.
  - intros m Hm Hum. rewrite Hsame by done. destruct (He m Hm Hum) as [Hum2 Hcm]. split; [done|].
    intros Hb' Hne. unfold vset. rewrite decide_False by done. by apply Hcm.
Qed.

Lemma bmap_entry_run s bl V ip ino bn :
  fstate s bl V ip ino -> NDIRECT <= bn < MAXFILE -> ind_block ino <> 0 -> (length bl < 27)%nat ->
  exists a s' bl' V' ino', bmap_entry ROOTDEV (ind_block ino) (bn - NDIRECT) s = Ok a s' /\
    bmap_post s V ip ino bn a s' bl' V' ino' /\ (length bl' <= length bl + 3)%nat.
Proof.
  intros Hs Hbn Hnz Hr. pose proof Hs as [T L O Hi Hf Hp]. destruct (ind_data s V ino L Hf Hnz) as (Hid & Hiu & Hih).
  assert (fblock V ino bn = get32 (V (ind_block ino)) (4 * (bn - NDIRECT))) as Eb.
  { unfold fblock. rewrite (proj2 (Z.ltb_ge _ _)) by lia. by rewrite (proj2 (Z.eqb_neq _ _) Hnz). }
  set (ind := ind_block ino) in *. assert (0 <= NDIRECT) as Hn0 by done.
  destruct (tx_bread LS s bl [] V ind T (proj1 Hih)) as (i & s1 & E1 & T1 & F1); [apply not_elem_of_nil|simpl; lia|].
  unfold bmap_entry. erewrite bind_ok by exact E1.
  erewrite bind_ok by (eapply tx_bdata; [exact T1|apply list_elem_of_here]). cbv zeta. rewrite <-Eb.
  destruct (Z.eqb_spec (fblock V ino bn) 0) as [E0|E0].
  2: { destruct (tx_brelse LS s1 bl [] V i ind T1) as (s2 & E2 & T2 & F2); [apply not_elem_of_nil|].
    rewrite bind_ret. erewrite bind_ok by exact E2. exists (fblock V ino bn), s2, bl, V, ino. split; [done|]. split; [|lia].
    assert (fs_frame s s2) as F by (by transitivity s1).
    eapply post_unchanged; [done|by eapply fstate_frame|by apply fs_ino_frame_quiet|by apply fs_frame_itable|done]. }
  pose proof (fs_frame_sb _ _ F1) as Esb. pose proof (fs_frame_disk _ _ F1) as El.
  assert (blocks_ok (k_sb s1) [(i, ind)] V) as O1 by (rewrite Esb; apply blocks_ok_held; (done || lia)).
  destruct (file_balloc s1 bl [(i, ind)] V ino T1) as [(b & s2 & bl2 & V2 & E & T2 & F2 & Hl & O2 & Hz & Hd & Hu & Hu2 & Hnew & He)
    |(s2 & E & T2 & F2 & Et & Hall)]; try done.
  { by rewrite Esb, El. }
  { simpl. lia. }
  { apply (ino_frame_print s); [by apply fs_ino_frame_quiet|done]. }
  { by rewrite Esb. }
  - rewrite Esb in *. destruct (data_home s b L Hd) as [_ Hpos]. assert (fs_frame s s2) as F by (by transitivity s1).
    assert (length (V2 ind) = Z.to_nat BSIZE) as Hlen.
    { eapply tx_len; [exact T2|]. rewrite (fs_frame_disk _ _ F). apply Hih. }
    pose proof (entry_slot s V V2 ino bn b L Hf Hnz Hbn Hlen Hd Hu Hu2 He) as S. fold ind in S.
    destruct (tx_store LS s2 bl2 [(i, ind)] V2 i ind (put32 (V2 ind) (4 * (bn - NDIRECT)) b) T2) as (s3 & s4 & E3 & E4 & T4 & F4).
    { apply list_elem_of_here. }
    { by apply (fs_frame_home LS s). }
    { lia. }
    { rewrite length_put32; [done|lia|]. rewrite Hlen. change (Z.of_nat (Z.to_nat BSIZE)) with 1024.
      change MAXFILE with 268 in *. change NDIRECT with 12 in *. lia. }
    destruct (tx_brelse LS s4 _ [] _ i ind T4) as (s5 & E5 & T5 & F5); [apply not_elem_of_nil|].
    rewrite (bind_ok _ _ s1 b s4).
    2: { erewrite bind_ok by exact E. rewrite (proj2 (nz_true b)) by lia. cbn [whenM].
      erewrite bind_ok; [reflexivity|]. erewrite bind_ok by (eapply tx_bdata; [exact T2|apply list_elem_of_here]).
      erewrite bind_ok by exact E3. exact E4. }
    erewrite bind_ok by exact E5. exists b, s5, (logged ind bl2), (vset V2 ind (put32 (V2 ind) (4 * (bn - NDIRECT)) b)), ino.
    assert (fs_frame s s5) as F' by (transitivity s2; [done|by transitivity s4]).
    split; [done|]. split; [|pose proof (length_logged ind bl2); lia]. eapply post_slot; [exact Hs|lia|exact S|done|..].
    + pose proof (fs_frame_sb _ _ F') as Esb'. split; rewrite ?Esb'; try done.
      * by rewrite (fs_frame_disk _ _ F').
      * eapply blocks_ok_data; [exact L|by eapply blocks_ok_release|lia].
      * by rewrite (fs_frame_itable _ _ F').
      * eapply slot_set_file; [exact L|exact Hf|exact S|apply (fk_dev _ _ _ Hf)|apply (fk_len _ _ _ Hf)].
      * apply (ino_frame_print s); [by apply fs_ino_frame_quiet|done].
    + by apply fs_ino_frame_quiet.
    + by rewrite (fs_frame_itable _ _ F'), (table_same _ _ _ Hi).
    + by destruct ino.
    + unfold vset. rewrite decide_False; [done|]. intros E'. by apply (Hnew MAXFILE).
  - rewrite Esb in *. destruct (tx_brelse LS s2 bl [] V i ind T2) as (s3 & E3 & T3 & F3); [apply not_elem_of_nil|].
    rewrite (bind_ok _ _ s1 0 s2) by (by erewrite bind_ok by exact E).
    erewrite bind_ok by exact E3. exists 0, s3, bl, V, ino. split; [done|]. split; [|lia]. rewrite <-E0.
    assert (ino_frame s s3) as F.
    { transitivity s1; [by apply fs_ino_frame_quiet|]. transitivity s2; [done|by apply fs_ino_frame_quiet]. }
    assert (k_itable s3 = k_itable s) as Et3 by by rewrite (fs_frame_itable _ _ F3), Et, (fs_frame_itable _ _ F1).
    eapply post_unchanged; try done. by eapply (fstate_ino_frame s).
Qed.

Lemma bmap_run s bl V ip ino bn :
  fstate s bl V ip ino -> 0 <= bn < MAXFILE -> (length bl < 25)%nat ->
  exists a s' bl' V' ino', bmap ip bn s = Ok a s' /\ bmap_post s V ip ino bn a s' bl' V' ino' /\
    (length bl' <= length bl + 5)%nat.
Proof.
  intros Hs Hbn Hr. destruct (Z.ltb_spec bn NDIRECT) as [Hlt|Hge].
  { destruct (bmap_direct s bl V ip ino bn Hs) as (a & s' & bl' & V' & ino' & E & P & Hl); [lia|lia|].
    exists a, s', bl', V', ino'. split; [done|]. split; [done|lia]. }
  pose proof Hs as [T L O Hi Hf Hp].
  unfold bmap. erewrite bind_ok by (by apply get_inode_ok). rewrite (proj2 (Z.ltb_ge bn NDIRECT)) by lia. cbv zeta.
  rewrite (proj2 (Z.ltb_lt (bn - NDIRECT) NINDIRECT)) by (change MAXFILE with (NDIRECT + NINDIRECT) in *; lia).
  rewrite (fk_dev _ _ _ Hf). change (zget (i_addrs ino) NDIRECT) with (ind_block ino).
  destruct (Z.eqb_spec (ind_block ino) 0) as [E0|E0].
  2: { rewrite bind_ret. rewrite (proj2 (Z.eqb_neq _ _) E0).
    destruct (bmap_entry_run s bl V ip ino bn Hs) as (a & s' & bl' & V' & ino' & E & P & Hl); [lia|done|lia|].
    exists a, s', bl', V', ino'. split; [exact E|]. split; [done|lia]. }
  assert (fblock V ino bn = 0) as Eb.
  { unfold fblock. rewrite (proj2 (Z.ltb_ge _ _)) by lia. by rewrite E0. }
  destruct (file_balloc s bl [] V ino T L O) as [(b & s1 & bl1 & V1 & E & T1 & F1 & Hl & O1 & Hz & Hd & Hu & Hu1 & Hnew & He)
    |(s1 & E & T1 & F1 & Et & Hall)]; [simpl; lia|done|done|..].
  - destruct (data_home s b L Hd) as [_ Hpos]. pose proof (faddr_alloc LS _ _ _ _ _ L Hf He) as Hsame.
    pose proof (fs_frame_sb _ _ F1) as Esb. set (ino1 := with_addr NDIRECT b ino).
    assert (slot_set (k_sb s) V ino MAXFILE b V1 ino1) as S.
    { split; try done.
      - intros k' Hk'. unfold ino1. rewrite (faddr_indirect _ _ _ _ (fk_len _ _ _ Hf)) by (done || lia). by rewrite Hsame.
      - intros m Hm Hum. destruct (He m Hm Hum). split; [done|auto]. }
    destruct (set_addr_run s1 bl1 V1 ip ino NDIRECT b V) as (s2 & E2 & S2 & F2 & Et2).
    { by rewrite Esb, (fs_frame_disk _ _ F1). }
    { done. }
    { by rewrite Esb. }
    { apply (ino_frame_print s); [by apply fs_ino_frame_quiet|done]. }
    { by rewrite (fs_frame_itable _ _ F1). }
    { by rewrite Esb. }
    { done. }
    { rewrite Esb, decide_True by done. exact S. }
    rewrite (bind_ok _ _ s b s2).
    2: { erewrite bind_ok by exact E. rewrite (proj2 (Z.eqb_neq b 0)) by lia. cbn [negb whenM]. by erewrite bind_ok by exact E2. }
    rewrite (proj2 (Z.eqb_neq b 0)) by lia. fold ino1 in S2, Et2.
    assert (ind_block ino1 = b) as Ei.
    { rewrite <-(faddr_ind V1). rewrite (ss_slot _ _ _ _ _ _ _ S) by (by split). by rewrite decide_True. }
    destruct (bmap_entry_run s2 bl1 V1 ip ino1 bn S2) as (a & s' & bl' & V' & ino' & E' & P & Hl'); [lia|lia|lia|].
    rewrite Ei in E'. exists a, s', bl', V', ino'. split; [exact E'|]. split; [|lia].
    eapply (post_after_ind s bl V ip ino bn a V1 ino1 b s2 bl1); try done.
    + transitivity s1; [by apply fs_ino_frame_quiet|done].
    + by rewrite Et2, (fs_frame_itable _ _ F1).
  - rewrite (bind_ok _ _ s 0 s1) by (by erewrite bind_ok by exact E). cbn [Z.eqb].
    exists 0, s1, bl, V, ino. split; [done|]. split; [|lia]. rewrite <-Eb.
    eapply post_unchanged; try done. by eapply (fstate_ino_frame s).
Qed.

(** a block that is there is found, and nothing changes *)
Lemma bmap_hit s bl V ip ino bn :
  fstate s bl V ip ino -> 0 <= bn < MAXFILE -> fblock V ino bn <> 0 -> (length bl < 30)%nat ->
  exists s', bmap ip bn s = Ok (fblock V ino bn) s' /\ tx LS s' bl [] V /\ fs_frame s s'.
Proof.
  intros Hs Hbn Hnz Hr. pose proof Hs as [T L O Hi Hf Hp]. unfold bmap. erewrite bind_ok by (by apply get_inode_ok).
  unfold fblock in *. destruct (Z.ltb_spec bn NDIRECT) as [Hlt|Hge].
  { exists s. cbv zeta. by rewrite (proj2 (Z.eqb_neq _ _) Hnz). }
  cbv zeta. rewrite (proj2 (Z.ltb_lt (bn - NDIRECT) NINDIRECT)) by (change MAXFILE with (NDIRECT + NINDIRECT) in *; lia).
  rewrite (fk_dev _ _ _ Hf). change (zget (i_addrs ino) NDIRECT) with (ind_block ino).
  destruct (Z.eqb_spec (ind_block ino) 0) as [E0|E0]; [done|]. rewrite bind_ret. rewrite (proj2 (Z.eqb_neq _ _) E0).
  destruct (ind_data s V ino L Hf E0) as (_ & _ & Hih).
  destruct (tx_read LS s bl [] V _ T (proj1 Hih)) as (i & s1 & s2 & E1 & Ed & _ & E2 & T2 & F1 & F2);
    [apply not_elem_of_nil|simpl; lia|].
  erewrite bind_ok by exact E1. erewrite bind_ok by exact Ed. rewrite (proj2 (Z.eqb_neq _ _) Hnz), bind_ret.
  erewrite bind_ok by exact E2. by exists s2.
Qed.
End file.
