(* ===== verification/FsRw.v ===== *)
(** readi and writei of kernel/fs.c: reading and writing a file at an offset
    against its content as one sequence of bytes.  Where the bytes go to and
    come from, user memory or an object of the kernel, is behind the
    interfaces [CopySink] and [CopySource], with an instance for each. *)

From stdpp Require Import base gmap strings numbers list.
From S2P Require Import Prelude KState KString Spinlock Printf ProcSync SyncSpec Bio BioRing BioSpec.
From S2P Require Import BlockStore Log LogDisk LogSpec LogOps FsTx Kalloc Vm VmPte VmTree VmSpec VmCopy Fs FsBlock FsInode FsFile.

(** * The content of a file *)

Definition fbyte (V : Z -> list Z) (ino : inode) (off : Z) : Z :=
  zget (V (fblock V ino (off / BSIZE))) (off mod BSIZE).

Definition fread (V : Z -> list Z) (ino : inode) (off n : Z) : list Z :=
  map (fun i => fbyte V ino (off + Z.of_nat i)) (seq 0 (Z.to_nat n)).

Lemma length_fread V ino off n : length (fread V ino off n) = Z.to_nat n.
Proof. unfold fread. by rewrite length_map, length_seq. Qed.

Lemma fread_app V ino off a b :
  0 <= a -> 0 <= b -> fread V ino off (a + b) = fread V ino off a ++ fread V ino (off + a) b.
Proof.
  intros Ha Hb. unfold fread. rewrite Z2Nat.inj_add, seq_app, map_app by lia. f_equal. rewrite Nat.add_0_l.
  rewrite <-(Nat.add_0_r (Z.to_nat a)) at 1. rewrite <-fmap_add_seq. change (?f <$> ?l) with (map f l).
  rewrite map_map. apply map_ext. intros i. f_equal. lia.
Qed.

Lemma zget_slice l i n j : 0 <= i -> 0 <= j < n -> zget (slice i n l) j = zget l (i + j).
Proof.
  intros Hi Hj. unfold zget, slice. rewrite lookup_take_lt by lia. rewrite lookup_drop. do 2 f_equal. lia.
Qed.

Lemma list_eq_zget (l l' : list Z) :
  length l = length l' -> (forall j, 0 <= j < Z.of_nat (length l) -> zget l j = zget l' j) -> l = l'.
Proof.
  intros Hl H. apply list_eq_same_length with (length l); [done|done|]. intros i x y Hi Hx Hy.
  specialize (H (Z.of_nat i)). unfold zget in H. rewrite Nat2Z.id, Hx, Hy in H. apply H. lia.
Qed.

Lemma zget_fread V ino off n j : 0 <= j < n -> zget (fread V ino off n) j = fbyte V ino (off + j).
Proof.
  intros Hj. unfold zget, fread. change (map ?g ?l) with (g <$> l). rewrite list_lookup_fmap, lookup_seq_lt by lia.
  cbn [fmap option_fmap option_map default from_option]. unfold id. f_equal. lia.
Qed.

(** the content of the file *)
Definition fcontent (V : Z -> list Z) (ino : inode) : list Z := fread V ino 0 (i_size ino).

Lemma length_fcontent V ino : 0 <= i_size ino -> Z.of_nat (length (fcontent V ino)) = i_size ino.
Proof. intros H. unfold fcontent. rewrite length_fread. lia. Qed.

Lemma zget_fcontent V ino x : 0 <= x < i_size ino -> zget (fcontent V ino) x = fbyte V ino x.
Proof. intros Hx. unfold fcontent. by rewrite zget_fread. Qed.

Lemma fread_content V ino off m :
  0 <= off -> 0 <= m -> off + m <= i_size ino -> fread V ino off m = slice off m (fcontent V ino).
Proof.
  intros Ho Hm Hle. pose proof (length_slice off m (fcontent V ino)) as Hs. rewrite length_fcontent in Hs by lia.
  apply list_eq_zget; [rewrite length_fread; lia|]. intros j Hj. rewrite length_fread in Hj.
  rewrite zget_fread by lia. rewrite zget_slice by lia. by rewrite zget_fcontent by lia.
Qed.

(** inside one block *)
Lemma block_pos off j :
  0 <= j -> off mod BSIZE + j < BSIZE -> (off + j) / BSIZE = off / BSIZE /\ (off + j) mod BSIZE = off mod BSIZE + j.
Proof. intros Hj Hlt. change BSIZE with 1024 in *. Z.to_euclidean_division_equations; lia. Qed.

Lemma slice_fread V ino off m :
  length (V (fblock V ino (off / BSIZE))) = Z.to_nat BSIZE -> 0 <= m -> off mod BSIZE + m <= BSIZE ->
  slice (off mod BSIZE) m (V (fblock V ino (off / BSIZE))) = fread V ino off m.
Proof.
  intros Hl Hm Hfit. pose proof (Z.mod_pos_bound off BSIZE ltac:(reflexivity)) as Ho.
  pose proof (length_slice (off mod BSIZE) m (V (fblock V ino (off / BSIZE)))) as Hs.
  rewrite Hl in Hs. change (Z.of_nat (Z.to_nat BSIZE)) with BSIZE in Hs.
  apply list_eq_zget; [rewrite length_fread; lia|]. intros j Hj.
  rewrite zget_slice by lia. rewrite zget_fread by lia. unfold fbyte.
  by destruct (block_pos off j) as [-> ->]; [lia|lia|].
Qed.

(** * Where the bytes go to and come from *)

(** only physical memory changed *)
Definition mem_frame (s s' : kstate) : Prop := s' = set_mem (fun _ => k_mem s') s.

(** what a copy does not depend on *)
Record same_core (s s' : kstate) : Prop := {
  sc_hart : k_hart s' = k_hart s;
  sc_procs : k_procs s' = k_procs s;
  sc_mem : k_mem s' = k_mem s;
  sc_img : k_img s' = k_img s
}.

(** [sink s p l r]: [l] has been delivered, [p] points behind it and there is
    room for [r] bytes more *)
Class CopySink (sink : kstate -> kptr -> list Z -> Z -> Prop) : Prop := {
  sink_put s p l r d : sink s p l r -> Forall byte_ok d -> Z.of_nat (length d) <= r ->
    exists p' s', either_copyout p d s = Ok (0, p') s' /\ mem_frame s s' /\
      sink s' (kptr_add p' (Z.of_nat (length d))) (l ++ d) (r - Z.of_nat (length d));
  sink_core s s' p l r : sink s p l r -> same_core s s' -> sink s' p l r;
  sink_hart s p l r h : sink s p l r -> hart_ok h -> h_proc h = h_proc (k_hart s) -> sink (set_hart (fun _ => h) s) p l r
}.

(** [source s p l]: the bytes [l] are at [p] *)
Class CopySource (source : kstate -> kptr -> list Z -> Prop) : Prop := {
  source_get s p l m : source s p l -> 0 <= m <= Z.of_nat (length l) ->
    either_copyin p m s = Ok (0, take (Z.to_nat m) l) s /\ source s (kptr_add p m) (drop (Z.to_nat m) l);
  source_core s s' p l : source s p l -> same_core s s' -> source s' p l
}.

(** a running thread *)
Definition running (s : kstate) : Prop := hart_ok (k_hart s) /\ exists p, h_proc (k_hart s) = Some p.

(** an object of the caller's stack frame, filled from [base] on *)
Definition local_sink (base : Z) (obj0 : list Z) (s : kstate) (p : kptr) (l : list Z) (r : Z) : Prop :=
  running s /\ 0 <= base /\ base + Z.of_nat (length l) + r <= Z.of_nat (length obj0) /\
  p = KernLocal (splice base l obj0) (base + Z.of_nat (length l)).

Definition local_source (s : kstate) (p : kptr) (l : list Z) : Prop :=
  running s /\ exists obj off, p = KernLocal obj off /\ 0 <= off /\ drop (Z.to_nat off) obj = l.

(** user memory of the current process from [addr] on *)
Record user_sink (q : nat) (root : Z) (F : list Z) (m0 : mem) (addr : Z)
    (s : kstate) (p : kptr) (l : list Z) (r : Z) : Prop := {
  us_hart : hart_ok (k_hart s);
  us_proc : h_proc (k_hart s) = Some q;
  us_root : p_pagetable <$> k_procs s !! q = Some root;
  us_ok : user_ok (k_img s) (k_mem s) root F;
  us_ptr : p = UserVA (addr + Z.of_nat (length l));
  us_range : 0 <= addr /\ 0 <= r /\ addr + Z.of_nat (length l) + r <= MAXVA;
  us_map v : pte_at (k_mem s) root v = pte_at m0 root v;
  us_write v : addr <= v < addr + Z.of_nat (length l) + r -> uwritable m0 root v;
  us_bytes v : 0 <= v < MAXVA -> umapped m0 root v ->
    ubyte (k_mem s) root v = if (addr <=? v) && (v <? addr + Z.of_nat (length l)) then zget l (v - addr) else ubyte m0 root v
}.

Record user_source (q : nat) (root : Z) (F : list Z) (s : kstate) (p : kptr) (l : list Z) : Prop := {
  uc_hart : hart_ok (k_hart s);
  uc_proc : h_proc (k_hart s) = Some q;
  uc_root : p_pagetable <$> k_procs s !! q = Some root;
  uc_ok : user_ok (k_img s) (k_mem s) root F;
  uc_at : exists a, p = UserVA a /\ 0 <= a /\ a + Z.of_nat (length l) <= MAXVA /\
    (forall v, a <= v < a + Z.of_nat (length l) -> umapped (k_mem s) root v) /\
    ubytes (k_mem s) root a (length l) = l
}.

(** ** The instances *)

Lemma splice_nil {A} i (l : list A) : splice i [] l = l.
Proof. unfold splice. cbn [length app]. rewrite Nat.add_0_r. apply take_drop. Qed.

(** the replaced window, also where the list grows *)
Lemma slice_splice_grow {A} i (new l : list A) :
  0 <= i <= Z.of_nat (length l) -> slice i (Z.of_nat (length new)) (splice i new l) = new.
Proof.
  intros Hi. unfold slice, splice. rewrite drop_app_length' by (rewrite length_take; lia).
  rewrite Nat2Z.id. by rewrite take_app_length.
Qed.

Lemma splice_app {A} i (a b l : list A) :
  0 <= i -> i + Z.of_nat (length a) <= Z.of_nat (length l) ->
  splice (i + Z.of_nat (length a)) b (splice i a l) = splice i (a ++ b) l.
Proof.
  intros Hi Hl. unfold splice. replace (Z.to_nat (i + Z.of_nat (length a))) with (Z.to_nat i + length a)%nat by lia.
  assert (length (take (Z.to_nat i) l) = Z.to_nat i) as Ht by (rewrite length_take; lia).
  rewrite (app_assoc (take (Z.to_nat i) l) a).
  assert (length (take (Z.to_nat i) l ++ a) = Z.to_nat i + length a)%nat as Hta by (rewrite length_app; lia).
  rewrite take_app_length' by (by rewrite Hta).
  rewrite drop_app_ge by lia. rewrite Hta, drop_drop, <-!app_assoc, length_app. do 4 f_equal. lia.
Qed.

Lemma running_core s s' : running s -> k_hart s' = k_hart s -> running s'.
Proof. unfold running. by intros H ->. Qed.

#[export] Instance local_is_sink base obj0 : CopySink (local_sink base obj0).
Proof.
  split.
  - intros s p l r d (Hrun & Hb & Hr & ->) _ Hd. pose proof Hrun as [Hok [q Hq]].
    exists (KernLocal (splice base (l ++ d) obj0) (base + Z.of_nat (length l))), s. split; [|split; [done|]].
    + unfold either_copyout. erewrite bind_ok by (by apply myproc_deref_run).
      rewrite splice_app by lia. done.
    + split; [done|]. split; [done|]. rewrite length_app. split; [lia|]. cbn [kptr_add]. f_equal. lia.
  - intros s s' p l r (Hrun & H) [Eh _ _ _]. split; [by eapply running_core|done].
  - intros s p l r h ([_ [q Hq]] & H) Hok Ep. split; [|done]. split; [done|]. exists q. by rewrite <-Hq, <-Ep.
Qed.

#[export] Instance local_is_source : CopySource local_source.
Proof.
  split.
  - intros s p l m (Hrun & obj & off & -> & Ho & <-) Hm. pose proof Hrun as [Hok [q Hq]]. split.
    + unfold either_copyin. erewrite bind_ok by (by apply myproc_deref_run). done.
    + split; [done|]. exists obj, (off + m). split; [done|]. split; [lia|].
      rewrite drop_drop. f_equal. lia.
  - intros s s' p l (Hrun & H) [Eh _ _ _]. split; [by eapply running_core|done].
Qed.

Lemma get_proc_root s q root : p_pagetable <$> k_procs s !! q = Some root ->
  exists pr, get_proc q s = Ok pr s /\ p_pagetable pr = root.
Proof.
  intros H. destruct (k_procs s !! q) as [pr|] eqn:E; [|done]. exists pr. split; [by apply get_proc_ok|]. by injection H.
Qed.

#[export] Instance user_is_sink q root F m0 addr : CopySink (user_sink q root F m0 addr).
Proof.
  split.
  - intros s p l r d [S1 S2 S3 S4 S5 S6 S7 S8 S9] Hd Hr. destruct (get_proc_root s q root S3) as (pr & Ep & Er).
    destruct (copyout_loop (length d + 2) s root F (addr + Z.of_nat (length l)) d) as (m' & E & Hok' & Hpt & Hby & _);
      [done|done|lia|lia| |lia|].
    { intros v Hv. unfold uwritable, umapped. rewrite S7. apply S8. lia. }
    subst p. exists (UserVA (addr + Z.of_nat (length l))), (set_mem (fun _ => m') s). split; [|split; [done|]].
    + unfold either_copyout. erewrite bind_ok by (by apply myproc_deref_run). erewrite bind_ok by exact Ep.
      rewrite Er. by erewrite bind_ok by exact E.
    + split; try done; rewrite ?length_app; [|lia| |intros v Hv; apply S8; lia|].
      * cbn [kptr_add]. f_equal. rewrite u64_small; [lia|]. change MAXVA with (2 ^ 38) in *. lia.
      * intros v. ksimp. by rewrite Hpt.
      * intros v Hv Hm. ksimp. rewrite Hby; [|done|unfold umapped in *; by rewrite S7]. rewrite S9 by done.
        destruct (Z.leb_spec (addr + Z.of_nat (length l)) v), (Z.ltb_spec v (addr + Z.of_nat (length l) + Z.of_nat (length d))),
          (Z.leb_spec addr v), (Z.ltb_spec v (addr + Z.of_nat (length l))),
          (Z.ltb_spec v (addr + Z.of_nat (length l + length d))); try lia; cbn [andb]; try done.
        -- unfold zget. rewrite lookup_app_r by lia. do 2 f_equal. lia.
        -- unfold zget. by rewrite lookup_app_l by lia.
  - intros s s' p l r [S1 S2 S3 S4 S5 S6 S7 S8 S9] [Eh Ep Em Ei]. split; rewrite ?Eh, ?Ep, ?Em, ?Ei; done.
  - intros s p l r h [S1 S2 S3 S4 S5 S6 S7 S8 S9] Hok Ep. split; try done. by rewrite <-S2, <-Ep.
Qed.

Lemma ubytes_take m root a n l : (n <= length l)%nat -> ubytes m root a (length l) = l -> ubytes m root a n = take n l.
Proof.
  intros Hn E. rewrite <-E. replace (length l) with (n + (length l - n))%nat by lia. rewrite ubytes_app.
  rewrite take_app_length' by (unfold ubytes; by rewrite length_map, length_seq). done.
Qed.

#[export] Instance user_is_source q root F : CopySource (user_source q root F).
Proof.
  split.
  - intros s p l m [S1 S2 S3 S4 (a & -> & Ha & Hend & Hm & Hb)] Hr. destruct (get_proc_root s q root S3) as (pr & Ep & Er).
    assert (0 <= Z.to_nat m <= length l)%nat as Hml by lia. split.
    + unfold either_copyin. erewrite bind_ok by (by apply myproc_deref_run). erewrite bind_ok by exact Ep. rewrite Er.
      unfold copyin. rewrite (copyin_loop _ s root F [] a m) by (done || lia || (intros v Hv; apply Hm; lia)).
      cbn [app]. by rewrite (ubytes_take _ _ _ _ l) by (lia || done).
    + split; try done. exists (a + m). cbn [kptr_add]. rewrite u64_small by (change MAXVA with (2 ^ 38) in *; lia).
      rewrite length_drop. split; [done|]. split; [lia|]. split; [lia|]. split; [intros v Hv; apply Hm; lia|].
      rewrite <-Hb at 2. replace (length l) with (Z.to_nat m + (length l - Z.to_nat m))%nat at 2 by lia.
      rewrite ubytes_app, drop_app_length' by (unfold ubytes; by rewrite length_map, length_seq). f_equal. lia.
  - intros s s' p l [S1 S2 S3 S4 S5] [Eh Ep Em Ei]. split; rewrite ?Eh, ?Ep, ?Em, ?Ei; done.
Qed.

(** * readi *)

(** the effects of readi and writei *)
Definition rw_frame (s s' : kstate) : Prop :=
  exists o, s' = set_mem (fun _ => k_mem s') (set_itable (fun _ => k_itable s')
    (set_log (fun _ => k_log s') (set_bufs (fun _ => k_bufs s') (emit o s)))).

#[export] Instance rw_frame_refl : Reflexive rw_frame.
Proof. intros s. exists []. by rewrite emit_nil. Qed.
#[export] Instance rw_frame_trans : Transitive rw_frame.
Proof. intros s1 s2 s3 [o1 H1] [o2 H2]. exists (o1 ++ o2). rewrite H2, H1, <-emit_app. done. Qed.
Lemma ino_rw_frame s s' : ino_frame s s' -> rw_frame s s'.
Proof. intros [o F]. exists o. rewrite F. done. Qed.
Lemma fs_rw_frame s s' : fs_frame s s' -> rw_frame s s'.
Proof. intros F. by apply ino_rw_frame, fs_ino_frame_quiet. Qed.
Lemma mem_rw_frame s s' : mem_frame s s' -> rw_frame s s'.
Proof. intros F. exists []. rewrite emit_nil, F. done. Qed.
#[export] Hint Resolve ino_rw_frame fs_rw_frame mem_rw_frame : kernel.

Lemma ino_same_core s s' : ino_frame s s' -> same_core s s'.
Proof. intros [o F]. split; by rewrite F. Qed.
Lemma fs_same_core s s' : fs_frame s s' -> same_core s s'.
Proof. intros F. by apply ino_same_core, fs_ino_frame_quiet. Qed.

(** the blocks of the file up to [size] are all there *)
Definition no_holes (V : Z -> list Z) (ino : inode) (size : Z) : Prop :=
  forall k, 0 <= k -> k * BSIZE < size -> fblock V ino k <> 0.

(** the blocks of the file hold bytes *)
Definition bytes_ok (V : Z -> list Z) (ino : inode) : Prop :=
  forall k, 0 <= k < MAXFILE -> fblock V ino k <> 0 -> Forall byte_ok (V (fblock V ino k)).

(** reading leaves the inode table alone too *)
Definition read_frame (s s' : kstate) : Prop := rw_frame s s' /\ k_itable s' = k_itable s.
#[export] Instance read_frame_refl : Reflexive read_frame.
Proof. by intros s. Qed.
#[export] Instance read_frame_trans : Transitive read_frame.
Proof. intros s1 s2 s3 [F1 E1] [F2 E2]. split; [by transitivity s2|congruence]. Qed.

Section rw.
Context {cache} `{BS : BlockStore cache}.
Context (LS : Z).
Local Notation tx := (@FsTx.tx cache).
Local Notation fstate := (@FsFile.fstate cache LS).

Lemma tx_mem s s' bl H V : mem_frame s s' -> tx LS s bl H V -> tx LS s' bl H V.
Proof. intros F T. eapply (tx_frame LS s); [done|by rewrite F..]. Qed.

Lemma fstate_rw s s' bl bl' V ip ino :
  fstate s bl V ip ino -> rw_frame s s' -> k_itable s' = k_itable s -> tx LS s' bl' [] V -> fstate s' bl' V ip ino.
Proof.
  intros [S1 S2 S3 S4 S5 S6] [o F] Et T. assert (k_sb s' = k_sb s) as E by by rewrite F.
  split; rewrite ?E, ?Et; try done.
  - unfold disk_len. by rewrite F.
  - unfold can_print, quiet_uart in *. by rewrite F.
Qed.

Context {sink} `{SK : CopySink sink}.

Lemma readi_step s bl V ip ino n tot off p l :
  fstate s bl V ip ino -> (length bl < 29)%nat -> 0 <= tot < n -> 0 <= off -> off + (n - tot) <= MAXFILE * BSIZE -> n < 2 ^ 32 ->
  fblock V ino (off / BSIZE) <> 0 -> Forall byte_ok (V (fblock V ino (off / BSIZE))) ->
  sink s p l (n - tot) ->
  let m := Z.min (n - tot) (BSIZE - off mod BSIZE) in
  exists p' s', readi_body ip n (tot, off, p) s = Ok (inl (tot + m, off + m, p')) s' /\ 1 <= m <= n - tot /\
    fstate s' bl V ip ino /\ read_frame s s' /\ sink s' p' (l ++ fread V ino off m) (n - (tot + m)).
Proof.
  intros Hs Hr Htot Hoff Hend Hn Hnz Hby Hsk m. pose proof (Z.mod_pos_bound off BSIZE ltac:(reflexivity)) as Hmod.
  assert (1 <= m <= n - tot) as Hm by (unfold m; lia).
  assert (0 <= off / BSIZE < MAXFILE) as Hbn.
  { change BSIZE with 1024 in *. change MAXFILE with 268 in *. Z.to_euclidean_division_equations; lia. }
  destruct (bmap_hit LS s bl V ip ino _ Hs Hbn Hnz) as (s1 & E1 & T1 & F1); [lia|].
  pose proof (fstate_frame LS _ _ _ _ _ _ Hs F1 T1) as [_ L1 O1 Hi1 Hf1 Hp1].
  set (a := fblock V ino (off / BSIZE)) in *.
  assert (home LS s1 a) as Hh.
  { assert (faddr V ino (off / BSIZE) = a) as Ea by (apply faddr_block; lia).
    apply data_home; [done|]. rewrite <-Ea in *. by apply (fk_data _ _ _ Hf1); [lia|]. }
  destruct (tx_bread LS s1 bl [] V a T1 (proj1 Hh)) as (i & s2 & E2 & T2 & F2); [apply not_elem_of_nil|simpl; lia|].
  pose proof (tx_len LS _ _ _ _ _ T1 (proj1 Hh)) as Hlen.
  assert (slice (off mod BSIZE) m (V a) = fread V ino off m) as Esl by (apply slice_fread; [done|lia|unfold m; lia]).
  assert (fs_frame s s2) as F12 by (by transitivity s1).
  destruct (sink_put s2 p l (n - tot) (fread V ino off m)) as (p' & s3 & E3 & F3 & K3).
  { eapply sink_core; [exact Hsk|]. by apply fs_same_core. }
  { rewrite <-Esl. unfold slice. by apply Forall_take, Forall_drop. }
  { rewrite length_fread. lia. }
  destruct (tx_brelse LS s3 bl [] V i a (tx_mem _ _ _ _ _ F3 T2)) as (s4 & E4 & T4 & F4); [apply not_elem_of_nil|].
  rewrite length_fread, Z2Nat.id in K3 by lia.
  assert (rw_frame s s4) as F14.
  { transitivity s2; [by apply fs_rw_frame|]. transitivity s3; [by apply mem_rw_frame|by apply fs_rw_frame]. }
  assert (k_itable s4 = k_itable s) as Et.
  { rewrite (fs_frame_itable _ _ F4), F3. ksimp. by rewrite (fs_frame_itable _ _ F12). }
  exists (kptr_add p' m), s4. split; [|split; [done|split; [|split]]].
  - unfold readi_body. rewrite (proj2 (Z.ltb_lt tot n)) by lia. cbn [negb].
    erewrite bind_ok by exact E1. rewrite (proj2 (Z.eqb_neq _ _) Hnz).
    erewrite bind_ok by (by apply get_inode_ok). rewrite (fk_dev _ _ _ Hf1). cbv zeta. fold m.
    erewrite bind_ok by exact E2. erewrite bind_ok by (eapply tx_bdata; [exact T2|apply list_elem_of_here]).
    rewrite Esl. erewrite bind_ok by exact E3. cbn [fst snd Z.eqb]. erewrite bind_ok by exact E4.
    rewrite !u32_small by (change MAXFILE with 268 in *; change BSIZE with 1024 in *; lia). done.
  - by eapply fstate_rw; [exact Hs|exact F14| |exact T4].
  - by split.
  - eapply sink_core; [|by apply fs_same_core]. replace (n - (tot + m)) with (n - tot - m) by lia. done.
Qed.

Lemma readi_loop bl V ip ino off0 n : forall fuel s tot p,
  fstate s bl V ip ino -> (length bl < 29)%nat -> 0 <= tot <= n -> 0 <= off0 -> off0 + n <= MAXFILE * BSIZE ->
  no_holes V ino (off0 + n) -> bytes_ok V ino ->
  sink s p (fread V ino off0 tot) (n - tot) -> n - tot < Z.of_nat fuel ->
  exists p' s', whileM fuel (readi_body ip n) (tot, off0 + tot, p) s = Ok (n, p') s' /\
    fstate s' bl V ip ino /\ read_frame s s' /\ sink s' p' (fread V ino off0 n) 0.
Proof.
  induction fuel as [|fuel IH]; intros s tot p Hs Hr Htot Hoff Hend Hnh Hby Hsk Hf; [lia|].
  assert (n < 2 ^ 32) as Hn by (change MAXFILE with 268 in *; change BSIZE with 1024 in *; lia).
  destruct (decide (tot = n)) as [->|Hne].
  { exists p, s. rewrite Z.sub_diag in Hsk. split; [|done]. apply whileM_stop. unfold readi_body.
    by rewrite Z.ltb_irrefl. }
  assert (fblock V ino ((off0 + tot) / BSIZE) <> 0) as Hnz.
  { apply Hnh; change BSIZE with 1024; Z.to_euclidean_division_equations; lia. }
  destruct (readi_step s bl V ip ino n tot (off0 + tot) p (fread V ino off0 tot) Hs Hr) as (p1 & s1 & E1 & Hm & S1 & F1 & K1);
    [lia|lia|lia|done|done| |done|].
  { apply Hby; [|done]. change MAXFILE with 268 in *. change BSIZE with 1024 in *.
    Z.to_euclidean_division_equations; lia. }
  set (m := Z.min (n - tot) (BSIZE - (off0 + tot) mod BSIZE)) in *.
  erewrite whileM_step by exact E1. rewrite <-fread_app in K1 by lia.
  destruct (IH s1 (tot + m) p1) as (p' & s' & E' & S' & F' & K'); try done; try lia.
  exists p', s'. rewrite <-Z.add_assoc. split; [done|]. split; [done|]. split; [by transitivity s1|done].
Qed.

(** readi: the bytes of the file between [off] and its end *)
Lemma readi_run s bl V ip ino dst off n :
  fstate s bl V ip ino -> (length bl < 29)%nat -> 0 <= i_size ino <= MAXFILE * BSIZE ->
  no_holes V ino (i_size ino) -> bytes_ok V ino ->
  0 <= off <= i_size ino -> 0 <= n -> off + n < 2 ^ 32 ->
  let m := Z.min n (i_size ino - off) in
  sink s dst [] m ->
  exists dst' s', readi ip dst off n s = Ok (m, dst') s' /\ fstate s' bl V ip ino /\ read_frame s s' /\
    sink s' dst' (fread V ino off m) 0.
Proof.
  intros Hs Hr Hsz Hnh Hby Hoff Hn Hov m Hsk. assert (0 <= m) as Hm by lia.
  assert (m < 2 ^ 31) as Hm31 by (change MAXFILE with 268 in *; change BSIZE with 1024 in *; lia).
  unfold readi. erewrite bind_ok by (apply get_inode_ok; apply Hs). rewrite (u32_small (off + n)) by lia.
  rewrite (proj2 (Z.ltb_ge _ off)), (proj2 (Z.ltb_ge _ off)) by lia. cbn [orb]. cbv zeta.
  assert ((if i_size ino <? off + n then u32 (i_size ino - off) else n) = m) as ->.
  { destruct (Z.ltb_spec (i_size ino) (off + n)); [rewrite u32_small by (change MAXFILE with 268 in *; change BSIZE with 1024 in *; lia)|]; lia. }
  destruct (readi_loop bl V ip ino off m (Z.to_nat m + 1) s 0 dst Hs Hr) as (p' & s' & E & S' & F' & K');
    try lia; try done.
  - intros k Hk Hlt. apply Hnh; [done|lia].
  - by rewrite Z.sub_0_r.
  - rewrite Z.add_0_r in E. erewrite bind_ok by exact E. exists p', s'. split; [|done]. cbn [fst snd].
    unfold ret. do 2 f_equal. unfold s32, signed. rewrite Z.mod_small by lia.
    by rewrite (proj2 (Z.ltb_lt _ _)) by (change (2 ^ (32 - 1)) with (2 ^ 31); lia).
Qed.
End rw.

(** * writei *)

(** the content after [d] has been written at [off]: the bytes of the blocks
    the file had are kept *)
Definition written (V : Z -> list Z) (ino : inode) (off : Z) (d : list Z) (V' : Z -> list Z) (ino' : inode) : Prop :=
  forall x, 0 <= x < MAXFILE * BSIZE ->
    fblock V ino (x / BSIZE) <> 0 \/ off <= x < off + Z.of_nat (length d) ->
    fblock V' ino' (x / BSIZE) <> 0 /\
    fbyte V' ino' x = if decide (off <= x < off + Z.of_nat (length d)) then zget d (x - off) else fbyte V ino x.

Lemma written_nil V ino off V' ino' :
  (forall k, 0 <= k < MAXFILE -> fblock V ino k <> 0 ->
     fblock V' ino' k = fblock V ino k /\ V' (fblock V ino k) = V (fblock V ino k)) ->
  written V ino off [] V' ino'.
Proof.
  intros H x Hx [Hnz|Hr]; [|simpl in Hr; lia]. rewrite decide_False by (simpl; lia).
  destruct (H (x / BSIZE)) as [E1 E2]; [|done|].
  { change MAXFILE with 268 in *. change BSIZE with 1024 in *. Z.to_euclidean_division_equations; lia. }
  rewrite E1. split; [done|]. unfold fbyte. by rewrite E1, E2.
Qed.

Lemma written_trans V1 i1 V2 i2 V3 i3 off d e :
  written V1 i1 off d V2 i2 -> written V2 i2 (off + Z.of_nat (length d)) e V3 i3 -> written V1 i1 off (d ++ e) V3 i3.
Proof.
  intros W1 W2 x Hx Hor. rewrite length_app in *.
  destruct (decide (off + Z.of_nat (length d) <= x < off + Z.of_nat (length d) + Z.of_nat (length e))) as [He|He].
  - destruct (W2 x Hx (or_intror He)) as [Hnz Eb]. rewrite decide_True in Eb by done. split; [done|].
    rewrite decide_True by lia. rewrite Eb. unfold zget. rewrite lookup_app_r by lia. do 2 f_equal. lia.
  - assert (fblock V1 i1 (x / BSIZE) <> 0 \/ off <= x < off + Z.of_nat (length d)) as Hor1 by (destruct Hor; [by left|right; lia]).
    destruct (W1 x Hx Hor1) as [Hnz1 Eb1]. destruct (W2 x Hx (or_introl Hnz1)) as [Hnz Eb]. rewrite decide_False in Eb by done.
    split; [done|]. rewrite Eb, Eb1. destruct (decide (off <= x < off + Z.of_nat (length d))).
    + rewrite decide_True by lia. unfold zget. by rewrite lookup_app_l by lia.
    + by rewrite decide_False by lia.
Qed.

Lemma zget_splice i new l x :
  0 <= i <= Z.of_nat (length l) -> 0 <= x ->
  zget (splice i new l) x = if decide (i <= x < i + Z.of_nat (length new)) then zget new (x - i) else zget l x.
Proof.
  intros Hi Hx. unfold zget, splice. assert (length (take (Z.to_nat i) l) = Z.to_nat i) as Ht by (rewrite length_take; lia).
  destruct (decide (i <= x < i + Z.of_nat (length new))) as [Hin|Hin].
  - rewrite lookup_app_r by lia. rewrite lookup_app_l by lia. do 2 f_equal. lia.
  - destruct (decide (x < i)).
    + rewrite lookup_app_l by lia. by rewrite lookup_take_lt by lia.
    + rewrite lookup_app_r by lia. rewrite lookup_app_r by lia. rewrite lookup_drop. do 2 f_equal. lia.
Qed.

(** the addresses do not change when a data block of the file is written *)
Lemma fblock_vset V ino bn d k :
  file_inj V ino -> 0 <= bn < MAXFILE -> fblock V ino bn <> 0 ->
  faddr (vset V (fblock V ino bn) d) ino k = faddr V ino k.
Proof.
  intros Hf Hbn Hnz. apply faddr_ext. intros _. unfold vset. rewrite decide_False; [done|].
  pose proof (fblock_ne_ind _ _ _ Hf Hbn Hnz). congruence.
Qed.

(** writing inside one block *)
Lemma written_block V ino off d :
  file_inj V ino -> 0 <= off -> off + Z.of_nat (length d) <= MAXFILE * BSIZE ->
  off mod BSIZE + Z.of_nat (length d) <= BSIZE -> d <> [] -> fblock V ino (off / BSIZE) <> 0 ->
  length (V (fblock V ino (off / BSIZE))) = Z.to_nat BSIZE ->
  written V ino off d (vset V (fblock V ino (off / BSIZE)) (splice (off mod BSIZE) d (V (fblock V ino (off / BSIZE))))) ino.
Proof.
  intros Hf Hoff Hend Hfit Hd Hnz Hlen x Hx Hor. destruct d as [|c d']; [done|]. set (d := c :: d') in *.
  assert (1 <= Z.of_nat (length d)) as Hl1 by (unfold d; simpl; lia).
  set (bn := off / BSIZE) in *. assert (0 <= bn < MAXFILE) as Hbn.
  { unfold bn. change MAXFILE with 268 in *. change BSIZE with 1024 in *. Z.to_euclidean_division_equations; lia. }
  assert (0 <= x / BSIZE < MAXFILE) as Hxb.
  { change MAXFILE with 268 in *. change BSIZE with 1024 in *. Z.to_euclidean_division_equations; lia. }
  assert (forall w, fblock (vset V (fblock V ino bn) w) ino (x / BSIZE) = fblock V ino (x / BSIZE)) as Esame.
  { intros w. pose proof (fblock_vset V ino bn w (x / BSIZE) Hf Hbn Hnz) as E. by rewrite !faddr_block in E by lia. }
  pose proof (Z.mod_pos_bound off BSIZE ltac:(reflexivity)) as Hom. pose proof (Z.mod_pos_bound x BSIZE ltac:(reflexivity)) as Hxm.
  assert (off <= x < off + Z.of_nat (length d) -> x / BSIZE = bn /\ x mod BSIZE = off mod BSIZE + (x - off)) as Hin.
  { intros Hr. replace x with (off + (x - off)) at 1 2 by lia. apply block_pos; lia. }
  assert (fblock V ino (x / BSIZE) <> 0) as Hnzx by (destruct Hor as [?|Hr]; [done|by destruct (Hin Hr) as [-> _]]).
  unfold fbyte. rewrite Esame. split; [done|]. unfold vset.
  destruct (decide (fblock V ino (x / BSIZE) = fblock V ino bn)) as [E|E].
  - assert (x / BSIZE = bn) as Exb.
    { apply Hf; rewrite ?faddr_block by lia; (done || lia). }
    rewrite zget_splice by (rewrite ?Hlen; change (Z.of_nat (Z.to_nat BSIZE)) with BSIZE; lia).
    pose proof (Z.div_mod x BSIZE ltac:(done)) as Ex. pose proof (Z.div_mod off BSIZE ltac:(done)) as Eo.
    rewrite Exb in Ex. fold bn in Eo.
    destruct (decide (off <= x < off + Z.of_nat (length d))) as [Hr|Hr].
    + rewrite decide_True by lia. f_equal. lia.
    + rewrite decide_False by lia. by rewrite E.
  - rewrite decide_False; [done|]. intros Hr. destruct (Hin Hr) as [Exb _]. by rewrite Exb in E.
Qed.
