(* ===== verification/FsWrite.v ===== *)
(** writei of kernel/fs.c, and the theorems on reading and writing files. *)

From stdpp Require Import base gmap strings numbers list.
From S2P Require Import Prelude KState KString Spinlock Printf ProcSync SyncSpec Bio BioRing BioSpec.
From S2P Require Import BlockStore Log LogDisk LogSpec LogOps FsTx Kalloc Vm VmPte VmTree VmSpec VmCopy.
From S2P Require Import Fs FsBlock FsInode FsFile FsRw.

Lemma fbn_range x : 0 <= x < MAXFILE * BSIZE -> 0 <= x / BSIZE < MAXFILE.
Proof.
  intros Hx. change MAXFILE with 268 in *. change BSIZE with 1024 in *. Z.to_euclidean_division_equations; lia.
Qed.

(** the blocks [n] bytes at [off] lie in *)
Definition nblocks (off n : Z) : Z := if n <=? 0 then 0 else (off + n - 1) / BSIZE - off / BSIZE + 1.

Lemma nblocks_step off n :
  0 <= off -> 0 < n -> let m := Z.min n (BSIZE - off mod BSIZE) in
  nblocks (off + m) (n - m) = nblocks off n - 1 /\ 1 <= nblocks off n.
Proof.
  intros Hoff Hn m. unfold nblocks, m. change BSIZE with 1024.
  destruct (Z.leb_spec n 0), (Z.leb_spec (n - Z.min n (1024 - off mod 1024)) 0);
    Z.to_euclidean_division_equations; lia.
Qed.

(** a block of the file, as the block layer sees it *)
Lemma bytes_ok_vset sb V ino bn d :
  file_ok sb V ino -> bytes_ok V ino -> 0 <= bn < MAXFILE -> fblock V ino bn <> 0 -> Forall byte_ok d ->
  bytes_ok (vset V (fblock V ino bn) d) ino.
Proof.
  intros Hf Hb Hbn Hnz Hd k Hk. pose proof (fblock_vset V ino bn d k (fk_inj _ _ _ Hf) Hbn Hnz) as E.
  rewrite !faddr_block in E by lia. rewrite E. intros Hk0. unfold vset.
  destruct (decide (fblock V ino k = fblock V ino bn)); [done|by apply Hb].
Qed.

Lemma Forall_splice {A} (P : A -> Prop) i new l : Forall P new -> Forall P l -> Forall P (splice i new l).
Proof. intros Hn Hl. unfold splice. rewrite !Forall_app. auto using Forall_take, Forall_drop. Qed.

Lemma bytes_ok_zero : Forall byte_ok zero_block.
Proof. apply Forall_replicate. by split. Qed.

Section write.
Context {cache} `{BS : BlockStore cache}.
Context (LS : Z).
Local Notation tx := (@FsTx.tx cache).
Local Notation fstate := (@FsFile.fstate cache LS).

(** what one or several rounds of writei leave behind *)
Record wpost (s : kstate) (V : Z -> list Z) (ip : nat) (ino : inode)
    (s' : kstate) (bl' : list Z) (V' : Z -> list Z) (ino' : inode) : Prop := {
  wp_state : fstate s' bl' V' ip ino';
  wp_frame : ino_frame s s';
  wp_table : k_itable s' = <[ip := ino']> (k_itable s);
  wp_inode : ino' = i_set_addrs (fun _ => i_addrs ino') ino;
  wp_others : preserves (k_sb s) V ino V' ino';
  wp_bytes : bytes_ok V ino -> bytes_ok V' ino'
}.

Lemma wpost_refl s bl V ip ino : fstate s bl V ip ino -> wpost s V ip ino s bl V ino.
Proof.
  intros Hs. split; try done.
  - by rewrite (table_same _ _ _ (st_ino _ _ _ _ _ _ Hs)).
  - by destruct ino.
Qed.

Lemma wpost_trans s V ip ino s1 bl1 V1 ino1 s' bl' V' ino' :
  wpost s V ip ino s1 bl1 V1 ino1 -> wpost s1 V1 ip ino1 s' bl' V' ino' -> wpost s V ip ino s' bl' V' ino'.
Proof.
  intros [A1 A2 A3 A4 A5 A6] [B1 B2 B3 B4 B5 B6]. split; try done.
  - by transitivity s1.
  - by rewrite B3, A3, list_insert_insert_eq.
  - rewrite B4, A4. done.
  - eapply preserves_trans; [exact A5|]. by rewrite <-(ino_frame_sb _ _ A2).
  - auto.
Qed.

Lemma wpost_bmap s V ip ino bn a s' bl' V' ino' :
  0 <= bn < MAXFILE ->
  bmap_post (cache := cache) LS s V ip ino bn a s' bl' V' ino' -> wpost s V ip ino s' bl' V' ino' /\ forall off, written V ino off [] V' ino'.
Proof.
  intros Hbn [P1 P2 P3 P4 P5 P6 P7 P8 P9 P10 P11].
  assert (forall k, 0 <= k < MAXFILE -> fblock V ino k <> 0 -> fblock V' ino' k = fblock V ino k) as Hk.
  { intros k Hk Hnz. destruct (decide (k = bn)) as [->|Hne]; [|by apply P6]. by rewrite <-P5, P8. }
  split; [split; try done|].
  - intros Hb k Hkr Hnz. destruct (decide (fblock V ino k = 0)) as [E0|E0].
    + destruct (decide (k = bn)) as [->|Hne].
      * rewrite <-P5 in *. rewrite P9 by done. apply bytes_ok_zero.
      * rewrite P6 in Hnz by done. done.
    + rewrite Hk, P7 by done. by apply Hb.
  - intros off. apply written_nil. intros k Hkr Hnz. split; [by apply Hk|by apply P7].
Qed.

(** the file system after a data block of the file has been rewritten *)
Lemma store_block s bl V ip ino bn d s' bl' :
  fstate s bl V ip ino -> 0 <= bn < MAXFILE -> fblock V ino bn <> 0 -> fs_frame s s' ->
  tx LS s' bl' [] (vset V (fblock V ino bn) d) ->
  fstate s' bl' (vset V (fblock V ino bn) d) ip ino /\
  preserves (k_sb s) V ino (vset V (fblock V ino bn) d) ino.
Proof.
  intros [T L O Hi Hf Hp] Hbn Hnz F T'. set (a := fblock V ino bn) in *.
  assert (faddr V ino bn = a) as Ea by (apply faddr_block; lia).
  destruct (fk_data _ _ _ Hf bn ltac:(lia) ltac:(by rewrite Ea)) as [Hd Hu]. rewrite Ea in Hd, Hu.
  pose proof (layout_pos _ _ _ L) as Hpos.
  assert (forall m, 0 <= m < sb_size (k_sb s) -> used (k_sb s) (vset V a d) m = used (k_sb s) V m) as Hused.
  { intros m Hm. apply (used_vset_data LS _ (disk_len s)); [done|lia|done]. }
  assert (forall k, faddr (vset V a d) ino k = faddr V ino k) as Hsame by (intros k; exact (fblock_vset V ino bn d k (fk_inj _ _ _ Hf) Hbn Hnz)).
  split.
  - pose proof (fs_frame_sb _ _ F) as Esb. split; rewrite ?Esb; try done.
    + by rewrite (fs_frame_disk _ _ F).
    + eapply blocks_ok_data; [exact L|done|lia].
    + by rewrite (fs_frame_itable _ _ F).
    + eapply (file_ok_same _ V); [done|apply (fk_dev _ _ _ Hf)|apply (fk_len _ _ _ Hf)| |by intros].
      intros m Hm Hum. rewrite Hused by lia. done.
    + apply (ino_frame_print s); [by apply fs_ino_frame_quiet|done].
  - intros m Hm Hum Hno. rewrite Hused by done. split; [done|]. split; [intros k Hk; rewrite Hsame; by apply Hno|].
    intros _. unfold vset. rewrite decide_False; [done|]. intros ->. apply (Hno bn); [lia|done].
Qed.

Context {source} `{SC : CopySource source}.

Lemma writei_step s bl V ip ino n tot off p l :
  fstate s bl V ip ino -> (length bl < 24)%nat -> 0 <= tot < n -> 0 <= off -> off + (n - tot) <= MAXFILE * BSIZE ->
  n < 2 ^ 32 -> source s p l -> Z.of_nat (length l) = n - tot -> Forall byte_ok l ->
  let m := Z.min (n - tot) (BSIZE - off mod BSIZE) in
  exists s' bl' V' ino', wpost s V ip ino s' bl' V' ino' /\ (length bl' <= length bl + 6)%nat /\
    (writei_body ip n (tot, off, p) s = Ok (inr (tot, off)) s' /\ written V ino off [] V' ino' /\
       (forall b, 0 <= b < sb_size (k_sb s) -> used (k_sb s) V' b = true) \/
     writei_body ip n (tot, off, p) s = Ok (inl (tot + m, off + m, kptr_add p m)) s' /\
       source s' (kptr_add p m) (drop (Z.to_nat m) l) /\ written V ino off (take (Z.to_nat m) l) V' ino').
Proof.
  intros Hs Hr Htot Hoff Hend Hn Hsrc Hll Hlb m. pose proof (Z.mod_pos_bound off BSIZE ltac:(reflexivity)) as Hmod.
  assert (1 <= m <= n - tot) as Hm by (unfold m; lia).
  set (bn := off / BSIZE). assert (0 <= bn < MAXFILE) as Hbn by (apply fbn_range; lia).
  destruct (bmap_run LS s bl V ip ino bn Hs Hbn) as (a & s1 & bl1 & V1 & ino1 & E1 & P & Hl1); [lia|].
  destruct (wpost_bmap s V ip ino bn a s1 bl1 V1 ino1 Hbn P) as [W1 Wr1].
  assert (writei_body ip n (tot, off, p) s = (if a =? 0 then ret (inr (tot, off)) else
      let! ino := get_inode ip in
      let! bp := bread (i_dev ino) a in
      let! r := either_copyin p m in
      let! d := bdata bp in
      set_bdata bp (splice (off mod BSIZE) (r : Z * list Z).2 d) ;;
      if r.1 =? -1 then brelse bp ;; ret (inr (tot, off))
      else log_write bp ;; brelse bp ;; ret (inl (u32 (tot + m), u32 (off + m), kptr_add p m))) s1) as Ebody.
  { unfold writei_body. rewrite (proj2 (Z.ltb_lt tot n)) by lia. cbn [negb]. by erewrite bind_ok by exact E1. }
  rewrite Ebody. destruct (Z.eqb_spec a 0) as [E0|E0].
  { exists s1, bl1, V1, ino1. split; [done|]. split; [lia|]. left. split; [done|]. split; [apply Wr1|].
    by apply (bp_full _ _ _ _ _ _ _ _ _ _ _ P). }
  pose proof (wp_state _ _ _ _ _ _ _ _ W1) as S1. pose proof S1 as [T1 L1 O1 Hi1 Hf1 Hp1].
  pose proof (bp_addr _ _ _ _ _ _ _ _ _ _ _ P) as Ea. rewrite Ea in E0.
  assert (home LS s1 a) as Hh.
  { apply data_home; [done|]. rewrite Ea, <-(faddr_block V1) in * by lia. by apply (fk_data _ _ _ Hf1); [lia|]. }
  pose proof (tx_len LS _ _ _ _ _ T1 (proj1 Hh)) as Hlen.
  destruct (tx_update LS s1 bl1 [] V1 a T1 Hh) as (i & s2 & E2 & Ed & T2 & F2 & U); [apply not_elem_of_nil|simpl; lia|].
  assert (source s2 p l) as Hsrc2.
  { eapply source_core; [eapply source_core; [exact Hsrc|]|]; [apply ino_same_core, W1|by apply fs_same_core]. }
  destruct (source_get s2 p l m Hsrc2) as [Ec _]; [lia|]. set (d := take (Z.to_nat m) l) in *.
  assert (Z.of_nat (length d) = m) as Hld by (unfold d; rewrite length_take; lia).
  destruct (U (splice (off mod BSIZE) d (V1 a))) as (s3 & s4 & s5 & E3 & E4 & E5 & T5 & F5).
  { rewrite length_splice; [done|lia|]. rewrite Hlen. change (Z.of_nat (Z.to_nat BSIZE)) with BSIZE. unfold m in *; lia. }
  rewrite Ea in T5. destruct (store_block s1 bl1 V1 ip ino1 bn _ s5 _ S1 Hbn E0 F5 T5) as [S5 Pr5].
  exists s5, (logged (fblock V1 ino1 bn) bl1), (vset V1 (fblock V1 ino1 bn) (splice (off mod BSIZE) d (V1 (fblock V1 ino1 bn)))), ino1.
  split; [|split].
  - eapply wpost_trans; [exact W1|]. split; try done.
    + by apply fs_ino_frame_quiet.
    + by rewrite (fs_frame_itable _ _ F5), (table_same _ _ _ Hi1).
    + by destruct ino1.
    + intros Hb. eapply bytes_ok_vset; try done. apply Forall_splice; [by apply Forall_take|]. by apply Hb.
  - pose proof (length_logged (fblock V1 ino1 bn) bl1). lia.
  - right. split; [|split].
    + erewrite bind_ok by (by apply get_inode_ok). rewrite (fk_dev _ _ _ Hf1). erewrite bind_ok by exact E2.
      erewrite bind_ok by exact Ec. erewrite bind_ok by exact Ed. cbn [fst snd Z.eqb].
      erewrite bind_ok by exact E3. erewrite bind_ok by exact E4. erewrite bind_ok by exact E5.
      rewrite !u32_small by (change MAXFILE with 268 in *; change BSIZE with 1024 in *; lia). done.
    + destruct (source_get s5 p l m) as [_ Hsrc5]; [|lia|exact Hsrc5].
      eapply source_core; [exact Hsrc|]. apply ino_same_core. transitivity s1; [apply W1|by apply fs_ino_frame_quiet].
    + change d with ([] ++ d) at 1. eapply written_trans; [apply Wr1|]. cbn [length]. rewrite Z.add_0_r.
      rewrite Ea in Hlen. eapply written_block; try done.
      * apply (fk_inj _ _ _ Hf1).
      * lia.
      * unfold m in *; lia.
      * intros ->. simpl in Hld. lia.
Qed.

Lemma take_add (a b : nat) (l : list Z) : take (a + b) l = take a l ++ take b (drop a l).
Proof. by rewrite take_take_drop. Qed.

Lemma nblocks_nonneg off n : 0 <= off -> 0 <= nblocks off n.
Proof.
  intros Hoff. unfold nblocks. destruct (Z.leb_spec n 0); [done|]. change BSIZE with 1024.
  Z.to_euclidean_division_equations; lia.
Qed.

Lemma writei_loop ip n : forall fuel s bl V ino tot off p l,
  fstate s bl V ip ino -> Z.of_nat (length bl) + 6 * nblocks off (n - tot) < 30 -> 0 <= tot <= n -> 0 <= off ->
  off + (n - tot) <= MAXFILE * BSIZE -> n < 2 ^ 32 -> source s p l -> Z.of_nat (length l) = n - tot ->
  Forall byte_ok l -> n - tot < Z.of_nat fuel ->
  exists tot' s' bl' V' ino', whileM fuel (writei_body ip n) (tot, off, p) s = Ok (tot', off + (tot' - tot)) s' /\
    tot <= tot' <= n /\ wpost s V ip ino s' bl' V' ino' /\ written V ino off (take (Z.to_nat (tot' - tot)) l) V' ino' /\
    Z.of_nat (length bl') <= Z.of_nat (length bl) + 6 * nblocks off (n - tot) /\
    (tot' < n -> forall b, 0 <= b < sb_size (k_sb s) -> used (k_sb s) V' b = true).
Proof.
  induction fuel as [|fuel IH]; intros s bl V ino tot off p l Hs Hr Htot Hoff Hend Hn Hsrc Hll Hlb Hf; [lia|].
  destruct (decide (tot = n)) as [->|Hne].
  { exists n, s, bl, V, ino. split; [rewrite Z.sub_diag, Z.add_0_r; apply whileM_stop; unfold writei_body; by rewrite Z.ltb_irrefl|].
    split; [lia|]. split; [by apply wpost_refl|]. split; [|split; [pose proof (nblocks_nonneg off (n - n) Hoff); lia|lia]].
    rewrite Z.sub_diag. apply written_nil. by intros. }
  destruct (nblocks_step off (n - tot) Hoff) as [Hnb Hnb1]; [lia|].
  destruct (writei_step s bl V ip ino n tot off p l Hs) as (s1 & bl1 & V1 & ino1 & W1 & Hl1 & Hcase); try lia; try done.
  set (m := Z.min (n - tot) (BSIZE - off mod BSIZE)) in *.
  destruct Hcase as [(E1 & Wr1 & Hfull)|(E1 & Hsrc1 & Wr1)].
  - exists tot, s1, bl1, V1, ino1. split; [rewrite Z.sub_diag, Z.add_0_r; by apply whileM_stop|].
    split; [lia|]. split; [done|]. split; [rewrite Z.sub_diag; exact Wr1|]. split; [lia|done].
  - pose proof (Z.mod_pos_bound off BSIZE ltac:(reflexivity)) as Hmod.
    assert (1 <= m <= n - tot) as Hm by (unfold m; lia).
    assert (n - (tot + m) = n - tot - m) as Enm by lia.
    destruct (IH s1 bl1 V1 ino1 (tot + m) (off + m) (kptr_add p m) (drop (Z.to_nat m) l))
      as (tot' & s' & bl' & V' & ino' & E' & Ht' & W' & Wr' & Hl' & Hfull'); rewrite ?Enm; try done; try lia.
    { apply (wp_state _ _ _ _ _ _ _ _ W1). }
    { rewrite length_drop. lia. }
    { by apply Forall_drop. }
    exists tot', s', bl', V', ino'. split; [|split; [lia|split; [|split; [|split]]]].
    + erewrite whileM_step by exact E1. rewrite E'. by replace (off + m + (tot' - (tot + m))) with (off + (tot' - tot)) by lia.
    + by eapply wpost_trans.
    + replace (Z.to_nat (tot' - tot)) with (Z.to_nat m + Z.to_nat (tot' - (tot + m)))%nat by lia. rewrite take_add.
      eapply written_trans; [exact Wr1|]. rewrite length_take.
      replace (Z.of_nat (Z.to_nat m `min` length l)) with m by lia. exact Wr'.
    + rewrite Enm in Hl'. lia.
    + intros Hlt. rewrite <-(ino_frame_sb _ _ (wp_frame _ _ _ _ _ _ _ _ W1)). by apply Hfull'.
Qed.

(** the addresses of a file fit in its disk inode *)
Lemma file_addrs s V ino :
  fs_layout LS (k_sb s) (disk_len s) -> file_ok (k_sb s) V ino -> Forall (fun a => 0 <= a < 2 ^ 32) (i_addrs ino).
Proof.
  intros L Hf. apply Forall_lookup. intros i a Hi.
  assert (i < Z.to_nat (NDIRECT + 1))%nat as Hlt by (rewrite <-(fk_len _ _ _ Hf); by eapply lookup_lt_Some).
  change (Z.to_nat (NDIRECT + 1)) with 13%nat in Hlt.
  assert (exists k, 0 <= k <= MAXFILE /\ faddr V ino k = a) as (k & Hk & Ek).
  { assert (zget (i_addrs ino) (Z.of_nat i) = a) as Ea by (unfold zget; by rewrite Nat2Z.id, Hi).
    destruct (decide (i = 12%nat)) as [->|Hne].
    - exists MAXFILE. split; [by split|]. exact Ea.
    - exists (Z.of_nat i). change MAXFILE with 268. split; [lia|]. rewrite faddr_block by (change MAXFILE with 268; lia).
      unfold fblock. rewrite (proj2 (Z.ltb_lt _ _)) by (change NDIRECT with 12; lia). exact Ea. }
  destruct (decide (a = 0)) as [->|Hnz]; [lia|].
  destruct (fk_data _ _ _ Hf k Hk) as [Hd _]; [congruence|]. rewrite Ek in Hd.
  destruct (data_home LS s a L Hd). lia.
Qed.

(** iupdate while the file is open *)
Lemma fstate_iupdate s bl V ip ino :
  fstate s bl V ip ino -> (length bl < 30)%nat -> 0 <= i_inum ino < sb_ninodes (k_sb s) -> dinode_ok ino ->
  exists s', iupdate ip s = Ok tt s' /\
    fstate s' (logged (IBLOCK (i_inum ino) (k_sb s)) bl) (iupdate_view (k_sb s) V ino) ip ino /\ fs_frame s s' /\
    (forall k, faddr (iupdate_view (k_sb s) V ino) ino k = faddr V ino k) /\
    (forall k, 0 <= k <= MAXFILE -> faddr V ino k <> 0 -> iupdate_view (k_sb s) V ino (faddr V ino k) = V (faddr V ino k)) /\
    (forall m, 0 <= m < sb_size (k_sb s) -> used (k_sb s) (iupdate_view (k_sb s) V ino) m = used (k_sb s) V m).
Proof.
  intros Hs Hr Hin Hok. pose proof Hs as [T L O Hi Hf Hp].
  destruct (iupdate_run LS s bl [] V ip ino T L) as (s' & E & T' & F); try done.
  { simpl. lia. }
  { apply (fk_dev _ _ _ Hf). }
  { apply not_elem_of_nil. }
  destruct (iblock_in _ _ _ _ L Hin) as [_ Hib]. pose proof (layout_pos _ _ _ L) as Hpos.
  set (V' := iupdate_view (k_sb s) V ino) in *.
  assert (forall m, m <> IBLOCK (i_inum ino) (k_sb s) -> V' m = V m) as Hother.
  { intros m Hm. unfold V', iupdate_view, vset. by rewrite decide_False. }
  assert (forall k, 0 <= k <= MAXFILE -> faddr V ino k <> 0 -> V' (faddr V ino k) = V (faddr V ino k)) as Hc.
  { intros k Hk Hnz. apply Hother. destruct (fk_data _ _ _ Hf k Hk Hnz). lia. }
  assert (forall k, faddr V' ino k = faddr V ino k) as Hsame.
  { intros k. apply faddr_ext. intros Hnz. rewrite <-(faddr_ind V). apply Hc; [by split|done]. }
  assert (forall m, 0 <= m < sb_size (k_sb s) -> used (k_sb s) V' m = used (k_sb s) V m) as Hused.
  { intros m Hm. unfold V', iupdate_view. apply (used_vset_data LS _ (disk_len s)); [done|lia|done]. }
  exists s'. split; [done|]. split; [|done]. pose proof (fs_frame_sb _ _ F) as Esb. split; rewrite ?Esb; try done.
  - by rewrite (fs_frame_disk _ _ F).
  - unfold V', iupdate_view. eapply blocks_ok_data; [exact L|done|lia].
  - by rewrite (fs_frame_itable _ _ F).
  - eapply (file_ok_same _ V); [done|apply (fk_dev _ _ _ Hf)|apply (fk_len _ _ _ Hf)| |by intros].
    intros m Hm Hum. rewrite Hused by lia. done.
  - apply (ino_frame_print s); [by apply fs_ino_frame_quiet|done].
Qed.

(** the size of the file is not part of its block map *)
Lemma fstate_size s bl V ip ino sz :
  fstate s bl V ip ino -> let ino' := i_set_size (fun _ => sz) ino in
  let s' := upd_inode ip (i_set_size (fun _ => sz)) s in
  fstate s' bl V ip ino' /\ k_itable s' = <[ip := ino']> (k_itable s).
Proof.
  intros [T L O Hi Hf Hp] ino' s'. assert (k_itable s' = <[ip := ino']> (k_itable s)) as Et.
  { unfold s'. by rewrite (upd_inode_insert _ _ _ _ Hi). }
  split; [|done]. split; try done.
  - by apply tx_upd_inode.
  - rewrite Et. apply list_lookup_insert_eq. by eapply lookup_lt_Some.
  - change (file_ok (k_sb s) V ino'). destruct Hf as [F1 F2 F3 F4]. by split.
Qed.

(** the file after a write *)
Record writei_post (s : kstate) (V : Z -> list Z) (ip : nat) (ino : inode) (off : Z) (d : list Z)
    (s' : kstate) (bl' : list Z) (V' : Z -> list Z) (ino' : inode) : Prop := {
  wt_state : fstate s' bl' V' ip ino';
  wt_frame : ino_frame s s';
  wt_table : k_itable s' = <[ip := ino']> (k_itable s);
  wt_size : i_size ino' = Z.max (i_size ino) (off + Z.of_nat (length d));
  wt_inode : ino' = i_set_size (fun _ => i_size ino') (i_set_addrs (fun _ => i_addrs ino') ino);
  wt_content : fcontent V' ino' = splice off d (fcontent V ino);
  wt_holes : no_holes V' ino' (i_size ino');
  wt_bytes : bytes_ok V ino -> bytes_ok V' ino';
  wt_disk x : same_dinode (disk_inode (k_sb s) V' (i_inum ino) x) ino';
  wt_others m : 0 <= m < sb_size (k_sb s) -> used (k_sb s) V m = true ->
    (forall k, 0 <= k <= MAXFILE -> faddr V ino k <> m) -> ~ sb_bmapstart (k_sb s) <= m < data_start (k_sb s) ->
    m <> IBLOCK (i_inum ino) (k_sb s) -> V' m = V m
}.

(** the content after the loop, with the size set *)
Lemma written_content V ino off d V' ino' :
  0 <= i_size ino <= MAXFILE * BSIZE -> 0 <= off <= i_size ino -> off + Z.of_nat (length d) <= MAXFILE * BSIZE ->
  no_holes V ino (i_size ino) -> written V ino off d V' ino' ->
  i_size ino' = Z.max (i_size ino) (off + Z.of_nat (length d)) ->
  fcontent V' ino' = splice off d (fcontent V ino) /\ no_holes V' ino' (i_size ino').
Proof.
  intros Hsz Hoff Hend Hnh W Es. pose proof (length_fcontent V ino) as Hl. split.
  - apply list_eq_zget.
    + apply Nat2Z.inj. rewrite length_fcontent by lia. unfold splice. rewrite !length_app, length_take, length_drop. lia.
    + intros x Hx. rewrite length_fcontent in Hx by lia. rewrite zget_fcontent by done. rewrite zget_splice by lia.
      destruct (W x) as [_ Eb]; [lia| |].
      * destruct (decide (off <= x < off + Z.of_nat (length d))); [by right|left].
        apply Hnh; [apply Z.div_pos; [lia|done]|]. pose proof (Z.mul_div_le x BSIZE ltac:(reflexivity)). lia.
      * rewrite Eb. destruct (decide (off <= x < off + Z.of_nat (length d))); [done|]. by rewrite zget_fcontent by lia.
  - intros k Hk Hlt. destruct (decide (k * BSIZE < i_size ino)) as [Hin|Hin].
    + destruct (W (k * BSIZE)) as [Hnz _]; [change BSIZE with 1024 in *; lia| |].
      * left. rewrite Z.div_mul by done. by apply Hnh.
      * by rewrite Z.div_mul in Hnz by done.
    + destruct (W (k * BSIZE)) as [Hnz _]; [change BSIZE with 1024 in *; lia|right; lia|].
      by rewrite Z.div_mul in Hnz by done.
Qed.

(** the content does not change when only other blocks do *)
Lemma content_same V V' ino :
  (forall k, 0 <= k <= MAXFILE -> faddr V' ino k = faddr V ino k) ->
  (forall k, 0 <= k <= MAXFILE -> faddr V ino k <> 0 -> V' (faddr V ino k) = V (faddr V ino k)) ->
  0 <= i_size ino <= MAXFILE * BSIZE -> no_holes V ino (i_size ino) ->
  fcontent V' ino = fcontent V ino /\ no_holes V' ino (i_size ino) /\ (bytes_ok V ino -> bytes_ok V' ino).
Proof.
  intros Hsame Hc Hsz Hnh.
  assert (forall k, 0 <= k < MAXFILE -> fblock V' ino k = fblock V ino k) as Hb.
  { intros k Hk. pose proof (Hsame k ltac:(lia)) as E. by rewrite !faddr_block in E by lia. }
  assert (forall k, 0 <= k < MAXFILE -> fblock V ino k <> 0 -> V' (fblock V ino k) = V (fblock V ino k)) as Hv.
  { intros k Hk. pose proof (Hc k ltac:(lia)) as E. by rewrite !faddr_block in E by lia. }
  split; [|split].
  - apply list_eq_zget; [apply Nat2Z.inj; by rewrite !length_fcontent by lia|]. intros x Hx.
    rewrite length_fcontent in Hx by lia. rewrite !zget_fcontent by done. unfold fbyte.
    assert (0 <= x / BSIZE < MAXFILE) as Hr by (apply fbn_range; lia). rewrite Hb, Hv; [done|done| |done].
    apply Hnh; [lia|]. pose proof (Z.mul_div_le x BSIZE ltac:(reflexivity)). lia.
  - intros k Hk Hlt. rewrite Hb; [by apply Hnh|]. change MAXFILE with 268 in *. change BSIZE with 1024 in *. lia.
  - intros Hby k Hk Hnz. rewrite Hb in Hnz |- * by done. rewrite Hv by done. by apply Hby.
Qed.

(** [if(off > ip->size) ip->size = off] *)
Lemma set_size_run s bl V ip ino e :
  fstate s bl V ip ino -> let ino' := i_set_size (fun _ => Z.max (i_size ino) e) ino in
  exists s', (let! ino := get_inode ip in whenM (i_size ino <? e) (modify (upd_inode ip (i_set_size (fun _ => e))))) s = Ok tt s' /\
    fstate s' bl V ip ino' /\ ino_frame s s' /\ k_itable s' = <[ip := ino']> (k_itable s).
Proof.
  intros Hs ino'. pose proof (st_ino _ _ _ _ _ _ Hs) as Hi. erewrite bind_ok by (by apply get_inode_ok).
  destruct (Z.ltb_spec (i_size ino) e); cbn [whenM].
  - destruct (fstate_size s bl V ip ino e Hs) as [S E]. unfold ino'. rewrite Z.max_r by lia.
    eexists. split; [done|]. split; [done|]. split; [apply ino_frame_upd|done].
  - exists s. assert (ino' = ino) as -> by (unfold ino'; rewrite Z.max_l by lia; by destruct ino).
    split; [done|]. split; [done|]. split; [done|]. by rewrite (table_same _ _ _ Hi).
Qed.

Lemma s32_small x : 0 <= x <= MAXFILE * BSIZE -> s32 x = x.
Proof.
  intros Hx. change MAXFILE with 268 in *. change BSIZE with 1024 in *. unfold s32, signed. rewrite Z.mod_small by lia.
  by rewrite (proj2 (Z.ltb_lt _ _)) by lia.
Qed.

(** the size and the disk inode after the loop *)
Lemma writei_finish s V ip ino off d s1 bl1 V1 ino1 :
  0 <= i_inum ino < sb_ninodes (k_sb s) -> dinode_ok ino -> i_size ino <= MAXFILE * BSIZE ->
  0 <= off <= i_size ino -> off + Z.of_nat (length d) <= MAXFILE * BSIZE -> no_holes V ino (i_size ino) ->
  wpost s V ip ino s1 bl1 V1 ino1 -> written V ino off d V1 ino1 -> (length bl1 < 30)%nat ->
  let e := off + Z.of_nat (length d) in
  exists s2 s' V' ino', (let! ino := get_inode ip in whenM (i_size ino <? e) (modify (upd_inode ip (i_set_size (fun _ => e))))) s1 = Ok tt s2 /\
    iupdate ip s2 = Ok tt s' /\
    writei_post s V ip ino off d s' (logged (IBLOCK (i_inum ino) (k_sb s)) bl1) V' ino' /\
    forall b, 0 <= b < sb_size (k_sb s) -> used (k_sb s) V' b = used (k_sb s) V1 b.
Proof.
  intros Hin Hok Hsz Hoff Hend Hnh [W1 W2 W3 W4 W5 W6] Wr Hr e. pose proof (dk_size _ Hok) as Hsz0.
  destruct (set_size_run s1 bl1 V1 ip ino1 e W1) as (s2 & E2 & S2 & F12 & Et2).
  assert (i_size ino1 = i_size ino) as Es1 by by rewrite W4. rewrite Es1 in *.
  set (sz := Z.max (i_size ino) e) in *. set (ino2 := i_set_size (fun _ => sz) ino1) in *.
  assert (ino_frame s s2) as F2 by (by transitivity s1). pose proof (ino_frame_sb _ _ F2) as Esb.
  assert (i_inum ino2 = i_inum ino) as Einum by (unfold ino2; rewrite W4; done).
  assert (dinode_ok ino2) as Hok2.
  { destruct Hok as [K1 K2 K3 K4 K5 K6 K7]. pose proof (st_file _ _ _ _ _ _ S2) as Hf2. split.
    1-4: unfold ino2; by rewrite W4.
    - change (0 <= sz < 2 ^ 32). unfold sz, e. change MAXFILE with 268 in *. change BSIZE with 1024 in *. lia.
    - eapply file_addrs; [apply (st_layout _ _ _ _ _ _ S2)|exact Hf2].
    - apply (fk_len _ _ _ Hf2). }
  destruct (fstate_iupdate s2 bl1 V1 ip ino2 S2 Hr) as (s3 & E3 & S3 & F3 & Hsame & Hc & Hused); [by rewrite Esb, Einum|done|].
  pose proof (disk_inode_update LS s2 bl1 [] V1 ino2) as Hdi.
  rewrite Esb, Einum in *. set (V' := iupdate_view (k_sb s) V1 ino2) in *.
  destruct (written_content V ino off d V1 ino2) as [Hcont Hnh2]; try done; try lia.
  destruct (content_same V1 V' ino2 (fun k _ => Hsame k) Hc) as (Hcont' & Hnh' & Hby'); [change (i_size ino2) with sz; lia|done|].
  exists s2, s3, V', ino2. split; [done|]. split; [done|]. split; [|done]. split; try done.
  - transitivity s2; [done|by apply fs_ino_frame_quiet].
  - by rewrite (fs_frame_itable _ _ F3), Et2, W3, list_insert_insert_eq.
  - unfold ino2 at 1. rewrite W4 at 1. done.
  - by rewrite Hcont'.
  - intros Hb. by apply Hby', W6.
  - intros x. apply Hdi; [apply (st_tx _ _ _ _ _ _ S2)|rewrite <-Esb; apply (st_layout _ _ _ _ _ _ S2)|done|done].
  - intros m Hm Hum Hno Hnb Hne. destruct (W5 m Hm Hum Hno) as (_ & _ & Hv). rewrite <-(Hv Hnb).
    unfold V', iupdate_view, vset. rewrite Einum, decide_False by done. done.
Qed.

Lemma writei_run s bl V ip ino src off data :
  fstate s bl V ip ino -> 0 <= i_inum ino < sb_ninodes (k_sb s) -> dinode_ok ino -> i_size ino <= MAXFILE * BSIZE ->
  0 <= off <= i_size ino -> off + Z.of_nat (length data) <= MAXFILE * BSIZE -> no_holes V ino (i_size ino) ->
  Forall byte_ok data -> source s src data ->
  Z.of_nat (length bl) + 6 * nblocks off (Z.of_nat (length data)) < 30 ->
  exists tot s' bl' V' ino', writei ip src off (Z.of_nat (length data)) s = Ok tot s' /\
    0 <= tot <= Z.of_nat (length data) /\
    writei_post s V ip ino off (take (Z.to_nat tot) data) s' bl' V' ino' /\
    Z.of_nat (length bl') <= Z.of_nat (length bl) + 6 * nblocks off (Z.of_nat (length data)) + 1 /\
    (tot < Z.of_nat (length data) -> forall b, 0 <= b < sb_size (k_sb s) -> used (k_sb s) V' b = true).
Proof.
  intros Hs Hin Hok Hsz Hoff Hend Hnh Hlb Hsrc Hr. set (n := Z.of_nat (length data)) in *.
  assert (n < 2 ^ 32) as Hn by (change MAXFILE with 268 in *; change BSIZE with 1024 in *; lia).
  destruct (writei_loop ip n (Z.to_nat n + 1) s bl V ino 0 off src data Hs) as
    (tot & s1 & bl1 & V1 & ino1 & E1 & Ht & W1 & Wr1 & Hl1 & Hfull1); rewrite ?Z.sub_0_r; try done; try lia.
  rewrite !Z.sub_0_r in *. set (d := take (Z.to_nat tot) data) in *.
  assert (Z.of_nat (length d) = tot) as Hd by (unfold d; rewrite length_take; lia).
  destruct (writei_finish s V ip ino off d s1 bl1 V1 ino1) as (s2 & s' & V' & ino' & E2 & E3 & P & Hu); try done; try lia.
  exists tot, s', (logged (IBLOCK (i_inum ino) (k_sb s)) bl1), V', ino'. split; [|split; [done|split; [done|split]]].
  - unfold writei. erewrite bind_ok by (apply get_inode_ok; apply Hs).
    rewrite (u32_small (off + n)) by (change MAXFILE with 268 in *; change BSIZE with 1024 in *; lia).
    rewrite (proj2 (Z.ltb_ge _ off)), (proj2 (Z.ltb_ge _ off)), (proj2 (Z.ltb_ge (MAXFILE * BSIZE) _)) by lia. cbn [orb].
    erewrite bind_ok by exact E1. cbv iota beta. rewrite Hd in E2.
    apply bind_ok_inv in E2 as (x & t & G1 & G2). erewrite bind_ok by exact G1. erewrite bind_ok by exact G2.
    erewrite bind_ok by exact E3. by rewrite s32_small by lia.
  - pose proof (length_logged (IBLOCK (i_inum ino) (k_sb s)) bl1). lia.
  - intros Hlt b Hb. rewrite Hu by done. by apply Hfull1.
Qed.
End write.

(** * Theorems *)

(** C25: bmap finds block [bn] of a file, or adds it: a block the file already
    has is returned and kept, a missing one becomes a fresh zeroed block, with
    the indirect block made on demand; every other block of the file stays
    where it is with its content, the blocks of the file remain distinct data
    blocks in use, nothing that belongs to another file is touched, and at
    most five blocks are added to the transaction.  It returns 0 only when
    the disk is full. *)
Theorem bmap_correct p pr LS s bl V ip ino bn :
  fstate (cache := bio_cache p pr) LS s bl V ip ino -> 0 <= bn < MAXFILE -> (length bl < 25)%nat ->
  exists a s' bl' V' ino', bmap ip bn s = Ok a s' /\ (length bl' <= length bl + 5)%nat /\
    fstate (cache := bio_cache p pr) LS s' bl' V' ip ino' /\ ino_frame s s' /\
    a = fblock V' ino' bn /\ (fblock V ino bn <> 0 -> a = fblock V ino bn) /\
    (fblock V ino bn = 0 -> a <> 0 -> V' a = zero_block) /\
    (a = 0 -> forall b, 0 <= b < sb_size (k_sb s) -> used (k_sb s) V' b = true) /\
    (forall k, 0 <= k < MAXFILE -> k <> bn -> fblock V' ino' k = fblock V ino k) /\
    (forall k, 0 <= k < MAXFILE -> fblock V ino k <> 0 -> V' (fblock V ino k) = V (fblock V ino k)) /\
    preserves (k_sb s) V ino V' ino'.
Proof.
  intros Hs Hbn Hr. destruct (bmap_run LS s bl V ip ino bn Hs Hbn Hr) as (a & s' & bl' & V' & ino' & E & [] & Hl).
  exists a, s', bl', V', ino'. by split_and!.
Qed.

(** C26: readi delivers the bytes of the file from [off] on, as many as asked
    for and as there are before the end of the file, across direct and
    indirect blocks, to user memory or to an object of the kernel; the file
    system is unchanged. *)
Theorem readi_correct p pr LS sink (SK : CopySink sink) s bl V ip ino dst off n :
  fstate (cache := bio_cache p pr) LS s bl V ip ino -> (length bl < 29)%nat -> 0 <= i_size ino <= MAXFILE * BSIZE ->
  no_holes V ino (i_size ino) -> bytes_ok V ino -> 0 <= off <= i_size ino -> 0 <= n -> off + n < 2 ^ 32 ->
  let m := Z.min n (i_size ino - off) in
  sink s dst [] m ->
  exists dst' s', readi ip dst off n s = Ok (m, dst') s' /\ sink s' dst' (slice off m (fcontent V ino)) 0 /\
    fstate (cache := bio_cache p pr) LS s' bl V ip ino /\ read_frame s s'.
Proof.
  intros Hs Hr Hsz Hnh Hby Hoff Hn Hov m Hsk.
  destruct (readi_run (cache := bio_cache p pr) (sink := sink) LS s bl V ip ino dst off n) as (dst' & s' & E & S' & F & K); try done.
  exists dst', s'. rewrite <-fread_content by lia. by split_and!.
Qed.

(** C3: writei replaces the bytes of the file at [off] by the data, growing
    the file as needed: afterwards its content is the old one with the data
    written over it, its size and its disk inode are up to date, it has no
    holes, and no block of another file or inode has changed.  A short count
    is returned only when the disk is full, and then exactly that many bytes
    have been written. *)
Theorem writei_correct p pr LS source (SC : CopySource source) s bl V ip ino src off data :
  fstate (cache := bio_cache p pr) LS s bl V ip ino -> 0 <= i_inum ino < sb_ninodes (k_sb s) -> dinode_ok ino ->
  i_size ino <= MAXFILE * BSIZE -> 0 <= off <= i_size ino -> off + Z.of_nat (length data) <= MAXFILE * BSIZE ->
  no_holes V ino (i_size ino) -> Forall byte_ok data -> source s src data ->
  Z.of_nat (length bl) + 6 * nblocks off (Z.of_nat (length data)) < 30 ->
  exists tot s' bl' V' ino', writei ip src off (Z.of_nat (length data)) s = Ok tot s' /\
    0 <= tot <= Z.of_nat (length data) /\
    (tot < Z.of_nat (length data) -> forall b, 0 <= b < sb_size (k_sb s) -> used (k_sb s) V' b = true) /\
    let d := take (Z.to_nat tot) data in
    fcontent V' ino' = splice off d (fcontent V ino) /\ i_size ino' = Z.max (i_size ino) (off + tot) /\
    no_holes V' ino' (i_size ino') /\ fstate (cache := bio_cache p pr) LS s' bl' V' ip ino' /\
    (forall x, same_dinode (disk_inode (k_sb s) V' (i_inum ino) x) ino') /\
    (forall m, 0 <= m < sb_size (k_sb s) -> used (k_sb s) V m = true ->
       (forall k, 0 <= k <= MAXFILE -> faddr V ino k <> m) -> ~ sb_bmapstart (k_sb s) <= m < data_start (k_sb s) ->
       m <> IBLOCK (i_inum ino) (k_sb s) -> V' m = V m) /\
    ino_frame s s'.
Proof.
  intros Hs Hin Hok Hsz Hoff Hend Hnh Hlb Hsrc Hr.
  destruct (writei_run (cache := bio_cache p pr) (source := source) LS s bl V ip ino src off data)
    as (tot & s' & bl' & V' & ino' & E & Ht & P & _ & Hfull); try done.
  exists tot, s', bl', V', ino'. split; [done|]. split; [done|]. split; [done|]. destruct P as [P1 P2 P3 P4 P5 P6 P7 P8 P9 P10].
  rewrite length_take in P4. replace (Z.of_nat (Z.to_nat tot `min` length data)) with tot in P4 by lia. by split_and!.
Qed.

(** what writei wrote, readi reads back. *)
Theorem writei_readi p pr LS s bl V ip ino off data :
  fstate (cache := bio_cache p pr) LS s bl V ip ino -> 0 <= i_inum ino < sb_ninodes (k_sb s) -> dinode_ok ino ->
  i_size ino <= MAXFILE * BSIZE -> 0 <= off <= i_size ino -> off + Z.of_nat (length data) <= MAXFILE * BSIZE ->
  no_holes V ino (i_size ino) -> bytes_ok V ino -> Forall byte_ok data -> running s ->
  Z.of_nat (length bl) + 6 * nblocks off (Z.of_nat (length data)) < 28 ->
  exists tot s' s'' r, writei ip (KernLocal data 0) off (Z.of_nat (length data)) s = Ok tot s' /\
    readi ip (KernLocal (replicate (length data) 0) 0) off tot s' = Ok (tot, r) s'' /\
    take (Z.to_nat tot) (kptr_obj r) = take (Z.to_nat tot) data.
Proof.
  intros Hs Hin Hok Hsz Hoff Hend Hnh Hby Hlb Hrun Hr.
  destruct (writei_run (cache := bio_cache p pr) (source := local_source) LS s bl V ip ino (KernLocal data 0) off data)
    as (tot & s' & bl' & V' & ino' & E & Ht & [P1 P2 _ P4 _ P6 P7 P8 _ _] & Hl & _); try done; try lia.
  { split; [done|]. by exists data, 0. }
  set (d := take (Z.to_nat tot) data) in *. set (obj := replicate (length data) 0).
  assert (Z.of_nat (length d) = tot) as Hd by (unfold d; rewrite length_take; lia). rewrite Hd in P4.
  assert (length obj = length data) as Hobj by apply length_replicate.
  destruct (readi_run (cache := bio_cache p pr) (sink := local_sink 0 obj) LS s' bl' V' ip ino' (KernLocal obj 0) off tot)
    as (r & s'' & E' & _ & _ & K); try done; try lia; auto.
  { change MAXFILE with 268 in *. change BSIZE with 1024 in *. lia. }
  { split; [|split; [lia|split; [simpl; lia|by rewrite splice_nil]]].
    eapply running_core; [exact Hrun|]. apply (sc_hart _ _ (ino_same_core _ _ P2)). }
  rewrite Z.min_l in E', K by lia. exists tot, s', s'', r. split; [done|]. split; [done|].
  destruct K as (_ & _ & _ & ->). cbn [kptr_obj]. unfold splice at 1. change (Z.to_nat 0) with 0%nat. rewrite take_0, app_nil_l.
  rewrite take_app_le by (rewrite length_fread; lia). rewrite take_ge by (rewrite length_fread; lia).
  rewrite fread_content, P6 by lia. fold d. rewrite <-Hd. apply slice_splice_grow.
  rewrite length_fcontent; [done|]. apply (dk_size _ Hok).
Qed.

(** * Witnesses *)

(** a file of 100 bytes in block 36 *)
Definition demo_file : inode := mkinode ROOTDEV 1 1 sleeplock0 1 2 0 0 1 100 (36 :: replicate 12 0).

Lemma demo_file_addr V k : 0 <= k <= MAXFILE -> faddr V demo_file k <> 0 -> k = 0 /\ faddr V demo_file k = 36.
Proof.
  intros Hk Hnz. unfold faddr, fblock in *. change (ind_block demo_file) with 0 in *. cbn [Z.eqb] in *.
  destruct (k =? MAXFILE); [done|]. destruct (Z.ltb_spec k NDIRECT) as [Hlt|]; [|done].
  change NDIRECT with 12 in Hlt. destruct (decide (k = 0)) as [->|Hne]; [done|]. exfalso. apply Hnz.
  unfold zget, demo_file. cbn [i_addrs]. replace (Z.to_nat k) with (S (Z.to_nat (k - 1))) by lia. cbn [lookup list_lookup].
  change (default 0 (replicate 12 0 !! Z.to_nat (k - 1)) = 0). by rewrite lookup_replicate_2 by lia.
Qed.

Lemma demo_file_state : exists s bl V, fstate (cache := bio_cache 0 demo_pr) 2 s bl V 0 demo_file /\
  (length bl <= 3)%nat /\ no_holes V demo_file 100 /\ bytes_ok V demo_file /\ running s /\ k_sb s = demo_sb /\
  V 36 = zero_block.
Proof.
  destruct demo_fs_alloc as (s0 & bl & V & T0 & Esb & El & Hp & O & Hu & Hl & Hz).
  set (s := set_itable (fun _ => [demo_file]) s0).
  assert (tx (cache := bio_cache 0 demo_pr) 2 s bl [] V) as T by (apply (tx_frame 2 s0); done).
  exists s, bl, V. split.
  - split.
    + exact T.
    + change (fs_layout 2 (k_sb s0) (disk_len s0)). rewrite Esb, El. apply demo_layout.
    + change (blocks_ok (k_sb s0) [] V). rewrite Esb. exact O.
    + reflexivity.
    + change (file_ok (k_sb s0) V demo_file). rewrite Esb. split; [reflexivity|reflexivity|..].
      * intros k Hk Hnz. destruct (demo_file_addr V k Hk Hnz) as [_ ->]. split; [|exact Hu].
        change (data_start demo_sb) with 36. change (sb_size demo_sb) with 80. lia.
      * intros k k' Hk Hk' Hnz E. destruct (demo_file_addr V k Hk Hnz) as [-> _]. rewrite E in Hnz.
        by destruct (demo_file_addr V k' Hk' Hnz) as [-> _].
    + exact Hp.
  - split; [exact Hl|]. split; [|split; [|split; [|split]]].
    + intros k Hk Hlt. change BSIZE with 1024 in Hlt. assert (k = 0) as -> by lia. discriminate.
    + intros k Hk. rewrite <-(faddr_block V demo_file) by lia. intros Hnz.
      destruct (demo_file_addr V k ltac:(lia) Hnz) as [_ ->]. rewrite Hz. apply bytes_ok_zero.
    + destruct (cache_thread _ _ _ _ _ _ (tx_cache _ _ _ _ _ T)) as [T1 T2 _ _ _]. split; [exact T1|by exists 0%nat].
    + exact Esb.
    + exact Hz.
Qed.

Lemma demo_file_dinode : dinode_ok demo_file.
Proof.
  split; try (split; [discriminate|reflexivity]); [|reflexivity].
  repeat (apply Forall_cons; split; [split; [discriminate|reflexivity]|]). constructor.
Qed.

Lemma bmap_correct_witness : exists s a s', bmap 0 20 s = Ok a s'.
Proof.
  destruct demo_file_state as (s & bl & V & S & Hl & _).
  destruct (bmap_correct 0 demo_pr 2 s bl V 0 demo_file 20 S) as (a & s' & bl' & V' & ino' & E & _).
  - split; [lia|reflexivity].
  - lia.
  - exists s, a, s'. exact E.
Defined.

Lemma readi_correct_witness : exists s r s', readi 0 (KernLocal (replicate 100 7) 0) 10 200 s = Ok (90, r) s'.
Proof.
  destruct demo_file_state as (s & bl & V & S & Hl & Hnh & Hby & Hrun & _).
  destruct (readi_correct 0 demo_pr 2 (local_sink 0 (replicate 100 7)) _ s bl V 0 demo_file
    (KernLocal (replicate 100 7) 0) 10 200 S) as (r & s' & E & _).
  - lia.
  - split; discriminate.
  - exact Hnh.
  - exact Hby.
  - split; discriminate.
  - lia.
  - lia.
  - split; [exact Hrun|]. split; [lia|]. split; [discriminate|reflexivity].
  - exists s, r, s'. exact E.
Defined.

Lemma writei_correct_witness : exists s tot s', writei 0 (KernLocal (replicate 2000 5) 0) 50 2000 s = Ok tot s'.
Proof.
  destruct demo_file_state as (s & bl & V & S & Hl & Hnh & Hby & Hrun & Esb & _).
  destruct (writei_correct 0 demo_pr 2 local_source _ s bl V 0 demo_file (KernLocal (replicate 2000 5) 0) 50 (replicate 2000 5) S)
    as (tot & s' & bl' & V' & ino' & E & _).
  - rewrite Esb. split; [discriminate|reflexivity].
  - exact demo_file_dinode.
  - discriminate.
  - split; discriminate.
  - rewrite length_replicate. discriminate.
  - exact Hnh.
  - apply Forall_replicate. split; [discriminate|reflexivity].
  - split; [exact Hrun|]. exists (replicate 2000 5), 0. split; [reflexivity|]. split; [discriminate|reflexivity].
  - rewrite length_replicate. change (nblocks 50 (Z.of_nat 2000)) with 3. lia.
  - rewrite length_replicate in E. exists s, tot, s'. exact E.
Defined.

Lemma writei_readi_witness : exists s tot s', writei 0 (KernLocal (replicate 2000 5) 0) 50 2000 s = Ok tot s'.
Proof.
  destruct demo_file_state as (s & bl & V & S & Hl & Hnh & Hby & Hrun & Esb & _).
  destruct (writei_readi 0 demo_pr 2 s bl V 0 demo_file 50 (replicate 2000 5) S) as (tot & s' & s'' & r & E & _).
  - rewrite Esb. split; [discriminate|reflexivity].
  - exact demo_file_dinode.
  - discriminate.
  - split; discriminate.
  - rewrite length_replicate. discriminate.
  - exact Hnh.
  - exact Hby.
  - apply Forall_replicate. split; [discriminate|reflexivity].
  - exact Hrun.
  - rewrite length_replicate. change (nblocks 50 (Z.of_nat 2000)) with 3. lia.
  - rewrite length_replicate in E. exists s, tot, s'. exact E.
Defined.
