(* ===== verification/FsPath.v ===== *)
(** The path syntax of fs.c: skipelem against a reference that splits a path
    at its slashes; the loop of namex ends with the path. *)

From Stdlib Require Import FunctionalExtensionality.
From stdpp Require Import base gmap strings numbers list.
From S2P Require Import Prelude KState KString Spinlock Printf ProcSync Bio Log Kalloc Vm Fs.

(** * The reference *)

Fixpoint split_on (c : Z) (l : list Z) : list (list Z) :=
  match l with
  | [] => [[]]
  | x :: l' =>
      if x =? c then [] :: split_on c l'
      else match split_on c l' with e :: es => (x :: e) :: es | [] => [[x]] end
  end.

(** the elements of a path: what lies between slashes, empty parts dropped *)
Definition path_elems (path : list Z) : list (list Z) :=
  filter (fun e => e <> []) (split_on SLASH path).

(** the name in a directory-entry array: up to a NUL, at most DIRSIZ bytes *)
Fixpoint c_prefix (l : list Z) : list Z :=
  match l with
  | c :: l' => if c =? 0 then [] else c :: c_prefix l'
  | [] => []
  end.
Definition dir_name (name : list Z) : list Z := c_prefix (take (Z.to_nat DIRSIZ) name).

(** * Lemmas *)

Lemma path_elems_slash l : path_elems (SLASH :: l) = path_elems l.
Proof. unfold path_elems. cbn [split_on]. rewrite Z.eqb_refl. by rewrite filter_cons_False by auto. Qed.

Lemma skip_slashes_elems path : path_elems (skip_slashes path) = path_elems path.
Proof.
  induction path as [|c path IH]; cbn [skip_slashes]; [done|].
  destruct (Z.eqb_spec c SLASH) as [->|]; [|done]. by rewrite path_elems_slash.
Qed.

Lemma skip_slashes_length path : (length (skip_slashes path) <= length path)%nat.
Proof. induction path as [|c path IH]; cbn [skip_slashes]; [done|]. destruct (c =? SLASH); simpl; lia. Qed.

Lemma skip_slashes_head path :
  skip_slashes path = [] \/ exists c l, skip_slashes path = c :: l /\ c <> SLASH.
Proof.
  induction path as [|c path IH]; cbn [skip_slashes]; [by left|].
  destruct (Z.eqb_spec c SLASH) as [->|Hc]; [done|]. right. eauto.
Qed.

Lemma skip_slashes_zero path : 0 ∉ path -> 0 ∉ skip_slashes path.
Proof.
  induction path as [|c path IH]; cbn [skip_slashes]; [done|]. intros H.
  destruct (c =? SLASH); [|done]. apply IH. set_solver.
Qed.

(** what take_elem splits off, and that the rest starts at a slash *)
Lemma take_elem_split l e rest :
  take_elem l = (e, rest) ->
  l = e ++ rest /\ SLASH ∉ e /\
  match rest with
  | [] => split_on SLASH l = [e]
  | c :: r => c = SLASH /\ split_on SLASH l = e :: split_on SLASH r
  end.
Proof.
  revert e rest. induction l as [|c l IH]; intros e rest; cbn [take_elem].
  { intros [= <- <-]. split_and!; [done|set_solver|done]. }
  destruct (Z.eqb_spec c SLASH) as [->|Hc].
  { intros [= <- <-]. split_and!; [done|set_solver|done|].
    cbn [split_on]. by rewrite Z.eqb_refl. }
  destruct (take_elem l) as [e' rest'] eqn:E. intros [= <- <-].
  destruct (IH e' rest' eq_refl) as (-> & Hs & Hr). split; [done|]. split; [set_solver|].
  cbn [split_on]. destruct (Z.eqb_spec c SLASH); [done|].
  destruct rest' as [|x r]; [by rewrite Hr|]. destruct Hr as [-> Hr]. by rewrite Hr.
Qed.

Lemma path_elems_take l e rest :
  take_elem l = (e, rest) -> e <> [] -> path_elems l = e :: path_elems rest.
Proof.
  intros Ht He. destruct (take_elem_split l e rest Ht) as (_ & _ & Hr).
  destruct rest as [|c r].
  - unfold path_elems at 1. by rewrite Hr, filter_cons_True.
  - destruct Hr as [-> Hr]. rewrite path_elems_slash. unfold path_elems. by rewrite Hr, filter_cons_True.
Qed.

Lemma path_elems_nonempty c l : c <> SLASH -> path_elems (c :: l) <> [].
Proof.
  intros Hc. destruct (take_elem (c :: l)) as [e rest] eqn:E.
  rewrite (path_elems_take _ _ _ E); [done|]. cbn [take_elem] in E.
  destruct (Z.eqb_spec c SLASH); [done|]. destruct (take_elem l). by injection E as <- _.
Qed.

Lemma c_prefix_app e l : 0 ∉ e -> c_prefix (e ++ l) = e ++ c_prefix l.
Proof.
  induction e as [|c e IH]; intros H; [done|]. cbn [app c_prefix].
  destruct (Z.eqb_spec c 0) as [->|]; [set_solver|]. rewrite IH by set_solver. done.
Qed.

Lemma store_array_eq dst b : store_array dst b = b ++ drop (length b) dst.
Proof. reflexivity. Qed.

(** the array after the copy holds the element, cut to DIRSIZ bytes *)
Lemma dir_name_store name e :
  length name = Z.to_nat DIRSIZ -> 0 ∉ e ->
  let name' := if DIRSIZ <=? Z.of_nat (length e) then store_array name (take (Z.to_nat DIRSIZ) e)
               else store_array name (e ++ [0]) in
  length name' = Z.to_nat DIRSIZ /\ dir_name name' = take (Z.to_nat DIRSIZ) e.
Proof.
  intros Hn He. change (Z.to_nat DIRSIZ) with 14%nat in *. cbn zeta.
  destruct (Z.leb_spec DIRSIZ (Z.of_nat (length e))) as [Hl|Hl]; change DIRSIZ with 14 in Hl;
    rewrite store_array_eq; unfold dir_name; change (Z.to_nat DIRSIZ) with 14%nat.
  - assert (Ht : length (take 14 e) = 14%nat) by (rewrite length_take; lia).
    rewrite drop_ge by lia. rewrite app_nil_r. split; [done|].
    rewrite take_ge by lia. rewrite <-(app_nil_r (take 14 e)) at 1. rewrite c_prefix_app; [by rewrite app_nil_r|].
    intros H. apply He. rewrite <-(take_drop 14 e). apply elem_of_app. by left.
  - assert (Ht : length (e ++ [0]) = S (length e)) by (rewrite length_app; simpl; lia). split.
    + rewrite length_app, length_drop. lia.
    + rewrite take_ge by (rewrite length_app, length_drop; lia).
      rewrite <-app_assoc, c_prefix_app by done. cbn [app c_prefix Z.eqb].
      by rewrite app_nil_r, take_ge by lia.
Qed.

(** * Termination of the loop of namex *)

(** every value a computation can return, also after it has been suspended
    and resumed with any state, satisfies [P] *)
Fixpoint yields {S A} (P : A -> Prop) (r : res S A) : Prop :=
  match r with
  | Ok a _ => P a
  | Susp _ k => forall s, yields P (k s)
  | _ => True
  end.

Lemma yields_any {S A} (r : res S A) : yields (fun _ => True) r.
Proof. by induction r as [| | | | |s k IH]. Qed.

Lemma yields_rbind {S A B} (P : A -> Prop) (Q : B -> Prop) (r : res S A) (f : A -> M S B) :
  yields P r -> (forall a s, P a -> yields Q (f a s)) -> yields Q (rbind r f).
Proof. intros Hr Hf. induction r as [| | | | |s k IH]; cbn [rbind yields] in *; auto. Qed.

(** the rest of a computation only has to be defined on what can be returned *)
Lemma rbind_ext {S A B} (P : A -> Prop) (r : res S A) (f g : A -> M S B) :
  yields P r -> (forall a s, P a -> f a s = g a s) -> rbind r f = rbind r g.
Proof.
  intros Hr Hf. induction r as [| | | | |s k IH]; cbn [rbind yields] in *; auto.
  f_equal. apply functional_extensionality. auto.
Qed.

(** the loop with [alt] in the place where the fuel of [whileM] runs out *)
Fixpoint whileOr {S I R} (alt : I -> M S R) (fuel : nat) (body : I -> M S (I + R)) (i : I) : M S R :=
  match fuel with
  | O => alt i
  | Datatypes.S fuel' =>
      let! r := body i in
      match r with inl i' => whileOr alt fuel' body i' | inr x => ret x end
  end.

(** a loop whose measure decreases stops before the fuel does: neither the
    amount of fuel above the measure nor what would happen at its end matters *)
Lemma whileM_enough {S I R} (alt : I -> M S R) (body : I -> M S (I + R)) (mu : I -> nat) :
  (forall i s, yields (fun r => match r with inl i' => (mu i' < mu i)%nat | inr _ => True end) (body i s)) ->
  forall fuel fuel' i s, (mu i < fuel)%nat -> (mu i < fuel')%nat -> whileOr alt fuel body i s = whileM fuel' body i s.
Proof.
  intros Hdec. induction fuel as [|fuel IH]; intros fuel' i s H1 H2; [lia|]. destruct fuel' as [|fuel']; [lia|].
  cbn [whileM whileOr]. unfold bind. eapply rbind_ext; [apply Hdec|]. intros [i'|x] s' Hd; [|done]. apply IH; lia.
Qed.

Lemma yields_bind {S A B} (Q : B -> Prop) (m : M S A) (f : A -> M S B) s :
  (forall a s', yields Q (f a s')) -> yields Q (bind m f s).
Proof. intros Hf. unfold bind. eapply yields_rbind; [apply yields_any|]. auto. Qed.

Lemma skipelem_shorter path name rest name' :
  skipelem path name = Some (rest, name') -> (length rest < length path)%nat.
Proof.
  unfold skipelem. pose proof (skip_slashes_length path) as Hlen.
  destruct (skip_slashes_head path) as [->|(c & l & E & Hc)]; [done|]. rewrite E in *.
  destruct (take_elem (c :: l)) as [e r] eqn:Et. intros [= <- _].
  destruct (take_elem_split _ _ _ Et) as (Hsplit & _ & _). pose proof (skip_slashes_length r) as Hr.
  apply (f_equal length) in Hsplit. rewrite length_app in Hsplit. cbn [take_elem] in Et.
  destruct (Z.eqb_spec c SLASH); [done|]. destruct (take_elem l) as [e' r']. injection Et as <- _. simpl in *. lia.
Qed.

Lemma namex_body_shorter parent i s :
  yields (fun r => match r with inl i' => (length i'.1.2 < length i.1.2)%nat | inr _ => True end) (namex_body parent i s).
Proof.
  destruct i as [[ip path] name]. unfold namex_body. cbn [fst snd].
  destruct (skipelem path name) as [[rest name']|] eqn:E.
  - apply skipelem_shorter in E. apply yields_bind. intros _ s1. apply yields_bind. intros ino s2.
    destruct (negb _); [apply yields_bind; by intros|]. destruct (parent && _); [apply yields_bind; by intros|].
    apply yields_bind. intros [[next off]|] s3; apply yields_bind; by intros.
  - destruct parent; [apply yields_bind; by intros|done].
Qed.

(** * Properties *)

(** skipelem takes a path apart as the reference does: it returns the
    null pointer exactly when the path has no element left; otherwise the
    array [name] holds the first element, cut to DIRSIZ bytes, the path it
    returns has the remaining elements, is shorter, and is empty exactly when
    the element was the last one. *)
Theorem skipelem_splits path name :
  length name = Z.to_nat DIRSIZ -> 0 ∉ path ->
  match path_elems path with
  | [] => skipelem path name = None
  | e :: es => exists rest name', skipelem path name = Some (rest, name') /\
      length name' = Z.to_nat DIRSIZ /\ dir_name name' = take (Z.to_nat DIRSIZ) e /\
      path_elems rest = es /\ (rest = [] <-> es = []) /\
      (length rest < length path)%nat /\ 0 ∉ rest
  end.
Proof.
  intros Hn H0. unfold skipelem. rewrite <-skip_slashes_elems.
  pose proof (skip_slashes_length path) as Hlen.
  assert (H0' : 0 ∉ skip_slashes path) by (by apply skip_slashes_zero).
  destruct (skip_slashes_head path) as [->|(c & l & E & Hc)]; [done|]. rewrite E in *.
  destruct (take_elem (c :: l)) as [e rest] eqn:Et.
  assert (He : exists e', e = c :: e').
  { cbn [take_elem] in Et. destruct (Z.eqb_spec c SLASH); [done|].
    destruct (take_elem l) as [e' r]. injection Et as <- _. eauto. }
  destruct (take_elem_split _ _ _ Et) as (Hsplit & _ & _).
  assert (H0e : 0 ∉ e /\ 0 ∉ rest) by (rewrite Hsplit in H0'; set_solver).
  rewrite (path_elems_take _ _ _ Et) by (by destruct He as [e' ->]).
  destruct (dir_name_store name e Hn) as [Hl Hd]; [apply H0e|].
  eexists _, _. split; [reflexivity|]. split; [exact Hl|]. split; [exact Hd|].
  split; [apply skip_slashes_elems|]. split; [|split].
  - rewrite <-skip_slashes_elems. destruct (skip_slashes_head rest) as [->|(x & r & -> & Hx)]; [done|].
    split; [done|]. intros Hx'. by apply path_elems_nonempty in Hx'.
  - pose proof (skip_slashes_length rest) as Hr. apply (f_equal length) in Hsplit.
    rewrite length_app in Hsplit. destruct He as [e' ->]. simpl in *. lia.
  - apply skip_slashes_zero, H0e.
Qed.

Lemma skipelem_splits_witness :
  exists rest name', skipelem (bytes_of_string "///a//bb") (replicate 14 0) = Some (rest, name') /\
    path_elems rest = [bytes_of_string "bb"].
Proof.
  assert (H0 : 0 ∉ bytes_of_string "///a//bb").
  { apply (bool_decide_eq_false (0 ∈ bytes_of_string "///a//bb")). vm_compute. reflexivity. }
  pose proof (skipelem_splits (bytes_of_string "///a//bb") (replicate 14 0) eq_refl H0) as H.
  assert (path_elems (bytes_of_string "///a//bb") = [bytes_of_string "a"; bytes_of_string "bb"]) as E
    by (vm_compute; reflexivity).
  rewrite E in H. destruct H as (rest & name' & E1 & _ & _ & P & _).
  exists rest, name'. split; [exact E1|exact P].
Defined.

(** the loop of namex ends by itself: every round takes an element off
    the path, so that the bound of the model is never reached.  The result is
    that of the loop with any larger bound and with anything whatever in the
    place where the bound would strike, suspensions included. *)
Theorem namex_terminates alt extra parent ip path name s :
  whileM (length path + 2) (namex_body parent) (ip, path, name) s =
  whileOr alt (length path + 1 + extra) (namex_body parent) (ip, path, name) s.
Proof.
  symmetry. apply (whileM_enough _ _ (fun i => length i.1.2)); [|simpl; lia|simpl; lia]. intros i t. apply namex_body_shorter.
Qed.
