(* ===== verification/FsDir.v ===== *)
(** Directories of kernel/fs.c: a directory is a file of entries, a finite map
    from names to inode numbers; dirlookup finds the entry of a name, dirlink
    adds one. *)

From Stdlib Require Import FunctionalExtensionality.
From stdpp Require Import base gmap strings numbers list.
From S2P Require Import Prelude KState KString Spinlock Printf ProcSync SyncSpec Bio BioRing BioSpec.
From S2P Require Import BlockStore Log LogDisk LogSpec LogOps FsTx Kalloc Vm VmPte VmTree VmSpec VmCopy.
From S2P Require Import Fs FsBlock FsInode FsFile FsRw FsWrite FsPath.

(** * The content of a directory *)

Definition entry (c : list Z) (off : Z) : list Z := slice off SIZEOF_DIRENT c.

(** the entry at [off] is in use and has the name *)
Definition entry_is (c name : list Z) (off : Z) : bool :=
  negb (de_inum (entry c off) =? 0) && bool_decide (dir_name (de_name (entry c off)) = dir_name name).

(** the offset of the first entry of a name, of the first free one *)
Definition dir_find (c name : list Z) : option Z := List.find (entry_is c name) (dirent_offs (Z.of_nat (length c))).
Definition dir_free (c : list Z) : option Z :=
  List.find (fun off => de_inum (entry c off) =? 0) (dirent_offs (Z.of_nat (length c))).

(** the map a directory is: the inode number of a name *)
Definition dir_map (c name : list Z) : option Z := (fun off => de_inum (entry c off)) <$> dir_find c name.

(** ** Comparing names *)

Lemma strncmp_prefix a b k : forall i,
  strncmp_loop (rlist a) (rlist b) (Z.of_nat i) k = 0 <-> c_prefix (take k (drop i a)) = c_prefix (take k (drop i b)).
Proof.
  assert (forall l i, match l !! i with Some x => drop i l = x :: drop (S i) l /\ zget l (Z.of_nat i) = x
    | None => drop i l = [] /\ zget l (Z.of_nat i) = 0 end) as Hd.
  { intros l i. unfold zget. rewrite Nat2Z.id. destruct (l !! i) as [x|] eqn:E; [by split; [apply drop_S|]|].
    split; [|done]. apply drop_ge. by apply lookup_ge_None. }
  induction k as [|k IH]; intros i; [by split|]. cbn [strncmp_loop]. change (rlist a (Z.of_nat i)) with (zget a (Z.of_nat i)). change (rlist b (Z.of_nat i)) with (zget b (Z.of_nat i)).
  specialize (IH (S i)). rewrite Nat2Z.inj_succ, <-Z.add_1_r in IH.
  pose proof (Hd a i) as Ha. pose proof (Hd b i) as Hb. unfold nz.
  destruct (a !! i) as [x|], (b !! i) as [y|]; destruct Ha as [-> ->], Hb as [-> ->]; cbn [take c_prefix].
  - destruct (Z.eqb_spec x 0) as [->|Hx]; cbn [negb andb].
    + destruct (Z.eqb_spec y 0) as [->|Hy]; [by split|]. split; [lia|done].
    + destruct (Z.eqb_spec x y) as [<-|Hxy].
      * rewrite (proj2 (Z.eqb_neq x 0) Hx). rewrite IH. split; [by intros ->|by intros [= ->]].
      * split; [lia|]. destruct (Z.eqb_spec y 0); [done|]. by intros [= ->].
  - destruct (Z.eqb_spec x 0) as [->|Hx]; cbn [negb andb]; [by split|]. destruct (Z.eqb_spec x 0); [done|]. split; [lia|done].
  - cbn [Z.eqb negb andb]. destruct (Z.eqb_spec y 0) as [->|Hy]; [by split|]. split; [lia|done].
  - by split.
Qed.

Lemma namecmp_spec a b : (namecmp a b =? 0) = bool_decide (dir_name b = dir_name a).
Proof.
  unfold namecmp, strncmp, dir_name. pose proof (strncmp_prefix a b (Z.to_nat DIRSIZ) 0) as H. cbn [drop] in H.
  change (Z.of_nat 0) with 0 in H.
  destruct (Z.eqb_spec (strncmp_loop (rlist a) (rlist b) 0 (Z.to_nat DIRSIZ)) 0) as [E|E].
  - rewrite bool_decide_true; [done|]. symmetry. by apply H.
  - rewrite bool_decide_false; [done|]. intros E'. apply E, H. by symmetry.
Qed.

Lemma dirent_offs_in size off : off ∈ dirent_offs size -> 0 <= size -> size mod SIZEOF_DIRENT = 0 ->
  0 <= off /\ off + SIZEOF_DIRENT <= size /\ off mod SIZEOF_DIRENT = 0.
Proof.
  intros H Hs Ha. unfold dirent_offs in H. apply list_elem_of_In, in_map_iff in H as (k & <- & Hk).
  apply list_elem_of_In, elem_of_zseq in Hk. change SIZEOF_DIRENT with 16 in *. Z.to_euclidean_division_equations; lia.
Qed.

(** ** Adding an entry *)

(** the entry dirlink writes *)
Definition new_entry (name : list Z) (inum : Z) : list Z := le_bytes 2 inum ++ strncpy (rlist name) DIRSIZ.

Lemma strncpy_spec l k : forall i, let t := strncpy_loop (rlist l) (Z.of_nat i) k in
  length t = k /\ c_prefix t = c_prefix (take k (drop i l)) /\ (Forall byte_ok l -> Forall byte_ok t).
Proof.
  induction k as [|k IH]; intros i; cbv zeta; cbn [strncpy_loop]; [done|]. specialize (IH (S i)). cbv zeta in IH. rewrite Nat2Z.inj_succ, <-Z.add_1_r in IH.
  destruct IH as (IH1 & IH2 & IH3).
  change (rlist l (Z.of_nat i)) with (zget l (Z.of_nat i)). unfold zget, nz. rewrite Nat2Z.id.
  destruct (l !! i) as [x|] eqn:E; cbn [from_option id].
  - rewrite (drop_S _ _ _ E). cbn [take c_prefix length]. destruct (Z.eqb_spec x 0) as [->|Hx]; cbn [negb].
    + rewrite length_replicate. split_and!; [done|done|]. intros _. constructor; [done|]. by apply Forall_replicate.
    + rewrite IH1, IH2. split_and!; [done|done|]. intros H. constructor; [|by apply IH3]. by eapply Forall_lookup_1.
  - rewrite drop_ge by (by apply lookup_ge_None). cbn [Z.eqb negb length take c_prefix]. rewrite length_replicate.
    split_and!; [done|done|]. intros _. constructor; [done|]. by apply Forall_replicate.
Qed.

Lemma new_entry_spec name inum : 0 < inum < 2 ^ 16 ->
  length (new_entry name inum) = 16%nat /\ de_inum (new_entry name inum) = inum /\
  dir_name (de_name (new_entry name inum)) = dir_name name /\ (Forall byte_ok name -> Forall byte_ok (new_entry name inum)).
Proof.
  intros Hi. destruct (strncpy_spec name (Z.to_nat DIRSIZ) 0) as (S1 & S2 & S3). change (Z.of_nat 0) with 0 in *.
  fold (strncpy (rlist name) DIRSIZ) in S1, S2, S3. change (Z.to_nat DIRSIZ) with 14%nat in *. unfold new_entry. split_and!.
  - by rewrite length_app, length_le_bytes, S1.
  - unfold de_inum, get16, slice. change (Z.to_nat 0) with 0%nat. change (Z.to_nat 2) with 2%nat.
    rewrite drop_0, take_app_length' by (by rewrite length_le_bytes). apply le_val_bytes_small. change (8 * Z.of_nat 2) with 16. lia.
  - unfold de_name, slice. change (Z.to_nat 2) with 2%nat. rewrite drop_app_length' by (by rewrite length_le_bytes).
    change (Z.to_nat DIRSIZ) with 14%nat. unfold dir_name. change (Z.to_nat DIRSIZ) with 14%nat.
    rewrite !(take_ge (strncpy (rlist name) DIRSIZ)) by lia. exact S2.
  - intros H. apply Forall_app. split; [apply le_bytes_ok|by apply S3].
Qed.

(** the place of a new entry: the first free one, or the end *)
Definition new_off (c : list Z) : Z := default (Z.of_nat (length (dirent_offs (Z.of_nat (length c)))) * SIZEOF_DIRENT) (dir_free c).

Lemma find_ext_in {A} (f g : A -> bool) l : (forall x, x ∈ l -> f x = g x) -> List.find f l = List.find g l.
Proof.
  induction l as [|x l IH]; intros H; [done|]. cbn [List.find]. rewrite (H x) by set_solver. rewrite IH; [done|].
  intros y Hy. apply H. set_solver.
Qed.

Lemma find_app_false {A} (f : A -> bool) l k : (forall x, x ∈ k -> f x = false) -> List.find f (l ++ k) = List.find f l.
Proof.
  intros H. induction l as [|x l IH]; cbn [List.find app]; [|by rewrite IH].
  induction k as [|y k IHk]; [done|]. cbn [List.find]. rewrite H by set_solver. apply IHk. intros z Hz. apply H. set_solver.
Qed.

Lemma find_only (f : Z -> bool) l a : a ∈ l -> f a = true -> (forall x, x ∈ l -> x <> a -> f x = false) -> List.find f l = Some a.
Proof.
  intros Hin Ha H. destruct (List.find f l) as [x|] eqn:E.
  - apply find_some in E as [Hx Hfx]. apply list_elem_of_In in Hx.
    destruct (f x) eqn:Ef; [|done]. f_equal. destruct (decide (x = a)) as [|Hne]; [done|]. by rewrite H in Ef.
  - eapply find_none in E; [|by apply list_elem_of_In]. congruence.
Qed.

Section insert.
Context (c name : list Z) (inum : Z).
Hypothesis Ha : Z.of_nat (length c) mod SIZEOF_DIRENT = 0.
Hypothesis Hi : 0 < inum < 2 ^ 16.
Hypothesis Hno : dir_find c name = None.
Local Abbreviation off := (new_off c).
Local Abbreviation de := (new_entry name inum).
Local Abbreviation c' := (splice off de c).

Lemma offs_length : Z.of_nat (length (dirent_offs (Z.of_nat (length c)))) * SIZEOF_DIRENT = Z.of_nat (length c).
Proof.
  unfold dirent_offs, zseq. rewrite !length_map, length_seq. change SIZEOF_DIRENT with 16 in *. Z.to_euclidean_division_equations; lia.
Qed.

Lemma new_off_spec : 0 <= off <= Z.of_nat (length c) /\ off mod SIZEOF_DIRENT = 0 /\
  (off < Z.of_nat (length c) -> de_inum (entry c off) = 0).
Proof.
  unfold new_off. rewrite offs_length. destruct (dir_free c) as [o|] eqn:E; cbn [from_option id]; [|split_and!; (done || lia)].
  unfold dir_free in E. apply find_some in E as [Hin Hz]. apply list_elem_of_In in Hin.
  destruct (dirent_offs_in _ _ Hin) as (H1 & H2 & H3); [lia|done|]. change SIZEOF_DIRENT with 16 in *.
  split_and!; [lia|lia|done|]. intros _. by apply Z.eqb_eq.
Qed.

Lemma length_new : Z.of_nat (length c') = Z.max (Z.of_nat (length c)) (off + SIZEOF_DIRENT).
Proof.
  destruct new_off_spec as (H1 & _). destruct (new_entry_spec name inum Hi) as (Hl & _).
  unfold splice. rewrite !length_app, length_take, length_drop, Hl. change SIZEOF_DIRENT with 16. lia.
Qed.

Lemma entry_new : entry c' off = de.
Proof.
  destruct new_off_spec as (H1 & _). destruct (new_entry_spec name inum Hi) as (Hl & _). unfold entry, slice, splice.
  rewrite drop_app_length' by (rewrite length_take; lia). change (Z.to_nat SIZEOF_DIRENT) with 16%nat.
  by rewrite take_app_length' by done.
Qed.

Lemma entry_old x : 0 <= x -> x mod SIZEOF_DIRENT = 0 -> x + SIZEOF_DIRENT <= Z.of_nat (length c) -> x <> off -> entry c' x = entry c x.
Proof.
  intros Hx Hm Hend Hne. destruct new_off_spec as (H1 & H2 & _). destruct (new_entry_spec name inum Hi) as (Hl & _).
  change SIZEOF_DIRENT with 16 in *. unfold entry. change SIZEOF_DIRENT with 16.
  destruct (decide (off = Z.of_nat (length c))) as [E|Hn].
  - unfold slice, splice. rewrite (take_ge c) by lia. rewrite drop_app_le by lia. rewrite take_app_le by (rewrite length_drop; lia). done.
  - apply Z.mod_divide in Hm as [a ->]; [|done]. apply Z.mod_divide in H2 as [b Eb]; [|done].
    pose proof Ha as Ha'. apply Z.mod_divide in Ha' as [k Ek]; [|done]. apply slice_splice_ne; rewrite ?Hl; lia.
Qed.

(** the offsets of the new directory *)
Lemma offs_prefix : exists l, dirent_offs (Z.of_nat (length c')) = dirent_offs (Z.of_nat (length c)) ++ l /\ forall x, x ∈ l -> x = off.
Proof.
  destruct new_off_spec as (H1 & H2 & _). unfold dirent_offs. rewrite length_new. change SIZEOF_DIRENT with 16 in *.
  destruct (decide (off = Z.of_nat (length c))) as [E|Hn].
  - exists [off]. split; [|set_solver]. rewrite Z.max_r by lia.
    assert (Z.to_nat ((off + 16 + 16 - 1) / 16) = S (Z.to_nat ((Z.of_nat (length c) + 16 - 1) / 16))) as ->.
    { Z.to_euclidean_division_equations; lia. }
    rewrite zseq_S, map_app. cbn [map]. do 2 f_equal. Z.to_euclidean_division_equations; lia.
  - exists []. rewrite app_nil_r. split; [|set_solver]. rewrite Z.max_l; [done|]. Z.to_euclidean_division_equations; lia.
Qed.

Lemma entry_is_new nm x : x ∈ dirent_offs (Z.of_nat (length c)) -> x <> off -> entry_is c' nm x = entry_is c nm x.
Proof.
  intros Hx Hne. destruct (dirent_offs_in _ _ Hx) as (H1 & H2 & H3); [lia|done|]. unfold entry_is. by rewrite !entry_old.
Qed.

Lemma off_in : off ∈ dirent_offs (Z.of_nat (length c')).
Proof.
  destruct new_off_spec as (H1 & H2 & _). unfold dirent_offs. apply list_elem_of_fmap. exists (off / SIZEOF_DIRENT). rewrite length_new.
  change SIZEOF_DIRENT with 16 in *. split; [|apply elem_of_zseq]; Z.to_euclidean_division_equations; lia.
Qed.

Lemma dir_find_new : dir_find c' name = Some off.
Proof.
  unfold dir_find. apply find_only.
  - apply off_in.
  - destruct (new_entry_spec name inum Hi) as (_ & E1 & E2 & _). unfold entry_is. rewrite entry_new, E1, E2.
    rewrite (proj2 (Z.eqb_neq inum 0)) by lia. by rewrite bool_decide_true.
  - intros x Hx Hne. destruct offs_prefix as (l & El & Hlast). rewrite El in Hx. apply elem_of_app in Hx as [Hx|Hx]; [|by apply Hlast in Hx].
    rewrite entry_is_new by done. eapply find_none in Hno; [exact Hno|]. by apply list_elem_of_In.
Qed.

Lemma dir_find_other nm : dir_name nm <> dir_name name -> dir_find c' nm = dir_find c nm.
Proof.
  intros Hne. assert (entry_is c' nm off = false) as Hoff.
  { destruct (new_entry_spec name inum Hi) as (_ & _ & E2 & _). unfold entry_is. rewrite entry_new, E2.
    rewrite bool_decide_false by congruence. apply andb_false_r. }
  unfold dir_find. destruct offs_prefix as (l & -> & Hlast). rewrite find_app_false by (by intros x ->%Hlast).
  apply find_ext_in. intros x Hx. destruct (decide (x = off)) as [->|Hx']; [|by apply entry_is_new].
  rewrite Hoff. symmetry. destruct (dirent_offs_in _ _ Hx) as (_ & H2 & _); [lia|done|]. unfold entry_is.
  destruct new_off_spec as (_ & _ & ->); [done|]. change SIZEOF_DIRENT with 16 in H2. lia.
Qed.

(** the directory as a map: the name has been added *)
Lemma dir_map_new : dir_map c' name = Some inum.
Proof.
  unfold dir_map. rewrite dir_find_new. cbn [fmap option_fmap option_map]. rewrite entry_new.
  by destruct (new_entry_spec name inum Hi) as (_ & -> & _).
Qed.

Lemma dir_map_other nm : dir_name nm <> dir_name name -> dir_map c' nm = dir_map c nm.
Proof.
  intros Hne. unfold dir_map. rewrite dir_find_other by done. destruct (dir_find c nm) as [x|] eqn:E; [|done].
  cbn [fmap option_fmap option_map]. f_equal. unfold dir_find in E. apply find_some in E as [Hx Hxn]. apply list_elem_of_In in Hx.
  destruct (dirent_offs_in _ _ Hx) as (H1 & H2 & H3); [lia|done|]. rewrite entry_old; [done..|].
  intros ->. destruct new_off_spec as (_ & _ & Hz). unfold entry_is in Hxn. rewrite Hz in Hxn; [done|]. change SIZEOF_DIRENT with 16 in H2. lia.
Qed.
End insert.

(** * Reading entries *)

Section dir.
Context {cache} `{BS : BlockStore cache}.
Context (LS : Z).
Local Abbreviation fstate := (@FsFile.fstate cache LS).

(** the directory in an operation: its blocks are there, its size is a number
    of entries *)
Record dir_ok (s : kstate) (bl : list Z) (V : Z -> list Z) (dp : nat) (ino : inode) : Prop := {
  do_state : fstate s bl V dp ino;
  do_type : i_type ino = T_DIR;
  do_size : 0 <= i_size ino <= MAXFILE * BSIZE;
  do_align : i_size ino mod SIZEOF_DIRENT = 0;
  do_holes : no_holes V ino (i_size ino);
  do_bytes : bytes_ok V ino;
  do_run : running s
}.

Lemma dir_ok_read s s' bl V dp ino : dir_ok s bl V dp ino -> fstate s' bl V dp ino -> running s' -> dir_ok s' bl V dp ino.
Proof. intros [D1 D2 D3 D4 D5 D6 D7] S R. by split. Qed.

Lemma read_dirent_run s bl V dp ino off msg :
  dir_ok s bl V dp ino -> (length bl < 29)%nat -> 0 <= off -> off + SIZEOF_DIRENT <= i_size ino ->
  exists s', read_dirent dp off msg s = Ok (entry (fcontent V ino) off) s' /\ dir_ok s' bl V dp ino /\ read_frame s s'.
Proof.
  intros D Hl Hoff Hend. pose proof D as [D1 D2 D3 D4 D5 D6 D7]. change SIZEOF_DIRENT with 16 in *.
  destruct (readi_run (sink := local_sink 0 dirent0) LS s bl V dp ino (KernLocal dirent0 0) off 16) as (dst & s' & E & S' & F & K); try done; try lia.
  { change MAXFILE with 268 in *. change BSIZE with 1024 in *. lia. }
  { split; [done|]. split; [lia|]. split; [change (Z.of_nat (length dirent0)) with 16; cbn [length]; lia|]. reflexivity. }
  rewrite Z.min_l in E, K by lia. destruct K as (R' & _ & _ & ->).
  exists s'. split; [|split; [by eapply dir_ok_read|done]]. unfold read_dirent. change SIZEOF_DIRENT with 16.
  erewrite bind_ok by exact E. cbv iota beta. change (16 =? 16) with true. cbn [negb kptr_obj]. unfold ret. f_equal.
  unfold entry. change SIZEOF_DIRENT with 16. rewrite <-fread_content by lia. unfold splice.
  rewrite drop_ge by (rewrite length_fread; change (length dirent0) with 16%nat; lia). by rewrite app_nil_r.
Qed.

(** the loop of dirlookup: iget of the entry found *)
Lemma dirlookup_loop bl V dp ino name offs : forall s,
  dir_ok s bl V dp ino -> (length bl < 29)%nat -> Forall (fun off => 0 <= off /\ off + SIZEOF_DIRENT <= i_size ino) offs ->
  exists s', dir_ok s' bl V dp ino /\ read_frame s s' /\
    forM offs (dirlookup_body dp name) s =
    match List.find (entry_is (fcontent V ino) name) offs with
    | None => Ok None s'
    | Some off => (let! ip := iget ROOTDEV (de_inum (entry (fcontent V ino) off)) in ret (Some (ip, off))) s'
    end.
Proof.
  induction offs as [|off offs IH]; intros s D Hl Hin; [by exists s|]. apply Forall_cons in Hin as [[H1 H2] Hin].
  destruct (read_dirent_run s bl V dp ino off "dirlookup read" D Hl H1 H2) as (s1 & E1 & D1 & F1).
  set (de := entry (fcontent V ino) off) in *.
  assert (forall r, dirlookup_body dp name off s = r -> forM (off :: offs) (dirlookup_body dp name) s =
    rbind r (fun r => match r with Some b => ret (Some b) | None => forM offs (dirlookup_body dp name) end)) as Hr by (by intros r <-).
  cbn [List.find]. unfold entry_is at 1. fold de. rewrite <-namecmp_spec.
  assert (dirlookup_body dp name off s = (if de_inum de =? 0 then ret None
    else if namecmp name (de_name de) =? 0 then
      let! dpi := get_inode dp in let! ip := iget (i_dev dpi) (de_inum de) in ret (Some (ip, off))
    else ret None) s1) as Eb by (unfold dirlookup_body; by erewrite bind_ok by exact E1).
  rewrite (Hr _ Eb). destruct (de_inum de =? 0) eqn:Ei; cbn [negb andb].
  { destruct (IH s1 D1 Hl Hin) as (s' & D' & F' & E'). exists s'. split; [done|]. split; [by transitivity s1|exact E']. }
  destruct (namecmp name (de_name de) =? 0).
  - exists s1. split; [done|]. split; [done|]. erewrite bind_ok by (apply get_inode_ok, D1).
    rewrite (fk_dev _ _ _ (st_file _ _ _ _ _ _ (do_state _ _ _ _ _ D1))). unfold bind at 1. rewrite rbind_assoc. reflexivity.
  - destruct (IH s1 D1 Hl Hin) as (s' & D' & F' & E'). exists s'. split; [done|]. split; [by transitivity s1|exact E'].
Qed.

Lemma dirlookup_run s bl V dp ino name :
  dir_ok s bl V dp ino -> (length bl < 29)%nat ->
  exists s', dir_ok s' bl V dp ino /\ read_frame s s' /\
    dirlookup dp name s =
    match dir_find (fcontent V ino) name with
    | None => Ok None s'
    | Some off => (let! ip := iget ROOTDEV (de_inum (entry (fcontent V ino) off)) in ret (Some (ip, off))) s'
    end.
Proof.
  intros D Hl. pose proof (do_size _ _ _ _ _ D) as Hs.
  destruct (dirlookup_loop bl V dp ino name (dirent_offs (i_size ino)) s D Hl) as (s' & D' & F' & E').
  { apply Forall_forall. intros off Hin. destruct (dirent_offs_in _ _ Hin) as (? & ? & _); [lia|apply (do_align _ _ _ _ _ D)|]. by split. }
  exists s'. split; [done|]. split; [done|]. unfold dirlookup. erewrite bind_ok by (apply get_inode_ok, D).
  rewrite (do_type _ _ _ _ _ D). change (T_DIR =? T_DIR) with true. cbn [negb]. unfold dir_find.
  rewrite length_fcontent by lia. exact E'.
Qed.

Lemma dir_free_loop bl V dp ino offs : forall s,
  dir_ok s bl V dp ino -> (length bl < 29)%nat -> Forall (fun off => 0 <= off /\ off + SIZEOF_DIRENT <= i_size ino) offs ->
  exists s', dir_ok s' bl V dp ino /\ read_frame s s' /\
    forM offs (dirlink_empty dp) s = Ok (List.find (fun off => de_inum (entry (fcontent V ino) off) =? 0) offs) s'.
Proof.
  induction offs as [|off offs IH]; intros s D Hl Hin; [by exists s|]. apply Forall_cons in Hin as [[H1 H2] Hin].
  destruct (read_dirent_run s bl V dp ino off "dirlink read" D Hl H1 H2) as (s1 & E1 & D1 & F1).
  cbn [List.find]. destruct (de_inum (entry (fcontent V ino) off) =? 0) eqn:Ei.
  - exists s1. split; [done|]. split; [done|]. apply forM_cons_some. unfold dirlink_empty. erewrite bind_ok by exact E1. by rewrite Ei.
  - destruct (IH s1 D1 Hl Hin) as (s' & D' & F' & E'). exists s'. split; [done|]. split; [by transitivity s1|]. rewrite <-E'.
    apply forM_cons_none. unfold dirlink_empty. erewrite bind_ok by exact E1. by rewrite Ei.
Qed.

(** ** dirlink *)

Lemma dirlink_found s bl V dp ino name inum off :
  dir_ok s bl V dp ino -> (length bl < 29)%nat -> dir_find (fcontent V ino) name = Some off ->
  exists s', dir_ok s' bl V dp ino /\ read_frame s s' /\
    dirlink dp name inum s = (let! ip := iget ROOTDEV (de_inum (entry (fcontent V ino) off)) in iput ip ;; ret (-1)) s'.
Proof.
  intros D Hl Hf. destruct (dirlookup_run s bl V dp ino name D Hl) as (s' & D' & F' & E'). rewrite Hf in E'.
  exists s'. split; [done|]. split; [done|]. unfold dirlink. unfold bind at 1. rewrite E'. unfold bind at 1. by rewrite rbind_assoc.
Qed.

Lemma nblocks_entry off : 0 <= off -> off mod SIZEOF_DIRENT = 0 -> nblocks off SIZEOF_DIRENT = 1.
Proof.
  intros H0 Hm. unfold nblocks. change SIZEOF_DIRENT with 16 in *. change (16 <=? 0) with false. cbv iota. change BSIZE with 1024.
  Z.to_euclidean_division_equations; lia.
Qed.

(** what dirlink leaves when it has written the entry *)
Record linked (s : kstate) (V : Z -> list Z) (dp : nat) (ino : inode) (name : list Z) (inum : Z)
    (s' : kstate) (bl' : list Z) (V' : Z -> list Z) (ino' : inode) : Prop := {
  lk_dir : dir_ok s' bl' V' dp ino';
  lk_frame : rw_frame s s';
  lk_content : fcontent V' ino' = splice (new_off (fcontent V ino)) (new_entry name inum) (fcontent V ino);
  lk_new : dir_map (fcontent V' ino') name = Some inum;
  lk_other nm : dir_name nm <> dir_name name -> dir_map (fcontent V' ino') nm = dir_map (fcontent V ino) nm;
  lk_disk x : same_dinode (disk_inode (k_sb s) V' (i_inum ino) x) ino';
  lk_table : k_itable s' = <[dp := ino']> (k_itable s);
  lk_blocks m : 0 <= m < sb_size (k_sb s) -> used (k_sb s) V m = true ->
    (forall k, 0 <= k <= MAXFILE -> faddr V ino k <> m) -> ~ sb_bmapstart (k_sb s) <= m < data_start (k_sb s) ->
    m <> IBLOCK (i_inum ino) (k_sb s) -> V' m = V m
}.

(** writing the entry at its place links the name *)
Lemma linked_writei s bl V dp ino name inum s2 s3 bl3 V3 ino3 :
  read_frame s s2 -> dir_ok s2 bl V dp ino -> i_size ino + SIZEOF_DIRENT <= MAXFILE * BSIZE -> 0 < inum < 2 ^ 16 ->
  dir_find (fcontent V ino) name = None ->
  writei_post (cache := cache) LS s2 V dp ino (new_off (fcontent V ino)) (new_entry name inum) s3 bl3 V3 ino3 ->
  linked s V dp ino name inum s3 bl3 V3 ino3.
Proof.
  intros [Fs2 Et2] D2 Hsz Hi Hno [P1 P2 P3 P4 P5 P6 P7 P8 P9 P10]. set (c := fcontent V ino) in *.
  pose proof (do_size _ _ _ _ _ D2) as Hs. pose proof (do_align _ _ _ _ _ D2) as Ha.
  assert (Z.of_nat (length c) = i_size ino) as Hlc by (apply length_fcontent; lia).
  assert (Z.of_nat (length c) mod SIZEOF_DIRENT = 0) as Hal by (by rewrite Hlc).
  assert (k_sb s2 = k_sb s) as Esb by (by destruct Fs2 as [o ->]).
  destruct (new_off_spec c Hal) as (Ho1 & Ho2 & _). destruct (new_entry_spec name inum Hi) as (Hn1 & _ & _ & Hn4).
  rewrite Hn1 in P4. change (Z.of_nat 16) with SIZEOF_DIRENT in P4. rewrite Esb in P9, P10. rewrite Et2 in P3.
  split; try done.
  - split; try done.
    + rewrite P5. by apply (do_type _ _ _ _ _ D2).
    + rewrite P4. change SIZEOF_DIRENT with 16 in *. lia.
    + rewrite P4. change SIZEOF_DIRENT with 16 in *.
      destruct (Z.max_spec (i_size ino) (new_off c + 16)) as [[_ ->]|[_ ->]]; [Z.to_euclidean_division_equations; lia|done].
    + apply P8, D2.
    + eapply running_core; [apply (do_run _ _ _ _ _ D2)|]. apply (sc_hart _ _ (ino_same_core _ _ P2)).
  - transitivity s2; [done|]. by apply ino_rw_frame.
  - rewrite P6. by apply dir_map_new.
  - intros nm Hnm. rewrite P6. by apply dir_map_other.
Qed.

Lemma dirlink_run s bl V dp ino name inum :
  dir_ok s bl V dp ino -> (length bl < 24)%nat -> 0 <= i_inum ino < sb_ninodes (k_sb s) -> dinode_ok ino ->
  i_size ino + SIZEOF_DIRENT <= MAXFILE * BSIZE -> Forall byte_ok name -> 0 < inum < 2 ^ 16 ->
  dir_find (fcontent V ino) name = None ->
  exists r s' bl' V' ino', dirlink dp name inum s = Ok r s' /\
    (r = 0 /\ linked s V dp ino name inum s' bl' V' ino' \/
     r = -1 /\ fstate s' bl' V' dp ino' /\ forall b, 0 <= b < sb_size (k_sb s) -> used (k_sb s) V' b = true).
Proof.
  intros D Hl Hin Hok Hsz Hb Hi Hno. set (c := fcontent V ino) in *. pose proof (do_size _ _ _ _ _ D) as Hs.
  assert (Z.of_nat (length c) = i_size ino) as Hlc by (apply length_fcontent; lia).
  assert (Z.of_nat (length c) mod SIZEOF_DIRENT = 0) as Hal by (rewrite Hlc; apply (do_align _ _ _ _ _ D)).
  destruct (dirlookup_run s bl V dp ino name D) as (s1 & D1 & F1 & E1); [lia|]. fold c in E1. rewrite Hno in E1.
  destruct (dir_free_loop bl V dp ino (dirent_offs (i_size ino)) s1 D1) as (s2 & D2 & F2 & E2); [lia| |].
  { apply Forall_forall. intros off Hoff. destruct (dirent_offs_in _ _ Hoff) as (? & ? & _); [lia|apply (do_align _ _ _ _ _ D)|by split]. }
  fold c in E2. rewrite <-Hlc in E2. fold (dir_free c) in E2.
  destruct (new_off_spec c Hal) as (Ho1 & Ho2 & _). destruct (new_entry_spec name inum Hi) as (Hn1 & _ & _ & Hn4).
  assert (read_frame s s2) as [Fs2 Et2] by (by transitivity s1).
  assert (k_sb s2 = k_sb s) as Esb by (by destruct Fs2 as [o ->]).
  destruct (writei_run (source := local_source) LS s2 bl V dp ino (KernLocal (new_entry name inum) 0) (new_off c) (new_entry name inum))
    as (tot & s3 & bl3 & V3 & ino3 & E3 & Ht & P & _ & Hfull).
  { apply D2. }
  { by rewrite Esb. }
  { done. }
  { lia. }
  { lia. }
  { rewrite Hn1. change (Z.of_nat 16) with SIZEOF_DIRENT. lia. }
  { apply D2. }
  { by apply Hn4. }
  { split; [apply D2|]. by exists (new_entry name inum), 0. }
  { rewrite Hn1. change (Z.of_nat 16) with SIZEOF_DIRENT. rewrite nblocks_entry by (done || lia). lia. }
  rewrite Hn1 in Ht, E3, Hfull. change (Z.of_nat 16) with SIZEOF_DIRENT in Ht, E3, Hfull.
  assert (dirlink dp name inum s = Ok (if negb (tot =? SIZEOF_DIRENT) then -1 else 0) s3) as E.
  { unfold dirlink. erewrite bind_ok by exact E1. cbv iota. erewrite bind_ok by (apply get_inode_ok, D1).
    erewrite bind_ok by (rewrite <-Hlc; exact E2). rewrite <-Hlc. fold (new_off c). cbv zeta. fold (new_entry name inum).
    erewrite bind_ok by exact E3. by destruct (tot =? SIZEOF_DIRENT). }
  exists (if negb (tot =? SIZEOF_DIRENT) then -1 else 0), s3, bl3, V3, ino3. split; [exact E|].
  destruct (Z.eqb_spec tot SIZEOF_DIRENT) as [->|Hne]; cbn [negb]; [left|right; split; [done|]; split; [apply P|rewrite <-Esb; apply Hfull; lia]].
  split; [done|]. rewrite take_ge in P by (rewrite Hn1; done). by eapply linked_writei; [split|..].
Qed.
End dir.

(** * Theorems *)

(** C28: dirlookup implements the directory as a map from names to inode
    numbers: without an entry of the name it returns 0, otherwise it returns
    iget of the inode number of the first entry of the name, with the offset
    of this entry; the directory and the inode table are as before. *)
Theorem dirlookup_correct p pr LS s bl V dp ino name :
  dir_ok (cache := bio_cache p pr) LS s bl V dp ino -> (length bl < 29)%nat ->
  exists s', dir_ok (cache := bio_cache p pr) LS s' bl V dp ino /\ read_frame s s' /\
    dirlookup dp name s =
    match dir_find (fcontent V ino) name with
    | None => Ok None s'
    | Some off => (let! ip := iget ROOTDEV (de_inum (entry (fcontent V ino) off)) in ret (Some (ip, off))) s'
    end.
Proof. apply dirlookup_run. Qed.

(** C27: dirlink of a name that is not there adds it to the map and changes no
    other name: the content of the directory afterwards is the old content with
    the sixteen bytes of the new entry written at the first free entry, or at
    the end when every entry is in use ([new_off]). It keeps the directory well
    formed and its disk inode up to date, and touches no block of another file;
    it fails only when the disk is full. The directory is locked, has at most
    MAXFILE blocks with the entry, and the log has room. *)
Theorem dirlink_correct p pr LS s bl V dp ino name inum :
  dir_ok (cache := bio_cache p pr) LS s bl V dp ino -> (length bl < 24)%nat ->
  0 <= i_inum ino < sb_ninodes (k_sb s) -> dinode_ok ino ->
  i_size ino + SIZEOF_DIRENT <= MAXFILE * BSIZE -> Forall byte_ok name -> 0 < inum < 2 ^ 16 ->
  dir_map (fcontent V ino) name = None ->
  exists r s' bl' V' ino', dirlink dp name inum s = Ok r s' /\
    (r = 0 /\ linked (cache := bio_cache p pr) LS s V dp ino name inum s' bl' V' ino' \/
     r = -1 /\ FsFile.fstate (cache := bio_cache p pr) LS s' bl' V' dp ino' /\
     forall b, 0 <= b < sb_size (k_sb s) -> used (k_sb s) V' b = true).
Proof.
  intros D Hl Hin Hok Hsz Hb Hi Hno. apply (dirlink_run LS s bl V dp ino name inum); try done.
  unfold dir_map in Hno. by destruct (dir_find (fcontent V ino) name).
Qed.

(** * Witnesses *)

(** a directory of six free entries in block 36 *)
Definition demo_dir : inode := i_set_type (fun _ => T_DIR) (i_set_size (fun _ => 96) demo_file).

Lemma demo_dir_ok : exists s bl V, dir_ok (cache := bio_cache 0 demo_pr) 2 s bl V 0 demo_dir /\
  (length bl <= 3)%nat /\ k_sb s = demo_sb /\ fcontent V demo_dir = replicate 96 0.
Proof.
  destruct demo_file_state as (s0 & bl & V & S & Hl & Hnh & Hby & Hrun & Esb & Hz). destruct S as [S1 S2 S3 S4 [F1 F2 F3 F4] S6].
  exists (set_itable (fun _ => [demo_dir]) s0), bl, V. split; [|split; [done|split; [done|]]].
  - split; try done.
    + split; try done. by apply (tx_frame 2 s0).
    + intros k Hk Hlt. apply Hnh; [done|]. change (i_size demo_dir) with 96 in Hlt. lia.
  - apply list_eq_zget; [reflexivity|]. intros x Hx. rewrite length_fcontent in Hx by discriminate.
    rewrite zget_fcontent by done. change (i_size demo_dir) with 96 in Hx. unfold fbyte. change BSIZE with 1024.
    rewrite Z.div_small, Z.mod_small by lia. change (fblock V demo_dir 0) with 36. rewrite Hz. unfold zget, zero_block.
    by rewrite !lookup_replicate_2 by (change (Z.to_nat BSIZE) with 1024%nat; lia).
Qed.

Lemma dirlookup_correct_witness : exists s s', dirlookup 0 [46] s = Ok None s'.
Proof.
  destruct demo_dir_ok as (s & bl & V & D & Hl & _ & Hc).
  destruct (dirlookup_correct 0 demo_pr 2 s bl V 0 demo_dir [46] D) as (s' & _ & _ & E); [lia|].
  exists s, s'. rewrite E, Hc. reflexivity.
Defined.

Lemma dirlink_correct_witness : exists s r s', dirlink 0 [46] 1 s = Ok r s' /\ (r = 0 \/ r = -1).
Proof.
  destruct demo_dir_ok as (s & bl & V & D & Hl & Esb & Hc).
  destruct (dirlink_correct 0 demo_pr 2 s bl V 0 demo_dir [46] 1 D) as (r & s' & bl' & V' & ino' & E & H).
  - lia.
  - rewrite Esb. split; [discriminate|reflexivity].
  - destruct demo_file_dinode as [K1 K2 K3 K4 K5 K6 K7]. split; try done.
  - discriminate.
  - constructor; [split; [discriminate|reflexivity]|constructor].
  - split; reflexivity.
  - rewrite Hc. reflexivity.
  - exists s, r, s'. split; [exact E|]. destruct H as [[-> _]|[-> _]]; [left|right]; reflexivity.
Defined.
