(* ===== verification/Console.v ===== *)
(** kernel/uart.c, driver and console layers: the interrupt-driven transmitter,
    the receiver, the input line discipline and the console device; procdump
    of kernel/proc.c, which the console calls. *)

From stdpp Require Import base gmap strings numbers list.
From S2P Require Import Prelude KState KString Spinlock Printf ProcSync Fs.

(** * Definitions *)

(** The registers uartinit writes, in order: IER off, 8n1, FIFO enable and
    clear, modem signals, receive and transmit interrupts on. *)
Definition RHR : Z := 0.
Definition IER : Z := 1.
Definition FCR : Z := 2.
Definition LCR : Z := 3.
Definition MCR : Z := 4.
Definition uartinit_writes : list (Z * Z) :=
  [(IER, 0x00); (LCR, Z.shiftl 3 0); (FCR, Z.lor (Z.shiftl 1 0) (Z.shiftl 3 1));
   (MCR, 0x0B); (IER, Z.lor (Z.shiftl 1 0) (Z.shiftl 1 1))].

(** the effect of a register write on the device: clearing the FIFO drops
    the bytes waiting in it *)
Definition uart_write_reg (rv : Z * Z) : K unit :=
  whenM ((rv.1 =? FCR) && nz (Z.land rv.2 (Z.shiftl 1 1)))
    (modify (set_uart (u_set_rx (fun _ => [])))).

Definition uartinit : K unit :=
  initlock LUartTx ;;
  forM_ uartinit_writes uart_write_reg.

(** [while(uart_tx_busy) sleep(&uart_tx_chan, &uart_tx_lock);] *)
Definition wait_tx : K unit :=
  whileM WAKEUPS (fun _ : unit =>
    let! u := gets k_uart in
    if nz (u_tx_busy u) then sleep ChUart LUartTx ;; ret (inl tt)
    else ret (inr tt)) tt.

Definition tx_busy : K unit := modify (set_uart (u_set_tx_busy (fun _ => 1))).

Definition uartwrite (buf : list Z) : K unit :=
  acquire LUartTx ;;
  forM_ buf (fun c =>
    whenM (c =? 10) (wait_tx ;; write_thr 13 ;; tx_busy) ;;
    wait_tx ;;
    write_thr c ;;
    tx_busy) ;;
  release LUartTx.

Definition uartgetc : K Z :=
  let! u := gets k_uart in
  match u_rx u with
  | c :: rest => modify (set_uart (u_set_rx (fun _ => rest))) ;; ret c
  | [] => ret (-1)
  end.

(** [killed(p)] through the pointer *)
Definition cons_e : K Z := gets (fun s => c_e (k_cons s)).
Definition cons_w : K Z := gets (fun s => c_w (k_cons s)).
Definition cons_r : K Z := gets (fun s => c_r (k_cons s)).
Definition cons_at (i : Z) : K Z :=
  gets (fun s => zget (c_buf (k_cons s)) (u32 i mod INPUT_BUF_SIZE)).

(** [while(cons.r == cons.w) {..}]: true when the process was killed *)
Definition cons_wait : K bool :=
  whileM WAKEUPS (fun _ : unit =>
    let! r := cons_r in
    let! w := cons_w in
    if negb (r =? w) then ret (inr false)
    else
      let! p := myproc_deref in
      let! k := killed p in
      if nz k then release LCons ;; ret (inr true)
      else sleep ChCons LCons ;; ret (inl tt)) tt.

(** loop variables: [dst] and [n]; [inr None] is the early return *)
Definition consoleread_body (target : Z) (i : kptr * Z)
  : K (kptr * Z + option (kptr * Z)) :=
  let '(dst, n) := i in
  if negb (0 <? n) then ret (inr (Some (dst, n)))
  else
    let! dead := cons_wait in
    if (dead : bool) then ret (inr None)
    else
      let! r := cons_r in
      let! c := cons_at r in
      modify (set_cons (c_set_r (fun r => u32 (r + 1)))) ;;
      if c =? 4 then
        whenM (n <? target) (modify (set_cons (c_set_r (fun r => u32 (r - 1))))) ;;
        ret (inr (Some (dst, n)))
      else
        let! r := either_copyout dst [c] in
        if (r : Z * kptr).1 =? -1 then ret (inr (Some (r.2, n)))
        else
          let dst := kptr_add r.2 1 in
          let n := n - 1 in
          if c =? 10 then ret (inr (Some (dst, n))) else ret (inl (dst, n)).

Definition consoleread (dst : kptr) (n : Z) : K (Z * kptr) :=
  let target := u32 n in
  acquire LCons ;;
  let! r := whileM (Z.to_nat n + 1) (consoleread_body target) (dst, n) in
  match r with
  | None => ret (-1, dst)
  | Some (dst, n') => release LCons ;; ret (s32 (target - n'), dst)
  end.

Definition consolewrite_body (src : kptr) (n i : Z) : K (Z + Z) :=
  if negb (i <? n) then ret (inr i)
  else
    let nn := if n - i <? 32 then n - i else 32 in
    let! r := either_copyin (kptr_add src i) nn in
    if (r : Z * list Z).1 =? -1 then ret (inr i)
    else uartwrite r.2 ;; ret (inl (i + nn)).

Definition consolewrite (src : kptr) (n : Z) : K Z :=
  whileM (Z.to_nat n + 1) (consolewrite_body src n) 0.

(** the text of a process state in procdump *)
Definition state_name (st : procstate) : string :=
  match st with
  | UNUSED => "unused" | USED => "used" | SLEEPING => "sleep "
  | RUNNABLE => "runble" | RUNNING => "run   " | ZOMBIE => "zombie"
  end.

(** the bytes of a char array before its NUL *)
Fixpoint until_nul (l : list Z) : list Z :=
  match l with
  | [] => []
  | c :: l' => if c =? 0 then [] else c :: until_nul l'
  end.

Definition procdump : K unit :=
  printf "\n" [] ;;
  forM_ procs (fun i =>
    let! p := get_proc i in
    if bool_decide (p_state p = UNUSED) then ret tt
    else
      printf "%d %s %s"
        [VWord (p_pid p); VStr (Some (bytes_of_string (state_name (p_state p))));
         VStr (Some (until_nul (p_name p)))] ;;
      printf "\n" []).

(** [while(cons.e != cons.w && cons.buf[(cons.e-1) % N] != '\n')] *)
Definition kill_line_body (_ : unit) : K (unit + unit) :=
  let! e := cons_e in
  let! w := cons_w in
  let! c := cons_at (e - 1) in
  if negb (e =? w) && negb (c =? 10) then
    modify (set_cons (c_set_e (fun e => u32 (e - 1)))) ;;
    consputc BACKSPACE ;;
    ret (inl tt)
  else ret (inr tt).

Definition consoleintr_default (c : Z) : K unit :=
  let! e := cons_e in
  let! r := cons_r in
  whenM (nz c && (u32 (e - r) <? INPUT_BUF_SIZE))
    (let c := if c =? 13 then 10 else c in
     consputc c ;;
     modify (set_cons (c_set_buf (fun b => zput b (e mod INPUT_BUF_SIZE) (u8 c)))) ;;
     modify (set_cons (c_set_e (fun e => u32 (e + 1)))) ;;
     let! e := cons_e in
     let! r := cons_r in
     whenM ((c =? 10) || (c =? 4) || (u32 (e - r) =? INPUT_BUF_SIZE))
       (modify (set_cons (c_set_w (fun _ => e))) ;;
        wakeup ChCons)).

Definition consoleintr (c : Z) : K unit :=
  acquire LCons ;;
  (if c =? 16 then procdump
   else if c =? 21 then
     let! e := cons_e in
     let! w := cons_w in
     whileM (Z.to_nat (u32 (e - w)) + 1) kill_line_body tt
   else if c =? 24 then panic "User triggered panic!"
   else if c =? 3 then
     let! p := myproc in
     match p with
     | Some i =>
         let! pr := get_proc i in
         whenM (1 <? p_pid pr) (setkilled i ;; consputc 94 ;; consputc 67)
     | None => ret tt
     end
   else if (c =? 8) || (c =? 127) then
     let! e := cons_e in
     let! w := cons_w in
     whenM (negb (e =? w))
       (modify (set_cons (c_set_e (fun e => u32 (e - 1)))) ;;
        consputc BACKSPACE)
   else consoleintr_default c) ;;
  release LCons.

(** the receive loop of uartintr: bytes do not arrive while it runs, so an
    empty FIFO ends it *)
Definition uartintr_body (_ : unit) : K (unit + unit) :=
  let! c := uartgetc in
  if c =? -1 then ret (inr tt) else consoleintr c ;; ret (inl tt).

Definition uartintr : K unit :=
  acquire LUartTx ;;
  let! u := gets k_uart in
  whenM (u_tx_idle u)
    (whenM (nz (u_tx_busy u))
       (modify (set_uart (u_set_tx_busy (fun _ => 0))) ;;
        wakeup ChUart)) ;;
  release LUartTx ;;
  whileM (length (u_rx u) + 1) uartintr_body tt.

Definition printfinit : K unit := initlock LPr.

Definition consoleinit : K unit :=
  initlock LCons ;;
  uartinit ;;
  printfinit.

(** [devsw]: consoleinit enters the console, no other entry is ever set *)
Definition devsw_read (major : Z) : option (kptr -> Z -> K (Z * kptr)) :=
  if major =? CONSOLE then Some consoleread else None.
Definition devsw_write (major : Z) : option (kptr -> Z -> K Z) :=
  if major =? CONSOLE then Some consolewrite else None.
