(* ===== verification/ConsoleSpec.v ===== *)
(** The line discipline of the console (kernel/uart.c): the circular buffer
    with its 32-bit counters is a queue of ready bytes and a line being
    edited; the interrupt handler edits, consoleread takes lines. *)

From stdpp Require Import base gmap strings numbers list.
From S2P Require Import Prelude KState KString Spinlock Printf ProcSync SyncSpec Bio BioRing BioSpec.
From S2P Require Import BlockStore Log LogDisk LogSpec LogOps FsTx Kalloc Vm VmPte VmTree VmSpec VmCopy.
From S2P Require Import Fs FsBlock FsInode FsFile FsRw Console.

(** * The abstract console *)

(** the bytes readers may take, and the line under the cursor *)
Record cline := mkcline { cl_ready : list Z; cl_edit : list Z }.

Definition cl_all (t : cline) : list Z := cl_ready t ++ cl_edit t.

(** carriage return is newline *)
Definition cook (c : Z) : Z := if c =? 13 then 10 else c.

(** the key erases, or enters a byte *)
Definition accepts (c : Z) (t : cline) : bool := nz c && (Z.of_nat (length (cl_all t)) <? INPUT_BUF_SIZE).
Definition commits (c : Z) (t : cline) : bool :=
  (cook c =? 10) || (cook c =? 4) || (Z.of_nat (length (cl_all t)) + 1 =? INPUT_BUF_SIZE).
Definition is_erase (c : Z) : bool := (c =? 8) || (c =? 127).

Definition feed (t : cline) (c : Z) : cline :=
  if c =? 21 then mkcline (cl_ready t) []
  else if is_erase c then mkcline (cl_ready t) (removelast (cl_edit t))
  else if accepts c t then
    if commits c t then mkcline (cl_all t ++ [cook c]) [] else mkcline (cl_ready t) (cl_edit t ++ [cook c])
  else t.

(** a key after which readers are woken *)
Definition wakes (t : cline) (c : Z) : bool :=
  negb (c =? 21) && negb (is_erase c) && accepts c t && commits c t.

(** what the terminal shows *)
Definition rubout : list Z := outs [8; 32; 8].
Definition echo (t : cline) (c : Z) : list Z :=
  if c =? 21 then concat (replicate (length (cl_edit t)) rubout)
  else if is_erase c then match cl_edit t with [] => [] | _ => rubout end
  else if accepts c t then out1 (cook c) else [].

(** * The buffer *)

Record queue (k : console) (t : cline) : Prop := {
  q_len : length (c_buf k) = Z.to_nat INPUT_BUF_SIZE;
  q_r : 0 <= c_r k < 2 ^ 32;
  q_w : c_w k = u32 (c_r k + Z.of_nat (length (cl_ready t)));
  q_e : c_e k = u32 (c_r k + Z.of_nat (length (cl_all t)));
  q_room : Z.of_nat (length (cl_all t)) <= INPUT_BUF_SIZE;
  q_bytes i : 0 <= i < Z.of_nat (length (cl_all t)) -> zget (c_buf k) ((c_r k + i) mod INPUT_BUF_SIZE) = zget (cl_all t) i;
  q_ok : Forall byte_ok (cl_all t)
}.

(** the line under the cursor has no newline *)
Definition cons_is (k : console) (t : cline) : Prop := queue k t /\ Forall (fun c => c <> 10) (cl_edit t).

Lemma u32_mod_buf x : u32 x mod INPUT_BUF_SIZE = x mod INPUT_BUF_SIZE.
Proof.
  unfold u32. symmetry. change (2 ^ 32) with (INPUT_BUF_SIZE * 2 ^ 25).
  rewrite Z.rem_mul_r by done. rewrite Z.mul_comm, Z_mod_plus_full. by rewrite Z.mod_mod.
Qed.

Lemma length_all t : Z.of_nat (length (cl_all t)) = Z.of_nat (length (cl_ready t)) + Z.of_nat (length (cl_edit t)).
Proof. unfold cl_all. rewrite length_app. lia. Qed.

Lemma queue_count k t : queue k t -> u32 (c_e k - c_r k) = Z.of_nat (length (cl_all t)).
Proof.
  intros [Q1 Q2 Q3 Q4 Q5 _ _]. change INPUT_BUF_SIZE with 128 in *. rewrite Q4. unfold u32.
  Z.to_euclidean_division_equations; lia.
Qed.

Lemma queue_ew k t : queue k t -> u32 (c_e k - c_w k) = Z.of_nat (length (cl_edit t)).
Proof.
  intros [Q1 Q2 Q3 Q4 Q5 _ _]. rewrite length_all in *. change INPUT_BUF_SIZE with 128 in *. rewrite Q3, Q4. unfold u32.
  Z.to_euclidean_division_equations; lia.
Qed.

Lemma queue_edit k t : queue k t -> (c_e k =? c_w k) = (length (cl_edit t) =? 0)%nat.
Proof.
  intros Q. pose proof (queue_ew k t Q) as E. destruct Q as [_ Q2 Q3 Q4 Q5 _ _]. rewrite length_all in *. change INPUT_BUF_SIZE with 128 in *.
  apply Bool.eq_iff_eq_true. rewrite Z.eqb_eq, Nat.eqb_eq. unfold u32 in *. Z.to_euclidean_division_equations; lia.
Qed.

Lemma queue_ready k t : queue k t -> (c_r k =? c_w k) = (length (cl_ready t) =? 0)%nat.
Proof.
  intros [_ Q2 Q3 Q4 Q5 _ _]. rewrite length_all in *. change INPUT_BUF_SIZE with 128 in *.
  apply Bool.eq_iff_eq_true. rewrite Z.eqb_eq, Nat.eqb_eq. unfold u32 in *. Z.to_euclidean_division_equations; lia.
Qed.

(** ** The moves of the counters *)

Definition k_push (c : Z) (k : console) : console :=
  c_set_e (fun e => u32 (e + 1)) (c_set_buf (fun b => zput b (c_e k mod INPUT_BUF_SIZE) (u8 c)) k).

Lemma queue_push k t c : queue k t -> byte_ok c -> Z.of_nat (length (cl_all t)) < INPUT_BUF_SIZE ->
  queue (k_push c k) (mkcline (cl_ready t) (cl_edit t ++ [c])).
Proof.
  intros [Q1 Q2 Q3 Q4 Q5 Q6 Q7] Hc Hroom. assert (cl_all (mkcline (cl_ready t) (cl_edit t ++ [c])) = cl_all t ++ [c]) as Ea.
  { unfold cl_all. cbn [cl_ready cl_edit]. by rewrite app_assoc. }
  assert (c_e k mod INPUT_BUF_SIZE = (c_r k + Z.of_nat (length (cl_all t))) mod INPUT_BUF_SIZE) as Ee by (rewrite Q4; apply u32_mod_buf).
  split; rewrite ?Ea; cbn [k_push c_set_e c_set_buf c_buf c_r c_w c_e cl_ready].
  - by rewrite length_zput.
  - done.
  - done.
  - rewrite Q4, length_app. unfold u32. rewrite Z.add_mod_idemp_l by done. f_equal. cbn [length]. lia.
  - rewrite length_app. cbn [length]. lia.
  - rewrite length_app. cbn [length]. intros i Hi. rewrite Ee. set (n := Z.of_nat (length (cl_all t))) in *.
    change INPUT_BUF_SIZE with 128 in *. destruct (decide (i = n)) as [->|Hne].
    + rewrite zget_zput_eq by (rewrite Q1; Z.to_euclidean_division_equations; lia). unfold zget, n. rewrite Nat2Z.id, list_lookup_middle by done.
      by apply u8_small.
    + rewrite zget_zput_ne by (Z.to_euclidean_division_equations; lia). rewrite Q6 by lia. unfold zget. by rewrite lookup_app_l by lia.
  - apply Forall_app. split; [done|]. by constructor.
Qed.

Lemma queue_commit k t : queue k t -> queue (c_set_w (fun _ => c_e k) k) (mkcline (cl_all t) []).
Proof.
  intros [Q1 Q2 Q3 Q4 Q5 Q6 Q7]. assert (cl_all (mkcline (cl_all t) []) = cl_all t) as Ea by (unfold cl_all at 1; cbn; by rewrite app_nil_r).
  split; rewrite ?Ea; done.
Qed.

(** the cursor goes back over one byte *)
Lemma queue_back k rd ed x : queue k (mkcline rd (ed ++ [x])) ->
  queue (c_set_e (fun e => u32 (e - 1)) k) (mkcline rd ed) /\ zget (c_buf k) (u32 (c_e k - 1) mod INPUT_BUF_SIZE) = x.
Proof.
  intros [Q1 Q2 Q3 Q4 Q5 Q6 Q7]. assert (cl_all (mkcline rd (ed ++ [x])) = cl_all (mkcline rd ed) ++ [x]) as Ea.
  { unfold cl_all. cbn [cl_ready cl_edit]. by rewrite app_assoc. }
  rewrite Ea in *. set (a := cl_all (mkcline rd ed)) in *. rewrite length_app in *. cbn [length] in *.
  assert (u32 (c_e k - 1) = u32 (c_r k + Z.of_nat (length a))) as Ee.
  { rewrite Q4. unfold u32. rewrite Zminus_mod_idemp_l. f_equal. lia. }
  split; [split|]; cbn [c_set_e c_buf c_r c_w c_e]; fold a; try done; try lia.
  - intros i Hi. rewrite Q6 by lia. unfold zget. by rewrite lookup_app_l by lia.
  - by apply Forall_app in Q7 as [? _].
  - rewrite Ee, u32_mod_buf, Q6 by lia. unfold zget. by rewrite Nat2Z.id, list_lookup_middle.
Qed.

(** a reader takes a byte *)
Lemma queue_pop k x rd ed : queue k (mkcline (x :: rd) ed) ->
  queue (c_set_r (fun r => u32 (r + 1)) k) (mkcline rd ed) /\ zget (c_buf k) (u32 (c_r k) mod INPUT_BUF_SIZE) = x.
Proof.
  intros [Q1 Q2 Q3 Q4 Q5 Q6 Q7]. change (cl_all (mkcline (x :: rd) ed)) with (x :: cl_all (mkcline rd ed)) in *.
  set (a := cl_all (mkcline rd ed)) in *. cbn [length cl_ready] in *.
  split; [split|]; cbn [c_set_r c_buf c_r c_w c_e cl_ready]; fold a; try done; try lia.
  - apply u32_range.
  - rewrite Q3. unfold u32. rewrite Z.add_mod_idemp_l by done. f_equal. lia.
  - rewrite Q4. fold a. unfold u32. rewrite Z.add_mod_idemp_l by done. f_equal. lia.
  - intros i Hi. rewrite <-(u32_mod_buf (_ + i)). unfold u32. rewrite Z.add_mod_idemp_l by done.
    change ((c_r k + 1 + i) mod 2 ^ 32) with (u32 (c_r k + 1 + i)). rewrite u32_mod_buf.
    replace (c_r k + 1 + i) with (c_r k + (1 + i)) by lia. rewrite Q6 by lia. unfold zget.
    replace (Z.to_nat (1 + i)) with (S (Z.to_nat i)) by lia. done.
  - by apply Forall_cons in Q7 as [_ ?].
  - rewrite u32_small by done. specialize (Q6 0). rewrite Z.add_0_r in Q6. apply Q6. lia.
Qed.

(** and puts it back *)
Lemma queue_unpop k x rd ed : queue k (mkcline (x :: rd) ed) -> c_set_r (fun r => u32 (r - 1)) (c_set_r (fun r => u32 (r + 1)) k) = k.
Proof.
  intros [_ Q2 _ _ _ _ _]. destruct k as [b r w e]. unfold c_set_r. cbn [c_buf c_r c_w c_e] in *. f_equal.
  unfold u32. rewrite Zminus_mod_idemp_l. rewrite Z.add_simpl_r. by apply Z.mod_small.
Qed.

(** * The interrupt handler *)

(** the console may be used: its lock, the process locks and the terminal *)
Record cons_free (s : kstate) : Prop := {
  cf_lock : h_locks (k_hart s) !! LCons = None;
  cf_procs : procs_ok s;
  cf_uart : quiet_uart s
}.

(** the buffer is [k] now, [o] has been printed, and perhaps readers woken *)
Definition typed (k : console) (o : list Z) (w : bool) (s : kstate) : kstate :=
  (if w then set_procs (imap (wake ChCons (h_proc (k_hart s)))) else id) (set_cons (fun _ => k) (emit o s)).

Lemma consputc_run c s : hart_ok (k_hart s) -> quiet_uart s ->
  consputc c s = Ok tt (emit (if c =? BACKSPACE then rubout else out1 c) s).
Proof.
  intros Hok Hq. unfold consputc. destruct (c =? BACKSPACE); [|by apply uartputc_sync_run].
  mrun uartputc_sync_run. mrun uartputc_sync_run. rewrite uartputc_sync_run by done. by rewrite !emit_app.
Qed.

Lemma cons_at_run i s : cons_at i s = Ok (zget (c_buf (k_cons s)) (u32 i mod INPUT_BUF_SIZE)) s.
Proof. done. Qed.

Lemma kill_line_run rd ed : forall s, hart_ok (k_hart s) -> quiet_uart s -> queue (k_cons s) (mkcline rd ed) ->
  Forall (fun c => c <> 10) ed ->
  exists k, whileM (length ed + 1) kill_line_body tt s = Ok tt (typed k (concat (replicate (length ed) rubout)) false s) /\
    queue k (mkcline rd []).
Proof.
  induction ed as [|x ed IH] using rev_ind; intros s Hok Hq Q Hn.
  - exists (k_cons s). split; [|done]. cbn [length Nat.add replicate concat]. unfold typed, id. rewrite emit_nil. apply whileM_stop.
    unfold kill_line_body, cons_e, cons_w. mstep. mstep. erewrite bind_ok by apply cons_at_run. rewrite (queue_edit _ _ Q). done.
  - apply Forall_app in Hn as [Hn Hx]. apply Forall_cons in Hx as [Hx _]. destruct (queue_back _ _ _ _ Q) as [Q' Hg].
    pose proof (queue_edit _ _ Q) as Ee. cbn [cl_edit] in Ee. rewrite length_app in Ee. cbn [length] in Ee.
    set (s1 := emit rubout (set_cons (c_set_e (fun e => u32 (e - 1))) s)).
    destruct (IH s1) as (k & Ek & Qk); [done|done|exact Q'|done|]. exists k. split; [|done].
    rewrite length_app. cbn [length]. rewrite (Nat.add_comm (length ed) 1). cbn [Nat.add].
    assert (kill_line_body tt s = Ok (inl tt) s1) as Eb.
    { unfold kill_line_body, cons_e, cons_w. mstep. mstep. erewrite bind_ok by apply cons_at_run. rewrite Hg, Ee.
      rewrite (Nat.add_comm (length ed) 1), (proj2 (Z.eqb_neq x 10) Hx). cbn [Nat.eqb Nat.add negb andb]. mstep.
      erewrite bind_ok by (apply consputc_run; done). done. }
    rewrite (whileM_step _ _ _ _ _ _ Eb), Ek. f_equal. unfold typed, id, s1. cbn [replicate concat].
    rewrite <-emit_app. reflexivity.
Qed.

Lemma cook_byte c : byte_ok c -> byte_ok (cook c).
Proof. unfold cook. by destruct (c =? 13). Qed.

Lemma default_run c s t : quiet_uart s -> procs_ok s -> cons_is (k_cons s) t -> byte_ok c ->
  exists k, consoleintr_default c s = Ok tt (typed k (if accepts c t then out1 (cook c) else []) (accepts c t && commits c t) s) /\
    cons_is k (if accepts c t then if commits c t then mkcline (cl_all t ++ [cook c]) [] else mkcline (cl_ready t) (cl_edit t ++ [cook c])
               else t).
Proof.
  intros Hq Hp [Q Hn] Hc. pose proof Hp as [Hok _]. unfold consoleintr_default, cons_e, cons_r. mstep. mstep.
  rewrite (queue_count _ _ Q). fold (accepts c t). destruct (accepts c t) eqn:Ea; cbn [whenM andb].
  2: { exists (k_cons s). split; [|done]. unfold typed, id. by rewrite emit_nil. }
  assert (Z.of_nat (length (cl_all t)) < INPUT_BUF_SIZE) as Hroom by (unfold accepts in Ea; lia).
  fold (cook c). pose proof (cook_byte c Hc) as Hcb. pose proof (queue_push _ _ _ Q Hcb Hroom) as Q1.
  erewrite bind_ok by (apply consputc_run; done). rewrite (proj2 (Z.eqb_neq (cook c) BACKSPACE)) by (unfold byte_ok, BACKSPACE in *; lia).
  set (k1 := k_push (cook c) (k_cons s)) in *. set (s1 := set_cons (fun _ => k1) (emit (out1 (cook c)) s)).
  mstep. mstep. mstep. mstep. ksimp.
  change (c_set_e (fun e => u32 (e + 1)) (c_set_buf (fun b => zput b (c_e (k_cons s) mod INPUT_BUF_SIZE) (u8 (cook c))) (k_cons s))) with k1.
  match goal with |- context [set_cons (c_set_e ?f) ?x] => change (set_cons (c_set_e f) x) with s1 end.
  rewrite (queue_count _ _ Q1). unfold cl_all at 1. cbn [cl_ready cl_edit]. rewrite app_assoc, length_app. fold (cl_all t). cbn [length].
  rewrite Nat2Z.inj_add. change (Z.of_nat 1) with 1. fold (commits c t). destruct (commits c t) eqn:Ec; cbn [whenM].
  - mstep. exists (c_set_w (fun _ => c_e k1) k1). split.
    + rewrite wakeup_run by exact Hp. reflexivity.
    + split; [|constructor]. pose proof (queue_commit _ _ Q1) as Q2. unfold cl_all in Q2 at 1. cbn [cl_ready cl_edit] in Q2.
      by rewrite app_assoc in Q2.
  - exists k1. split; [done|]. split; [done|]. apply Forall_app. split; [done|]. constructor; [|done].
    unfold commits in Ec. lia.
Qed.

(** keys with an effect on processes, or on nothing: ^P, ^C, ^X *)
Definition control (c : Z) : bool := (c =? 16) || (c =? 3) || (c =? 24).

Lemma removelast_snoc {A} (l : list A) x : removelast (l ++ [x]) = l.
Proof. rewrite removelast_app by done. by rewrite app_nil_r. Qed.

Lemma consoleintr_run c s t : cons_free s -> cons_is (k_cons s) t -> byte_ok c -> control c = false ->
  exists k, consoleintr c s = Ok tt (typed k (echo t c) (wakes t c) s) /\ cons_is k (feed t c).
Proof.
  intros [Hl Hp Hq] [Q Hn] Hc Hctl. pose proof Hp as (Hok & Hlen & Hlp). unfold control in Hctl.
  apply orb_false_iff in Hctl as [Hctl H24]. apply orb_false_iff in Hctl as [H16 H3].
  unfold consoleintr. erewrite bind_ok by (apply acquire_run; done). rewrite H16, H3, H24.
  set (s1 := set_hart (hart_lock LCons) s).
  assert (procs_ok s1) as Hp1.
  { split; [by apply hart_lock_ok|]. split; [done|]. intros i. change (h_locks (k_hart s1)) with (<[LCons := h_id (k_hart s)]> (h_locks (k_hart s))). rewrite lookup_insert_ne by done. apply Hlp. }
  assert (hart_ok (k_hart s1)) as Hok1 by apply Hp1.
  assert (forall k o w, release LCons (typed k o w s1) = Ok tt (typed k o w s)) as Hrel.
  { intros k o w. rewrite (release_locked LCons _ (k_hart s)); [|done|done|by destruct w]. by destruct w. }
  unfold feed, echo, wakes. destruct (c =? 21) eqn:H21; cbn [negb andb].
  - destruct t as [rd ed]. cbn [cl_ready cl_edit] in *. destruct (kill_line_run rd ed s1) as (k & E & Qk); [done..|].
    exists k. split; [|split; [done|constructor]]. erewrite bind_ok; [apply Hrel|]. unfold cons_e, cons_w. mstep. mstep.
    change (k_cons s1) with (k_cons s). rewrite (queue_ew _ _ Q). cbn [cl_edit]. rewrite Nat2Z.id. exact E.
  - fold (is_erase c). destruct (is_erase c) eqn:He; cbn [negb andb].
    + destruct t as [rd ed]. cbn [cl_ready cl_edit] in *. destruct ed as [|x ed _] using rev_ind.
      * exists (k_cons s). split; [|split; [done|constructor]]. rewrite <-(Hrel (k_cons s) [] false). erewrite bind_ok; [done|].
        unfold cons_e, cons_w. mstep. mstep. change (k_cons s1) with (k_cons s). rewrite (queue_edit _ _ Q). cbn [cl_edit length Nat.eqb negb whenM].
        unfold typed, id. by rewrite emit_nil.
      * destruct (queue_back _ _ _ _ Q) as [Q' _]. exists (c_set_e (fun e => u32 (e - 1)) (k_cons s)).
        rewrite removelast_snoc. apply Forall_app in Hn as [Hn _]. split; [|by split].
        destruct (ed ++ [x]) as [|y l] eqn:E; [by destruct ed|]. rewrite <-(Hrel _ rubout false). erewrite bind_ok; [done|].
        unfold cons_e, cons_w. mstep. mstep. change (k_cons s1) with (k_cons s). rewrite (queue_edit _ _ Q). cbn [cl_edit length Nat.eqb negb whenM]. mstep.
        rewrite consputc_run by done. done.
    + destruct (default_run c s1 t) as (k & E & Hk); [done..|]. exists k. split; [|exact Hk]. erewrite bind_ok by exact E. apply Hrel.
Qed.

(** ** Bytes that arrive together *)

Fixpoint echoes (t : cline) (l : list Z) : list Z :=
  match l with [] => [] | c :: l' => echo t c ++ echoes (feed t c) l' end.
Fixpoint woken (t : cline) (l : list Z) : bool :=
  match l with [] => false | c :: l' => wakes t c || woken (feed t c) l' end.

Lemma wake_idem ch me i p : wake ch me i (wake ch me i p) = wake ch me i p.
Proof.
  unfold wake. destruct (bool_decide (me = Some i)); [done|].
  destruct (bool_decide (p_state p = SLEEPING ∧ p_chan p = ch)) eqn:E; [|by rewrite E].
  by rewrite bool_decide_false by (intros [H _]; done).
Qed.

Lemma imap_wake_idem ch me ps : imap (wake ch me) (imap (wake ch me) ps) = imap (wake ch me) ps.
Proof.
  apply list_eq. intros i. rewrite !list_lookup_imap. destruct (ps !! i) as [p|]; [|done]. cbn [fmap option_fmap option_map].
  f_equal. apply wake_idem.
Qed.

Definition set_rx (l : list Z) : kstate -> kstate := set_uart (u_set_rx (fun _ => l)).

Lemma uartgetc_run s : uartgetc s = match u_rx (k_uart s) with c :: rest => Ok c (set_rx rest s) | [] => Ok (-1) s end.
Proof. destruct s as [? ? ? ? ? ? ? ? ? ? ? ? ? ? ? ? ? ? [? [|] ? ? ? ?] ? ?]; reflexivity. Qed.

Lemma typed_typed k1 o1 w1 l k2 o2 w2 s :
  typed k2 o2 w2 (set_rx [] (typed k1 o1 w1 (set_rx l s))) = typed k2 (o1 ++ o2) (w1 || w2) (set_rx [] s).
Proof.
  assert (forall s, emit (o1 ++ o2) s = emit o2 (emit o1 s)) as Ee by (intros; by rewrite emit_app).
  destruct w1, w2; cbn [orb]; unfold typed, id; rewrite Ee; try reflexivity.
  set (me := h_proc (k_hart s)). set (x := set_cons (fun _ => k2) (emit o2 (emit o1 (set_rx [] s)))).
  change (set_procs (fun _ => imap (wake ChCons me) (imap (wake ChCons me) (k_procs s))) x = set_procs (fun _ => imap (wake ChCons me) (k_procs s)) x).
  by rewrite imap_wake_idem.
Qed.

Lemma cons_free_typed k o w s : cons_free s -> cons_free (typed k o w s).
Proof.
  intros [C1 (P1 & P2 & P3) C3]. split; [by destruct w| |by destruct w]. split; [by destruct w|]. split; [|by destruct w].
  destruct w; [|done]. change (length (imap (wake ChCons (h_proc (k_hart s))) (k_procs s)) = Z.to_nat NPROC). by rewrite length_imap.
Qed.

Lemma uartintr_loop l : forall s t, cons_free s -> cons_is (k_cons s) t -> u_rx (k_uart s) = l -> Forall byte_ok l ->
  Forall (fun c => control c = false) l ->
  exists k, whileM (length l + 1) uartintr_body tt s = Ok tt (typed k (echoes t l) (woken t l) (set_rx [] s)) /\
    cons_is k (foldl feed t l).
Proof.
  induction l as [|c l IH]; intros s t Hf Hk Hrx Hb Hc.
  - exists (k_cons s). split; [|done]. cbn [length Nat.add]. apply whileM_stop. unfold uartintr_body.
    erewrite bind_ok by (rewrite uartgetc_run, Hrx; reflexivity). change (-1 =? -1) with true. cbv iota. unfold ret. f_equal.
    unfold typed, id, set_rx. cbn [echoes woken]. rewrite emit_nil. unfold set_uart, u_set_rx. rewrite <-Hrx. by destruct s as [? ? ? ? ? ? ? ? ? ? ? ? ? ? ? ? ? ? [] ? ?].
  - apply Forall_cons in Hb as [Hcb Hb]. apply Forall_cons in Hc as [Hcc Hc]. set (s1 := set_rx l s).
    destruct (consoleintr_run c s1 t) as (k1 & E1 & Hk1); [by destruct Hf; split|done..|].
    destruct (IH (typed k1 (echo t c) (wakes t c) s1) (feed t c)) as (k & E & Hk'); [apply cons_free_typed; by destruct Hf; split|by destruct (wakes t c)|by destruct (wakes t c)|done..|].
    exists k. split; [|done]. cbn [length Nat.add].
    assert (uartintr_body tt s = Ok (inl tt) (typed k1 (echo t c) (wakes t c) s1)) as Eb.
    { unfold uartintr_body. erewrite bind_ok by (rewrite uartgetc_run, Hrx; reflexivity).
      rewrite (proj2 (Z.eqb_neq c (-1))) by (unfold byte_ok in Hcb; lia). by erewrite bind_ok by exact E1. }
    rewrite (whileM_step _ _ _ _ _ _ Eb), E. f_equal. cbn [echoes woken]. apply typed_typed.
Qed.

(** the transmitter has sent its byte *)
Definition tx_done (s : kstate) : kstate :=
  if u_tx_idle (k_uart s) && nz (u_tx_busy (k_uart s))
  then set_procs (imap (wake ChUart (h_proc (k_hart s)))) (set_uart (u_set_tx_busy (fun _ => 0)) s) else s.

Lemma tx_done_cases (P : kstate -> Prop) s :
  P s -> P (set_procs (imap (wake ChUart (h_proc (k_hart s)))) (set_uart (u_set_tx_busy (fun _ => 0)) s)) -> P (tx_done s).
Proof. unfold tx_done. by destruct (_ && _). Qed.

Lemma uartintr_run s t : cons_free s -> h_locks (k_hart s) !! LUartTx = None -> cons_is (k_cons s) t ->
  Forall byte_ok (u_rx (k_uart s)) -> Forall (fun c => control c = false) (u_rx (k_uart s)) ->
  let l := u_rx (k_uart s) in
  exists k, uartintr s = Ok tt (typed k (echoes t l) (woken t l) (set_rx [] (tx_done s))) /\ cons_is k (foldl feed t l).
Proof.
  intros Hf Hl Hk Hb Hc l. pose proof Hf as [F1 F2 F3]. pose proof F2 as (Hok & Hlen & Hlp).
  destruct (uartintr_loop l (tx_done s) t) as (k & E & Hk'); try done.
  - apply tx_done_cases; [done|]. split; [done| |done]. split; [done|]. split; [|done].
    change (length (imap (wake ChUart (h_proc (k_hart s))) (k_procs s)) = Z.to_nat NPROC). by rewrite length_imap.
  - by apply (tx_done_cases (fun s' => cons_is (k_cons s') t)).
  - by apply (tx_done_cases (fun s' => u_rx (k_uart s') = l)).
  - exists k. split; [|done]. unfold uartintr. erewrite bind_ok by (apply acquire_run; done). mstep. ksimp.
    change (u_rx (k_uart s)) with l. set (s1 := set_hart (hart_lock LUartTx) s).
    assert (procs_ok (set_uart (u_set_tx_busy (fun _ => 0)) s1)) as Hp1.
    { split; [by apply hart_lock_ok|]. split; [done|]. intros i.
      change (<[LUartTx := h_id (k_hart s)]> (h_locks (k_hart s)) !! LProc i = None). by rewrite lookup_insert_ne. }
    erewrite bind_ok with (s' := set_hart (hart_lock LUartTx) (tx_done s)).
    2: { unfold tx_done. destruct (u_tx_idle (k_uart s)); cbn [whenM andb]; [|done]. destruct (nz (u_tx_busy (k_uart s))); cbn [whenM]; [|done].
         mstep. by rewrite wakeup_run. }
    erewrite bind_ok; [exact E|]. rewrite (release_locked LUartTx _ (k_hart s)); [|done|done|by apply tx_done_cases]. by apply tx_done_cases.
Qed.

(** * Reading *)

(** what a read of up to [n] bytes delivers, and what it leaves: a line, or
    less of it; ^D ends the input, and is consumed by a read that delivers
    nothing; [None] when the read has to wait *)
Fixpoint read_line (first : bool) (n : nat) (rd : list Z) : option (list Z * list Z) :=
  match n with
  | O => Some ([], rd)
  | S n' =>
      match rd with
      | [] => None
      | c :: rd' =>
          if c =? 4 then Some ([], if first then rd' else rd)
          else if c =? 10 then Some ([c], rd')
          else '(l, rest) ← read_line false n' rd'; Some (c :: l, rest)
      end
  end.

Lemma read_line_length n : forall first rd l rest, read_line first n rd = Some (l, rest) -> (length l <= n)%nat.
Proof.
  induction n as [|n IH]; intros first rd l rest E; cbn [read_line] in E; [by injection E as <- _|]. destruct rd as [|c rd]; [done|].
  destruct (c =? 4); [injection E as <- _; cbn [length]; lia|]. destruct (c =? 10); [injection E as <- _; cbn [length]; lia|].
  destruct (read_line false n rd) as [[l' r']|] eqn:El; [|done]. injection E as <- _. apply IH in El. cbn [length]. lia.
Qed.

(** only the buffer and the reader's memory changed *)
Definition cons_frame (s s' : kstate) : Prop := s' = set_mem (fun _ => k_mem s') (set_cons (fun _ => k_cons s') s).

#[export] Instance cons_frame_refl : Reflexive cons_frame.
Proof. done. Qed.
#[export] Instance cons_frame_trans : Transitive cons_frame.
Proof. intros s1 s2 s3 H1 H2. unfold cons_frame. rewrite H2, H1. done. Qed.

Section read.
Context {sink} `{SK : CopySink sink}.

Lemma cons_wait_ready s x rd ed : queue (k_cons s) (mkcline (x :: rd) ed) -> cons_wait s = Ok false s.
Proof.
  intros Q. unfold cons_wait, WAKEUPS. apply (whileM_stop 4095). unfold cons_r, cons_w. mstep. mstep.
  by rewrite (queue_ready _ _ Q).
Qed.

Lemma consoleread_loop target n : forall rd ed l rest s dst acc first,
  queue (k_cons s) (mkcline rd ed) -> read_line first n rd = Some (l, rest) -> first = (Z.of_nat n =? target) -> Z.of_nat n <= target ->
  sink s dst acc (Z.of_nat n) ->
  exists dst' s', whileM (n + 1) (consoleread_body target) (dst, Z.of_nat n) s = Ok (Some (dst', Z.of_nat n - Z.of_nat (length l))) s' /\
    sink s' dst' (acc ++ l) (Z.of_nat n - Z.of_nat (length l)) /\ queue (k_cons s') (mkcline rest ed) /\ cons_frame s s'.
Proof.
  induction n as [|n IH]; intros rd ed l rest s dst acc first Q E Hfirst Hn Sk.
  - injection E as <- <-. exists dst, s. rewrite app_nil_r. split; [|done]. by apply whileM_stop.
  - cbn [read_line] in E. destruct rd as [|c rd]; [done|]. destruct (queue_pop _ _ _ _ Q) as [Q1 Hg].
    set (s1 := set_cons (c_set_r (fun r => u32 (r + 1))) s).
    assert (consoleread_body target (dst, Z.of_nat (S n)) s =
      (if c =? 4 then
        whenM (Z.of_nat (S n) <? target) (modify (set_cons (c_set_r (fun r => u32 (r - 1))))) ;;
        ret (inr (Some (dst, Z.of_nat (S n))))
      else
        let! r := either_copyout dst [c] in
        if (r : Z * kptr).1 =? -1 then ret (inr (Some (r.2, Z.of_nat (S n))))
        else
          let dst := kptr_add r.2 1 in
          let n := Z.of_nat (S n) - 1 in
          if c =? 10 then ret (inr (Some (dst, n))) else ret (inl (dst, n))) s1) as Eb.
    { unfold consoleread_body. rewrite (proj2 (Z.ltb_lt 0 (Z.of_nat (S n)))) by lia. cbn [negb].
      erewrite bind_ok by (by eapply cons_wait_ready). cbv iota beta. unfold cons_r. mstep. erewrite bind_ok by apply cons_at_run.
      rewrite Hg. mstep. done. }
    destruct (c =? 4) eqn:E4.
    + injection E as <- <-. rewrite app_nil_r, Z.sub_0_r. destruct first; symmetry in Hfirst; [apply Z.eqb_eq in Hfirst|apply Z.eqb_neq in Hfirst].
      * exists dst, s1. split; [|split; [by eapply sink_core|done]]. apply whileM_stop. rewrite Eb.
        rewrite (proj2 (Z.ltb_ge (Z.of_nat (S n)) target)) by lia. done.
      * exists dst, s. split; [|done]. apply whileM_stop. rewrite Eb. rewrite (proj2 (Z.ltb_lt (Z.of_nat (S n)) target)) by lia.
        cbn [whenM]. mstep. unfold ret. f_equal. unfold s1.
        change (set_cons (fun _ => c_set_r (fun r => u32 (r - 1)) (c_set_r (fun r => u32 (r + 1)) (k_cons s))) s = s).
        by rewrite (queue_unpop _ _ _ _ Q).
    + assert (byte_ok c) as Hcb by (pose proof (q_ok _ _ Q) as H; by apply Forall_cons in H as [? _]).
      destruct (sink_put s1 dst acc (Z.of_nat (S n)) [c]) as (p' & s2 & E2 & F2 & Sk2); [by eapply sink_core|by constructor|cbn [length]; lia|].
      erewrite (bind_ok _ _ _ _ _ E2) in Eb. cbn [fst snd] in Eb. change (0 =? -1) with false in Eb. cbv iota zeta in Eb.
      change (Z.of_nat (length [c])) with 1 in Sk2. replace (Z.of_nat (S n) - 1) with (Z.of_nat n) in Eb, Sk2 by lia.
      assert (queue (k_cons s2) (mkcline rd ed)) as Q2 by (by rewrite F2).
      assert (cons_frame s s2) as F by (unfold cons_frame; rewrite F2; done).
      destruct (c =? 10) eqn:E10.
      * injection E as <- <-. exists (kptr_add p' 1), s2. cbn [length]. replace (Z.of_nat (S n) - Z.of_nat 1) with (Z.of_nat n) by lia.
        split; [|done]. by apply whileM_stop.
      * destruct (read_line false n rd) as [[l' rest']|] eqn:El; [|done]. injection E as <- <-.
        destruct (IH rd ed l' rest' s2 (kptr_add p' 1) (acc ++ [c]) false Q2 El) as (dst' & s' & E' & Sk' & Q' & F'); [lia..|done|].
        exists dst', s'. cbn [length]. replace (Z.of_nat (S n) - Z.of_nat (S (length l'))) with (Z.of_nat n - Z.of_nat (length l')) by lia.
        rewrite <-app_assoc in Sk'. split; [|split; [done|]; split; [done|by transitivity s2]].
        cbn [Nat.add]. by rewrite (whileM_step _ _ _ _ _ _ Eb).
Qed.
End read.

(** * Theorems *)

(** C29: the interrupt handler implements the line editor: for whatever bytes
    wait in the receiver, except ^P, ^C and ^X, the circular buffer goes from
    a line to the line after these keys (erase, kill, carriage return, end of
    input, full buffer), across wrap-around of its counters; the terminal
    shows the echo, readers are woken exactly if a line was completed, and the
    transmitter's waiters if it is idle. *)
Theorem uartintr_correct s t :
  cons_free s -> h_locks (k_hart s) !! LUartTx = None -> cons_is (k_cons s) t ->
  Forall byte_ok (u_rx (k_uart s)) -> Forall (fun c => control c = false) (u_rx (k_uart s)) ->
  let l := u_rx (k_uart s) in
  exists k, uartintr s = Ok tt (typed k (echoes t l) (woken t l) (set_rx [] (tx_done s))) /\ cons_is k (foldl feed t l).
Proof. apply uartintr_run. Qed.

(** C30: consoleread delivers the next line, or as much of it as was asked
    for, to user or kernel memory: the bytes go in order, ^D ends the read and
    counts for a read of its own only when nothing precedes it, the rest of the
    input and the line being edited stay. *)
Theorem consoleread_correct sink (SK : CopySink sink) s t dst n l rest :
  cons_is (k_cons s) t -> lock_free LCons s -> 0 <= n < 2 ^ 31 -> read_line true (Z.to_nat n) (cl_ready t) = Some (l, rest) ->
  sink s dst [] n ->
  exists dst' s', consoleread dst n s = Ok (Z.of_nat (length l), dst') s' /\ sink s' dst' l (n - Z.of_nat (length l)) /\
    cons_is (k_cons s') (mkcline rest (cl_edit t)) /\ cons_frame s s'.
Proof.
  intros [Q Hed] Hf Hn El Sk. pose proof Hf as [Hok Hl]. destruct t as [rd ed]. cbn [cl_ready cl_edit] in *.
  set (s1 := set_hart (hart_lock LCons) s).
  assert (sink s1 dst [] n) as Sk1 by (apply (sink_hart s); [done|by apply hart_lock_ok|done]).
  rewrite <-(Z2Nat.id n) in Sk1 by lia.
  destruct (consoleread_loop (SK := SK) n (Z.to_nat n) rd ed l rest s1 dst [] true Q El) as (dst' & s2 & E2 & Sk2 & Q2 & F2); [by rewrite Z2Nat.id, Z.eqb_refl by lia|lia|done|].
  rewrite Z2Nat.id in E2, Sk2 by lia. cbn [app] in Sk2.
  exists dst', (set_hart (fun _ => k_hart s) s2). split_and!.
  - unfold consoleread. rewrite u32_small by lia. erewrite bind_ok by (by apply acquire_run). erewrite bind_ok by exact E2. cbv iota beta.
    erewrite bind_ok by (apply (release_locked LCons _ (k_hart s)); [done|done|by rewrite F2]). unfold ret. f_equal. f_equal.
    replace (n - (n - Z.of_nat (length l))) with (Z.of_nat (length l)) by lia. apply read_line_length in El.
    apply signed_small; [done|]. change (2 ^ (32 - 1)) with (2 ^ 31). lia.
  - apply (sink_hart s2); [done|done|]. by rewrite F2.
  - by split.
  - unfold cons_frame in *. rewrite F2. done.
Qed.

(** * Witnesses *)

(** process 0 runs; "x", erase, "ab", return have been typed *)
Definition demo_cons : kstate := set_rx [120; 8; 97; 98; 13] (thread_state []).
Definition demo_line : cline := mkcline [97; 98; 10] [].

Lemma empty_cons : cons_is (k_cons (thread_state [])) (mkcline [] []).
Proof. split; [|constructor]. split; try done. cbn. lia. Qed.

Lemma demo_cons_free : cons_free demo_cons.
Proof. split; [done|exact (thread_state_procs [])|done]. Qed.

Lemma uartintr_correct_witness : exists k s', uartintr demo_cons = Ok tt s' /\ cons_is k demo_line.
Proof.
  destruct (uartintr_correct demo_cons (mkcline [] []) demo_cons_free) as (k & E & Hk).
  - reflexivity.
  - exact empty_cons.
  - repeat (constructor; [split; [discriminate|reflexivity]|]). constructor.
  - repeat (constructor; [reflexivity|]). constructor.
  - exists k. eexists. split; [exact E|exact Hk].
Defined.

(** a console with a line to read *)
Lemma demo_ready : exists s, cons_is (k_cons s) demo_line /\ lock_free LCons s /\ running s.
Proof.
  destruct (uartintr_run demo_cons (mkcline [] []) demo_cons_free) as (k & E & Hk).
  - reflexivity.
  - exact empty_cons.
  - repeat (constructor; [split; [discriminate|reflexivity]|]). constructor.
  - repeat (constructor; [reflexivity|]). constructor.
  - exists (set_cons (fun _ => k) demo_cons). destruct (thread_state_procs []) as (Hok & _). split; [exact Hk|]. split.
    + split; [exact Hok|reflexivity].
    + split; [exact Hok|]. by exists 0%nat.
Qed.

Lemma consoleread_correct_witness : exists s dst s', consoleread (KernLocal (replicate 10 0) 0) 10 s = Ok (3, dst) s'.
Proof.
  destruct demo_ready as (s & Hk & Hf & Hr).
  destruct (consoleread_correct (local_sink 0 (replicate 10 0)) _ s demo_line (KernLocal (replicate 10 0) 0) 10 [97; 98; 10] [] Hk Hf)
    as (dst & s' & E & _).
  - split; [discriminate|reflexivity].
  - reflexivity.
  - split; [exact Hr|]. split; [discriminate|]. split; [discriminate|reflexivity].
  - exists s, dst, s'. exact E.
Defined.
