(* ===== verification/File.v ===== *)
(** kernel/file.c and kernel/pipe.c: open files and pipes.

    A pipe lives in the page [kalloc] gave it; the map [k_pipes] holds its
    struct under the address of that page. *)

From stdpp Require Import base gmap strings numbers list.
From S2P Require Import Prelude KState KString Spinlock Kalloc Vm ProcSync Log Fs Console.

(** * Definitions *)

Definition fileinit : K unit := initlock LFtable.

(** the first free slot of the table *)
Fixpoint free_slot (l : list file) (i : nat) : option nat :=
  match l with
  | [] => None
  | f :: l' => if f_ref f =? 0 then Some i else free_slot l' (S i)
  end.

Definition filealloc : K (option nat) :=
  acquire LFtable ;;
  let! tab := gets k_ftable in
  match free_slot tab 0 with
  | Some i =>
      modify (upd_file i (f_set_ref (fun _ => 1))) ;;
      release LFtable ;;
      ret (Some i)
  | None => release LFtable ;; ret None
  end.

Definition filedup (f : nat) : K nat :=
  acquire LFtable ;;
  let! ff := get_file f in
  if f_ref ff <? 1 then panic "filedup"
  else
    modify (upd_file f (f_set_ref (fun n => n + 1))) ;;
    release LFtable ;;
    ret f.

(** ** Pipes *)

Definition get_pipe (pi : Z) : K pipe :=
  fun s => match k_pipes s !! pi with Some p => Ok p s | None => UB "pipe" s end.
Definition upd_pipe (pi : Z) (f : pipe -> pipe) : K unit :=
  modify (set_pipes (alter f pi)).

Definition pipeclose (pi : Z) (writable : bool) : K unit :=
  acquire (LPipe pi) ;;
  (if writable then
     upd_pipe pi (pi_set_writeopen (fun _ => 0)) ;; wakeup (ChPipeR pi)
   else
     upd_pipe pi (pi_set_readopen (fun _ => 0)) ;; wakeup (ChPipeW pi)) ;;
  let! p := get_pipe pi in
  if (pi_readopen p =? 0) && (pi_writeopen p =? 0) then
    release (LPipe pi) ;;
    modify (set_pipes (delete pi)) ;;
    kfree pi
  else release (LPipe pi).

(** one pass of the loop of pipewrite; [inr (i, early)] leaves it *)
Definition pipewrite_body (pi addr n : Z) (pr : nat) (i : Z) : K (Z + Z * bool) :=
  if negb (i <? n) then ret (inr (i, false))
  else
    let! p := get_pipe pi in
    let! dead := if pi_readopen p =? 0 then ret 1 else killed pr in
    if nz dead then release (LPipe pi) ;; ret (inr (-1, true))
    else if pi_nwrite p =? u32 (pi_nread p + PIPESIZE) then
      wakeup (ChPipeR pi) ;;
      sleep (ChPipeW pi) (LPipe pi) ;;
      ret (inl i)
    else
      let! me := get_proc pr in
      let! r := copyin (p_pagetable me) (u64 (addr + i)) 1 in
      if (r : Z * list Z).1 =? -1 then ret (inr (i, false))
      else
        upd_pipe pi (fun p =>
          mkpipe (zput (pi_data p) (pi_nwrite p mod PIPESIZE) (zget r.2 0))
                 (pi_nread p) (u32 (pi_nwrite p + 1)) (pi_readopen p) (pi_writeopen p)) ;;
        ret (inl (i + 1)).

(** every pass stores a byte or sleeps *)
Definition pipewrite (pi addr n : Z) : K Z :=
  let! pr := myproc_deref in
  acquire (LPipe pi) ;;
  let! ' (i, early) := whileM (Z.to_nat n + WAKEUPS) (pipewrite_body pi addr n pr) 0 in
  if (early : bool) then ret i
  else
    wakeup (ChPipeR pi) ;;
    release (LPipe pi) ;;
    ret i.

(** [while(pi->nread == pi->nwrite && pi->writeopen)]: true when killed *)
Definition piperead_wait (pi : Z) (pr : nat) : K bool :=
  whileM WAKEUPS (fun _ : unit =>
    let! p := get_pipe pi in
    if negb ((pi_nread p =? pi_nwrite p) && nz (pi_writeopen p)) then ret (inr false)
    else
      let! k := killed pr in
      if nz k then release (LPipe pi) ;; ret (inr true)
      else sleep (ChPipeR pi) (LPipe pi) ;; ret (inl tt)) tt.

Definition piperead_body (pi addr n : Z) (pr : nat) (i : Z) : K (Z + Z) :=
  if negb (i <? n) then ret (inr i)
  else
    let! p := get_pipe pi in
    if pi_nread p =? pi_nwrite p then ret (inr i)
    else
      let ch := zget (pi_data p) (pi_nread p mod PIPESIZE) in
      let! me := get_proc pr in
      let! r := copyout (p_pagetable me) (u64 (addr + i)) [ch] in
      if r =? -1 then ret (inr (if i =? 0 then -1 else i))
      else
        upd_pipe pi (pi_set_nread (fun x => u32 (x + 1))) ;;
        ret (inl (i + 1)).

Definition piperead (pi addr n : Z) : K Z :=
  let! pr := myproc_deref in
  acquire (LPipe pi) ;;
  let! dead := piperead_wait pi pr in
  if (dead : bool) then ret (-1)
  else
    let! i := whileM (Z.to_nat n + 1) (piperead_body pi addr n pr) 0 in
    wakeup (ChPipeW pi) ;;
    release (LPipe pi) ;;
    ret i.

(** ** Files *)

Definition fileclose (f : nat) : K unit :=
  acquire LFtable ;;
  let! ff := get_file f in
  if f_ref ff <? 1 then panic "fileclose"
  else
    modify (upd_file f (f_set_ref (fun n => n - 1))) ;;
    let! ff := get_file f in
    if 0 <? f_ref ff then release LFtable
    else
      modify (upd_file f (f_set_ref (fun _ => 0))) ;;
      modify (upd_file f (f_set_type (fun _ => FD_NONE))) ;;
      release LFtable ;;
      match f_type ff with
      | FD_PIPE => pipeclose (f_pipe ff) (nz (f_writable ff))
      | FD_INODE | FD_DEVICE =>
          begin_op ;;
          let! ip := deref "iput" (f_ip ff) in
          iput ip ;;
          end_op
      | FD_NONE => ret tt
      end.

(** [*f0] and [*f1] on success; the pipe page's other contents are what
    kalloc left there *)
Definition pipealloc : K (option (nat * nat)) :=
  let! f0 := filealloc in
  let! f1 := match f0 with Some _ => filealloc | None => ret None end in
  let! pi := match f0, f1 with Some _, Some _ => kalloc | _, _ => ret 0 end in
  match f0, f1 with
  | Some r, Some w =>
      if pi =? 0 then fileclose r ;; fileclose w ;; ret None
      else
        modify (set_pipes (<[pi := mkpipe (replicate (Z.to_nat PIPESIZE) 5) 0 0 1 1]>)) ;;
        initlock (LPipe pi) ;;
        modify (upd_file r (fun f => mkfile FD_PIPE (f_ref f) 1 0 pi (f_ip f) (f_off f) (f_major f))) ;;
        modify (upd_file w (fun f => mkfile FD_PIPE (f_ref f) 0 1 pi (f_ip f) (f_off f) (f_major f))) ;;
        ret (Some (r, w))
  | Some r, None => fileclose r ;; ret None
  | None, _ => ret None
  end.

(** the 24 bytes of a [struct stat]; the four bytes of padding before [size]
    are written as zero *)
Definition stat_bytes (st : stat) : list Z :=
  le_bytes 4 (st_dev st) ++ le_bytes 4 (st_ino st) ++ le_bytes 2 (st_type st) ++
  le_bytes 2 (st_nlink st) ++ replicate 4 0 ++ le_bytes 8 (st_size st).

Definition filestat (f : nat) (addr : Z) : K Z :=
  let! p := myproc_deref in
  let! ff := get_file f in
  match f_type ff with
  | FD_INODE | FD_DEVICE =>
      ilock (f_ip ff) ;;
      let! i := deref "stati" (f_ip ff) in
      let! ip := get_inode i in
      let st := stati ip in
      iunlock (f_ip ff) ;;
      let! pr := get_proc p in
      let! r := copyout (p_pagetable pr) addr (stat_bytes st) in
      if r <? 0 then ret (-1) else ret 0
  | _ => ret (-1)
  end.

Definition fileread (f : nat) (addr n : Z) : K Z :=
  let! ff := get_file f in
  if f_readable ff =? 0 then ret (-1)
  else
    match f_type ff with
    | FD_PIPE => piperead (f_pipe ff) addr n
    | FD_DEVICE =>
        if (f_major ff <? 0) || (NDEV <=? f_major ff) then ret (-1)
        else match devsw_read (f_major ff) with
             | None => ret (-1)
             | Some rd => let! r := rd (UserVA addr) n in ret (r : Z * kptr).1
             end
    | FD_INODE =>
        ilock (f_ip ff) ;;
        let! i := deref "readi" (f_ip ff) in
        let! ff := get_file f in
        let! ' (r, _) := readi i (UserVA addr) (f_off ff) (u32 n) in
        whenM (0 <? r) (modify (upd_file f (f_set_off (fun o => u32 (o + r))))) ;;
        iunlock (f_ip ff) ;;
        ret r
    | FD_NONE => panic "fileread"
    end.

(** a few blocks at a time, to stay within a log transaction *)
Definition WRITE_MAX : Z := (MAXOPBLOCKS - 1 - 1 - 2) / 2 * BSIZE.

Definition filewrite_body (f : nat) (addr n i : Z) : K (Z + Z) :=
  if negb (i <? n) then ret (inr i)
  else
    let n1 := if WRITE_MAX <? n - i then WRITE_MAX else n - i in
    begin_op ;;
    let! ff := get_file f in
    ilock (f_ip ff) ;;
    let! ip := deref "writei" (f_ip ff) in
    let! r := writei ip (UserVA (u64 (addr + i))) (f_off ff) n1 in
    whenM (0 <? r) (modify (upd_file f (f_set_off (fun o => u32 (o + r))))) ;;
    iunlock (f_ip ff) ;;
    end_op ;;
    if negb (r =? n1) then ret (inr i) else ret (inl (i + r)).

Definition filewrite (f : nat) (addr n : Z) : K Z :=
  let! ff := get_file f in
  if f_writable ff =? 0 then ret (-1)
  else
    match f_type ff with
    | FD_PIPE => pipewrite (f_pipe ff) addr n
    | FD_DEVICE =>
        if (f_major ff <? 0) || (NDEV <=? f_major ff) then ret (-1)
        else match devsw_write (f_major ff) with
             | None => ret (-1)
             | Some wr => wr (UserVA addr) n
             end
    | FD_INODE =>
        let! i := whileM (Z.to_nat n + 1) (filewrite_body f addr n) 0 in
        ret (if i =? n then n else -1)
    | FD_NONE => panic "filewrite"
    end.
