(* ===== verification/PipeSpec.v ===== *)
(** Pipes as queues: the ring buffer of pipe.c against a list of bytes, and
    pipewrite/piperead as enqueue and dequeue of bytes of user memory. *)

From stdpp Require Import base gmap strings numbers list.
From S2P Require Import Prelude KState KString Spinlock Kalloc Vm VmPte VmTree VmSpec VmCopy.
From S2P Require Import ProcSync SyncSpec Log LogDisk Fs Console File.

(** arithmetic of the counters *)
Ltac pipe_lia :=
  unfold u32 in *; change (2 ^ 32) with 4294967296 in *; change PIPESIZE with 512 in *;
  Z.to_euclidean_division_equations; lia.

(** * The queue in a ring buffer *)

Record pipe_ok (p : pipe) : Prop := {
  pk_len : length (pi_data p) = Z.to_nat PIPESIZE;
  pk_bytes : Forall byte_ok (pi_data p);
  pk_nread : 0 <= pi_nread p < 2 ^ 32;
  pk_nwrite : 0 <= pi_nwrite p < 2 ^ 32;
  pk_count : u32 (pi_nwrite p - pi_nread p) <= PIPESIZE
}.

Definition pipe_count (p : pipe) : Z := u32 (pi_nwrite p - pi_nread p).

(** the bytes in the pipe, the next one to be read first *)
Definition pipe_q (p : pipe) : list Z :=
  map (fun k => zget (pi_data p) ((pi_nread p + k) mod PIPESIZE)) (zseq 0 (Z.to_nat (pipe_count p))).

(** the stores of pipewrite and piperead *)
Definition pipe_push (p : pipe) (c : Z) : pipe :=
  mkpipe (zput (pi_data p) (pi_nwrite p mod PIPESIZE) c)
         (pi_nread p) (u32 (pi_nwrite p + 1)) (pi_readopen p) (pi_writeopen p).
Definition pipe_pop (p : pipe) : pipe := pi_set_nread (fun x => u32 (x + 1)) p.

Lemma length_pipe_q p : length (pipe_q p) = Z.to_nat (pipe_count p).
Proof. unfold pipe_q. by rewrite length_map, length_zseq. Qed.

Lemma pipe_count_range p : 0 <= pipe_count p.
Proof. apply u32_range. Qed.

(** the counters run modulo 2^32, of which the size is a divisor *)
Lemma u32_mod_size x : u32 x mod PIPESIZE = x mod PIPESIZE.
Proof.
  unfold u32. symmetry. change (2 ^ 32) with (PIPESIZE * 2 ^ 23).
  rewrite Z.rem_mul_r by done. rewrite Z.mul_comm, Z_mod_plus_full. by rewrite Z.mod_mod.
Qed.

Lemma nwrite_index p : pipe_ok p -> pi_nwrite p mod PIPESIZE = (pi_nread p + pipe_count p) mod PIPESIZE.
Proof.
  intros [_ _ Hr Hw _]. unfold pipe_count. rewrite <-(u32_mod_size (pi_nread p + _)). f_equal.
  unfold u32. rewrite Z.add_mod_idemp_r by done.
  replace (pi_nread p + (pi_nwrite p - pi_nread p)) with (pi_nwrite p) by lia.
  symmetry. by apply Z.mod_small.
Qed.

Lemma u32_add_1 x : u32 (u32 x + 1) = u32 (x + 1).
Proof. unfold u32. by rewrite Z.add_mod_idemp_l. Qed.

(** full exactly when the writer's test says so *)
Lemma pipe_full_test p :
  pipe_ok p -> (pi_nwrite p =? u32 (pi_nread p + PIPESIZE)) = (pipe_count p =? PIPESIZE).
Proof.
  intros [_ _ Hr Hw Hc]. unfold pipe_count in *. apply Bool.eq_iff_eq_true.
  rewrite !Z.eqb_eq. pipe_lia.
Qed.

Lemma pipe_empty_test p : pipe_ok p -> (pi_nread p =? pi_nwrite p) = (pipe_count p =? 0).
Proof.
  intros [_ _ Hr Hw Hc]. unfold pipe_count in *. apply Bool.eq_iff_eq_true.
  rewrite !Z.eqb_eq. pipe_lia.
Qed.

Lemma mod_size_range x : 0 <= x mod PIPESIZE < PIPESIZE.
Proof. by apply Z.mod_pos_bound. Qed.

Lemma pipe_push_ok p c :
  pipe_ok p -> byte_ok c -> pipe_count p < PIPESIZE ->
  pipe_ok (pipe_push p c) /\ pipe_q (pipe_push p c) = pipe_q p ++ [c].
Proof.
  intros Hok Hc Hroom. pose proof Hok as [H1 H2 H3 H4 H5]. pose proof (pipe_count_range p) as H0.
  assert (Hcount : pipe_count (pipe_push p c) = pipe_count p + 1).
  { unfold pipe_count in *. cbn. pipe_lia. }
  split.
  - split; cbn.
    + by rewrite length_zput.
    + unfold zput. by apply Forall_insert.
    + done.
    + apply u32_range.
    + change (pipe_count (pipe_push p c) <= PIPESIZE). lia.
  - unfold pipe_q. rewrite Hcount. replace (Z.to_nat (pipe_count p + 1)) with (S (Z.to_nat (pipe_count p))) by lia.
    rewrite zseq_S, map_app. cbn [map pi_data pi_nread pipe_push]. rewrite nwrite_index by done. f_equal.
    + apply map_ext_in. intros k Hk. apply list_elem_of_In, elem_of_zseq in Hk.
      pose proof (mod_size_range (pi_nread p + k)). pose proof (mod_size_range (pi_nread p + pipe_count p)).
      apply zget_zput_ne; [lia|lia|]. clear H5. unfold pipe_count in *.
      generalize dependent (u32 (pi_nwrite p - pi_nread p)). intros. pipe_lia.
    + rewrite Z.add_0_l, Z2Nat.id by lia. f_equal.
      pose proof (mod_size_range (pi_nread p + pipe_count p)).
      apply zget_zput_eq. rewrite H1. change PIPESIZE with 512 in *. lia.
Qed.

Lemma pipe_pop_ok p c q :
  pipe_ok p -> pipe_q p = c :: q ->
  zget (pi_data p) (pi_nread p mod PIPESIZE) = c /\ byte_ok c /\
  pipe_ok (pipe_pop p) /\ pipe_q (pipe_pop p) = q.
Proof.
  intros Hok Hq. pose proof Hok as [H1 H2 H3 H4 H5]. pose proof (pipe_count_range p) as H0.
  assert (Hpos : pipe_count p = Z.of_nat (length q) + 1).
  { pose proof (length_pipe_q p) as E. rewrite Hq in E. simpl in E. lia. }
  unfold pipe_q in Hq. rewrite Hpos in Hq.
  replace (Z.to_nat (Z.of_nat (length q) + 1)) with (S (length q)) in Hq by lia.
  unfold zseq in Hq. cbn [seq map] in Hq. injection Hq as Hc Hq. replace (pi_nread p + (0 + Z.of_nat 0)) with (pi_nread p) in Hc by lia.
  assert (Hcount : pipe_count (pipe_pop p) = pipe_count p - 1).
  { unfold pipe_count in *. cbn. pipe_lia. }
  split; [done|]. split.
  { rewrite <-Hc. rewrite Forall_lookup in H2. unfold zget. pose proof (mod_size_range (pi_nread p)) as Hm.
    destruct (lookup_lt_is_Some_2 (pi_data p) (Z.to_nat (pi_nread p mod PIPESIZE))) as [x Hx].
    { rewrite H1. change PIPESIZE with 512 in *. lia. }
    rewrite Hx. by eapply H2. }
  split.
  - split; cbn; try done; [apply u32_range|]. change (pipe_count (pipe_pop p) <= PIPESIZE).
    unfold pipe_count in *. lia.
  - unfold pipe_q. rewrite Hcount, Hpos. replace (Z.to_nat (Z.of_nat (length q) + 1 - 1)) with (length q) by lia.
    etransitivity; [|exact Hq]. unfold zseq. rewrite <-seq_shift, !map_map. apply map_ext. intros k.
    cbn [pi_data pi_nread pipe_pop pi_set_nread]. f_equal.
    rewrite <-(u32_mod_size (u32 _ + _)), <-(u32_mod_size (pi_nread p + _)). f_equal.
    unfold u32. rewrite Z.add_mod_idemp_l by done. f_equal. lia.
Qed.

(** * The operations *)

Lemma alter_as_insert (m : gmap Z pipe) i f x : m !! i = Some x -> alter f i m = <[i := f x]> m.
Proof.
  intros Hx. apply map_eq. intros j. destruct (decide (j = i)) as [->|Hne].
  - by rewrite lookup_alter_eq, lookup_insert_eq, Hx.
  - by rewrite lookup_alter_ne, lookup_insert_ne.
Qed.

Lemma get_pipe_run pi p s : k_pipes s !! pi = Some p -> get_pipe pi s = Ok p s.
Proof. intros Hp. unfold get_pipe. by rewrite Hp. Qed.

Lemma upd_pipe_run pi f p s :
  k_pipes s !! pi = Some p -> upd_pipe pi f s = Ok tt (set_pipes (<[pi := f p]>) s).
Proof. intros Hp. unfold upd_pipe, modify, set_pipes. by rewrite (alter_as_insert _ _ f p). Qed.

Lemma killed_run s p pr : thread_ok s p pr -> killed p s = Ok (p_killed pr) s.
Proof.
  intros [Hok Hp Hpr Hlen Hf]. unfold killed. erewrite bind_ok by (apply acquire_run; by split).
  erewrite bind_ok by (apply get_proc_ok; exact Hpr).
  erewrite bind_ok by (by apply (release_locked (LProc p) _ (k_hart s))). done.
Qed.

(** a process that can use the pipe at [pi], on the user memory of [root] *)
Record pipe_user (s : kstate) (p : nat) (pr : proc) (root : Z) (F : list Z) (pi : Z) (pp : pipe) : Prop := {
  pu_thread : thread_ok s p pr;
  pu_table : p_pagetable pr = root;
  pu_user : user_ok (k_img s) (k_mem s) root F;
  pu_pipe : k_pipes s !! pi = Some pp;
  pu_ok : pipe_ok pp
}.

Lemma pipe_user_set s p pr root F pi pp pp' :
  pipe_user s p pr root F pi pp -> pipe_ok pp' ->
  pipe_user (set_pipes (<[pi := pp']>) s) p pr root F pi pp'.
Proof.
  intros [[T1 T2 T3 T4 T5] H3 H4 H5 H6] Hok. split; try done.
  ksimp. apply lookup_insert_eq.
Qed.

Lemma pipe_user_mem s p pr root F pi pp m' :
  pipe_user s p pr root F pi pp -> user_ok (k_img s) m' root F ->
  pipe_user (set_mem (fun _ => m') s) p pr root F pi pp.
Proof. intros [[T1 T2 T3 T4 T5] H3 H4 H5 H6] Hm. split; try done. Qed.

(** with the lock of the pipe taken *)
Lemma pipe_user_lock s p pr root F pi pp :
  pipe_user s p pr root F pi pp -> pipe_user (set_hart (hart_lock (LPipe pi)) s) p pr root F pi pp.
Proof.
  intros [[T1 T2 T3 T4 T5] H3 H4 H5 H6]. split; try done. split; try done.
  - by apply hart_lock_ok.
  - intros i. ksimp. rewrite hart_lock_locks, lookup_insert_ne; [apply T5|done].
Qed.

Lemma ubyte_ok m root v : byte_ok (ubyte m root v).
Proof. apply ldb_range. Qed.

Section one_pipe.
Context (p : nat) (pr : proc) (root : Z) (F : list Z) (pi : Z).

(** ** pipewrite *)

Lemma pipewrite_step s pp addr n i :
  pipe_user s p pr root F pi pp -> p_killed pr = 0 -> pi_readopen pp <> 0 -> pipe_count pp < PIPESIZE ->
  0 <= addr -> addr + n <= MAXVA -> 0 <= i < n ->
  (forall v, addr <= v < addr + n -> umapped (k_mem s) root v) ->
  pipewrite_body pi addr n p i s =
  Ok (inl (i + 1)) (set_pipes (<[pi := pipe_push pp (ubyte (k_mem s) root (addr + i))]>) s).
Proof.
  intros [H1 H3 H4 H5 H6] H2 Hro Hroom Ha Hend Hi Hm. unfold pipewrite_body.
  destruct (Z.ltb_spec i n); [|lia]. cbn [negb].
  erewrite bind_ok by (by apply get_pipe_run). destruct (Z.eqb_spec (pi_readopen pp) 0); [done|].
  erewrite bind_ok by (by eapply killed_run). rewrite H2. change (nz 0) with false. cbv iota.
  rewrite pipe_full_test by done. destruct (Z.eqb_spec (pipe_count pp) PIPESIZE); [lia|].
  erewrite bind_ok by (apply get_proc_ok; apply (to_pr _ _ _ H1)). rewrite H3.
  assert (Hu : u64 (addr + i) = addr + i).
  { apply u64_small. change MAXVA with 274877906944 in *. lia. }
  erewrite bind_ok.
  2: { unfold copyin. rewrite Hu.
       rewrite (copyin_loop _ s root F [] (addr + i) 1); [reflexivity|done|lia|lia|lia| |].
       - intros v Hv. apply Hm. lia.
       - change (Z.to_nat 1) with 1%nat. lia. }
  cbn [fst snd app]. change (0 =? -1) with false. cbv iota.
  erewrite bind_ok by (by apply upd_pipe_run). unfold ret. do 2 f_equal.
  change (Z.to_nat 1) with 1%nat. unfold ubytes, pipe_push. cbn [seq map fmap list_fmap].
  change (zget [ubyte (k_mem s) root (addr + i + Z.of_nat 0)] 0) with
    (ubyte (k_mem s) root (addr + i + Z.of_nat 0)).
  by rewrite Z.add_0_r.
Qed.

(** as many rounds as there is room for *)
Lemma pipewrite_fill addr n j fuel : forall s pp i,
  pipe_user s p pr root F pi pp -> p_killed pr = 0 -> pi_readopen pp <> 0 ->
  pipe_count pp + Z.of_nat j <= PIPESIZE ->
  0 <= addr -> addr + n <= MAXVA -> 0 <= i -> i + Z.of_nat j <= n ->
  (forall v, addr <= v < addr + n -> umapped (k_mem s) root v) ->
  exists pp', whileM (j + fuel) (pipewrite_body pi addr n p) i s =
      whileM fuel (pipewrite_body pi addr n p) (i + Z.of_nat j) (set_pipes (<[pi := pp']>) s) /\ pipe_ok pp' /\
    pipe_q pp' = pipe_q pp ++ ubytes (k_mem s) root (addr + i) j /\
    pi_readopen pp' = pi_readopen pp /\ pi_writeopen pp' = pi_writeopen pp.
Proof.
  induction j as [|j IH]; intros s pp i Hu Hk Hro Hroom Ha Hend Hi Hj Hm.
  - exists pp. split; [|split; [apply Hu|by rewrite app_nil_r]].
    rewrite Z.add_0_r. f_equal. unfold set_pipes. rewrite insert_id by apply Hu. done.
  - cbn [Nat.add]. erewrite whileM_step by (apply (pipewrite_step s pp); (done || lia)).
    set (c := ubyte _ _ _). set (s1 := set_pipes _ s).
    destruct (pipe_push_ok pp c) as [Hok1 Hq1]; [apply Hu|apply ubyte_ok|lia|].
    assert (Hc1 : pipe_count (pipe_push pp c) = pipe_count pp + 1).
    { pose proof (length_pipe_q (pipe_push pp c)) as E. rewrite Hq1, length_app, length_pipe_q in E.
      simpl in E. pose proof (pipe_count_range pp). pose proof (pipe_count_range (pipe_push pp c)). lia. }
    destruct (IH s1 (pipe_push pp c) (i + 1)) as (pp' & E & Hok' & Hq' & Ho1 & Ho2);
      [by eapply pipe_user_set|done|done|lia|done|done|lia|lia|done|].
    exists pp'. split; [|split; [done|split; [|done]]].
    + rewrite E. unfold s1. f_equal; [lia|]. unfold set_pipes. cbn. by rewrite insert_insert_eq.
    + rewrite Hq', Hq1, <-app_assoc. f_equal. unfold ubytes. cbn [seq app fmap list_fmap].
      cbn [map]. f_equal; [unfold c; f_equal; lia|]. rewrite <-seq_shift, map_map. apply map_ext.
      intros k. change (k_mem s1) with (k_mem s). f_equal. lia.
Qed.

(** the rest of the loop when there is room for it *)
Lemma pipewrite_loop addr n j s pp i fuel :
  pipe_user s p pr root F pi pp -> p_killed pr = 0 -> pi_readopen pp <> 0 ->
  pipe_count pp + Z.of_nat j <= PIPESIZE ->
  0 <= addr -> addr + n <= MAXVA -> 0 <= i -> i + Z.of_nat j = n -> (j < fuel)%nat ->
  (forall v, addr <= v < addr + n -> umapped (k_mem s) root v) ->
  exists pp', whileM fuel (pipewrite_body pi addr n p) i s =
      Ok (n, false) (set_pipes (<[pi := pp']>) s) /\ pipe_ok pp' /\
    pipe_q pp' = pipe_q pp ++ ubytes (k_mem s) root (addr + i) j /\
    pi_readopen pp' = pi_readopen pp /\ pi_writeopen pp' = pi_writeopen pp.
Proof.
  intros Hu Hk Hro Hroom Ha Hend Hi Hj Hf Hm. replace fuel with (j + S (fuel - j - 1))%nat by lia.
  destruct (pipewrite_fill addr n j (S (fuel - j - 1)) s pp i) as (pp' & E & H); [done..|lia|done|].
  exists pp'. split; [|done]. rewrite E, Hj. apply whileM_stop. unfold pipewrite_body. by rewrite Z.ltb_irrefl.
Qed.

Lemma thread_procs s pp : pipe_user s p pr root F pi pp -> procs_ok s.
Proof. intros [[T1 T2 T3 T4 T5] _ _ _ _]. by split. Qed.

(** the end of pipewrite, from inside the section of the pipe *)
Lemma pipewrite_finish s pp h addr n i j fuel :
  k_hart s = hart_lock (LPipe pi) h -> hart_ok h -> h_proc h = Some p -> h_locks h !! LPipe pi = None ->
  pipe_user s p pr root F pi pp -> p_killed pr = 0 -> pi_readopen pp <> 0 -> pipe_count pp + Z.of_nat j <= PIPESIZE ->
  0 <= addr -> addr + n <= MAXVA -> 0 <= i -> i + Z.of_nat j = n -> (j < fuel)%nat ->
  (forall v, addr <= v < addr + n -> umapped (k_mem s) root v) ->
  exists pp', (let! ' (i, early) := whileM fuel (pipewrite_body pi addr n p) i in
      if (early : bool) then ret i else wakeup (ChPipeR pi) ;; release (LPipe pi) ;; ret i) s =
      Ok n (set_hart (fun _ => h) (set_procs (imap (wake (ChPipeR pi) (Some p))) (set_pipes (<[pi := pp']>) s))) /\
    pipe_ok pp' /\ pipe_q pp' = pipe_q pp ++ ubytes (k_mem s) root (addr + i) j /\
    pi_readopen pp' = pi_readopen pp /\ pi_writeopen pp' = pi_writeopen pp.
Proof.
  intros Hh Hok Hp Hl Hu Hk Hro Hroom Ha Hend Hi Hj Hf Hm.
  destruct (pipewrite_loop addr n j s pp i fuel) as (pp' & E & Hok' & Hq' & Ho); [done..|].
  exists pp'. split; [|done]. erewrite bind_ok by exact E. set (s1 := set_pipes _ s).
  assert (Hu1 : pipe_user s1 p pr root F pi pp') by (by eapply pipe_user_set). cbv iota beta.
  erewrite bind_ok by (apply wakeup_run; by eapply thread_procs).
  erewrite bind_ok by (by apply (release_locked (LPipe pi) _ h)).
  unfold ret. f_equal. change (h_proc (k_hart s1)) with (h_proc (k_hart s)). rewrite Hh.
  change (h_proc (hart_lock (LPipe pi) h)) with (h_proc h). by rewrite Hp.
Qed.

Lemma pipewrite_run s pp addr n :
  pipe_user s p pr root F pi pp -> p_killed pr = 0 -> h_locks (k_hart s) !! LPipe pi = None ->
  pi_readopen pp <> 0 -> 0 <= n -> pipe_count pp + n <= PIPESIZE ->
  0 <= addr -> addr + n <= MAXVA ->
  (forall v, addr <= v < addr + n -> umapped (k_mem s) root v) ->
  exists pp', pipewrite pi addr n s =
      Ok n (set_procs (imap (wake (ChPipeR pi) (Some p))) (set_pipes (<[pi := pp']>) s)) /\
    pipe_ok pp' /\ pipe_q pp' = pipe_q pp ++ ubytes (k_mem s) root addr (Z.to_nat n) /\
    pi_readopen pp' = pi_readopen pp /\ pi_writeopen pp' = pi_writeopen pp.
Proof.
  intros Hu Hk Hl Hro Hn Hroom Ha Hend Hm. pose proof (pu_thread _ _ _ _ _ _ _ Hu) as [T1 T2 T3 T4 T5].
  unfold pipewrite. erewrite bind_ok by (by apply myproc_deref_run).
  erewrite bind_ok by (apply acquire_run; by split). set (s0 := set_hart _ s).
  destruct (pipewrite_finish s0 pp (k_hart s) addr n 0 (Z.to_nat n) (Z.to_nat n + WAKEUPS)) as (pp' & E & Hok' & Hq' & Ho);
    [done|done|done|done|by apply pipe_user_lock|done|done|lia|done|done|lia|lia| |done|].
  { destruct WAKEUPS_S as [w ->]. lia. }
  exists pp'. split; [exact E|]. rewrite Z.add_0_r in Hq'. done.
Qed.

(** a write of nothing *)
Lemma pipewrite_zero s pp addr :
  pipe_user s p pr root F pi pp -> h_locks (k_hart s) !! LPipe pi = None ->
  pipewrite pi addr 0 s = Ok 0 (set_procs (imap (wake (ChPipeR pi) (Some p))) s).
Proof.
  intros Hu Hl. pose proof (pu_thread _ _ _ _ _ _ _ Hu) as [T1 T2 T3 T4 T5].
  unfold pipewrite. erewrite bind_ok by (by apply myproc_deref_run).
  erewrite bind_ok by (apply acquire_run; by split). destruct WAKEUPS_S as [w ->]. erewrite bind_ok by (by apply whileM_stop).
  pose proof (pipe_user_lock _ _ _ _ _ _ _ Hu) as Hu0. cbv iota beta.
  erewrite bind_ok by (apply wakeup_run; by eapply thread_procs).
  erewrite bind_ok by (by apply (release_locked (LPipe pi) _ (k_hart s))).
  unfold ret. f_equal. change (h_proc (k_hart (set_hart (hart_lock (LPipe pi)) s))) with (h_proc (k_hart s)). by rewrite T2.
Qed.

(** without a reader, or killed, the writer gives up at once *)
Lemma pipewrite_dead s pp addr n :
  pipe_user s p pr root F pi pp -> h_locks (k_hart s) !! LPipe pi = None -> 0 < n ->
  pi_readopen pp = 0 \/ p_killed pr <> 0 -> pipewrite pi addr n s = Ok (-1) s.
Proof.
  intros Hu Hl Hn Hd. pose proof (pu_thread _ _ _ _ _ _ _ Hu) as [T1 T2 T3 T4 T5].
  unfold pipewrite. erewrite bind_ok by (by apply myproc_deref_run).
  erewrite bind_ok by (apply acquire_run; by split). set (s0 := set_hart _ s).
  pose proof (pipe_user_lock _ _ _ _ _ _ _ Hu) as Hu0. fold s0 in Hu0.
  erewrite bind_ok.
  2: { replace (Z.to_nat n + WAKEUPS)%nat with (S (Z.to_nat n - 1 + WAKEUPS)) by lia. apply (whileM_stop _ _ _ (-1, true) _ s).
       unfold pipewrite_body. destruct (Z.ltb_spec 0 n); [|lia]. cbn [negb]. erewrite bind_ok by (apply get_pipe_run; apply Hu0).
       erewrite bind_ok.
       2: { instantiate (2 := if pi_readopen pp =? 0 then 1 else p_killed pr). instantiate (1 := s0).
            destruct (pi_readopen pp =? 0); [done|]. eapply killed_run, Hu0. }
       rewrite (proj2 (nz_true _)); [|destruct (Z.eqb_spec (pi_readopen pp) 0); [done|by destruct Hd]].
       by erewrite bind_ok by (by apply (release_locked (LPipe pi) _ (k_hart s))). }
  done.
Qed.

(** ** A writer that finds the pipe full *)

(** the process asleep until there is room *)
Definition write_wait (h : hart) (s : kstate) : kstate :=
  set_hart (fun _ => hart_lock (LProc p) h)
    (upd_proc p (fun q => p_set_state (fun _ => SLEEPING) (p_set_chan (fun _ => ChPipeW pi) q))
       (set_procs (imap (wake (ChPipeR pi) (Some p))) s)).

Lemma pipewrite_full_step s pp addr n i h :
  k_hart s = hart_lock (LPipe pi) h -> hart_ok h -> h_noff h = 0 -> h_proc h = Some p ->
  h_locks h !! LPipe pi = None -> h_locks h !! LProc p = None ->
  pipe_user s p pr root F pi pp -> p_killed pr = 0 -> pi_readopen pp <> 0 -> pipe_count pp = PIPESIZE -> i < n ->
  exists k, pipewrite_body pi addr n p i s = Susp (write_wait h s) k /\
    forall s2 h2, k_hart s2 = hart_lock (LProc p) h2 -> hart_ok h2 -> h_noff h2 = 0 ->
      h_locks h2 !! LPipe pi = None -> h_locks h2 !! LProc p = None ->
      k s2 = Ok (inl i) (set_hart (fun _ => hart_lock (LPipe pi) (resume_hart (h_intr h) h2))
                           (upd_proc p (p_set_chan (fun _ => ChNull)) s2)).
Proof.
  intros Hh Hok Hn Hp Hl Hlp Hu Hk Hro Hfull Hi. unfold pipewrite_body. destruct (Z.ltb_spec i n); [|lia]. cbn [negb].
  erewrite bind_ok by (apply get_pipe_run; apply Hu). destruct (Z.eqb_spec (pi_readopen pp) 0); [done|].
  erewrite bind_ok by (eapply killed_run; apply Hu). rewrite Hk. change (nz 0) with false. cbv iota.
  rewrite pipe_full_test by apply Hu. rewrite (proj2 (Z.eqb_eq _ _) Hfull).
  erewrite bind_ok by (apply wakeup_run; by eapply thread_procs).
  assert (h_proc (k_hart s) = Some p) as -> by (by rewrite Hh).
  destruct (sleep_run (ChPipeW pi) (LPipe pi) p (set_procs (imap (wake (ChPipeR pi) (Some p))) s) h) as (k & E & Hres); [done..| |].
  { ksimp. rewrite list_lookup_imap, (to_pr _ _ _ (pu_thread _ _ _ _ _ _ _ Hu)). by eexists. }
  unfold bind at 1. rewrite E. cbn [rbind]. eexists. split; [reflexivity|].
  intros s2 h2 E1 E2 E3 E4 E5. cbv beta. by rewrite (Hres s2 h2).
Qed.
End one_pipe.

Section blocked_writer.
Context (p : nat) (pr : proc) (root : Z) (F : list Z) (pi : Z).

(** A write of more than there is room for fills the pipe, wakes the readers
    and sleeps; resumed with room for the rest, it writes the rest. *)
Lemma pipewrite_blocks s pp addr n :
  pipe_user s p pr root F pi pp -> p_killed pr = 0 -> h_locks (k_hart s) !! LPipe pi = None -> h_noff (k_hart s) = 0 ->
  pi_readopen pp <> 0 -> PIPESIZE < pipe_count pp + n -> 0 <= addr -> addr + n <= MAXVA ->
  (forall v, addr <= v < addr + n -> umapped (k_mem s) root v) ->
  let j := PIPESIZE - pipe_count pp in
  exists pp' k, pipewrite pi addr n s = Susp (write_wait p pi (k_hart s) (set_pipes (<[pi := pp']>) s)) k /\
    pipe_ok pp' /\ pipe_q pp' = pipe_q pp ++ ubytes (k_mem s) root addr (Z.to_nat j) /\
    pi_readopen pp' = pi_readopen pp /\ pi_writeopen pp' = pi_writeopen pp /\
    forall s2 h2 pr2 F2 pp2, k_hart s2 = hart_lock (LProc p) h2 -> h_noff h2 = 0 -> h_locks h2 !! LPipe pi = None ->
      pipe_user (set_hart (fun _ => h2) s2) p pr2 root F2 pi pp2 -> p_killed pr2 = 0 -> pi_readopen pp2 <> 0 ->
      pipe_count pp2 + (n - j) <= PIPESIZE -> (forall v, addr <= v < addr + n -> umapped (k_mem s2) root v) ->
      exists pp3, k s2 = Ok n (set_procs (imap (wake (ChPipeR pi) (Some p))) (set_pipes (<[pi := pp3]>)
          (upd_proc p (p_set_chan (fun _ => ChNull)) (set_hart (fun _ => resume_hart (h_intr (k_hart s)) h2) s2)))) /\
        pipe_ok pp3 /\ pipe_q pp3 = pipe_q pp2 ++ ubytes (k_mem s2) root (addr + j) (Z.to_nat (n - j)) /\
        pi_readopen pp3 = pi_readopen pp2 /\ pi_writeopen pp3 = pi_writeopen pp2.
Proof.
  intros Hu Hk Hl Hn0 Hro Hroom Ha Hend Hm j. pose proof (pu_thread _ _ _ _ _ _ _ Hu) as [T1 T2 T3 T4 T5].
  pose proof (pk_count _ (pu_ok _ _ _ _ _ _ _ Hu)) as Hc. fold (pipe_count pp) in Hc. pose proof (pipe_count_range pp) as Hc0.
  assert (exists w, WAKEUPS = S (S w)) as [w Ew] by (exists (Nat.pred (Nat.pred WAKEUPS)); vm_compute; reflexivity).
  unfold pipewrite. erewrite bind_ok by (by apply myproc_deref_run).
  erewrite bind_ok by (apply acquire_run; by split). set (s0 := set_hart _ s).
  pose proof (pipe_user_lock _ _ _ _ _ _ _ Hu) as Hu0. fold s0 in Hu0.
  set (fuel := (Z.to_nat (n - j) + S w)%nat). replace (Z.to_nat n + WAKEUPS)%nat with (Z.to_nat j + S fuel)%nat by (unfold fuel, j; lia).
  destruct (pipewrite_fill p pr root F pi addr n (Z.to_nat j) (S fuel) s0 pp 0) as (pp' & E & Hok' & Hq' & Ho1 & Ho2);
    [done|done|done|unfold j; lia|done|done|lia|unfold j; lia|done|].
  set (s1 := set_pipes _ s0) in E. assert (Hu1 : pipe_user s1 p pr root F pi pp') by (by eapply pipe_user_set).
  destruct (pipewrite_full_step p pr root F pi s1 pp' addr n j (k_hart s)) as (k & Ek & Hres); try done; [by rewrite Ho1| |unfold j; lia|].
  { pose proof (length_pipe_q pp') as El. rewrite Hq', length_app, length_pipe_q in El. unfold ubytes in El. rewrite length_map, length_seq in El.
    pose proof (pipe_count_range pp'). unfold j in El. lia. }
  exists pp'. eexists. split.
  { unfold bind at 1. rewrite E. replace (0 + Z.of_nat (Z.to_nat j)) with j by (unfold j; lia). cbn [whileM]. unfold bind at 1.
    rewrite Ek. cbn [rbind]. reflexivity. }
  split; [done|]. split; [by rewrite Z.add_0_r in Hq'|]. split; [done|]. split; [done|].
  intros s2 h2 pr2 F2 pp2 Hh2 Hn2 Hl2 Hu2 Hk2 Hro2 Hroom2 Hm2. pose proof (pu_thread _ _ _ _ _ _ _ Hu2) as [V1 V2 V3 V4 V5].
  rewrite (Hres s2 h2); [|done|exact V1|done|done|apply V5]. cbn [rbind]. set (h3 := resume_hart _ h2). set (s3 := set_hart _ _).
  assert (hart_ok h3) as Hok3 by apply resume_hart_ok, h_intr_01.
  destruct (pipewrite_finish p (p_set_chan (fun _ => ChNull) pr2) root F2 pi s3 pp2 h3 addr n j (Z.to_nat (n - j)) fuel)
    as (pp3 & E3 & Hok3' & Hq3 & Ho3); try done; try (unfold fuel, j in *; lia).
  - apply (pipe_user_lock (set_hart (fun _ => h3) (upd_proc p (p_set_chan (fun _ => ChNull)) s2))).
    destruct Hu2 as [_ U1 U2 U3 U4]. split; try done. split; try done.
    + ksimp. change (k_procs s2 !! p = Some pr2) in V3. by rewrite list_lookup_alter_eq, V3.
    + ksimp. by rewrite length_alter.
  - exists pp3. split; [|done]. exact E3.
Qed.
End blocked_writer.

Section one_pipe.
Context (p : nat) (pr : proc) (root : Z) (F : list Z) (pi : Z).

(** ** piperead *)

Lemma piperead_step s pp addr n i c q :
  pipe_user s p pr root F pi pp -> pipe_q pp = c :: q ->
  0 <= addr -> addr + n <= MAXVA -> 0 <= i < n ->
  (forall v, addr <= v < addr + n -> uwritable (k_mem s) root v) ->
  exists m', piperead_body pi addr n p i s =
      Ok (inl (i + 1)) (set_pipes (<[pi := pipe_pop pp]>) (set_mem (fun _ => m') s)) /\
    user_ok (k_img s) m' root F /\
    (forall v, pte_at m' root v = pte_at (k_mem s) root v) /\
    (forall v, 0 <= v < MAXVA -> umapped (k_mem s) root v ->
       ubyte m' root v = if v =? addr + i then c else ubyte (k_mem s) root v).
Proof.
  intros [H1 H3 H4 H5 H6] Hq Ha Hend Hi Hw. unfold piperead_body.
  destruct (Z.ltb_spec i n); [|lia]. cbn [negb].
  erewrite bind_ok by (by apply get_pipe_run). rewrite pipe_empty_test by done.
  destruct (Z.eqb_spec (pipe_count pp) 0) as [E0|_].
  { pose proof (length_pipe_q pp) as E. rewrite Hq, E0 in E. done. }
  cbv zeta.
  destruct (pipe_pop_ok pp c q H6 Hq) as (Hc & Hb & Hok' & Hq').
  erewrite bind_ok by (apply get_proc_ok; apply (to_pr _ _ _ H1)). rewrite H3, Hc.
  assert (Hu : u64 (addr + i) = addr + i).
  { apply u64_small. change MAXVA with 274877906944 in *. lia. }
  rewrite Hu. destruct (copyout_loop (length [c] + 2) s root F (addr + i) [c]) as (m' & E & Hm1 & Hm2 & Hm3 & _);
    [done|by apply Forall_singleton|lia|simpl; lia| |lia|].
  { intros v Hv. apply Hw. simpl in Hv. lia. }
  exists m'. split; [|split; [done|split; [done|]]].
  - erewrite bind_ok by exact E. change (0 =? -1) with false. cbv iota.
    erewrite bind_ok by (by apply upd_pipe_run). done.
  - intros v Hv Hmv. rewrite Hm3 by done. cbn [length].
    destruct (Z.eqb_spec v (addr + i)) as [->|Hne].
    + destruct (Z.leb_spec (addr + i) (addr + i)), (Z.ltb_spec (addr + i) (addr + i + Z.of_nat 1)); try lia.
      cbn [andb]. by rewrite Z.sub_diag.
    + destruct (Z.leb_spec (addr + i) v), (Z.ltb_spec v (addr + i + Z.of_nat 1)); try lia; done.
Qed.

Lemma piperead_stop s pp addr n i :
  pipe_user s p pr root F pi pp -> i = n \/ pipe_q pp = [] ->
  piperead_body pi addr n p i s = Ok (inr i) s.
Proof.
  intros Hu Hs. unfold piperead_body. destruct (Z.ltb_spec i n); [|done]. cbn [negb].
  erewrite bind_ok by (apply get_pipe_run; apply Hu). rewrite pipe_empty_test by apply Hu.
  destruct Hs as [Hs|Hs]; [lia|]. pose proof (length_pipe_q pp) as E. rewrite Hs in E.
  pose proof (pipe_count_range pp). simpl in E. destruct (Z.eqb_spec (pipe_count pp) 0); [done|lia].
Qed.

(** what reading [k] bytes of [q] to [a] does to user memory *)
Definition read_into (m m' : mem) (a k : Z) (q : list Z) : Prop :=
  forall v, 0 <= v < MAXVA -> umapped m root v ->
    ubyte m' root v = if (a <=? v) && (v <? a + k) then zget q (v - a) else ubyte m root v.

Lemma read_into_none m a q : read_into m m a 0 q.
Proof.
  intros v _ _. destruct (Z.leb_spec a v), (Z.ltb_spec v (a + 0)); try lia; done.
Qed.

Lemma read_into_cons m m1 m2 a k c q :
  (forall v, pte_at m1 root v = pte_at m root v) -> 0 <= k ->
  (forall v, 0 <= v < MAXVA -> umapped m root v ->
     ubyte m1 root v = if v =? a then c else ubyte m root v) ->
  read_into m1 m2 (a + 1) k q -> read_into m m2 a (k + 1) (c :: q).
Proof.
  intros Hp Hk H1 H2 v Hv Hm. rewrite H2; [|done|unfold umapped; by rewrite Hp]. rewrite H1 by done.
  destruct (Z.leb_spec (a + 1) v), (Z.ltb_spec v (a + 1 + k)), (Z.leb_spec a v), (Z.ltb_spec v (a + (k + 1))),
    (Z.eqb_spec v a); try lia; cbn [andb]; try done.
  - unfold zget. replace (Z.to_nat (v - a)) with (S (Z.to_nat (v - (a + 1)))) by lia. done.
  - subst v. by rewrite Z.sub_diag.
Qed.

Lemma piperead_loop addr n q : forall s pp i fuel,
  pipe_user s p pr root F pi pp -> pipe_q pp = q ->
  0 <= addr -> addr + n <= MAXVA -> 0 <= i <= n -> n - i < Z.of_nat fuel ->
  (forall v, addr <= v < addr + n -> uwritable (k_mem s) root v) ->
  let k := Z.min (n - i) (Z.of_nat (length q)) in
  exists m' pp', whileM fuel (piperead_body pi addr n p) i s =
      Ok (i + k) (set_pipes (<[pi := pp']>) (set_mem (fun _ => m') s)) /\
    pipe_user (set_pipes (<[pi := pp']>) (set_mem (fun _ => m') s)) p pr root F pi pp' /\
    pipe_q pp' = drop (Z.to_nat k) q /\ read_into (k_mem s) m' (addr + i) k q.
Proof.
  induction q as [|c q IH]; intros s pp i fuel Hu Hq Ha Hend Hi Hf Hw k;
    (destruct fuel as [|fuel]; [lia|]).
  all: destruct (decide (k = 0)) as [Hk|Hk].
  1, 3: exists (k_mem s), pp; rewrite Hk, Z.add_0_r; split_and!;
    [ erewrite whileM_stop by (apply (piperead_stop _ pp); [done|]; unfold k in Hk; simpl in Hk; auto with lia);
      unfold set_pipes; rewrite insert_id by apply Hu; reflexivity
    | eapply (pipe_user_set _ _ _ _ _ _ pp); [apply pipe_user_mem; [done|apply Hu]|apply Hu]
    | done
    | apply read_into_none ].
  { unfold k in Hk. simpl in Hk. lia. }
  destruct (piperead_step s pp addr n i c q Hu Hq Ha Hend) as (m1 & E1 & Hm1 & Hp1 & Hb1); [unfold k in Hk; lia|done|].
  erewrite whileM_step by exact E1. set (s1 := set_pipes _ _).
  destruct (pipe_pop_ok pp c q (pu_ok _ _ _ _ _ _ _ Hu) Hq) as (_ & _ & Hok1 & Hq1).
  destruct (IH s1 (pipe_pop pp) (i + 1) fuel) as (m2 & pp2 & E2 & Hu2 & Hq2 & Hb2).
  - apply (pipe_user_set _ _ _ _ _ _ pp); [|done]. by apply pipe_user_mem.
  - done.
  - done.
  - done.
  - unfold k in Hk. lia.
  - lia.
  - intros v Hv. unfold uwritable, umapped. change (k_mem s1) with m1. rewrite Hp1. by apply Hw.
  - set (k' := Z.min (n - (i + 1)) (Z.of_nat (length q))) in *.
    assert (Hkk : k = k' + 1) by (unfold k, k' in *; simpl in *; lia).
    assert (Hs2 : set_pipes (<[pi:=pp2]>) (set_mem (fun _ => m2) s1) =
                  set_pipes (<[pi:=pp2]>) (set_mem (fun _ => m2) s)).
    { unfold s1, set_pipes, set_mem. cbn. by rewrite insert_insert_eq. }
    rewrite Hs2 in E2, Hu2. exists m2, pp2. split_and!.
    + rewrite E2. f_equal. lia.
    + done.
    + rewrite Hq2, Hkk. replace (Z.to_nat (k' + 1)) with (S (Z.to_nat k')) by lia. done.
    + rewrite Hkk. apply (read_into_cons _ m1); [done|unfold k'; lia| |].
      * intros v Hv Hmv. by apply Hb1.
      * by rewrite <-Z.add_assoc.
Qed.

Lemma piperead_run s pp addr n :
  pipe_user s p pr root F pi pp -> h_locks (k_hart s) !! LPipe pi = None ->
  pipe_q pp <> [] \/ pi_writeopen pp = 0 -> 0 <= n ->
  0 <= addr -> addr + n <= MAXVA ->
  (forall v, addr <= v < addr + n -> uwritable (k_mem s) root v) ->
  let k := Z.min n (Z.of_nat (length (pipe_q pp))) in
  exists m' pp', piperead pi addr n s =
      Ok k (set_procs (imap (wake (ChPipeW pi) (Some p)))
              (set_pipes (<[pi := pp']>) (set_mem (fun _ => m') s))) /\
    pipe_ok pp' /\ pipe_q pp' = drop (Z.to_nat k) (pipe_q pp) /\
    user_ok (k_img s) m' root F /\ read_into (k_mem s) m' addr k (pipe_q pp).
Proof.
  intros Hu Hl Hne Hn Ha Hend Hw k. pose proof (pu_thread _ _ _ _ _ _ _ Hu) as [T1 T2 T3 T4 T5].
  unfold piperead. erewrite bind_ok by (by apply myproc_deref_run).
  erewrite bind_ok by (apply acquire_run; by split). set (s0 := set_hart _ s).
  pose proof (pipe_user_lock _ _ _ _ _ _ _ Hu) as Hu0. fold s0 in Hu0.
  assert (Ew : piperead_wait pi p s0 = Ok false s0).
  { unfold piperead_wait. destruct WAKEUPS_S as [w ->]. apply whileM_stop.
    erewrite bind_ok by (apply get_pipe_run; apply Hu0). rewrite pipe_empty_test by apply Hu.
    pose proof (length_pipe_q pp) as E. pose proof (pipe_count_range pp).
    destruct Hne as [Hne|Hne].
    - destruct (Z.eqb_spec (pipe_count pp) 0) as [E0|_]; [|done].
      rewrite E0 in E. by apply nil_length_inv in E.
    - rewrite Hne. change (nz 0) with false. by rewrite andb_false_r. }
  erewrite bind_ok by exact Ew. cbv iota.
  destruct (piperead_loop addr n (pipe_q pp) s0 pp 0 (Z.to_nat n + 1)) as (m' & pp' & E & Hu' & Hq' & Hb');
    [done|done|done|done|lia|lia|done|].
  rewrite Z.add_0_l in E. rewrite Z.sub_0_r in E, Hq', Hb'. rewrite Z.add_0_r in Hb'.
  erewrite bind_ok by exact E. set (s1 := set_pipes _ _).
  erewrite bind_ok by (apply wakeup_run; by eapply thread_procs).
  erewrite bind_ok by (by apply (release_locked (LPipe pi) _ (k_hart s))).
  exists m', pp'. split; [|split; [apply Hu'|split; [exact Hq'|split; [apply Hu'|exact Hb']]]].
  unfold ret. f_equal. change (h_proc (k_hart s1)) with (h_proc (k_hart s)). rewrite T2. done.
Qed.
End one_pipe.

(** * Properties *)

(** pipewrite with enough room in the pipe returns [n] and appends the
    [n] bytes at [addr] of the caller's memory to the queue the ring buffer
    stands for, in order, whatever the values of the 32-bit counters; the
    readers are woken, and nothing else changes. *)
Theorem pipewrite_enqueues p pr root F pi s pp addr n :
  pipe_user s p pr root F pi pp -> p_killed pr = 0 -> h_locks (k_hart s) !! LPipe pi = None ->
  pi_readopen pp <> 0 -> 0 <= n -> pipe_count pp + n <= PIPESIZE ->
  0 <= addr -> addr + n <= MAXVA ->
  (forall v, addr <= v < addr + n -> umapped (k_mem s) root v) ->
  exists pp', pipewrite pi addr n s =
      Ok n (set_procs (imap (wake (ChPipeR pi) (Some p))) (set_pipes (<[pi := pp']>) s)) /\
    pipe_ok pp' /\ pipe_q pp' = pipe_q pp ++ ubytes (k_mem s) root addr (Z.to_nat n) /\
    pi_readopen pp' = pi_readopen pp /\ pi_writeopen pp' = pi_writeopen pp.
Proof. apply pipewrite_run. Qed.

(** piperead on a pipe that is not empty, or whose write end is closed,
    returns the number of bytes it moved, the smaller of [n] and what the
    pipe holds (0 is the end of file); the bytes moved are the first of the
    queue, in order, to [addr] of the caller's memory, every other user byte
    keeps its value, and the writers are woken. *)
Theorem piperead_dequeues p pr root F pi s pp addr n :
  pipe_user s p pr root F pi pp -> h_locks (k_hart s) !! LPipe pi = None ->
  pipe_q pp <> [] \/ pi_writeopen pp = 0 -> 0 <= n ->
  0 <= addr -> addr + n <= MAXVA ->
  (forall v, addr <= v < addr + n -> uwritable (k_mem s) root v) ->
  let k := Z.min n (Z.of_nat (length (pipe_q pp))) in
  exists m' pp', piperead pi addr n s =
      Ok k (set_procs (imap (wake (ChPipeW pi) (Some p)))
              (set_pipes (<[pi := pp']>) (set_mem (fun _ => m') s))) /\
    pipe_ok pp' /\ pipe_q pp' = drop (Z.to_nat k) (pipe_q pp) /\
    user_ok (k_img s) m' root F /\ read_into root (k_mem s) m' addr k (pipe_q pp).
Proof. apply piperead_run. Qed.

(** * The theorems at concrete states *)

(** a pipe holding one byte, whose counters are about to wrap *)
Definition demo_pipe : pipe :=
  mkpipe (replicate (Z.to_nat PIPESIZE) 7) (2 ^ 32 - 1) 0 1 1.

Lemma demo_pipe_ok : pipe_ok demo_pipe.
Proof.
  split.
  - apply length_replicate.
  - apply Forall_replicate. unfold byte_ok. lia.
  - cbn. lia.
  - cbn. lia.
  - vm_compute. discriminate.
Qed.

Lemma demo_pipe_user :
  exists s F pr, pipe_user s 0 pr demo_root F 0x310000 demo_pipe /\ p_killed pr = 0 /\
    h_locks (k_hart s) !! LPipe 0x310000 = None /\
    forall v, 0x1000 <= v < 0x2000 -> uwritable (k_mem s) demo_root v.
Proof.
  destruct demo_user_state as (s & F & Hi & Hu & Hw).
  set (pr := p_set_pagetable (fun _ => demo_root) proc0).
  exists (set_pipes (fun _ => {[ 0x310000 := demo_pipe ]})
    (set_mem (fun _ => k_mem s) (set_procs (<[0%nat := pr]>) (thread_state [])))), F, pr.
  split; [|split; [reflexivity|split; [reflexivity|exact Hw]]]. rewrite Hi in Hu. split.
  - split; try reflexivity. apply hart_ok_idle.
  - reflexivity.
  - exact Hu.
  - apply lookup_singleton_eq.
  - apply demo_pipe_ok.
Qed.

Lemma pipewrite_enqueues_witness : exists s s', pipewrite 0x310000 0x1000 3 s = Ok 3 s'.
Proof.
  destruct demo_pipe_user as (s & F & pr & Hu & Hk & Hl & Hw).
  destruct (pipewrite_enqueues 0 pr demo_root F 0x310000 s demo_pipe 0x1000 3 Hu Hk Hl) as (pp' & E & _).
  - discriminate.
  - lia.
  - vm_compute. discriminate.
  - lia.
  - vm_compute. discriminate.
  - intros v Hv. apply (Hw v). lia.
  - exists s. eexists. exact E.
Defined.

Lemma piperead_dequeues_witness : exists s s', piperead 0x310000 0x1000 3 s = Ok 1 s'.
Proof.
  destruct demo_pipe_user as (s & F & pr & Hu & _ & Hl & Hw).
  destruct (piperead_dequeues 0 pr demo_root F 0x310000 s demo_pipe 0x1000 3 Hu Hl) as (m' & pp' & E & _).
  - left. vm_compute. discriminate.
  - lia.
  - lia.
  - vm_compute. discriminate.
  - intros v Hv. apply (Hw v). lia.
  - exists s. eexists. exact E.
Defined.
