(* ===== verification/ProcLife.v ===== *)
(** kernel/proc.c, second part: the life of a process (allocproc, userinit,
    kfork, kexit, kwait, growproc) and kernel/exec.c.

    The trapframe is the page [p->trapframe] points to; its registers are
    read and written at the offsets of [struct trapframe]. *)

From stdpp Require Import base gmap strings numbers list.
From S2P Require Import Prelude KState KString Spinlock Printf Kalloc Vm ProcSync Log Fs File.

(** * Definitions *)

(** offsets in [struct trapframe] *)
Definition TF_kernel_satp : Z := 0.
Definition TF_kernel_sp : Z := 8.
Definition TF_kernel_trap : Z := 16.
Definition TF_epc : Z := 24.
Definition TF_kernel_hartid : Z := 32.
Definition TF_sp : Z := 48.
Definition TF_a (n : Z) : Z := 112 + 8 * n.
Definition SIZEOF_TRAPFRAME : Z := 288.

Definition tf_load (p : nat) (off : Z) : K Z :=
  let! pr := get_proc p in load64 (p_trapframe pr + off).
Definition tf_store (p : nat) (off x : Z) : K unit :=
  let! pr := get_proc p in store64 (p_trapframe pr + off) x.

Definition procinit : K unit :=
  initlock LPid ;;
  initlock LWait ;;
  forM_ procs (fun i =>
    initlock (LProc i) ;;
    modify (upd_proc i (p_set_state (fun _ => UNUSED)))).

Definition allocpid : K Z :=
  acquire LPid ;;
  let! pid := gets k_nextpid in
  modify (set_nextpid (fun n => n + 1)) ;;
  release LPid ;;
  ret pid.

Definition proc_freepagetable (pagetable sz : Z) : K unit :=
  uvmunmap pagetable TRAMPOLINE 1 false ;;
  uvmunmap pagetable TRAPFRAME 1 false ;;
  uvmfree pagetable sz.

Definition freeproc (p : nat) : K unit :=
  let! pr := get_proc p in
  whenM (nz (p_trapframe pr)) (kfree (p_trapframe pr)) ;;
  modify (upd_proc p (p_set_trapframe (fun _ => 0))) ;;
  whenM (nz (p_pagetable pr)) (proc_freepagetable (p_pagetable pr) (p_sz pr)) ;;
  modify (upd_proc p (fun q =>
    mkproc UNUSED ChNull 0 0 0 None (p_kstack q) 0 0 (p_trapframe q) (p_context q)
      (p_ofile q) (p_cwd q) (zput (p_name q) 0 0))).

Definition proc_pagetable (p : nat) : K Z :=
  let! pagetable := uvmcreate in
  if pagetable =? 0 then ret 0
  else
  let! im := gets k_img in
  let! r := mappages pagetable TRAMPOLINE PGSIZE (im_trampoline im)
              (orl [PTE_R; PTE_X; PTE_A; PTE_THEAD_MAEE]) in
  if r <? 0 then uvmfree pagetable 0 ;; ret 0
  else
  let! pr := get_proc p in
  let! r := mappages pagetable TRAPFRAME PGSIZE (p_trapframe pr)
              (orl [PTE_R; PTE_W; PTE_A; PTE_D; PTE_THEAD_MAEE]) in
  if r <? 0 then
    uvmunmap pagetable TRAMPOLINE 1 false ;; uvmfree pagetable 0 ;; ret 0
  else ret pagetable.

(** the search of allocproc: an UNUSED process, its lock held *)
Definition find_unused (i : nat) : K (option nat) :=
  acquire (LProc i) ;;
  let! p := get_proc i in
  if bool_decide (p_state p = UNUSED) then ret (Some i)
  else release (LProc i) ;; ret None.

(** allocproc after [found:] *)
Definition init_proc (p : nat) : K (option nat) :=
  let! pid := allocpid in
  modify (upd_proc p (p_set_pid (fun _ => pid))) ;;
  modify (upd_proc p (p_set_state (fun _ => USED))) ;;
  let! tf := kalloc in
  modify (upd_proc p (p_set_trapframe (fun _ => tf))) ;;
  if tf =? 0 then freeproc p ;; release (LProc p) ;; ret None
  else
  let! pt := proc_pagetable p in
  modify (upd_proc p (p_set_pagetable (fun _ => pt))) ;;
  if pt =? 0 then freeproc p ;; release (LProc p) ;; ret None
  else
  let! im := gets k_img in
  modify (upd_proc p (fun q =>
    p_set_context (fun _ => mkcontext (im_forkret im) (p_kstack q + PGSIZE) (replicate 12 0)) q)) ;;
  ret (Some p).

Definition allocproc : K (option nat) :=
  let! r := forM procs find_unused in
  match r with
  | None => ret None
  | Some p => init_proc p
  end.

Definition set_name (p : nat) (t : list Z) : K unit :=
  modify (upd_proc p (p_set_name (fun n => store_array n (safestrcpy (rlist t) 16)))).

Definition userinit : K unit :=
  let! r := allocproc in
  modify (set_initproc (fun _ => r)) ;;
  let! p := deref "userinit: p->name" r in
  set_name p (cstr "init") ;;
  let! cwd := namei (bytes_of_string "/") in
  modify (upd_proc p (p_set_cwd (fun _ => cwd))) ;;
  modify (upd_proc p (p_set_sz (fun _ => 0))) ;;
  modify (upd_proc p (p_set_state (fun _ => RUNNABLE))) ;;
  release (LProc p).

Definition growproc (n : Z) : K Z :=
  let! p := myproc_deref in
  let! pr := get_proc p in
  let sz := p_sz pr in
  let! r :=
    if 0 <? n then
      if TRAPFRAME <? u64 (sz + n) then ret None
      else
        let! sz' := uvmalloc (p_pagetable pr) sz (u64 (sz + n)) PTE_W in
        ret (if sz' =? 0 then None else Some sz')
    else if n <? 0 then
      let! sz' := uvmdealloc (p_pagetable pr) sz (u64 (sz + n)) in
      ret (Some sz')
    else ret (Some sz) in
  match r with
  | None => ret (-1)
  | Some sz' => modify (upd_proc p (p_set_sz (fun _ => sz'))) ;; ret 0
  end.

(** the copy of one open file in kfork *)
Definition fork_file (p np i : nat) : K unit :=
  let! pr := get_proc p in
  match pr.(p_ofile) !! i with
  | Some (Some f) =>
      let! f' := filedup f in
      modify (upd_proc np (p_set_ofile (<[i := Some f']>)))
  | _ => ret tt
  end.

Definition kfork : K Z :=
  let! p := myproc_deref in
  let! r := allocproc in
  match r with
  | None => ret (-1)
  | Some np =>
      let! pr := get_proc p in
      let! npr := get_proc np in
      let! c := uvmcopy (p_pagetable pr) (p_pagetable npr) (p_sz pr) in
      if c <? 0 then freeproc np ;; release (LProc np) ;; ret (-1)
      else
        modify (upd_proc np (p_set_sz (fun _ => p_sz pr))) ;;
        memmoveM (p_trapframe npr) (p_trapframe pr) SIZEOF_TRAPFRAME ;;
        tf_store np (TF_a 0) 0 ;;
        forM_ (seq 0 (Z.to_nat NOFILE)) (fork_file p np) ;;
        let! cwd := deref "idup" (p_cwd pr) in
        let! cwd := idup cwd in
        modify (upd_proc np (p_set_cwd (fun _ => Some cwd))) ;;
        set_name np (p_name pr ++ [0]) ;;
        let! npr := get_proc np in
        release (LProc np) ;;
        acquire LWait ;;
        modify (upd_proc np (p_set_parent (fun _ => Some p))) ;;
        release LWait ;;
        acquire (LProc np) ;;
        modify (upd_proc np (p_set_state (fun _ => RUNNABLE))) ;;
        release (LProc np) ;;
        ret (p_pid npr)
  end.

(** [wakeup(q)] on a process pointer *)
Definition chan_of (q : option nat) : chan :=
  match q with Some i => ChProc i | None => ChNull end.

Definition reparent (p : nat) : K unit :=
  forM_ procs (fun i =>
    let! pp := get_proc i in
    let! init := gets k_initproc in
    whenM (bool_decide (p_parent pp = Some p))
      (modify (upd_proc i (p_set_parent (fun _ => init))) ;;
       wakeup (chan_of init))).

Definition kexit (status : Z) : K unit :=
  let! p := myproc_deref in
  let! init := gets k_initproc in
  if bool_decide (init = Some p) then panic "init exiting"
  else
    acquire LWait ;;
    reparent p ;;
    let! pr := get_proc p in
    wakeup (chan_of (p_parent pr)) ;;
    acquire (LProc p) ;;
    modify (upd_proc p (p_set_xstate (fun _ => status))) ;;
    modify (upd_proc p (p_set_state (fun _ => ZOMBIE))) ;;
    release LWait ;;
    sched ;;
    panic "zombie exit".

(** The scan of kwait: [inl r] returns [r] (all locks released), [inr kids]
    says whether a child was seen. *)
Fixpoint kwait_scan (p : nat) (addr : Z) (l : list nat) (havekids : bool) : K (Z + bool) :=
  match l with
  | [] => ret (inr havekids)
  | i :: l' =>
      let! pp := get_proc i in
      if bool_decide (p_parent pp = Some p) then
        acquire (LProc i) ;;
        let! pp := get_proc i in
        if bool_decide (p_state pp = ZOMBIE) then
          let! pr := get_proc p in
          let! r :=
            if negb (addr =? 0)
            then copyout (p_pagetable pr) addr (le_bytes 4 (p_xstate pp)) else ret 0 in
          if r <? 0 then
            release (LProc i) ;; release LWait ;; ret (inl (-1))
          else
            freeproc i ;;
            release (LProc i) ;;
            release LWait ;;
            ret (inl (p_pid pp))
        else
          release (LProc i) ;; kwait_scan p addr l' true
      else kwait_scan p addr l' havekids
  end.

Definition kwait_body (p : nat) (addr : Z) (_ : unit) : K (unit + Z) :=
  let! r := kwait_scan p addr procs false in
  match r with
  | inl v => ret (inr v)
  | inr havekids =>
      let! k := if negb havekids then ret 1 else killed p in
      if nz k then release LWait ;; ret (inr (-1))
      else sleep (ChProc p) LWait ;; ret (inl tt)
  end.

Definition kwait (addr : Z) : K Z :=
  let! p := myproc_deref in
  acquire LWait ;;
  whileM WAKEUPS (kwait_body p addr) tt.

(** * kernel/exec.c *)

Definition flags2perm (flags : Z) : Z :=
  let perm := if nz (Z.land flags 1) then PTE_X else 0 in
  if nz (Z.land flags 2) then Z.lor perm PTE_W else perm.

Definition ELF_MAGIC : Z := 0x464C457F.
Definition SIZEOF_ELFHDR : Z := 64.
Definition SIZEOF_PROGHDR : Z := 56.
Definition elf_magic (e : list Z) : Z := get32 e 0.
Definition elf_entry (e : list Z) : Z := get64 e 24.
Definition elf_phoff (e : list Z) : Z := get64 e 32.
Definition elf_phnum (e : list Z) : Z := get16 e 56.
Definition ph_type (h : list Z) : Z := get32 h 0.
Definition ph_flags (h : list Z) : Z := get32 h 4.
Definition ph_off (h : list Z) : Z := get64 h 8.
Definition ph_vaddr (h : list Z) : Z := get64 h 16.
Definition ph_filesz (h : list Z) : Z := get64 h 32.
Definition ph_memsz (h : list Z) : Z := get64 h 40.

Definition loadseg_body (pagetable va : Z) (ip : nat) (offset sz : Z) (i : Z) : K (Z + Z) :=
  if negb (i <? sz) then ret (inr 0)
  else
    let! pa := walkaddr pagetable (u64 (va + i)) in
    if pa =? 0 then panic "loadseg: address should exist"
    else
      let off_in_page := u64 (va + i) mod PGSIZE in
      let n := if sz - i <? PGSIZE - off_in_page then sz - i else PGSIZE - off_in_page in
      let! ' (r, _) := readi ip (KernPA (pa + off_in_page)) (u32 (offset + i)) n in
      if negb (r =? n) then ret (inr (-1)) else ret (inl (i + n)).

Definition loadseg (pagetable va : Z) (ip : nat) (offset sz : Z) : K Z :=
  whileM (Z.to_nat sz + 1) (loadseg_body pagetable va ip offset sz) 0.

(** the loop over the program headers, with variables [i], [off], [sz]; the
    result is whether every segment was loaded, and [sz] *)
Definition exec_load_body (ip : nat) (pagetable phnum : Z) (v : Z * Z * Z)
  : K (Z * Z * Z + bool * Z) :=
  let '(i, off, sz) := v in
  if negb (i <? phnum) then ret (inr (true, sz))
  else
    let! ' (n, p) := readi ip (KernLocal (replicate (Z.to_nat SIZEOF_PROGHDR) 0) 0)
                       (u32 off) SIZEOF_PROGHDR in
    let ph := kptr_obj p in
    let next sz : K (Z * Z * Z + bool * Z) := ret (inl (i + 1, s32 (off + SIZEOF_PROGHDR), sz)) in
    if negb (n =? SIZEOF_PROGHDR) then ret (inr (false, sz))
    else if negb (ph_type ph =? 1) then next sz
    else if ph_memsz ph <? ph_filesz ph then ret (inr (false, sz))
    else if u64 (ph_vaddr ph + ph_memsz ph) <? ph_vaddr ph then ret (inr (false, sz))
    else
      let! sz1 := uvmalloc pagetable sz (u64 (ph_vaddr ph + ph_memsz ph))
                    (flags2perm (ph_flags ph)) in
      if sz1 =? 0 then ret (inr (false, sz))
      else
        let! r := loadseg pagetable (ph_vaddr ph) ip (u32 (ph_off ph)) (u32 (ph_filesz ph)) in
        if r <? 0 then ret (inr (false, sz1)) else next sz1.

(** an element of argv: a page or a string literal *)
Inductive arg := ArgPA (pa : Z) | ArgLit (t : list Z).
Definition arg_string (a : arg) : K (list Z) :=
  match a with
  | ArgPA pa =>
      let! m := gets k_mem in
      match strlen (rmem m pa) (Z.to_nat PGSIZE) with
      | Some n => ret (ldn m pa (Z.to_nat n))
      | None => ub "argv: no NUL"
      end
  | ArgLit t => ret t
  end.

(** the argument strings: [sp] and [ustack] after them, [None] for [bad] *)
Fixpoint exec_args (pagetable stackbase sp : Z) (argv : list arg) (ustack : list Z)
  : K (option (Z * list Z)) :=
  match argv with
  | [] =>
      if MAXARG <=? Z.of_nat (length ustack) then ub "ustack[argc]"
      else ret (Some (sp, ustack ++ [0]))
  | a :: argv' =>
      if MAXARG <=? Z.of_nat (length ustack) then ret None
      else
        let! t := arg_string a in
        let sp := u64 (sp - (Z.of_nat (length t) + 1)) in
        let sp := sp - sp mod 16 in
        if sp <? stackbase then ret None
        else
          let! r := copyout pagetable sp (t ++ [0]) in
          if r <? 0 then ret None
          else exec_args pagetable stackbase sp argv' (ustack ++ [sp])
  end.

(** the label [bad] *)
Definition exec_bad (pagetable sz : Z) (ip : option nat) : K Z :=
  whenM (nz pagetable) (proc_freepagetable pagetable sz) ;;
  match ip with
  | Some i => iunlockput i ;; end_op
  | None => ret tt
  end ;;
  ret (-1).

(** the path after its last slash *)
Fixpoint last_elem (last s : list Z) : list Z :=
  match s with
  | [] => last
  | c :: s' => last_elem (if c =? SLASH then s' else last) s'
  end.

(** kexec after the executable has been loaded *)
Definition exec_commit (path : list Z) (argv : list arg) (pagetable sz entry : Z) : K Z :=
  let! p := myproc_deref in
  let! pr := get_proc p in
  let oldsz := p_sz pr in
  let sz := PGROUNDUP sz in
  let! sz1 := uvmalloc pagetable sz (u64 (sz + (USERSTACK + 1) * PGSIZE)) PTE_W in
  if sz1 =? 0 then exec_bad pagetable sz None
  else
  let sz := sz1 in
  uvmclear pagetable (sz - (USERSTACK + 1) * PGSIZE) ;;
  let stackbase := sz - USERSTACK * PGSIZE in
  let! r := exec_args pagetable stackbase sz argv [] in
  match r with
  | None => exec_bad pagetable sz None
  | Some (sp, ustack) =>
      let argc := Z.of_nat (length ustack) - 1 in
      let sp := u64 (sp - (argc + 1) * 8) in
      let sp := sp - sp mod 16 in
      if sp <? stackbase then exec_bad pagetable sz None
      else
        let! r := copyout pagetable sp (flat_map (le_bytes 8) ustack) in
        if r <? 0 then exec_bad pagetable sz None
        else
          tf_store p (TF_a 1) sp ;;
          set_name p (last_elem path path ++ [0]) ;;
          let! pr := get_proc p in
          let oldpagetable := p_pagetable pr in
          modify (upd_proc p (p_set_pagetable (fun _ => pagetable))) ;;
          modify (upd_proc p (p_set_sz (fun _ => sz))) ;;
          tf_store p TF_epc entry ;;
          tf_store p TF_sp sp ;;
          proc_freepagetable oldpagetable oldsz ;;
          ret argc
  end.

Definition kexec (path : list Z) (argv : list arg) : K Z :=
  let! p := myproc_deref in
  let! pr := get_proc p in
  if bool_decide (p_cwd pr = None) then
    printf "kexec: FATAL: proc %d has NULL cwd!\n" [VWord (p_pid pr)] ;; ret (-1)
  else
  begin_op ;;
  let! ip := namei path in
  match ip with
  | None =>
      printf "sys_exec: namei failed for %s\n" [VStr (Some path)] ;;
      end_op ;;
      ret (-1)
  | Some i =>
      ilock (Some i) ;;
      let! ' (n, e) := readi i (KernLocal (replicate (Z.to_nat SIZEOF_ELFHDR) 0) 0)
                         0 SIZEOF_ELFHDR in
      let elf := kptr_obj e in
      if negb (n =? SIZEOF_ELFHDR) then exec_bad 0 0 (Some i)
      else if negb (elf_magic elf =? ELF_MAGIC) then exec_bad 0 0 (Some i)
      else
      let! pagetable := proc_pagetable p in
      if pagetable =? 0 then exec_bad 0 0 (Some i)
      else
      let! ' (ok, sz) := whileM (Z.to_nat (elf_phnum elf) + 1)
                           (exec_load_body i pagetable (elf_phnum elf))
                           (0, s32 (elf_phoff elf), 0) in
      if negb ok then exec_bad pagetable sz (Some i)
      else
        iunlockput i ;;
        end_op ;;
        exec_commit path argv pagetable sz (elf_entry elf)
  end.
