(* ===== verification/ProcSpec.v ===== *)
(** Process creation and removal (kernel/proc.c): the page table of a new
    process, fork and the collection of a zombie, as statements on pages,
    process table, open files and inodes. *)

From stdpp Require Import base gmap strings numbers list.
From S2P Require Import Prelude KState KString Spinlock Kalloc Vm VmPte VmTree VmSpec VmCopy VmFork VmFree ProcSync SyncSpec Fs File ProcLife.

(** * The page table of a process *)

(** [s'] is [s] with other contents of pages of [F] *)
Record within (F : list Z) (s s' : kstate) : Prop := {
  wi_state : exists m fl, s' = with_mem m fl s;
  wi_same d : d mod PGSIZE = 0 -> d ∉ F -> forall a, d <= a < d + PGSIZE -> ldb (k_mem s') a = ldb (k_mem s) a
}.

Lemma within_refl F s : within F s s.
Proof. split; [by exists (k_mem s), (k_freelist s)|done]. Qed.

Lemma within_trans F F1 s s1 s2 : within F s s1 -> within F1 s1 s2 -> (forall p, p ∈ F1 -> p ∈ F) -> within F s s2.
Proof.
  intros [(m1 & f1 & E1) S1] [(m2 & f2 & E2) S2] H. split; [exists m2, f2; by rewrite E2, E1|].
  intros d Hd HF a Ha. rewrite (S2 d), (S1 d); auto.
Qed.

Lemma within_img F s s' : within F s s' -> k_img s' = k_img s.
Proof. by intros [(m & fl & ->) _]. Qed.
Lemma within_lock F s s' l : within F s s' -> lock_free l s -> lock_free l s'.
Proof. by intros [(m & fl & ->) _]. Qed.

(** [s1] has a page table [r] made of pages that were free in [s] *)
Record building (r : Z) (s : kstate) (F : list Z) (s1 : kstate) (F1 : list Z) : Prop := {
  bd_within : within F s s1;
  bd_ok : vm_ok s1 r F1;
  bd_ptrs : ptrs (k_mem s1) r;
  bd_tables n p : node_ok n -> page_of (k_mem s1) r n = Some p -> p ∈ F;
  bd_free p : p ∈ F1 -> p ∈ F;
  bd_used p : p ∈ F -> p ∈ F1 \/ exists n, node_ok n /\ page_of (k_mem s1) r n = Some p
}.

(** such a page table when it has been given up: all pages are free again *)
Record undone (s : kstate) (F : list Z) (s' : kstate) (F' : list Z) : Prop := {
  ud_within : within F s s';
  ud_free : free_pages s' F';
  ud_list p : p ∈ F' <-> p ∈ F
}.

Lemma building_grows r s F s1 F1 s2 F2 : building r s F s1 F1 -> grows r s1 F1 s2 F2 -> building r s F s2 F2.
Proof.
  intros [B1 B2 B3 B4 B5 B6] [G1 G2 [l G3] G4 G5 G6 G7].
  assert (forall d, d mod PGSIZE = 0 -> d ∉ F -> not_table (k_mem s2) r d /\ forall a, d <= a < d + PGSIZE -> ldb (k_mem s2) a = ldb (k_mem s1) a) as Hd.
  { intros d Hd HF. apply G4; [done|auto|]. intros n Hn Hp. by apply HF, (B4 n). }
  split.
  - eapply (within_trans F F); [exact B1| |done]. split; [exact G1|]. intros d Ha HF. by apply Hd.
  - exact G2.
  - auto.
  - intros n p Hn Hp. destruct (decide (p ∈ F)) as [|HF]; [done|]. destruct (pt_good _ _ _ _ (vo_pt _ _ _ G2) n p Hn Hp) as [[Ha _] _].
    by destruct (proj1 (Hd p Ha HF) n Hn).
  - intros p Hp. apply B5. rewrite G3. apply elem_of_app. by right.
  - intros p Hp. destruct (B6 p Hp) as [H|(n & Hn & H)]; [auto|]. right. exists n. auto.
Qed.

Lemma freed_undone r hi s F s1 F1 s2 F2 : building r s F s1 F1 -> space_freed r hi s1 F1 s2 F2 ->
  (forall va, 0 <= va < hi -> vvalid (k_mem s1) r va -> vpage (k_mem s1) r va ∈ F) -> undone s F s2 F2.
Proof.
  intros [B1 B2 B3 B4 B5 B6] [S1 S2 S3 S4] Hdata.
  assert (forall p, p ∈ F2 <-> p ∈ F) as HF.
  { intros p. rewrite S3. unfold space_page. split.
    - intros [H|[(n & Hn & H)|(va & Hva & Hv & <-)]]; [auto|by apply (B4 n)|auto].
    - intros H. destruct (B6 p H) as [?|?]; auto. }
  split; [|done|done]. eapply (within_trans F F2); [exact B1|by split|]. intros p. by rewrite HF.
Qed.

(** a zeroed page is an empty table *)
Lemma fresh_root im m r F : good_page im r -> r ∉ F -> (forall i, idx_ok i -> entry m r i = 0) ->
  pt_inv im m r F /\ ptrs m r /\ (forall va, ~ vvalid m r va) /\ forall n p, node_ok n -> page_of m r n = Some p -> n = NRoot /\ p = r.
Proof.
  intros G HF Hz.
  assert (forall n p, node_ok n -> page_of m r n = Some p -> n = NRoot /\ p = r) as Hn.
  { intros [|i|i j] p Hok; cbn [node_ok page_of next] in *; [by intros [= <-]|by rewrite Hz|by rewrite Hz by apply Hok]. }
  split_and!; [split|split| |exact Hn].
  - intros n p Hok Hp. by destruct (Hn n p Hok Hp) as [_ ->].
  - intros n n' p Hok Hok' Hp Hp'. destruct (Hn n p Hok Hp) as [-> _]. by destruct (Hn n' p Hok' Hp') as [-> _].
  - intros n p k Hok _ Hk Hp. destruct (Hn n p Hok Hp) as [_ ->]. by rewrite Hz.
  - intros k Hk. by rewrite Hz by (unfold idx_ok; lia).
  - intros va. unfold vvalid, pte_at. destruct (page_of m r _) as [p|] eqn:E; [|done].
    apply Hn in E as [E _]; [done|split; apply PX_range].
Qed.

Lemma uvmcreate_run s F : free_pages s F -> lock_free LKmem s ->
  (F = [] /\ uvmcreate s = Ok 0 s) \/
  exists r F' s', F = r :: F' /\ 0 < r /\ uvmcreate s = Ok r s' /\ building r s F s' F' /\ (forall va, ~ vvalid (k_mem s') r va).
Proof.
  intros Hf Hl. destruct F as [|r F].
  { left. split; [done|]. unfold uvmcreate. by erewrite bind_ok by (apply kalloc_empty; [apply Hf|done]). }
  right. exists r, F. pose proof Hf as [C G N]. apply Forall_cons in G as [Gr G]. apply NoDup_cons in N as [Nr N].
  pose proof (good_page_pos _ _ Gr) as Hr. cbn [chain] in C. destruct C as [Er C].
  set (m' := memset (memset (k_mem s) r 5 PGSIZE) r 0 PGSIZE).
  assert (page_write r (k_mem s) m') as W by (intros a Ha; unfold m'; by rewrite !ldb_memset_out).
  assert (forall i, idx_ok i -> entry m' r i = 0) as Hz.
  { intros i Hi. unfold entry. rewrite (ld64_ext m' ∅); [done|]. intros a Ha. pose proof (pte_addr_in r i Hi).
    unfold m'. rewrite memset_spec by done. destruct (Z.leb_spec r a), (Z.ltb_spec a (r + PGSIZE)); [done|lia..]. }
  destruct (fresh_root (k_img s) m' r F Gr Nr Hz) as (I & P & E & Hn).
  exists (with_mem m' (ld64 (k_mem s) r) s). split_and!; [done|lia| | |exact E].
  - unfold uvmcreate. erewrite bind_ok by (apply (kalloc_run s r); [done|lia|done]). rewrite (proj2 (Z.eqb_neq r 0)) by lia. reflexivity.
  - split; [split|split| | | |].
    + by eexists _, _.
    + intros d Hd HdF a Ha. apply W. assert (page_disjoint d r) as D by (apply aligned_disjoint; [done|apply Gr|intros ->; apply HdF; left]).
      unfold page_disjoint in D. lia.
    + split; [|done|done]. by apply (chain_write_page (k_mem s) _ r _ F (k_img s)); [|apply Gr|..].
    + exact I.
    + exact Hl.
    + exact P.
    + intros n p Hok Hp. destruct (Hn n p Hok Hp) as [_ ->]. left.
    + intros p Hp. by right.
    + intros p [->|Hp]%elem_of_cons; [right; by exists NRoot|by left].
Qed.

(** ** Giving an address space back *)

Lemma not_vvalid_page m root a va : a mod PGSIZE = 0 -> 0 <= a -> a + PGSIZE <= MAXVA -> a <= va < a + PGSIZE ->
  ~ vvalid m root a -> ~ vvalid m root va.
Proof.
  intros Ha H0 Hm Hva. unfold vvalid. rewrite (pte_at_page m root va a); [done|lia| |by apply page_same].
  assert (0 < PGSIZE) by done. lia.
Qed.

Lemma trap_pages : TRAPFRAME + PGSIZE = TRAMPOLINE /\ TRAMPOLINE + PGSIZE = MAXVA /\ TRAPFRAME mod PGSIZE = 0 /\ TRAMPOLINE mod PGSIZE = 0 /\
  0 < TRAPFRAME /\ 0 < PGSIZE.
Proof. split_and!; reflexivity. Qed.

Lemma round_TRAPFRAME sz : 0 <= sz <= TRAPFRAME -> 0 <= PGROUNDUP sz <= TRAPFRAME /\ PGROUNDUP sz mod PGSIZE = 0.
Proof.
  intros H. rewrite PGROUNDUP_div by (change TRAPFRAME with 274877898752 in H; unfold PGSIZE; lia).
  change TRAPFRAME with 274877898752 in *. unfold PGSIZE. Z.to_euclidean_division_equations; lia.
Qed.

(** the trampoline and the trap frame are unmapped but not freed; the user
    pages and the tables are *)
Lemma proc_freepagetable_run s root F sz : vm_ok s root F -> ptrs (k_mem s) root -> 0 <= sz <= TRAPFRAME ->
  data_ok (k_img s) (k_mem s) root F 0 (PGROUNDUP sz) ->
  (forall va, PGROUNDUP sz <= va < TRAPFRAME -> ~ vvalid (k_mem s) root va) ->
  exists s' F', proc_freepagetable root sz s = Ok tt s' /\ space_freed root (PGROUNDUP sz) s F s' F'.
Proof.
  intros V P Hsz D Hgap. destruct trap_pages as (T1 & T2 & T3 & T4 & T5 & T6). destruct (round_TRAPFRAME sz Hsz) as [Hup _].
  destruct (unmap_keep s root F TRAMPOLINE V T4) as (s1 & E1 & G1 & N1 & U1 & O1); [lia|lia|].
  destruct (unmap_keep s1 root F TRAPFRAME (gr_ok _ _ _ _ _ G1) T3) as (s2 & E2 & G2 & N2 & U2 & O2); [lia|lia|].
  assert (forall va, 0 <= va < TRAPFRAME -> pte_at (k_mem s2) root va = pte_at (k_mem s) root va) as Hpt.
  { intros va Hva. rewrite O2, O1; [done|lia| |lia|]; apply page_before; (done || lia). }
  pose proof (grows_trans _ _ _ _ _ _ _ G1 G2) as G.
  destruct (uvmfree_run s2 root F sz) as (s3 & F3 & E3 & [S1 S2 S3 S4]).
  - apply G2.
  - by apply (gr_ptrs _ _ _ _ _ G).
  - lia.
  - rewrite (grows_img _ _ _ _ _ G). apply (data_ok_ext _ (k_mem s) _ _ F); [exact D|intros va Hva; apply Hpt; lia| |].
    + intros n Hn. by rewrite N2, N1.
    + intros va Hva Hv. by apply (da_page _ _ _ _ _ _ D).
  - intros va Hva. destruct (decide (va < TRAPFRAME)); [unfold vvalid; rewrite Hpt by lia; apply Hgap; lia|].
    destruct (decide (va < TRAMPOLINE)).
    + apply (not_vvalid_page _ _ TRAPFRAME); (done || lia).
    + apply (not_vvalid_page _ _ TRAMPOLINE); [done|lia|lia|lia|]. unfold vvalid. rewrite O2; [done|lia|].
      apply page_next; [done|lia].
  - assert (forall p, space_page (k_mem s2) root (PGROUNDUP sz) p <-> space_page (k_mem s) root (PGROUNDUP sz) p) as HS.
    { intros p. unfold space_page, vvalid, vpage. split; (intros [(n & Hn & H)|(va & Hva & H)]; [left; exists n|right; exists va]);
        rewrite ?N2, ?N1, ?Hpt in * by (done || lia); done. }
    exists s3, F3. split; [unfold proc_freepagetable; erewrite bind_ok by exact E1; by erewrite bind_ok by exact E2|]. split.
    + destruct S1 as (m3 & f3 & ->). destruct (gr_state _ _ _ _ _ G) as (m2 & f2 & ->). by exists m3, f3.
    + exact S2.
    + intros p. by rewrite S3, HS.
    + intros d Hd HF a Ha. rewrite (S4 d) by done. apply (gr_data _ _ _ _ _ G d); [done| | |done].
      * intros H. apply HF, S3. by left.
      * intros n Hn Hp. apply HF. rewrite S3, HS. right. left. by exists n.
Qed.

(** ** proc_pagetable *)

Definition TRAMP_PERM : Z := orl [PTE_R; PTE_X; PTE_A; PTE_THEAD_MAEE].
Definition TF_PERM : Z := orl [PTE_R; PTE_W; PTE_A; PTE_D; PTE_THEAD_MAEE].

(** a new address space: the trampoline, the trap frame [tf] and no user page *)
Record new_space (r tf : Z) (s : kstate) : Prop := {
  ns_user va : 0 <= va < TRAPFRAME -> ~ vvalid (k_mem s) r va;
  ns_tramp : pte_at (k_mem s) r TRAMPOLINE = Z.lor (Z.lor (PA2PTE (im_trampoline (k_img s))) TRAMP_PERM) PTE_V;
  ns_tf : pte_at (k_mem s) r TRAPFRAME = Z.lor (Z.lor (PA2PTE tf) TF_PERM) PTE_V
}.

(** the undo of proc_pagetable: an address space without user pages is freed *)
Lemma uvmfree_undone r s F s1 F1 : building r s F s1 F1 -> empty_space (k_mem s1) r ->
  exists s2 F2, uvmfree r 0 s1 = Ok tt s2 /\ undone s F s2 F2.
Proof.
  intros B He. destruct (uvmfree_run s1 r F1 0) as (s2 & F2 & E & Sf).
  - apply B.
  - apply B.
  - done.
  - change (PGROUNDUP 0) with 0. split; intros; lia.
  - intros va Hva. apply He. change (PGROUNDUP 0) with 0 in Hva. lia.
  - exists s2, F2. split; [done|]. eapply freed_undone; [exact B|exact Sf|]. change (PGROUNDUP 0) with 0. lia.
Qed.

Lemma proc_pagetable_run p pr s F : free_pages s F -> lock_free LKmem s -> k_procs s !! p = Some pr ->
  exists r s' F', proc_pagetable p s = Ok r s' /\
    (r = 0 /\ undone s F s' F' \/ 0 < r /\ building r s F s' F' /\ new_space r (p_trapframe pr) s').
Proof.
  intros Hf Hl Hp. destruct trap_pages as (T1 & T2 & T3 & T4 & T5 & T6). unfold proc_pagetable.
  destruct (uvmcreate_run s F Hf Hl) as [[-> E]|(r & F1 & s1 & EF & Hr & E & B1 & He1)].
  { exists 0, s, []. split; [by erewrite bind_ok by exact E|]. left. split; [done|]. split; [apply within_refl|done|done]. }
  erewrite bind_ok by exact E. rewrite (proj2 (Z.eqb_neq r 0)) by lia. mstep. change (orl [PTE_R; PTE_X; PTE_A; PTE_THEAD_MAEE]) with TRAMP_PERM.
  change (orl [PTE_R; PTE_W; PTE_A; PTE_D; PTE_THEAD_MAEE]) with TF_PERM.
  destruct (mappages_page s1 r F1 TRAMPOLINE (im_trampoline (k_img s1)) TRAMP_PERM) as (r2 & s2 & F2 & E2 & G2 & O2 & H2);
    [apply B1|done|lia|done|by apply not_true_iff_false, He1|].
  pose proof (building_grows _ _ _ _ _ _ _ B1 G2) as B2. erewrite bind_ok by exact E2.
  assert (forall va, 0 <= va < TRAMPOLINE -> pte_at (k_mem s2) r va = pte_at (k_mem s1) r va) as P2.
  { intros va Hva. apply O2; [lia|]. apply page_before; (done || lia). }
  destruct H2 as [[-> H2]|(-> & _ & H2)]; [change (0 <? 0) with false|change (-1 <? 0) with true]; cbv iota.
  2: { destruct (uvmfree_undone r s F s2 F2 B2) as (s3 & F3 & E3 & U).
       - intros va Hva. destruct (decide (va < TRAMPOLINE)); [unfold vvalid; rewrite P2 by lia; apply He1|].
         apply (not_vvalid_page _ _ TRAMPOLINE); [done|lia|lia|lia|]. unfold vvalid. rewrite H2. apply He1.
       - exists 0, s3, F3. split; [|by left]. by erewrite bind_ok by exact E3. }
  assert (k_procs s2 !! p = Some pr) as Hp2 by (destruct (wi_state _ _ _ (bd_within _ _ _ _ _ B2)) as (m & f & ->); exact Hp).
  erewrite bind_ok by (by apply get_proc_ok).
  destruct (mappages_page s2 r F2 TRAPFRAME (p_trapframe pr) TF_PERM) as (r3 & s3 & F3 & E3 & G3 & O3 & H3);
    [apply B2|done|lia|done|rewrite P2 by lia; by apply not_true_iff_false, He1|].
  pose proof (building_grows _ _ _ _ _ _ _ B2 G3) as B3. erewrite bind_ok by exact E3.
  assert (forall va, 0 <= va < TRAPFRAME -> pte_at (k_mem s3) r va = pte_at (k_mem s1) r va) as P3.
  { intros va Hva. rewrite O3; [apply P2; lia|lia|]. apply page_before; (done || lia). }
  destruct H3 as [[-> H3]|(-> & _ & H3)]; [change (0 <? 0) with false|change (-1 <? 0) with true]; cbv iota.
  - exists r, s3, F3. split; [done|]. right. split; [done|]. split; [exact B3|]. split.
    + intros va Hva. unfold vvalid. rewrite P3 by done. apply He1.
    + rewrite O3; [|lia|apply page_next; (done || lia)]. rewrite H2, (grows_img _ _ _ _ _ G3), (grows_img _ _ _ _ _ G2). done.
    + exact H3.
  - destruct (unmap_keep s3 r F3 TRAMPOLINE (bd_ok _ _ _ _ _ B3) T4) as (s4 & E4 & G4 & _ & U4 & O4); [lia|lia|].
    destruct (uvmfree_undone r s F s4 F3 (building_grows _ _ _ _ _ _ _ B3 G4)) as (s5 & F5 & E5 & U).
    + intros va Hva. destruct (decide (va < TRAMPOLINE)); [|by apply (not_vvalid_page _ _ TRAMPOLINE); (done || lia)].
      unfold vvalid. rewrite O4; [|lia|apply page_before; (done || lia)]. destruct (decide (va < TRAPFRAME)); [rewrite P3 by lia; apply He1|].
      rewrite (pte_at_page _ r va TRAPFRAME) by (lia || (apply page_same; (done || lia))). rewrite H3, P2 by lia. apply He1.
    + exists 0, s5, F5. split; [|by left]. erewrite bind_ok by exact E4. by erewrite bind_ok by exact E5.
Qed.

(** * allocproc *)

(** the base state [s] with the parts process creation changes *)
Definition pst (s : kstate) (h : hart) (m : mem) (fl : Z) (P : list proc) (n : Z) (T : list file) (I : list inode) : kstate :=
  set_hart (fun _ => h) (with_mem m fl (set_procs (fun _ => P) (set_nextpid (fun _ => n)
    (set_ftable (fun _ => T) (set_itable (fun _ => I) s))))).

Lemma free_pages_eq s s' F : free_pages s F -> k_mem s' = k_mem s -> k_freelist s' = k_freelist s -> k_img s' = k_img s -> free_pages s' F.
Proof. intros [C G N] E1 E2 E3. split; [by rewrite E1, E2|by rewrite E3|done]. Qed.

Lemma vm_ok_eq s s' r F : vm_ok s r F -> k_mem s' = k_mem s -> k_freelist s' = k_freelist s -> k_img s' = k_img s ->
  lock_free LKmem s' -> vm_ok s' r F.
Proof. intros [V1 V2 V3] E1 E2 E3 Hl. split; [by eapply free_pages_eq|by rewrite E1, E3|done]. Qed.

Lemma set_mem_with f fl s : set_mem f (set_freelist (fun _ => fl) s) = with_mem (f (k_mem s)) fl s.
Proof. reflexivity. Qed.

(** kalloc takes the first free page *)
Lemma kalloc_take s q F : free_pages s (q :: F) -> lock_free LKmem s ->
  exists m fl, kalloc s = Ok q (with_mem m fl s) /\ free_pages (with_mem m fl s) F /\ page_write q (k_mem s) m /\ good_page (k_img s) q /\ q ∉ F.
Proof.
  intros Hf Hl. destruct (kalloc_pops s q F Hf Hl) as (s' & E & Hf' & _ & _ & _ & Ho). destruct Hf as [C G N].
  apply Forall_cons in G as [Gq _]. apply NoDup_cons in N as [Nq _]. pose proof (good_page_pos _ _ Gq).
  cbn [chain] in C. destruct C as [Er _]. pose proof (kalloc_run s q Er ltac:(lia) Hl) as E0. rewrite set_mem_with in E0. rewrite E0 in E. injection E as <-.
  exists (memset (k_mem s) q 5 PGSIZE), (ld64 (k_mem s) q). split; [exact E0|]. split; [exact Hf'|]. split; [exact Ho|]. split; [exact Gq|exact Nq].
Qed.

(** kfree puts a page back *)
Lemma kfree_put s q F : free_pages s F -> lock_free LKmem s -> good_page (k_img s) q -> q ∉ F ->
  exists m fl, kfree q s = Ok tt (with_mem m fl s) /\ free_pages (with_mem m fl s) (q :: F) /\ page_write q (k_mem s) m.
Proof.
  intros Hf Hl G Hq. destruct (gives_back_one q s F Hf Hl G Hq) as (s' & E & [(m & fl & ->) B2 B3 B4]). exists m, fl. split_and!; [done|done|].
  intros a Ha. apply B4. by intros p ->%list_elem_of_singleton.
Qed.

Lemma page_write_within q F s m fl : page_write q (k_mem s) m -> q mod PGSIZE = 0 -> q ∈ F -> within F s (with_mem m fl s).
Proof.
  intros W Hq HF. split; [by eexists _, _|]. intros d Hd HdF a Ha. apply W.
  assert (page_disjoint d q) as D by (apply aligned_disjoint; [done|done|congruence]). unfold page_disjoint in D. lia.
Qed.

Lemma find_unused_run i s p : procs_ok s -> k_procs s !! i = Some p ->
  find_unused i s = if decide (p_state p = UNUSED) then Ok (Some i) (set_hart (hart_lock (LProc i)) s) else Ok None s.
Proof.
  intros (Hok & Hlen & Hf) Hp. unfold find_unused. erewrite bind_ok by (apply acquire_run; by split).
  erewrite bind_ok by (apply get_proc_ok; exact Hp). destruct (decide (p_state p = UNUSED)) as [D|D].
  - by rewrite bool_decide_true.
  - rewrite bool_decide_false by done. by erewrite bind_ok by (apply (release_locked _ _ (k_hart s)); [done|apply Hf|done]).
Qed.

Lemma find_unused_scan s l k : procs_ok s -> (forall i, (i < length l)%nat -> k_procs s !! (k + i)%nat = l !! i) ->
  forM (seq k (length l)) find_unused s =
  match list_find (fun p => p_state p = UNUSED) l with
  | Some (i, _) => Ok (Some (k + i)%nat) (set_hart (hart_lock (LProc (k + i))) s)
  | None => Ok None s
  end.
Proof.
  intros Hok. revert k. induction l as [|p l IH]; intros k Hl; cbn [length seq list_find]; [done|].
  pose proof (Hl 0%nat ltac:(simpl; lia)) as Hp. rewrite Nat.add_0_r in Hp.
  pose proof (find_unused_run k s p Hok Hp) as Hb. destruct (decide (p_state p = UNUSED)) as [E|E].
  - erewrite forM_cons_some by exact Hb. by rewrite Nat.add_0_r.
  - erewrite forM_cons_none by exact Hb. rewrite IH.
    + destruct (list_find _ l) as [[i q]|]; simpl; [|done]. by replace (k + S i)%nat with (S (k + i)) by lia.
    + intros i Hi. replace (S k + i)%nat with (k + S i)%nat by lia. apply (Hl (S i)). simpl. lia.
Qed.

Lemma allocpid_run s : lock_free LPid s -> allocpid s = Ok (k_nextpid s) (set_nextpid (fun n => n + 1) s).
Proof.
  intros Hl. unfold allocpid. erewrite bind_ok by (by apply acquire_run). mstep. mstep.
  destruct Hl as [Hok Hf]. by erewrite bind_ok by (apply (release_locked _ _ (k_hart s)); done).
Qed.

Lemma list_alter_as_insert {A} (f : A -> A) i x (l : list A) : l !! i = Some x -> alter f i l = <[i := f x]> l.
Proof.
  intros H. apply list_eq. intros j. destruct (decide (i = j)) as [->|Hne].
  - by rewrite list_lookup_alter_eq, H, list_lookup_insert_eq by (by eapply lookup_lt_Some).
  - by rewrite list_lookup_alter_ne, list_lookup_insert_ne.
Qed.

Lemma lookup_insert_here {A} i (x y : A) (l : list A) : l !! i = Some x -> <[i := y]> l !! i = Some y.
Proof. intros H. apply list_lookup_insert_eq. by eapply lookup_lt_Some. Qed.

Lemma alter_insert_here {A} (f : A -> A) i (x y : A) (l : list A) : l !! i = Some x -> alter f i (<[i := y]> l) = <[i := f y]> l.
Proof. intros H. by rewrite (list_alter_as_insert f i y), list_insert_insert_eq by (by eapply lookup_insert_here). Qed.

(** the slot after freeproc *)
Definition cleared (q : proc) : proc :=
  mkproc UNUSED ChNull 0 0 0 None (p_kstack q) 0 0 0 (p_context q) (p_ofile q) (p_cwd q) (zput (p_name q) 0 0).

(** freeproc from its two frees *)
Lemma freeproc_run i q s s1 s2 : k_procs s !! i = Some q ->
  whenM (nz (p_trapframe q)) (kfree (p_trapframe q)) s = Ok tt s1 -> k_procs s1 = k_procs s ->
  whenM (nz (p_pagetable q)) (proc_freepagetable (p_pagetable q) (p_sz q)) (set_procs (<[i := p_set_trapframe (fun _ => 0) q]>) s1) = Ok tt s2 ->
  k_procs s2 = <[i := p_set_trapframe (fun _ => 0) q]> (k_procs s) ->
  freeproc i s = Ok tt (set_procs (fun _ => <[i := cleared q]> (k_procs s)) s2).
Proof.
  intros Hp E1 P1 E2 P2. unfold freeproc. erewrite bind_ok by (by apply get_proc_ok). erewrite bind_ok by exact E1. mstep.
  assert (upd_proc i (p_set_trapframe (fun _ => 0)) s1 = set_procs (<[i := p_set_trapframe (fun _ => 0) q]>) s1) as ->.
  { unfold upd_proc, set_procs. by rewrite (list_alter_as_insert _ i q) by (by rewrite P1). }
  erewrite bind_ok by exact E2. unfold modify, upd_proc, set_procs. rewrite P2. by erewrite alter_insert_here by done.
Qed.

(** the process with its resources, before the rest of kfork or userinit *)
Definition started (q : proc) (pid tf pt : Z) (c : context) : proc :=
  mkproc USED (p_chan q) (p_killed q) (p_xstate q) pid (p_parent q) (p_kstack q) (p_sz q) pt tf c (p_ofile q) (p_cwd q) (p_name q).

(** the pages of the new process: its trap frame [tf] and its tables *)
Record child_space (tf r : Z) (s : kstate) (F : list Z) (s' : kstate) (F' : list Z) : Prop := {
  cs_within : within F s s';
  cs_ok : vm_ok s' r F';
  cs_ptrs : ptrs (k_mem s') r;
  cs_tf : good_page (k_img s) tf /\ tf ∈ F;
  cs_tables n p : node_ok n -> page_of (k_mem s') r n = Some p -> p ∈ F /\ p <> tf;
  cs_free p : p ∈ F' -> p ∈ F /\ p <> tf;
  cs_used p : p ∈ F -> p = tf \/ p ∈ F' \/ exists n, node_ok n /\ page_of (k_mem s') r n = Some p;
  cs_new : new_space r tf s'
}.

Lemma lock_free_under l l' s : lock_free l s -> l <> l' -> lock_free l (set_hart (hart_lock l') s).
Proof. intros [H1 H2] Hne. split; [by apply hart_lock_ok|]. change (<[l' := h_id (k_hart s)]> (h_locks (k_hart s)) !! l = None). by rewrite lookup_insert_ne. Qed.

(** the parts of a state that the page lemmas look at *)
Lemma undone_eq s F s' F' t t' : undone s F s' F' -> k_mem t = k_mem s -> k_mem t' = k_mem s' -> k_freelist t' = k_freelist s' ->
  k_img s' = k_img t' -> (exists m fl, t' = with_mem m fl t) -> undone t F t' F'.
Proof.
  intros [[U1 U2] U3 U4] E1 E2 E3 E4 Ht. split; [|by eapply free_pages_eq|done]. split; [done|]. rewrite E1, E2. exact U2.
Qed.

Section init.
Context (i : nat) (q : proc) (s : kstate) (F : list Z).
Hypothesis Hok : hart_ok (k_hart s).
Hypothesis Hi : h_locks (k_hart s) !! LProc i = None.
Hypothesis Hmem : h_locks (k_hart s) !! LKmem = None.
Hypothesis Hpid : h_locks (k_hart s) !! LPid = None.
Hypothesis Hq : k_procs s !! i = Some q.
Hypothesis Hpt : p_pagetable q = 0.
Hypothesis Hf : free_pages s F.

Local Abbreviation h1 := (hart_lock (LProc i) (k_hart s)).
(** the state with the slot [x], its lock held *)
Local Abbreviation held m fl x := (pst s h1 m fl (<[i := x]> (k_procs s)) (k_nextpid s + 1) (k_ftable s) (k_itable s)).
Local Abbreviation given_up m fl := (pst s (k_hart s) m fl (<[i := cleared q]> (k_procs s)) (k_nextpid s + 1) (k_ftable s) (k_itable s)).

Lemma held_kmem m fl x : lock_free LKmem (held m fl x).
Proof.
  split; [exact (hart_lock_ok (LProc i) _ Hok)|]. change (<[LProc i := h_id (k_hart s)]> (h_locks (k_hart s)) !! LKmem = None). by rewrite lookup_insert_ne.
Qed.

Lemma held_proc m fl x : k_procs (held m fl x) !! i = Some x.
Proof. change (<[i := x]> (k_procs s) !! i = Some x). by eapply lookup_insert_here. Qed.

Lemma held_upd m fl x f : upd_proc i f (held m fl x) = held m fl (f x).
Proof.
  change (pst s h1 m fl (alter f i (<[i := x]> (k_procs s))) (k_nextpid s + 1) (k_ftable s) (k_itable s) = held m fl (f x)).
  by erewrite alter_insert_here by exact Hq.
Qed.

Lemma held_release m fl x : release (LProc i) (held m fl x) = Ok tt (pst s (k_hart s) m fl (<[i := x]> (k_procs s)) (k_nextpid s + 1) (k_ftable s) (k_itable s)).
Proof. rewrite (release_locked (LProc i) _ (k_hart s)) by done. reflexivity. Qed.

(** freeproc and release of a slot without user pages *)
Lemma init_gives_up m fl x G tf : cleared x = cleared q -> p_pagetable x = 0 -> p_trapframe x = tf -> free_pages (with_mem m fl s) G ->
  (tf = 0 \/ good_page (k_img s) tf /\ tf ∉ G) ->
  exists m' fl', (freeproc i ;; release (LProc i) ;; ret None) (held m fl x) = Ok (@None nat) (given_up m' fl') /\
    free_pages (with_mem m' fl' s) (if nz tf then tf :: G else G) /\ (if nz tf then page_write tf m m' else m' = m).
Proof.
  intros Hc Hx1 Hx2 HG Htf.
  assert (exists m' fl', whenM (nz tf) (kfree tf) (held m fl x) = Ok tt (held m' fl' x) /\
    free_pages (with_mem m' fl' s) (if nz tf then tf :: G else G) /\ (if nz tf then page_write tf m m' else m' = m)) as (m' & fl' & E1 & Hf' & W).
  { destruct Htf as [->|[Hg Hn]]; [by exists m, fl|]. pose proof (good_page_pos _ _ Hg). rewrite (proj2 (nz_true tf)) by lia.
    destruct (kfree_put (held m fl x) tf G) as (m' & fl' & E & Hf' & W); [by eapply free_pages_eq|apply held_kmem|done|done|].
    exists m', fl'. split; [exact E|]. split; [by eapply free_pages_eq|exact W]. }
  exists m', fl'. split; [|done]. erewrite bind_ok.
  2: { apply (freeproc_run i x _ (held m' fl' x) (held m' fl' (p_set_trapframe (fun _ => 0) x))).
       - apply held_proc.
       - rewrite Hx2. exact E1.
       - reflexivity.
       - rewrite Hx1. change (Ok tt (pst s h1 m' fl' (<[i := p_set_trapframe (fun _ => 0) x]> (<[i := x]> (k_procs s))) (k_nextpid s + 1) (k_ftable s) (k_itable s)) = Ok tt (held m' fl' (p_set_trapframe (fun _ => 0) x))).
         by rewrite list_insert_insert_eq.
       - change (<[i := p_set_trapframe (fun _ => 0) x]> (k_procs s) = <[i := p_set_trapframe (fun _ => 0) x]> (<[i := x]> (k_procs s))).
         by rewrite list_insert_insert_eq. }
  change (set_procs (fun _ => <[i := cleared x]> (k_procs (held m fl x))) (held m' fl' (p_set_trapframe (fun _ => 0) x))) with
    (pst s h1 m' fl' (<[i := cleared x]> (<[i := x]> (k_procs s))) (k_nextpid s + 1) (k_ftable s) (k_itable s)).
  rewrite list_insert_insert_eq, Hc. by erewrite bind_ok by apply held_release.
Qed.

(** the first part of allocproc after [found:] *)
Definition rest_init (tf : Z) : K (option nat) :=
  modify (upd_proc i (p_set_trapframe (fun _ => tf))) ;;
  if tf =? 0 then freeproc i ;; release (LProc i) ;; ret None
  else
  let! pt := proc_pagetable i in
  modify (upd_proc i (p_set_pagetable (fun _ => pt))) ;;
  if pt =? 0 then freeproc i ;; release (LProc i) ;; ret None
  else
  let! im := gets k_img in
  modify (upd_proc i (fun q =>
    p_set_context (fun _ => mkcontext (im_forkret im) (p_kstack q + PGSIZE) (replicate 12 0)) q)) ;;
  ret (Some i).

Local Abbreviation q1 := (p_set_state (fun _ => USED) (p_set_pid (fun _ => k_nextpid s) q)).

Lemma init_start : init_proc i (set_hart (hart_lock (LProc i)) s) =
  (let! tf := kalloc in rest_init tf) (held (k_mem s) (k_freelist s) q1).
Proof.
  unfold init_proc. erewrite bind_ok.
  2: { apply allocpid_run. apply lock_free_under; [by split|done]. }
  mstep. mstep. cbv beta.
  assert (upd_proc i (p_set_state (fun _ => USED)) (upd_proc i (p_set_pid (fun _ => k_nextpid (set_hart (hart_lock (LProc i)) s)))
    (set_nextpid (fun n => n + 1) (set_hart (hart_lock (LProc i)) s))) = held (k_mem s) (k_freelist s) q1) as E; [|by rewrite E].
  change (pst s h1 (k_mem s) (k_freelist s) (alter (p_set_state (fun _ => USED)) i (alter (p_set_pid (fun _ => k_nextpid s)) i (k_procs s)))
    (k_nextpid s + 1) (k_ftable s) (k_itable s) = held (k_mem s) (k_freelist s) q1).
  rewrite (list_alter_as_insert (p_set_pid _) i q) by done. by erewrite alter_insert_here by exact Hq.
Qed.

Definition child_ctx : context := mkcontext (im_forkret (k_img s)) (p_kstack q + PGSIZE) (replicate 12 0).

Lemma init_proc_run :
  (exists m fl F', init_proc i (set_hart (hart_lock (LProc i)) s) = Ok None (given_up m fl) /\ undone s F (with_mem m fl s) F') \/
  (exists tf r m fl F', init_proc i (set_hart (hart_lock (LProc i)) s) = Ok (Some i) (held m fl (started q (k_nextpid s) tf r child_ctx)) /\
     0 < r /\ child_space tf r s F (with_mem m fl s) F').
Proof.
  rewrite init_start. set (t0 := held (k_mem s) (k_freelist s) q1). destruct F as [|tf F0].
  { left. destruct (init_gives_up (k_mem s) (k_freelist s) (p_set_trapframe (fun _ => 0) q1) [] 0) as (m & fl & E & Hf' & W); [done|done|done|exact Hf|by left|].
    exists m, fl, []. split.
    - erewrite bind_ok by (apply kalloc_empty; [apply Hf|apply held_kmem]). unfold rest_init. mstep. unfold t0. rewrite held_upd. exact E.
    - split; [|exact Hf'|done]. split; [by eexists _, _|]. intros d _ _ a _. change (ldb m a = ldb (k_mem s) a). by rewrite W. }
  destruct (kalloc_take t0 tf F0) as (m1 & f1 & E1 & Hf1 & W1 & G1 & N1); [by eapply free_pages_eq|apply held_kmem|].
  pose proof (good_page_pos _ _ G1) as Hpos. set (q2 := p_set_trapframe (fun _ => tf) q1). set (t1 := held m1 f1 q2).
  assert (free_pages t1 F0) as Hf1' by (by eapply free_pages_eq).
  destruct (proc_pagetable_run i q2 t1 F0 Hf1' (held_kmem _ _ _) (held_proc _ _ _)) as (r & t2 & F' & E2 & H2).
  erewrite bind_ok by exact E1. change (with_mem m1 f1 t0) with (held m1 f1 q1). unfold rest_init. mstep. rewrite held_upd.
  rewrite (proj2 (Z.eqb_neq tf 0)) by lia. erewrite bind_ok by exact E2.
  assert (within (tf :: F0) s (with_mem m1 f1 s)) as Wi1 by (apply (page_write_within tf); [exact W1|apply G1|left]).
  assert (forall m fl, within F0 t1 (held m fl q2) -> within (tf :: F0) s (with_mem m fl s)) as Wi2.
  { intros m fl [_ Hs]. eapply (within_trans _ F0); [exact Wi1| |intros p Hp; by right]. split; [by eexists _, _|exact Hs]. }
  destruct H2 as [[-> U]|(Hr & B & Ns)].
  - left. destruct (wi_state _ _ _ (ud_within _ _ _ _ U)) as (m2 & f2 & Et). change (with_mem m2 f2 t1) with (held m2 f2 q2) in Et. subst t2.
    destruct (init_gives_up m2 f2 (p_set_pagetable (fun _ => 0) q2) F' tf) as (m3 & f3 & E3 & Hf3 & W3).
    { done. } { done. } { done. } { eapply free_pages_eq; [apply U|done..]. } { right. split; [exact G1|]. by rewrite (ud_list _ _ _ _ U). }
    rewrite (proj2 (nz_true tf)) in Hf3, W3 by lia. exists m3, f3, (tf :: F'). split.
    + mstep. rewrite held_upd. exact E3.
    + split; [|exact Hf3|intros p; by rewrite !elem_of_cons, (ud_list _ _ _ _ U)].
      eapply (within_trans _ (tf :: F0)); [apply (Wi2 m2 f2), U| |done]. apply (page_write_within tf _ (with_mem m2 f2 s)); [exact W3|apply G1|left].
  - right. destruct (wi_state _ _ _ (bd_within _ _ _ _ _ B)) as (m2 & f2 & Et). change (with_mem m2 f2 t1) with (held m2 f2 q2) in Et. subst t2.
    exists tf, r, m2, f2, F'. split; [|split; [done|]].
    + mstep. rewrite held_upd, (proj2 (Z.eqb_neq r 0)) by lia. mstep. mstep. by rewrite held_upd.
    + split.
      * apply Wi2, B.
      * eapply vm_ok_eq; [apply B|done..|]. by split.
      * apply B.
      * split; [exact G1|left].
      * intros n p Hn Hp. pose proof (bd_tables _ _ _ _ _ B n p Hn Hp) as H. split; [by right|congruence].
      * intros p Hp. pose proof (bd_free _ _ _ _ _ B p Hp) as H. split; [by right|congruence].
      * intros p [->|Hp]%elem_of_cons; [by left|right]. by apply B.
      * destruct Ns as [X1 X2 X3]. by split.
Qed.
End init.
