(* ===== verification/ForkSpec.v ===== *)
(** fork (kernel/proc.c): kfork as one step on the process table, the open
    files, the inodes and memory. *)

From stdpp Require Import base gmap strings numbers list.
From S2P Require Import Prelude KState KString Spinlock Kalloc Vm VmPte VmTree VmSpec VmCopy VmFork VmFree ProcSync SyncSpec Fs File ProcLife ProcSpec.

(** * Open files and the current directory *)

Lemma filedup_run f ff s : lock_free LFtable s -> k_ftable s !! f = Some ff -> 1 <= f_ref ff ->
  filedup f s = Ok f (upd_file f (f_set_ref (fun n => n + 1)) s).
Proof.
  intros Hl Hf Hr. unfold filedup. erewrite bind_ok by (by apply acquire_run).
  erewrite bind_ok by (unfold get_file; change (k_ftable (set_hart (hart_lock LFtable) s)) with (k_ftable s); by rewrite Hf).
  rewrite (proj2 (Z.ltb_ge _ _)) by lia. mstep. destruct Hl as [Hok Hl].
  by erewrite bind_ok by (apply (release_locked _ _ (k_hart s)); done).
Qed.

Lemma idup_run c s : lock_free LItable s -> idup c s = Ok c (upd_inode c (i_set_ref (fun n => n + 1)) s).
Proof.
  intros Hl. unfold idup. erewrite bind_ok by (by apply acquire_run). mstep. destruct Hl as [Hok Hl].
  by erewrite bind_ok by (apply (release_locked _ _ (k_hart s)); done).
Qed.

Definition nfiles : nat := Z.to_nat NOFILE.

(** the child's descriptors: the parent's, and where the parent has none,
    what the slot held *)
Definition child_file (po c : list (option nat)) (i : nat) : list (option nat) :=
  match po !! i with Some (Some f) => <[i := Some f]> c | _ => c end.
Definition dup_file (po : list (option nat)) (T : list file) (i : nat) : list file :=
  match po !! i with Some (Some f) => alter (f_set_ref (fun n => n + 1)) f T | _ => T end.

(** the descriptors of the parent that refer to file [f] *)
Definition fds (po : list (option nat)) (l : list nat) (f : nat) : list nat := filter (fun i => po !! i = Some (Some f)) l.

Lemma child_files_lookup po l : forall c j, (j < length c)%nat ->
  foldl (child_file po) c l !! j = match po !! j with
                                   | Some (Some f) => if decide (j ∈ l) then Some (Some f) else c !! j
                                   | _ => c !! j
                                   end.
Proof.
  induction l as [|i l IH]; intros c j Hj; cbn [foldl].
  { destruct (po !! j) as [[f|]|]; try done; by case_decide; [exfalso; set_solver|]. }
  assert (length (child_file po c i) = length c) as Hlen by (unfold child_file; destruct (po !! i) as [[f|]|]; by rewrite ?length_insert).
  rewrite IH by lia. assert (i <> j -> child_file po c i !! j = c !! j) as Hne.
  { intros H. unfold child_file. destruct (po !! i) as [[f|]|]; try done. by rewrite list_lookup_insert_ne. }
  destruct (decide (i = j)) as [->|Hij].
  - unfold child_file. destruct (po !! j) as [[f|]|] eqn:E; try done. rewrite (decide_True _ _ (list_elem_of_here j l)).
    case_decide; [done|]. by rewrite list_lookup_insert_eq.
  - rewrite Hne by done. destruct (po !! j) as [[f|]|]; try done. assert (j ∈ i :: l <-> j ∈ l) as Hi by set_solver. by rewrite (decide_ext _ _ _ _ Hi).
Qed.

Lemma dup_files_lookup po l : forall T f, foldl (dup_file po) T l !! f =
  f_set_ref (fun n => n + Z.of_nat (length (fds po l f))) <$> T !! f.
Proof.
  induction l as [|i l IH]; intros T f; cbn [foldl].
  { unfold fds. cbn. destruct (T !! f) as [ff|]; [|done]. cbn. destruct ff; unfold f_set_ref; cbn. by rewrite Z.add_0_r. }
  rewrite IH. unfold fds. rewrite filter_cons. unfold dup_file. destruct (po !! i) as [[g|]|] eqn:E.
  - destruct (decide (g = f)) as [->|Hne].
    + rewrite list_lookup_alter_eq. rewrite decide_True by done. destruct (T !! f) as [ff|]; [|done]. cbn. destruct ff; unfold f_set_ref; cbn.
      do 2 f_equal. lia.
    + rewrite list_lookup_alter_ne by done. by rewrite decide_False by congruence.
  - by rewrite decide_False.
  - by rewrite decide_False.
Qed.

(** * The memory of parent and child *)

(** an address space whose pages kept their contents *)
Lemma pt_same im m m' root F : (forall d, d mod PGSIZE = 0 -> d ∉ F -> forall a, d <= a < d + PGSIZE -> ldb m' a = ldb m a) ->
  pt_inv im m root F -> (forall n, node_ok n -> page_of m' root n = page_of m root n) /\ forall va, pte_at m' root va = pte_at m root va.
Proof.
  intros Hs I. assert (forall n p i, node_ok n -> idx_ok i -> page_of m root n = Some p -> entry m' p i = entry m p i) as He.
  { intros n p i Hn Hi Hp. destruct (pt_good _ _ _ _ I n p Hn Hp) as [[Ha _] HF]. apply ld64_ext. intros a Ha'.
    pose proof (pte_addr_in p i Hi). apply (Hs p); [done|done|lia]. }
  assert (forall n, node_ok n -> page_of m' root n = page_of m root n) as Hp by (by apply page_of_ext).
  split; [done|]. intros va. assert (node_ok (N0 (PX 2 va) (PX 1 va))) as Hn by (split; apply PX_range).
  apply pte_at_ext; [by apply Hp|]. intros x Hx. by apply (He _ _ _ Hn (PX_range _ _)).
Qed.

(** the memory [m'] after a fork in [m]: parent [old] with trap frame [ptf],
    child [new] with trap frame [tf]; the free pages were [F] and are [F'] *)
Record forked_mem (im : image) (old ptf new tf hi : Z) (m : mem) (F : list Z) (m' : mem) (F' : list Z) : Prop := {
  fm_inv : pt_inv im m' new F' /\ ptrs m' new /\ data_ok im m' new F' 0 hi;
  fm_copy va : 0 <= va < hi -> vvalid m' new va /\ flags_of (pte_at m' new va) = flags_of (pte_at m old va) /\
    ubyte m' new va = ubyte m old va;
  fm_gap va : hi <= va < TRAPFRAME -> ~ vvalid m' new va;
  fm_tramp : pte_at m' new TRAMPOLINE = Z.lor (Z.lor (PA2PTE (im_trampoline im)) TRAMP_PERM) PTE_V;
  fm_tf : pte_at m' new TRAPFRAME = Z.lor (Z.lor (PA2PTE tf) TF_PERM) PTE_V;
  fm_regs o : 0 <= o < SIZEOF_TRAPFRAME -> ~ TF_a 0 <= o < TF_a 1 -> ldb m' (tf + o) = ldb m (ptf + o);
  fm_a0 : ld64 m' (tf + TF_a 0) = 0;
  fm_same d : d mod PGSIZE = 0 -> d ∉ F -> forall a, d <= a < d + PGSIZE -> ldb m' a = ldb m a;
  fm_pages x : x ∈ F <-> x ∈ F' \/ x = tf \/ space_page m' new hi x;
  fm_own : tf ∉ F' /\ ~ space_page m' new hi tf
}.

(** * kfork *)

(** the state in which the running process [p] forks: its address space is
    well formed and mapped up to its size, its descriptors and its current
    directory refer to open files and inodes, and free slots own no pages *)
Record fork_ready (p : nat) (pr : proc) (s : kstate) (F : list Z) : Prop := {
  fr_procs : procs_ok s;
  fr_me : h_proc (k_hart s) = Some p;
  fr_pr : k_procs s !! p = Some pr;
  fr_live : p_state pr <> UNUSED;
  fr_locks l : l ∈ [LKmem; LPid; LFtable; LItable; LWait] -> h_locks (k_hart s) !! l = None;
  fr_slots i q : k_procs s !! i = Some q -> p_state q = UNUSED -> p_pagetable q = 0 /\ p_sz q = 0 /\ length (p_ofile q) = nfiles;
  fr_free : free_pages s F;
  fr_sz : 0 <= p_sz pr <= TRAPFRAME;
  fr_pt : pt_inv (k_img s) (k_mem s) (p_pagetable pr) F;
  fr_data : data_ok (k_img s) (k_mem s) (p_pagetable pr) F 0 (PGROUNDUP (p_sz pr));
  fr_mapped va : 0 <= va < PGROUNDUP (p_sz pr) -> vvalid (k_mem s) (p_pagetable pr) va;
  fr_tf : good_page (k_img s) (p_trapframe pr) /\ p_trapframe pr ∉ F;
  fr_files i f : p_ofile pr !! i = Some (Some f) -> exists ff, k_ftable s !! f = Some ff /\ 1 <= f_ref ff;
  fr_cwd : is_Some (p_cwd pr)
}.

Section fork.
Context (p np : nat) (pr q : proc) (s : kstate) (F : list Z).
Hypothesis FR : fork_ready p pr s F.
Hypothesis Hq : k_procs s !! np = Some q.
Hypothesis Hun : p_state q = UNUSED.

Local Abbreviation h1 := (hart_lock (LProc np) (k_hart s)).
(** the child's slot is [x], its lock held *)
Local Abbreviation fst' m fl x T I := (pst s h1 m fl (<[np := x]> (k_procs s)) (k_nextpid s + 1) T I).

Lemma fork_ne : np <> p.
Proof. intros ->. rewrite (fr_pr _ _ _ _ FR) in Hq. injection Hq as ->. by apply (fr_live _ _ _ _ FR). Qed.

Lemma fork_hart : hart_ok (k_hart s).
Proof. apply (fr_procs _ _ _ _ FR). Qed.

Lemma fork_lock l m fl x T I : l ∈ [LKmem; LPid; LFtable; LItable; LWait] -> lock_free l (fst' m fl x T I).
Proof.
  intros Hl. split; [exact (hart_lock_ok (LProc np) _ fork_hart)|].
  change (<[LProc np := h_id (k_hart s)]> (h_locks (k_hart s)) !! l = None). rewrite lookup_insert_ne; [by apply (fr_locks _ _ _ _ FR)|].
  intros <-. set_solver.
Qed.

Lemma fork_child m fl x T I : k_procs (fst' m fl x T I) !! np = Some x.
Proof. change (<[np := x]> (k_procs s) !! np = Some x). by eapply lookup_insert_here. Qed.

Lemma fork_parent m fl x T I : k_procs (fst' m fl x T I) !! p = Some pr.
Proof. change (<[np := x]> (k_procs s) !! p = Some pr). rewrite list_lookup_insert_ne by apply fork_ne. apply FR. Qed.

Lemma fork_upd m fl x T I f : upd_proc np f (fst' m fl x T I) = fst' m fl (f x) T I.
Proof.
  change (pst s h1 m fl (alter f np (<[np := x]> (k_procs s))) (k_nextpid s + 1) T I = fst' m fl (f x) T I).
  by erewrite alter_insert_here by exact Hq.
Qed.

(** ** Descriptors *)

Lemma fork_file_run m fl x T I i :
  (forall f, p_ofile pr !! i = Some (Some f) -> exists ff, T !! f = Some ff /\ 1 <= f_ref ff) ->
  fork_file p np i (fst' m fl x T I) = Ok tt (fst' m fl (p_set_ofile (fun c => child_file (p_ofile pr) c i) x) (dup_file (p_ofile pr) T i) I).
Proof.
  intros Hf. unfold fork_file. erewrite bind_ok by (apply get_proc_ok, fork_parent). unfold child_file, dup_file.
  destruct (p_ofile pr !! i) as [[f|]|] eqn:E.
  - destruct (Hf f eq_refl) as (ff & H1 & H2). erewrite bind_ok by (apply (filedup_run f ff); [apply fork_lock; set_solver|exact H1|exact H2]).
    change (upd_file f (f_set_ref (fun n => n + 1)) (fst' m fl x T I)) with (fst' m fl x (alter (f_set_ref (fun n => n + 1)) f T) I).
    unfold modify. by rewrite fork_upd.
  - by destruct x.
  - by destruct x.
Qed.

Definition live_refs (T : list file) : Prop := forall i f, p_ofile pr !! i = Some (Some f) -> exists ff, T !! f = Some ff /\ 1 <= f_ref ff.

Lemma live_refs_dup T i : live_refs T -> live_refs (dup_file (p_ofile pr) T i).
Proof.
  intros H j g Hg. destruct (H j g Hg) as (ff & H1 & H2). unfold dup_file. destruct (p_ofile pr !! i) as [[f|]|]; [|by exists ff..].
  destruct (decide (f = g)) as [->|Hne]; [|exists ff; by rewrite list_lookup_alter_ne].
  exists (f_set_ref (fun n => n + 1) ff). rewrite list_lookup_alter_eq, H1. split; [done|]. cbn. lia.
Qed.

Lemma fork_files_run m fl I l : forall x T, live_refs T ->
  forM_ l (fork_file p np) (fst' m fl x T I) =
  Ok tt (fst' m fl (p_set_ofile (fun c => foldl (child_file (p_ofile pr)) c l) x) (foldl (dup_file (p_ofile pr)) T l) I).
Proof.
  induction l as [|i l IH]; intros x T HT; cbn [forM_ foldl]; [by destruct x|].
  erewrite bind_ok by (apply fork_file_run; intros f; apply HT). rewrite IH by (by apply live_refs_dup). reflexivity.
Qed.

(** ** Memory *)

Context (tf r : Z) (m1 : mem) (fl1 : Z) (F1 : list Z).
Hypothesis CS : child_space tf r s F (with_mem m1 fl1 s) F1.
Local Abbreviation old := (p_pagetable pr).
Local Abbreviation hi := (PGROUNDUP (p_sz pr)).

Lemma fork_m1 d : d mod PGSIZE = 0 -> d ∉ F -> forall a, d <= a < d + PGSIZE -> ldb m1 a = ldb (k_mem s) a.
Proof. exact (wi_same _ _ _ (cs_within _ _ _ _ _ _ CS) d). Qed.

Lemma fork_outside d : d mod PGSIZE = 0 -> d ∉ F -> d ∉ F1 /\ not_table m1 r d.
Proof.
  intros Hd HF. split; [intros H; apply HF, (cs_free _ _ _ _ _ _ CS d H)|]. intros n Hn Hp.
  apply HF, (cs_tables _ _ _ _ _ _ CS n d Hn Hp).
Qed.

Lemma fork_forkable x T I : forkable old r hi (fst' m1 fl1 x T I) F1.
Proof.
  destruct (pt_same _ _ _ _ _ fork_m1 (fr_pt _ _ _ _ FR)) as [Hpg Hpt]. destruct (round_TRAPFRAME _ (fr_sz _ _ _ _ FR)) as [Hhi Hal].
  destruct trap_pages as (T1 & T2 & _ & _ & _ & T6).
  assert (forall d, owned old hi (fst' m1 fl1 x T I) d -> d mod PGSIZE = 0 /\ d ∉ F) as Ho.
  { intros d [(n & Hn & Hp)|(va & Hva & Hp)].
    - change (page_of m1 old n = Some d) in Hp. rewrite Hpg in Hp by done. destruct (pt_good _ _ _ _ (fr_pt _ _ _ _ FR) n d Hn Hp) as [[? _] ?]. done.
    - change (PTE2PA (pte_at m1 old va) = d) in Hp. rewrite Hpt in Hp. subst d.
      destruct (da_page _ _ _ _ _ _ (fr_data _ _ _ _ FR) va Hva (fr_mapped _ _ _ _ FR va Hva)) as ([? _] & _ & ?). done. }
  split.
  - apply (pt_inv_ext _ (k_mem s) _ _ F); [apply FR|exact Hpg|]. intros y Hy. apply (cs_free _ _ _ _ _ _ CS y Hy).
  - apply (data_ok_ext _ (k_mem s) _ _ F); [apply FR|intros va _; apply Hpt|exact Hpg|]. intros va Hva Hv Hin.
    destruct (da_page _ _ _ _ _ _ (fr_data _ _ _ _ FR) va Hva Hv) as (_ & _ & HF). apply HF, (cs_free _ _ _ _ _ _ CS _ Hin).
  - intros va Hva. unfold vvalid. change (nz (Z.land (pte_at m1 old va) PTE_V) = true). rewrite Hpt. by apply (fr_mapped _ _ _ _ FR).
  - eapply vm_ok_eq; [apply CS|done..|]. apply fork_lock. set_solver.
  - intros va Hva. apply (ns_user _ _ _ (cs_new _ _ _ _ _ _ CS)). lia.
  - intros d Hd. destruct (Ho d Hd) as [H1 H2]. apply (fork_outside d H1 H2).
  - split; [lia|done].
Qed.

Lemma fork_tf : tf mod PGSIZE = 0 /\ tf ∉ F1 /\ not_table m1 r tf.
Proof.
  destruct (cs_tf _ _ _ _ _ _ CS) as [[Ha _] _]. split_and!; [done|intros H; by apply (cs_free _ _ _ _ _ _ CS) in H as [_ H]|].
  intros n Hn Hp. by apply (cs_tables _ _ _ _ _ _ CS) in Hp as [_ Hp].
Qed.

(** the registers of the child *)
Definition child_regs (m : mem) : mem := st64 (memmove m tf (p_trapframe pr) SIZEOF_TRAPFRAME) (tf + TF_a 0) 0.

Lemma child_regs_write m : page_write tf m (child_regs m).
Proof.
  intros a Ha. unfold child_regs, PGSIZE in *. change (TF_a 0) with 112. rewrite ldb_st64_out by lia. rewrite memmove_spec by done.
  change SIZEOF_TRAPFRAME with 288. destruct (Z.leb_spec tf a), (Z.ltb_spec a (tf + 288)); cbn [andb]; (done || lia).
Qed.

Lemma child_regs_copy m o : 0 <= o < SIZEOF_TRAPFRAME -> ~ TF_a 0 <= o < TF_a 1 -> ldb (child_regs m) (tf + o) = ldb m (p_trapframe pr + o).
Proof.
  change SIZEOF_TRAPFRAME with 288. change (TF_a 0) with 112. change (TF_a 1) with 120. intros Ho Hn. unfold child_regs. change (TF_a 0) with 112.
  rewrite ldb_st64_out by lia. rewrite memmove_spec by done. change SIZEOF_TRAPFRAME with 288.
  destruct (Z.leb_spec tf (tf + o)), (Z.ltb_spec (tf + o) (tf + 288)); try lia. cbn [andb]. f_equal. lia.
Qed.

Section done.
Context (x : proc) (m2 : mem) (fl2 : Z) (F2 : list Z).
Local Abbreviation t1 := (fst' m1 fl1 x (k_ftable s) (k_itable s)).
Local Abbreviation t2 := (fst' m2 fl2 x (k_ftable s) (k_itable s)).

(** pages that were not free in the beginning *)
Lemma fork_m2 d : kept r t1 F1 m2 -> d mod PGSIZE = 0 -> d ∉ F -> forall a, d <= a < d + PGSIZE -> ldb m2 a = ldb (k_mem s) a.
Proof.
  intros K Hd HF a Ha. destruct (fork_outside d Hd HF) as [H1 H2]. rewrite (K d a); [by apply (fork_m1 d)|by split_and!|done].
Qed.

Lemma fork_mem_ok : copying old r t1 F1 hi t2 F2 ->
  forked_mem (k_img s) old (p_trapframe pr) r tf hi (k_mem s) F (child_regs m2) F2 /\ free_pages (with_mem (child_regs m2) fl2 s) F2.
Proof.
  intros [C Hrest Hused]. destruct fork_tf as (Ha & HF1 & Hnt1). destruct (round_TRAPFRAME _ (fr_sz _ _ _ _ FR)) as [Hhi Hal].
  destruct trap_pages as (T1 & T2 & _ & _ & T5 & T6). pose proof (child_regs_write m2) as W.
  assert (outside r t1 F1 tf) as Hout by (by split_and!). pose proof (cp_apart _ _ _ _ _ _ _ C tf Hout) as Hnt2.
  pose proof (vo_pt _ _ _ (cp_ok _ _ _ _ _ _ _ C)) as I2. pose proof (vo_free _ _ _ (cp_ok _ _ _ _ _ _ _ C)) as Fr2.
  assert (tf ∉ F2) as HF2 by (intros H; by apply HF1, (cp_free _ _ _ _ _ _ _ C)).
  assert (forall n, node_ok n -> page_of (child_regs m2) r n = page_of m2 r n) as Hpg by exact (page_of_write_page _ m2 _ _ _ _ I2 Ha Hnt2 W).
  assert (forall va, pte_at (child_regs m2) r va = pte_at m2 r va) as Hpt by (intros va; exact (pte_at_write_page _ m2 _ _ _ _ va I2 Ha Hnt2 W)).
  assert (forall d, d mod PGSIZE = 0 -> d <> tf -> forall a, d <= a < d + PGSIZE -> ldb (child_regs m2) a = ldb m2 a) as Hd.
  { intros d Hd Hne a Ha'. apply W. assert (page_disjoint d tf) as D by (by apply aligned_disjoint). unfold page_disjoint in D. lia. }
  assert (forall va, 0 <= va < hi -> vvalid m2 r va /\ vpage m2 r va ∈ F1) as Hnew.
  { intros va Hva. destruct (cp_new _ _ _ _ _ _ _ C va Hva) as (H1 & H2 & _). done. }
  assert (forall va, hi <= va < MAXVA -> pte_at (child_regs m2) r va = pte_at m1 r va) as Hup.
  { intros va Hva. rewrite Hpt. apply (Hrest va); lia. }
  destruct (cs_new _ _ _ _ _ _ CS) as [N1 N2 N3]. split.
  2: { split; [|apply Fr2|apply Fr2]. apply (chain_write_page m2 _ tf _ F2 (k_img s)); [apply Fr2|done|done|exact W|apply Fr2]. }
  assert (forall y, space_page (child_regs m2) r hi y <-> (exists n, node_ok n /\ page_of m2 r n = Some y) \/ exists va, 0 <= va < hi /\ vpage m2 r va = y) as Hsp.
  { intros y. unfold space_page, vvalid, vpage. setoid_rewrite Hpt. f_equiv.
    - split; intros (n & Hn & H); exists n; (split; [done|]); by rewrite Hpg in *.
    - split; [intros (va & Hva & _ & H)|intros (va & Hva & H)]; exists va; [done|]. split_and!; [lia|lia|apply (Hnew va Hva)|done]. }
  split.
  - split_and!.
    + apply (pt_inv_ext _ m2 _ _ F2); [exact I2|exact Hpg|done].
    + apply (ptrs_write_page _ m2 _ r F2 tf I2 Ha Hnt2 W). apply (cp_ptrs _ _ _ _ _ _ _ C), CS.
    + apply (data_ok_ext _ m2 _ _ F2); [apply C|intros va _; apply Hpt|exact Hpg|]. intros va Hva Hv.
      apply (da_page _ _ _ _ _ _ (cp_data _ _ _ _ _ _ _ C) va Hva Hv).
  - intros va Hva. destruct (cp_new _ _ _ _ _ _ _ C va Hva) as (H1 & H2 & H3 & H4).
    destruct (pt_same _ _ _ _ _ fork_m1 (fr_pt _ _ _ _ FR)) as [_ Hpo]. pose proof (page_offset va) as Hoff.
    destruct (da_page _ _ _ _ _ _ (cp_data _ _ _ _ _ _ _ C) va Hva H1) as ([Ga _] & _ & _).
    destruct (da_page _ _ _ _ _ _ (fr_data _ _ _ _ FR) va Hva (fr_mapped _ _ _ _ FR va Hva)) as ([Gb _] & _ & Gc).
    unfold vvalid. rewrite Hpt. split_and!; [exact H1|etransitivity; [exact H3|]; change (flags_of (pte_at m1 old va) = flags_of (pte_at (k_mem s) old va)); by rewrite Hpo|].
    unfold ubyte, uaddr. rewrite Hpt. change (ldb (child_regs m2) (vpage m2 r va + va mod PGSIZE) = ldb (k_mem s) (vpage (k_mem s) old va + va mod PGSIZE)).
    rewrite (Hd (vpage m2 r va)); [|done|intros E; apply HF1; by rewrite <-E|lia].
    etransitivity; [exact (H4 _ Hoff)|]. change (ldb m1 (vpage m1 old va + va mod PGSIZE) = ldb (k_mem s) (vpage (k_mem s) old va + va mod PGSIZE)).
    unfold vpage. rewrite Hpo. apply (fork_m1 (vpage (k_mem s) old va)); [done|done|unfold vpage; lia].
  - intros va Hva. unfold vvalid. rewrite Hup by lia. apply N1. lia.
  - rewrite Hup by lia. exact N2.
  - rewrite Hup by lia. exact N3.
  - intros o Ho Hn. rewrite child_regs_copy by done. destruct (fr_tf _ _ _ _ FR) as [[Gt _] GF].
    apply (fork_m2 (p_trapframe pr)); [apply C|done|done|]. change SIZEOF_TRAPFRAME with 288 in Ho. unfold PGSIZE. lia.
  - unfold child_regs. by rewrite ld64_st64_eq.
  - intros d Hd' HdF a Ha'. rewrite (Hd d); [|done|intros ->; apply HdF, CS|done]. apply (fork_m2 d); [apply C|done|done|done].
  - intros y. rewrite Hsp. split.
    + intros Hy. destruct (cs_used _ _ _ _ _ _ CS y Hy) as [->|[Hy1|(n & Hn & Hp)]]; [by right; left| |].
      * destruct (Hused y Hy1) as [H|H]; [by left|by right; right].
      * right. right. left. exists n. split; [done|]. by apply (cp_keep _ _ _ _ _ _ _ C).
    + intros [H|[->|[(n & Hn & Hp)|(va & Hva & <-)]]].
      * apply (cs_free _ _ _ _ _ _ CS). by apply (cp_free _ _ _ _ _ _ _ C).
      * apply CS.
      * destruct (decide (y ∈ F)) as [|Hy]; [done|]. destruct (pt_good _ _ _ _ I2 n y Hn Hp) as [[Gy _] _].
        destruct (fork_outside y Gy Hy) as [O1 O2]. by destruct (cp_apart _ _ _ _ _ _ _ C y (conj Gy (conj O1 O2)) n Hn).
      * apply (cs_free _ _ _ _ _ _ CS). by apply Hnew.
  - split; [done|]. rewrite Hsp. intros [(n & Hn & Hp)|(va & Hva & Hp)]; [by apply (Hnt2 n)|]. apply HF1. rewrite <-Hp. by apply Hnew.
Qed.

(** ** The rest of kfork *)

(** the child *)
Definition forked (pid : Z) (c : context) : proc :=
  mkproc RUNNABLE (p_chan q) (p_killed q) (p_xstate q) pid (Some p) (p_kstack q) (p_sz pr) r tf c
    (foldl (child_file (p_ofile pr)) (p_ofile q) (seq 0 nfiles)) (p_cwd pr)
    (store_array (p_name q) (safestrcpy (rlist (p_name pr ++ [0])) 16)).

Definition kfork_tail (npr : proc) : K Z :=
  modify (upd_proc np (p_set_sz (fun _ => p_sz pr))) ;;
  memmoveM (p_trapframe npr) (p_trapframe pr) SIZEOF_TRAPFRAME ;;
  tf_store np (TF_a 0) 0 ;;
  forM_ (seq 0 (Z.to_nat NOFILE)) (fork_file p np) ;;
  let! cwd := deref "idup" (p_cwd pr) in
  let! cwd := idup cwd in
  modify (upd_proc np (p_set_cwd (fun _ => Some cwd))) ;;
  set_name np (p_name pr ++ [0]) ;;
  let! npr := get_proc np in
  release (LProc np) ;;
  acquire LWait ;;
  modify (upd_proc np (p_set_parent (fun _ => Some p))) ;;
  release LWait ;;
  acquire (LProc np) ;;
  modify (upd_proc np (p_set_state (fun _ => RUNNABLE))) ;;
  release (LProc np) ;;
  ret (p_pid npr).

(** an update of the child between acquire and release of a lock *)
Lemma fork_section l f m fl y T I :
  h_locks (k_hart s) !! l = None ->
  (acquire l ;; modify (upd_proc np f) ;; release l) (pst s (k_hart s) m fl (<[np := y]> (k_procs s)) (k_nextpid s + 1) T I) =
  Ok tt (pst s (k_hart s) m fl (<[np := f y]> (k_procs s)) (k_nextpid s + 1) T I).
Proof.
  intros Hl. rewrite critical_section; [|by split; [apply fork_hart|]|done].
  change (Ok tt (pst s (k_hart s) m fl (alter f np (<[np := y]> (k_procs s))) (k_nextpid s + 1) T I) = Ok tt (pst s (k_hart s) m fl (<[np := f y]> (k_procs s)) (k_nextpid s + 1) T I)).
  by erewrite alter_insert_here by exact Hq.
Qed.

Lemma bind_section {A} (a b c : K unit) (k : K A) t t' : (a ;; b ;; c) t = Ok tt t' -> (a ;; b ;; c ;; k) t = k t'.
Proof.
  intros H. apply bind_ok_inv in H as (u & u1 & E1 & H). apply bind_ok_inv in H as (v & u2 & E2 & E3).
  erewrite bind_ok by exact E1. erewrite bind_ok by exact E2. by erewrite bind_ok by exact E3.
Qed.

Lemma kfork_tail_run pid c cwd : p_cwd pr = Some cwd -> x = started q pid tf r c ->
  kfork_tail x t2 = Ok pid (pst s (k_hart s) (child_regs m2) fl2 (<[np := forked pid c]> (k_procs s)) (k_nextpid s + 1)
    (foldl (dup_file (p_ofile pr)) (k_ftable s) (seq 0 nfiles)) (alter (i_set_ref (fun n => n + 1)) cwd (k_itable s))).
Proof.
  intros Hc ->. unfold kfork_tail. mstep. rewrite fork_upd. unfold memmoveM. mstep.
  set (x1 := p_set_sz _ _). change (set_mem _ (fst' m2 fl2 x1 (k_ftable s) (k_itable s))) with
    (fst' (memmove m2 tf (p_trapframe pr) SIZEOF_TRAPFRAME) fl2 x1 (k_ftable s) (k_itable s)).
  erewrite (bind_ok (tf_store np (TF_a 0) 0)).
  2: { unfold tf_store. erewrite bind_ok by (apply get_proc_ok, fork_child). reflexivity. }
  change (set_mem _ (fst' (memmove m2 tf (p_trapframe pr) SIZEOF_TRAPFRAME) fl2 x1 (k_ftable s) (k_itable s))) with
    (fst' (child_regs m2) fl2 x1 (k_ftable s) (k_itable s)).
  erewrite bind_ok by (apply fork_files_run; intros i f; apply (fr_files _ _ _ _ FR)).
  rewrite Hc. cbn [deref]. mstep. erewrite bind_ok by (apply idup_run, fork_lock; set_solver).
  set (T' := foldl _ (k_ftable s) _). set (x2 := p_set_ofile _ x1). change (upd_inode cwd _ (fst' (child_regs m2) fl2 x2 T' (k_itable s))) with
    (fst' (child_regs m2) fl2 x2 T' (alter (i_set_ref (fun n => n + 1)) cwd (k_itable s))). set (I' := alter _ cwd _).
  mstep. rewrite fork_upd. unfold set_name. mstep. rewrite fork_upd. erewrite bind_ok by (apply get_proc_ok, fork_child).
  erewrite (bind_ok (release (LProc np))) by (apply (release_locked (LProc np) _ (k_hart s)); [apply fork_hart|apply (fr_procs _ _ _ _ FR)|reflexivity]).
  set (x4 := p_set_name _ _). change (set_hart _ (fst' (child_regs m2) fl2 x4 T' I')) with
    (pst s (k_hart s) (child_regs m2) fl2 (<[np := x4]> (k_procs s)) (k_nextpid s + 1) T' I').
  erewrite bind_section by (apply fork_section, (fr_locks _ _ _ _ FR); set_solver).
  erewrite bind_section by (apply fork_section, (fr_procs _ _ _ _ FR)). unfold ret, forked. by rewrite Hc.
Qed.

(** without memory for the copy everything is given back *)
Lemma fork_undo : fork_fails r hi t1 F1 t2 F2 -> 0 < r -> p_pagetable x = r -> p_trapframe x = tf -> p_sz x = 0 ->
  exists m' fl' F', (freeproc np ;; release (LProc np) ;; ret (-1)) t2 =
      Ok (-1) (pst s (k_hart s) m' fl' (<[np := cleared x]> (k_procs s)) (k_nextpid s + 1) (k_ftable s) (k_itable s)) /\
    undone s F (with_mem m' fl' s) F'.
Proof.
  intros [Y1 Y2 Y3 Y4 Y5 Y6 Y7 Y8 Y9 Y10] Hr Ex1 Ex2 Ex3. destruct fork_tf as (Ha & HF1 & Hnt1). destruct (cs_tf _ _ _ _ _ _ CS) as [Gt HtF].
  destruct trap_pages as (T1 & T2 & _ & _ & T5 & T6). pose proof (good_page_pos _ _ Gt) as Hpos.
  assert (outside r t1 F1 tf) as Hout by (by split_and!). pose proof (Y9 tf Hout) as Hnt2.
  assert (tf ∉ F2) as HF2 by (intros H; by apply HF1, Y6).
  destruct (vm_ok_kfree t2 r tf F2 Y2 Gt HF2 Hnt2) as (m3 & fl3 & E3 & V3 & W3).
  change (with_mem m3 fl3 t2) with (fst' m3 fl3 x (k_ftable s) (k_itable s)) in E3, V3.
  set (x0 := p_set_trapframe (fun _ => 0) x). set (t3 := fst' m3 fl3 x0 (k_ftable s) (k_itable s)).
  pose proof (vo_pt _ _ _ Y2) as I2.
  assert (forall n, node_ok n -> page_of m3 r n = page_of m2 r n) as Hpg by exact (page_of_write_page _ m2 _ _ _ _ I2 Ha Hnt2 W3).
  assert (forall va, pte_at m3 r va = pte_at m2 r va) as Hpt by (intros va; exact (pte_at_write_page _ m2 _ _ _ _ va I2 Ha Hnt2 W3)).
  destruct (proc_freepagetable_run t3 r (tf :: F2) 0) as (t4 & F4 & E4 & [S1 S2 S3 S4]).
  - eapply vm_ok_eq; [exact V3|done..|]. apply fork_lock. set_solver.
  - apply (ptrs_write_page _ m2 _ r F2 tf I2 Ha Hnt2 W3). apply Y8, CS.
  - lia.
  - change (PGROUNDUP 0) with 0. split; intros; lia.
  - intros va Hva. change (PGROUNDUP 0) with 0 in Hva. unfold vvalid. change (nz (Z.land (pte_at m3 r va) PTE_V) <> true). rewrite Hpt.
    destruct (decide (va < hi)); [apply Y4; lia|]. pose proof (Y7 va ltac:(lia)) as E. change (pte_at m2 r va = pte_at m1 r va) in E. rewrite E.
    apply (ns_user _ _ _ (cs_new _ _ _ _ _ _ CS)). lia.
  - destruct S1 as (m4 & fl4 & Et). change (with_mem m4 fl4 t3) with (fst' m4 fl4 x0 (k_ftable s) (k_itable s)) in Et. subst t4.
    assert (forall y, y ∈ F4 <-> y ∈ F) as HF4.
    { intros y. rewrite S3, elem_of_cons. unfold space_page. change (PGROUNDUP 0) with 0. change (k_mem t3) with m3. split.
      - intros [[->|H]|[(n & Hn & H)|(va & Hva & _)]]; [done|apply (cs_free _ _ _ _ _ _ CS), Y6, H| |lia]. rewrite Hpg in H by done.
        destruct (decide (y ∈ F)) as [|Hy]; [done|]. destruct (pt_good _ _ _ _ I2 n y Hn H) as [[Gy _] _].
        destruct (fork_outside y Gy Hy) as [O1 O2]. by destruct (Y9 y (conj Gy (conj O1 O2)) n Hn).
      - intros Hy. destruct (cs_used _ _ _ _ _ _ CS y Hy) as [->|[Hy1|(n & Hn & Hp)]]; [by left; left| |].
        + destruct (Y5 y Hy1) as [H|(n & Hn & H)]; [by left; right|]. right. left. exists n. by rewrite Hpg.
        + right. left. exists n. split; [done|]. rewrite Hpg by done. by apply Y10. }
    exists m4, fl4, F4. split.
    + erewrite bind_ok.
      2: { apply (freeproc_run np x _ (fst' m3 fl3 x (k_ftable s) (k_itable s)) (fst' m4 fl4 x0 (k_ftable s) (k_itable s))).
           - apply fork_child.
           - rewrite Ex2, (proj2 (nz_true tf)) by lia. exact E3.
           - reflexivity.
           - rewrite Ex1, Ex3, (proj2 (nz_true r)) by lia. etransitivity; [|exact E4]. cbn [whenM]. f_equal.
             change (pst s h1 m3 fl3 (<[np := x0]> (<[np := x]> (k_procs s))) (k_nextpid s + 1) (k_ftable s) (k_itable s) = t3).
             by rewrite list_insert_insert_eq.
           - change (<[np := x0]> (k_procs s) = <[np := x0]> (<[np := x]> (k_procs s))). by rewrite list_insert_insert_eq. }
      change (set_procs (fun _ => <[np := cleared x]> (k_procs t2)) (fst' m4 fl4 x0 (k_ftable s) (k_itable s))) with
        (pst s h1 m4 fl4 (<[np := cleared x]> (<[np := x]> (k_procs s))) (k_nextpid s + 1) (k_ftable s) (k_itable s)).
      rewrite list_insert_insert_eq. erewrite bind_ok; [reflexivity|]. rewrite (release_locked (LProc np) _ (k_hart s)); [reflexivity|apply fork_hart| |reflexivity].
      apply (fr_procs _ _ _ _ FR).
    + split; [split; [by eexists _, _|]|by eapply free_pages_eq|exact HF4]. intros d Hd HdF a Ha'.
      assert (d <> tf) as Hne by (by intros ->). transitivity (ldb m3 a); [apply (S4 d); [done|by rewrite HF4|done]|].
      transitivity (ldb m2 a); [|by apply (fork_m2 d)]. apply W3. assert (page_disjoint d tf) as D by (by apply aligned_disjoint).
      unfold page_disjoint in D. lia.
Qed.
End done.
End fork.

(** the slot after a fork that failed: free, its context may be the new one *)
Definition refused (q : proc) (c : context) : proc := cleared (p_set_context (fun _ => c) q).

(** with a free slot and its lock, kfork is uvmcopy and the tail *)
Lemma kfork_alloc p np pr s F t x : fork_ready p pr s F -> allocproc s = Ok (Some np) t -> k_procs t !! p = Some pr -> k_procs t !! np = Some x ->
  kfork s = (let! c := uvmcopy (p_pagetable pr) (p_pagetable x) (p_sz pr) in
             if c <? 0 then freeproc np ;; release (LProc np) ;; ret (-1) else kfork_tail p np pr x) t.
Proof.
  intros FR E Hp Hx. unfold kfork. erewrite bind_ok by (apply (myproc_deref_run s p); [apply FR|apply FR]). erewrite bind_ok by exact E. cbv iota beta.
  erewrite (bind_ok (get_proc p)) by (by apply get_proc_ok). by erewrite (bind_ok (get_proc np)) by (by apply get_proc_ok).
Qed.

Lemma allocproc_scan s : procs_ok s ->
  allocproc s = match list_find (fun q => p_state q = UNUSED) (k_procs s) with
                | Some (np, _) => init_proc np (set_hart (hart_lock (LProc np)) s)
                | None => Ok None s
                end.
Proof.
  intros Hok. unfold allocproc, procs. pose proof Hok as (_ & Hlen & _). rewrite <-Hlen.
  pose proof (find_unused_scan s (k_procs s) 0 Hok ltac:(done)) as H.
  destruct (list_find _ (k_procs s)) as [[np q]|]; by erewrite bind_ok by exact H.
Qed.

(** * Theorem *)

(** C7: fork.  Without a free slot kfork returns -1 and changes nothing.  With
    the first free slot it either fails for lack of memory, and then returns -1
    with every page free again, the slot still free and the open files and
    inodes as they were; or it returns a new pid and the slot is a runnable child
    of the caller with a copy of its memory and registers (a0 is 0), the
    same page attributes, every descriptor of the parent (each counted once more
    in the file table) and its current directory.  A descriptor the parent has
    not open keeps what the slot held before.  The pages of the child were free;
    no page that was not free is changed. *)
Theorem kfork_correct p pr s F : fork_ready p pr s F ->
  match list_find (fun q => p_state q = UNUSED) (k_procs s) with
  | None => kfork s = Ok (-1) s
  | Some (np, q) =>
      (exists m fl F' c,
         kfork s = Ok (-1) (pst s (k_hart s) m fl (<[np := refused q c]> (k_procs s)) (k_nextpid s + 1) (k_ftable s) (k_itable s)) /\
         undone s F (with_mem m fl s) F') \/
      (exists tf r m fl F' cwd T,
         let ch := forked p pr q tf r (k_nextpid s) (child_ctx q s) in
         kfork s = Ok (k_nextpid s) (pst s (k_hart s) m fl (<[np := ch]> (k_procs s)) (k_nextpid s + 1) T
                     (alter (i_set_ref (fun n => n + 1)) cwd (k_itable s))) /\
         p_cwd pr = Some cwd /\
         (forall f, T !! f = f_set_ref (fun n => n + Z.of_nat (length (fds (p_ofile pr) (seq 0 nfiles) f))) <$> k_ftable s !! f) /\
         (forall fd, (fd < nfiles)%nat -> p_ofile ch !! fd =
            match p_ofile pr !! fd with Some (Some f) => Some (Some f) | _ => p_ofile q !! fd end) /\
         free_pages (with_mem m fl s) F' /\
         forked_mem (k_img s) (p_pagetable pr) (p_trapframe pr) r tf (PGROUNDUP (p_sz pr)) (k_mem s) F m F')
  end.
Proof.
  intros FR. pose proof (fr_procs _ _ _ _ FR) as Hok. pose proof (allocproc_scan s Hok) as Ea.
  destruct (list_find _ (k_procs s)) as [[np q]|] eqn:Ef.
  2: { unfold kfork. erewrite bind_ok by (apply (myproc_deref_run s p); apply FR). by erewrite bind_ok by exact Ea. }
  apply list_find_Some in Ef as (Hq & Hun & _). destruct (fr_slots _ _ _ _ FR np q Hq Hun) as (Hpt & Hsz & Hlen).
  destruct (init_proc_run np q s F) as [(m & fl & F' & E & U)|(tf & r & m1 & fl1 & F1 & E & Hr & CS)].
  { apply Hok. } { apply Hok. } { apply (fr_locks _ _ _ _ FR); set_solver. } { apply (fr_locks _ _ _ _ FR); set_solver. } { done. } { done. } { apply FR. }
  { left. exists m, fl, F', (p_context q). split; [|exact U]. unfold kfork. erewrite bind_ok by (apply (myproc_deref_run s p); apply FR).
    rewrite E in Ea. erewrite bind_ok by exact Ea. by destruct q. }
  rewrite E in Ea. set (x := started q (k_nextpid s) tf r (child_ctx q s)) in *. destruct (fr_cwd _ _ _ _ FR) as [cwd Hc].
  pose proof (kfork_alloc p np pr s F _ x FR Ea (fork_parent p np pr q s F FR Hq Hun _ _ _ _ _) (fork_child np q s Hq _ _ _ _ _)) as Ek.
  pose proof (fork_forkable p np pr q s F FR Hq Hun tf r m1 fl1 F1 CS x (k_ftable s) (k_itable s)) as FO.
  destruct (round_TRAPFRAME _ (fr_sz _ _ _ _ FR)) as [Hhi _]. destruct trap_pages as (T1 & T2 & _ & _ & T5 & T6).
  destruct (uvmcopy_run _ _ _ _ _ FO (p_sz pr)) as (c & t2 & F2 & Eu & H); [pose proof (fr_sz _ _ _ _ FR); lia|done|].
  erewrite bind_ok in Ek by exact Eu. destruct H as [[-> Cg]|[-> Ff]].
  - right. destruct (cp_state _ _ _ _ _ _ _ (cg_copied _ _ _ _ _ _ _ Cg)) as (m2 & fl2 & ->).
    destruct (fork_mem_ok p np pr s F FR tf r m1 fl1 F1 CS x m2 fl2 F2 Cg) as [Fm Ffr].
    exists tf, r, (child_regs pr tf m2), fl2, F2, cwd, (foldl (dup_file (p_ofile pr)) (k_ftable s) (seq 0 nfiles)). split_and!; [|done| | |done|done].
    + rewrite Ek. exact (kfork_tail_run p np pr q s F FR Hq Hun tf r m1 fl1 F1 CS x m2 fl2 (k_nextpid s) (child_ctx q s) cwd Hc eq_refl).
    + intros f. apply dup_files_lookup.
    + intros fd Hfd. cbn [p_ofile forked]. rewrite child_files_lookup by lia. destruct (p_ofile pr !! fd) as [[f|]|]; try done.
      by rewrite decide_True by (apply elem_of_seq; lia).
  - left. destruct (ff_state _ _ _ _ _ _ Ff) as (m2 & fl2 & ->).
    destruct (fork_undo p np pr q s F FR Hq Hun tf r m1 fl1 F1 CS x m2 fl2 F2 Ff Hr eq_refl eq_refl Hsz) as (m' & fl' & F' & E' & U).
    exists m', fl', F', (child_ctx q s). split; [|exact U]. rewrite Ek. exact E'.
Qed.

(** * Witness *)

(** one process with a page of memory, an open file and a current directory *)
Definition demo_parent : proc :=
  mkproc RUNNING ChNull 0 0 1 None 0 4000 demo_root demo_child context0 (Some 0%nat :: replicate 15 None) (Some 0%nat) (replicate 16 0).
Definition fork_state (s : kstate) : kstate :=
  set_hart (fun _ => mkhart 0 (Some 0%nat) 0 0 0 ∅)
    (set_procs (fun _ => demo_parent :: replicate 63 proc0) (set_ftable (fun _ => [mkfile FD_DEVICE 1 1 1 0 None 0 1]) s)).

Lemma demo_fork_ready : exists F, fork_ready 0 demo_parent (fork_state demo_parent_state) F.
Proof.
  destruct demo_fork as (F & [O1 O2 O3 [V1 V2 _] _ _ _] & _). exists F. generalize dependent demo_parent_state. intros s O1 O2 O3 V1 V2. split.
  - split; [apply hart_ok_idle|]. split; [reflexivity|]. intros i. apply lookup_empty.
  - reflexivity.
  - reflexivity.
  - discriminate.
  - intros l _. apply lookup_empty.
  - intros [|i] x Hx Hs; [by injection Hx as <-|]. change (replicate 63 proc0 !! i = Some x) in Hx.
    apply lookup_replicate in Hx as [-> _]. done.
  - by eapply free_pages_eq.
  - split; [done|discriminate].
  - exact O1.
  - exact O2.
  - exact O3.
  - apply (pt_good _ _ _ _ V2 NRoot demo_child); done.
  - intros [|i] f Hf; [|change (replicate 15 None !! i = Some (Some f)) in Hf; by apply lookup_replicate in Hf as [? _]].
    injection Hf as <-. eexists. split; [reflexivity|done].
  - by eexists.
Qed.

(** the child has pid 1 and slot 1 *)
Lemma kfork_correct_witness : exists s', kfork (fork_state demo_parent_state) = Ok 1 s' /\ p_state <$> k_procs s' !! 1%nat = Some RUNNABLE.
Proof.
  destruct demo_fork_ready as (F & FR). pose proof (kfork_correct 0 demo_parent (fork_state demo_parent_state) F FR) as H.
  assert (match kfork (fork_state demo_parent_state) with Ok r _ => r =? 1 | _ => false end = true) as Hr by (vm_compute; reflexivity).
  change (list_find (fun q => p_state q = UNUSED) (k_procs (fork_state demo_parent_state))) with (Some (1%nat, proc0)) in H. cbv iota beta in H.
  destruct H as [(m & fl & F' & c & E & _)|(tf & r & m & fl & F' & cwd & T & E & _)]; rewrite E in Hr; [discriminate Hr|].
  eexists. split; [exact E|]. reflexivity.
Defined.
