(* ===== verification/WaitSpec.v ===== *)
(** wait (kernel/proc.c): kwait collects a zombie child and gives its memory
    back, sleeps when there is none yet, and fails without children. *)

From stdpp Require Import base gmap strings numbers list.
From S2P Require Import Prelude KState KString Spinlock Kalloc Vm VmPte VmTree VmSpec VmCopy VmFork VmFree ProcSync SyncSpec Fs File PipeSpec ProcLife ProcSpec ForkSpec.

(** * Freeing a process *)

(** the pages of a process that no longer runs *)
Record process_space (s : kstate) (F : list Z) (q : proc) : Prop := {
  ps_sz : 0 <= p_sz q <= TRAPFRAME;
  ps_pt : pt_inv (k_img s) (k_mem s) (p_pagetable q) F;
  ps_ptrs : ptrs (k_mem s) (p_pagetable q);
  ps_data : data_ok (k_img s) (k_mem s) (p_pagetable q) F 0 (PGROUNDUP (p_sz q));
  ps_gap va : PGROUNDUP (p_sz q) <= va < TRAPFRAME -> ~ vvalid (k_mem s) (p_pagetable q) va;
  ps_tf : good_page (k_img s) (p_trapframe q) /\ p_trapframe q ∉ F /\
    ~ space_page (k_mem s) (p_pagetable q) (PGROUNDUP (p_sz q)) (p_trapframe q)
}.

(** exactly the pages of [q] are free in addition, nothing else changed *)
Record process_freed (s : kstate) (F : list Z) (q : proc) (m' : mem) (fl' : Z) (F' : list Z) : Prop := {
  pf_free : free_pages (with_mem m' fl' s) F';
  pf_list y : y ∈ F' <-> y ∈ F \/ y = p_trapframe q \/ space_page (k_mem s) (p_pagetable q) (PGROUNDUP (p_sz q)) y;
  pf_same d : d mod PGSIZE = 0 -> d ∉ F' -> forall a, d <= a < d + PGSIZE -> ldb m' a = ldb (k_mem s) a
}.

Section free.
Context (i : nat) (q : proc) (s : kstate) (F : list Z) (h : hart).
Hypothesis Hq : k_procs s !! i = Some q.
Hypothesis Hf : free_pages s F.
Hypothesis PS : process_space s F q.
Hypothesis Hh : hart_ok h.
Hypothesis Hl : h_locks h !! LKmem = None.

Local Abbreviation st m fl P := (pst s h m fl P (k_nextpid s) (k_ftable s) (k_itable s)).

Lemma st_lock m fl P : lock_free LKmem (st m fl P).
Proof. by split. Qed.

Lemma freeproc_frees : exists m' fl' F',
  freeproc i (set_hart (fun _ => h) s) = Ok tt (st m' fl' (<[i := cleared q]> (k_procs s))) /\ process_freed s F q m' fl' F'.
Proof.
  destruct PS as [Z1 Z2 Z3 Z4 Z5 (Gt & HtF & Hts)]. set (tf := p_trapframe q) in *. set (r := p_pagetable q) in *. set (hi := PGROUNDUP (p_sz q)) in *.
  pose proof (good_page_pos _ _ Gt) as Hpos. destruct (pt_good _ _ _ _ Z2 NRoot r I eq_refl) as [Gr _]. pose proof (good_page_pos _ _ Gr) as Hr.
  assert (not_table (k_mem s) r tf) as Hnt by (intros n Hn Hp; apply Hts; left; eauto).
  assert (vm_ok (set_hart (fun _ => h) s) r F) as V0 by (split; [by eapply free_pages_eq|exact Z2|by split]).
  destruct (vm_ok_kfree _ r tf F V0 Gt HtF Hnt) as (m1 & f1 & E1 & V1 & W1).
  set (x0 := p_set_trapframe (fun _ => 0) q). set (t1 := st m1 f1 (<[i := x0]> (k_procs s))).
  assert (forall n, node_ok n -> page_of m1 r n = page_of (k_mem s) r n) as Hpg by exact (page_of_write_page _ _ _ _ _ _ Z2 (proj1 Gt) Hnt W1).
  assert (forall va, pte_at m1 r va = pte_at (k_mem s) r va) as Hpt by (intros va; exact (pte_at_write_page _ _ _ _ _ _ va Z2 (proj1 Gt) Hnt W1)).
  assert (forall y, space_page m1 r hi y <-> space_page (k_mem s) r hi y) as Hsp.
  { intros y. unfold space_page, vvalid, vpage. setoid_rewrite Hpt. f_equiv. split; intros (n & Hn & H); exists n; (split; [done|]); by rewrite Hpg in *. }
  destruct (proc_freepagetable_run t1 r (tf :: F) (p_sz q)) as (t2 & F2 & E2 & [S1 S2 S3 S4]).
  - eapply vm_ok_eq; [exact V1|done..|apply st_lock].
  - exact (ptrs_write_page _ _ _ _ _ _ Z2 (proj1 Gt) Hnt W1 Z3).
  - exact Z1.
  - apply (data_ok_ext _ (k_mem s) _ _ F); [exact Z4|intros va _; apply Hpt|exact Hpg|]. intros va Hva Hv [E|Hin]%elem_of_cons.
    + apply Hts. right. exists va. done.
    + by destruct (da_page _ _ _ _ _ _ Z4 va Hva Hv) as (_ & _ & H).
  - intros va Hva. unfold vvalid. change (nz (Z.land (pte_at m1 r va) PTE_V) <> true). rewrite Hpt. by apply Z5.
  - destruct S1 as (m2 & f2 & ->). exists m2, f2, F2.
    assert (forall y, y ∈ F2 <-> y ∈ F \/ y = tf \/ space_page (k_mem s) r hi y) as HF.
    { intros y. rewrite S3, elem_of_cons. change (k_mem t1) with m1. fold hi. rewrite Hsp. tauto. }
    split.
    + erewrite (freeproc_run i q _ (st m1 f1 (k_procs s)) (st m2 f2 (<[i := x0]> (k_procs s)))); [reflexivity|exact Hq| |reflexivity| |reflexivity].
      * fold tf. rewrite (proj2 (nz_true tf)) by lia. exact E1.
      * fold r. rewrite (proj2 (nz_true r)) by lia. exact E2.
    + split; [by eapply free_pages_eq|exact HF|]. intros d Hd HdF a Ha. transitivity (ldb m1 a); [by apply (S4 d)|]. apply W1.
      rewrite HF in HdF. assert (page_disjoint d tf) as D by (apply aligned_disjoint; [done|apply Gt|tauto]). unfold page_disjoint in D. lia.
Qed.
End free.

(** * The scan of kwait *)

Definition child_of (p : nat) (q : proc) : Prop := p_parent q = Some p.
Definition zombie_of (p : nat) (q : proc) : Prop := p_parent q = Some p /\ p_state q = ZOMBIE.
#[export] Typeclasses Opaque child_of zombie_of.
#[export] Instance child_of_dec p q : Decision (child_of p q).
Proof. unfold child_of. apply _. Defined.
#[export] Instance zombie_of_dec p q : Decision (zombie_of p q).
Proof. unfold zombie_of. apply _. Defined.

Lemma set_hart_hart f g s : set_hart f (set_hart g s) = set_hart (fun h => f (g h)) s.
Proof. reflexivity. Qed.

(** what kwait does with the zombie [i], its lock held *)
Definition reap (p i : nat) (pp : proc) : K (Z + bool) :=
  let! pr := get_proc p in
  freeproc i ;; release (LProc i) ;; release LWait ;; ret (inl (p_pid pp)).

Lemma kwait_scan_run p s : procs_ok s -> is_Some (k_procs s !! p) -> forall l k kids,
  (forall i, (i < length l)%nat -> k_procs s !! (k + i)%nat = l !! i) ->
  kwait_scan p 0 (seq k (length l)) kids s =
  match list_find (zombie_of p) l with
  | Some (i, q) => reap p (k + i) q (set_hart (hart_lock (LProc (k + i))) s)
  | None => Ok (inr (kids || bool_decide (Exists (child_of p) l))) s
  end.
Proof.
  intros (Hok & Hlen & Hf) [pr Hpr]. induction l as [|q l IH]; intros k kids Hl; cbn [length seq list_find kwait_scan].
  { rewrite bool_decide_false by (intros H; by apply Exists_nil in H). by rewrite orb_false_r. }
  pose proof (Hl 0%nat ltac:(simpl; lia)) as Hq. rewrite Nat.add_0_r in Hq. change ((q :: l) !! 0%nat) with (Some q) in Hq.
  assert (forall i, (i < length l)%nat -> k_procs s !! (S k + i)%nat = l !! i) as Hl'.
  { intros i Hi. replace (S k + i)%nat with (k + S i)%nat by lia. apply (Hl (S i)). simpl. lia. }
  assert (forall b, b = kids || bool_decide (child_of p q) -> kwait_scan p 0 (seq (S k) (length l)) b s =
    match list_find (zombie_of p) l with
    | Some (i, q) => reap p (k + S i) q (set_hart (hart_lock (LProc (k + S i))) s)
    | None => Ok (inr (kids || bool_decide (Exists (child_of p) (q :: l)))) s
    end) as Hrest.
  { intros b ->. rewrite (IH (S k) _ Hl'). destruct (list_find _ l) as [[i x]|]; [by replace (S k + i)%nat with (k + S i)%nat by lia|].
    do 2 f_equal. rewrite <-orb_assoc. do 2 f_equal. rewrite <-bool_decide_or. apply bool_decide_ext. by rewrite Exists_cons. }
  erewrite bind_ok by (apply get_proc_ok; exact Hq). destruct (decide (p_parent q = Some p)) as [E|E].
  - rewrite bool_decide_true by done. erewrite bind_ok by (apply acquire_run; by split).
    erewrite bind_ok by (apply get_proc_ok; exact Hq). destruct (decide (p_state q = ZOMBIE)) as [Z|Z].
    + rewrite bool_decide_true by done. rewrite decide_True by done. rewrite Nat.add_0_r. unfold reap.
      erewrite (bind_ok (get_proc p)) by (apply get_proc_ok; exact Hpr). by erewrite (bind_ok (get_proc p)) by (apply get_proc_ok; exact Hpr).
    + rewrite bool_decide_false by done. rewrite decide_False by (by intros [_ ?]).
      erewrite bind_ok by (apply (release_locked _ _ (k_hart s)); [done|apply Hf|done]). rewrite set_hart_hart, set_hart_id.
      rewrite Hrest by (unfold child_of; by rewrite (bool_decide_true _ E), orb_true_r). by destruct (list_find _ l) as [[i x]|].
  - rewrite bool_decide_false by done. rewrite decide_False by (by intros [? _]).
    rewrite Hrest by (unfold child_of; by rewrite (bool_decide_false _ E), orb_false_r). by destruct (list_find _ l) as [[i x]|].
Qed.

(** * kwait *)

Record wait_ready (p : nat) (pr : proc) (s : kstate) : Prop := {
  wr_procs : procs_ok s;
  wr_me : h_proc (k_hart s) = Some p;
  wr_pr : k_procs s !! p = Some pr;
  wr_noff : h_noff (k_hart s) = 0;
  wr_wait : h_locks (k_hart s) !! LWait = None;
  wr_kmem : h_locks (k_hart s) !! LKmem = None
}.

Section wait.
Context (p : nat) (pr : proc) (s : kstate).
Hypothesis WR : wait_ready p pr s.
(** the state in which kwait holds its lock *)
Local Abbreviation w := (set_hart (hart_lock LWait) s).

Lemma wait_procs : procs_ok w.
Proof.
  destruct (wr_procs _ _ _ WR) as (H1 & H2 & H3). split; [by apply hart_lock_ok|]. split; [exact H2|]. intros i.
  change (<[LWait := h_id (k_hart s)]> (h_locks (k_hart s)) !! LProc i = None). by rewrite lookup_insert_ne.
Qed.

Lemma wait_release : release LWait w = Ok tt s.
Proof. rewrite (release_locked LWait w (k_hart s)); [reflexivity|apply WR|apply WR|reflexivity]. Qed.

Lemma wait_killed : killed p w = Ok (p_killed pr) w.
Proof. destruct wait_procs as (H1 & H2 & H3). apply killed_run. split; [exact H1|apply WR|apply WR|exact H2|exact H3]. Qed.

Lemma kwait_start : kwait 0 s = whileM WAKEUPS (kwait_body p 0) tt w.
Proof.
  unfold kwait. erewrite bind_ok by (apply (myproc_deref_run s p); apply WR).
  by erewrite bind_ok by (apply acquire_run; split; apply WR).
Qed.

Lemma wait_scan : kwait_scan p 0 procs false w =
  match list_find (zombie_of p) (k_procs s) with
  | Some (i, q) => reap p i q (set_hart (hart_lock (LProc i)) w)
  | None => Ok (inr (bool_decide (Exists (child_of p) (k_procs s)))) w
  end.
Proof.
  pose proof (kwait_scan_run p w wait_procs (mk_is_Some _ _ (wr_pr _ _ _ WR)) (k_procs s) 0 false ltac:(done)) as H.
  unfold procs. destruct (wr_procs _ _ _ WR) as (_ & Hlen & _). by rewrite <-Hlen.
Qed.

Lemma reap_run i q F : k_procs s !! i = Some q -> free_pages s F -> process_space s F q ->
  exists m fl F', reap p i q (set_hart (hart_lock (LProc i)) w) =
      Ok (inl (p_pid q)) (pst s (k_hart s) m fl (<[i := cleared q]> (k_procs s)) (k_nextpid s) (k_ftable s) (k_itable s)) /\
    process_freed s F q m fl F'.
Proof.
  intros Hq Hf PS. destruct wait_procs as (H1 & _ & H3). set (h2 := hart_lock (LProc i) (hart_lock LWait (k_hart s))).
  destruct (freeproc_frees i q s F h2 Hq Hf PS) as (m & fl & F' & E & P).
  { exact (hart_lock_ok (LProc i) _ H1). }
  { change (<[LProc i := h_id (k_hart w)]> (h_locks (k_hart w)) !! LKmem = None). rewrite lookup_insert_ne by done.
    change (<[LWait := h_id (k_hart s)]> (h_locks (k_hart s)) !! LKmem = None). rewrite lookup_insert_ne by done. apply WR. }
  exists m, fl, F'. split; [|exact P]. unfold reap. erewrite bind_ok by (apply get_proc_ok; exact (wr_pr _ _ _ WR)).
  change (set_hart (hart_lock (LProc i)) w) with (set_hart (fun _ => h2) s). erewrite bind_ok by exact E.
  erewrite (bind_ok (release (LProc i))) by (apply (release_locked (LProc i) _ (k_hart w)); [exact H1|apply H3|reflexivity]).
  erewrite (bind_ok (release LWait)) by (apply (release_locked LWait _ (k_hart s)); [apply WR|apply WR|reflexivity]). reflexivity.
Qed.
End wait.

(** * Theorem *)

(** C8: wait(0).  When some child of the caller is a zombie, kwait takes the
    first one in the table, returns its pid, clears its slot, and puts exactly
    its pages (user memory, tables and trap frame) on the free list; no other page
    changes.  Without a zombie it returns -1 when there is no child at all
    or the caller was killed, and changes nothing; else it puts the caller to
    sleep on its own channel, which kexit of a child wakes. *)
Theorem kwait_correct p pr s F : wait_ready p pr s -> free_pages s F ->
  (forall i q, k_procs s !! i = Some q -> zombie_of p q -> process_space s F q) ->
  match list_find (zombie_of p) (k_procs s) with
  | Some (i, q) => exists m fl F',
      kwait 0 s = Ok (p_pid q) (pst s (k_hart s) m fl (<[i := cleared q]> (k_procs s)) (k_nextpid s) (k_ftable s) (k_itable s)) /\
      process_freed s F q m fl F'
  | None =>
      if bool_decide (Exists (child_of p) (k_procs s)) && (p_killed pr =? 0)
      then exists k, kwait 0 s = Susp (set_hart (hart_lock (LProc p))
             (upd_proc p (fun q => p_set_state (fun _ => SLEEPING) (p_set_chan (fun _ => ChProc p) q)) s)) k
      else kwait 0 s = Ok (-1) s
  end.
Proof.
  intros WR Hf Hz. rewrite (kwait_start p pr s WR). pose proof (wait_scan p pr s WR) as Es. destruct WAKEUPS_S as [n ->].
  destruct (list_find (zombie_of p) (k_procs s)) as [[i q]|] eqn:Ef.
  - apply list_find_Some in Ef as (Hq & Hzq & _). destruct (reap_run p pr s WR i q F Hq Hf (Hz i q Hq Hzq)) as (m & fl & F' & E & P).
    exists m, fl, F'. split; [|exact P]. apply whileM_stop. unfold kwait_body. rewrite E in Es. by erewrite bind_ok by exact Es.
  - assert (kwait_body p 0 tt (set_hart (hart_lock LWait) s) =
      (let! k := if negb (bool_decide (Exists (child_of p) (k_procs s))) then ret 1 else killed p in
       if nz k then release LWait ;; ret (inr (-1)) else sleep (ChProc p) LWait ;; ret (inl tt)) (set_hart (hart_lock LWait) s)) as Eb.
    { unfold kwait_body. by erewrite bind_ok by exact Es. }
    destruct (bool_decide (Exists (child_of p) (k_procs s))); cbn [negb andb] in *.
    + erewrite bind_ok in Eb by exact (wait_killed p pr s WR). unfold nz in Eb. destruct (Z.eqb_spec (p_killed pr) 0) as [E0|E0]; cbn [negb] in Eb.
      * destruct (sleep_run (ChProc p) LWait p (set_hart (hart_lock LWait) s) (k_hart s)) as (k & E & _);
          [done|apply WR|apply WR|apply WR|apply WR|apply (wr_procs _ _ _ WR)|done|exact (mk_is_Some _ _ (wr_pr _ _ _ WR))|].
        unfold bind at 1 in Eb. rewrite E in Eb. cbn [rbind] in Eb. cbn [whileM]. unfold bind at 1. rewrite Eb. cbn [rbind]. by eexists.
      * apply whileM_stop. rewrite Eb. by erewrite bind_ok by exact (wait_release p pr s WR).
    + apply whileM_stop. rewrite Eb. mstep. cbn [nz Z.eqb negb]. by erewrite bind_ok by exact (wait_release p pr s WR).
Qed.

(** * Witness *)

Definition demo_zombie : proc :=
  mkproc ZOMBIE ChNull 0 7 2 (Some 0%nat) 0 0 demo_root 0x303000 context0 (replicate nfiles None) (Some 0%nat) (replicate 16 0).
Definition wait_state : kstate :=
  set_hart (fun _ => mkhart 0 (Some 0%nat) 0 0 0 ∅) (set_procs (fun _ => demo_parent :: demo_zombie :: replicate 62 proc0) vm_state).

Lemma wait_state_ready : wait_ready 0 demo_parent wait_state.
Proof.
  split; try reflexivity. split; [apply hart_ok_idle|]. split; [reflexivity|]. intros i. apply lookup_empty.
Qed.

Lemma demo_zombie_space : process_space wait_state demo_free demo_zombie.
Proof.
  destruct (fresh_root image0 (k_mem vm_state) demo_root demo_free) as (H1 & H2 & H3 & H4).
  - apply (good_page_demo 0). lia.
  - by apply (bool_decide_eq_false (_ ∈ demo_free)).
  - intros i Hi. by apply demo_entry.
  - split; [split; [done|discriminate]|exact H1|exact H2| |intros va _; apply H3|].
    + change (PGROUNDUP (p_sz demo_zombie)) with 0. split; intros; lia.
    + split; [apply (good_page_demo 3); lia|]. split; [by apply (bool_decide_eq_false (_ ∈ demo_free))|].
      change (PGROUNDUP (p_sz demo_zombie)) with 0. intros [(n & Hn & Hp)|(va & Hva & _)]; [|lia]. by apply H4 in Hp as [_ Hp].
Qed.

Lemma wait_state_zombies i q : k_procs wait_state !! i = Some q -> zombie_of 0 q -> process_space wait_state demo_free q.
Proof.
  intros Hq [_ Hz]. destruct i as [|[|i]]; [by injection Hq as <-|injection Hq as <-; exact demo_zombie_space|].
  change (replicate 62 proc0 !! i = Some q) in Hq. apply lookup_replicate in Hq as [-> _]. done.
Qed.

Lemma kwait_correct_witness : exists m fl F',
  kwait 0 wait_state = Ok 2 (pst wait_state (k_hart wait_state) m fl (<[1%nat := cleared demo_zombie]> (k_procs wait_state)) 1 (k_ftable wait_state) (k_itable wait_state)) /\
  process_freed wait_state demo_free demo_zombie m fl F'.
Proof.
  exact (kwait_correct 0 demo_parent wait_state demo_free wait_state_ready (free_pages_eq vm_state wait_state _ (vo_free _ _ _ vm_state_ok) eq_refl eq_refl eq_refl) wait_state_zombies).
Defined.
