(* ===== verification/ExitSpec.v ===== *)
(** exit (kernel/proc.c): kexit makes the process a zombie, hands its children
    to init, wakes the waiting parent and leaves for the scheduler. *)

From stdpp Require Import base gmap strings numbers list.
From S2P Require Import Prelude KState KString Spinlock Kalloc Vm VmSpec ProcSync SyncSpec Fs File ProcLife ProcSpec ForkSpec WaitSpec.

(** * reparent *)

Lemma wake_parent ch me i q : p_parent (wake ch me i q) = p_parent q.
Proof. unfold wake. destruct (bool_decide _); [done|]. by destruct (bool_decide _). Qed.

Lemma wake_wake ch me i q : wake ch me i (wake ch me i q) = wake ch me i q.
Proof.
  unfold wake. destruct (bool_decide (me = Some i)); [done|]. destruct (bool_decide (p_state q = SLEEPING /\ p_chan q = ch)) eqn:E; [|by rewrite E].
  by rewrite bool_decide_false by (by intros [? _]).
Qed.

Lemma wake_adopt ch me i f q : wake ch me i (p_set_parent f q) = p_set_parent f (wake ch me i q).
Proof. unfold wake. destruct (bool_decide _); [done|]. cbn. by destruct (bool_decide _). Qed.

Section reparent.
Context (p : nat) (s : kstate).
Hypothesis Hok : procs_ok s.
Local Abbreviation init := (k_initproc s).
Local Abbreviation me := (h_proc (k_hart s)).
Local Abbreviation ch := (chan_of init).

(** the process at [j] when the indices below [k] have been visited; [b]: a
    child was among them *)
Definition adopt (k : nat) (j : nat) (q : proc) : proc :=
  if bool_decide ((j < k)%nat /\ child_of p q) then p_set_parent (fun _ => init) q else q.
Definition visited (b : bool) (k : nat) (j : nat) (q : proc) : proc := if b then wake ch me j (adopt k j q) else adopt k j q.
Definition rst (b : bool) (k : nat) : kstate := set_procs (imap (visited b k)) s.

Definition some_child (k : nat) : bool := bool_decide (Exists (child_of p) (take k (k_procs s))).

Definition reparent_body (i : nat) : K unit :=
  let! pp := get_proc i in
  let! init := gets k_initproc in
  whenM (bool_decide (p_parent pp = Some p))
    (modify (upd_proc i (p_set_parent (fun _ => init))) ;;
     wakeup (chan_of init)).

Lemma rst_procs b k : procs_ok (rst b k).
Proof. destruct Hok as (H1 & H2 & H3). split; [exact H1|]. split; [|exact H3]. unfold rst. ksimp. by rewrite length_imap. Qed.

Lemma some_child_S k q : k_procs s !! k = Some q -> some_child (S k) = some_child k || bool_decide (child_of p q).
Proof.
  intros Hq. unfold some_child. rewrite (take_S_r _ _ _ Hq). rewrite <-bool_decide_or. apply bool_decide_ext. rewrite Exists_app, Exists_cons, Exists_nil. tauto.
Qed.

Lemma adopt_S k j q : j <> k \/ ~ child_of p q -> adopt (S k) j q = adopt k j q.
Proof. intros H. unfold adopt. assert ((j < S k)%nat /\ child_of p q <-> (j < k)%nat /\ child_of p q) as E by (split; [intros [? ?]; split; [destruct H; [lia|done]|done]|intros [? ?]; split; [lia|done]]). by rewrite (bool_decide_ext _ _ E). Qed.

Lemma reparent_step k : (k < Z.to_nat NPROC)%nat -> reparent_body k (rst (some_child k) k) = Ok tt (rst (some_child (S k)) (S k)).
Proof.
  intros Hk. destruct Hok as (Hh & Hlen & Hl). destruct (lookup_lt_is_Some_2 (k_procs s) k) as [q Hq]; [lia|].
  assert (k_procs (rst (some_child k) k) !! k = Some (visited (some_child k) k k q)) as Hqk.
  { unfold rst. ksimp. by rewrite list_lookup_imap, Hq. }
  assert (p_parent (visited (some_child k) k k q) = p_parent q) as Hpar.
  { unfold visited, adopt. rewrite bool_decide_false by (intros [? _]; lia). destruct (some_child k); [apply wake_parent|done]. }
  rewrite (some_child_S k q Hq). unfold reparent_body. erewrite bind_ok by (apply get_proc_ok; exact Hqk). mstep. rewrite Hpar.
  change (k_initproc (rst (some_child k) k)) with init. destruct (decide (child_of p q)) as [Hc|Hc].
  - replace (some_child k || bool_decide (child_of p q)) with true by (by rewrite (bool_decide_true _ Hc), orb_true_r).
    rewrite bool_decide_true by exact Hc. cbn [whenM]. mstep.
    rewrite wakeup_run by (apply procs_ok_alter, rst_procs). f_equal. unfold rst, upd_proc, set_procs. cbn. f_equal. apply list_eq. intros j.
    rewrite !list_lookup_imap. destruct (decide (k = j)) as [<-|Hne].
    + rewrite list_lookup_alter_eq, list_lookup_imap, Hq. cbn. f_equal. unfold visited, adopt.
      rewrite (bool_decide_false ((k < k)%nat /\ _)) by (intros [? _]; lia). rewrite (bool_decide_true ((k < S k)%nat /\ _)) by (split; [lia|done]).
      rewrite !wake_adopt. f_equal. destruct (some_child k); [apply wake_wake|done].
    + rewrite list_lookup_alter_ne by done. rewrite list_lookup_imap. destruct (k_procs s !! j) as [x|]; [|done]. cbn. f_equal.
      unfold visited. rewrite (adopt_S k j x) by (by left). destruct (some_child k); [apply wake_wake|done].
  - replace (some_child k || bool_decide (child_of p q)) with (some_child k) by (by rewrite (bool_decide_false _ Hc), orb_false_r).
    rewrite bool_decide_false by exact Hc. cbn [whenM]. unfold ret. f_equal. unfold rst, set_procs. cbn. f_equal.
    apply list_eq. intros j. rewrite !list_lookup_imap. destruct (k_procs s !! j) as [x|] eqn:Ex; [|done]. cbn. f_equal. unfold visited.
    rewrite (adopt_S k j x); [done|]. destruct (decide (j = k)) as [->|]; [right|by left]. rewrite Hq in Ex. by injection Ex as <-.
Qed.

Lemma reparent_loop n : forall k, (k + n <= Z.to_nat NPROC)%nat ->
  forM_ (seq k n) reparent_body (rst (some_child k) k) = Ok tt (rst (some_child (k + n)) (k + n)).
Proof.
  induction n as [|n IH]; intros k Hk; cbn [seq forM_]; [by rewrite Nat.add_0_r|].
  erewrite bind_ok by (apply reparent_step; lia). rewrite IH by lia. by replace (S k + n)%nat with (k + S n)%nat by lia.
Qed.

(** the children go to init, which is woken when there are any *)
Definition orphaned (j : nat) (q : proc) : proc :=
  let q' := if bool_decide (child_of p q) then p_set_parent (fun _ => init) q else q in
  if bool_decide (Exists (child_of p) (k_procs s)) then wake ch me j q' else q'.

Lemma reparent_run : reparent p s = Ok tt (set_procs (imap orphaned) s).
Proof.
  change (reparent p) with (forM_ procs reparent_body). destruct Hok as (_ & Hlen & _).
  assert (rst (some_child 0) 0 = s) as E0.
  { unfold rst, set_procs. assert (imap (visited (some_child 0) 0) (k_procs s) = k_procs s) as ->; [|reflexivity]. apply list_eq. intros j.
    rewrite list_lookup_imap. by destruct (k_procs s !! j). }
  rewrite <-E0 at 1. unfold procs. rewrite (reparent_loop (Z.to_nat NPROC) 0) by lia. f_equal. unfold rst, set_procs. cbn. f_equal.
  apply list_eq. intros j. rewrite !list_lookup_imap. destruct (k_procs s !! j) as [x|] eqn:Ex; [|done]. cbn [fmap option_fmap option_map]. f_equal.
  unfold visited, orphaned, some_child, adopt. rewrite <-Hlen, firstn_all.
  assert ((j < length (k_procs s))%nat /\ child_of p x <-> child_of p x) as E by (split; [tauto|]; intros H; split; [by eapply lookup_lt_Some|done]).
  by rewrite (bool_decide_ext _ _ E).
Qed.
End reparent.

(** * kexit *)

(** the exiting process *)
Definition dead (status : Z) (q : proc) : proc := p_set_state (fun _ => ZOMBIE) (p_set_xstate (fun _ => status) q).

(** the others: children are orphaned, then whoever waits in the parent is woken *)
Definition bystander (p : nat) (pr : proc) (s : kstate) (j : nat) (q : proc) : proc :=
  wake (chan_of (p_parent pr)) (Some p) j (orphaned p s j q).

Lemma wake_me ch p q : wake ch (Some p) p q = q.
Proof. unfold wake. by rewrite bool_decide_true. Qed.

(** C9: kexit.  It does not return to its caller: it leaves for the scheduler
    with the process a zombie that keeps its exit status, its memory, its
    descriptors and its working directory; the children of the process have init
    as their parent; init is woken when there were any, and so is the parent if it
    sleeps in wait.  Nothing but the process table changed: no open file was
    closed and no inode released.  If the process were ever scheduled again, the
    kernel would panic. *)
Theorem kexit_correct p pr status s : wait_ready p pr s -> p_parent pr <> Some p -> k_initproc s <> Some p ->
  exists P k,
    kexit status s = Susp (set_hart (hart_lock (LProc p)) (set_procs (fun _ => P) s)) k /\
    P !! p = Some (dead status pr) /\
    (forall j q, j <> p -> k_procs s !! j = Some q -> P !! j = Some (bystander p pr s j q)) /\
    forall s2, u_panicked (k_uart s2) = 0 -> exists s3, k s2 = Panic "zombie exit" s3.
Proof.
  intros WR Hself Hinit. pose proof (wait_procs p pr s WR) as Hw. set (w := set_hart (hart_lock LWait) s) in *.
  pose proof (wr_procs _ _ _ WR) as (Hok & Hlen & Hl). pose proof (wr_me _ _ _ WR) as Hme. pose proof (wr_pr _ _ _ WR) as Hpr.
  set (w1 := set_procs (imap (orphaned p w)) w).
  assert (procs_ok w1) as Hw1.
  { destruct Hw as (H1 & H2 & H3). split; [exact H1|]. split; [|exact H3]. unfold w1. ksimp. by rewrite length_imap. }
  assert (k_procs w1 !! p = Some pr) as Hp1.
  { unfold w1. ksimp. rewrite list_lookup_imap. change (k_procs w) with (k_procs s). rewrite Hpr. cbn. f_equal. unfold orphaned.
    rewrite (bool_decide_false (child_of p pr)) by done. change (h_proc (k_hart w)) with (h_proc (k_hart s)). rewrite Hme, wake_me.
    by destruct (bool_decide _). }
  set (w2 := set_procs (imap (wake (chan_of (p_parent pr)) (Some p))) w1).
  assert (k_procs w2 !! p = Some pr) as Hp2.
  { unfold w2. ksimp. rewrite list_lookup_imap, Hp1. cbn. by rewrite wake_me. }
  set (w3 := set_hart (fun _ => hart_lock (LProc p) (k_hart s)) (set_procs (fun _ => alter (dead status) p (k_procs w2)) s)).
  assert (h_noff (k_hart w3) = 1) as Hn by (change (h_noff (k_hart s) + 1 = 1); by rewrite (wr_noff _ _ _ WR)).
  assert (exists q, k_procs w3 !! p = Some q /\ p_state q <> RUNNING) as Hx.
  { exists (dead status pr). unfold w3. ksimp. rewrite list_lookup_alter_eq, Hp2. split; [done|discriminate]. }
  pose proof (sched_run p w3 (hart_lock_ok (LProc p) _ Hok) Hme (lookup_insert_eq _ _ _) Hn Hx) as Es.
  exists (alter (dead status) p (k_procs w2)). eexists. split; [|split; [|split]].
  - unfold kexit. erewrite bind_ok by (apply (myproc_deref_run s p); [exact Hok|exact Hme]). mstep. rewrite bool_decide_false by done.
    erewrite bind_ok by (apply acquire_run; split; [exact Hok|apply WR]). fold w.
    erewrite bind_ok by (by apply reparent_run). fold w1. erewrite bind_ok by (apply get_proc_ok; exact Hp1).
    erewrite bind_ok by (by apply wakeup_run). change (h_proc (k_hart w1)) with (h_proc (k_hart s)). rewrite Hme. fold w2.
    erewrite bind_ok by (apply acquire_run; split; [apply Hw1|apply Hw1]). mstep. mstep.
    erewrite (bind_ok (release LWait)).
    2: { apply (release_outer_run LWait (LProc p) (k_hart s)); [exact Hok|done|apply WR|apply WR|reflexivity]. }
    set (t := set_hart _ _). assert (t = w3) as ->.
    { unfold t, w3, upd_proc, set_hart, set_procs. cbn. f_equal. rewrite list_alter_alter_eq. reflexivity. }
    unfold bind at 1. rewrite Es. reflexivity.
  - rewrite list_lookup_alter_eq, Hp2. done.
  - intros j q Hne Hq. rewrite list_lookup_alter_ne by done. unfold w2, w1. ksimp. rewrite !list_lookup_imap. change (k_procs w) with (k_procs s). by rewrite Hq.
  - intros s2 Hu. cbn [rbind]. by apply panic_is_panic.
Qed.

(** * Witness *)

Lemma kexit_correct_witness : exists P k, kexit 3 wait_state = Susp (set_hart (hart_lock (LProc 0)) (set_procs (fun _ => P) wait_state)) k /\
  P !! 0%nat = Some (dead 3 demo_parent).
Proof.
  destruct (kexit_correct 0 demo_parent 3 wait_state wait_state_ready) as (P & k & E & H & _); [discriminate|discriminate|].
  exists P, k. split; [exact E|exact H].
Defined.
