(* ===== verification/Syscall.v ===== *)
(** kernel/syscall.c, kernel/sysproc.c and kernel/sysfile.c: fetching the
    arguments of a system call, the calls, and their dispatch.  A system call
    returns a [uint64]: the error value -1 is [2^64 - 1]. *)

From stdpp Require Import base gmap strings numbers list.
From S2P Require Import Prelude KState KString Spinlock Printf Kalloc Vm ProcSync Log Fs.
From S2P Require Import Console File ProcLife.

(** * Definitions *)

Definition fetchaddr (addr : Z) : K (Z * Z) :=
  let! p := myproc_deref in
  let! pr := get_proc p in
  if (p_sz pr <=? addr) || (p_sz pr <? u64 (addr + 8)) then ret (-1, 0)
  else
    let! ' (r, bytes) := copyin (p_pagetable pr) addr 8 in
    if negb (r =? 0) then ret (-1, 0) else ret (0, le_val bytes).

(** the result and the bytes stored into [buf] *)
Definition fetchstr (addr max : Z) : K (Z * list Z) :=
  let! p := myproc_deref in
  let! pr := get_proc p in
  let! ' (r, bytes) := copyinstr (p_pagetable pr) addr max in
  if r <? 0 then ret (-1, bytes)
  else ret (Z.of_nat (length (until_nul bytes)), bytes).

Definition argraw (n : Z) : K Z :=
  let! p := myproc_deref in
  if (0 <=? n) && (n <=? 5) then tf_load p (TF_a n) else panic "argraw".

Definition argint (n : Z) : K Z := let! x := argraw n in ret (s32 x).
Definition argaddr (n : Z) : K Z := argraw n.
Definition argstr (n max : Z) : K (Z * list Z) :=
  let! addr := argaddr n in fetchstr addr max.

(** a path argument: [None] when argstr fails *)
Definition argpath (n : Z) : K (option (list Z)) :=
  let! ' (r, bytes) := argstr n MAXPATH in
  ret (if r <? 0 then None else Some (until_nul bytes)).

(** ** sysproc.c *)

Definition sys_exit : K Z :=
  let! n := argint 0 in kexit n ;; ret 0.

Definition sys_getpid : K Z :=
  let! p := myproc_deref in let! pr := get_proc p in ret (p_pid pr).

Definition sys_fork : K Z := kfork.

Definition sys_wait : K Z := let! p := argaddr 0 in kwait p.

Definition SBRK_EAGER : Z := 1.

Definition sys_sbrk : K Z :=
  let! n := argint 0 in
  let! t := argint 1 in
  let! p := myproc_deref in
  let! pr := get_proc p in
  let addr := p_sz pr in
  if (t =? SBRK_EAGER) || (n <? 0) then
    let! r := growproc n in
    if r <? 0 then ret (-1) else ret addr
  else if u64 (addr + n) <? addr then ret (-1)
  else if TRAPFRAME <? u64 (addr + n) then ret (-1)
  else
    modify (upd_proc p (p_set_sz (fun sz => u64 (sz + n)))) ;;
    ret addr.

Definition sys_pause_body (n ticks0 : Z) (_ : unit) : K (unit + Z) :=
  let! t := gets k_ticks in
  if negb (u32 (t - ticks0) <? n) then release LTicks ;; ret (inr 0)
  else
    let! p := myproc_deref in
    let! k := killed p in
    if nz k then release LTicks ;; ret (inr (-1))
    else sleep ChTicks LTicks ;; ret (inl tt).

Definition sys_pause : K Z :=
  let! n := argint 0 in
  let n := if n <? 0 then 0 else n in
  acquire LTicks ;;
  let! ticks0 := gets k_ticks in
  whileM WAKEUPS (sys_pause_body n ticks0) tt.

Definition sys_kill : K Z := let! pid := argint 0 in kkill pid.

Definition sys_uptime : K Z :=
  acquire LTicks ;;
  let! x := gets k_ticks in
  release LTicks ;;
  ret x.

(** ** sysfile.c *)

(** the descriptor and its file *)
Definition argfd (n : Z) : K (option (Z * nat)) :=
  let! fd := argint n in
  if (fd <? 0) || (NOFILE <=? fd) then ret None
  else
    let! p := myproc_deref in
    let! pr := get_proc p in
    match p_ofile pr !! Z.to_nat fd with
    | Some (Some f) => ret (Some (fd, f))
    | _ => ret None
    end.

(** the first free descriptor *)
Fixpoint free_fd (l : list (option nat)) (fd : nat) : option nat :=
  match l with
  | [] => None
  | None :: _ => Some fd
  | Some _ :: l' => free_fd l' (S fd)
  end.

Definition fdalloc (f : nat) : K Z :=
  let! p := myproc_deref in
  let! pr := get_proc p in
  match free_fd (p_ofile pr) 0 with
  | Some fd =>
      modify (upd_proc p (p_set_ofile (<[fd := Some f]>))) ;;
      ret (Z.of_nat fd)
  | None => ret (-1)
  end.

Definition clear_fd (p : nat) (fd : Z) : K unit :=
  modify (upd_proc p (p_set_ofile (<[Z.to_nat fd := None]>))).

Definition sys_dup : K Z :=
  printf "sys_dup" [] ;;
  let! r := argfd 0 in
  match r with
  | None => ret (-1)
  | Some (_, f) =>
      let! fd := fdalloc f in
      if fd <? 0 then ret (-1)
      else
        let! _f := filedup f in
        printf "sys_dup: fd=%d\n" [VWord fd] ;;
        ret fd
  end.

Definition sys_read : K Z :=
  let! p := argaddr 1 in
  let! n := argint 2 in
  let! r := argfd 0 in
  match r with None => ret (-1) | Some (_, f) => fileread f p n end.

Definition sys_write : K Z :=
  let! p := argaddr 1 in
  let! n := argint 2 in
  let! r := argfd 0 in
  match r with None => ret (-1) | Some (_, f) => filewrite f p n end.

Definition sys_close : K Z :=
  let! r := argfd 0 in
  match r with
  | None => ret (-1)
  | Some (fd, f) =>
      let! p := myproc_deref in
      clear_fd p fd ;;
      fileclose f ;;
      ret 0
  end.

Definition sys_fstat : K Z :=
  let! st := argaddr 1 in
  let! r := argfd 0 in
  match r with None => ret (-1) | Some (_, f) => filestat f st end.

Definition add_nlink (ip : nat) (d : Z) : K unit :=
  modify (upd_inode ip (i_set_nlink (fun n => s16 (n + d)))).

(** the label [bad] of sys_link *)
Definition link_bad (ip : nat) : K Z :=
  ilock (Some ip) ;;
  add_nlink ip (-1) ;;
  iupdate ip ;;
  iunlockput ip ;;
  end_op ;;
  ret (-1).

Definition sys_link : K Z :=
  let! old := argpath 0 in
  let! new := match old with Some _ => argpath 1 | None => ret None end in
  match old, new with
  | Some old, Some new =>
      begin_op ;;
      let! r := namei old in
      match r with
      | None => end_op ;; ret (-1)
      | Some ip =>
          ilock (Some ip) ;;
          let! ino := get_inode ip in
          if i_type ino =? T_DIR then iunlockput ip ;; end_op ;; ret (-1)
          else
            add_nlink ip 1 ;;
            iupdate ip ;;
            iunlock (Some ip) ;;
            let! ' (r, name) := nameiparent new in
            match r with
            | None => link_bad ip
            | Some dp =>
                ilock (Some dp) ;;
                let! d := get_inode dp in
                let! ino := get_inode ip in
                let! l := if negb (i_dev d =? i_dev ino) then ret (-1)
                          else dirlink dp name (i_inum ino) in
                if l <? 0 then iunlockput dp ;; link_bad ip
                else
                  iunlockput dp ;;
                  iput ip ;;
                  end_op ;;
                  ret 0
            end
      end
  | _, _ => ret (-1)
  end.

Definition isdirempty_body (dp : nat) (off : Z) : K (option Z) :=
  let! de := read_dirent dp off "isdirempty: readi" in
  ret (if negb (de_inum de =? 0) then Some 0 else None).

(** the offsets from the third entry on *)
Definition isdirempty (dp : nat) : K Z :=
  let! d := get_inode dp in
  let! r := forM (drop 2 (dirent_offs (i_size d))) (isdirempty_body dp) in
  ret (default 1 r).

Definition unlink_bad (dp : nat) : K Z := iunlockput dp ;; end_op ;; ret (-1).

Definition sys_unlink : K Z :=
  let! path := argpath 0 in
  match path with
  | None => ret (-1)
  | Some path =>
      begin_op ;;
      let! ' (r, name) := nameiparent path in
      match r with
      | None => end_op ;; ret (-1)
      | Some dp =>
          ilock (Some dp) ;;
          if (namecmp name (cstr ".") =? 0) || (namecmp name (cstr "..") =? 0)
          then unlink_bad dp
          else
          let! r := dirlookup dp name in
          match r with
          | None => unlink_bad dp
          | Some (ip, off) =>
              ilock (Some ip) ;;
              let! ino := get_inode ip in
              if i_nlink ino <? 1 then panic "unlink: nlink < 1"
              else
              let! full := if i_type ino =? T_DIR
                           then let! e := isdirempty ip in ret (negb (nz e)) else ret false in
              if (full : bool) then iunlockput ip ;; unlink_bad dp
              else
                let! n := writei dp (KernLocal dirent0 0) off SIZEOF_DIRENT in
                if negb (n =? SIZEOF_DIRENT) then panic "unlink: writei"
                else
                  whenM (i_type ino =? T_DIR) (add_nlink dp (-1) ;; iupdate dp) ;;
                  iunlockput dp ;;
                  add_nlink ip (-1) ;;
                  iupdate ip ;;
                  iunlockput ip ;;
                  end_op ;;
                  ret 0
          end
      end
  end.

(** the label [fail] of create *)
Definition create_fail (ip dp : nat) : K (option nat) :=
  modify (upd_inode ip (i_set_nlink (fun _ => 0))) ;;
  iupdate ip ;;
  iunlockput ip ;;
  iunlockput dp ;;
  ret None.

(** the entries of a new inode: false is [goto fail] *)
Definition create_links (ip dp : nat) (name : list Z) (type : Z) : K bool :=
  let! ino := get_inode ip in
  let! d := get_inode dp in
  let! dots :=
    if type =? T_DIR then
      let! r := dirlink ip (cstr ".") (i_inum ino) in
      if r <? 0 then ret (-1) else dirlink ip (cstr "..") (i_inum d)
    else ret 0 in
  if dots <? 0 then ret false
  else
    let! r := dirlink dp name (i_inum ino) in
    ret (negb (r <? 0)).

Definition create (path : list Z) (type major minor : Z) : K (option nat) :=
  let! ' (r, name) := nameiparent path in
  match r with
  | None => ret None
  | Some dp =>
      ilock (Some dp) ;;
      let! r := dirlookup dp name in
      match r with
      | Some (ip, _) =>
          iunlockput dp ;;
          ilock (Some ip) ;;
          let! ino := get_inode ip in
          if (type =? T_FILE) && ((i_type ino =? T_FILE) || (i_type ino =? T_DEVICE))
          then ret (Some ip)
          else iunlockput ip ;; ret None
      | None =>
          let! d := get_inode dp in
          let! r := ialloc (i_dev d) type in
          match r with
          | None => iunlockput dp ;; ret None
          | Some ip =>
              ilock (Some ip) ;;
              modify (upd_inode ip (i_set_major (fun _ => s16 major))) ;;
              modify (upd_inode ip (i_set_minor (fun _ => s16 minor))) ;;
              modify (upd_inode ip (i_set_nlink (fun _ => 1))) ;;
              iupdate ip ;;
              let! ok := create_links ip dp name type in
              if negb ok then create_fail ip dp
              else
                whenM (type =? T_DIR) (add_nlink dp 1 ;; iupdate dp) ;;
                iunlockput dp ;;
                ret (Some ip)
          end
      end
  end.

(** the part of sys_open that finds the inode, locked; [None]: the
    transaction is ended and the call fails *)
Definition open_inode (path : list Z) (omode : Z) : K (option nat) :=
  if nz (Z.land omode O_CREATE) then
    let! r := create path T_FILE 0 0 in
    match r with None => end_op ;; ret None | Some ip => ret (Some ip) end
  else
    let! r := namei path in
    match r with
    | None => end_op ;; ret None
    | Some ip =>
        ilock (Some ip) ;;
        let! ino := get_inode ip in
        if (i_type ino =? T_DIR) && negb (omode =? O_RDONLY)
        then iunlockput ip ;; end_op ;; ret None
        else ret (Some ip)
    end.

(** [(f = filealloc()) == 0 || (fd = fdalloc(f)) < 0], with its cleanup *)
Definition open_file : K (option (nat * Z)) :=
  let! f := filealloc in
  match f with
  | None => ret None
  | Some f =>
      let! fd := fdalloc f in
      if fd <? 0 then fileclose f ;; ret None else ret (Some (f, fd))
  end.

Definition open_fields (omode : Z) (ip : nat) (ino : inode) (f : file) : file :=
  mkfile (if i_type ino =? T_DEVICE then FD_DEVICE else FD_INODE) (f_ref f)
    (b2z (negb (nz (Z.land omode O_WRONLY))))
    (b2z (nz (Z.land omode O_WRONLY) || nz (Z.land omode O_RDWR)))
    (f_pipe f) (Some ip)
    (if i_type ino =? T_DEVICE then f_off f else 0)
    (if i_type ino =? T_DEVICE then i_major ino else f_major f).

Definition sys_open : K Z :=
  let! omode := argint 1 in
  let! path := argpath 0 in
  match path with
  | None => ret (-1)
  | Some path =>
      begin_op ;;
      let! r := open_inode path omode in
      match r with
      | None => ret (-1)
      | Some ip =>
          let! ino := get_inode ip in
          if (i_type ino =? T_DEVICE) && ((i_major ino <? 0) || (NDEV <=? i_major ino))
          then iunlockput ip ;; end_op ;; ret (-1)
          else
            let! r := open_file in
            match r with
            | None => iunlockput ip ;; end_op ;; ret (-1)
            | Some (f, fd) =>
                modify (upd_file f (open_fields omode ip ino)) ;;
                whenM (nz (Z.land omode O_TRUNC) && (i_type ino =? T_FILE)) (itrunc ip) ;;
                iunlock (Some ip) ;;
                end_op ;;
                ret fd
            end
      end
  end.

Definition sys_mkdir : K Z :=
  begin_op ;;
  let! path := argpath 0 in
  let! r := match path with Some path => create path T_DIR 0 0 | None => ret None end in
  match r with
  | None => end_op ;; ret (-1)
  | Some ip => iunlockput ip ;; end_op ;; ret 0
  end.

Definition sys_mknod : K Z :=
  begin_op ;;
  let! major := argint 1 in
  let! minor := argint 2 in
  let! path := argpath 0 in
  let! r := match path with
            | Some path => create path T_DEVICE major minor | None => ret None end in
  match r with
  | None => end_op ;; ret (-1)
  | Some ip => iunlockput ip ;; end_op ;; ret 0
  end.

Definition sys_chdir : K Z :=
  let! p := myproc_deref in
  begin_op ;;
  let! path := argpath 0 in
  let! r := match path with Some path => namei path | None => ret None end in
  match r with
  | None => end_op ;; ret (-1)
  | Some ip =>
      ilock (Some ip) ;;
      let! ino := get_inode ip in
      if negb (i_type ino =? T_DIR) then iunlockput ip ;; end_op ;; ret (-1)
      else
        iunlock (Some ip) ;;
        let! pr := get_proc p in
        let! cwd := deref "iput" (p_cwd pr) in
        iput cwd ;;
        end_op ;;
        modify (upd_proc p (p_set_cwd (fun _ => Some ip))) ;;
        ret 0
  end.

(** the loop of sys_exec over [uargv]: the pages of the arguments so far and
    whether the whole vector was fetched *)
Fixpoint exec_fetch (uargv : Z) (n : nat) (i : Z) (argv : list Z) : K (bool * list Z) :=
  match n with
  | O => ret (false, argv)
  | S n' =>
      let! ' (r, uarg) := fetchaddr (u64 (uargv + 8 * i)) in
      if r <? 0 then ret (false, argv)
      else if uarg =? 0 then ret (true, argv)
      else
        let! pa := kalloc in
        if pa =? 0 then ret (false, argv)
        else
          let! ' (r, bytes) := fetchstr uarg PGSIZE in
          modify (set_mem (fun m => stn m pa bytes)) ;;
          if r <? 0 then ret (false, argv ++ [pa])
          else exec_fetch uargv n' (i + 1) (argv ++ [pa])
  end.

Definition sys_exec : K Z :=
  let! uargv := argaddr 1 in
  let! path := argpath 0 in
  match path with
  | None => ret (-1)
  | Some path =>
      let! ' (ok, argv) := exec_fetch uargv (Z.to_nat MAXARG) 0 [] in
      let! r := if (ok : bool) then kexec path (map ArgPA argv) else ret (-1) in
      forM_ argv kfree ;;
      ret r
  end.

Definition sys_pipe_undo (p : nat) (fd0 fd1 : Z) (rf wf : nat) : K Z :=
  whenM (0 <=? fd0) (clear_fd p fd0) ;;
  whenM (0 <=? fd1) (clear_fd p fd1) ;;
  fileclose rf ;;
  fileclose wf ;;
  ret (-1).

Definition sys_pipe : K Z :=
  let! p := myproc_deref in
  let! fdarray := argaddr 0 in
  let! r := pipealloc in
  match r with
  | None => ret (-1)
  | Some (rf, wf) =>
      let! fd0 := fdalloc rf in
      let! fd1 := if fd0 <? 0 then ret (-1) else fdalloc wf in
      if (fd0 <? 0) || (fd1 <? 0) then sys_pipe_undo p fd0 (-1) rf wf
      else
        let! pr := get_proc p in
        let! r0 := copyout (p_pagetable pr) fdarray (le_bytes 4 fd0) in
        let! r1 := if r0 <? 0 then ret (-1)
                   else copyout (p_pagetable pr) (u64 (fdarray + 4)) (le_bytes 4 fd1) in
        if (r0 <? 0) || (r1 <? 0) then sys_pipe_undo p fd0 fd1 rf wf
        else ret 0
  end.

(** ** Dispatch *)

(** the table [syscalls], indexed by the numbers of syscall.h *)
Definition syscalls (num : Z) : option (K Z) :=
  nth_error
    [sys_fork; sys_exit; sys_wait; sys_pipe; sys_read; sys_kill; sys_exec; sys_fstat;
     sys_chdir; sys_dup; sys_getpid; sys_sbrk; sys_pause; sys_uptime; sys_open;
     sys_write; sys_mknod; sys_unlink; sys_link; sys_mkdir; sys_close]
    (Z.to_nat (num - 1)).

Definition syscall : K unit :=
  let! p := myproc_deref in
  let! a7 := tf_load p (TF_a 7) in
  let num := s32 a7 in
  match (if 0 <? num then syscalls num else None) with
  | Some call =>
      let! r := call in
      tf_store p (TF_a 0) (u64 r)
  | None =>
      let! pr := get_proc p in
      printf "%d %s: unknown sys call %d\n"
        [VWord (p_pid pr); VStr (Some (until_nul (p_name pr))); VWord num] ;;
      tf_store p (TF_a 0) (u64 (-1))
  end.
