(* ===== verification/SyscallSpec.v ===== *)
(** System calls from the trap frame to the result in a0: dispatch, argument
    registers and descriptors (kernel/syscall.c, kernel/sysfile.c), and read and
    write on a pipe through them. *)

From stdpp Require Import base gmap strings numbers list.
From S2P Require Import Prelude KState KString Spinlock Kalloc Vm VmPte VmTree VmSpec VmCopy ProcSync SyncSpec.
From S2P Require Import Fs File PipeSpec ProcLife Syscall.

Definition SYS_read : Z := 5.
Definition SYS_fstat : Z := 8.
Definition SYS_write : Z := 16.
Definition SYS_close : Z := 21.

(** the registers in the trap frame at [tf] *)
Definition areg (m : mem) (tf n : Z) : Z := ld64 m (tf + TF_a n).

(** the result [r] in a0 *)
Definition returns (tf r : Z) (s : kstate) : kstate := set_mem (fun m => st64 m (tf + TF_a 0) (u64 r)) s.

Section call.
Context (s : kstate) (p : nat) (pr : proc).
Hypothesis T : thread_ok s p pr.

Lemma myproc_here : myproc_deref s = Ok p s.
Proof. destruct T. by apply myproc_deref_run. Qed.

Lemma proc_here : get_proc p s = Ok pr s.
Proof. apply get_proc_ok, T. Qed.

Lemma argraw_run n : 0 <= n <= 5 -> argraw n s = Ok (areg (k_mem s) (p_trapframe pr) n) s.
Proof.
  intros Hn. unfold argraw. erewrite bind_ok by apply myproc_here. rewrite (proj2 (Z.leb_le 0 n)), (proj2 (Z.leb_le n 5)) by lia. cbn [andb].
  unfold tf_load. erewrite bind_ok by apply proc_here. reflexivity.
Qed.

Lemma argint_run n : 0 <= n <= 5 -> argint n s = Ok (s32 (areg (k_mem s) (p_trapframe pr) n)) s.
Proof. intros Hn. unfold argint. by erewrite bind_ok by (by apply argraw_run). Qed.

(** the open file of a descriptor argument *)
Definition fd_file (fd : Z) : option nat := if (fd <? 0) || (NOFILE <=? fd) then None else mjoin (p_ofile pr !! Z.to_nat fd).

Lemma argfd_run n : 0 <= n <= 5 -> let fd := s32 (areg (k_mem s) (p_trapframe pr) n) in
  argfd n s = Ok ((fun f => (fd, f)) <$> fd_file fd) s.
Proof.
  intros Hn fd. unfold argfd, fd_file. erewrite bind_ok by (by apply argint_run). fold fd. destruct ((fd <? 0) || (NOFILE <=? fd)); [done|].
  erewrite bind_ok by apply myproc_here. erewrite bind_ok by apply proc_here. destruct (p_ofile pr !! Z.to_nat fd) as [[f|]|]; reflexivity.
Qed.

(** a call whose body returns [r] *)
Lemma syscall_run num call r s' : areg (k_mem s) (p_trapframe pr) 7 = num -> 0 < num < 2 ^ 31 -> syscalls num = Some call ->
  call s = Ok r s' -> k_procs s' !! p = Some pr -> syscall s = Ok tt (returns (p_trapframe pr) r s').
Proof.
  intros Hnum Hr Hc E Hp. unfold syscall. erewrite bind_ok by apply myproc_here.
  erewrite bind_ok by (unfold tf_load; erewrite bind_ok by apply proc_here; reflexivity).
  fold (areg (k_mem s) (p_trapframe pr) 7). rewrite Hnum. replace (s32 num) with num by (symmetry; apply signed_small; [lia|]; change (2 ^ (32 - 1)) with (2 ^ 31); lia).
  rewrite (proj2 (Z.ltb_lt 0 num)) by lia. rewrite Hc. erewrite bind_ok by exact E. unfold tf_store. erewrite bind_ok by (by apply get_proc_ok). reflexivity.
Qed.

(** a call whose body switches to the scheduler *)
Lemma syscall_susp num call s1 k : areg (k_mem s) (p_trapframe pr) 7 = num -> 0 < num < 2 ^ 31 -> syscalls num = Some call ->
  call s = Susp s1 k ->
  exists k', syscall s = Susp s1 k' /\
    forall s2 r s' pr', k s2 = Ok r s' -> k_procs s' !! p = Some pr' -> k' s2 = Ok tt (returns (p_trapframe pr') r s').
Proof.
  intros Hnum Hr Hc E. unfold syscall. erewrite bind_ok by apply myproc_here.
  erewrite bind_ok by (unfold tf_load; erewrite bind_ok by apply proc_here; reflexivity).
  fold (areg (k_mem s) (p_trapframe pr) 7). rewrite Hnum. replace (s32 num) with num by (symmetry; apply signed_small; [lia|]; change (2 ^ (32 - 1)) with (2 ^ 31); lia).
  rewrite (proj2 (Z.ltb_lt 0 num)) by lia. rewrite Hc. unfold bind at 1. rewrite E. cbn [rbind]. eexists. split; [reflexivity|].
  intros s2 r s' pr' E2 Hp. cbv beta. rewrite E2. cbn [rbind]. unfold tf_store. erewrite bind_ok by (by apply get_proc_ok). reflexivity.
Qed.

(** read, write, fstat and close of a descriptor that is not open *)
Lemma bad_fd_run num : num ∈ [SYS_read; SYS_write; SYS_fstat; SYS_close] -> areg (k_mem s) (p_trapframe pr) 7 = num ->
  fd_file (s32 (areg (k_mem s) (p_trapframe pr) 0)) = None -> syscall s = Ok tt (returns (p_trapframe pr) (-1) s).
Proof.
  intros Hin Hnum Hfd. pose proof (argfd_run 0 ltac:(lia)) as Ha. cbv zeta in Ha. rewrite Hfd in Ha. cbn [fmap option_fmap option_map] in Ha.
  assert (exists call, syscalls num = Some call /\ call s = Ok (-1) s) as (call & Hc & E).
  { repeat (apply elem_of_cons in Hin as [->|Hin]); [..|by apply not_elem_of_nil in Hin]; (eexists; split; [reflexivity|]).
    - unfold sys_read. erewrite bind_ok by (apply argraw_run; lia). erewrite bind_ok by (apply argint_run; lia). by erewrite bind_ok by exact Ha.
    - unfold sys_write. erewrite bind_ok by (apply argraw_run; lia). erewrite bind_ok by (apply argint_run; lia). by erewrite bind_ok by exact Ha.
    - unfold sys_fstat. erewrite bind_ok by (apply argraw_run; lia). by erewrite bind_ok by exact Ha.
    - unfold sys_close. by erewrite bind_ok by exact Ha. }
  eapply syscall_run; [exact Hnum| |exact Hc|exact E|apply T].
  repeat (apply elem_of_cons in Hin as [->|Hin]); [..|by apply not_elem_of_nil in Hin]; vm_compute; split; reflexivity.
Qed.
End call.

(** a wakeup by [p] itself leaves [p] as it is *)
Lemma wake_self ch p pr l : l !! p = Some pr -> imap (wake ch (Some p)) l !! p = Some pr.
Proof. intros H. rewrite list_lookup_imap, H. cbn. unfold wake. by rewrite bool_decide_eq_true_2. Qed.

(** * Read and write of a pipe *)

(** descriptor [fd] in a0 is the pipe [pi], the buffer in a1 and a2 is the user
    memory from [addr] of [n] bytes *)
Record pipe_call (s : kstate) (p : nat) (pr : proc) (root : Z) (F : list Z) (pi : Z) (pp : pipe) (num fd : Z) (ff : file) (addr n : Z) : Prop := {
  pc_user : pipe_user s p pr root F pi pp;
  pc_lock : h_locks (k_hart s) !! LPipe pi = None;
  pc_num : areg (k_mem s) (p_trapframe pr) 7 = num;
  pc_fd : s32 (areg (k_mem s) (p_trapframe pr) 0) = fd;
  pc_file : exists f, fd_file pr fd = Some f /\ k_ftable s !! f = Some ff;
  pc_pipe : f_type ff = FD_PIPE /\ f_pipe ff = pi;
  pc_addr : areg (k_mem s) (p_trapframe pr) 1 = addr;
  pc_n : s32 (areg (k_mem s) (p_trapframe pr) 2) = n;
  pc_range : 0 <= n /\ 0 <= addr /\ addr + n <= MAXVA
}.

Section pipe.
Context (s : kstate) (p : nat) (pr : proc) (root : Z) (F : list Z) (pi : Z) (pp : pipe) (fd : Z) (ff : file) (addr n : Z).

Lemma sys_write_pipe : pipe_call s p pr root F pi pp SYS_write fd ff addr n -> f_writable ff <> 0 ->
  sys_write s = pipewrite pi addr n s.
Proof.
  intros [Hu Hl Hnum Hfd (f & Hf & Hff) [Ht Hp] Ha Hn Hr] Hw. pose proof (pu_thread _ _ _ _ _ _ _ Hu) as T. unfold sys_write.
  erewrite bind_ok by (apply (argraw_run s p pr T); lia). erewrite bind_ok by (apply (argint_run s p pr T); lia).
  erewrite bind_ok by (apply (argfd_run s p pr T); lia). rewrite Hfd, Hf, Ha, Hn. cbn [fmap option_fmap option_map].
  unfold filewrite. erewrite bind_ok by (unfold get_file; by rewrite Hff). rewrite (proj2 (Z.eqb_neq _ 0) Hw), Ht, Hp. reflexivity.
Qed.

Lemma sys_read_pipe : pipe_call s p pr root F pi pp SYS_read fd ff addr n -> f_readable ff <> 0 ->
  sys_read s = piperead pi addr n s.
Proof.
  intros [Hu Hl Hnum Hfd (f & Hf & Hff) [Ht Hp] Ha Hn Hr] Hw. pose proof (pu_thread _ _ _ _ _ _ _ Hu) as T. unfold sys_read.
  erewrite bind_ok by (apply (argraw_run s p pr T); lia). erewrite bind_ok by (apply (argint_run s p pr T); lia).
  erewrite bind_ok by (apply (argfd_run s p pr T); lia). rewrite Hfd, Hf, Ha, Hn. cbn [fmap option_fmap option_map].
  unfold fileread. erewrite bind_ok by (unfold get_file; by rewrite Hff). rewrite (proj2 (Z.eqb_neq _ 0) Hw), Ht, Hp. reflexivity.
Qed.
End pipe.

(** * Theorems *)

(** C34: a write system call of [n] bytes on a descriptor that is a pipe, the
    bytes being mapped: from the registers in the trap frame through the
    dispatch table, the descriptor and the open file to the ring buffer.
    - Without a reader, or in a killed process, a write of at least one byte
      leaves -1 in a0 and changes nothing else.
    - With a reader and enough room (or for [n] = 0) the bytes of the caller's
      buffer are appended to the queue of the pipe, the readers woken, a0 holds
      [n] and nothing else changes.
    - With a reader and less room, the first bytes fill the pipe, the readers
      are woken and the process is left SLEEPING on the write channel with the
      lock of the pipe released.  Resumed when the pipe has room for the rest
      (with the process alive and a reader), the rest is appended, the readers
      are woken and a0 holds [n]. *)
Theorem syscall_write_pipe s p pr root F pi pp fd ff addr n :
  pipe_call s p pr root F pi pp SYS_write fd ff addr n -> f_writable ff <> 0 ->
  (forall v, addr <= v < addr + n -> umapped (k_mem s) root v) ->
  (0 < n -> pi_readopen pp = 0 \/ p_killed pr <> 0 -> syscall s = Ok tt (returns (p_trapframe pr) (-1) s)) /\
  (n = 0 \/ p_killed pr = 0 /\ pi_readopen pp <> 0 -> pipe_count pp + n <= PIPESIZE ->
   exists pp', syscall s = Ok tt (returns (p_trapframe pr) n
       (set_procs (imap (wake (ChPipeR pi) (Some p))) (set_pipes (<[pi := pp']>) s))) /\
     pipe_ok pp' /\ pipe_q pp' = pipe_q pp ++ ubytes (k_mem s) root addr (Z.to_nat n) /\
     pi_readopen pp' = pi_readopen pp /\ pi_writeopen pp' = pi_writeopen pp) /\
  (p_killed pr = 0 -> pi_readopen pp <> 0 -> PIPESIZE < pipe_count pp + n -> h_noff (k_hart s) = 0 ->
   let j := PIPESIZE - pipe_count pp in
   exists pp' k, syscall s = Susp (write_wait p pi (k_hart s) (set_pipes (<[pi := pp']>) s)) k /\
     pipe_ok pp' /\ pipe_q pp' = pipe_q pp ++ ubytes (k_mem s) root addr (Z.to_nat j) /\
     pi_readopen pp' = pi_readopen pp /\ pi_writeopen pp' = pi_writeopen pp /\
     forall s2 h2 pr2 F2 pp2, k_hart s2 = hart_lock (LProc p) h2 -> h_noff h2 = 0 -> h_locks h2 !! LPipe pi = None ->
       pipe_user (set_hart (fun _ => h2) s2) p pr2 root F2 pi pp2 -> p_killed pr2 = 0 -> pi_readopen pp2 <> 0 ->
       pipe_count pp2 + (n - j) <= PIPESIZE -> (forall v, addr <= v < addr + n -> umapped (k_mem s2) root v) ->
       exists pp3, k s2 = Ok tt (returns (p_trapframe pr2) n (set_procs (imap (wake (ChPipeR pi) (Some p))) (set_pipes (<[pi := pp3]>)
           (upd_proc p (p_set_chan (fun _ => ChNull)) (set_hart (fun _ => resume_hart (h_intr (k_hart s)) h2) s2))))) /\
         pipe_ok pp3 /\ pipe_q pp3 = pipe_q pp2 ++ ubytes (k_mem s2) root (addr + j) (Z.to_nat (n - j)) /\
         pi_readopen pp3 = pi_readopen pp2 /\ pi_writeopen pp3 = pi_writeopen pp2).
Proof.
  intros C Hw Hm. pose proof (pc_user _ _ _ _ _ _ _ _ _ _ _ _ C) as Hu. pose proof (pu_thread _ _ _ _ _ _ _ Hu) as T.
  pose proof (pc_lock _ _ _ _ _ _ _ _ _ _ _ _ C) as Hl. pose proof (pc_num _ _ _ _ _ _ _ _ _ _ _ _ C) as Hnum.
  destruct (pc_range _ _ _ _ _ _ _ _ _ _ _ _ C) as (Hn & Ha & Hend). pose proof (sys_write_pipe s p pr root F pi pp fd ff addr n C Hw) as Es.
  split; [|split].
  - intros Hn' Hd. eapply (syscall_run s p pr T SYS_write); [done|done|reflexivity| |apply T]. rewrite Es.
    by eapply pipewrite_dead.
  - intros Hd Hroom. assert (exists pp', pipewrite pi addr n s =
      Ok n (set_procs (imap (wake (ChPipeR pi) (Some p))) (set_pipes (<[pi := pp']>) s)) /\
      pipe_ok pp' /\ pipe_q pp' = pipe_q pp ++ ubytes (k_mem s) root addr (Z.to_nat n) /\
      pi_readopen pp' = pi_readopen pp /\ pi_writeopen pp' = pi_writeopen pp) as (pp' & E & H).
    { destruct Hd as [->|[Hk Hro]]; [|by eapply pipewrite_run]. exists pp. split; [|split; [apply Hu|by rewrite app_nil_r]].
      rewrite (pipewrite_zero p pr root F pi s pp addr Hu Hl). unfold set_pipes. by rewrite insert_id by apply Hu. }
    exists pp'. split; [|done]. eapply (syscall_run s p pr T SYS_write); [done|done|reflexivity|by rewrite Es|].
    apply wake_self. exact (to_pr _ _ _ T).
  - intros Hk Hro Hroom Hn0 j. destruct (pipewrite_blocks p pr root F pi s pp addr n) as (pp' & k & E & H1 & H2 & H3 & H4 & Hres); [done..|].
    rewrite <-Es in E. destruct (syscall_susp s p pr T SYS_write _ _ _ Hnum ltac:(done) eq_refl E) as (k' & E' & Hk').
    exists pp', k'. split; [exact E'|]. do 4 (split; [done|]). intros s2 h2 pr2 F2 pp2 R1 R2 R3 R4 R5 R6 R7 R8.
    destruct (Hres s2 h2 pr2 F2 pp2 R1 R2 R3 R4 R5 R6 R7 R8) as (pp3 & E3 & H). exists pp3. split; [|done].
    rewrite (Hk' s2 n _ (p_set_chan (fun _ => ChNull) pr2) E3); [done|]. apply wake_self. ksimp.
    pose proof (to_pr _ _ _ (pu_thread _ _ _ _ _ _ _ R4)) as Hp2. change (k_procs s2 !! p = Some pr2) in Hp2. by rewrite list_lookup_alter_eq, Hp2.
Qed.

(** C35: a read system call on a descriptor that is a pipe with bytes in it, or
    without writers, takes the first bytes of the queue, as many as are there and
    asked for, to the caller's buffer, in order; every other byte of the caller's
    memory keeps its value until a0, in the trap frame, receives the count (0 is
    the end of file); the writers are woken. *)
Theorem syscall_read_pipe s p pr root F pi pp fd ff addr n :
  pipe_call s p pr root F pi pp SYS_read fd ff addr n -> f_readable ff <> 0 ->
  pipe_q pp <> [] \/ pi_writeopen pp = 0 ->
  (forall v, addr <= v < addr + n -> uwritable (k_mem s) root v) ->
  let k := Z.min n (Z.of_nat (length (pipe_q pp))) in
  exists m' pp', syscall s = Ok tt (returns (p_trapframe pr) k
      (set_procs (imap (wake (ChPipeW pi) (Some p))) (set_pipes (<[pi := pp']>) (set_mem (fun _ => m') s)))) /\
    pipe_ok pp' /\ pipe_q pp' = drop (Z.to_nat k) (pipe_q pp) /\
    user_ok (k_img s) m' root F /\ read_into root (k_mem s) m' addr k (pipe_q pp).
Proof.
  intros C Hw Hne Hm k. pose proof (pc_user _ _ _ _ _ _ _ _ _ _ _ _ C) as Hu. pose proof (pu_thread _ _ _ _ _ _ _ Hu) as T.
  destruct (pc_range _ _ _ _ _ _ _ _ _ _ _ _ C) as (Hn & Ha & Hend).
  destruct (piperead_run p pr root F pi s pp addr n Hu (pc_lock _ _ _ _ _ _ _ _ _ _ _ _ C)) as (m' & pp' & E & Hok & Hq); [done..|].
  exists m', pp'. split; [|done]. rewrite <-(sys_read_pipe s p pr root F pi pp fd ff addr n C Hw) in E.
  eapply (syscall_run s p pr T SYS_read); [apply C|done|reflexivity|exact E|]. apply wake_self. exact (to_pr _ _ _ T).
Qed.

(** read, write, fstat and close of a descriptor that is out of range or not
    open leave -1 in a0 and change nothing else. *)
Theorem syscall_bad_fd s p pr num : thread_ok s p pr -> num ∈ [SYS_read; SYS_write; SYS_fstat; SYS_close] ->
  areg (k_mem s) (p_trapframe pr) 7 = num -> fd_file pr (s32 (areg (k_mem s) (p_trapframe pr) 0)) = None ->
  syscall s = Ok tt (returns (p_trapframe pr) (-1) s).
Proof. intros T Hin Hnum Hfd. exact (bad_fd_run s p pr T num Hin Hnum Hfd). Qed.

(** * The theorems at concrete states *)

(** a write to a page that is no table leaves the user's pages *)
Lemma user_ok_write im m m' root F q : user_ok im m root F -> q mod PGSIZE = 0 -> not_table m root q ->
  (forall a, a < q \/ q + PGSIZE <= a -> ldb m' a = ldb m a) -> user_ok im m' root F /\ forall va, pte_at m' root va = pte_at m root va.
Proof.
  intros [U1 U2 U3] Hq Hn Ho. assert (forall va, pte_at m' root va = pte_at m root va) as Hp by (intros va; by eapply pte_at_write_page).
  assert (forall x, node_ok x -> page_of m' root x = page_of m root x) as Hpg by (by eapply page_of_write_page).
  split; [|exact Hp]. split.
  - by eapply pt_inv_ext.
  - intros va Hva Hm. unfold umapped in Hm. rewrite !Hp in *. destruct (U2 va Hva Hm) as [G N]. split; [done|].
    intros x Hx. rewrite Hpg by done. by apply N.
  - intros va va' Hva Hva' H1 H2. unfold umapped in H1, H2. rewrite !Hp in *. by apply U3.
Qed.

(** the registers of a call *)
Definition put_regs (m : mem) (tf num a0 a1 a2 : Z) : mem :=
  st64 (st64 (st64 (st64 m (tf + TF_a 7) num) (tf + TF_a 0) a0) (tf + TF_a 1) a1) (tf + TF_a 2) a2.

Lemma put_regs_ok m tf num a0 a1 a2 : let m' := put_regs m tf num a0 a1 a2 in
  areg m' tf 7 = u64 num /\ areg m' tf 0 = u64 a0 /\ areg m' tf 1 = u64 a1 /\ areg m' tf 2 = u64 a2 /\
  forall a, a < tf \/ tf + PGSIZE <= a -> ldb m' a = ldb m a.
Proof.
  cbv zeta. unfold areg, put_regs, TF_a, PGSIZE. split_and!; [..|intros a Ha; by rewrite !ldb_st64_out by lia];
    rewrite ?(ld64_st64_ne _ _ (tf + _)) by lia; apply ld64_st64_eq.
Qed.

Definition demo_pipe_file : file := mkfile FD_PIPE 1 1 1 0x310000 None 0 0.

Lemma demo_pipe_call num n : 0 <= num < 2 ^ 31 -> 0 <= n < PGSIZE -> exists s F pr,
  pipe_call s 0 pr demo_root F 0x310000 demo_pipe num 3 demo_pipe_file 0x1000 n /\ p_killed pr = 0 /\ h_noff (k_hart s) = 0 /\
  forall v, 0x1000 <= v < 0x2000 -> uwritable (k_mem s) demo_root v.
Proof.
  intros Hnum Hn. change PGSIZE with 4096 in Hn. destruct demo_user_state as (s0 & F & Hi & Hu & Hw). rewrite Hi in Hu.
  set (tf := PTE2PA (pte_at (k_mem s0) demo_root 0x1000)).
  destruct (uo_good _ _ _ _ Hu 0x1000) as [[Htf _] Hnt]; [split; [discriminate|reflexivity]|apply Hw; lia|].
  destruct (put_regs_ok (k_mem s0) tf num 3 0x1000 n) as (R7 & R0 & R1 & R2 & Rout). set (m := put_regs _ _ _ _ _ _) in *.
  destruct (user_ok_write _ _ m _ _ tf Hu Htf Hnt Rout) as [Hu' Hp].
  set (pr := p_set_ofile (<[3%nat := Some 0%nat]>) (p_set_trapframe (fun _ => tf) (p_set_pagetable (fun _ => demo_root) proc0))).
  exists (set_ftable (<[0%nat := demo_pipe_file]>) (set_pipes (fun _ => {[ 0x310000 := demo_pipe ]})
    (set_mem (fun _ => m) (set_procs (<[0%nat := pr]>) (thread_state []))))), F, pr. split; [|split; [reflexivity|split; [reflexivity|]]].
  - clearbody tf. split.
    + split; [split; try reflexivity; apply hart_ok_idle|reflexivity|exact Hu'|apply lookup_singleton_eq|apply demo_pipe_ok].
    + reflexivity.
    + etransitivity; [exact R7|]. apply u64_small. lia.
    + transitivity (s32 (u64 3)); [by f_equal|reflexivity].
    + exists 0%nat. split; reflexivity.
    + split; reflexivity.
    + etransitivity; [exact R1|reflexivity].
    + transitivity (s32 (u64 n)); [by f_equal|]. rewrite u64_small by lia. apply signed_small; [lia|]. change (2 ^ (32 - 1)) with 2147483648. lia.
    + assert (MAXVA = 2 ^ 38) as -> by reflexivity. lia.
  - intros v Hv. specialize (Hw v Hv). change (uwritable m demo_root v). unfold uwritable, umapped in *. rewrite !Hp. exact Hw.
Qed.

(** three bytes fit, of 600 the first 511 *)
Lemma syscall_write_pipe_witness :
  (exists s s', syscall s = Ok tt s' /\ exists pp, k_pipes s' !! 0x310000 = Some pp /\ length (pipe_q pp) = 4%nat) /\
  (exists s s' k, syscall s = Susp s' k /\ exists pp, k_pipes s' !! 0x310000 = Some pp /\ length (pipe_q pp) = 512%nat).
Proof.
  split.
  - destruct (demo_pipe_call SYS_write 3) as (s & F & pr & C & Hk & _ & Hw); [by split|by split|].
    destruct (syscall_write_pipe s 0 pr demo_root F 0x310000 demo_pipe 3 demo_pipe_file 0x1000 3 C) as (_ & H & _).
    + discriminate.
    + intros v Hv. apply (Hw v). lia.
    + destruct H as (pp' & E & _ & Hq & _); [right; split; [exact Hk|discriminate]|vm_compute; discriminate|].
      exists s. eexists. split; [exact E|]. exists pp'. split; [apply lookup_insert_eq|].
      rewrite Hq, length_app. unfold ubytes. rewrite length_map, length_seq. reflexivity.
  - destruct (demo_pipe_call SYS_write 600) as (s & F & pr & C & Hk & Hn & Hw); [by split|by split|].
    destruct (syscall_write_pipe s 0 pr demo_root F 0x310000 demo_pipe 3 demo_pipe_file 0x1000 600 C) as (_ & _ & H).
    + discriminate.
    + intros v Hv. apply (Hw v). lia.
    + destruct H as (pp' & k & E & _ & Hq & _); [exact Hk|discriminate|reflexivity|exact Hn|].
      exists s. eexists _, k. split; [exact E|]. exists pp'. split; [apply lookup_insert_eq|].
      rewrite Hq, length_app. unfold ubytes. rewrite length_map, length_seq. reflexivity.
Defined.

Lemma syscall_read_pipe_witness : exists s s', syscall s = Ok tt s' /\ exists pp, k_pipes s' !! 0x310000 = Some pp /\ pipe_q pp = [].
Proof.
  destruct (demo_pipe_call SYS_read 3) as (s & F & pr & C & _ & _ & Hw); [by split|by split|].
  destruct (syscall_read_pipe s 0 pr demo_root F 0x310000 demo_pipe 3 demo_pipe_file 0x1000 3 C) as (m' & pp' & E & _ & Hq & _).
  - discriminate.
  - left. vm_compute. discriminate.
  - intros v Hv. apply (Hw v). lia.
  - exists s. eexists. split; [exact E|]. exists pp'. split; [apply lookup_insert_eq|]. rewrite Hq. vm_compute. reflexivity.
Defined.

Lemma syscall_bad_fd_witness : exists s s', syscall s = Ok tt s' /\ ld64 (k_mem s') (0x303000 + TF_a 0) = 2 ^ 64 - 1.
Proof.
  set (pr := p_set_trapframe (fun _ => 0x303000) proc0).
  pose proof (syscall_bad_fd (set_mem (fun _ => put_regs ∅ 0x303000 SYS_close 7 0 0) (set_procs (<[0%nat := pr]>) (thread_state []))) 0 pr SYS_close) as H.
  eexists. eexists. split; [apply H|].
  - split; try reflexivity. apply hart_ok_idle.
  - right. right. right. left.
  - vm_compute. reflexivity.
  - vm_compute. reflexivity.
  - vm_compute. reflexivity.
Defined.
