(* ===== verification/Trap.v ===== *)
(** kernel/trap.c, kernel/plic.c, kernel/timer.c, kernel/start.c,
    kernel/main.c and the return to user space of kernel/proc.c
    (prepare_return, forkret).

    The value the PLIC's claim register reads is an argument of the handlers:
    it is the device's choice. *)

From stdpp Require Import base gmap strings numbers list.
From S2P Require Import Prelude KState KString Spinlock Printf Kalloc Vm ProcSync Bio Log Fs.
From S2P Require Import Console File ProcLife Syscall.

(** * Definitions *)

Definition w_stvec (x : Z) : K unit := modify (set_csrs (r_set_stvec (fun _ => x))).
Definition w_sepc (x : Z) : K unit := modify (set_csrs (r_set_sepc (fun _ => x))).
Definition w_sie (x : Z) : K unit := modify (set_csrs (r_set_sie (fun _ => x))).
Definition w_stimecmp (x : Z) : K unit := modify (set_csrs (r_set_stimecmp (fun _ => u64 x))).
Definition csr (f : csrs -> Z) : K Z := gets (fun s => f (k_csrs s)).

Definition trapinit : K unit := initlock LTicks.
Definition trapinithart : K unit :=
  let! im := gets k_img in w_stvec (im_kernelvec im).

(** ** plic.c: register addresses and the words stored there *)

Definition PLIC_SENABLE (hart : Z) : Z := PLIC + 0x2080 + hart * 0x100.
Definition PLIC_SPRIORITY (hart : Z) : Z := PLIC + 0x201000 + hart * 0x2000.
Definition PLIC_SCLAIM (hart : Z) : Z := PLIC + 0x201004 + hart * 0x2000.

Definition plicinit : list (Z * Z) := [(PLIC + UART0_IRQ * 4, 1)].
Definition plicinithart (hart : Z) : list (Z * Z) :=
  [(PLIC_SENABLE hart, Z.shiftl 1 UART0_IRQ); (PLIC_SPRIORITY hart, 0)].

(** [irq]: what the claim register of this hart reads *)
Definition plic_claim (irq : Z) : K Z := let! hart := cpuid in ret (s32 irq).
(** the completed interrupt goes back to the same register *)
Definition plic_complete (hart irq : Z) : list (Z * Z) := [(PLIC_SCLAIM hart, u32 irq)].

(** ** timer.c *)

Definition set_timer (stime_value : Z) : K unit := w_stimecmp stime_value.
Definition SIE_STIE : Z := Z.shiftl 1 5.
Definition SIE_SEIE : Z := Z.shiftl 1 9.
Definition CLOCK_INTERVAL : Z := 270000.
Definition timerinit : K unit :=
  let! sie := csr r_sie in
  w_sie (Z.lor sie SIE_STIE) ;;
  let! t := csr r_time in
  set_timer (t + CLOCK_INTERVAL).

(** ** trap.c *)

Definition clockintr : K unit :=
  let! id := cpuid in
  whenM (id =? 0)
    (acquire LTicks ;;
     modify (set_ticks (fun t => u32 (t + 1))) ;;
     wakeup ChTicks ;;
     release LTicks) ;;
  let! t := csr r_time in
  w_stimecmp (t + 1000000).

Definition SCAUSE_EXTERNAL : Z := 0x8000000000000009.
Definition SCAUSE_TIMER : Z := 0x8000000000000005.

Definition devintr (claim : Z) : K Z :=
  let! scause := csr r_scause in
  if scause =? SCAUSE_EXTERNAL then
    let! irq := plic_claim claim in
    (if irq =? UART0_IRQ then uartintr
     else if irq =? VIRTIO0_IRQ then ret tt
     else whenM (nz irq) (printf "unexpected interrupt irq=%d\n" [VWord irq])) ;;
    ret 1
  else if scause =? SCAUSE_TIMER then
    clockintr ;; ret 2
  else ret 0.

(** [yield] is commented out in the source, so the statement under the [if]
    is [w_sepc(sepc)] *)
Definition kerneltrap (claim : Z) : K unit :=
  let! sepc := csr r_sepc in
  let! st := sstatus in
  let! scause := csr r_scause in
  if Z.land st SSTATUS_SPP =? 0 then panic "kerneltrap: not from supervisor mode"
  else
  let! i := intr_get in
  if nz i then panic "kerneltrap: interrupts enabled"
  else
  let! which_dev := devintr claim in
  if which_dev =? 0 then
    let! stval := csr r_stval in
    printf "scause=0x%p sepc=0x%p stval=0x%p\n" [VWord scause; VWord sepc; VWord stval] ;;
    panic "kerneltrap"
  else
    whenM (which_dev =? 2) (w_sepc sepc) ;;
    w_sstatus st.

(** proc.c: prepare_return *)
Definition prepare_return : K unit :=
  let! p := myproc_deref in
  intr_off ;;
  let! im := gets k_img in
  w_stvec (u64 (TRAMPOLINE + (im_uservec im - im_trampoline im))) ;;
  let! satp := csr r_satp in
  tf_store p TF_kernel_satp satp ;;
  let! pr := get_proc p in
  tf_store p TF_kernel_sp (p_kstack pr + PGSIZE) ;;
  tf_store p TF_kernel_trap (im_usertrap im) ;;
  let! tp := cpuid in
  tf_store p TF_kernel_hartid tp ;;
  let! x := sstatus in
  let x := Z.land x (Z.lnot SSTATUS_SPP) in
  let x := Z.lor x SSTATUS_SPIE in
  w_sstatus x ;;
  let! epc := tf_load p TF_epc in
  w_sepc epc.

(** the branches of usertrap on [scause]; the result is [which_dev] *)
Definition usertrap_cause (claim : Z) (p : nat) : K Z :=
  let! scause := csr r_scause in
  if scause =? 8 then
    let! k := killed p in
    whenM (nz k) (kexit (-1)) ;;
    let! epc := tf_load p TF_epc in
    tf_store p TF_epc (u64 (epc + 4)) ;;
    intr_on ;;
    syscall ;;
    ret 0
  else
    let! which_dev := devintr claim in
    if nz which_dev then ret which_dev
    else if (scause =? 15) || (scause =? 13) then
      let! pr := get_proc p in
      let! stval := csr r_stval in
      let! r := vmfault (p_pagetable pr) stval in
      ret 0
    else
      let! pr := get_proc p in
      printf "usertrap(): unexpected scause 0x%lx pid=%d\n" [VWord scause; VWord (p_pid pr)] ;;
      let! sepc := csr r_sepc in
      let! stval := csr r_stval in
      printf "            sepc=0x%lx stval=0x%lx\n" [VWord sepc; VWord stval] ;;
      setkilled p ;;
      ret 0.

(** the value returned to the trampoline is the user page table's [satp] *)
Definition usertrap (claim : Z) : K Z :=
  let! st := sstatus in
  if nz (Z.land st SSTATUS_SPP) then panic "usertrap: not from user mode"
  else
  let! im := gets k_img in
  w_stvec (im_kernelvec im) ;;
  let! p := myproc_deref in
  let! sepc := csr r_sepc in
  tf_store p TF_epc sepc ;;
  let! which_dev := usertrap_cause claim p in
  let! k := killed p in
  whenM (nz k) (kexit (-1)) ;;
  whenM (which_dev =? 2) yield ;;
  prepare_return ;;
  let! pr := get_proc p in
  ret (MAKE_SATP (p_pagetable pr)).

(** proc.c: the first run of a process; the result is what it passes to
    userret in the trampoline *)
Definition forkret : K Z :=
  let! p := myproc_deref in
  release (LProc p) ;;
  let! first := gets k_first in
  whenM (nz first)
    (fsinit ROOTDEV ;;
     modify (set_first (fun _ => 0)) ;;
     let! r := kexec (bytes_of_string "/init") [ArgLit (bytes_of_string "/init")] in
     tf_store p (TF_a 0) (u64 r) ;;
     let! a0 := tf_load p (TF_a 0) in
     whenM (a0 =? u64 (-1)) (panic "exec")) ;;
  prepare_return ;;
  let! pr := get_proc p in
  ret (MAKE_SATP (p_pagetable pr)).

(** ** main.c; [fs_img_start] is where the linker put the RAM disk, [rounds]
    how many rounds of the scheduler are run *)
Definition main (fs_img_start : Z) (rounds : nat) : K unit :=
  let! id := cpuid in
  (if id =? 0 then
     consoleinit ;;
     cpuinit ;;
     kinit ;;
     kvminit ;;
     kvminithart ;;
     procinit ;;
     trapinit ;;
     trapinithart ;;
     binit ;;
     iinit ;;
     fileinit ;;
     ramdisk_init fs_img_start ;;
     userinit ;;
     let! id := cpuid in
     printf "hart %d starting\n" [VWord id]
   else
     let! id := cpuid in
     printf "hart %d starting\n" [VWord id]) ;;
  scheduler rounds.

(** ** start.c: the machine-mode registers start() leaves behind *)

Record mregs := mkmregs {
  mstatus : Z; mepc : Z; msatp : Z; medeleg : Z; mideleg : Z; msie : Z; mie : Z;
  menvcfg : Z; mcounteren : Z; mstimecmp : Z; mtime : Z; pmpaddr3 : Z; pmpcfg0 : Z;
  mhartid : Z; mtp : Z
}.

Definition MSTATUS_MPP_MASK : Z := Z.shiftl 3 11.
Definition MSTATUS_MPP_S : Z := Z.shiftl 1 11.
Definition MIE_STIE : Z := Z.shiftl 1 5.

Definition timer_s_init (m : mregs) : mregs :=
  mkmregs (mstatus m) (mepc m) (msatp m) (medeleg m) (mideleg m) (msie m)
    (Z.lor (mie m) MIE_STIE) (Z.lor (menvcfg m) (Z.shiftl 1 63))
    (Z.lor (mcounteren m) 2) (u64 (mtime m + 1000000)) (mtime m) (pmpaddr3 m)
    (pmpcfg0 m) (mhartid m) (mtp m).

Definition PMP_CFG : Z := Z.shiftl (Z.lor (Z.lor 1 2) (Z.lor 4 0x18)) 24.

(** clearing the BSS is the zero state main() starts from *)
Definition start (main : Z) (m : mregs) : mregs :=
  let m := mkmregs (Z.lor (Z.land (mstatus m) (Z.lnot MSTATUS_MPP_MASK)) MSTATUS_MPP_S)
             main 0 (Z.land 0xffff (Z.lnot (Z.shiftl 1 9))) 0xffff
             (Z.lor (Z.lor (msie m) SIE_SEIE) SIE_STIE)
             (mie m) (menvcfg m) (mcounteren m) (mstimecmp m) (mtime m) (pmpaddr3 m)
             (pmpcfg0 m) (mhartid m) (mtp m) in
  let m := timer_s_init m in
  mkmregs (mstatus m) (mepc m) (msatp m) (medeleg m) (mideleg m) (msie m) (mie m)
    (menvcfg m) (mcounteren m) (mstimecmp m) (mtime m) (u64 (-1)) PMP_CFG (mhartid m)
    (s32 (mhartid m)).
