(* ===== verification/TrapSpec.v ===== *)
(** A system call from user space and back: usertrap (kernel/trap.c), the
    dispatch of syscall.c and prepare_return (kernel/proc.c).

    A trap enters the kernel with interrupts off and with [intena] as the last
    section of the kernel left it; the first push_off and pop_off make it agree
    with the interrupt flag ([settle]), which is where the discipline [hart_ok]
    of the kernel's sections begins. *)

From stdpp Require Import base gmap strings numbers list.
From S2P Require Import Prelude KState KString Spinlock Printf Kalloc Vm ProcSync SyncSpec Fs File PipeSpec ProcLife Syscall SyscallSpec Trap.

(** * Interrupts on entry *)

Definition settle (h : hart) : hart :=
  mkhart (h_id h) (h_proc h) (h_noff h) (if h_noff h =? 0 then h_intr h else h_intena h) (h_sstatus h) (h_locks h).

Lemma settle_pop_push h : h_noff h = 0 -> h_pop (h_push h) = settle h.
Proof.
  destruct h as [id pr noff intena sst locks]. cbn [h_noff]. intros ->. unfold h_pop, h_push, settle. cbn. rewrite !h_intr_bit. cbn.
  destruct (Z.testbit sst 1) eqn:E; cbn; [by rewrite clear_set_SIE|by rewrite clear_SIE_off].
Qed.

Lemma settle_ok h : h_noff h = 0 -> hart_ok (settle h).
Proof. intros H. split; cbn; rewrite ?H; cbn; [done|done|lia]. Qed.

Lemma settle_settle h : settle (settle h) = settle h.
Proof. unfold settle. cbn. by destruct (h_noff h =? 0). Qed.

Lemma myproc_settles s : h_noff (k_hart s) = 0 -> myproc s = Ok (h_proc (k_hart s)) (set_hart settle s).
Proof.
  intros H0. unfold myproc. erewrite bind_ok by apply push_off_run. mstep. erewrite bind_ok.
  2: { apply pop_off_run; ksimp; [|cbn; lia]. rewrite h_intr_bit. cbn. by rewrite testbit_clear_SIE, andb_false_r by lia. }
  unfold ret, set_hart. cbn. by rewrite settle_pop_push.
Qed.

Lemma myproc_deref_settles s p : h_noff (k_hart s) = 0 -> h_proc (k_hart s) = Some p -> myproc_deref s = Ok p (set_hart settle s).
Proof. intros H0 Hp. unfold myproc_deref. erewrite bind_ok by (by apply myproc_settles). by rewrite Hp. Qed.

Lemma syscall_settles s p : h_noff (k_hart s) = 0 -> h_proc (k_hart s) = Some p -> syscall s = syscall (set_hart settle s).
Proof.
  intros H0 Hp. unfold syscall. erewrite bind_ok by (by apply myproc_deref_settles).
  symmetry. erewrite bind_ok by (apply (myproc_deref_run _ p); [by apply settle_ok|exact Hp]). reflexivity.
Qed.

(** * From user space *)

(** process [p] has executed ecall *)
Record at_ecall (s : kstate) (p : nat) (pr : proc) : Prop := {
  ae_mode : Z.land (h_sstatus (k_hart s)) SSTATUS_SPP = 0;
  ae_noff : h_noff (k_hart s) = 0;
  ae_proc : h_proc (k_hart s) = Some p;
  ae_pr : k_procs s !! p = Some pr;
  ae_len : length (k_procs s) = Z.to_nat NPROC;
  ae_locks i : h_locks (k_hart s) !! LProc i = None;
  ae_cause : r_scause (k_csrs s) = 8;
  ae_alive : p_killed pr = 0
}.

(** the state in which the call runs: traps go to kernelvec, the saved program
    counter is behind the ecall, interrupts are on *)
Definition entered (s : kstate) (pr : proc) : kstate :=
  set_hart (fun h => settle (h_set_sstatus (fun x => Z.lor x SSTATUS_SIE) (settle h)))
    (set_mem (fun m => st64 (st64 m (p_trapframe pr + TF_epc) (r_sepc (k_csrs s))) (p_trapframe pr + TF_epc) (u64 (r_sepc (k_csrs s) + 4)))
      (set_csrs (r_set_stvec (fun _ => im_kernelvec (k_img s))) s)).

Lemma u64_plus x y : u64 (u64 x + y) = u64 (x + y).
Proof. unfold u64. apply Zplus_mod_idemp_l. Qed.

Lemma thread_same s s' p pr : thread_ok s p pr -> k_hart s' = k_hart s -> k_procs s' = k_procs s -> thread_ok s' p pr.
Proof. intros [T1 T2 T3 T4 T5] E1 E2. split; rewrite ?E1, ?E2; done. Qed.

Lemma tf_store_run s p pr off x : k_procs s !! p = Some pr -> tf_store p off x s = Ok tt (set_mem (fun m => st64 m (p_trapframe pr + off) x) s).
Proof. intros H. unfold tf_store. by erewrite bind_ok by (by apply get_proc_ok). Qed.

Lemma tf_load_run s p pr off : k_procs s !! p = Some pr -> tf_load p off s = Ok (ld64 (k_mem s) (p_trapframe pr + off)) s.
Proof. intros H. unfold tf_load. by erewrite bind_ok by (by apply get_proc_ok). Qed.

(** what usertrap does after the cause is handled *)
Definition trap_leave (p : nat) (which_dev : Z) : K Z :=
  let! k := killed p in
  whenM (nz k) (kexit (-1)) ;;
  whenM (which_dev =? 2) yield ;;
  prepare_return ;;
  let! pr := get_proc p in
  ret (MAKE_SATP (p_pagetable pr)).

Lemma ecall_enters claim s p pr : at_ecall s p pr -> usertrap claim s = bind (syscall ;; ret 0) (trap_leave p) (entered s pr).
Proof.
  intros [H1 H2 H3 H4 H5 H6 H7 H8]. unfold usertrap. unfold sstatus at 1. mstep. rewrite H1. change (nz 0) with false. cbv iota. mstep.
  unfold w_stvec at 1. mstep. erewrite bind_ok by (by apply myproc_deref_settles). unfold csr at 1. mstep.
  set (s1 := set_hart settle _). assert (thread_ok s1 p pr) as T1 by (split; [by apply settle_ok|exact H3|exact H4|exact H5|exact H6]).
  erewrite bind_ok by (apply tf_store_run, T1). set (s2 := set_mem _ s1). assert (thread_ok s2 p pr) as T2 by (by apply (thread_same s1)).
  fold (trap_leave p). assert (usertrap_cause claim p s2 = (syscall ;; ret 0) (entered s pr)) as E; [|unfold bind at 1; rewrite E; reflexivity].
  unfold usertrap_cause. unfold csr at 1. mstep. change (r_scause (k_csrs s2)) with (r_scause (k_csrs s)). rewrite H7. change (8 =? 8) with true. cbv iota.
  erewrite bind_ok by (by apply killed_run). rewrite H8. change (nz 0) with false. unfold whenM at 1. mstep.
  erewrite bind_ok by (apply tf_load_run, T2). change (k_mem s2) with (st64 (k_mem s) (p_trapframe pr + TF_epc) (r_sepc (k_csrs s))).
  rewrite ld64_st64_eq, u64_plus. erewrite bind_ok by (apply tf_store_run, T2). set (s3 := set_mem _ s2).
  unfold intr_on at 1, sstatus at 1, w_sstatus at 1. erewrite bind_ok by (rewrite bind_gets; reflexivity). set (s4 := set_hart _ s3).
  unfold bind at 1. rewrite (syscall_settles s4 p) by done. reflexivity.
Qed.

(** * Back to user space *)

Section leave.
Context (s : kstate) (p : nat) (pr : proc).
Hypothesis T : thread_ok s p pr.
Hypothesis Halive : p_killed pr = 0.

Local Abbreviation tf := (p_trapframe pr).

(** the trap frame as uservec will need it *)
Definition leaving_mem : mem :=
  st64 (st64 (st64 (st64 (k_mem s) (tf + TF_kernel_satp) (r_satp (k_csrs s))) (tf + TF_kernel_sp) (p_kstack pr + PGSIZE))
    (tf + TF_kernel_trap) (im_usertrap (k_img s))) (tf + TF_kernel_hartid) (h_id (k_hart s)).

(** to user mode, interrupts off until then and on there *)
Definition leaving_status : Z :=
  Z.lor (Z.land (Z.land (h_sstatus (k_hart s)) (Z.lnot SSTATUS_SIE)) (Z.lnot SSTATUS_SPP)) SSTATUS_SPIE.

Definition resumed : kstate :=
  set_csrs (fun c => r_set_sepc (fun _ => ld64 (k_mem s) (tf + TF_epc))
                       (r_set_stvec (fun _ => u64 (TRAMPOLINE + (im_uservec (k_img s) - im_trampoline (k_img s)))) c))
    (set_hart (h_set_sstatus (fun _ => leaving_status)) (set_mem (fun _ => leaving_mem) s)).

Lemma trap_leave_run : trap_leave p 0 s = Ok (MAKE_SATP (p_pagetable pr)) resumed.
Proof.
  unfold trap_leave. erewrite bind_ok by (by apply killed_run). rewrite Halive. change (nz 0) with false. change (0 =? 2) with false. unfold whenM. do 2 mstep.
  assert (prepare_return s = Ok tt resumed) as E; [|erewrite bind_ok by exact E; by erewrite bind_ok by (apply get_proc_ok, T)].
  unfold prepare_return. erewrite bind_ok by (destruct T; by apply myproc_deref_run).
  unfold intr_off at 1, sstatus at 1, w_sstatus at 1. erewrite bind_ok by (rewrite bind_gets; reflexivity). mstep. unfold w_stvec at 1. mstep. unfold csr at 1. mstep.
  erewrite bind_ok by (apply tf_store_run, T). erewrite bind_ok by (apply get_proc_ok, T). do 2 (erewrite bind_ok by (apply tf_store_run, T)).
  unfold cpuid. mstep. erewrite bind_ok by (apply tf_store_run, T). unfold sstatus at 1. mstep. unfold w_sstatus at 1. mstep.
  erewrite bind_ok by (apply tf_load_run, T). 
  unfold resumed. assert (ld64 leaving_mem (tf + TF_epc) = ld64 (k_mem s) (tf + TF_epc)) as <-; [|reflexivity].
  unfold leaving_mem, TF_epc, TF_kernel_satp, TF_kernel_sp, TF_kernel_trap, TF_kernel_hartid. by rewrite !ld64_st64_ne by lia.
Qed.

(** outside the four fields the trap frame and all of memory are as before *)
Lemma leaving_mem_out a : a < tf \/ tf + 24 <= a < tf + 32 \/ tf + 40 <= a -> ldb leaving_mem a = ldb (k_mem s) a.
Proof.
  intros Ha. unfold leaving_mem, TF_kernel_satp, TF_kernel_sp, TF_kernel_trap, TF_kernel_hartid. by rewrite !ldb_st64_out by lia.
Qed.

Lemma leaving_status_ok :
  Z.testbit leaving_status 1 = false /\ Z.testbit leaving_status 8 = false /\ Z.testbit leaving_status 5 = true.
Proof.
  unfold leaving_status. change SSTATUS_SPIE with (2 ^ 5). change SSTATUS_SPP with (2 ^ 8). change SSTATUS_SIE with (2 ^ 1).
  split_and!; rewrite Z.lor_spec, ?Z.land_spec, ?Z.lnot_spec, ?Z.pow2_bits_eqb by lia; cbn; by rewrite ?andb_false_r, ?orb_true_r.
Qed.
End leave.

(** * Theorems *)

(** C10: an ecall from user space runs exactly one system call, with traps sent
    to the kernel, interrupts on and the saved program counter behind the ecall;
    when it returns to a live process, usertrap hands the page table of the
    process to the trampoline with stvec at the trampoline, sepc the saved
    program counter, sstatus set for user mode (SPP and SIE clear, SPIE set)
    and the four kernel fields of the trap frame filled in: the registers of the
    process and everything else are as the system call left them. *)
Theorem usertrap_ecall claim s p pr s2 pr' :
  at_ecall s p pr -> syscall (entered s pr) = Ok tt s2 -> thread_ok s2 p pr' -> p_killed pr' = 0 ->
  usertrap claim s = Ok (MAKE_SATP (p_pagetable pr')) (resumed s2 pr') /\
  (forall a, a < p_trapframe pr' \/ p_trapframe pr' + 24 <= a < p_trapframe pr' + 32 \/ p_trapframe pr' + 40 <= a ->
     ldb (k_mem (resumed s2 pr')) a = ldb (k_mem s2) a) /\
  (let st := h_sstatus (k_hart (resumed s2 pr')) in Z.testbit st 1 = false /\ Z.testbit st 8 = false /\ Z.testbit st 5 = true) /\
  r_sepc (k_csrs (resumed s2 pr')) = ld64 (k_mem s2) (p_trapframe pr' + TF_epc) /\
  ld64 (k_mem (entered s pr)) (p_trapframe pr + TF_epc) = u64 (r_sepc (k_csrs s) + 4).
Proof.
  intros He Hs T Ha. split_and!.
  - rewrite (ecall_enters claim s p pr He). unfold bind at 1. erewrite bind_ok by exact Hs. by apply trap_leave_run.
  - apply leaving_mem_out.
  - apply leaving_status_ok.
  - reflexivity.
  - etransitivity; [apply ld64_st64_eq|]. unfold u64. by rewrite Zmod_mod.
Qed.

(** close(7), which is not open: the program goes on behind the ecall, with -1 *)
Lemma usertrap_ecall_witness : exists s s', usertrap 0 s = Ok (MAKE_SATP 0x300000) s' /\
  r_sepc (k_csrs s') = 0x1004 /\ ld64 (k_mem s') (0x303000 + TF_a 0) = 2 ^ 64 - 1.
Proof.
  set (pr := p_set_pagetable (fun _ => 0x300000) (p_set_trapframe (fun _ => 0x303000) proc0)).
  set (s := set_csrs (fun _ => mkcsrs 0 0x1000 8 0 0 0 0 0)
    (set_mem (fun _ => put_regs ∅ 0x303000 SYS_close 7 0 0) (set_procs (<[0%nat := pr]>) (thread_state [])))).
  assert (thread_ok (entered s pr) 0 pr) as T by (split; try reflexivity; by apply settle_ok).
  pose proof (bad_fd_run (entered s pr) 0 pr T SYS_close ltac:(right; right; right; left) ltac:(vm_compute; reflexivity) ltac:(vm_compute; reflexivity)) as E.
  destruct (usertrap_ecall 0 s 0 pr (returns (p_trapframe pr) (-1) (entered s pr)) pr) as (Eu & Hm & _ & He & _).
  - split; try reflexivity.
  - exact E.
  - by apply (thread_same (entered s pr)).
  - reflexivity.
  - exists s. eexists. split; [exact Eu|]. split; [rewrite He; vm_compute; reflexivity|vm_compute; reflexivity].
Defined.
