(* ===== verification/UserLib.v ===== *)
(** user/ulib.c: the string routines of the user library.

    A string in memory is a list of bytes; the byte after the last one is
    NUL, and so is any byte that is 0.  A pointer into a string is an index. *)

From stdpp Require Import base gmap strings numbers list.
From S2P Require Import Prelude KState.

(** [s[i]] *)
Definition char_at (s : list Z) (i : nat) : Z := default 0 (s !! i).

Fixpoint strlen (s : list Z) : nat :=
  match s with
  | [] => O
  | c :: s' => if c =? 0 then O else S (strlen s')
  end.

(** strchr: the bytes before the first [c], unless a NUL comes first *)
Fixpoint strchr (s : list Z) (c : Z) : option nat :=
  match s with
  | [] => None
  | x :: s' => if x =? 0 then None else if x =? c then Some O else S <$> strchr s' c
  end.

Fixpoint strcmp (p q : list Z) : Z :=
  match p with
  | [] => - u8 (char_at q 0)
  | a :: p' =>
      if a =? 0 then u8 a - u8 (char_at q 0)
      else
        match q with
        | [] => u8 a
        | b :: q' => if a =? b then strcmp p' q' else u8 a - u8 b
        end
  end.

(** signed overflow aside: the value is taken modulo 2^32 *)
Fixpoint atoi_from (n : Z) (s : list Z) : Z :=
  match s with
  | [] => n
  | c :: s' => if (48 <=? c) && (c <=? 57) then atoi_from (s32 (n * 10 + c - 48)) s' else n
  end.
Definition atoi (s : list Z) : Z := atoi_from 0 s.

(** gets: [input] is what read(0, ..) still delivers, one byte a call; the
    bytes stored and the rest of the input *)
Fixpoint gets_from (room : nat) (input : list Z) : list Z * list Z :=
  match room with
  | O => ([], input)
  | S room' =>
      match input with
      | [] => ([], [])
      | c :: input' =>
          if (c =? 10) || (c =? 13) then ([c], input')
          else let '(l, rest) := gets_from room' input' in (c :: l, rest)
      end
  end.
Definition gets_line (max : Z) (input : list Z) : list Z * list Z := gets_from (Z.to_nat (max - 1)) input.

(** the string a pointer denotes *)
Definition cstr (s : list Z) : list Z := take (strlen s) s.

Lemma char_at_drop s i j : char_at (drop i s) j = char_at s (i + j).
Proof. unfold char_at. by rewrite lookup_drop. Qed.

Lemma char_at_cons c s i : char_at (c :: s) (S i) = char_at s i.
Proof. reflexivity. Qed.

Lemma char_at_big s i : (length s <= i)%nat -> char_at s i = 0.
Proof. intros H. unfold char_at. by rewrite lookup_ge_None_2. Qed.

Lemma strlen_le s : (strlen s <= length s)%nat.
Proof. induction s as [|c s IH]; cbn; [lia|]. destruct (c =? 0); lia. Qed.

Lemma strlen_end s : char_at s (strlen s) = 0.
Proof.
  induction s as [|c s IH]; [done|]. cbn [strlen]. destruct (Z.eqb_spec c 0) as [->|]; [done|]. exact IH.
Qed.

Lemma strlen_before s i : (i < strlen s)%nat -> char_at s i <> 0.
Proof.
  revert i. induction s as [|c s IH]; intros i; cbn [strlen length]; [lia|].
  destruct (Z.eqb_spec c 0); [lia|]. destruct i as [|i]; intros H; [done|]. rewrite char_at_cons. apply IH. lia.
Qed.

(** strlen is the first zero *)
Lemma strlen_unique s n : char_at s n = 0 -> (forall i, (i < n)%nat -> char_at s i <> 0) -> strlen s = n.
Proof.
  intros Hn Hb. destruct (Nat.lt_trichotomy (strlen s) n) as [H|[H|H]]; [|done|].
  - exfalso. by apply (Hb _ H), strlen_end.
  - exfalso. by apply (strlen_before s n H).
Qed.

Lemma cstr_nonzero l : Forall (fun c => c <> 0) l -> cstr l = l.
Proof.
  intros H. unfold cstr. apply take_ge. induction H as [|c l Hc _ IH]; [done|]. cbn [strlen length].
  rewrite (proj2 (Z.eqb_neq _ _) Hc). lia.
Qed.

Lemma strchr_in s c : is_Some (strchr s c) <-> exists i, (i < strlen s)%nat /\ char_at s i = c.
Proof.
  induction s as [|x s IH]; cbn [strchr strlen].
  { split; [by intros []|intros (i & Hi & _); lia]. }
  destruct (Z.eqb_spec x 0) as [->|Hx]; [split; [by intros []|intros (i & Hi & _); lia]|].
  destruct (Z.eqb_spec x c) as [->|Hc]; [split; [intros _; exists 0%nat; split; [lia|done]|by eexists]|].
  rewrite fmap_is_Some, IH. split.
  - intros (i & Hi & E). exists (S i). split; [lia|done].
  - intros ([|i] & Hi & E); [by rewrite <-E in Hc|]. exists i. split; [lia|done].
Qed.
