(* ===== verification/UserMem.v ===== *)
(** The memory routines of user/ulib.c: memset, memmove, memcpy, memcmp and
    strcpy, on the byte memory of KString.  The loops of memmove are those of the
    kernel's memmove; the test that chooses between them is not. *)

From stdpp Require Import base gmap strings numbers list.
From S2P Require Import Prelude KState KString.

(** * The code *)

(** [uint n]; the loop is that of the kernel *)
Definition memset (m : mem) (dst c n : Z) : mem := memset_loop m dst c 0 (Z.to_nat n).

(** [int n]: nothing for a negative one *)
Definition memmove (m : mem) (vdst vsrc n : Z) : mem :=
  if vdst <? vsrc then memmove_fwd m vdst vsrc (Z.to_nat n)
  else memmove_bwd m (vdst + n) (vsrc + n) (Z.to_nat n).

(** [uint n] becomes an [int] *)
Definition memcpy (m : mem) (dst src n : Z) : mem := memmove m dst src (s32 n).

Definition memcmp (m : mem) (s1 s2 n : Z) : Z := memcmp_loop (rmem m s1) (rmem m s2) 0 (Z.to_nat n).

(** [while(( *s++ = *t++) != 0)]; [None]: no NUL within the fuel *)
Fixpoint strcpy_loop (fuel : nat) (m : mem) (s t : Z) : option mem :=
  match fuel with
  | O => None
  | S fuel' =>
      let c := ldb m t in
      let m := stb m s c in
      if nz c then strcpy_loop fuel' m (s + 1) (t + 1) else Some m
  end.
Definition strcpy (fuel : nat) (m : mem) (s t : Z) : option mem := strcpy_loop fuel m s t.

(** * What they do *)

(** whatever the overlap, the destination gets the old bytes of the source *)
Lemma memmove_user_ok m dst src n a : 0 <= n ->
  ldb (memmove m dst src n) a = if (dst <=? a) && (a <? dst + n) then ldb m (src + (a - dst)) else ldb m a.
Proof.
  intros Hn. unfold memmove. destruct (Z.ltb_spec dst src).
  - rewrite memmove_fwd_spec by lia. by rewrite Z2Nat.id by lia.
  - rewrite memmove_bwd_spec by lia. rewrite Z2Nat.id by lia. replace (dst + n - n) with dst by lia.
    destruct (_ && _); [|done]. f_equal. lia.
Qed.

(** the two memmoves are the same function of the contents *)
Lemma memmove_user_kernel m dst src n a : 0 <= n -> ldb (memmove m dst src n) a = ldb (KString.memmove m dst src n) a.
Proof. intros Hn. by rewrite memmove_user_ok, memmove_spec by lia. Qed.

(** the string at [t], [l] and a NUL *)
Definition text_at (m : mem) (t : Z) (l : list Z) : Prop :=
  ldn m t (length l) = l /\ ldb m (t + Z.of_nat (length l)) = 0 /\ Forall (fun c => c <> 0) l.

Lemma text_at_cons m t c l : text_at m t (c :: l) <-> ldb m t = c /\ c <> 0 /\ text_at m (t + 1) l.
Proof.
  unfold text_at. cbn [length]. rewrite ldn_S, Forall_cons. replace (t + Z.of_nat (S (length l))) with (t + 1 + Z.of_nat (length l)) by lia.
  split; [intros ([= H1 H2] & H3 & H4 & H5)|intros (H1 & H2 & H3 & H4 & H5)]; split_and!; try done. by rewrite H1, H3.
Qed.

Lemma strcpy_fwd l : forall m s t fuel, text_at m t l -> s <= t \/ t + Z.of_nat (length l) < s -> (length l < fuel)%nat ->
  strcpy_loop fuel m s t = Some (memmove_fwd m s t (S (length l))).
Proof.
  induction l as [|c l IH]; intros m s t fuel Hs Hd Hf; (destruct fuel as [|fuel]; [cbn [length] in Hf; lia|]); cbn [strcpy_loop].
  - destruct Hs as (_ & Hz & _). cbn [length] in Hz. rewrite Z.add_0_r in Hz. cbn [length memmove_fwd]. rewrite Hz. reflexivity.
  - apply text_at_cons in Hs as (Hc & Hn & Hs). rewrite Hc. unfold nz. rewrite (proj2 (Z.eqb_neq c 0) Hn). cbn [negb length] in *.
    rewrite IH; [by rewrite <-Hc| |lia|lia]. destruct Hs as (H1 & H2 & H3). split_and!; [|rewrite ldb_stb_ne by lia; done|done].
    rewrite <-H1 at 2. apply ldn_ext. intros a Ha. apply ldb_stb_ne. lia.
Qed.

(** strcpy copies the string with its NUL and nothing else, also downwards over
    itself *)
Theorem strcpy_correct m s t l fuel : text_at m t l -> s <= t \/ t + Z.of_nat (length l) < s -> (length l < fuel)%nat ->
  exists m', strcpy fuel m s t = Some m' /\ text_at m' s l /\
    (forall a, a < s \/ s + Z.of_nat (length l) < a -> ldb m' a = ldb m a).
Proof.
  intros Hs Hd Hf. eexists. split; [by apply (strcpy_fwd l)|]. destruct Hs as (H1 & H2 & H3).
  assert (forall a, ldb (memmove_fwd m s t (S (length l))) a = if (s <=? a) && (a <? s + Z.of_nat (S (length l))) then ldb m (t + (a - s)) else ldb m a) as E
    by (intros a; apply memmove_fwd_spec; lia).
  split; [split_and!; [| |done]|].
  - rewrite <-H1 at 3. unfold ldn. apply map_ext_in. intros k Hk%in_seq. rewrite E.
    rewrite (proj2 (Z.leb_le _ _)), (proj2 (Z.ltb_lt _ _)) by lia. cbn [andb]. f_equal. lia.
  - rewrite E, (proj2 (Z.leb_le _ _)), (proj2 (Z.ltb_lt _ _)) by lia. cbn [andb]. rewrite <-H2. f_equal. lia.
  - intros a Ha. rewrite E. destruct Ha; [rewrite (proj2 (Z.leb_gt s a))|rewrite (proj2 (Z.ltb_ge a _)), andb_false_r]; done || lia.
Qed.
