(* ===== verification/UserGrep.v ===== *)
(** user/grep.c: the regular-expression matcher and the line loop of grep,
    with strchr of user/ulib.c (UserLib); match against a declarative meaning of
    patterns, grep against the filter of the lines of its input.

    A string is the list of its bytes before the NUL.  What read(2) returns
    is a parameter: [avail i] bounds the bytes the [i]-th call finds ready, a
    call that is not at the end of the input returns at least one. *)

From stdpp Require Import base gmap strings numbers list.
From S2P Require Import Prelude KState UserLib.

Definition CARET : Z := 94.
Definition DOLLAR : Z := 36.
Definition DOT : Z := 46.
Definition STAR : Z := 42.
Definition NL : Z := 10.

(** * The code *)

(** matchstar: [here] is [matchhere] of the pattern after the star *)
Fixpoint matchstar (c : Z) (here : list Z -> bool) (text : list Z) : bool :=
  if here text then true
  else
    match text with
    | [] => false
    | t :: text' => if (t =? c) || (c =? DOT) then matchstar c here text' else false
    end.

Fixpoint matchhere (re : list Z) : list Z -> bool :=
  fun text =>
  match re with
  | [] => true
  | c :: re1 =>
      let next :=
        match text with
        | [] => false
        | t :: text' => if (c =? DOT) || (c =? t) then matchhere re1 text' else false
        end in
      match re1 with
      | [] => if c =? DOLLAR then bool_decide (text = []) else next
      | s :: re2 => if s =? STAR then matchstar c (matchhere re2) text else next
      end
  end.

(** the [do .. while] over the text *)
Fixpoint match_from (re text : list Z) : bool :=
  if matchhere re text then true
  else match text with [] => false | _ :: text' => match_from re text' end.

Definition match_re (re text : list Z) : bool :=
  match re with
  | c :: re1 => if c =? CARET then matchhere re1 text else match_from re text
  | [] => match_from re text
  end.

(** the inner loop: the lines of the buffer; the output and what is left *)
Fixpoint grep_lines (fuel : nat) (pattern p out : list Z) : list Z * list Z :=
  match fuel with
  | O => (out, p)
  | S fuel' =>
      match strchr p NL with
      | None => (out, p)
      | Some q =>
          let out := if match_re pattern (take q p) then out ++ take (S q) p else out in
          grep_lines fuel' pattern (drop (S q) p) out
      end
  end.

Definition BUFSZ : nat := 1024.

(** the outer loop: [buf] holds the [m] bytes kept from the last round,
    [data] is the input not yet read, [i] counts the calls of read *)
Fixpoint grep_loop (fuel : nat) (avail : nat -> nat) (pattern buf data : list Z) (i : nat) (out : list Z) : option (list Z) :=
  match fuel with
  | O => None
  | S fuel' =>
      let n := (S (avail i) `min` (BUFSZ - length buf - 1) `min` length data)%nat in
      if decide (n = 0%nat) then Some out
      else
        let buf := buf ++ take n data in
        let '(out, rest) := grep_lines (S (length buf)) pattern buf out in
        grep_loop fuel' avail pattern rest (drop n data) (S i) out
  end.

Definition grep (avail : nat -> nat) (pattern data : list Z) : option (list Z) :=
  grep_loop (S (length data)) avail pattern [] data 0 [].

(** * What a pattern means *)

Inductive atom := AnyChar | Char (c : Z).
Inductive item := One (a : atom) | Many (a : atom).
Record pattern := mkpattern { pt_bol : bool; pt_items : list item; pt_eol : bool }.

Definition atom_of (c : Z) : atom := if c =? DOT then AnyChar else Char c.
Definition atom_ok (a : atom) (x : Z) : Prop := match a with AnyChar => True | Char c => x = c end.

(** a final [$] is an anchor, a character before a star repeats *)
Fixpoint parse_items (re : list Z) : list item * bool :=
  match re with
  | [] => ([], false)
  | c :: re1 =>
      match re1 with
      | [] => if c =? DOLLAR then ([], true) else ([One (atom_of c)], false)
      | s :: re2 =>
          if s =? STAR then let '(its, e) := parse_items re2 in (Many (atom_of c) :: its, e)
          else let '(its, e) := parse_items re1 in (One (atom_of c) :: its, e)
      end
  end.

Definition parse_pattern (re : list Z) : pattern :=
  match re with
  | c :: re1 =>
      if c =? CARET then let '(its, e) := parse_items re1 in mkpattern true its e
      else let '(its, e) := parse_items re in mkpattern false its e
  | [] => mkpattern false [] false
  end.

(** the words an item stands for *)
Definition item_lang (i : item) (w : list Z) : Prop :=
  match i with
  | One a => exists x, w = [x] /\ atom_ok a x
  | Many a => Forall (atom_ok a) w
  end.

(** a text matches when it has a part made of one word for each item, at the
    start and at the end where the pattern is anchored *)
Definition matches_here (its : list item) (eol : bool) (text : list Z) : Prop :=
  exists ws post, text = concat ws ++ post /\ Forall2 item_lang its ws /\ (eol = true -> post = []).
Definition matches (p : pattern) (text : list Z) : Prop :=
  exists pre rest, text = pre ++ rest /\ (pt_bol p = true -> pre = []) /\ matches_here (pt_items p) (pt_eol p) rest.

(** * match *)

Lemma atom_of_ok c x : atom_ok (atom_of c) x <-> (x =? c) || (c =? DOT) = true.
Proof.
  unfold atom_of. destruct (c =? DOT); simpl; [rewrite orb_true_r; done|]. rewrite orb_false_r, Z.eqb_eq. done.
Qed.

Lemma matchstar_spec c here text :
  matchstar c here text = true <->
  exists w rest, text = w ++ rest /\ Forall (atom_ok (atom_of c)) w /\ here rest = true.
Proof.
  induction text as [|t text IH]; cbn [matchstar].
  - destruct (here []) eqn:E; split; try done.
    + intros _. by exists [], [].
    + intros (w & rest & Ht & _ & Hh). symmetry in Ht. apply app_nil in Ht as [-> ->]. congruence.
  - destruct (here (t :: text)) eqn:E.
    { split; [|done]. intros _. by exists [], (t :: text). }
    destruct ((t =? c) || (c =? DOT)) eqn:Ec.
    + rewrite IH. split.
      * intros (w & rest & -> & Hw & Hh). exists (t :: w), rest. split; [done|]. split; [|done].
        constructor; [by apply atom_of_ok|done].
      * intros (w & rest & Ht & Hw & Hh). destruct w as [|x w]; [simpl in Ht; subst rest; congruence|].
        injection Ht as <- ->. apply Forall_cons in Hw as [_ Hw]. eauto.
    + split; [done|]. intros (w & rest & Ht & Hw & Hh). destruct w as [|x w]; [simpl in Ht; subst rest; congruence|].
      injection Ht as <- ->. apply Forall_cons in Hw as [Hx _]. apply atom_of_ok in Hx. congruence.
Qed.

Lemma matches_nil text : matches_here [] false text.
Proof. exists [], text. split; [done|]. split; [constructor|done]. Qed.

Lemma matches_one a its e text :
  matches_here (One a :: its) e text <-> exists x rest, text = x :: rest /\ atom_ok a x /\ matches_here its e rest.
Proof.
  split.
  - intros (ws & post & -> & Hw & He). destruct (Forall2_cons_inv_l _ _ _ _ Hw) as (w & ws' & (x & -> & Hx) & Hws & ->).
    exists x, (concat ws' ++ post). split; [done|]. split; [done|]. by exists ws', post.
  - intros (x & rest & -> & Hx & ws & post & -> & Hw & He). exists ([x] :: ws), post. split; [done|].
    split; [|done]. constructor; [by exists x|done].
Qed.

Lemma matches_many a its e text :
  matches_here (Many a :: its) e text <->
  exists w rest, text = w ++ rest /\ Forall (atom_ok a) w /\ matches_here its e rest.
Proof.
  split.
  - intros (ws & post & -> & Hw & He). destruct (Forall2_cons_inv_l _ _ _ _ Hw) as (w & ws' & Hlw & Hws & ->).
    exists w, (concat ws' ++ post). split; [cbn [concat]; by rewrite <-app_assoc|].
    split; [done|]. by exists ws', post.
  - intros (w & rest & -> & Hx & ws & post & -> & Hw & He). exists (w :: ws), post. split; [cbn [concat]; by rewrite <-app_assoc|].
    split; [|done]. by constructor.
Qed.

Lemma next_spec c its e (here : list Z -> bool) text :
  (forall t, here t = true <-> matches_here its e t) ->
  match text with [] => false | t :: text' => if (c =? DOT) || (c =? t) then here text' else false end = true <->
  matches_here (One (atom_of c) :: its) e text.
Proof.
  intros Hh. rewrite matches_one. destruct text as [|t text].
  - split; [done|]. by intros (x & rest & ? & _).
  - rewrite orb_comm, Z.eqb_sym. destruct ((t =? c) || (c =? DOT)) eqn:E.
    + rewrite Hh. split; [intros H; exists t, text; by rewrite atom_of_ok|]. by intros (x & rest & [= <- <-] & _ & H).
    + split; [done|]. intros (x & rest & [= <- <-] & Hx & _). apply atom_of_ok in Hx. congruence.
Qed.

Lemma matchhere_cons c s re2 text :
  matchhere (c :: s :: re2) text =
  if s =? STAR then matchstar c (matchhere re2) text
  else match text with
       | [] => false
       | t :: text' => if (c =? DOT) || (c =? t) then matchhere (s :: re2) text' else false
       end.
Proof. reflexivity. Qed.

Lemma parse_items_cons c s re2 :
  parse_items (c :: s :: re2) =
  if s =? STAR then let '(its, e) := parse_items re2 in (Many (atom_of c) :: its, e)
  else let '(its, e) := parse_items (s :: re2) in (One (atom_of c) :: its, e).
Proof. reflexivity. Qed.

Lemma matchhere_spec n : forall re text, (length re <= n)%nat ->
  (matchhere re text = true <-> matches_here (parse_items re).1 (parse_items re).2 text).
Proof.
  induction n as [|n IH]; intros re text Hn.
  { destruct re; [|simpl in Hn; lia]. split; [intros _; apply matches_nil|done]. }
  destruct re as [|c [|s re2]].
  - split; [intros _; apply matches_nil|done].
  - cbn [matchhere parse_items]. destruct (c =? DOLLAR) eqn:Ed; cbn [fst snd].
    + rewrite bool_decide_eq_true. split.
      * intros ->. exists [], []. split; [done|]. split; [constructor|done].
      * intros (ws & post & -> & Hw & He). rewrite (He eq_refl), app_nil_r. by apply Forall2_nil_inv_l in Hw as ->.
    + apply (next_spec c [] false (matchhere [])). intros t. split; [intros _; apply matches_nil|done].
  - cbn [length] in Hn. rewrite matchhere_cons, parse_items_cons. destruct (s =? STAR) eqn:Es.
    + destruct (parse_items re2) as [its e] eqn:Ep. cbn [fst snd]. rewrite matchstar_spec, matches_many.
      assert (forall t, matchhere re2 t = true <-> matches_here its e t) as Hh.
      { intros t. rewrite IH by lia. by rewrite Ep. }
      split; intros (w & rest & E & Hw & H); exists w, rest; (split; [done|]; split; [done|]; by apply Hh).
    + destruct (parse_items (s :: re2)) as [its e] eqn:Ep. cbn [fst snd].
      apply (next_spec c its e (matchhere (s :: re2))). intros t. rewrite IH by (simpl; lia). by rewrite Ep.
Qed.

Lemma match_from_spec re its e text :
  (forall t, matchhere re t = true <-> matches_here its e t) ->
  (match_from re text = true <-> exists pre rest, text = pre ++ rest /\ matches_here its e rest).
Proof.
  intros Hh. induction text as [|t text IH]; cbn [match_from].
  - destruct (matchhere re []) eqn:E; split; try done.
    + intros _. exists [], []. split; [done|]. by apply Hh.
    + intros (pre & rest & Ht & H). symmetry in Ht. apply app_nil in Ht as [-> ->]. apply Hh in H. congruence.
  - destruct (matchhere re (t :: text)) eqn:E.
    { split; [|done]. intros _. exists [], (t :: text). split; [done|]. by apply Hh. }
    rewrite IH. split.
    + intros (pre & rest & -> & H). by exists (t :: pre), rest.
    + intros (pre & rest & Ht & H). destruct pre as [|x pre]; [simpl in Ht; subst rest; apply Hh in H; congruence|].
      injection Ht as <- ->. eauto.
Qed.

Lemma match_re_spec re text : match_re re text = true <-> matches (parse_pattern re) text.
Proof.
  assert (forall r t, matchhere r t = true <-> matches_here (parse_items r).1 (parse_items r).2 t) as Hh
    by (intros r t; by apply (matchhere_spec (length r))).
  assert (forall r, match_from r text = true <-> matches (mkpattern false (parse_items r).1 (parse_items r).2) text) as Hf.
  { intros r. rewrite (match_from_spec r (parse_items r).1 (parse_items r).2) by apply Hh. unfold matches. cbn [pt_bol pt_items pt_eol].
    split; intros (pre & rest & E & H); exists pre, rest; [done|]. destruct H as [_ H]. done. }
  unfold match_re, parse_pattern. destruct re as [|c re1]; [apply Hf|]. destruct (c =? CARET).
  - rewrite Hh. destruct (parse_items re1) as [its e]. unfold matches. cbn [pt_bol pt_items pt_eol fst snd]. split.
    + intros H. exists [], text. done.
    + intros (pre & rest & -> & Hp & H). by rewrite (Hp eq_refl).
  - rewrite Hf. by destruct (parse_items (c :: re1)).
Qed.

(** * grep *)

(** the complete lines of a text, without their newline, and the rest *)
Fixpoint lines (s : list Z) : list (list Z) * list Z :=
  match s with
  | [] => ([], [])
  | x :: s' =>
      let '(ls, r) := lines s' in
      if x =? NL then ([] :: ls, r)
      else match ls with l :: ls' => ((x :: l) :: ls', r) | [] => ([], x :: r) end
  end.

(** the lines that match, each with its newline *)
Definition grep_out (pattern : list Z) (ls : list (list Z)) : list Z :=
  concat (map (fun l => if match_re pattern l then l ++ [NL] else []) ls).

Lemma grep_out_app pattern ls ls' : grep_out pattern (ls ++ ls') = grep_out pattern ls ++ grep_out pattern ls'.
Proof. unfold grep_out. by rewrite map_app, concat_app. Qed.

(** cutting the text anywhere *)
Lemma lines_app a b :
  lines (a ++ b) = ((lines a).1 ++ (lines ((lines a).2 ++ b)).1, (lines ((lines a).2 ++ b)).2).
Proof.
  induction a as [|x a IH]; [simpl; by destruct (lines b)|]. cbn [app lines]. rewrite IH.
  destruct (lines a) as [ls r]. cbn [fst snd]. destruct (x =? NL) eqn:Ex.
  - cbn [fst snd app]. done.
  - destruct ls as [|l ls].
    + cbn [app fst snd lines]. rewrite Ex. destruct (lines (r ++ b)) as [ls' r']. by destruct ls'.
    + done.
Qed.

Lemma lines_none l : NL ∉ l -> lines l = ([], l).
Proof.
  induction l as [|x l IH]; [done|]. intros H. cbn [lines]. rewrite IH by set_solver.
  destruct (Z.eqb_spec x NL) as [->|]; [set_solver|done].
Qed.

Lemma lines_rest s : NL ∉ (lines s).2.
Proof.
  induction s as [|x s IH]; cbn [lines]; [set_solver|]. destruct (lines s) as [ls r]. cbn [snd] in IH.
  destruct (Z.eqb_spec x NL); [done|]. destruct ls; simpl; [set_solver|done].
Qed.

Lemma lines_sub s x : x ∈ (lines s).2 -> x ∈ s.
Proof.
  induction s as [|y s IH]; cbn [lines]; [done|]. destruct (lines s) as [ls r]. cbn [snd] in IH.
  destruct (y =? NL); [set_solver|]. destruct ls; simpl; set_solver.
Qed.

Lemma lines_cons l r : NL ∉ l -> forall p, p = l ++ NL :: r -> lines p = (l :: (lines r).1, (lines r).2).
Proof.
  intros Hn p ->. induction l as [|x l IHl]; cbn [app lines].
  - rewrite Z.eqb_refl. by destruct (lines r).
  - rewrite IHl by set_solver. destruct (Z.eqb_spec x NL) as [->|]; [set_solver|done].
Qed.

(** the first line begins with what precedes the first newline *)
Lemma lines_first l b l' ls r : NL ∉ l -> lines (l ++ b) = (l' :: ls, r) -> (length l <= length l')%nat.
Proof.
  revert l' ls r. induction l as [|x l IH]; intros l' ls r Hn; [simpl; lia|]. cbn [app lines].
  destruct (lines (l ++ b)) as [ls0 r0]. destruct (Z.eqb_spec x NL) as [->|]; [set_solver|].
  destruct ls0 as [|l0 ls0]; [done|]. intros [= <- <- <-]. simpl.
  pose proof (IH l0 ls0 r0 ltac:(set_solver) eq_refl). lia.
Qed.

Lemma strchr_nl p : 0 ∉ p ->
  match strchr p NL with
  | Some q => NL ∉ take q p /\ p = take q p ++ NL :: drop (S q) p
  | None => NL ∉ p
  end.
Proof.
  induction p as [|x p IH]; intros H0; cbn [strchr]; [set_solver|].
  destruct (Z.eqb_spec x 0) as [->|]; [set_solver|]. destruct (Z.eqb_spec x NL) as [->|Hx].
  - cbn [take drop app]. rewrite drop_0. split; [set_solver|done].
  - specialize (IH ltac:(set_solver)). destruct (strchr p NL) as [q|]; cbn [fmap option_fmap option_map].
    + destruct IH as [H1 H2]. cbn [take drop app]. split; [set_solver|]. by f_equal.
    + set_solver.
Qed.

Lemma grep_lines_run fuel pattern : forall p out, 0 ∉ p -> (length p < fuel)%nat ->
  grep_lines fuel pattern p out = (out ++ grep_out pattern (lines p).1, (lines p).2).
Proof.
  induction fuel as [|fuel IH]; intros p out H0 Hf; [lia|]. cbn [grep_lines].
  pose proof (strchr_nl p H0) as Hs. destruct (strchr p NL) as [q|].
  - destruct Hs as [Hn E]. set (l := take q p) in *. set (r := drop (S q) p) in *.
    assert (take (S q) p = l ++ [NL]) as Et.
    { assert (length l = q) as Hl.
      { unfold l. rewrite length_take. apply (f_equal length) in E. rewrite length_app in E. simpl in E.
        unfold l, r in E. rewrite length_take, length_drop in E. lia. }
      rewrite E at 1. replace (S q) with (length l + 1)%nat by lia. rewrite take_app_add. done. }
    rewrite Et. rewrite (lines_cons l r Hn p E).
    rewrite IH.
    + cbn [fst snd]. f_equal. unfold grep_out. cbn [map concat]. destruct (match_re pattern l); [|done]. by rewrite <-!app_assoc.
    + rewrite E in H0. set_solver.
    + rewrite E, length_app in Hf. simpl in Hf. lia.
  - rewrite lines_none by done. cbn [fst snd]. unfold grep_out. cbn [map concat]. by rewrite app_nil_r.
Qed.

Lemma grep_loop_run avail pattern : forall fuel buf data i out,
  NL ∉ buf -> 0 ∉ buf ++ data -> Forall (fun l => (length l < BUFSZ - 1)%nat) (lines (buf ++ data)).1 ->
  (length data < fuel)%nat ->
  grep_loop fuel avail pattern buf data i out = Some (out ++ grep_out pattern (lines (buf ++ data)).1).
Proof.
  induction fuel as [|fuel IH]; intros buf data i out Hb H0 Hl Hf; [lia|]. cbn [grep_loop].
  set (n := (S (avail i) `min` (BUFSZ - length buf - 1) `min` length data)%nat).
  destruct (decide (n = 0%nat)) as [Hn|Hn].
  - assert ((lines (buf ++ data)).1 = []) as ->; [|unfold grep_out; simpl; by rewrite app_nil_r].
    destruct (decide (data = [])) as [->|Hd]; [by rewrite app_nil_r, lines_none|].
    destruct (lines (buf ++ data)) as [[|l ls] r] eqn:E; [done|].
    pose proof (lines_first _ _ _ _ _ Hb E) as Hlen. apply Forall_cons in Hl as [Hl _].
    assert (length data <> 0)%nat by (by destruct data). unfold BUFSZ in *. lia.
  - pose proof (lines_app (buf ++ take n data) (drop n data)) as El. rewrite <-app_assoc, take_drop in El.
    assert (0 ∉ buf ++ take n data /\ 0 ∉ drop n data) as [H1 H2].
    { rewrite <-(take_drop n data), app_assoc in H0. by apply not_elem_of_app in H0. }
    rewrite grep_lines_run by (done || lia).
    rewrite El in Hl |- *. cbn [fst] in Hl |- *. apply Forall_app in Hl as [_ Hl]. rewrite IH.
    + by rewrite grep_out_app, app_assoc.
    + apply lines_rest.
    + apply not_elem_of_app. split; [|done]. intros Hx. by apply H1, lines_sub.
    + done.
    + rewrite length_drop. lia.
Qed.

(** * Theorems *)

(** C14: match decides the meaning of a pattern: a text matches exactly when
    some part of it is made of one word for each item of the pattern (a
    character, any character, or a repetition), at the start of the text
    after [^] and at its end before a final [$]. *)
Theorem match_correct re text : match_re re text = true <-> matches (parse_pattern re) text.
Proof. apply match_re_spec. Qed.

(** grep prints exactly the lines that match, in order and whatever
    amounts read returns, when no line is longer than its buffer; an
    unfinished last line is not looked at.  Its loop ends. *)
Theorem grep_correct avail pattern data :
  0 ∉ data -> Forall (fun l => (length l < BUFSZ - 1)%nat) (lines data).1 ->
  grep avail pattern data = Some (grep_out pattern (lines data).1).
Proof.
  intros H0 Hl. unfold grep. rewrite grep_loop_run; [done|set_solver|done|done|lia].
Qed.

Lemma grep_correct_witness :
  grep (fun i => (i mod 3)%nat) [94; 97; 46; 42; 98; 36] [97; 98; 10; 99; 10; 97; 120; 98; 10; 97] =
  Some [97; 98; 10; 97; 120; 98; 10].
Proof.
  rewrite grep_correct.
  - vm_compute. reflexivity.
  - apply (bool_decide_eq_false (0 ∈ [97; 98; 10; 99; 10; 97; 120; 98; 10; 97])). vm_compute. reflexivity.
  - repeat constructor.
Defined.
