(* ===== verification/UserMalloc.v ===== *)
(** user/umalloc.c: the allocator of Kernighan and Ritchie for user programs.

    The program's memory is a map from addresses to bytes; a header is the
    16 bytes at its address, the pointer first and the size, in headers, after
    it.  [base] is the address of the static header of the same name.
    [grow k sz n] is what the kernel answers to the [k]th call of sbrk, for [n]
    bytes in a process of size [sz].  The loops carry fuel; [None] is a loop
    that has not ended. *)

From stdpp Require Import base gmap strings numbers list.
From S2P Require Import Prelude KState KString.

Record heap : Type := mkheap {
  um_mem : mem;          (* the memory of the process *)
  um_freep : Z;          (* start of the search, 0 before the first malloc *)
  um_brk : Z;            (* size of the process *)
  um_calls : nat         (* calls of sbrk so far *)
}.

Definition SIZEOF_HEADER : Z := 16.
Definition SBRK_ERROR : Z := 2 ^ 64 - 1.

(** [p->s.ptr], [p->s.size], and assignments to them *)
Definition s_ptr (h : heap) (p : Z) : Z := ld64 (um_mem h) p.
Definition s_size (h : heap) (p : Z) : Z := ld32 (um_mem h) (p + 8).
Definition um_upd (f : mem -> mem) (h : heap) : heap := mkheap (f (um_mem h)) (um_freep h) (um_brk h) (um_calls h).
Definition set_ptr (p v : Z) : heap -> heap := um_upd (fun m => st64 m p v).
Definition set_size (p v : Z) : heap -> heap := um_upd (fun m => stn m (p + 8) (le_bytes 4 v)).
Definition set_freep (v : Z) (h : heap) : heap := mkheap (um_mem h) v (um_brk h) (um_calls h).

(** [p + n] for a [Header *] *)
Definition padd (p n : Z) : Z := u64 (p + SIZEOF_HEADER * n).

(** [for(p = freep; !(bp > p && bp < p->s.ptr); p = p->s.ptr)], with the break
    at the end of the list *)
Fixpoint free_find (fuel : nat) (h : heap) (bp p : Z) : option Z :=
  match fuel with
  | O => None
  | S fuel' =>
      let nx := s_ptr h p in
      if (p <? bp) && (bp <? nx) then Some p
      else if (nx <=? p) && ((p <? bp) || (bp <? nx)) then Some p
      else free_find fuel' h bp nx
  end.

(** joining to the upper neighbour, then to the lower one *)
Definition free_upper (bp p : Z) (h : heap) : heap :=
  if padd bp (s_size h bp) =? s_ptr h p then
    let h := set_size bp (u32 (s_size h bp + s_size h (s_ptr h p))) h in
    set_ptr bp (s_ptr h (s_ptr h p)) h
  else set_ptr bp (s_ptr h p) h.

Definition free_lower (bp p : Z) (h : heap) : heap :=
  if padd p (s_size h p) =? bp then
    let h := set_size p (u32 (s_size h p + s_size h bp)) h in
    set_ptr p (s_ptr h bp) h
  else set_ptr p bp h.

Definition free (fuel : nat) (ap : Z) (h : heap) : option heap :=
  let bp := padd ap (-1) in
  match free_find fuel h bp (um_freep h) with
  | None => None
  | Some p => Some (set_freep p (free_lower bp p (free_upper bp p h)))
  end.

Section malloc.
Context (base : Z) (grow : nat -> Z -> Z -> bool).

(** sbrk of user/ulib.c, and what sys_sbrk answers *)
Definition sbrk (n : Z) (h : heap) : Z * heap :=
  if grow (um_calls h) (um_brk h) n
  then (um_brk h, mkheap (um_mem h) (um_freep h) (um_brk h + n) (S (um_calls h)))
  else (SBRK_ERROR, mkheap (um_mem h) (um_freep h) (um_brk h) (S (um_calls h))).

(** the argument of sbrk is an int *)
Definition morecore (fuel : nat) (nu : Z) (h : heap) : option (Z * heap) :=
  let nu := if nu <? 4096 then 4096 else nu in
  let '(p, h) := sbrk (s32 (nu * SIZEOF_HEADER)) h in
  if p =? SBRK_ERROR then Some (0, h)
  else
    let h := set_size p nu h in
    match free fuel (padd p 1) h with
    | None => None
    | Some h => Some (um_freep h, h)
    end.

Definition malloc_units (nbytes : Z) : Z := u32 ((nbytes + SIZEOF_HEADER - 1) / SIZEOF_HEADER + 1).

(** [p] has [nunits] at least: take all of it, or its end *)
Definition malloc_take (nunits prevp p : Z) (h : heap) : Z * heap :=
  if s_size h p =? nunits then (padd p 1, set_freep prevp (set_ptr prevp (s_ptr h p) h))
  else
    let h := set_size p (u32 (s_size h p - nunits)) h in
    let p := padd p (s_size h p) in
    let h := set_size p nunits h in
    (padd p 1, set_freep prevp h).

Fixpoint malloc_loop (fuel : nat) (nunits prevp p : Z) (h : heap) : option (Z * heap) :=
  match fuel with
  | O => None
  | S fuel' =>
      if nunits <=? s_size h p then Some (malloc_take nunits prevp p h)
      else if p =? um_freep h then
        match morecore fuel' nunits h with
        | None => None
        | Some (p, h) => if p =? 0 then Some (0, h) else malloc_loop fuel' nunits p (s_ptr h p) h
        end
      else malloc_loop fuel' nunits p (s_ptr h p) h
  end.

(** the list before the first call *)
Definition malloc_init (h : heap) : heap :=
  if um_freep h =? 0 then set_size base 0 (set_freep base (set_ptr base base h)) else h.

Definition malloc (fuel : nat) (nbytes : Z) (h : heap) : option (Z * heap) :=
  let nunits := malloc_units nbytes in
  let h := malloc_init h in
  let prevp := um_freep h in
  malloc_loop fuel nunits prevp (s_ptr h prevp) h.
End malloc.

(** * Headers in memory *)

Lemma ld32_st32_eq m a x : 0 <= x < 2 ^ 32 -> ld32 (stn m a (le_bytes 4 x)) a = x.
Proof.
  intros Hx. unfold ld32. pose proof (ldn_stn_eq m a (le_bytes 4 x) (le_bytes_ok 4 x)) as H.
  rewrite length_le_bytes in H. rewrite H. by apply le_val_bytes_small.
Qed.

Lemma ld32_ext m m' a : (forall b, a <= b < a + 4 -> ldb m b = ldb m' b) -> ld32 m a = ld32 m' a.
Proof. intros H. unfold ld32. f_equal. apply ldn_ext. exact H. Qed.

Lemma ldb_set_ptr p v h x : x < p \/ p + 8 <= x -> ldb (um_mem (set_ptr p v h)) x = ldb (um_mem h) x.
Proof. intros H. by apply ldb_st64_out. Qed.
Lemma ldb_set_size p v h x : x < p + 8 \/ p + 12 <= x -> ldb (um_mem (set_size p v h)) x = ldb (um_mem h) x.
Proof. intros H. apply ldb_stn_out. rewrite length_le_bytes. lia. Qed.

Lemma s_ptr_set_ptr p v h : 0 <= v < 2 ^ 64 -> s_ptr (set_ptr p v h) p = v.
Proof. intros H. unfold s_ptr, set_ptr, um_upd. cbn [um_mem]. rewrite ld64_st64_eq. by apply u64_small. Qed.
Lemma s_size_set_size p v h : 0 <= v < 2 ^ 32 -> s_size (set_size p v h) p = v.
Proof. intros H. unfold s_size, set_size, um_upd. cbn [um_mem]. by apply ld32_st32_eq. Qed.
Lemma s_size_set_ptr p v h : s_size (set_ptr p v h) p = s_size h p.
Proof. apply ld32_ext. intros x Hx. apply ldb_set_ptr. lia. Qed.
Lemma s_ptr_set_size p v h : s_ptr (set_size p v h) p = s_ptr h p.
Proof. apply ld64_ext. intros x Hx. apply ldb_set_size. lia. Qed.

(** the state is as before outside the header at [p] *)
Record only_hdr (p : Z) (h h' : heap) : Prop := {
  oh_mem x : x < p \/ p + SIZEOF_HEADER <= x -> ldb (um_mem h') x = ldb (um_mem h) x;
  oh_freep : um_freep h' = um_freep h;
  oh_brk : um_brk h' = um_brk h;
  oh_calls : um_calls h' = um_calls h
}.

#[export] Instance only_hdr_refl p : Reflexive (only_hdr p).
Proof. intros h. by split. Qed.
#[export] Instance only_hdr_trans p : Transitive (only_hdr p).
Proof. intros h1 h2 h3 [A1 A2 A3 A4] [B1 B2 B3 B4]. split; try congruence. intros x Hx. by rewrite B1, A1. Qed.
Lemma only_set_ptr p v h : only_hdr p h (set_ptr p v h).
Proof. split; try done. intros x Hx. apply ldb_set_ptr. unfold SIZEOF_HEADER in Hx. lia. Qed.
Lemma only_set_size p v h : only_hdr p h (set_size p v h).
Proof. split; try done. intros x Hx. apply ldb_set_size. unfold SIZEOF_HEADER in Hx. lia. Qed.

Lemma only_ptr p q h h' : only_hdr p h h' -> q + 16 <= p \/ p + 16 <= q -> s_ptr h' q = s_ptr h q.
Proof. intros H Hq. apply ld64_ext. intros x Hx. apply (oh_mem _ _ _ H). unfold SIZEOF_HEADER. lia. Qed.
Lemma only_size p q h h' : only_hdr p h h' -> q + 16 <= p \/ p + 16 <= q -> s_size h' q = s_size h q.
Proof. intros H Hq. apply ld32_ext. intros x Hx. apply (oh_mem _ _ _ H). unfold SIZEOF_HEADER. lia. Qed.

Lemma padd_small p n : 0 <= p + 16 * n < 2 ^ 64 -> padd p n = p + 16 * n.
Proof. intros H. unfold padd, SIZEOF_HEADER. by apply u64_small. Qed.

(** * Blocks and the ring of free ones *)

(** a block is the address of its header and its size in headers *)
Abbreviation block := (Z * Z)%type.

Definition bend (b : block) : Z := b.1 + 16 * b.2.
(** the end of the bytes a block occupies: [base] has size 0 and its header *)
Definition hend (b : block) : Z := b.1 + 16 * Z.max 1 b.2.

Definition disj (b c : block) : Prop := hend b <= c.1 \/ hend c <= b.1.
(** free blocks ascend and do not touch *)
Definition gap (b c : block) : Prop := hend b <= c.1 /\ bend b <> c.1.

(** the blocks [l] are linked in memory; the last one points to [z] *)
Definition hd_addr (l : list block) (z : Z) : Z := match l with [] => z | b :: _ => b.1 end.
Fixpoint ring (h : heap) (l : list block) (z : Z) : Prop :=
  match l with
  | [] => True
  | b :: l' => s_size h b.1 = b.2 /\ s_ptr h b.1 = hd_addr l' z /\ ring h l' z
  end.

Lemma hd_addr_app l1 l2 z : hd_addr (l1 ++ l2) z = hd_addr l1 (hd_addr l2 z).
Proof. by destruct l1. Qed.

Lemma ring_app h l1 l2 z : ring h (l1 ++ l2) z <-> ring h l1 (hd_addr l2 z) /\ ring h l2 z.
Proof.
  induction l1 as [|b l1 IH]; cbn [app ring]; [naive_solver|]. rewrite IH, hd_addr_app. naive_solver.
Qed.

(** the headers of the list are what counts *)
Lemma ring_ext h h' l z :
  (forall b x, b ∈ l -> b.1 <= x < b.1 + 16 -> ldb (um_mem h') x = ldb (um_mem h) x) -> ring h l z -> ring h' l z.
Proof.
  induction l as [|b l IH]; intros Hx; [done|]. intros (E1 & E2 & Hr). cbn [ring]. split_and!.
  - rewrite <-E1. apply ld32_ext. intros x H. apply (Hx b); [set_solver|lia].
  - rewrite <-E2. apply ld64_ext. intros x H. apply (Hx b); [set_solver|lia].
  - apply IH; [|done]. intros c x Hc. apply Hx. set_solver.
Qed.

(** a write to a header away from the blocks of the list *)
Lemma ring_only p h h' l z : only_hdr p h h' -> Forall (fun b => b.1 + 16 <= p \/ p + 16 <= b.1) l -> ring h l z -> ring h' l z.
Proof.
  intros Ho Hf. apply ring_ext. intros b x Hb Hx. apply (oh_mem _ _ _ Ho). rewrite Forall_forall in Hf. specialize (Hf b Hb).
  unfold SIZEOF_HEADER. cbn beta in Hf. lia.
Qed.

Lemma ring_mem h h' l z : um_mem h' = um_mem h -> ring h l z -> ring h' l z.
Proof. intros E. apply ring_ext. intros b x _ _. by rewrite E. Qed.
