(* ===== verification/UserMallocSpec.v ===== *)
(** What user/umalloc.c promises: blocks in use never overlap and keep their
    contents, free ones are merged, and a program of mallocs and frees keeps
    the free list well formed. *)

From Stdlib Require Import Sorted.
From stdpp Require Import base gmap strings numbers list.
From S2P Require Import Prelude KState KString UserMalloc.

Lemma Forall_in {A} (P : A -> Prop) l x : Forall P l -> x ∈ l -> P x.
Proof. intros H. by apply Forall_forall. Qed.

(** * Joining neighbours *)

(** [b] put in front of [l], as one block with the first of them if it touches *)
Definition join (b : block) (l : list block) : list block :=
  match l with
  | [] => [b]
  | c :: l' => if bend b =? c.1 then (b.1, b.2 + c.2) :: l' else b :: l
  end.

Definition covers (l : list block) (x : Z) : Prop := exists b, b ∈ l /\ b.1 <= x < bend b.

Lemma covers_cons b l x : covers (b :: l) x <-> b.1 <= x < bend b \/ covers l x.
Proof.
  unfold covers. setoid_rewrite elem_of_cons. split.
  - intros (c & [->|Hc] & Hx); [by left|right; eauto].
  - intros [Hx|(c & Hc & Hx)]; eauto.
Qed.

Lemma covers_app l1 l2 x : covers (l1 ++ l2) x <-> covers l1 x \/ covers l2 x.
Proof. unfold covers. setoid_rewrite elem_of_app. naive_solver. Qed.

Lemma join_covers b l x : 0 <= b.2 -> Forall (fun c : block => 0 <= c.2) l ->
  covers (join b l) x <-> b.1 <= x < bend b \/ covers l x.
Proof.
  intros Hb Hl. destruct l as [|c l]; cbn [join]; [apply covers_cons|]. apply Forall_cons in Hl as [Hc _].
  destruct (Z.eqb_spec (bend b) c.1) as [E|_]; [|apply covers_cons].
  rewrite !covers_cons. unfold bend in *. cbn [fst snd]. split; [|intros [H|[H|H]]; [left; lia..|by right]].
  intros [H|H]; [|by right; right]. destruct (decide (x < c.1)); [left; lia|right; left; lia].
Qed.

Lemma join_hd b l z : hd_addr (join b l) z = b.1.
Proof. destruct l as [|c l]; [done|]. cbn [join]. by destruct (bend b =? c.1). Qed.

Lemma join_Forall (P : block -> Prop) b l :
  P b -> Forall P l -> (forall c, P c -> bend b = c.1 -> P (b.1, b.2 + c.2)) -> Forall P (join b l).
Proof.
  intros Hb Hl Hj. destruct l as [|c l]; cbn [join]; [by constructor|].
  destruct (Z.eqb_spec (bend b) c.1) as [E|_]; [|by constructor].
  apply Forall_cons in Hl as [Hc Hl]. constructor; [by apply Hj|done].
Qed.

Lemma join_sorted b l : Forall (fun c => hend b <= c.1) l -> Forall (fun c : block => 1 <= c.2) l ->
  StronglySorted gap l -> StronglySorted gap (join b l).
Proof.
  intros Hb Hs Hl. destruct l as [|c l]; cbn [join]; [repeat constructor|].
  apply Forall_cons in Hs as [Hc _]. apply StronglySorted_inv in Hl as [Hl Hg]. apply Forall_cons in Hb as [Hbc Hb].
  destruct (Z.eqb_spec (bend b) c.1) as [E|Hne].
  - constructor; [done|]. eapply Forall_impl; [exact Hg|]. intros d [H1 H2]. unfold gap, hend, bend in *. cbn [fst snd]. lia.
  - constructor; [by constructor|]. constructor; [by split|]. eapply Forall_impl; [exact Hg|].
    intros d [H1 H2]. unfold gap, hend, bend in *. lia.
Qed.

(** ** free's two steps *)

(** the header at [a] is away from the block *)
Definition away (a : Z) (b : block) : Prop := b.1 + 16 <= a \/ a + 16 <= b.1.

(** blocks of a heap below 2^36 *)
Definition in_range (c : block) : Prop := 0 < c.1 /\ 1 <= c.2 /\ bend c <= 2 ^ 36.

Lemma hd_addr_range l z : 0 <= z < 2 ^ 36 -> Forall in_range l -> 0 <= hd_addr l z < 2 ^ 64.
Proof. intros Hz Hl. destruct l as [|c l]; cbn [hd_addr]; [lia|]. apply Forall_inv in Hl. unfold in_range, bend in Hl. lia. Qed.

(** a header linked in front of a list *)
Lemma ring_link h b l z : s_size h b.1 = b.2 -> ring h l z -> Forall (away b.1) l -> 0 <= hd_addr l z < 2 ^ 64 ->
  ring (set_ptr b.1 (hd_addr l z) h) (b :: l) z /\ only_hdr b.1 h (set_ptr b.1 (hd_addr l z) h).
Proof.
  intros Es Hr Ha Hz. split; [|apply only_set_ptr]. cbn [ring]. rewrite s_size_set_ptr, s_ptr_set_ptr by done.
  split_and!; [done|done|]. eapply ring_only; [apply only_set_ptr|done..].
Qed.

(** the first block of a list merged with the block at [a] before it *)
Lemma ring_merge h a n c l z : ring h (c :: l) z -> Forall (away a) (c :: l) -> 0 <= z < 2 ^ 36 -> Forall in_range (c :: l) ->
  0 <= n + c.2 < 2 ^ 32 -> let h1 := set_size a (u32 (n + s_size h c.1)) h in
  ring (set_ptr a (s_ptr h1 c.1) h1) ((a, n + c.2) :: l) z /\ only_hdr a h (set_ptr a (s_ptr h1 c.1) h1).
Proof.
  intros (E1 & E2 & Hr) Ha Hz Hl Hn h1. assert (only_hdr a h h1) as O1 by apply only_set_size.
  apply Forall_cons in Ha as [Hc Ha]. rewrite (only_ptr _ c.1 _ _ O1) by exact Hc. rewrite E2.
  destruct (ring_link h1 (a, n + c.2) l z) as [R O2].
  - unfold h1. rewrite E1, u32_small by done. by apply s_size_set_size.
  - by eapply ring_only.
  - done.
  - apply hd_addr_range; [done|]. by apply Forall_inv_tail in Hl.
  - split; [exact R|]. by transitivity h1.
Qed.

Lemma free_upper_ring h b p l z :
  s_ptr h p = hd_addr l z -> s_size h b.1 = b.2 -> ring h l z -> away b.1 (p, 1) -> Forall (away b.1) l ->
  0 <= z < b.1 -> in_range b -> Forall in_range l ->
  ring (free_upper b.1 p h) (join b l) z /\ only_hdr b.1 h (free_upper b.1 p h).
Proof.
  intros Ep Es Hr Hp Ha Hz Hb Hl. unfold in_range, bend in Hb. assert (0 <= z < 2 ^ 36) as Hz' by lia.
  unfold free_upper. rewrite Es, Ep, padd_small by lia. change (b.1 + 16 * b.2) with (bend b).
  destruct (Z.eqb_spec (bend b) (hd_addr l z)) as [E|Hne].
  - destruct l as [|c l]; [cbn [hd_addr] in E; unfold bend in E; lia|]. cbn [hd_addr join] in *.
    rewrite (proj2 (Z.eqb_eq (bend b) c.1) E). cbv zeta.
    rewrite (only_ptr b.1 p h (set_size _ _ _) (only_set_size _ _ _)) by exact Hp. rewrite Ep.
    apply ring_merge; try done. apply Forall_inv in Hl. unfold in_range, bend in *. lia.
  - assert (join b l = b :: l) as ->.
    { destruct l as [|c l]; [done|]. cbn [join]. by rewrite (proj2 (Z.eqb_neq (bend b) c.1) Hne). }
    apply ring_link; try done. by apply hd_addr_range.
Qed.

Lemma free_lower_ring h p b l z :
  s_size h p.1 = p.2 -> ring h (b :: l) z -> Forall (away p.1) (b :: l) -> 0 <= z < 2 ^ 36 ->
  0 < p.1 -> 0 <= p.2 -> bend p <= b.1 -> Forall in_range (b :: l) ->
  ring (free_lower b.1 p.1 h) (join p (b :: l)) z /\ only_hdr p.1 h (free_lower b.1 p.1 h).
Proof.
  intros Es Hr Ha Hz H0 H1 Hpb Hl. pose proof (Forall_inv Hl) as Hb. unfold in_range in Hb.
  unfold free_lower. rewrite Es, padd_small by (unfold bend in *; lia). change (p.1 + 16 * p.2) with (bend p). cbn [join].
  destruct (Z.eqb_spec (bend p) b.1) as [E|Hne]; cbv zeta.
  - apply ring_merge; try done. unfold bend in *. lia.
  - apply (ring_link h p (b :: l)); try done. by apply hd_addr_range.
Qed.

(** * Searching the place of a block *)

Definition stop (bp p nx : Z) : bool := ((p <? bp) && (bp <? nx)) || ((nx <=? p) && ((p <? bp) || (bp <? nx))).

Lemma free_find_S f h bp p :
  free_find (S f) h bp p = if stop bp p (s_ptr h p) then Some p else free_find f h bp (s_ptr h p).
Proof. unfold stop. cbn [free_find]. by destruct ((p <? bp) && (bp <? s_ptr h p)). Qed.

Lemma free_find_more f f' h bp p r : free_find f h bp p = Some r -> (f <= f')%nat -> free_find f' h bp p = Some r.
Proof.
  revert f' p. induction f as [|f IH]; intros f' p E Hf; [done|]. destruct f' as [|f']; [lia|].
  rewrite free_find_S in *. destruct (stop bp p (s_ptr h p)); [done|]. apply IH; [done|lia].
Qed.

(** the search goes past the blocks [l] *)
Fixpoint passes (bp : Z) (l : list block) (z : Z) : Prop :=
  match l with [] => True | b :: l' => stop bp b.1 (hd_addr l' z) = false /\ passes bp l' z end.

Lemma free_find_walk h bp l z f : ring h l z -> passes bp l z -> free_find (length l + f) h bp (hd_addr l z) = free_find f h bp z.
Proof.
  induction l as [|b l IH]; [done|]. intros (_ & E & Hr) [Hs Hp]. cbn [length hd_addr Nat.add]. rewrite free_find_S, E, Hs. by apply IH.
Qed.

(** blocks below [bp] that do not end the search, and blocks above it *)
Lemma passes_below bp l z : StronglySorted gap l -> Forall (fun b : block => b.1 < z) l -> z < bp -> passes bp l z.
Proof.
  induction 1 as [|b l Hl IH Hg]; intros Hz Hbp; [done|]. apply Forall_cons in Hz as [Hb Hz]. cbn [passes]. split; [|by apply IH].
  assert (b.1 < hd_addr l z <= z) as Hn.
  { destruct l as [|c l]; cbn [hd_addr]; [lia|]. apply Forall_inv in Hg, Hz. unfold gap, hend in Hg. lia. }
  unfold stop. rewrite (proj2 (Z.ltb_ge bp (hd_addr l z))), (proj2 (Z.leb_gt (hd_addr l z) b.1)) by lia. by rewrite andb_false_r.
Qed.

Lemma passes_above bp l z : StronglySorted gap l -> Forall (fun b : block => bp < b.1) l -> z <= bp -> passes bp l z.
Proof.
  induction 1 as [|b l Hl IH Hg]; intros Hz Hbp; [done|]. apply Forall_cons in Hz as [Hb Hz]. cbn [passes]. split; [|by apply IH].
  unfold stop. rewrite (proj2 (Z.ltb_ge b.1 bp)) by lia. cbn [andb orb]. destruct l as [|c l]; cbn [hd_addr].
  - by rewrite (proj2 (Z.ltb_ge bp z)), andb_false_r by lia.
  - apply Forall_inv in Hg. unfold gap, hend in Hg. by rewrite (proj2 (Z.leb_gt c.1 b.1)) by lia.
Qed.

Lemma sorted_app (l1 l2 : list block) : StronglySorted gap (l1 ++ l2) ->
  StronglySorted gap l1 /\ StronglySorted gap l2 /\ forall b c, b ∈ l1 -> c ∈ l2 -> gap b c.
Proof.
  induction l1 as [|b l1 IH]; cbn [app]; intros H; [split_and!; [constructor|done|set_solver]|].
  apply StronglySorted_inv in H as [H Hg]. apply Forall_app in Hg as [Hg1 Hg2]. destruct (IH H) as (S1 & S2 & S3).
  split_and!; [by constructor|done|]. intros x c [->|Hx]%elem_of_cons Hc; [|by apply S3]. by eapply Forall_forall in Hg2.
Qed.

(** the block after which [bp] belongs *)
Lemma find_place bp b l : b.1 < bp -> StronglySorted gap (b :: l) -> Forall (fun c : block => c.1 <> bp) l ->
  exists l1 p l2, b :: l = l1 ++ p :: l2 /\ p.1 < bp /\ Forall (fun c : block => bp < c.1) l2.
Proof.
  revert b. induction l as [|c l IH]; intros b Hb Hs Hne; [by exists [], b, []|].
  apply Forall_cons in Hne as [Hc Hne]. apply StronglySorted_inv in Hs as [Hs Hg].
  destruct (decide (c.1 < bp)) as [Hlt|Hge].
  - destruct (IH c Hlt Hs Hne) as (l1 & p & l2 & E & H1 & H2). exists (b :: l1), p, l2. by rewrite E.
  - exists [], b, (c :: l). split_and!; [done|done|]. apply StronglySorted_inv in Hs as [_ Hg'].
    constructor; [lia|]. eapply Forall_impl; [exact Hg'|]. intros d [H _]. unfold hend in H. lia.
Qed.

Lemma free_find_spec h z bp l1 p l2 q f :
  ring h (l1 ++ p :: l2) z -> hd_addr (l1 ++ p :: l2) z = z -> StronglySorted gap (l1 ++ p :: l2) ->
  z < bp -> p.1 < bp -> Forall (fun c : block => bp < c.1) l2 -> q ∈ l1 ++ p :: l2 ->
  (2 * length (l1 ++ p :: l2) < f)%nat -> free_find f h bp q.1 = Some p.1.
Proof.
  intros Hr Hz Hs Hzb Hp H2 Hq Hf. rewrite length_app in Hf. cbn [length] in Hf.
  apply ring_app in Hr as [R1 (_ & Ep & R2)]. destruct (sorted_app _ _ Hs) as (S1 & S2 & S3).
  assert (stop bp p.1 (s_ptr h p.1) = true) as Hstop.
  { rewrite Ep. unfold stop. rewrite (proj2 (Z.ltb_lt p.1 bp)) by done. destruct l2 as [|c l2]; cbn [hd_addr andb orb].
    - assert (z <= p.1); [|by rewrite (proj2 (Z.leb_le z p.1)), orb_true_r by done].
      destruct l1 as [|b l1]; cbn [app hd_addr] in Hz; [lia|]. assert (gap b p) as [Hg _] by (apply S3; set_solver). unfold hend in Hg. lia.
    - apply Forall_inv in H2. by rewrite (proj2 (Z.ltb_lt bp c.1)). }
  assert (forall l f, ring h l p.1 -> passes bp l p.1 -> (length l < f)%nat -> free_find f h bp (hd_addr l p.1) = Some p.1) as Hfwd.
  { intros l f' Hl Hpl Hlen. apply (free_find_more (length l + 1)); [|lia]. rewrite free_find_walk by done. by rewrite free_find_S, Hstop. }
  assert (passes bp l1 p.1) as P1.
  { apply passes_below; [done| |done]. apply Forall_forall. intros b Hb. assert (gap b p) as [Hg _] by (apply S3; set_solver). unfold hend in Hg. lia. }
  apply elem_of_app in Hq as [Hq|[->|Hq]%elem_of_cons].
  - apply list_elem_of_split in Hq as (m1 & m2 & ->). cbn [hd_addr] in R1. apply ring_app in R1 as [_ R1].
    rewrite length_app in Hf. cbn [length] in Hf.
    assert (forall m, passes bp (m ++ q :: m2) p.1 -> passes bp (q :: m2) p.1) as Hpa.
    { induction m as [|x m IH]; [done|]. intros [_ H]. by apply IH. }
    apply (Hfwd (q :: m2)); [done|by eapply Hpa|cbn [length]; lia].
  - apply (Hfwd []); [done|done|cbn [length]; lia].
  - apply list_elem_of_split in Hq as (m1 & m2 & ->). apply ring_app in R2 as [_ R2]. rewrite length_app in Hf. cbn [length] in Hf.
    apply StronglySorted_inv in S2 as [S2 _]. apply sorted_app in S2 as (_ & S2 & _). apply Forall_app in H2 as [_ H2].
    replace f with (length (q :: m2) + (f - length (q :: m2)))%nat by (cbn [length]; lia).
    change q.1 with (hd_addr (q :: m2) z). rewrite free_find_walk; [|done|apply passes_above; (done || lia)].
    rewrite hd_addr_app in Hz. cbn [hd_addr] in Hz. rewrite <-Hz. apply Hfwd; [done|done|cbn [length]; lia].
Qed.

Lemma sorted_app_intro (l1 l2 : list block) : StronglySorted gap l1 -> StronglySorted gap l2 ->
  (forall b, b ∈ l1 -> Forall (gap b) l2) -> StronglySorted gap (l1 ++ l2).
Proof.
  induction 1 as [|b l1 H1 IH Hg]; intros H2 Hx; [done|]. cbn [app]. constructor.
  - apply IH; [done|]. intros c Hc. apply Hx. set_solver.
  - apply Forall_app. split; [done|]. apply Hx. set_solver.
Qed.

(** * The invariant *)

Section heap.
Context (base : Z).

(** [L] is the ring of free blocks from [base] on, [al] are the blocks in use *)
Record wf (h : heap) (L al : list block) : Prop := {
  wf_base : 0 < base;
  wf_head : exists fl, L = (base, 0) :: fl /\ Forall (fun b : block => 1 <= b.2) fl;
  wf_ring : ring h L base;
  wf_sorted : StronglySorted gap L;
  wf_freep : exists q, q ∈ L /\ q.1 = um_freep h;
  wf_al : Forall (fun b => 1 <= b.2 /\ s_size h b.1 = b.2) al;
  wf_al_disj : ForallOrdPairs disj al;
  wf_disj b c : b ∈ L -> c ∈ al -> disj b c;
  wf_bound : Forall (fun b => base <= b.1 /\ hend b <= um_brk h) (L ++ al);
  wf_brk : um_brk h <= 2 ^ 36
}.

(** the bytes of the blocks of a list, headers included *)
Definition holds (l : list block) (x : Z) : Prop := exists b, b ∈ l /\ b.1 <= x < hend b.

Lemma wf_block h L al b : wf h L al -> b ∈ al -> in_range b /\ base + 16 <= b.1.
Proof.
  intros W Hb. pose proof (wf_base _ _ _ W). pose proof (wf_brk _ _ _ W).
  assert (base <= b.1 /\ hend b <= um_brk h) as [H1 H2] by (apply (Forall_in _ _ b (wf_bound _ _ _ W)); set_solver).
  assert (1 <= b.2 /\ s_size h b.1 = b.2) as [H3 _] by (by apply (Forall_in _ _ b (wf_al _ _ _ W))).
  destruct (wf_head _ _ _ W) as (fl & -> & _). destruct (wf_disj _ _ _ W (base, 0) b) as [D|D]; [set_solver|done|..];
    unfold in_range, hend, bend in *; cbn [fst snd] in *; lia.
Qed.

Lemma wf_free_block h L al b : wf h L al -> b ∈ L -> b = (base, 0) \/ in_range b.
Proof.
  intros W Hb. pose proof (wf_base _ _ _ W). pose proof (wf_brk _ _ _ W).
  assert (base <= b.1 /\ hend b <= um_brk h) as [H1 H2] by (apply (Forall_in _ _ b (wf_bound _ _ _ W)); set_solver).
  destruct (wf_head _ _ _ W) as (fl & -> & Hfl). apply elem_of_cons in Hb as [->|Hb]; [by left|right].
  eapply Forall_forall in Hfl; [|exact Hb]. cbn beta in Hfl. unfold in_range, hend, bend in *. lia.
Qed.

Lemma wf_hd_range h L al l : wf h L al -> (forall b, b ∈ l -> b ∈ L) -> 0 <= hd_addr l base < 2 ^ 64.
Proof.
  intros W Hl. pose proof (wf_base _ _ _ W). pose proof (wf_brk _ _ _ W).
  assert (forall b, b ∈ L -> base <= b.1 < 2 ^ 36) as Hb.
  { intros b Hb. destruct (Forall_in _ _ b (wf_bound _ _ _ W)) as [H1 H2]; [set_solver|]. unfold hend in H2. lia. }
  destruct (wf_head _ _ _ W) as (fl & E & _). destruct l as [|b l]; cbn [hd_addr].
  - assert (base <= (base, 0).1 < 2 ^ 36) as Hbb by (apply Hb; rewrite E; set_solver). cbn [fst] in Hbb. lia.
  - assert (base <= b.1 < 2 ^ 36) by (apply Hb, Hl; set_solver). lia.
Qed.

(** the place of a block to free *)
Record place (b : block) (L l1 : list block) (p : block) (l2 : list block) : Prop := {
  pl_split : L = l1 ++ p :: l2;
  pl_lower : hend p <= b.1;
  pl_before c : c ∈ l1 -> gap c p;
  pl_after : Forall (fun c => hend b <= c.1 /\ gap p c) l2;
  pl_range : Forall in_range l2;
  pl_p : 0 < p.1 /\ 0 <= p.2;
  pl_head : p = (base, 0) /\ l1 = [] \/ 1 <= p.2 /\ exists l, l1 = (base, 0) :: l /\ Forall (fun c : block => 1 <= c.2) l
}.

Lemma wf_place h L al b : wf h L (b :: al) -> exists l1 p l2, place b L l1 p l2 /\
  forall f q, q ∈ L -> (2 * length L < f)%nat -> free_find f h b.1 q.1 = Some p.1.
Proof.
  intros W. destruct (wf_block _ _ _ b W) as [Hb Hbase]; [set_solver|]. pose proof (wf_base _ _ _ W) as H0.
  destruct (wf_head _ _ _ W) as (fl & E & Hfl). pose proof (wf_sorted _ _ _ W) as Hs.
  assert (forall c, c ∈ L -> disj c b) as D by (intros c Hc; apply (wf_disj _ _ _ W); set_solver).
  destruct (find_place b.1 (base, 0) fl) as (l1 & p & l2 & Es & Hp & H2).
  - cbn [fst]. lia.
  - by rewrite <-E.
  - apply Forall_forall. intros c Hc. assert (disj c b) as Hd by (apply D; set_solver).
    unfold in_range, disj, hend in *. eapply Forall_forall in Hfl; [|exact Hc]. cbn beta in Hfl. lia.
  - rewrite <-E in Es. exists l1, p, l2. pose proof Hs as Hs'. rewrite Es in Hs'. apply sorted_app in Hs' as (S1 & S2 & S3).
    apply StronglySorted_inv in S2 as [S2 Hg]. split.
    + split.
      * exact Es.
      * destruct (D p) as [Hd|Hd]; [rewrite Es; set_solver|done|]. unfold hend in *. unfold in_range in Hb. lia.
      * intros c Hc. apply S3; set_solver.
      * apply Forall_forall. intros c Hc. split; [|by eapply Forall_forall in Hg]. eapply Forall_forall in H2; [|exact Hc].
        cbn beta in H2. destruct (D c) as [Hd|Hd]; [rewrite Es; set_solver| |done]. unfold hend in *. lia.
      * apply Forall_forall. intros c Hc. destruct (wf_free_block h L (b :: al) c W) as [->|Hr]; [rewrite Es; set_solver| |done].
        eapply Forall_forall in H2; [|exact Hc]. cbn [fst] in H2. lia.
      * destruct (wf_free_block h L (b :: al) p W) as [->|Hr]; [rewrite Es; set_solver|done|]. unfold in_range in Hr. lia.
      * destruct l1 as [|x l1]; cbn [app] in Es; rewrite E in Es; injection Es as <- Es; [by left|right].
        rewrite Es in Hfl. apply Forall_app in Hfl as [Hf1 Hf2]. apply Forall_cons in Hf2 as [Hf2 _]. split; [done|]. by exists l1.
    + intros f q Hq Hf. rewrite Es in *. apply (free_find_spec h base b.1 l1 p l2 q f); try done.
      * apply W.
      * by rewrite E.
      * lia.
Qed.
Definition merged (b : block) (l1 : list block) (p : block) (l2 : list block) : list block := l1 ++ join p (join b l2).

Lemma merged_Forall (P : block -> Prop) b l1 p l2 :
  Forall P (b :: l1 ++ p :: l2) -> (forall c d, P c -> P d -> bend c = d.1 -> P (c.1, c.2 + d.2)) -> Forall P (merged b l1 p l2).
Proof.
  intros H Hj. apply Forall_cons in H as [Hb H]. apply Forall_app in H as [H1 H]. apply Forall_cons in H as [Hp H2].
  apply Forall_app. split; [done|]. apply join_Forall; [done| |by intros; apply Hj]. apply join_Forall; [done..|by intros; apply Hj].
Qed.

Lemma merged_disj c b l1 p l2 : 1 <= c.2 -> Forall (fun y => 0 <= y.2 /\ disj y c) (b :: l1 ++ p :: l2) ->
  Forall (fun y => disj y c) (merged b l1 p l2).
Proof.
  intros Hc H. apply (Forall_impl (fun y => 0 <= y.2 /\ disj y c)); [|by intros y [_ Hy]]. apply merged_Forall; [exact H|].
  intros x y [X1 X2] [Y1 Y2] E. unfold disj, hend, bend in *. cbn [fst snd]. lia.
Qed.

Section place.
Context (b : block) (L l1 : list block) (p : block) (l2 : list block).
Context (P : place b L l1 p l2) (Hb : in_range b) (Hs : StronglySorted gap L).

Lemma join_b_range : Forall in_range (join b l2).
Proof.
  destruct P. apply join_Forall; [done..|]. intros c Hc E. unfold in_range, bend in *. cbn [fst snd]. lia.
Qed.

Lemma join_b_after : Forall (fun c => hend p <= c.1) (join b l2).
Proof.
  destruct P as [_ Hlow _ Ha _ _ _]. apply join_Forall; [done| |done]. eapply Forall_impl; [exact Ha|]. by intros c [_ [H _]].
Qed.

Lemma merged_sorted : StronglySorted gap (merged b l1 p l2).
Proof.
  pose proof join_b_range as Hr. pose proof join_b_after as Haf. destruct P as [Es Hlow Hbef Ha Hr2 Hp Hhd]. rewrite Es in Hs.
  apply sorted_app in Hs as (S1 & S2 & _). apply StronglySorted_inv in S2 as [S2 _].
  apply sorted_app_intro; [done|..].
  - apply join_sorted; [done|eapply Forall_impl; [exact Hr|]; intros c Hc; apply Hc|].
    apply join_sorted; [eapply Forall_impl; [exact Ha|]; intros c Hc; apply Hc|eapply Forall_impl; [exact Hr2|]; intros c Hc; apply Hc|done].
  - intros c Hc. apply Hbef in Hc as [G1 G2]. apply join_Forall; [by split| |by intros d Hd _; split].
    eapply Forall_impl; [exact Haf|]. intros d Hd. unfold gap, hend, bend in *. lia.
Qed.

Lemma merged_head : exists fl, merged b l1 p l2 = (base, 0) :: fl /\ Forall (fun c : block => 1 <= c.2) fl.
Proof.
  pose proof join_b_range as Hr. pose proof join_b_after as Haf. destruct P as [Es Hlow Hbef Ha Hr2 Hp Hhd]. unfold merged.
  assert (Forall (fun c : block => 1 <= c.2) (join b l2)) as H1 by (eapply Forall_impl; [exact Hr|]; intros c Hc; apply Hc).
  destruct Hhd as [[-> ->]|[Hp1 (l & -> & Hl)]]; cbn [app].
  - exists (join b l2). split; [|done]. destruct (join b l2) as [|c l] eqn:E; [done|]. cbn [join].
    apply Forall_inv in Haf. unfold hend, bend in *. cbn [fst snd] in *. by rewrite (proj2 (Z.eqb_neq _ _)) by lia.
  - eexists. split; [done|]. apply Forall_app. split; [done|]. apply join_Forall; [done..|]. intros c Hc _. cbn [snd]. lia.
Qed.

Lemma merged_covers x : covers (merged b l1 p l2) x <-> covers L x \/ b.1 <= x < bend b.
Proof.
  pose proof join_b_range as Hr. destruct P as [Es Hlow Hbef Ha Hr2 Hp Hhd]. unfold merged. rewrite Es, !covers_app, covers_cons.
  rewrite join_covers; [|lia|eapply Forall_impl; [exact Hr|]; intros c (_ & Hc & _); lia].
  rewrite join_covers; [tauto|unfold in_range in Hb; lia|eapply Forall_impl; [exact Hr2|]; intros c (_ & Hc & _); lia].
Qed.
End place.

(** ** free *)

(** only bytes of the blocks of [l] have changed *)
Record changes (l : list block) (h h' : heap) : Prop := {
  ch_mem x : ~ holds l x -> ldb (um_mem h') x = ldb (um_mem h) x;
  ch_brk : um_brk h' = um_brk h;
  ch_calls : um_calls h' = um_calls h
}.

Lemma hdr_holds b l x : b ∈ l -> ~ holds l x -> x < b.1 \/ b.1 + SIZEOF_HEADER <= x.
Proof.
  intros Hb Hn. destruct (decide (b.1 <= x < b.1 + 16)) as [H|H]; [|unfold SIZEOF_HEADER; lia].
  exfalso. apply Hn. exists b. split; [done|]. unfold hend. lia.
Qed.

(** blocks disjoint from what changed keep their bytes, and their header *)
Lemma changes_disj l h h' c : changes l h h' -> (forall b, b ∈ l -> disj b c) -> 1 <= c.2 ->
  (forall x, c.1 <= x < bend c -> ldb (um_mem h') x = ldb (um_mem h) x) /\ s_size h' c.1 = s_size h c.1.
Proof.
  intros H Hd Hc. assert (forall x, c.1 <= x < bend c -> ldb (um_mem h') x = ldb (um_mem h) x) as Hm.
  { intros x Hx. apply (ch_mem _ _ _ H). intros (b & Hb & Hbx). specialize (Hd b Hb). unfold disj, hend, bend in *. lia. }
  split; [done|]. apply ld32_ext. intros x Hx. apply Hm. unfold bend. lia.
Qed.

Lemma wf_keeps h L al x : wf h L al -> (exists c, c ∈ al /\ c.1 <= x < bend c) -> ~ holds L x /\ x < um_brk h.
Proof.
  intros W (c & Hc & Hx). destruct (Forall_in _ _ c (wf_al _ _ _ W) Hc) as [H1 _].
  destruct (Forall_in _ _ c (wf_bound _ _ _ W)) as [_ H2]; [set_solver|]. split; [|unfold hend, bend in *; lia].
  intros (b & Hb & Hbx). destruct (wf_disj _ _ _ W b c Hb Hc) as [D|D]; unfold hend, bend in *; lia.
Qed.

Lemma disj_sym b c : disj b c -> disj c b.
Proof. unfold disj. tauto. Qed.

Lemma disj_perm (l l' : list block) : l ≡ₚ l' -> ForallOrdPairs disj l -> ForallOrdPairs disj l'.
Proof.
  induction 1 as [|b l l' Hp IH|b c l|l1 l2 l3 _ IH1 _ IH2]; intros D; [done|..|auto].
  - inversion D; subst. constructor; [by rewrite <-Hp|auto].
  - inversion D as [|? ? D1 D2]; subst. inversion D2 as [|? ? D3 D4]; subst. apply Forall_cons in D1 as [D1 D1'].
    constructor; [|by constructor]. constructor; [by apply disj_sym|done].
Qed.

Lemma ordpairs_in (l : list block) b c : ForallOrdPairs disj l -> b ∈ l -> c ∈ l -> c <> b -> disj b c.
Proof.
  induction 1 as [|d l Hd _ IH]; [set_solver|]. rewrite Forall_forall in Hd.
  intros [->|Hb]%elem_of_cons [->|Hc]%elem_of_cons Hne; [done|by apply Hd|by apply disj_sym, Hd|by apply IH].
Qed.

Lemma wf_perm h L al al' : al ≡ₚ al' -> wf h L al -> wf h L al'.
Proof.
  intros Hp [W1 W2 W3 W4 W5 W6 W7 W8 W9 W10]. split; try done.
  - by rewrite <-Hp.
  - by eapply disj_perm.
  - intros b c Hb Hc. apply W8; [done|]. by rewrite Hp.
  - by rewrite <-Hp.
Qed.

(** the program writes to a block it has *)
Definition um_store (x v : Z) : heap -> heap := um_upd (fun m => stb m x v).

Lemma wf_store h L al b x v : wf h L al -> b ∈ al -> b.1 + 16 <= x < bend b -> wf (um_store x v h) L al.
Proof.
  intros W Hb Hx. assert (forall y, y <> x -> ldb (um_mem (um_store x v h)) y = ldb (um_mem h) y) as Hm.
  { intros y Hy. by apply ldb_stb_ne. }
  destruct (wf_keeps h L al x W) as [Hn _]; [exists b; split; [done|lia]|].
  split; try apply W.
  - eapply ring_ext; [|apply W]. intros c y Hc Hy. apply Hm. destruct (hdr_holds c L x Hc Hn); unfold SIZEOF_HEADER in *; lia.
  - apply Forall_forall. intros c Hc. destruct (Forall_in _ _ c (wf_al _ _ _ W) Hc) as [C1 C2]. split; [done|]. rewrite <-C2.
    apply ld32_ext. intros y Hy. apply Hm. destruct (decide (c = b)) as [->|Hne]; [lia|].
    assert (disj b c) as D by (by eapply (ordpairs_in al); [apply W|..]). unfold disj, hend, bend in *. lia.
Qed.

Lemma disj_away b c : disj b c -> away c.1 b.
Proof. unfold disj, away, hend. lia. Qed.

Lemma free_ring h L al b l1 p l2 : wf h L (b :: al) -> place b L l1 p l2 ->
  let h' := free_lower b.1 p.1 (free_upper b.1 p.1 h) in
  ring h' (merged b l1 p l2) base /\ changes (b :: L) h h'.
Proof.
  intros W P h'. destruct (wf_block _ _ _ b W) as [Hb Hbase]; [set_solver|]. pose proof (wf_base _ _ _ W) as H0.
  pose proof (join_b_range b L l1 p l2 P Hb) as Hjr. pose proof (join_b_after b L l1 p l2 P) as Hja.
  assert (Forall (away b.1) L) as Haw.
  { apply Forall_forall. intros c Hc. apply disj_away, (wf_disj _ _ _ W); set_solver. }
  pose proof (wf_ring _ _ _ W) as Hr. destruct P as [Es Hlow Hbef Ha Hr2 Hp Hhd]. rewrite Es in Hr, Haw.
  apply Forall_app in Haw as [Aw1 Aw]. apply Forall_cons in Aw as [Awp Aw2]. apply ring_app in Hr as [R1 (Sp & Pp & R2)]. cbn [hd_addr] in R1.
  assert (s_size h b.1 = b.2) as Sb by (apply (Forall_in _ _ b (wf_al _ _ _ W)); set_solver).
  destruct (free_upper_ring h b p.1 l2 base Pp Sb R2 Awp Aw2) as [RA OA]; [lia|done..|]. set (hA := free_upper b.1 p.1 h) in *.
  assert (s_size hA p.1 = p.2) as SpA by (by rewrite (only_size _ _ _ _ OA)).
  pose proof (join_hd b l2 base) as Ehd. destruct (join b l2) as [|b' l'] eqn:Ej; [by destruct l2 as [|c l2]; cbn [join] in Ej; [|destruct (bend b =? c.1)]|].
  cbn [hd_addr] in Ehd. unfold h'. rewrite <-Ehd.
  destruct (free_lower_ring hA p b' l' base SpA RA) as [RB OB]; [|unfold in_range, bend in *; lia|lia|lia| |done|].
  - eapply Forall_impl; [exact Hja|]. intros c Hc. right. unfold hend in Hc. lia.
  - apply Forall_inv in Hja. unfold hend, bend in *. lia.
  - split; [|split].
    + unfold merged. rewrite Ej. apply ring_app. rewrite join_hd. split; [|done].
      assert (ring hA l1 p.1) as R1A by (eapply ring_only; [exact OA|done..]). eapply ring_only; [exact OB| |exact R1A].
      apply Forall_forall. intros c Hc. apply Hbef in Hc as [Hc _]. left. unfold hend in Hc. lia.
    + intros x Hx. rewrite (oh_mem _ _ _ OB), (oh_mem _ _ _ OA); [done|apply (hdr_holds b (b :: L)); set_solver|].
      apply (hdr_holds p (b :: L)); [rewrite Es; set_solver|done].
    + rewrite (oh_brk _ _ _ OB). apply OA.
    + rewrite (oh_calls _ _ _ OB). apply OA.
Qed.

Lemma length_join b l : (length (join b l) <= S (length l))%nat.
Proof. destruct l as [|c l]; cbn [join length]; [lia|]. destruct (bend b =? c.1); cbn [length]; lia. Qed.

(** the block is part of a free one now *)
Lemma join_contains b l : Forall (fun c : block => 0 <= c.2) l -> exists c, c ∈ join b l /\ c.1 = b.1 /\ bend b <= bend c.
Proof.
  intros Hl. destruct l as [|c l]; cbn [join]; [exists b; split_and!; [set_solver|done..]|]. apply Forall_inv in Hl.
  destruct (bend b =? c.1); eexists; (split; [by left|]); [|done]. unfold bend. cbn [fst snd]. lia.
Qed.

Lemma merged_contains b l1 p l2 : in_range b -> place b (l1 ++ p :: l2) l1 p l2 -> exists c, c ∈ merged b l1 p l2 /\ b.2 <= c.2.
Proof.
  intros Hb P. pose proof (join_b_range b _ l1 p l2 P Hb) as Hr. destruct P as [_ Hlow _ _ Hr2 Hp _].
  destruct (join_contains b l2) as (c & Hc & E & Hle).
  { eapply Forall_impl; [exact Hr2|]. intros c (_ & Hc & _). lia. }
  unfold merged. destruct (join b l2) as [|d l]; [set_solver|]. cbn [join]. apply Forall_inv in Hr. unfold in_range, bend in *.
  destruct (p.1 + 16 * p.2 =? d.1); [|exists c; split; [set_solver|lia]].
  apply elem_of_cons in Hc as [->|Hc]; [|exists c; split; [set_solver|lia]].
  exists (p.1, p.2 + d.2). split; [set_solver|]. cbn [snd]. lia.
Qed.

Lemma free_run h L al b f : wf h L (b :: al) -> (2 * length L < f)%nat ->
  exists h' L', free f (b.1 + 16) h = Some h' /\ wf h' L' al /\ changes (b :: L) h h' /\
    (forall x, covers L' x <-> covers L x \/ b.1 <= x < bend b) /\ (length L' <= S (length L))%nat /\
    exists c, c ∈ L' /\ b.2 <= c.2.
Proof.
  intros W Hf. destruct (wf_block _ _ _ b W) as [Hb Hbase]; [set_solver|].
  destruct (wf_place h L al b W) as (l1 & p & l2 & P & Hfind). pose proof (pl_split _ _ _ _ _ P) as Es.
  destruct (free_ring h L al b l1 p l2 W P) as [R C]. destruct (wf_freep _ _ _ W) as (q & Hq & Eq).
  set (h1 := free_lower b.1 p.1 (free_upper b.1 p.1 h)) in *. exists (set_freep p.1 h1), (merged b l1 p l2). split_and!.
  - unfold free. replace (padd (b.1 + 16) (-1)) with b.1 by (rewrite padd_small; unfold in_range, bend in *; lia).
    by rewrite <-Eq, (Hfind f q Hq Hf).
  - pose proof (wf_al _ _ _ W) as Hal. apply Forall_cons in Hal as [Hal1 Hal].
    assert (forall c, c ∈ al -> disj b c) as Hbc.
    { intros c Hc. pose proof (wf_al_disj _ _ _ W) as D. inversion D as [|? ? D1 _]; subst. by apply (Forall_in _ _ c D1). }
    split.
    + apply W.
    + by apply (merged_head b L).
    + by eapply ring_mem; [|exact R].
    + apply (merged_sorted b L); [done..|apply W].
    + pose proof (join_hd p (join b l2) 0) as E. unfold merged. destruct (join p (join b l2)) as [|c l]; [cbn in E; destruct P; lia|].
      exists c. split; [set_solver|exact E].
    + apply Forall_forall. intros c Hc. destruct (Forall_in _ _ c Hal Hc) as [H1 H2]. split; [done|].
      destruct (changes_disj _ h h1 c C) as [_ Hsz]; [|done|by rewrite <-H2].
      intros d [->|Hd]%elem_of_cons; [by apply Hbc|]. apply (wf_disj _ _ _ W); set_solver.
    + pose proof (wf_al_disj _ _ _ W) as D. by inversion D.
    + intros c d Hc Hd. refine (Forall_in _ _ c (merged_disj d b l1 p l2 _ _) Hc).
      * apply (Forall_in _ _ d Hal Hd).
      * apply Forall_cons. split; [split; [unfold in_range in Hb; lia|by apply Hbc]|]. rewrite <-Es. apply Forall_forall. intros y Hy.
        split; [|apply (wf_disj _ _ _ W); set_solver]. destruct (wf_free_block h L (b :: al) y W Hy) as [->|Hr]; [done|]. unfold in_range in Hr. lia.
    + pose proof (wf_bound _ _ _ W) as B. change (um_brk (set_freep p.1 h1)) with (um_brk h1). rewrite (ch_brk _ _ _ C).
      apply Forall_app in B as [B1 B2]. apply Forall_cons in B2 as [B2 B3]. apply Forall_app. split; [|done].
      apply merged_Forall; [apply Forall_cons; by rewrite <-Es|]. intros c d [C1 C2] [D1 D2] E. unfold hend, bend in *. cbn [fst snd]. lia.
    + change (um_brk h1 <= 2 ^ 36). rewrite (ch_brk _ _ _ C). apply W.
  - destruct C. by split.
  - intros x. by apply (merged_covers b L).
  - unfold merged. rewrite Es, !length_app. pose proof (length_join p (join b l2)). pose proof (length_join b l2). cbn [length]. lia.
  - apply merged_contains; [done|by rewrite <-Es].
Qed.

(** ** malloc: the search *)

Fixpoint last_addr (l : list block) (z : Z) : Z := match l with [] => z | b :: l' => last_addr l' b.1 end.

Lemma last_addr_snoc l b z : last_addr (l ++ [b]) z = b.1.
Proof. revert z. induction l as [|c l IH]; intros z; [done|]. apply IH. Qed.

Context (grow : nat -> Z -> Z -> bool).

Lemma malloc_walk h n l : forall prev z f, ring h l z -> Forall (fun b => b.2 < n /\ b.1 <> um_freep h) l ->
  malloc_loop grow (length l + f) n prev (hd_addr l z) h = malloc_loop grow f n (last_addr l prev) z h.
Proof.
  induction l as [|b l IH]; intros prev z f; [done|]. intros (E1 & E2 & Hr) Hl. apply Forall_cons in Hl as [[Hb1 Hb2] Hl].
  cbn [length Nat.add malloc_loop hd_addr last_addr]. rewrite E1, E2, (proj2 (Z.leb_gt _ _) Hb1), (proj2 (Z.eqb_neq _ _) Hb2). by apply IH.
Qed.

(** the block before [t], in the order of the search from [q] on *)
Lemma search_prev m1 q m2 a t c fl : m1 ++ q :: m2 = (base, 0) :: fl -> m2 ++ m1 ++ [q] = a ++ t :: c -> 1 <= t.2 ->
  exists l1 p l2, m1 ++ q :: m2 = l1 ++ p :: t :: l2 /\ p.1 = last_addr a q.1.
Proof.
  intros EL E Ht. apply app_eq_app in E as (l & [[-> E]|[-> E]]).
  - destruct l as [|t' l]; cbn [app] in E.
    + rewrite app_nil_r in *. destruct m1 as [|x m1]; cbn [app] in E, EL.
      * injection E as <- _. injection EL as -> _. cbn [snd] in Ht. lia.
      * injection E as <- _. injection EL as -> _. cbn [snd] in Ht. lia.
    + injection E as <- _. destruct a as [|p a _] using rev_ind; [by exists m1, q, l|].
      exists (m1 ++ q :: a), p, l. rewrite last_addr_snoc. split; [|done]. by rewrite <-!app_assoc.
  - assert (m1 ++ q :: m2 = (m1 ++ [q]) ++ m2) as EL' by (by rewrite <-app_assoc). rewrite E in EL'.
    destruct l as [|p l _] using rev_ind; cbn [app] in EL'.
    + rewrite EL in EL'. injection EL' as <- _. cbn [snd] in Ht. lia.
    + exists l, p, (c ++ m2). rewrite app_assoc, last_addr_snoc. split; [|done]. rewrite EL'. by rewrite <-!app_assoc.
Qed.

Lemma first_big n (l : list block) : Forall (fun b => b.2 < n) l \/ exists a t c, l = a ++ t :: c /\ Forall (fun b => b.2 < n) a /\ n <= t.2.
Proof.
  induction l as [|b l [IH|(a & t & c & -> & Ha & Ht)]]; [by left| |].
  - destruct (decide (b.2 < n)); [left; by constructor|right]. exists [], b, l. split_and!; [done..|lia].
  - right. destruct (decide (b.2 < n)); [exists (b :: a), t, c; split_and!; [done|by constructor|done]|].
    exists [], b, (a ++ t :: c). split_and!; [done..|lia].
Qed.

Lemma sorted_other m1 q m2 (b : block) : StronglySorted gap (m1 ++ q :: m2) -> b ∈ m2 ++ m1 -> b.1 <> q.1.
Proof.
  intros Hs Hb. apply sorted_app in Hs as (_ & Hs & H1). apply StronglySorted_inv in Hs as [_ Hg].
  apply elem_of_app in Hb as [Hb|Hb]; [destruct (Forall_in _ _ b Hg Hb) as [H _]|destruct (H1 b q Hb) as [H _]; [set_solver|]];
    unfold hend in H; lia.
Qed.

Lemma malloc_search h L al n f : wf h L al -> 1 <= n -> (length L < f)%nat ->
  (exists l1 p t l2, L = l1 ++ p :: t :: l2 /\ n <= t.2 /\
    malloc_loop grow f n (um_freep h) (s_ptr h (um_freep h)) h = Some (malloc_take n p.1 t.1 h)) \/
  (Forall (fun b => b.2 < n) L /\ exists f', (f <= f' + length L)%nat /\
    malloc_loop grow f n (um_freep h) (s_ptr h (um_freep h)) h =
      match morecore grow f' n h with
      | None => None
      | Some (p, h) => if p =? 0 then Some (0, h) else malloc_loop grow f' n p (s_ptr h p) h
      end).
Proof.
  intros W Hn Hf. destruct (wf_freep _ _ _ W) as (q & Hq & Eq). apply list_elem_of_split in Hq as (m1 & m2 & EL).
  destruct (wf_head _ _ _ W) as (fl & Ehd & _). pose proof (wf_sorted _ _ _ W) as Hs. rewrite EL in Hs.
  pose proof (wf_ring _ _ _ W) as Hr. rewrite EL in Hr. apply ring_app in Hr as [R1 (Sq & Pq & R2)]. cbn [hd_addr] in R1.
  assert (hd_addr m1 q.1 = base) as Hb by (rewrite EL in Ehd; by destruct m1; injection Ehd as -> _).
  assert (ring h (m2 ++ m1) q.1) as R by (apply ring_app; by rewrite Hb).
  assert (s_ptr h q.1 = hd_addr (m2 ++ m1) q.1) as Es by (by rewrite Pq, hd_addr_app, Hb).
  assert (length L = S (length (m2 ++ m1))) as El by (rewrite EL, !length_app; cbn [length]; lia).
  rewrite <-Eq, Es. destruct (first_big n ((m2 ++ m1) ++ [q])) as [Hsm|(a & t & c & E & Ha & Ht)].
  - right. apply Forall_app in Hsm as [Hsm Hq]. apply Forall_cons in Hq as [Hq _].
    split; [rewrite EL; apply Forall_app in Hsm as [? ?]; apply Forall_app; split; [done|by constructor]|].
    exists (f - S (length (m2 ++ m1)))%nat. split; [lia|].
    replace f with (length (m2 ++ m1) + S (f - S (length (m2 ++ m1))))%nat at 1 by lia. rewrite malloc_walk; [|done|].
    + cbn [malloc_loop]. by rewrite Sq, (proj2 (Z.leb_gt _ _) Hq), Eq, Z.eqb_refl.
    + apply Forall_forall. intros b Hbb. split; [by apply (Forall_in _ _ b Hsm)|]. rewrite <-Eq. by eapply sorted_other.
  - left. rewrite <-app_assoc in E. rewrite EL in Ehd. destruct (search_prev m1 q m2 a t c fl Ehd E ltac:(lia)) as (l1 & p & l2 & Esp & Ep).
    exists l1, p, t, l2. split; [by rewrite EL|]. split; [done|]. rewrite app_assoc in E.
    assert (ring h (a ++ t :: c) (s_ptr h q.1)) as Ra.
    { rewrite <-E. apply ring_app. split; [done|]. cbn [ring]. split_and!; [done..|]. done. }
    assert (exists k, m2 ++ m1 = a ++ k) as [k Ek].
    { apply app_eq_app in E as (l & [[-> _]|[-> E]]); [by eexists|]. destruct l as [|x l]; [exists []; by rewrite !app_nil_r|].
      exfalso. injection E as _ E. by destruct l. }
    apply ring_app in Ra as [Ra (St & _)]. cbn [hd_addr] in Ra.
    assert (hd_addr (m2 ++ m1) q.1 = hd_addr a t.1) as Ead.
    { destruct a as [|x a]; [|by rewrite Ek]. cbn [app] in E. destruct (m2 ++ m1) as [|y l]; injection E as -> _; done. }
    rewrite Ead. replace f with (length a + S (f - S (length a)))%nat.
    2: { assert (length a <= length (m2 ++ m1))%nat by (rewrite Ek, length_app; lia). lia. }
    rewrite malloc_walk; [|done|].
    + cbn [malloc_loop]. rewrite St, (proj2 (Z.leb_le _ _) Ht). by rewrite Ep.
    + apply Forall_forall. intros b Hbb. split; [by apply (Forall_in _ _ b Ha)|]. rewrite <-Eq. eapply sorted_other; [done|]. rewrite Ek. set_solver.
Qed.

(** ** malloc: taking units from a block *)

(** what is left of a block, and the block taken from its end *)
Definition remains (t : block) (n : Z) : list block := if t.2 =? n then [] else [(t.1, t.2 - n)].
Definition taken (t : block) (n : Z) : block := (t.1 + 16 * (t.2 - n), n).

Section take.
Context (h : heap) (l1 : list block) (p t : block) (l2 al : list block) (n : Z).
Local Abbreviation L := (l1 ++ p :: t :: l2).
Local Abbreviation L' := (l1 ++ p :: remains t n ++ l2).
Context (W : wf h L al) (Hn : 1 <= n <= t.2).

Lemma take_range : in_range t.
Proof.
  destruct (wf_free_block h L al t W) as [->|H]; [set_solver| |done]. cbn [snd] in Hn. lia.
Qed.

(** a block of the new ring is an old one or what remains *)
Lemma take_elem b : b ∈ L' -> b ∈ L /\ (b.1 <> t.1) \/ b = (t.1, t.2 - n) /\ 1 <= t.2 - n.
Proof.
  intros Hb. pose proof (wf_sorted _ _ _ W) as Hs. apply sorted_app in Hs as (_ & Hs & H1).
  apply StronglySorted_inv in Hs as [Hs Hp]. apply StronglySorted_inv in Hs as [_ Ht]. apply Forall_inv in Hp.
  apply elem_of_app in Hb as [Hb|[->|[Hb|Hb]%elem_of_app]%elem_of_cons].
  - left. split; [set_solver|]. destruct (H1 b t Hb) as [G _]; [set_solver|]. unfold hend in G. lia.
  - left. split; [set_solver|]. destruct Hp as [G _]. unfold hend in G. lia.
  - right. unfold remains in Hb. destruct (Z.eqb_spec t.2 n); [set_solver|]. apply list_elem_of_singleton in Hb as ->. split; [done|lia].
  - left. split; [set_solver|]. destruct (Forall_in _ _ b Ht Hb) as [G _]. unfold hend in G. lia.
Qed.

Lemma take_sorted : StronglySorted gap L'.
Proof.
  pose proof (wf_sorted _ _ _ W) as Hs. apply sorted_app in Hs as (S1 & Hs & H1).
  apply StronglySorted_inv in Hs as [Hs Hp]. apply StronglySorted_inv in Hs as [S2 Ht]. apply Forall_cons in Hp as [Hpt Hp].
  assert (forall x, gap x t -> Forall (gap x) (remains t n)) as Hx.
  { intros x Hx. unfold remains. destruct (t.2 =? n); [done|]. constructor; [|done]. exact Hx. }
  apply sorted_app_intro; [done|constructor|].
  - apply sorted_app_intro; [|done|].
    + unfold remains. destruct (t.2 =? n); repeat constructor.
    + intros b Hb. unfold remains in Hb. destruct (Z.eqb_spec t.2 n); [set_solver|]. apply list_elem_of_singleton in Hb as ->.
      eapply Forall_impl; [exact Ht|]. intros c Hc. unfold gap, hend, bend in *. cbn [fst snd]. lia.
  - apply Forall_app. split; [by apply Hx|done].
  - intros b Hb. constructor; [apply H1; set_solver|]. apply Forall_app. split; [apply Hx, H1; set_solver|].
    apply Forall_forall. intros c Hc. apply H1; set_solver.
Qed.

Lemma take_disj b : b ∈ L' -> disj b (taken t n).
Proof.
  intros Hb. pose proof (wf_sorted _ _ _ W) as Hs. apply take_elem in Hb as [[Hb Hne]|[-> Hk]].
  2: { left. unfold taken, hend. cbn [fst snd]. lia. }
  assert (gap b t \/ gap t b) as [[G _]|[G _]].
  { apply sorted_app in Hs as (_ & Hs & H1). apply StronglySorted_inv in Hs as [Hs Hp]. apply StronglySorted_inv in Hs as [_ Ht].
    apply elem_of_app in Hb as [Hb|[->|[->|Hb]%elem_of_cons]%elem_of_cons];
      [left; apply H1; set_solver|left; by apply Forall_inv in Hp|done|right; by apply (Forall_in _ _ b Ht)]. }
  - left. unfold taken, hend in *. cbn [fst snd]. lia.
  - right. unfold taken, hend in *. cbn [fst snd]. lia.
Qed.

Lemma take_head : exists fl, L' = (base, 0) :: fl /\ Forall (fun b : block => 1 <= b.2) fl.
Proof.
  destruct (wf_head _ _ _ W) as (fl & E & Hfl).
  assert (Forall (fun b : block => 1 <= b.2) (remains t n)) as Hr.
  { unfold remains. destruct (Z.eqb_spec t.2 n); [done|]. constructor; [cbn [snd]; lia|done]. }
  destruct l1 as [|x l]; cbn [app] in E |- *; injection E as -> <-; eexists; (split; [reflexivity|]).
  - apply Forall_app. split; [done|]. by apply Forall_inv_tail in Hfl.
  - apply Forall_app in Hfl as [H1 H2]. apply Forall_cons in H2 as [Hp H2]. apply Forall_app. split; [done|]. constructor; [done|].
    apply Forall_app. split; [done|]. by apply Forall_inv_tail in H2.
Qed.

Lemma take_covers x : covers L x <-> covers L' x \/ (taken t n).1 <= x < bend (taken t n).
Proof.
  assert (covers [t] x <-> covers (remains t n) x \/ (taken t n).1 <= x < bend (taken t n)) as Ht.
  { unfold taken, remains, bend. cbn [fst snd]. destruct (Z.eqb_spec t.2 n) as [E|E].
    - unfold covers, bend. split; [intros (b & ->%list_elem_of_singleton & Hb); right; lia|].
      intros [(b & Hb & _)|Hx]; [by apply not_elem_of_nil in Hb|]. exists t. split; [by apply list_elem_of_singleton|lia].
    - unfold covers, bend. setoid_rewrite list_elem_of_singleton. split.
      + intros (b & -> & Hb). destruct (decide (x < t.1 + 16 * (t.2 - n))); [left|right; lia]. eexists. split; [done|]. cbn [fst snd]. lia.
      + intros [(b & -> & Hb)|Hx]; exists t; (split; [done|]); cbn [fst snd] in *; lia. }
  change (p :: t :: l2) with ([p] ++ [t] ++ l2). change (p :: remains t n ++ l2) with ([p] ++ remains t n ++ l2).
  rewrite !covers_app, Ht. tauto.
Qed.

Lemma wf_take h' : ring h' L' base -> changes L h h' -> um_freep h' = p.1 -> s_size h' (taken t n).1 = n ->
  wf h' L' (taken t n :: al).
Proof.
  intros R C Ef Es. pose proof take_range as Ht. split.
  - apply W.
  - apply take_head.
  - exact R.
  - apply take_sorted.
  - exists p. split; [set_solver|by rewrite Ef].
  - constructor; [cbn [taken snd]; split; [lia|exact Es]|]. apply Forall_forall. intros c Hc.
    destruct (Forall_in _ _ c (wf_al _ _ _ W) Hc) as [H1 H2]. split; [done|]. rewrite <-H2.
    eapply (changes_disj L); [exact C| |done]. intros b Hb. by apply (wf_disj _ _ _ W).
  - constructor; [|apply W]. apply Forall_forall. intros c Hc. destruct (wf_disj _ _ _ W t c) as [D|D]; [set_solver|done|..];
      unfold in_range, disj, taken, hend in *; cbn [fst snd]; lia.
  - intros b c Hb [->|Hc]%elem_of_cons; [by apply take_disj|]. apply take_elem in Hb as [[Hb _]|[-> Hk]]; [by apply (wf_disj _ _ _ W)|].
    destruct (wf_disj _ _ _ W t c) as [D|D]; [set_solver|done|..]; unfold disj, hend in *; cbn [fst snd]; lia.
  - rewrite (ch_brk _ _ _ C). pose proof (wf_bound _ _ _ W) as B. apply Forall_app in B as [B1 B2].
    assert (base <= t.1 /\ hend t <= um_brk h) as [T1 T2] by (apply (Forall_in _ _ t B1); set_solver).
    apply Forall_app. split; [|constructor; [unfold taken, hend in *; cbn [fst snd]; lia|done]].
    apply Forall_forall. intros b [[Hb _]|[-> Hk]]%take_elem; [by apply (Forall_in _ _ b B1)|]. unfold hend in *. cbn [fst snd]. lia.
  - rewrite (ch_brk _ _ _ C). apply W.
Qed.

(** taking all of the block, or its end *)
Lemma take_all : t.2 = n -> let h' := set_freep p.1 (set_ptr p.1 (s_ptr h t.1) h) in
  ring h' L' base /\ changes L h h' /\ s_size h' (taken t n).1 = n.
Proof.
  intros Etn h'. pose proof (wf_ring _ _ _ W) as Hr. apply ring_app in Hr as [R1 (Sp & _ & St & Pt & R2)].
  pose proof (wf_sorted _ _ _ W) as Hs. apply sorted_app in Hs as (_ & Hs & H1). apply StronglySorted_inv in Hs as [_ Hp].
  apply Forall_cons in Hp as [[Hpt _] Hp]. 
  assert (only_hdr p.1 h (set_ptr p.1 (hd_addr l2 base) h)) as O by apply only_set_ptr.
  unfold h', remains. rewrite Pt, (proj2 (Z.eqb_eq _ _) Etn). cbn [app]. split_and!.
  - apply (ring_mem (set_ptr p.1 (hd_addr l2 base) h)); [reflexivity|]. apply ring_app. split.
    + eapply ring_only; [exact O| |exact R1]. apply Forall_forall. intros b Hb. destruct (H1 b p Hb) as [G _]; [set_solver|].
      left. unfold hend in G. lia.
    + apply ring_link; [done..| |apply (wf_hd_range h L al); [done|set_solver]].
      eapply Forall_impl; [exact Hp|]. intros c [G _]. right. unfold hend in G. lia.
  - split; [|done..]. intros x Hx. apply (oh_mem _ _ _ O). apply (hdr_holds p L); [set_solver|done].
  - cbn [taken fst]. rewrite Etn, Z.sub_diag, Z.mul_0_r, Z.add_0_r. change (s_size (set_ptr p.1 (hd_addr l2 base) h) t.1 = n).
    rewrite (only_size _ _ _ _ O); [by rewrite St|]. right. unfold hend in Hpt. lia.
Qed.

Lemma take_end : t.2 <> n -> let h1 := set_size t.1 (u32 (t.2 - n)) h in let q := (taken t n).1 in
  let h' := set_freep p.1 (set_size q n h1) in
  s_size h1 t.1 = t.2 - n /\ ring h' L' base /\ changes L h h' /\ s_size h' q = n.
Proof.
  intros Etn h1 q h'. pose proof (wf_ring _ _ _ W) as Hr. apply ring_app in Hr as [R1 (Sp & Pp & St & Pt & R2)].
  pose proof (wf_sorted _ _ _ W) as Hs. apply sorted_app in Hs as (_ & Hs & H1). apply StronglySorted_inv in Hs as [Hs Hp].
  apply Forall_cons in Hp as [[Hpt _] Hp]. apply StronglySorted_inv in Hs as [_ Ht2]. pose proof take_range as Ht.
  assert (0 <= t.2 - n < 2 ^ 32) as Hk by (unfold in_range, bend in Ht; lia).
  assert (s_size h1 t.1 = t.2 - n) as S1 by (unfold h1; rewrite u32_small by done; by apply s_size_set_size).
  assert (only_hdr t.1 h h1) as O1 by apply only_set_size. assert (only_hdr q h1 (set_size q n h1)) as O2 by apply only_set_size.
  assert (t.1 + 16 <= q /\ q + 16 <= bend t) as Hq by (unfold q, taken, bend; cbn [fst]; lia).
  assert (forall l z, Forall (fun b : block => b.1 + 16 <= t.1 \/ bend t <= b.1) l -> ring h l z -> ring h' l z) as Hring.
  { intros l z Hl Hr. apply (ring_mem (set_size q n h1)); [reflexivity|].
    eapply ring_only; [exact O2| |eapply ring_only; [exact O1| |exact Hr]]; eapply Forall_impl; try exact Hl; intros b Hb; cbn beta in Hb;
      unfold bend in *; lia. }
  split_and!; [done| | |by apply s_size_set_size; unfold in_range, bend in Ht; lia].
  - unfold remains. rewrite (proj2 (Z.eqb_neq _ _) Etn). change (l1 ++ p :: [(t.1, t.2 - n)] ++ l2) with (l1 ++ [p] ++ [(t.1, t.2 - n)] ++ l2).
    rewrite app_assoc. apply ring_app. split; [|cbn [app ring fst snd]; split_and!].
    + apply Hring; [|apply ring_app; done]. apply Forall_forall. intros b Hb. left. apply elem_of_app in Hb as [Hb| ->%list_elem_of_singleton].
      * destruct (H1 b t Hb) as [G _]; [set_solver|]. unfold hend in G. lia.
      * unfold hend in Hpt. lia.
    + change (s_size (set_size q n h1) t.1 = t.2 - n). by rewrite (only_size _ _ _ _ O2) by lia.
    + change (s_ptr (set_size q n h1) t.1 = hd_addr l2 base). rewrite (only_ptr _ _ _ _ O2) by lia. unfold h1. by rewrite s_ptr_set_size.
    + apply Hring; [|done]. eapply Forall_impl; [exact Ht2|]. intros b [G _]. right. unfold hend, bend in *. unfold in_range in Ht. lia.
  - split; [|done..]. intros x Hx. assert (x < t.1 \/ bend t <= x) as Hxt.
    { destruct (decide (t.1 <= x < bend t)); [|lia]. exfalso. apply Hx. exists t. split; [set_solver|]. unfold hend, bend in *. unfold in_range in Ht. lia. }
    transitivity (ldb (um_mem h1) x); [apply (oh_mem _ _ _ O2)|apply (oh_mem _ _ _ O1)]; unfold SIZEOF_HEADER, bend in *; lia.
Qed.

Lemma malloc_take_run : exists h', malloc_take n p.1 t.1 h = ((taken t n).1 + 16, h') /\ wf h' L' (taken t n :: al) /\ changes L h h'.
Proof.
  pose proof (wf_ring _ _ _ W) as Hr. apply ring_app in Hr as [_ (_ & _ & St & _)]. pose proof take_range as Ht.
  unfold malloc_take. rewrite St. destruct (Z.eqb_spec t.2 n) as [E|E].
  - destruct (take_all E) as (R & C & S). eexists. split; [|split; [|exact C]].
    + f_equal. rewrite padd_small by (unfold in_range, bend in Ht; lia). cbn [taken fst]. lia.
    + by apply wf_take.
  - destruct (take_end E) as (S1 & R & C & S). cbv zeta. rewrite S1.
    rewrite (padd_small t.1) by (unfold in_range, bend in Ht; lia). eexists. split; [|split; [|exact C]].
    + f_equal. rewrite padd_small by (unfold in_range, bend in Ht; lia). cbn [taken fst]. lia.
    + by apply wf_take.
Qed.
End take.

(** ** morecore *)

(** the size of a process stays below 2^36 bytes *)
Context (Hgrow : forall k sz n, grow k sz n = true -> sz + n <= 2 ^ 36).

Lemma wf_fresh h L al m : wf h L al -> 1 <= m -> um_brk h + 16 * m <= 2 ^ 36 ->
  wf (set_size (um_brk h) m (mkheap (um_mem h) (um_freep h) (um_brk h + 16 * m) (S (um_calls h)))) L ((um_brk h, m) :: al).
Proof.
  intros W Hm Hk. set (h1 := mkheap (um_mem h) (um_freep h) (um_brk h + 16 * m) (S (um_calls h))).
  assert (only_hdr (um_brk h) h1 (set_size (um_brk h) m h1)) as O by apply only_set_size.
  pose proof (wf_bound _ _ _ W) as B. pose proof (wf_base _ _ _ W) as H0.
  assert (forall b, b ∈ L ++ al -> hend b <= um_brk h) as Hb by (intros b Hb; apply (Forall_in _ _ b B Hb)).
  assert (base < um_brk h) as Hbase.
  { destruct (wf_head _ _ _ W) as (fl & E & _). assert (hend (base, 0) <= um_brk h) as Hx by (apply Hb; rewrite E; set_solver).
    unfold hend in Hx. cbn [fst snd] in Hx. lia. }
  split; try apply W.
  - eapply ring_only; [exact O| |apply (ring_mem h); [done|apply W]]. apply Forall_forall. intros b HbL.
    assert (hend b <= um_brk h) as Hx by (apply Hb; set_solver). left. unfold hend in Hx. lia.
  - constructor; [cbn [fst snd]; split; [done|apply s_size_set_size; lia]|]. apply Forall_forall. intros c Hc.
    destruct (Forall_in _ _ c (wf_al _ _ _ W) Hc) as [C1 C2]. split; [done|]. rewrite <-C2.
    assert (hend c <= um_brk h) as Hx by (apply Hb; set_solver). rewrite (only_size _ _ _ _ O); [done|]. left. unfold hend in Hx. lia.
  - constructor; [|apply W]. apply Forall_forall. intros c Hc. right. apply Hb. set_solver.
  - intros b c HbL [->|Hc]%elem_of_cons; [|by apply (wf_disj _ _ _ W)]. left. apply Hb. set_solver.
  - cbn [um_brk set_size um_upd h1]. apply Forall_app in B as [B1 B2]. apply Forall_app. split; [|constructor].
    + eapply Forall_impl; [exact B1|]. intros b [? ?]. lia.
    + unfold hend. cbn [fst snd]. lia.
    + eapply Forall_impl; [exact B2|]. intros b [? ?]. lia.
  - exact Hk.
Qed.

Lemma morecore_run h L al n f : wf h L al -> 1 <= n -> 16 * Z.max 4096 n < 2 ^ 31 -> (2 * length L < f)%nat ->
  if grow (um_calls h) (um_brk h) (16 * Z.max 4096 n) then
    exists h' L', morecore grow f n h = Some (um_freep h', h') /\ um_freep h' <> 0 /\ wf h' L' al /\
      um_brk h' = um_brk h + 16 * Z.max 4096 n /\ (length L' <= S (length L))%nat /\ (exists c, c ∈ L' /\ n <= c.2) /\
      (forall x, covers L' x <-> covers L x \/ um_brk h <= x < um_brk h') /\
      forall x, x < um_brk h -> ~ holds L x -> ldb (um_mem h') x = ldb (um_mem h) x
  else morecore grow f n h = Some (0, mkheap (um_mem h) (um_freep h) (um_brk h) (S (um_calls h))).
Proof.
  intros W Hn Hm Hf. set (m := Z.max 4096 n) in *.
  assert (morecore grow f n h = let '(p, h) := sbrk grow (16 * m) h in
    if p =? SBRK_ERROR then Some (0, h) else match free f (padd p 1) (set_size p m h) with None => None | Some h => Some (um_freep h, h) end) as Em.
  { unfold morecore. replace (if n <? 4096 then 4096 else n) with m by (destruct (Z.ltb_spec n 4096); lia).
    replace (s32 (m * SIZEOF_HEADER)) with (16 * m); [done|]. unfold s32, signed, SIZEOF_HEADER. rewrite Z.mod_small by lia.
    rewrite (proj2 (Z.ltb_lt _ _)) by (change (2 ^ (32 - 1)) with (2 ^ 31); lia). lia. }
  rewrite Em. unfold sbrk. destruct (grow (um_calls h) (um_brk h) (16 * m)) eqn:G; [|done].
  apply Hgrow in G. pose proof (wf_brk _ _ _ W) as Hb. unfold SBRK_ERROR. rewrite (proj2 (Z.eqb_neq _ _)) by lia.
  assert (0 < um_brk h) as Hb0.
  { destruct (wf_head _ _ _ W) as (fl & E & _). destruct (Forall_in _ _ (base, 0) (wf_bound _ _ _ W)) as [_ H2]; [rewrite E; set_solver|].
    pose proof (wf_base _ _ _ W). unfold hend in H2. cbn [fst snd] in H2. lia. }
  rewrite padd_small by lia. pose proof (wf_fresh h L al m W ltac:(lia) G) as W1.
  destruct (free_run _ L al (um_brk h, m) f W1 Hf) as (h' & L' & E & W' & C & Hc & Hl & c & HcL & Hc2). cbn [fst snd] in E, Hc, Hc2.
  rewrite Z.mul_1_r. rewrite E. exists h', L'. split_and!; try done.
  - destruct (wf_freep _ _ _ W') as (q & Hq & <-). destruct (wf_free_block _ _ _ q W' Hq) as [->|Hr].
    + pose proof (wf_base _ _ _ W). cbn [fst]. lia.
    + unfold in_range in Hr. lia.
  - rewrite (ch_brk _ _ _ C). reflexivity.
  - exists c. split; [done|lia].
  - intros x. rewrite Hc. rewrite (ch_brk _ _ _ C). reflexivity.
  - intros x Hx Hh. rewrite (ch_mem _ _ _ C).
    + rewrite ldb_set_size by lia. reflexivity.
    + intros (b & [->|Hbl]%elem_of_cons & Hbx); [cbn [fst] in Hbx; lia|]. apply Hh. by exists b.
Qed.

(** ** malloc *)

(** the heap a program starts with, and the one it has later *)
Definition heap_ok (h : heap) (L al : list block) : Prop :=
  wf h L al \/ um_freep h = 0 /\ L = [(base, 0)] /\ al = [] /\ 0 < base /\ base + 16 <= um_brk h <= 2 ^ 36.

(** bytes of the blocks in use are as before *)
Definition keeps (al : list block) (h h' : heap) : Prop :=
  forall c x, c ∈ al -> c.1 <= x < bend c -> ldb (um_mem h') x = ldb (um_mem h) x.

Lemma wf_calls h L al k : wf h L al -> wf (mkheap (um_mem h) (um_freep h) (um_brk h) k) L al.
Proof. intros [W1 W2 W3 W4 W5 W6 W7 W8 W9 W10]. split; try done. by apply (ring_mem h). Qed.

Lemma malloc_init_run h L al : heap_ok h L al -> exists h1, malloc_init base h = h1 /\ wf h1 L al /\ keeps al h h1 /\
  um_brk h1 = um_brk h /\ um_calls h1 = um_calls h.
Proof.
  intros [W|(Ef & -> & -> & H0 & Hb)]; unfold malloc_init.
  - exists h. destruct (Z.eqb_spec (um_freep h) 0) as [E|_]; [|done]. exfalso.
    destruct (wf_freep _ _ _ W) as (q & Hq & Eq). pose proof (wf_base _ _ _ W). destruct (wf_free_block _ _ _ q W Hq) as [->|Hr]; [cbn [fst] in Eq; lia|].
    unfold in_range in Hr. lia.
  - rewrite Ef. change (0 =? 0) with true. eexists. split; [reflexivity|]. split; [|split; [intros c x Hc; set_solver|done]].
    split; try done.
    + by exists [].
    + cbn [ring fst snd hd_addr]. rewrite s_size_set_size, s_ptr_set_size by lia.
      split_and!; [done|change (s_ptr (set_ptr base base h) base = base); apply s_ptr_set_ptr; lia|done].
    + repeat constructor.
    + exists (base, 0). split; [set_solver|done].
    + constructor.
    + set_solver.
    + constructor; [|constructor]. unfold hend. cbn [fst snd]. change (um_brk _) with (um_brk h). lia.
    + apply Hb.
Qed.

(** what malloc returns: a block of its own *)
Record malloc_post (n : Z) (h : heap) (L al : list block) (r : Z) (h' : heap) (L' : list block) (a : Z) : Prop := {
  mp_ret : r = a + 16;
  mp_wf : wf h' L' ((a, n) :: al);
  mp_keeps : keeps al h h';
  mp_space x : (covers L' x \/ a <= x < a + 16 * n) <-> (covers L x \/ um_brk h <= x < um_brk h')
}.

Lemma malloc_take_post h L al n l1 p t l2 : wf h L al -> 1 <= n -> L = l1 ++ p :: t :: l2 -> n <= t.2 ->
  exists h' L' a, malloc_take n p.1 t.1 h = (a + 16, h') /\ malloc_post n h L al (a + 16) h' L' a /\ um_brk h' = um_brk h.
Proof.
  intros W Hn -> Ht. destruct (malloc_take_run h l1 p t l2 al n W) as (h' & E & W' & C); [lia|].
  exists h', (l1 ++ p :: remains t n ++ l2), (taken t n).1. split; [done|]. split; [|apply C]. split; [done|exact W'|..].
  - intros c x Hc Hx. apply (ch_mem _ _ _ C). apply (wf_keeps _ _ al x W). by exists c.
  - intros x. rewrite (take_covers l1 p t l2 n) by lia. rewrite (ch_brk _ _ _ C). split; [intros [H|H]; left; [by left|by right]|].
    intros [[H|H]|H]; [by left|by right|lia].
Qed.

Lemma malloc_run h L al nbytes f : heap_ok h L al -> 0 <= nbytes <= 2 ^ 31 - 32 -> (4 * length L < f)%nat ->
  let n := malloc_units nbytes in
  exists r h', malloc base grow f nbytes h = Some (r, h') /\
    ((exists L' a, malloc_post n h L al r h' L' a) \/
     r = 0 /\ wf h' L al /\ keeps al h h' /\ um_brk h' = um_brk h /\ Forall (fun b : block => b.2 < n) L /\
     grow (um_calls h) (um_brk h) (16 * Z.max 4096 n) = false).
Proof.
  intros Hok Hb Hf n. destruct (malloc_init_run h L al Hok) as (h1 & Ei & W & K & Eb & Ec).
  assert (1 <= n /\ 16 * Z.max 4096 n < 2 ^ 31) as [Hn Hm].
  { unfold n, malloc_units, SIZEOF_HEADER. rewrite u32_small by (Z.to_euclidean_division_equations; lia). Z.to_euclidean_division_equations; lia. }
  assert (forall r h' L' a, malloc_post n h1 L al r h' L' a -> malloc_post n h L al r h' L' a) as Hinit.
  { intros r h' L' a [M1 M2 M3 M4]. rewrite Eb in M4. split; try done. intros c x Hc Hx. rewrite (M3 c x Hc Hx). by apply (K c). }
  assert (0 < length L)%nat as HlL by (destruct (wf_head _ _ _ W) as (fl & -> & _); cbn [length]; lia).
  unfold malloc. rewrite Ei. fold n. destruct (malloc_search h1 L al n f W Hn) as [(l1 & p & t & l2 & EL & Ht & ->)|(Hsm & f' & Hf' & ->)]; [lia|..].
  - destruct (malloc_take_post h1 L al n l1 p t l2 W Hn EL Ht) as (h' & L' & a & -> & P & _). exists (a + 16), h'. split; [done|]. left. eauto.
  - pose proof (morecore_run h1 L al n f' W Hn Hm) as M. rewrite Eb, Ec in M.
    destruct (grow (um_calls h) (um_brk h) (16 * Z.max 4096 n)) eqn:G.
    + destruct M as (h2 & L2 & -> & Hnz & W2 & Eb2 & Hl2 & (c & HcL & Hc) & Hcov & Hmem); [lia|]. rewrite (proj2 (Z.eqb_neq _ _) Hnz).
      destruct (malloc_search h2 L2 al n f' W2 Hn) as [(l1 & p & t & l2 & EL & Ht & ->)|(Hsm2 & _)]; [lia| |].
      2: { exfalso. apply (Forall_in _ _ c Hsm2) in HcL. lia. }
      destruct (malloc_take_post h2 L2 al n l1 p t l2 W2 Hn EL Ht) as (h' & L' & a & -> & [P1 P2 P3 P4] & Eb3). exists (a + 16), h'. split; [done|].
      left. exists L', a. apply Hinit. split; try done.
      * intros x y Hx Hy. rewrite (P3 x y Hx Hy). destruct (wf_keeps h1 L al y W) as [N1 N2]; [by exists x|]. apply Hmem; [by rewrite <-Eb|done].
      * intros x. rewrite P4, Hcov, Eb3, Eb. split; [intros [H|H]; [done|lia]|by left].
    + rewrite M by lia. exists 0. eexists. split; [reflexivity|]. right. split_and!; try done. rewrite <-Eb. by apply wf_calls.
Qed.

(** * Programs *)

(** more fuel does not change a result *)
Lemma free_more f f' ap h h' : free f ap h = Some h' -> (f <= f')%nat -> free f' ap h = Some h'.
Proof.
  unfold free. intros E Hf. destruct (free_find f h (padd ap (-1)) (um_freep h)) as [p|] eqn:Ep; [|done].
  by rewrite (free_find_more _ _ _ _ _ _ Ep Hf).
Qed.

Lemma morecore_more f f' n h r : morecore grow f n h = Some r -> (f <= f')%nat -> morecore grow f' n h = Some r.
Proof.
  unfold morecore. intros E Hf. destruct (sbrk grow _ h) as [p h1]. destruct (p =? SBRK_ERROR); [done|].
  destruct (free f _ _) as [h2|] eqn:E2; [|done]. by rewrite (free_more _ _ _ _ _ E2 Hf).
Qed.

Lemma malloc_loop_more f n : forall f' prev p h r,
  malloc_loop grow f n prev p h = Some r -> (f <= f')%nat -> malloc_loop grow f' n prev p h = Some r.
Proof.
  induction f as [|f IH]; intros f' prev p h r E Hf; [done|]. destruct f' as [|f']; [lia|]. cbn [malloc_loop] in *.
  destruct (n <=? s_size h p); [done|]. destruct (p =? um_freep h); [|apply IH; [done|lia]].
  destruct (morecore grow f n h) as [[q h1]|] eqn:E1; [|done]. rewrite (morecore_more _ f' _ _ _ E1) by lia.
  destruct (q =? 0); [done|]. apply IH; [done|lia].
Qed.

(** mallocs, frees and writes to the blocks a program has *)
Inductive cstep : heap * list block -> heap * list block -> Prop :=
  | c_malloc f nbytes r h al h' :
      0 <= nbytes <= 2 ^ 31 - 32 -> malloc base grow f nbytes h = Some (r, h') -> r <> 0 ->
      cstep (h, al) (h', (r - 16, malloc_units nbytes) :: al)
  | c_malloc_null f nbytes h al h' :
      0 <= nbytes <= 2 ^ 31 - 32 -> malloc base grow f nbytes h = Some (0, h') -> cstep (h, al) (h', al)
  | c_free f b h al al' h' :
      al ≡ₚ b :: al' -> free f (b.1 + 16) h = Some h' -> cstep (h, al) (h', al')
  | c_store b x v h al :
      b ∈ al -> b.1 + 16 <= x < bend b -> cstep (h, al) (um_store x v h, al).

Lemma malloc_post_nonzero n h L al r h' L' a : malloc_post n h L al r h' L' a -> r <> 0.
Proof.
  intros [-> W _ _]. destruct (wf_block _ _ _ (a, n) W) as [Hr _]; [set_solver|]. unfold in_range in Hr. cbn [fst] in Hr. lia.
Qed.

Lemma malloc_more f f' nbytes h r : malloc base grow f nbytes h = Some r -> (f <= f')%nat -> malloc base grow f' nbytes h = Some r.
Proof. unfold malloc. apply malloc_loop_more. Qed.

Lemma heap_ok_step s s' : cstep s s' -> (exists L, heap_ok s.1 L s.2) -> exists L', heap_ok s'.1 L' s'.2.
Proof.
  intros Hst (L & Hok). destruct Hst as [f nbytes r h al h' Hn E Hr|f nbytes h al h' Hn E|f b h al al' h' Hp E|b x v h al Hb Hx]; cbn [fst snd] in *.
  - destruct (malloc_run h L al nbytes (f + S (4 * length L)) Hok Hn ltac:(lia)) as (r' & h2 & E' & [(L' & a & P)|(-> & _)]);
      rewrite (malloc_more _ _ _ _ _ E) in E' by lia; injection E' as E1 E2; subst; [|done].
    exists L'. left. destruct P as [-> W _ _]. by rewrite Z.add_simpl_r.
  - destruct (malloc_run h L al nbytes (f + S (4 * length L)) Hok Hn ltac:(lia)) as (r' & h2 & E' & [(L' & a & P)|(_ & W & _)]);
      rewrite (malloc_more _ _ _ _ _ E) in E' by lia; injection E' as E1 E2; subst; [by apply malloc_post_nonzero in P|].
    exists L. by left.
  - destruct Hok as [W|(_ & _ & -> & _)]; [|by apply Permutation_nil_cons in Hp]. apply (wf_perm _ _ _ _ Hp) in W.
    destruct (free_run h L al' b (f + S (2 * length L)) W ltac:(lia)) as (h2 & L' & E' & W' & _).
    rewrite (free_more _ _ _ _ _ E) in E' by lia. injection E' as <-. exists L'. by left.
  - destruct Hok as [W|(_ & _ & -> & _)]; [|by apply not_elem_of_nil in Hb]. exists L. left. by eapply wf_store.
Qed.
End heap.

(** * Theorems *)

(** C21: malloc of up to 2^31 - 32 bytes returns.  Either it returns a block of
    its own, with room for the bytes: the heap stays well formed with the
    block in use, the blocks in use keep their bytes, and the free space loses
    exactly the block, after growing by what sbrk added; or it returns 0, with
    no free block large enough and the kernel refusing more memory, and
    nothing has changed for the program. *)
Theorem malloc_correct base grow h L al nbytes f :
  (forall k sz n, grow k sz n = true -> sz + n <= 2 ^ 36) ->
  heap_ok base h L al -> 0 <= nbytes <= 2 ^ 31 - 32 -> (4 * length L < f)%nat ->
  let n := malloc_units nbytes in
  nbytes <= 16 * (n - 1) /\
  exists r h', malloc base grow f nbytes h = Some (r, h') /\
    ((exists L' a, malloc_post base n h L al r h' L' a) \/
     r = 0 /\ wf base h' L al /\ keeps al h h' /\ um_brk h' = um_brk h /\ Forall (fun b : block => b.2 < n) L /\
     grow (um_calls h) (um_brk h) (16 * Z.max 4096 n) = false).
Proof.
  intros Hg Hok Hn Hf n. split; [|by apply malloc_run]. unfold n, malloc_units, SIZEOF_HEADER.
  rewrite u32_small by (Z.to_euclidean_division_equations; lia). Z.to_euclidean_division_equations; lia.
Qed.

(** C22: free of a block in use returns and gives the block back: the heap
    stays well formed without it, with the free blocks in order and no two of
    them adjacent, the free space grows by exactly the block, and the blocks
    still in use keep their bytes. *)
Theorem free_correct base h L al b f :
  wf base h L (b :: al) -> (2 * length L < f)%nat ->
  exists h' L', free f (b.1 + 16) h = Some h' /\ wf base h' L' al /\ keeps al h h' /\ um_brk h' = um_brk h /\
    forall x, covers L' x <-> covers L x \/ b.1 <= x < bend b.
Proof.
  intros W Hf. destruct (free_run base h L al b f W Hf) as (h' & L' & E & W' & C & Hc & _). exists h', L'. split_and!; try done.
  - intros c x Hc' Hx. apply (ch_mem _ _ _ C). intros (d & [->|Hd]%elem_of_cons & Hdx).
    + pose proof (wf_al_disj _ _ _ _ W) as D. inversion D as [|? ? D1 _]; subst. pose proof (Forall_in _ _ c D1 Hc') as Hd.
      unfold disj, hend, bend in *. pose proof (wf_al _ _ _ _ W) as A. apply Forall_inv in A as [A _]. lia.
    + destruct (wf_keeps base h L (b :: al) x W) as [Hn _]; [exists c; split; [set_solver|done]|]. apply Hn. by exists d.
  - apply C.
Qed.

(** C20: whatever sequence of mallocs of at most 2^31 - 32 bytes each, frees of
    its own blocks and writes to its own blocks a program makes, its blocks are
    disjoint and inside its memory, and the next such malloc or free returns.
    The kernel lets the process grow to at most 2^36 bytes.  (The byte count of
    a larger size does not fit the int argument of sbrk.) *)
Theorem program_heap base grow h0 h al :
  (forall k sz n, grow k sz n = true -> sz + n <= 2 ^ 36) ->
  um_freep h0 = 0 -> 0 < base -> base + 16 <= um_brk h0 <= 2 ^ 36 -> rtc (cstep base grow) (h0, []) (h, al) ->
  ForallOrdPairs disj al /\ Forall (fun b => base + 16 <= b.1 /\ bend b <= um_brk h) al /\
  (forall nbytes, 0 <= nbytes <= 2 ^ 31 - 32 -> exists f r h', malloc base grow f nbytes h = Some (r, h')) /\
  (forall b, b ∈ al -> exists f h', free f (b.1 + 16) h = Some h').
Proof.
  intros Hg Hf Hb Hbrk Hst.
  assert (exists L, heap_ok base h L al) as (L & Hok).
  { change h with (h, al).1. change al with (h, al).2 at 2. assert (exists L, heap_ok base (h0, @nil block).1 L (h0, @nil block).2) as H0.
    { exists [(base, 0)]. by right. }
    revert H0. induction Hst as [s|s1 s2 s3 Hs _ IH]; [done|]. intros H0. apply IH. by eapply heap_ok_step. }
  split_and!.
  - destruct Hok as [W|(_ & _ & -> & _)]; [apply W|constructor].
  - destruct Hok as [W|(_ & _ & -> & _)]; [|done]. apply Forall_forall. intros b HbA.
    destruct (wf_block _ _ _ _ b W HbA) as [Hr Hlo]. split; [done|].
    destruct (Forall_in _ _ b (wf_bound _ _ _ _ W)) as [_ Hhi]; [set_solver|]. unfold hend, bend, in_range in *. lia.
  - intros nbytes Hn. destruct (malloc_run base grow Hg h L al nbytes (S (4 * length L)) Hok Hn ltac:(lia)) as (r & h' & E & _). eauto.
  - intros b HbA. destruct Hok as [W|(_ & _ & -> & _)]; [|by apply not_elem_of_nil in HbA].
    apply elem_of_Permutation in HbA as (al' & Hp). apply (wf_perm _ _ _ _ _ Hp) in W.
    destruct (free_run base h L al' b (S (2 * length L)) W ltac:(lia)) as (h' & L' & E & _). eauto.
Qed.


(** * Witnesses *)

Definition demo_heap : heap := mkheap ∅ 0 8192 0.
Definition demo_grow (k : nat) (sz n : Z) : bool := sz + n <=? 2 ^ 36.

Lemma demo_grow_ok k sz n : demo_grow k sz n = true -> sz + n <= 2 ^ 36.
Proof. apply Z.leb_le. Qed.

Lemma demo_heap_ok : heap_ok 4096 demo_heap [(4096, 0)] [].
Proof. right. split_and!; done. Qed.

Lemma malloc_correct_witness : exists r h', malloc 4096 demo_grow 10 100 demo_heap = Some (r, h').
Proof.
  destruct (malloc_correct 4096 demo_grow demo_heap [(4096, 0)] [] 100 10 demo_grow_ok demo_heap_ok) as (_ & r & h' & E & _).
  - split; discriminate.
  - cbn [length]. lia.
  - exists r, h'. exact E.
Defined.

Lemma free_correct_witness : exists h L b f h', wf 4096 h L [b] /\ free f (b.1 + 16) h = Some h'.
Proof.
  destruct (malloc_run 4096 demo_grow demo_grow_ok demo_heap [(4096, 0)] [] 100 10 demo_heap_ok) as
    (r & h & E & [(L & a & P)|(_ & _ & _ & _ & _ & G)]).
  - split; discriminate.
  - cbn [length]. lia.
  - destruct P as [_ W _ _].
    destruct (free_correct 4096 h L [] (a, malloc_units 100) (S (2 * length L)) W) as (h' & L' & E' & _); [lia|].
    exists h, L, (a, malloc_units 100), (S (2 * length L)), h'. split; [exact W|exact E'].
  - discriminate G.
Defined.

Lemma program_heap_witness : exists h al, rtc (cstep 4096 demo_grow) (demo_heap, []) (h, al) /\ ForallOrdPairs disj al.
Proof.
  destruct (malloc_run 4096 demo_grow demo_grow_ok demo_heap [(4096, 0)] [] 100 10 demo_heap_ok) as
    (r & h & E & [(L & a & P)|(_ & _ & _ & _ & _ & G)]).
  - split; discriminate.
  - cbn [length]. lia.
  - assert (rtc (cstep 4096 demo_grow) (demo_heap, []) (h, [(r - 16, malloc_units 100)])) as Hst.
    { apply rtc_once. apply (c_malloc 4096 demo_grow 10 100 r demo_heap [] h); [split; discriminate|exact E|].
      by eapply malloc_post_nonzero; [exact demo_grow_ok|exact P]. }
    exists h, [(r - 16, malloc_units 100)]. split; [exact Hst|].
    apply (program_heap 4096 demo_grow demo_heap h _ demo_grow_ok); [reflexivity|reflexivity|split; discriminate|exact Hst].
  - discriminate G.
Defined.

