(* ===== verification/UserPrintf.v ===== *)
(** User programs over system calls, and user/printf.c.

    A program runs in the monad [U]: it returns, exits with a status, or is
    stuck (an access out of bounds).  What the kernel answers is a parameter:
    [files] are the files that open succeeds on, with their bytes and what fstat
    answers; [avail i] says what the [i]-th read finds: [None] an error, [Some a]
    at most [a + 1] bytes; [room i] says how much the [i]-th write takes;
    [answer i] is the result of the [i]-th call of unlink, mkdir, link or kill;
    [fresh] chooses the descriptor of a new file. *)

From stdpp Require Import base gmap strings pretty numbers list.
From S2P Require Import Prelude KState KString.

(** * System calls *)

(** struct stat of kernel/stat.h: the fields the programs print *)
Record ustat := mkustat { u_type : Z; u_ino : Z; u_size : Z }.

(** an open file: the bytes it still delivers, what fstat answers *)
Record ofile := mkofile { o_data : list Z; o_stat : option ustat }.

Inductive call := CUnlink (path : list Z) | CMkdir (path : list Z) | CLink (old new : list Z) | CKill (pid : Z).

Record world := mkworld {
  w_in : gmap Z ofile;      (* the open descriptors *)
  w_reads : nat;            (* calls so far *)
  w_writes : nat;
  w_calls : list call;      (* the calls that change the system *)
  w_out : list (Z * Z)      (* the bytes written, each with its descriptor *)
}.

Record kernel_env := mkenv {
  files : list Z -> option ofile;
  avail : nat -> option nat;
  room : nat -> option nat;
  answer : nat -> Z;
  fresh : gmap Z ofile -> Z
}.

Inductive outcome (A : Type) := Returns (a : A) | Exits (status : Z) | Stuck.
Arguments Returns {A} a.
Arguments Exits {A} status.
Arguments Stuck {A}.

Definition U (A : Type) : Type := world -> outcome A * world.
Definition uret {A} (a : A) : U A := fun w => (Returns a, w).
Definition ubind {A B} (m : U A) (f : A -> U B) : U B := fun w =>
  match m w with
  | (Returns a, w') => f a w'
  | (Exits n, w') => (Exits n, w')
  | (Stuck, w') => (Stuck, w')
  end.
Definition uexit {A} (status : Z) : U A := fun w => (Exits status, w).
Definition ustuck {A} : U A := fun w => (Stuck, w).

Declare Scope user_scope.
Delimit Scope user_scope with user.
Notation "'let?' x ':=' m 'in' k" := (ubind m (fun x => k)) (at level 10, x name, m at level 99, k at level 200) : user_scope.
Notation "m ;;; k" := (ubind m (fun _ => k)) (at level 60, right associativity) : user_scope.
Open Scope user_scope.

Fixpoint uforM {A} (l : list A) (body : A -> U unit) : U unit :=
  match l with [] => uret tt | x :: l' => body x ;;; uforM l' body end.

(** [while]: as [whileM] *)
Fixpoint uwhile {I R} (fuel : nat) (body : I -> U (I + R)) (i : I) : U R :=
  match fuel with
  | O => ustuck
  | S fuel' => let? r := body i in match r with inl i' => uwhile fuel' body i' | inr x => uret x end
  end.

Section printf.
Context (env : kernel_env).

(** the bytes read, [None] for an error *)
Definition u_read (fd n : Z) : U (option (list Z)) := fun w =>
  let w1 d := mkworld d (S (w_reads w)) (w_writes w) (w_calls w) (w_out w) in
  match w_in w !! fd, avail env (w_reads w) with
  | Some f, Some a =>
      let k := (S a `min` Z.to_nat n)%nat in
      (Returns (Some (take k (o_data f))), w1 (<[fd := mkofile (drop k (o_data f)) (o_stat f)]> (w_in w)))
  | _, _ => (Returns None, w1 (w_in w))
  end.

Definition u_write (fd : Z) (bytes : list Z) : U Z := fun w =>
  let w1 o := mkworld (w_in w) (w_reads w) (S (w_writes w)) (w_calls w) (w_out w ++ o) in
  match room env (w_writes w) with
  | Some a => (Returns (Z.of_nat (a `min` length bytes)), w1 (map (fun c => (fd, c)) (take a bytes)))
  | None => (Returns (-1), w1 [])
  end.

Definition set_in (d : gmap Z ofile) (w : world) : world := mkworld d (w_reads w) (w_writes w) (w_calls w) (w_out w).

Definition u_open (path : list Z) : U Z := fun w =>
  match files env path with
  | Some f => let fd := fresh env (w_in w) in (Returns fd, set_in (<[fd := f]> (w_in w)) w)
  | None => (Returns (-1), w)
  end.

Definition u_close (fd : Z) : U Z := fun w =>
  (Returns (if decide (is_Some (w_in w !! fd)) then 0 else -1), set_in (delete fd (w_in w)) w).

(** [None]: the result is negative *)
Definition u_fstat (fd : Z) : U (option ustat) := fun w => (Returns (w_in w !! fd ≫= o_stat), w).

(** unlink, mkdir, link and kill *)
Definition u_call (c : call) : U Z := fun w =>
  (Returns (answer env (length (w_calls w))), mkworld (w_in w) (w_reads w) (w_writes w) (w_calls w ++ [c]) (w_out w)).

(** * user/printf.c *)

Definition digits : list Z := bytes_of_string "0123456789ABCDEF".

Definition putc (fd c : Z) : U unit := u_write fd [u8 c] ;;; uret tt.

(** the [do .. while] that fills [char buf[20]]; [None]: it runs over *)
Fixpoint fill_digits (fuel : nat) (x base : Z) (buf : list Z) : option (list Z) :=
  match fuel with
  | O => None
  | S fuel' =>
      if (20 <=? length buf)%nat then None
      else
        let buf := buf ++ [zget digits (x mod base)] in
        let x := x / base in
        if negb (x =? 0) then fill_digits fuel' x base buf else Some buf
  end.

(** [xx] is a long long, [x] its unsigned value *)
Definition printint (fd xx base : Z) (sgn : bool) : U unit :=
  let neg := sgn && (xx <? 0) in
  let x := if neg then u64 (- xx) else u64 xx in
  match fill_digits 65 x base [] with
  | None => ustuck
  | Some buf =>
      if neg then
        if (20 <=? length buf)%nat then ustuck else uforM (rev (buf ++ [45])) (putc fd)
      else uforM (rev buf) (putc fd)
  end.

Fixpoint ptr_digits (n : nat) (x : Z) : list Z :=
  match n with O => [] | S n' => zget digits (Z.shiftr x 60) :: ptr_digits n' (u64 (Z.shiftl x 4)) end.
Definition printptr (fd x : Z) : U unit := putc fd 48 ;;; putc fd 120 ;;; uforM (ptr_digits 16 x) (putc fd).

(** variadic arguments: a 64-bit word or a string *)
Inductive vaarg := AWord (w : Z) | AStr (s : option (list Z)).

(** the format from [fmt + i] on, without its NUL; [state]: a percent sign was
    the last character *)
Fixpoint vprintf (fd : Z) (fmt : list Z) (state : bool) (ap : list vaarg) : U unit :=
  match fmt with
  | [] => uret tt
  | c0 :: fmt1 =>
      if negb state then
        if c0 =? 37 then vprintf fd fmt1 true ap else putc fd c0 ;;; vprintf fd fmt1 false ap
      else
        let c1 := zget fmt1 0 in
        let c2 := if nz c1 then zget fmt1 1 else 0 in
        let word (conv : Z -> Z) (base : Z) (sgn : bool) (rest : list vaarg -> U unit) : U unit :=
          match ap with
          | AWord w :: ap' => printint fd (conv w) base sgn ;;; rest ap'
          | _ => ustuck
          end in
        let go0 ap := vprintf fd fmt1 false ap in
        let go1 ap := match fmt1 with [] => uret tt | _ :: fmt2 => vprintf fd fmt2 false ap end in
        let go2 ap := match fmt1 with [] | [_] => uret tt | _ :: _ :: fmt3 => vprintf fd fmt3 false ap end in
        let l1 := c0 =? 108 in
        let l2 := l1 && (c1 =? 108) in
        if c0 =? 100 then word s32 10 true go0
        else if l1 && (c1 =? 100) then word (signed 64) 10 true go1
        else if l2 && (c2 =? 100) then word (signed 64) 10 true go2
        else if c0 =? 117 then word u32 10 false go0
        else if l1 && (c1 =? 117) then word (signed 64) 10 false go1
        else if l2 && (c2 =? 117) then word (signed 64) 10 false go2
        else if c0 =? 120 then word u32 16 false go0
        else if l1 && (c1 =? 120) then word (signed 64) 16 false go1
        else if l2 && (c2 =? 120) then word (signed 64) 16 false go2
        else if c0 =? 112 then
          match ap with AWord w :: ap' => printptr fd (u64 w) ;;; go0 ap' | _ => ustuck end
        else if c0 =? 99 then
          match ap with AWord w :: ap' => putc fd (u32 w) ;;; go0 ap' | _ => ustuck end
        else if c0 =? 115 then
          match ap with
          | AStr s :: ap' => uforM (default (bytes_of_string "(null)") s) (putc fd) ;;; go0 ap'
          | _ => ustuck
          end
        else if c0 =? 37 then putc fd 37 ;;; go0 ap
        else putc fd 37 ;;; putc fd c0 ;;; go0 ap
  end.

Definition fprintf (fd : Z) (fmt : string) (ap : list vaarg) : U unit := vprintf fd (bytes_of_string fmt) false ap.
Definition printf (fmt : string) (ap : list vaarg) : U unit := vprintf 1 (bytes_of_string fmt) false ap.
End printf.

(** * Numerals *)

(** the value of a digit character, most significant first *)
Definition digit_value (c : Z) : Z := if c <=? 57 then c - 48 else c - 55.
Definition num (base : Z) (l : list Z) : Z := foldl (fun n c => n * base + digit_value c) 0 l.

(** [l] is the numeral of [x]: its value, digits of the base, no leading zero *)
Record numeral (base x : Z) (l : list Z) : Prop := {
  nu_value : num base l = x;
  nu_digits : Forall (fun c => c ∈ take (Z.to_nat base) digits) l;
  nu_lead : match l with [] => False | c :: l' => c = 48 -> l' = [] end
}.

(** with the sign *)
Definition signed_numeral (base x : Z) (l : list Z) : Prop :=
  if x <? 0 then exists l', l = 45 :: l' /\ numeral base (- x) l' else numeral base x l.

Lemma digits_table d : 0 <= d < 16 -> digit_value (zget digits d) = d /\ (d <> 0 -> zget digits d <> 48).
Proof.
  intros Hd. assert (d ∈ zseq 0 16) as Hin by (by apply elem_of_zseq). clear Hd. revert d Hin. apply Forall_forall.
  repeat (constructor; [vm_compute; split; [reflexivity|intros; (discriminate || congruence)]|]). constructor.
Qed.

Lemma digits_base base d : 0 <= d < base -> base <= 16 -> zget digits d ∈ take (Z.to_nat base) digits.
Proof.
  intros Hd Hb. unfold zget. destruct (digits !! Z.to_nat d) as [c|] eqn:E.
  - apply list_elem_of_lookup. exists (Z.to_nat d). rewrite lookup_take, decide_True by lia. exact E.
  - apply lookup_ge_None in E. change (length digits) with 16%nat in E. lia.
Qed.

Lemma num_snoc base l c : num base (l ++ [c]) = num base l * base + digit_value c.
Proof. unfold num. by rewrite foldl_app. Qed.

(** the decimal numeral, as the library prints it *)
Definition codes (t : string) : list Z := map (fun c => Z.of_nat (Ascii.nat_of_ascii c)) (String.list_ascii_of_string t).
Definition dec (x : Z) : list Z := codes (pretty x).

Lemma pretty_digit d : 0 <= d < 10 -> Z.of_nat (Ascii.nat_of_ascii (pretty_N_char (Z.to_N d))) = zget digits d.
Proof.
  intros Hd. assert (d ∈ zseq 0 10) as Hin by (by apply elem_of_zseq). clear Hd. revert d Hin. apply Forall_forall.
  repeat (constructor; [vm_compute; reflexivity|]). constructor.
Qed.

(** the loop of printint computes the decimal numeral, least digit first *)
Lemma fill_digits_pretty fuel : forall x buf l t, 0 < x -> fill_digits fuel x 10 buf = Some l ->
  exists ds, l = buf ++ ds /\ codes (pretty_N_go (Z.to_N x) t) = rev ds ++ codes t.
Proof.
  induction fuel as [|fuel IH]; intros x buf l t Hx H; [discriminate H|]. cbn [fill_digits] in H.
  destruct (20 <=? length buf)%nat; [discriminate H|]. set (c := zget digits (x mod 10)) in *.
  pose proof (Z.mod_pos_bound x 10 ltac:(lia)) as Hm. pose proof (Z.div_pos x 10 ltac:(lia) ltac:(lia)) as Hq.
  rewrite pretty_N_go_step by lia. change 10%N with (Z.to_N 10). rewrite <-(Z2N.inj_div x 10), <-(Z2N.inj_mod x 10) by lia.
  assert (codes (String (pretty_N_char (Z.to_N (x mod 10))) t) = c :: codes t) as Ec.
  { unfold codes. cbn [String.list_ascii_of_string map]. by rewrite pretty_digit. }
  destruct (Z.eqb_spec (x / 10) 0) as [E|E]; cbn [negb] in H.
  - injection H as <-. exists [c]. split; [reflexivity|]. rewrite E. exact Ec.
  - apply (IH _ _ _ (String (pretty_N_char (Z.to_N (x mod 10))) t)) in H as (ds & -> & E'); [|lia].
    exists (c :: ds). rewrite E', Ec, <-app_assoc. split; [reflexivity|]. cbn [rev]. by rewrite <-app_assoc.
Qed.

Lemma dec_pos x : 0 < x -> dec x = codes (pretty_N_go (Z.to_N x) "").
Proof. destruct x as [|x|x]; [lia| |lia]. intros _. reflexivity. Qed.
Lemma dec_neg x : x < 0 -> dec x = 45 :: dec (- x).
Proof. destruct x as [|x|x]; [lia|lia|]. intros _. reflexivity. Qed.

Section numerals.
Context (base : Z).
Hypothesis Hb : 2 <= base <= 16.

(** the loop stays within the buffer and leaves the digits of [x] *)
Lemma fill_digits_ok k : forall fuel x buf, 0 <= x < base ^ Z.of_nat k -> (0 < k <= fuel)%nat -> (length buf + k <= 20)%nat ->
  exists ds, fill_digits fuel x base buf = Some (buf ++ ds) /\ (0 < length ds <= k)%nat /\ numeral base x (rev ds).
Proof.
  induction k as [|k IH]; intros fuel x buf Hx Hk Hl; [lia|]. destruct fuel as [|fuel]; [lia|]. cbn [fill_digits].
  destruct (Nat.leb_spec 20 (length buf)); [lia|]. pose proof (Z.mod_pos_bound x base ltac:(lia)) as Hm.
  pose proof (Z.div_mod x base ltac:(lia)) as Hdm. destruct (digits_table (x mod base) ltac:(lia)) as [Hv Hn0].
  destruct (Z.eqb_spec (x / base) 0) as [E|E]; cbn [negb].
  - exists [zget digits (x mod base)]. split; [reflexivity|]. split; [cbn [length]; lia|]. split.
    + change (0 * base + digit_value (zget digits (x mod base)) = x). rewrite Hv. lia.
    + apply Forall_singleton, digits_base; lia.
    + intros _. reflexivity.
  - assert (0 <= x / base < base ^ Z.of_nat k) as Hx'.
    { split; [apply Z.div_pos; lia|]. apply Z.div_lt_upper_bound; [lia|]. rewrite <-Z.pow_succ_r, <-Nat2Z.inj_succ by lia. lia. }
    assert (0 < k)%nat as Hk0 by (destruct k; [simpl in Hx'; lia|lia]).
    destruct (IH fuel (x / base) (buf ++ [zget digits (x mod base)]) Hx') as (ds & Ef & Hlen & [N1 N2 N3]); [lia|rewrite length_app; simpl; lia|].
    exists (zget digits (x mod base) :: ds). split; [by rewrite Ef, <-app_assoc|]. split; [simpl; lia|]. cbn [rev]. split.
    + rewrite num_snoc, N1, Hv. lia.
    + apply Forall_app. split; [done|]. apply Forall_singleton, digits_base; lia.
    + destruct (rev ds) as [|c l] eqn:Er; [done|]. cbn [app]. intros ->. specialize (N3 eq_refl). subst l.
      unfold num in N1. cbn in N1. lia.
Qed.
End numerals.

(** * Output *)

(** every write takes at least a byte *)
Definition open_room (env : kernel_env) : Prop := forall i, exists a, room env i = Some (S a).

(** [l] has been written to [fd], a byte a call *)
Definition emitted (fd : Z) (l : list Z) (w : world) : world :=
  mkworld (w_in w) (w_reads w) (w_writes w + length l) (w_calls w) (w_out w ++ map (fun c => (fd, c)) l).

Lemma emitted_nil fd w : emitted fd [] w = w.
Proof. destruct w. unfold emitted. cbn. by rewrite Nat.add_0_r, app_nil_r. Qed.
Lemma emitted_app fd l l' w : emitted fd l' (emitted fd l w) = emitted fd (l ++ l') w.
Proof. unfold emitted. cbn. by rewrite length_app, map_app, Nat.add_assoc, app_assoc. Qed.

Definition byte (c : Z) : Prop := 0 <= c < 256.

Lemma ubind_ret {A B} (m : U A) (f : A -> U B) w a w' : m w = (Returns a, w') -> ubind m f w = f a w'.
Proof. intros H. unfold ubind. by rewrite H. Qed.

Section output.
Context (env : kernel_env).
Hypothesis Hroom : open_room env.

Lemma putc_run fd c w : putc env fd c w = (Returns tt, emitted fd [u8 c] w).
Proof.
  unfold putc, ubind, u_write. destruct (Hroom (w_writes w)) as [a ->]. cbn [uret take map]. unfold uret, emitted. cbn [length map].
  by rewrite Nat.add_1_r, take_nil.
Qed.

Lemma puts_run fd l : Forall byte l -> forall w, uforM l (putc env fd) w = (Returns tt, emitted fd l w).
Proof.
  induction 1 as [|c l Hc _ IH]; intros w; cbn [uforM]; [by rewrite emitted_nil|].
  erewrite ubind_ret by apply putc_run. rewrite IH, emitted_app, u8_small by done. done.
Qed.

Lemma digits_bytes base l : Forall (fun c => c ∈ take (Z.to_nat base) digits) l -> Forall byte l.
Proof.
  intros Hl. eapply Forall_impl; [exact Hl|]. intros c Hc. apply elem_of_take in Hc as (i & Hc & _). apply list_elem_of_lookup_2 in Hc. rewrite list_elem_of_In in Hc.
  assert (forallb (fun c => (0 <=? c) && (c <? 256)) digits = true) as H by (vm_compute; reflexivity).
  rewrite forallb_forall in H. specialize (H c Hc). unfold byte. lia.
Qed.

Lemma printint_run fd xx base sgn w : base = 10 \/ base = 16 -> - 2 ^ 63 <= xx < 2 ^ 63 ->
  exists l, printint env fd xx base sgn w = (Returns tt, emitted fd l w) /\ (length l <= 20)%nat /\
    signed_numeral base (if sgn then xx else u64 xx) l.
Proof.
  intros Hb Hx. assert (2 <= base <= 16) as Hb' by lia. unfold printint. destruct (sgn && (xx <? 0)) eqn:Eneg.
  - apply andb_true_iff in Eneg as [-> Hneg]. unfold signed_numeral. rewrite Hneg. apply Z.ltb_lt in Hneg. rewrite u64_small by lia.
    destruct (fill_digits_ok base Hb' 19 65 (- xx) []) as (ds & -> & Hlen & Hnum); [|lia|simpl; lia|].
    { split; [lia|]. apply Z.le_lt_trans with (2 ^ 63); [lia|]. destruct Hb as [-> | ->]; reflexivity. }
    cbn [app]. destruct (Nat.leb_spec 20 (length ds)); [lia|]. exists (45 :: rev ds). split_and!.
    + rewrite rev_app_distr. apply puts_run. constructor; [by split|]. eapply digits_bytes, Hnum.
    + cbn [length]. rewrite length_rev. lia.
    + by exists (rev ds).
  - assert ((if sgn then xx else u64 xx) = u64 xx) as ->.
    { destruct sgn; [|done]. cbn [andb] in Eneg. apply Z.ltb_ge in Eneg. by rewrite u64_small by lia. }
    pose proof (u64_range xx) as Hu.
    destruct (fill_digits_ok base Hb' 20 65 (u64 xx) []) as (ds & -> & Hlen & Hnum); [|lia|simpl; lia|].
    { split; [lia|]. apply Z.lt_le_trans with (2 ^ 64); [lia|]. destruct Hb as [-> | ->]; vm_compute; discriminate. }
    cbn [app]. exists (rev ds). split_and!.
    + apply puts_run. eapply digits_bytes, Hnum.
    + rewrite length_rev. lia.
    + unfold signed_numeral. by rewrite (proj2 (Z.ltb_ge _ _)) by lia.
Qed.

(** [%d] prints the decimal numeral *)
Lemma printint_dec fd xx w : - 2 ^ 63 <= xx < 2 ^ 63 -> printint env fd xx 10 true w = (Returns tt, emitted fd (dec xx) w).
Proof.
  assert (forall x l, 0 < x -> fill_digits 65 x 10 [] = Some l -> rev l = dec x) as Hfill.
  { intros x l Hx H. apply (fill_digits_pretty _ _ _ _ "") in H as (ds & -> & E); [|done]. rewrite dec_pos, E by lia. by rewrite app_nil_r. }
  intros Hx. unfold printint. cbn [andb]. destruct (Z.ltb_spec xx 0) as [Hneg|Hpos].
  - rewrite u64_small by lia. destruct (fill_digits_ok 10 ltac:(lia) 19 65 (- xx) []) as (ds & E & Hlen & Hnum); [lia|lia|simpl; lia|].
    rewrite E. apply Hfill in E; [|lia]. cbn [app] in *. destruct (Nat.leb_spec 20 (length ds)); [lia|].
    rewrite rev_app_distr, E, (dec_neg xx) by lia. apply puts_run. constructor; [by split|]. rewrite <-E. eapply digits_bytes, Hnum.
  - rewrite u64_small by lia. destruct (fill_digits_ok 10 ltac:(lia) 20 65 xx []) as (ds & E & Hlen & Hnum); [lia|lia|simpl; lia|].
    rewrite E. cbn [app] in *. assert (rev ds = dec xx) as <-.
    { destruct (decide (xx = 0)) as [->|]; [vm_compute in E; by injection E as <-|]. apply Hfill; [lia|done]. }
    apply puts_run. eapply digits_bytes, Hnum.
Qed.

(** formats, from the left *)
Lemma vprintf_char fd c fmt ap w : c <> 37 -> byte c -> vprintf env fd (c :: fmt) false ap w = vprintf env fd fmt false ap (emitted fd [c] w).
Proof.
  intros Hc Hb. cbn [vprintf negb]. rewrite (proj2 (Z.eqb_neq c 37) Hc). erewrite ubind_ret by apply putc_run. by rewrite u8_small.
Qed.

Lemma vprintf_d fd fmt x ap w : vprintf env fd (37 :: 100 :: fmt) false (AWord x :: ap) w = vprintf env fd fmt false ap (emitted fd (dec (s32 x)) w).
Proof.
  cbn [vprintf negb]. change (37 =? 37) with true. cbv iota. cbn [vprintf negb]. change (100 =? 100) with true. cbv iota.
  erewrite ubind_ret; [reflexivity|]. apply printint_dec. pose proof (signed_range 32 x ltac:(lia)). unfold s32. lia.
Qed.

Lemma vprintf_s fd fmt t ap w : Forall byte t ->
  vprintf env fd (37 :: 115 :: fmt) false (AStr (Some t) :: ap) w = vprintf env fd fmt false ap (emitted fd t w).
Proof.
  intros Ht. cbn [vprintf negb]. change (37 =? 37) with true. cbv iota. cbn [vprintf negb].
  change (115 =? 100) with false. change (115 =? 108) with false. change (115 =? 117) with false. change (115 =? 120) with false.
  change (115 =? 112) with false. change (115 =? 99) with false. change (115 =? 115) with true. cbn [andb default]. cbv iota.
  erewrite ubind_ret; [reflexivity|]. by apply puts_run.
Qed.

Lemma vprintf_end fd ap w : vprintf env fd [] false ap w = (Returns tt, w).
Proof. reflexivity. Qed.
End output.

(** a call of printf with a literal format *)
Ltac run_format H :=
  repeat first [rewrite (vprintf_char _ H) by (unfold byte; lia) | rewrite (vprintf_d _ H) | rewrite (vprintf_s _ H) by assumption];
  rewrite vprintf_end, ?emitted_app.
