(* ===== verification/UserUtil.v ===== *)
(** The small user programs over the system calls of UserPrintf: cat.c, wc.c,
    ls.c, echo.c, rm.c, mkdir.c, ln.c, kill.c, grep and main of grep.c, stat and
    start of ulib.c.

    [argv] is the list of the argument strings, the program's name first; a
    string is the list of its bytes.  The fuel of a read loop is the length of
    what the descriptor delivers, since a read that is not at the end of it
    returns a byte. *)

From stdpp Require Import base gmap strings numbers list.
From S2P Require Import Prelude KState KString UserLib UserGrep UserPrintf.

(** * The code *)

Section code.
Context (env : kernel_env).

(** enough rounds for the input of [fd] *)
Definition rounds (fd : Z) (w : world) : nat := S (length (default [] (o_data <$> w_in w !! fd))).
Definition read_loop {I R} (fd : Z) (body : I -> U (I + R)) (i : I) : U R := fun w => uwhile (rounds fd w) body i w.

(** ** cat.c *)

Definition cat_body (fd : Z) (_ : unit) : U (unit + unit) :=
  let? r := u_read env fd 512 in
  match r with
  | Some [] => uret (inr tt)
  | Some bytes =>
      let? n := u_write env 1 bytes in
      if negb (n =? Z.of_nat (length bytes)) then fprintf env 2 "cat: write error\n" [] ;;; uexit 1
      else uret (inl tt)
  | None => fprintf env 2 "cat: read error\n" [] ;;; uexit 1
  end.
Definition cat (fd : Z) : U unit := read_loop fd (cat_body fd) tt.

Definition cat_file (path : list Z) : U unit :=
  let? fd := u_open env path in
  if fd <? 0 then fprintf env 2 "cat: cannot open %s\n" [AStr (Some path)] ;;; uexit 1
  else cat fd ;;; u_close fd ;;; uret tt.

Definition cat_main (argv : list (list Z)) : U unit :=
  if (length argv <=? 1)%nat then cat 0 ;;; uexit 0
  else uforM (drop 1 argv) cat_file ;;; uexit 0.

(** ** wc.c *)

(** the counters [l], [w], [c] and [inword] *)
Record counts := mkcounts { n_l : Z; n_w : Z; n_c : Z; n_in : bool }.

Definition BLANKS : list Z := [32; 13; 9; 10; 11].

Definition wc_char (n : counts) (ch : Z) : counts :=
  let c := s32 (n_c n + 1) in
  let l := if ch =? 10 then s32 (n_l n + 1) else n_l n in
  match strchr BLANKS ch with
  | Some _ => mkcounts l (n_w n) c false
  | None => if negb (n_in n) then mkcounts l (s32 (n_w n + 1)) c true else mkcounts l (n_w n) c (n_in n)
  end.

Definition wc_body (fd : Z) (n : counts) : U (counts + counts) :=
  let? r := u_read env fd 512 in
  match r with
  | Some [] => uret (inr n)
  | Some bytes => uret (inl (foldl wc_char n bytes))
  | None => printf env "wc: read error\n" [] ;;; uexit 1
  end.

Definition wc (fd : Z) (name : list Z) : U unit :=
  let? n := read_loop fd (wc_body fd) (mkcounts 0 0 0 false) in
  printf env "%d %d %d %s\n" [AWord (n_l n); AWord (n_w n); AWord (n_c n); AStr (Some name)].

Definition wc_file (path : list Z) : U unit :=
  let? fd := u_open env path in
  if fd <? 0 then printf env "wc: cannot open %s\n" [AStr (Some path)] ;;; uexit 1
  else wc fd path ;;; u_close fd ;;; uret tt.

Definition wc_main (argv : list (list Z)) : U unit :=
  if (length argv <=? 1)%nat then wc 0 [] ;;; uexit 0
  else uforM (drop 1 argv) wc_file ;;; uexit 0.

(** ** echo.c *)

Fixpoint echo_args (args : list (list Z)) : U unit :=
  match args with
  | [] => uret tt
  | a :: rest =>
      u_write env 1 a ;;;
      u_write env 1 (match rest with _ :: _ => [32] | [] => [10] end) ;;;
      echo_args rest
  end.
Definition echo_main (argv : list (list Z)) : U unit := echo_args (drop 1 argv) ;;; uexit 0.

(** ** grep.c *)

(** the inner loop: it returns the bytes after the last newline *)
Fixpoint grep_print (fuel : nat) (pattern p : list Z) : U (list Z) :=
  match fuel with
  | O => ustuck
  | S fuel' =>
      match strchr p NL with
      | None => uret p
      | Some q =>
          (if match_re pattern (take q p) then u_write env 1 (take (S q) p) ;;; uret tt else uret tt) ;;;
          grep_print fuel' pattern (drop (S q) p)
      end
  end.

(** [buf] holds the [m] bytes kept from the last round *)
Definition grep_body (pattern : list Z) (fd : Z) (buf : list Z) : U (list Z + list Z) :=
  let? r := u_read env fd (Z.of_nat BUFSZ - Z.of_nat (length buf) - 1) in
  match r with
  | Some (c :: l) =>
      let buf := buf ++ c :: l in
      let? rest := grep_print (S (length buf)) pattern buf in
      uret (inl rest)
  | _ => uret (inr buf)
  end.
Definition grep_fd (pattern : list Z) (fd : Z) : U unit := read_loop fd (grep_body pattern fd) [] ;;; uret tt.

Definition grep_file (pattern path : list Z) : U unit :=
  let? fd := u_open env path in
  if fd <? 0 then printf env "grep: cannot open %s\n" [AStr (Some path)] ;;; uexit 1
  else grep_fd pattern fd ;;; u_close fd ;;; uret tt.

Definition grep_main (argv : list (list Z)) : U unit :=
  match argv with
  | [] | [_] => fprintf env 2 "usage: grep pattern [file ...]\n" [] ;;; uexit 1
  | [_; pattern] => grep_fd pattern 0 ;;; uexit 0
  | _ :: pattern :: paths => uforM paths (grep_file pattern) ;;; uexit 0
  end.

(** ** ls.c, and stat of ulib.c *)

Definition stat (n : list Z) : U (option ustat) :=
  let? fd := u_open env n in
  if fd <? 0 then uret None
  else let? r := u_fstat fd in u_close fd ;;; uret r.

(** where the loop of fmtname, started at [p = path + n], leaves [p + 1] *)
Fixpoint name_start (path : list Z) (n : nat) : nat :=
  if char_at path n =? 47 then S n else match n with O => O | S n' => name_start path n' end.

Definition fmtname (path : list Z) : list Z :=
  let p := drop (name_start path (strlen path)) path in
  let size := Z.to_nat DIRSIZ in
  if (size <=? strlen p)%nat then p else take (strlen p) p ++ replicate (size - strlen p) 32.

Definition ls_line (path : list Z) (st : ustat) : U unit :=
  printf env "%s %d %d %d\n" [AStr (Some (fmtname path)); AWord (u_type st); AWord (u_ino st); AWord (s32 (u_size st))].

(** [path] is the string in [buf] before the slash *)
Definition ls_body (path : list Z) (fd : Z) (_ : unit) : U (unit + unit) :=
  let? r := u_read env fd 16 in
  match r with
  | None => uret (inr tt)
  | Some de =>
      if negb (length de =? 16)%nat then uret (inr tt)
      else if zget de 0 + 256 * zget de 1 =? 0 then uret (inl tt)
      else
        let buf := path ++ 47 :: cstr (take (Z.to_nat DIRSIZ) (drop 2 de)) in
        let? r := stat buf in
        match r with
        | None => printf env "ls: cannot stat %s\n" [AStr (Some buf)] ;;; uret (inl tt)
        | Some st => ls_line buf st ;;; uret (inl tt)
        end
  end.

Definition ls (path : list Z) : U unit :=
  let? fd := u_open env path in
  if fd <? 0 then fprintf env 2 "ls: cannot open %s\n" [AStr (Some path)]
  else
    let? r := u_fstat fd in
    match r with
    | None => fprintf env 2 "ls: cannot stat %s\n" [AStr (Some path)] ;;; u_close fd ;;; uret tt
    | Some st =>
        (if (u_type st =? T_DEVICE) || (u_type st =? T_FILE) then ls_line path st
         else if u_type st =? T_DIR then
           if 512 <? Z.of_nat (strlen path) + 1 + DIRSIZ + 1 then printf env "ls: path too long\n" []
           else read_loop fd (ls_body path fd) tt
         else uret tt) ;;;
        u_close fd ;;; uret tt
    end.

Definition ls_main (argv : list (list Z)) : U unit :=
  if (length argv <? 2)%nat then ls (bytes_of_string ".") ;;; uexit 0
  else uforM (drop 1 argv) ls ;;; uexit 0.

(** start of ulib.c: the status of a main that returns *)
Definition start (main : list (list Z) -> U Z) (argv : list (list Z)) : U unit := let? r := main argv in uexit r.

(** ** rm.c, mkdir.c, ln.c and kill.c *)

Fixpoint rm_args (args : list (list Z)) : U unit :=
  match args with
  | [] => uret tt
  | a :: rest =>
      let? r := u_call env (CUnlink a) in
      if r <? 0 then fprintf env 2 "rm: %s failed to delete\n" [AStr (Some a)] else rm_args rest
  end.
Definition rm_main (argv : list (list Z)) : U unit :=
  if (length argv <? 2)%nat then fprintf env 2 "Usage: rm files...\n" [] ;;; uexit 1
  else rm_args (drop 1 argv) ;;; uexit 0.

Fixpoint mkdir_args (args : list (list Z)) : U unit :=
  match args with
  | [] => uret tt
  | a :: rest =>
      let? r := u_call env (CMkdir a) in
      if r <? 0 then fprintf env 2 "mkdir: %s failed to create\n" [AStr (Some a)] else mkdir_args rest
  end.
Definition mkdir_main (argv : list (list Z)) : U unit :=
  if (length argv <? 2)%nat then fprintf env 2 "Usage: mkdir files...\n" [] ;;; uexit 1
  else mkdir_args (drop 1 argv) ;;; uexit 0.

Definition ln_main (argv : list (list Z)) : U unit :=
  match argv with
  | [_; old; new] =>
      let? r := u_call env (CLink old new) in
      (if r <? 0 then fprintf env 2 "link %s %s: failed\n" [AStr (Some old); AStr (Some new)] else uret tt) ;;;
      uexit 0
  | _ => fprintf env 2 "Usage: ln old new\n" [] ;;; uexit 1
  end.

Definition kill_main (argv : list (list Z)) : U unit :=
  if (length argv <? 2)%nat then fprintf env 2 "usage: kill pid...\n" [] ;;; uexit 1
  else uforM (drop 1 argv) (fun a => u_call env (CKill (atoi a)) ;;; uret tt) ;;; uexit 0.
End code.
