(* ===== verification/UserUtilSpec.v ===== *)
(** What the small user programs do.

    [runs v m a o v']: from any world with the descriptors and calls [v], [m]
    ends as [a] after writing [o], with the descriptors and calls [v'].  The
    programs are run by the rules for [runs]; their outputs are the functions
    [cat_out], [wc_out], [grep_outs], [ls_outs], [until_failure]. *)

From stdpp Require Import base gmap strings pretty numbers list.
From S2P Require Import Prelude KState KString UserLib UserGrep UserPrintf UserUtil.

(** * Running a program *)

Definition view : Type := gmap Z ofile * list call.
Definition out_bytes (fd : Z) (l : list Z) : list (Z * Z) := map (fun c => (fd, c)) l.

Definition runs {A} (v : view) (m : U A) (a : outcome A) (o : list (Z * Z)) (v' : view) : Prop :=
  forall w, w_in w = v.1 -> w_calls w = v.2 ->
  exists r wr, m w = (a, mkworld v'.1 r wr v'.2 (w_out w ++ o)).

Lemma runs_ret {A} v (a : A) : runs v (uret a) (Returns a) [] v.
Proof. intros [i r wr k o] <- <-. exists r, wr. unfold uret. cbn. by rewrite app_nil_r. Qed.

Lemma runs_exit {A} v n : @runs A v (uexit n) (Exits n) [] v.
Proof. intros [i r wr k o] <- <-. exists r, wr. unfold uexit. cbn. by rewrite app_nil_r. Qed.

Lemma runs_bind {A B} v (m : U A) (f : A -> U B) x o v1 a o' v2 :
  runs v m (Returns x) o v1 -> runs v1 (f x) a o' v2 -> runs v (ubind m f) a (o ++ o') v2.
Proof.
  intros H1 H2 w E1 E2. destruct (H1 w E1 E2) as (r & wr & E). rewrite (ubind_ret _ _ _ _ _ E).
  destruct (H2 (mkworld v1.1 r wr v1.2 (w_out w ++ o)) eq_refl eq_refl) as (r' & wr' & E'). exists r', wr'.
  rewrite E'. cbn [w_out]. by rewrite app_assoc.
Qed.

Lemma runs_bind_exit {A B} v (m : U A) (f : A -> U B) n o v1 : runs v m (Exits n) o v1 -> runs v (ubind m f) (Exits n) o v1.
Proof. intros H w E1 E2. destruct (H w E1 E2) as (r & wr & E). exists r, wr. unfold ubind. by rewrite E. Qed.

(** the output in another form *)
Lemma runs_out {A} v (m : U A) a o o' v' : runs v m a o v' -> o = o' -> runs v m a o' v'.
Proof. by intros ? ->. Qed.

(** a step without output *)
Lemma runs_silent {A B} v (m : U A) (f : A -> U B) x v1 a o v2 :
  runs v m (Returns x) [] v1 -> runs v1 (f x) a o v2 -> runs v (ubind m f) a o v2.
Proof. intros H1 H2. exact (runs_bind _ _ _ _ _ _ _ _ _ H1 H2). Qed.

(** a step at the end without output *)
Lemma runs_last {A B} v (m : U A) (f : A -> U B) x v1 a o v2 :
  runs v m (Returns x) o v1 -> runs v1 (f x) a [] v2 -> runs v (ubind m f) a o v2.
Proof. intros H1 H2. eapply runs_out; [exact (runs_bind _ _ _ _ _ _ _ _ _ H1 H2)|]. apply app_nil_r. Qed.

Lemma runs_emitted {A} v (m : U A) (a : A) fd l : (forall w, m w = (Returns a, emitted fd l w)) -> runs v m (Returns a) (out_bytes fd l) v.
Proof. intros H w <- <-. rewrite H. by exists (w_reads w), (w_writes w + length l)%nat. Qed.

(** no read fails, a write takes up to 1024 bytes, a new descriptor is unused *)
Record kind (env : kernel_env) : Prop := {
  ki_avail i : exists a, avail env i = Some a;
  ki_room i : exists a, room env i = Some a /\ (1024 <= a)%nat;
  ki_fresh m : 0 <= fresh env m /\ m !! fresh env m = None
}.

Lemma kind_open env : kind env -> open_room env.
Proof. intros K i. destruct (ki_room _ K i) as (a & E & Ha). exists (pred a). rewrite E. f_equal. lia. Qed.

Section run.
Context (env : kernel_env).
Hypothesis K : kind env.

Lemma runs_write v fd l : (length l <= 1024)%nat -> runs v (u_write env fd l) (Returns (Z.of_nat (length l))) (out_bytes fd l) v.
Proof.
  intros Hl w <- <-. unfold u_write. destruct (ki_room _ K (w_writes w)) as (a & -> & Ha). rewrite Nat.min_r by lia.
  rewrite take_ge by lia. by eexists _, _.
Qed.

Lemma runs_open_missing v path : files env path = None -> runs v (u_open env path) (Returns (-1)) [] v.
Proof. intros H [i r wr k o] <- <-. unfold u_open. rewrite H. exists r, wr. cbn. by rewrite app_nil_r. Qed.

Lemma runs_open v path f : files env path = Some f ->
  runs v (u_open env path) (Returns (fresh env v.1)) [] (<[fresh env v.1 := f]> v.1, v.2).
Proof. intros H [i r wr k o] <- <-. unfold u_open. rewrite H. exists r, wr. cbn. by rewrite app_nil_r. Qed.

Lemma runs_close v fd f : v.1 !! fd = Some f -> runs v (u_close fd) (Returns 0) [] (delete fd v.1, v.2).
Proof.
  destruct v as [m c]. cbn [fst snd]. intros H [i r wr k o] E1 E2. cbn in E1, E2. subst. unfold u_close. cbn [w_in]. rewrite H. rewrite decide_True by (by eexists). exists r, wr. cbn. by rewrite app_nil_r.
Qed.

Lemma runs_fstat v fd f : v.1 !! fd = Some f -> runs v (u_fstat fd) (Returns (o_stat f)) [] v.
Proof. destruct v as [m c]. cbn [fst snd]. intros H [i r wr k o] E1 E2. cbn in E1, E2. subst. unfold u_fstat. cbn. rewrite H. cbn. exists r, wr. by rewrite app_nil_r. Qed.

Lemma runs_call v c : runs v (u_call env c) (Returns (answer env (length v.2))) [] (v.1, v.2 ++ [c]).
Proof. intros [i r wr k o] <- <-. unfold u_call. exists r, wr. cbn. by rewrite app_nil_r. Qed.

(** cat, wc and grep do this for each argument: [m] reads the file *)
Definition file_step (complain : list Z -> U unit) (m : list Z -> Z -> U unit) (path : list Z) : U unit :=
  let? fd := u_open env path in
  if fd <? 0 then complain path ;;; uexit 1 else m path fd ;;; u_close fd ;;; uret tt.

(** [m] reads [fd], where [f] is open, and writes [o] *)
Definition reads {A} (m : U A) (fd : Z) (f : ofile) (a : A) (o : list (Z * Z)) : Prop :=
  forall w, w_in w !! fd = Some f ->
  exists f' r wr, m w = (Returns a, mkworld (<[fd := f']> (w_in w)) r wr (w_calls w) (w_out w ++ o)).

Lemma runs_reads {A} (m : U A) fd f a o f' :
  (forall v, v.1 !! fd = Some f -> runs v m (Returns a) o (<[fd := f']> v.1, v.2)) -> reads m fd f a o.
Proof. intros H w Hf. destruct (H (w_in w, w_calls w) Hf w eq_refl eq_refl) as (r & wr & E). by exists f', r, wr. Qed.

Lemma runs_step_file v path f complain m o : files env path = Some f -> (forall fd, reads (m path fd) fd f tt o) ->
  runs v (file_step complain m path) (Returns tt) o v.
Proof.
  intros Hf Hm w <- <-. destruct (ki_fresh _ K (w_in w)) as [Hp Hn]. unfold file_step. set (fd := fresh env (w_in w)) in *.
  set (w1 := set_in (<[fd := f]> (w_in w)) w). assert (u_open env path w = (Returns fd, w1)) as Eo by (unfold u_open; by rewrite Hf).
  erewrite ubind_ret by exact Eo. rewrite (proj2 (Z.ltb_ge fd 0) Hp).
  destruct (Hm fd w1 ltac:(apply lookup_insert_eq)) as (f' & r & wr & E). erewrite ubind_ret by exact E. eexists _, _.
  unfold ubind, u_close, uret, set_in. cbn [w_in w_reads w_writes w_calls w_out w1 set_in fst snd].
  rewrite insert_insert_eq, delete_insert_id by done. reflexivity.
Qed.

Lemma runs_step_missing v path complain m o : files env path = None -> runs v (complain path) (Returns tt) o v ->
  runs v (file_step complain m path) (Exits 1) o v.
Proof.
  intros Hf Hc. eapply runs_silent; [by apply runs_open_missing|]. change (-1 <? 0) with true. cbv iota.
  eapply runs_last; [exact Hc|apply runs_exit].
Qed.

(** the output for a list of files: up to the first that is missing *)
Fixpoint files_out (emit : list Z -> list Z -> list (Z * Z)) (msg : list Z -> list (Z * Z)) (paths : list (list Z)) : list (Z * Z) * Z :=
  match paths with
  | [] => ([], 0)
  | p :: rest =>
      match files env p with
      | Some f => let '(o, n) := files_out emit msg rest in (emit p (o_data f) ++ o, n)
      | None => (msg p, 1)
      end
  end.

(** ... of a program that treats its arguments one by one and exits *)
Lemma files_runs (step : list Z -> U unit) emit msg (P : list Z -> Prop) v paths :
  (forall path f, P path -> files env path = Some f -> runs v (step path) (Returns tt) (emit path (o_data f)) v) ->
  (forall path, P path -> files env path = None -> runs v (step path) (Exits 1) (msg path) v) ->
  Forall P paths -> runs v (uforM paths step ;;; @uexit unit 0) (Exits (files_out emit msg paths).2) (files_out emit msg paths).1 v.
Proof.
  intros Hs Hm Hp. assert (runs v (uforM paths step) (if (files_out emit msg paths).2 =? 0 then Returns tt else Exits 1) (files_out emit msg paths).1 v
    /\ ((files_out emit msg paths).2 = 0 \/ (files_out emit msg paths).2 = 1)) as [H Hn].
  { induction Hp as [|p paths Hp _ [IH IHn]]; cbn [files_out uforM]; [split; [apply runs_ret|by left]|].
    destruct (files env p) as [f|] eqn:Hf.
    - destruct (files_out emit msg paths) as [o n]. cbn [fst snd] in *. split; [|done]. eapply runs_bind; [by apply Hs|exact IH].
    - cbn [fst snd]. split; [|by right]. change (1 =? 0) with false. cbv iota. eapply runs_bind_exit. by apply Hm. }
  destruct Hn as [Hn|Hn]; rewrite Hn in H |- *; cbn [Z.eqb] in H.
  - eapply runs_last; [exact H|apply runs_exit].
  - eapply runs_bind_exit. exact H.
Qed.

(** a loop that reads [fd] to its end and folds what it gets; [emit] is what it
    writes for a piece of the input *)
Lemma read_loop_runs {I} fd (body : I -> U (I + I)) (step : I -> list Z -> I) (emit : list Z -> list (Z * Z)) :
  (forall i l l', step i (l ++ l') = step (step i l) l') -> (forall i, step i [] = i) ->
  (forall l l', emit (l ++ l') = emit l ++ emit l') -> emit [] = [] ->
  (forall i w f, w_in w !! fd = Some f -> exists k r wr, (0 < k)%nat /\
     body i w = (Returns (match o_data f with [] => inr i | _ => inl (step i (take k (o_data f))) end),
                 mkworld (<[fd := mkofile (drop k (o_data f)) (o_stat f)]> (w_in w)) r wr (w_calls w) (w_out w ++ emit (take k (o_data f))))) ->
  forall i v f, v.1 !! fd = Some f ->
  runs v (read_loop fd body i) (Returns (step i (o_data f))) (emit (o_data f)) (<[fd := mkofile [] (o_stat f)]> v.1, v.2).
Proof.
  intros S1 S2 E1 E2 Hbody. assert (forall n i w f, w_in w !! fd = Some f -> (length (o_data f) <= n)%nat ->
    exists r wr, uwhile (S n) body i w = (Returns (step i (o_data f)),
      mkworld (<[fd := mkofile [] (o_stat f)]> (w_in w)) r wr (w_calls w) (w_out w ++ emit (o_data f)))) as Hloop.
  { induction n as [|n IH]; intros i w [data st] Hd Hn; cbn [uwhile o_data o_stat] in *;
      destruct (Hbody i w _ Hd) as (k & r & wr & Hk & E); cbn [o_data o_stat] in E; erewrite ubind_ret by exact E.
    - destruct data; [|simpl in Hn; lia]. exists r, wr. cbv iota. rewrite take_nil, drop_nil, E2, S2. reflexivity.
    - destruct data as [|c data]; [exists r, wr; cbv iota; rewrite take_nil, drop_nil, E2, S2; reflexivity|]. cbv iota.
      set (w1 := mkworld _ _ _ _ _). destruct (IH (step i (take k (c :: data))) w1 (mkofile (drop k (c :: data)) st)) as (r' & wr' & E').
      + unfold w1. cbn. apply lookup_insert_eq.
      + cbn [o_data]. rewrite length_drop. simpl in *. lia.
      + exists r', wr'. etransitivity; [exact E'|]. unfold w1. cbn [w_in w_out w_calls o_data o_stat].
        rewrite insert_insert_eq, <-S1, <-app_assoc, <-E1, take_drop. reflexivity. }
  intros i v f Hf w Hw Hk. rewrite <-Hw in Hf. destruct (Hloop (length (o_data f)) i w f Hf (le_n _)) as (r & wr & E).
  exists r, wr. unfold read_loop, rounds. rewrite Hf. etransitivity; [exact E|]. by rewrite Hw, Hk.
Qed.

Lemma read_run fd n f w : w_in w !! fd = Some f -> 0 < n ->
  exists k, (0 < k <= Z.to_nat n)%nat /\ u_read env fd n w = (Returns (Some (take k (o_data f))),
    mkworld (<[fd := mkofile (drop k (o_data f)) (o_stat f)]> (w_in w)) (S (w_reads w)) (w_writes w) (w_calls w) (w_out w)).
Proof.
  intros Hd Hn. unfold u_read. rewrite Hd. destruct (ki_avail _ K (w_reads w)) as [a ->].
  exists (S a `min` Z.to_nat n)%nat. split; [lia|reflexivity].
Qed.
End run.

(** a literal format: [l] is what it writes *)
Ltac run_printf K :=
  apply runs_emitted; intros ?; unfold printf, fprintf;
  repeat match goal with |- context [bytes_of_string ?t] => let l := eval vm_compute in (bytes_of_string t) in change (bytes_of_string t) with l end;
  run_format (kind_open _ K); repeat f_equal; rewrite <-?app_assoc; reflexivity.

Definition cannot_open (prog : string) (path : list Z) : list Z := bytes_of_string prog ++ bytes_of_string ": cannot open " ++ path ++ [10].

(** * cat *)

Section cat.
Context (env : kernel_env).
Hypothesis K : kind env.

Lemma cat_runs v fd f : v.1 !! fd = Some f ->
  runs v (cat env fd) (Returns tt) (out_bytes 1 (o_data f)) (<[fd := mkofile [] (o_stat f)]> v.1, v.2).
Proof.
  intros Hf. unfold cat. apply (read_loop_runs fd (cat_body env fd) (fun i _ => i) (out_bytes 1)); try done.
  { intros l l'. apply map_app. }
  intros [] w [data st] Hd. destruct (read_run env K fd 512 _ w Hd ltac:(lia)) as (k & Hk & E). cbn [o_data o_stat] in *.
  unfold cat_body. destruct data as [|c data].
  { rewrite take_nil, drop_nil in E. eexists k, _, _. split; [lia|]. rewrite take_nil, drop_nil. erewrite ubind_ret by exact E. cbn [out_bytes map]. rewrite app_nil_r. reflexivity. }
  erewrite ubind_ret by exact E. destruct (take k (c :: data)) as [|c' l] eqn:Et.
  { destruct k; [lia|discriminate Et]. }
  set (w1 := mkworld _ _ _ _ _). assert (length (c' :: l) <= 1024)%nat as Hl by (rewrite <-Et, length_take; lia).
  destruct (runs_write env K (w_in w1, w_calls w1) 1 (c' :: l) Hl w1 eq_refl eq_refl) as (r & wr & E1).
  exists k, r, wr. split; [lia|]. erewrite ubind_ret by exact E1. rewrite Z.eqb_refl. cbn [negb]. rewrite Et. reflexivity.
Qed.

Lemma cat_file_step path : cat_file env path =
  file_step env (fun p => fprintf env 2 "cat: cannot open %s\n" [AStr (Some p)]) (fun _ => cat env) path.
Proof. reflexivity. Qed.

Lemma cat_file_runs v path f : files env path = Some f -> runs v (cat_file env path) (Returns tt) (out_bytes 1 (o_data f)) v.
Proof. intros Hf. rewrite cat_file_step. apply (runs_step_file env K _ _ f); [done|]. intros fd. eapply runs_reads. intros v'. apply cat_runs. Qed.

Lemma cat_file_missing v path : files env path = None -> Forall byte path ->
  runs v (cat_file env path) (Exits 1) (out_bytes 2 (cannot_open "cat" path)) v.
Proof. intros Hf Hp. rewrite cat_file_step. apply (runs_step_missing env); [done|]. cbv beta. run_printf K. Qed.
End cat.

(** * wc *)

Definition blank (c : Z) : Prop := c ∈ BLANKS.
#[global] Instance blank_dec c : Decision (blank c) := _.

(** the pieces between blanks; the words are those that are not empty *)
Fixpoint fields (l : list Z) : list (list Z) :=
  match l with
  | [] => [[]]
  | c :: l' =>
      if decide (blank c) then [] :: fields l'
      else match fields l' with f :: fs => (c :: f) :: fs | [] => [[c]] end
  end.
Definition nonempty (f : list Z) : Prop := f <> [].
#[global] Instance nonempty_dec f : Decision (nonempty f) := _.
Definition words (l : list Z) : list (list Z) := filter nonempty (fields l).
Definition newlines (l : list Z) : list Z := filter (fun c => c = 10) l.

Lemma fields_cons l : exists f fs, fields l = f :: fs.
Proof.
  destruct l as [|c l]; cbn [fields]; [by eexists _, _|]. destruct (decide (blank c)); [by eexists _, _|].
  destruct (fields l); by eexists _, _.
Qed.

Lemma strchr_blank c : is_Some (strchr BLANKS c) <-> blank c.
Proof.
  rewrite strchr_in. unfold blank. rewrite list_elem_of_lookup. split.
  - intros (i & Hi & E). exists i. unfold char_at in E. destruct (BLANKS !! i) eqn:E'; [by rewrite <-E|].
    apply lookup_ge_None in E'. change (strlen BLANKS) with (length BLANKS) in Hi. lia.
  - intros (i & E). exists i. split; [exact (lookup_lt_Some _ _ _ E)|]. unfold char_at. by rewrite E.
Qed.

Record counted (l w c : Z) (b : bool) (data : list Z) (n : counts) : Prop := {
  co_l : n_l n = l + Z.of_nat (length (newlines data));
  co_w : n_w n = w + Z.of_nat (length (filter nonempty (if b then tail (fields data) else fields data)));
  co_c : n_c n = c + Z.of_nat (length data)
}.

(** the counters over any input *)
Lemma wc_fold data : forall n,
  0 <= n_l n -> 0 <= n_w n -> 0 <= n_c n -> n_l n <= n_c n -> n_w n <= n_c n -> n_c n + Z.of_nat (length data) < 2 ^ 31 ->
  counted (n_l n) (n_w n) (n_c n) (n_in n) data (foldl wc_char n data).
Proof.
  induction data as [|ch data IH]; intros [l w c b] Hl Hw Hc Hlc Hwc Hn; cbn [foldl n_l n_w n_c n_in] in *.
  { split; cbn [n_l n_w n_c length newlines filter fields]; [change (newlines []) with (@nil Z); cbn [length]; lia| |lia]. destruct b; [change (filter nonempty (tail [[]])) with (@nil (list Z))|change (filter nonempty [[]]) with (@nil (list Z))]; cbn [length]; lia. }
  rewrite length_cons in Hn. assert (forall x, 0 <= x -> x <= c -> s32 (x + 1) = x + 1) as Hs.
  { intros x H1 H2. apply signed_small; [lia|]. change (2 ^ (32 - 1)) with (2 ^ 31). lia. }
  set (l' := if ch =? 10 then l + 1 else l).
  assert (l' + Z.of_nat (length (newlines data)) = l + Z.of_nat (length (newlines (ch :: data)))) as El.
  { unfold l', newlines. rewrite filter_cons. destruct (Z.eqb_spec ch 10); [rewrite decide_True by done|rewrite decide_False by done]; cbn [length]; lia. }
  assert (0 <= l' <= c + 1) as Hl' by (unfold l'; destruct (ch =? 10); lia).
  assert ((if ch =? 10 then s32 (l + 1) else l) = l') as El' by (unfold l'; destruct (ch =? 10); [by apply Hs|done]).
  unfold wc_char at 2. cbn [n_l n_w n_c n_in]. rewrite El', (Hs c) by lia.
  destruct (fields_cons data) as (f & fs & Ef). cbn [fields].
  destruct (strchr BLANKS ch) as [i|] eqn:Eb.
  - assert (blank ch) as Hb by (apply strchr_blank; by eexists).
    destruct (IH (mkcounts l' w (c + 1) false)) as [I1 I2 I3]; cbn [n_l n_w n_c n_in] in *; [lia..|].
    split; [rewrite I1; lia| |rewrite I3, length_cons; lia]. rewrite I2. cbn [fields]. rewrite decide_True by done. destruct b; [done|].
    rewrite filter_cons, decide_False by (by intros []). done.
  - assert (~ blank ch) as Hb by (intros H; apply strchr_blank in H as [? H]; congruence).
    assert (forall n', n_l n' = l' -> n_c n' = c + 1 -> n_in n' = true -> n_w n' = (if b then w else w + 1) ->
      counted l w c b (ch :: data) (foldl wc_char n' data)) as Hgo.
    { intros [l1 w1 c1 b1]. cbn [n_l n_w n_c n_in]. intros -> -> -> ->.
      destruct (IH (mkcounts l' (if b then w else w + 1) (c + 1) true)) as [I1 I2 I3]; cbn [n_l n_w n_c n_in] in *; [destruct b; lia..|].
      split; [rewrite I1; lia| |rewrite I3, length_cons; lia]. rewrite I2. cbn [fields]. rewrite decide_False by done. rewrite Ef. cbn [tail].
      destruct b; [done|]. rewrite filter_cons, decide_True by done. cbn [length]. lia. }
    destruct b; cbn [negb]; [|rewrite Hs by lia]; by apply Hgo.
Qed.

(** the line of a file *)
Definition wc_report (name data : list Z) : list Z :=
  dec (Z.of_nat (length (newlines data))) ++ [32] ++ dec (Z.of_nat (length (words data))) ++ [32] ++
  dec (Z.of_nat (length data)) ++ [32] ++ name ++ [10].

Lemma filter_le {A} (P : A -> Prop) `{!forall x, Decision (P x)} (l : list A) : (length (filter P l) <= length l)%nat.
Proof. apply submseteq_length, sublist_submseteq, sublist_filter. Qed.

Lemma words_le data : (length (words data) <= length data)%nat.
Proof.
  assert ((length (filter nonempty (tail (fields data))) <= length data)%nat /\ (length (words data) <= length data)%nat) as [_ H]; [|exact H].
  unfold words. induction data as [|c data [I1 I2]]; [split; reflexivity|]. destruct (fields_cons data) as (f & fs & Ef).
  cbn [fields]. destruct (decide (blank c)).
  - rewrite (filter_cons _ []), decide_False by (by intros []). cbn [tail length]. lia.
  - rewrite Ef in *. cbn [tail] in *. rewrite filter_cons, decide_True by done. cbn [length]. lia.
Qed.

Section wc.
Context (env : kernel_env).
Hypothesis K : kind env.

Lemma wc_loop_runs v fd f n : v.1 !! fd = Some f ->
  runs v (read_loop fd (wc_body env fd) n) (Returns (foldl wc_char n (o_data f))) [] (<[fd := mkofile [] (o_stat f)]> v.1, v.2).
Proof.
  intros Hf. apply (read_loop_runs fd (wc_body env fd) (foldl wc_char) (fun _ => [])); try done.
  { intros i l l'. apply foldl_app. }
  intros i w [data st] Hd. destruct (read_run env K fd 512 _ w Hd ltac:(lia)) as (k & Hk & E). cbn [o_data o_stat] in *.
  eexists k, _, _. split; [lia|]. unfold wc_body. erewrite ubind_ret by exact E. rewrite app_nil_r. destruct data as [|c data].
  { rewrite take_nil, drop_nil. reflexivity. }
  destruct (take k (c :: data)) as [|c' l] eqn:Et; [destruct k; [lia|discriminate Et]|]. reflexivity.
Qed.

Lemma wc_runs v fd f name : v.1 !! fd = Some f -> Forall byte name -> Z.of_nat (length (o_data f)) < 2 ^ 31 ->
  runs v (wc env fd name) (Returns tt) (out_bytes 1 (wc_report name (o_data f))) (<[fd := mkofile [] (o_stat f)]> v.1, v.2).
Proof.
  intros Hf Hname Hlen. unfold wc. eapply runs_silent; [by apply wc_loop_runs|].
  destruct (wc_fold (o_data f) (mkcounts 0 0 0 false)) as [E1 E2 E3]; [cbn; lia..|]. cbn [n_l n_w n_c n_in] in *.
  rewrite E1, E2, E3, !Z.add_0_l. fold (words (o_data f)). unfold wc_report.
  assert (forall x, (x <= length (o_data f))%nat -> dec (s32 (Z.of_nat x)) = dec (Z.of_nat x)) as Hs.
  { intros x Hx. f_equal. apply signed_small; [lia|]. change (2 ^ (32 - 1)) with (2 ^ 31). lia. }
  rewrite <-(Hs (length (newlines (o_data f)))) by apply filter_le. rewrite <-(Hs (length (words (o_data f)))) by apply words_le.
  rewrite <-(Hs (length (o_data f))) by lia. run_printf K.
Qed.

Lemma wc_file_step path : wc_file env path =
  file_step env (fun p => printf env "wc: cannot open %s\n" [AStr (Some p)]) (fun p fd => wc env fd p) path.
Proof. reflexivity. Qed.

Lemma wc_file_runs v path f : files env path = Some f -> Forall byte path -> Z.of_nat (length (o_data f)) < 2 ^ 31 ->
  runs v (wc_file env path) (Returns tt) (out_bytes 1 (wc_report path (o_data f))) v.
Proof. intros Hf Hp Hl. rewrite wc_file_step. apply (runs_step_file env K _ _ f); [done|]. intros fd. eapply runs_reads. intros v' Hv. by apply wc_runs. Qed.

Lemma wc_file_missing v path : files env path = None -> Forall byte path ->
  runs v (wc_file env path) (Exits 1) (out_bytes 1 (cannot_open "wc" path)) v.
Proof. intros Hf Hp. rewrite wc_file_step. apply (runs_step_missing env); [done|]. cbv beta. run_printf K. Qed.
End wc.

(** * grep *)

Lemma grep_lines_rest fuel pattern : forall p out, (length (grep_lines fuel pattern p out).2 <= length p)%nat.
Proof.
  induction fuel as [|fuel IH]; intros p out; cbn [grep_lines]; [done|]. destruct (strchr p NL); [|done].
  etransitivity; [apply IH|]. rewrite length_drop. lia.
Qed.

Section grep.
Context (env : kernel_env).
Hypothesis K : kind env.

(** the loops over system calls do what the loops of UserGrep do *)
Lemma grep_print_runs pattern fuel : forall v p out out' rest, (length p < fuel)%nat -> (length p <= 1024)%nat ->
  grep_lines fuel pattern p out = (out', rest) ->
  exists o, out' = out ++ o /\ runs v (grep_print env fuel pattern p) (Returns rest) (out_bytes 1 o) v.
Proof.
  induction fuel as [|fuel IH]; intros v p out out' rest Hf Hl; [lia|]. cbn [grep_lines grep_print].
  destruct (strchr p NL) as [q|] eqn:Eq.
  2: { intros H. injection H as <- <-. exists []. split; [by rewrite app_nil_r|apply runs_ret]. }
  assert (0 < length p)%nat as Hp by (destruct p; [discriminate Eq|simpl; lia]). intros H.
  eapply (IH v) in H as (o & -> & H); [|rewrite length_drop; lia..].
  destruct (match_re pattern (take q p)).
  - exists (take (S q) p ++ o). split; [by rewrite <-app_assoc|]. unfold out_bytes at 1. rewrite map_app.
    eapply runs_bind; [|exact H]. eapply runs_last; [apply (runs_write env K); rewrite length_take; lia|apply runs_ret].
  - exists o. split; [done|]. eapply runs_silent; [apply runs_ret|exact H].
Qed.

Lemma grep_print_reads pattern fuel : forall p w, w_reads (grep_print env fuel pattern p w).2 = w_reads w.
Proof.
  induction fuel as [|fuel IH]; intros p w; cbn [grep_print]; [done|]. destruct (strchr p NL) as [q|]; [|done].
  destruct (match_re pattern (take q p)); [|exact (IH (drop (S q) p) w)].
  unfold ubind, u_write. destruct (room env (w_writes w)); cbn [uret]; unfold uret; rewrite IH; reflexivity.
Qed.

Lemma grep_loop_runs pattern fd base n : forall buf w f i out res, w_in w !! fd = Some f -> (length buf <= 1023)%nat ->
  w_reads w = (base + i)%nat ->
  grep_loop n (fun j => default 0%nat (avail env (base + j))) pattern buf (o_data f) i out = Some res ->
  exists o rest f' r wr, res = out ++ o /\ uwhile n (grep_body env pattern fd) buf w =
    (Returns rest, mkworld (<[fd := f']> (w_in w)) r wr (w_calls w) (w_out w ++ out_bytes 1 o)).
Proof.
  induction n as [|n IH]; intros buf w f i out res Hf Hb Hr H; [discriminate H|]. cbn [grep_loop uwhile] in *.
  destruct (ki_avail _ K (base + i)) as [a Ha]. cbv zeta in H. rewrite Ha in H. change (default 0%nat (Some a)) with a in H.
  set (k := (S a `min` (BUFSZ - length buf - 1))%nat) in *.
  assert (u_read env fd (Z.of_nat BUFSZ - Z.of_nat (length buf) - 1) w = (Returns (Some (take k (o_data f))),
    mkworld (<[fd := mkofile (drop k (o_data f)) (o_stat f)]> (w_in w)) (S (w_reads w)) (w_writes w) (w_calls w) (w_out w))) as E.
  { unfold u_read. rewrite Hf, Hr, Ha. replace (Z.to_nat _) with (BUFSZ - length buf - 1)%nat by (unfold BUFSZ in *; lia). reflexivity. }
  assert (take (k `min` length (o_data f)) (o_data f) = take k (o_data f)) as Et.
  { destruct (Nat.le_ge_cases k (length (o_data f))); [by rewrite Nat.min_l|]. by rewrite Nat.min_r, !take_ge by lia. }
  unfold grep_body at 1. destruct (decide (k `min` length (o_data f) = 0)%nat) as [E0|E0].
  - injection H as <-. rewrite E0 in Et. cbn [take] in Et. rewrite <-Et in E.
    erewrite ubind_ret by (erewrite ubind_ret by exact E; reflexivity). eexists [], buf, _, _, _. split; [by rewrite app_nil_r|].
    cbn [out_bytes map]. rewrite app_nil_r. reflexivity.
  - rewrite Et in H. assert (drop (k `min` length (o_data f)) (o_data f) = drop k (o_data f)) as Ed.
    { destruct (Nat.le_ge_cases k (length (o_data f))); [by rewrite Nat.min_l|]. by rewrite Nat.min_r, !drop_ge by lia. }
    rewrite Ed in H. set (buf1 := buf ++ take k (o_data f)) in *.
    assert (length buf1 <= 1023)%nat as Hb1 by (unfold buf1, k, BUFSZ; rewrite length_app, length_take; lia).
    destruct (grep_lines (S (length buf1)) pattern buf1 out) as [out1 rest] eqn:Eg.
    pose proof (grep_lines_rest (S (length buf1)) pattern buf1 out) as Hrest. rewrite Eg in Hrest. cbn [snd] in Hrest.
    set (w1 := mkworld _ _ _ _ _) in E.
    destruct (grep_print_runs pattern (S (length buf1)) (w_in w1, w_calls w1) buf1 out out1 rest) as (o & -> & Hp); [lia|lia|exact Eg|].
    destruct (Hp w1 eq_refl eq_refl) as (r1 & wr1 & E1).
    pose proof (grep_print_reads pattern (S (length buf1)) buf1 w1) as Hr1. rewrite E1 in Hr1. cbn [snd w_reads] in Hr1.
    assert (length (take k (o_data f)) <> 0)%nat as Hne by (rewrite length_take; exact E0).
    set (w2 := mkworld _ _ _ _ _) in E1.
    destruct (IH rest w2 (mkofile (drop k (o_data f)) (o_stat f)) (S i) (out ++ o) res) as (o2 & rest2 & f2 & r2 & wr2 & -> & E2); [| | |exact H|].
    + unfold w2, w1. cbn. apply lookup_insert_eq.
    + lia.
    + unfold w1 in Hr1. cbn in Hr1. unfold w2. cbn. lia.
    + exists (o ++ o2), rest2, f2, r2, wr2. split; [by rewrite app_assoc|]. rewrite (ubind_ret _ _ _ (inl rest) w2).
      2: { erewrite ubind_ret by exact E. destruct (take k (o_data f)) as [|c l] eqn:Etk; [done|]. cbv iota. fold buf1. erewrite ubind_ret by exact E1. reflexivity. }
      cbv iota. etransitivity; [exact E2|]. unfold w2, w1. cbn [w_in w_out w_calls fst snd]. unfold out_bytes. rewrite insert_insert_eq, map_app, app_assoc. reflexivity.
Qed.

(** a file grep can search: no NUL, and lines that fit its buffer *)
Definition searchable (data : list Z) : Prop := 0 ∉ data /\ Forall (fun l => (length l < BUFSZ - 1)%nat) (lines data).1.

Lemma grep_fd_reads pattern fd f : searchable (o_data f) ->
  reads (grep_fd env pattern fd) fd f tt (out_bytes 1 (grep_out pattern (lines (o_data f)).1)).
Proof.
  intros [H0 Hl] w Hf.
  destruct (grep_loop_runs pattern fd (w_reads w) (S (length (o_data f))) [] w f 0 [] (grep_out pattern (lines (o_data f)).1))
    as (o & rest & f' & r & wr & -> & E); [done|simpl; lia|lia| |].
  { rewrite grep_loop_run; [done|set_solver|done|done|lia]. }
  exists f', r, wr. unfold grep_fd. erewrite ubind_ret by (unfold read_loop, rounds; rewrite Hf; exact E). reflexivity.
Qed.

Lemma grep_file_step pattern path : grep_file env pattern path =
  file_step env (fun p => printf env "grep: cannot open %s\n" [AStr (Some p)]) (fun _ => grep_fd env pattern) path.
Proof. reflexivity. Qed.

Lemma grep_file_runs v pattern path f : files env path = Some f -> searchable (o_data f) ->
  runs v (grep_file env pattern path) (Returns tt) (out_bytes 1 (grep_out pattern (lines (o_data f)).1)) v.
Proof. intros Hf Hs. rewrite grep_file_step. apply (runs_step_file env K _ _ f); [done|]. intros fd. by apply grep_fd_reads. Qed.

Lemma grep_file_missing v pattern path : files env path = None -> Forall byte path ->
  runs v (grep_file env pattern path) (Exits 1) (out_bytes 1 (cannot_open "grep" path)) v.
Proof. intros Hf Hp. rewrite grep_file_step. apply (runs_step_missing env); [done|]. cbv beta. run_printf K. Qed.
End grep.

(** * Theorems *)

(** a program without arguments treats its standard input [f0], as [emit_in]
    says, the others their files *)
Definition main_out (env : kernel_env) (f0 : ofile) (emit_in : list Z -> list (Z * Z)) (emit : list Z -> list Z -> list (Z * Z))
  (msg : list Z -> list (Z * Z)) (paths : list (list Z)) : list (Z * Z) * Z :=
  match paths with [] => (emit_in (o_data f0), 0) | _ => files_out env emit msg paths end.

(** [m] exits with the status and the output of [on] *)
Definition exits_with (m : U unit) (w : world) (on : list (Z * Z) * Z) : Prop :=
  exists w', m w = (Exits on.2, w') /\ w_out w' = w_out w ++ on.1 /\ w_calls w' = w_calls w.

Lemma runs_exits v (m : U unit) w on v' : runs v m (Exits on.2) on.1 v' -> v = (w_in w, w_calls w) -> v'.2 = v.2 -> exits_with m w on.
Proof.
  intros H -> Hc. destruct (H w eq_refl eq_refl) as (r & wr & E). eexists. split; [exact E|]. split; [reflexivity|]. exact Hc.
Qed.

Lemma reads_exits (m : U unit) fd f w o : reads m fd f tt o -> w_in w !! fd = Some f -> exits_with (m ;;; uexit 0) w (o, 0).
Proof. intros H Hf. destruct (H w Hf) as (f' & r & wr & E). eexists. split; [erewrite ubind_ret by exact E; reflexivity|]. done. Qed.

(** [m_in] without arguments, [step] for each otherwise *)
Lemma main_exits env f0 (m_in : U unit) step emit_in emit msg (P : list Z -> Prop) w paths :
  w_in w !! 0 = Some f0 ->
  reads m_in 0 f0 tt (emit_in (o_data f0)) ->
  (forall v path f, P path -> files env path = Some f -> runs v (step path) (Returns tt) (emit path (o_data f)) v) ->
  (forall v path, P path -> files env path = None -> runs v (step path) (Exits 1) (msg path) v) ->
  Forall P paths ->
  exits_with (match paths with [] => m_in ;;; uexit 0 | _ => uforM paths step ;;; uexit 0 end) w (main_out env f0 emit_in emit msg paths).
Proof.
  intros Hf Hin Hs Hm HP. destruct paths as [|p paths]; [by eapply reads_exits|].
  eapply runs_exits; [eapply (files_runs env) with (P := P); eauto|done|done].
Qed.

Definition cat_result (env : kernel_env) (f0 : ofile) (paths : list (list Z)) : list (Z * Z) * Z :=
  main_out env f0 (out_bytes 1) (fun _ => out_bytes 1) (fun p => out_bytes 2 (cannot_open "cat" p)) paths.

(** cat copies its standard input, or its files one after the other, to its
    output, however much read and write transfer at a time, and stops with
    status 1 and a message at the first file it cannot open *)
Theorem cat_correct env f0 prog paths w : kind env -> w_in w !! 0 = Some f0 -> Forall (Forall byte) paths ->
  exits_with (cat_main env (prog :: paths)) w (cat_result env f0 paths).
Proof.
  intros K Hf Hp. assert (cat_main env (prog :: paths) =
    match paths with [] => cat env 0 ;;; uexit 0 | _ => uforM paths (cat_file env) ;;; uexit 0 end) as -> by (by destruct paths).
  eapply main_exits; [exact Hf| | | |exact Hp].
  - eapply runs_reads. intros v. by apply cat_runs.
  - intros v p f Hb E. by apply cat_file_runs.
  - intros v p Hb E. by apply cat_file_missing.
Qed.

Definition wc_result (env : kernel_env) (f0 : ofile) (paths : list (list Z)) : list (Z * Z) * Z :=
  main_out env f0 (fun d => out_bytes 1 (wc_report [] d)) (fun p d => out_bytes 1 (wc_report p d))
    (fun p => out_bytes 1 (cannot_open "wc" p)) paths.

(** its counters do not overflow *)
Definition countable_file (f : ofile) : Prop := Z.of_nat (length (o_data f)) < 2 ^ 31.
Definition wc_arg (env : kernel_env) (p : list Z) : Prop := Forall byte p /\ forall f, files env p = Some f -> countable_file f.

(** C16: wc prints for its standard input, or for each of its files, the decimal
    numbers of its newlines, of its words (the non-empty pieces between blanks)
    and of its bytes, and the name, however read splits the input, when each has
    less than 2^31 bytes and the reads do not fail; it stops with status 1 and a
    message at the first file it cannot open. *)
Theorem wc_correct env f0 prog paths w : kind env -> w_in w !! 0 = Some f0 -> countable_file f0 -> Forall (wc_arg env) paths ->
  exits_with (wc_main env (prog :: paths)) w (wc_result env f0 paths).
Proof.
  intros K Hf H0 Hp. assert (wc_main env (prog :: paths) =
    match paths with [] => wc env 0 [] ;;; uexit 0 | _ => uforM paths (wc_file env) ;;; uexit 0 end) as -> by (by destruct paths).
  eapply main_exits; [exact Hf| | | |exact Hp].
  - eapply runs_reads. intros v Hv. by apply wc_runs.
  - intros v p f [Hb Hc] E. apply wc_file_runs; [done|done|done|by apply Hc].
  - intros v p [Hb Hc] E. by apply wc_file_missing.
Qed.

(** a kernel that transfers at most seven bytes a read, and two files *)
Definition demo_tree (path : list Z) : option ofile :=
  if decide (path = bytes_of_string "a") then Some (mkofile (bytes_of_string "one two\nthree\nfour ") (Some (mkustat 2 5 19)))
  else if decide (path = bytes_of_string "d") then Some (mkofile (replicate 16 0 ++ 5 :: 0 :: 97 :: replicate 13 0 ++ 6 :: 0 :: 98 :: replicate 13 0) (Some (mkustat 1 1 48)))
  else if decide (path = bytes_of_string "d/a") then Some (mkofile [] (Some (mkustat 2 5 19)))
  else None.
Definition next_fd (m : gmap Z ofile) : Z := foldr Z.max 2 (elements (dom m)) + 1.
Definition demo_env (a : nat) : kernel_env := mkenv demo_tree (fun _ => Some a) (fun _ => Some 1024%nat) (fun _ => 0) next_fd.
Definition demo_world : world := mkworld {[0 := mkofile [] None]} 0 0 [] [].

Lemma foldr_max_le l x : x ∈ l -> x <= foldr Z.max 2 l.
Proof. induction l as [|y l IH]; intros H; [set_solver|]. cbn [foldr]. apply elem_of_cons in H as [->|H]; [lia|]. specialize (IH H). lia. Qed.
Lemma foldr_max_ge l : 2 <= foldr Z.max 2 l.
Proof. induction l as [|y l IH]; cbn [foldr]; lia. Qed.

Lemma demo_kind a : kind (demo_env a).
Proof.
  split; cbn.
  - intros _. by eexists.
  - intros _. eexists. split; [done|lia].
  - intros m. unfold next_fd. split; [pose proof (foldr_max_ge (elements (dom m))); lia|]. apply not_elem_of_dom. intros H.
    apply elem_of_elements, foldr_max_le in H. lia.
Qed.

Lemma bytes_check l : forallb (fun c => (0 <=? c) && (c <? 256)) l = true -> Forall byte l.
Proof. intros H. apply Forall_forall. intros c Hc. rewrite forallb_forall in H. specialize (H c). rewrite <-list_elem_of_In in H. specialize (H Hc). unfold byte. lia. Qed.

Lemma wc_correct_witness :
  exists w', wc_main (demo_env 6) [bytes_of_string "wc"; bytes_of_string "a"; bytes_of_string "x"] demo_world = (Exits 1, w') /\
    w_out w' = out_bytes 1 (bytes_of_string "2 4 19 a\nwc: cannot open x\n").
Proof.
  destruct (wc_correct (demo_env 6) (mkofile [] None) (bytes_of_string "wc") [bytes_of_string "a"; bytes_of_string "x"] demo_world)
    as (w' & E & Ho & _); [apply demo_kind|vm_compute; reflexivity|vm_compute; reflexivity| |].
  - repeat (constructor; [split; [apply bytes_check; reflexivity|intros f Hf; vm_compute in Hf; (injection Hf as <-; vm_compute; reflexivity) || discriminate Hf]|]). constructor.
  - exists w'. split; [exact E|]. rewrite Ho. vm_compute. reflexivity.
Defined.

(** what grep does with its files *)
Definition grep_result (env : kernel_env) (f0 : ofile) (pattern : list Z) (paths : list (list Z)) : list (Z * Z) * Z :=
  main_out env f0 (fun d => out_bytes 1 (grep_out pattern (lines d).1)) (fun _ d => out_bytes 1 (grep_out pattern (lines d).1))
    (fun p => out_bytes 1 (cannot_open "grep" p)) paths.
Definition grep_arg (env : kernel_env) (p : list Z) : Prop := Forall byte p /\ forall f, files env p = Some f -> searchable (o_data f).

(** C15: grep prints exactly the lines of its standard input, or of its files one
    after the other, that match the pattern, in order and whatever amounts read
    returns, when they have no NUL and no line is longer than its buffer (an
    unfinished last line is not looked at); it stops with status 1 and a message
    at the first file it cannot open.  All its loops end. *)
Theorem grep_main_correct env f0 prog pattern paths w : kind env -> w_in w !! 0 = Some f0 -> searchable (o_data f0) ->
  Forall (grep_arg env) paths -> exits_with (grep_main env (prog :: pattern :: paths)) w (grep_result env f0 pattern paths).
Proof.
  intros K Hf H0 Hp. assert (grep_main env (prog :: pattern :: paths) =
    match paths with [] => grep_fd env pattern 0 ;;; uexit 0 | _ => uforM paths (grep_file env pattern) ;;; uexit 0 end) as -> by (by destruct paths).
  eapply main_exits; [exact Hf| | | |exact Hp].
  - by apply grep_fd_reads.
  - intros v p f [Hb Hc] E. apply grep_file_runs; [done|done|by apply Hc].
  - intros v p [Hb Hc] E. by apply grep_file_missing.
Qed.

Lemma grep_main_correct_witness :
  exists w', grep_main (demo_env 6) (map bytes_of_string ["grep"; "t.*e"; "a"; "x"]) demo_world = (Exits 1, w') /\
    w_out w' = out_bytes 1 (bytes_of_string "three\ngrep: cannot open x\n").
Proof.
  destruct (grep_main_correct (demo_env 6) (mkofile [] None) (bytes_of_string "grep") (bytes_of_string "t.*e")
    [bytes_of_string "a"; bytes_of_string "x"] demo_world) as (w' & E & Ho & _);
    [apply demo_kind|vm_compute; reflexivity|split; [apply not_elem_of_nil|constructor]| |].
  - constructor; [|constructor; [|constructor]]; (split; [apply bytes_check; reflexivity|]); intros f Hf; vm_compute in Hf; [|discriminate Hf].
    injection Hf as <-. split; [|vm_compute; repeat constructor]. intros H. apply list_elem_of_In in H. vm_compute in H. intuition discriminate.
  - exists w'. split; [exact E|]. rewrite Ho. vm_compute. reflexivity.
Defined.
