(* ===== verification/UserLsSpec.v ===== *)
(** ls.c: what it prints for a file, a directory and a path it cannot open;
    rm.c and mkdir.c: the calls they make. *)

From stdpp Require Import base gmap strings pretty numbers list.
From S2P Require Import Prelude KState KString UserLib UserGrep UserPrintf UserUtil UserUtilSpec.

(** * fmtname *)

(** the part of [path] after its last slash *)
Definition last_part (path : list Z) : list Z := foldl (fun name c => if c =? 47 then [] else name ++ [c]) [] path.

(** filled up with blanks to the length of a directory entry *)
Definition pad (name : list Z) : list Z := name ++ replicate (14 - length name) 32.

Lemma last_part_plain l : 47 ∉ l -> forall name, foldl (fun name c => if c =? 47 then [] else name ++ [c]) name l = name ++ l.
Proof.
  induction l as [|c l IH]; intros H name; [by rewrite app_nil_r|]. cbn [foldl]. rewrite (proj2 (Z.eqb_neq c 47)) by set_solver.
  rewrite IH by set_solver. by rewrite <-app_assoc.
Qed.

Lemma last_part_slash d name : 47 ∉ name -> last_part (d ++ 47 :: name) = name.
Proof. intros H. unfold last_part. rewrite foldl_app. cbn [foldl]. change (47 =? 47) with true. cbv iota. by rewrite last_part_plain. Qed.

Lemma name_start_ok path n : (n <= length path)%nat ->
  (name_start path n <= S n)%nat /\ (forall i, (name_start path n <= i <= n)%nat -> char_at path i <> 47) /\
  (name_start path n = 0%nat \/ exists j, name_start path n = S j /\ char_at path j = 47).
Proof.
  induction n as [|n IH]; intros Hn; cbn [name_start]; match goal with |- context [?c =? 47] => destruct (Z.eqb_spec c 47) as [E|E]; [split_and!; [lia|lia|right; by eexists]|] end.
  - split_and!; [lia| |by left]. intros i Hi. by replace i with 0%nat by lia.
  - destruct IH as (I1 & I2 & I3); [lia|]. split_and!; [lia| |done]. intros i Hi. destruct (decide (i = S n)) as [->|]; [done|]. apply I2. lia.
Qed.

Lemma strlen_full l : 0 ∉ l -> strlen l = length l.
Proof.
  induction l as [|c l IH]; intros H; [done|]. cbn [strlen length]. rewrite (proj2 (Z.eqb_neq c 0)) by set_solver. f_equal. apply IH. set_solver.
Qed.

Lemma fmtname_ok path : 0 ∉ path -> fmtname path = pad (last_part path).
Proof.
  intros H0. unfold fmtname. rewrite (strlen_full path H0). destruct (name_start_ok path (length path) (le_n _)) as (I1 & I2 & I3).
  set (r := name_start path (length path)) in *. assert (r <= length path)%nat as Hr.
  { destruct I3 as [->|(j & -> & Hj)]; [lia|]. destruct (decide (j = length path)) as [->|]; [|lia]. by rewrite char_at_big in Hj by lia. }
  assert (47 ∉ drop r path) as Hs.
  { intros (i & Hi)%list_elem_of_lookup. rewrite lookup_drop in Hi. apply (I2 (r + i)%nat); [apply lookup_lt_Some in Hi; lia|].
    unfold char_at. by rewrite Hi. }
  assert (last_part path = drop r path) as ->.
  { destruct I3 as [E|(j & Ej & Hj)]; [rewrite E in *; exact (last_part_plain path Hs [])|]. unfold char_at in Hj.
    destruct (path !! j) as [c|] eqn:E; [|discriminate Hj]. simpl in Hj. subst c. rewrite <-(take_drop j path) at 1.
    rewrite (drop_S path 47 j E), <-Ej. by apply last_part_slash. }
  assert (0 ∉ drop r path) as H0' by (intros H; apply H0; rewrite <-(take_drop r path), elem_of_app; by right).
  rewrite (strlen_full _ H0'). unfold pad. change (Z.to_nat DIRSIZ) with 14%nat. rewrite (take_ge _ _ (le_n _)).
  destruct (Nat.leb_spec 14 (length (drop r path))); [|done]. replace (14 - length (drop r path))%nat with 0%nat by lia. by rewrite app_nil_r.
Qed.

Lemma cstr_no_nul l : 0 ∉ cstr l.
Proof.
  intros (i & Hi)%list_elem_of_lookup. unfold cstr in Hi. pose proof (lookup_lt_Some _ _ _ Hi) as Hl. rewrite length_take in Hl.
  rewrite lookup_take, decide_True in Hi by lia. apply (strlen_before l i); [lia|]. unfold char_at. by rewrite Hi.
Qed.

Lemma fmtname_bytes path : Forall byte path -> Forall byte (fmtname path).
Proof.
  intros H. unfold fmtname. assert (Forall byte (drop (name_start path (strlen path)) path)) as Hd by (by apply Forall_drop).
  destruct (_ <=? _)%nat; [done|]. apply Forall_app. split; [by apply Forall_take|]. apply Forall_replicate. by split.
Qed.

(** * ls *)

(** a read of a directory entry is complete *)
Definition steady (env : kernel_env) : Prop := forall i a, avail env i = Some a -> (15 <= a)%nat.

(** the line of a path *)
Definition ls_text (path : list Z) (st : ustat) : list Z :=
  pad (last_part path) ++ [32] ++ dec (s32 (u_type st)) ++ [32] ++ dec (s32 (u_ino st)) ++ [32] ++ dec (s32 (u_size st)) ++ [10].

(** the whole entries of a directory *)
Fixpoint chunks (n : nat) (data : list Z) : list (list Z) :=
  match n with
  | O => []
  | S n' => if (length data <? 16)%nat then [] else take 16 data :: chunks n' (drop 16 data)
  end.

Lemma s32_s32 x : s32 (s32 x) = s32 x.
Proof. apply signed_small; [lia|]. apply signed_range. lia. Qed.

Section ls.
Context (env : kernel_env).
Hypothesis K : kind env.

Definition stat_of (path : list Z) : option ustat := files env path ≫= o_stat.

Definition entry_out (path de : list Z) : list (Z * Z) :=
  if zget de 0 + 256 * zget de 1 =? 0 then []
  else
    let p := path ++ 47 :: cstr (take 14 (drop 2 de)) in
    out_bytes 1 match stat_of p with
                | None => bytes_of_string "ls: cannot stat " ++ p ++ [10]
                | Some st => ls_text p st
                end.

Definition ls_out (path : list Z) : list (Z * Z) :=
  match files env path with
  | None => out_bytes 2 (cannot_open "ls" path)
  | Some f =>
      match o_stat f with
      | None => out_bytes 2 (bytes_of_string "ls: cannot stat " ++ path ++ [10])
      | Some st =>
          if decide (u_type st = T_DEVICE \/ u_type st = T_FILE) then out_bytes 1 (ls_text path st)
          else if decide (u_type st = T_DIR) then
            if decide (496 < length path)%nat then out_bytes 1 (bytes_of_string "ls: path too long\n")
            else concat (map (entry_out path) (chunks (length (o_data f)) (o_data f)))
          else []
      end
  end.

Lemma stat_runs v n : runs v (stat env n) (Returns (stat_of n)) [] v.
Proof.
  unfold stat, stat_of. destruct (files env n) as [f|] eqn:Hf.
  - destruct (ki_fresh _ K v.1) as [Hp Hn]. eapply runs_silent; [by apply (runs_open env)|]. rewrite (proj2 (Z.ltb_ge _ 0) Hp).
    eapply runs_silent; [apply runs_fstat, lookup_insert_eq|]. eapply runs_silent; [eapply runs_close, lookup_insert_eq|].
    cbn [fst snd]. rewrite delete_insert_id by done. destruct v. apply runs_ret.
  - eapply runs_silent; [by apply (runs_open_missing env)|]. apply runs_ret.
Qed.

Lemma ls_line_runs v path st : Forall byte path -> 0 ∉ path -> runs v (ls_line env path st) (Returns tt) (out_bytes 1 (ls_text path st)) v.
Proof.
  intros Hp%fmtname_bytes H0. unfold ls_line, ls_text. rewrite <-fmtname_ok by done. clear H0. replace (dec (s32 (u_size st))) with (dec (s32 (s32 (u_size st)))) by (by rewrite s32_s32). generalize dependent (fmtname path). intros name Hp. run_printf K.
Qed.

Hypothesis Hsteady : steady env.

Lemma read_whole v fd f : v.1 !! fd = Some f -> runs v (u_read env fd 16) (Returns (Some (take 16 (o_data f)))) []
  (<[fd := mkofile (drop 16 (o_data f)) (o_stat f)]> v.1, v.2).
Proof.
  intros Hf w Hw Hc. rewrite <-Hw in Hf. unfold u_read. rewrite Hf. destruct (ki_avail _ K (w_reads w)) as [a Ha]. rewrite Ha. specialize (Hsteady _ _ Ha).
  replace (S a `min` Z.to_nat 16)%nat with 16%nat by lia. eexists _, _. rewrite app_nil_r, Hw, Hc. reflexivity.
Qed.

Lemma ls_body_runs v path fd f : v.1 !! fd = Some f -> Forall byte path -> 0 ∉ path -> Forall byte (o_data f) -> (16 <= length (o_data f))%nat ->
  runs v (ls_body env path fd tt) (Returns (inl tt)) (entry_out path (take 16 (o_data f)))
    (<[fd := mkofile (drop 16 (o_data f)) (o_stat f)]> v.1, v.2).
Proof.
  intros Hf Hp H0 Hb Hl. unfold ls_body. eapply runs_silent; [by apply read_whole|]. cbv iota. set (de := take 16 (o_data f)).
  assert (length de = 16)%nat as -> by (unfold de; rewrite length_take; lia). change (negb (16 =? 16)%nat) with false. cbv iota. unfold entry_out.
  destruct (_ =? 0); [apply runs_ret|]. change (Z.to_nat DIRSIZ) with 14%nat. set (p := path ++ _).
  assert (Forall byte p) as Hpb.
  { apply Forall_app. split; [done|]. constructor; [by split|]. apply Forall_take, Forall_take, Forall_drop, Forall_take. exact Hb. }
  assert (0 ∉ p) as Hp0 by (unfold p; rewrite elem_of_app, elem_of_cons; pose proof (cstr_no_nul (take 14 (drop 2 de))); intros [Hx|[Hx|Hx]]; [done|discriminate Hx|done]).
  clearbody p. eapply runs_silent; [apply stat_runs|]. cbv beta. destruct (stat_of p) as [st|].
  - eapply runs_last; [by apply ls_line_runs|apply runs_ret].
  - eapply runs_last; [|apply runs_ret]. run_printf K.
Qed.

Lemma ls_body_end v path fd f : v.1 !! fd = Some f -> (length (o_data f) < 16)%nat ->
  runs v (ls_body env path fd tt) (Returns (inr tt)) [] (<[fd := mkofile (drop 16 (o_data f)) (o_stat f)]> v.1, v.2).
Proof.
  intros Hf Hl. unfold ls_body. eapply runs_silent; [by apply read_whole|]. cbv iota. rewrite take_ge by lia.
  rewrite (proj2 (Nat.eqb_neq _ 16)) by lia. apply runs_ret.
Qed.

Lemma ls_loop_runs path fd n : forall v f, v.1 !! fd = Some f -> Forall byte path -> 0 ∉ path -> Forall byte (o_data f) -> (length (o_data f) <= n)%nat ->
  exists f', runs v (uwhile (S n) (ls_body env path fd) tt) (Returns tt) (concat (map (entry_out path) (chunks n (o_data f)))) (<[fd := f']> v.1, v.2).
Proof.
  assert (forall n v f, v.1 !! fd = Some f -> (length (o_data f) < 16)%nat ->
    exists f', runs v (uwhile (S n) (ls_body env path fd) tt) (Returns tt) [] (<[fd := f']> v.1, v.2)) as Hend.
  { intros m v f Hf Hl. eexists. cbn [uwhile]. eapply runs_silent; [by apply ls_body_end|]. apply runs_ret. }
  induction n as [|n IH]; intros v f Hf Hp H0 Hb Hl; cbn [chunks]; [apply Hend with f; [done|lia]|].
  destruct (Nat.ltb_spec (length (o_data f)) 16) as [Hs|Hs]; [by apply Hend with f|].
  destruct (IH (<[fd := mkofile (drop 16 (o_data f)) (o_stat f)]> v.1, v.2) (mkofile (drop 16 (o_data f)) (o_stat f))) as (f' & H);
    [apply lookup_insert_eq|done|done|by apply Forall_drop|cbn [o_data]; rewrite length_drop; lia|].
  exists f'. cbn [fst snd o_data map concat] in *. rewrite insert_insert_eq in H. change (uwhile (S (S n)) (ls_body env path fd) tt) with
    (ubind (ls_body env path fd tt) (fun r => match r with inl i => uwhile (S n) (ls_body env path fd) i | inr x => uret x end)).
  eapply runs_bind; [by apply ls_body_runs|]. exact H.
Qed.

Lemma ls_dir_runs v path fd f : v.1 !! fd = Some f -> Forall byte path -> 0 ∉ path -> Forall byte (o_data f) ->
  exists f', runs v (read_loop fd (ls_body env path fd) tt) (Returns tt)
    (concat (map (entry_out path) (chunks (length (o_data f)) (o_data f)))) (<[fd := f']> v.1, v.2).
Proof.
  intros Hf Hp H0 Hb. destruct (ls_loop_runs path fd (length (o_data f)) v f Hf Hp H0 Hb (le_n _)) as (f' & H). exists f'.
  intros w Hw Hc. unfold read_loop, rounds. rewrite Hw, Hf. exact (H w Hw Hc).
Qed.

(** the paths of the arguments: strings, of files with bytes in them *)
Definition listable (path : list Z) : Prop :=
  Forall byte path /\ 0 ∉ path /\ forall f, files env path = Some f -> Forall byte (o_data f).

Lemma ls_runs v path : listable path -> runs v (ls env path) (Returns tt) (ls_out path) v.
Proof.
  intros (Hp & H0 & Hd). unfold ls, ls_out. destruct (files env path) as [f|] eqn:Hf.
  2: { eapply runs_silent; [by apply (runs_open_missing env)|]. change (-1 <? 0) with true. cbv iota. run_printf K. }
  specialize (Hd f eq_refl). destruct (ki_fresh _ K v.1) as [Hpos Hn]. set (fd := fresh env v.1) in *.
  eapply runs_silent; [by apply (runs_open env)|]. fold fd. rewrite (proj2 (Z.ltb_ge fd 0) Hpos).
  eapply runs_silent; [apply runs_fstat, lookup_insert_eq|].
  assert (forall f', runs (<[fd := f']> v.1, v.2) (u_close fd ;;; uret tt) (Returns tt) [] v) as Hclose.
  { intros f'. eapply runs_silent; [eapply runs_close, lookup_insert_eq|]. cbn [fst snd]. rewrite delete_insert_id by done. destruct v. apply runs_ret. }
  destruct (o_stat f) as [st|]; [|eapply runs_last; [run_printf K|apply Hclose]].
  destruct (Z.eqb_spec (u_type st) T_DEVICE); [rewrite decide_True by (by left)|destruct (Z.eqb_spec (u_type st) T_FILE); [rewrite decide_True by (by right)|rewrite decide_False by tauto]];
    cbn [orb]; [eapply runs_last; [by apply ls_line_runs|apply Hclose]..|].
  destruct (Z.eqb_spec (u_type st) T_DIR); [rewrite decide_True by done|rewrite decide_False by done; eapply runs_silent; [apply runs_ret|apply Hclose]].
  rewrite (strlen_full path H0). change DIRSIZ with 14. destruct (Z.ltb_spec 512 (Z.of_nat (length path) + 1 + 14 + 1)).
  - rewrite decide_True by lia. eapply runs_last; [run_printf K|apply Hclose].
  - rewrite decide_False by lia. destruct (ls_dir_runs (<[fd := f]> v.1, v.2) path fd f) as (f' & H1); [apply lookup_insert_eq|done|done|done|].
    cbn [fst snd] in H1. rewrite insert_insert_eq in H1. eapply runs_last; [exact H1|apply Hclose].
Qed.
End ls.

(** * rm and mkdir *)

(** the calls [c p] made for the paths, when [i] calls came before, and the
    message: up to the first that fails *)
Fixpoint until_failure (env : kernel_env) (c : list Z -> call) (msg : list Z -> list Z) (i : nat) (paths : list (list Z)) : list call * list Z :=
  match paths with
  | [] => ([], [])
  | p :: rest =>
      if answer env i <? 0 then ([c p], msg p)
      else let '(cs, o) := until_failure env c msg (S i) rest in (c p :: cs, o)
  end.

Section until.
Context (env : kernel_env).
Hypothesis K : kind env.

Lemma until_runs c msg (loop : list (list Z) -> U unit) (complain : list Z -> U unit) :
  loop [] = uret tt ->
  (forall p rest, loop (p :: rest) = let? r := u_call env (c p) in if r <? 0 then complain p else loop rest) ->
  (forall v p, Forall byte p -> runs v (complain p) (Returns tt) (out_bytes 2 (msg p)) v) ->
  forall paths v, Forall (Forall byte) paths ->
  let '(cs, o) := until_failure env c msg (length v.2) paths in runs v (loop paths) (Returns tt) (out_bytes 2 o) (v.1, v.2 ++ cs).
Proof.
  intros E0 E1 Hc. induction paths as [|p rest IH]; intros v Hp; cbn [until_failure].
  { rewrite E0, app_nil_r. destruct v. apply runs_ret. }
  apply Forall_cons in Hp as [Hb Hp]. rewrite E1. destruct (answer env (length v.2) <? 0) eqn:Ea.
  - eapply runs_silent; [apply runs_call|]. rewrite Ea. by apply Hc.
  - specialize (IH (v.1, v.2 ++ [c p]) Hp). cbn [fst snd] in IH. rewrite length_app, Nat.add_1_r in IH.
    destruct (until_failure env c msg (S (length v.2)) rest) as [cs o]. eapply runs_silent; [apply runs_call|]. rewrite Ea.
    rewrite <-app_assoc in IH. exact IH.
Qed.

Definition rm_message (p : list Z) : list Z := bytes_of_string "rm: " ++ p ++ bytes_of_string " failed to delete\n".
Definition mkdir_message (p : list Z) : list Z := bytes_of_string "mkdir: " ++ p ++ bytes_of_string " failed to create\n".

Lemma rm_args_runs v paths : Forall (Forall byte) paths ->
  let '(cs, o) := until_failure env CUnlink rm_message (length v.2) paths in
  runs v (rm_args env paths) (Returns tt) (out_bytes 2 o) (v.1, v.2 ++ cs).
Proof.
  apply (until_runs CUnlink rm_message (rm_args env) (fun a => fprintf env 2 "rm: %s failed to delete\n" [AStr (Some a)])); [done|done|].
  intros v' p Hp. run_printf K.
Qed.

Lemma mkdir_args_runs v paths : Forall (Forall byte) paths ->
  let '(cs, o) := until_failure env CMkdir mkdir_message (length v.2) paths in
  runs v (mkdir_args env paths) (Returns tt) (out_bytes 2 o) (v.1, v.2 ++ cs).
Proof.
  apply (until_runs CMkdir mkdir_message (mkdir_args env) (fun a => fprintf env 2 "mkdir: %s failed to create\n" [AStr (Some a)])); [done|done|].
  intros v' p Hp. run_printf K.
Qed.
End until.

(** * Theorems *)

Definition ls_targets (paths : list (list Z)) : list (list Z) := match paths with [] => [bytes_of_string "."] | _ => paths end.

(** C17: ls prints for each argument (the current directory without one) the line
    of the file, or a line for each entry in use of the directory, in order: the
    last part of the path filled up to 14 characters, type, inode number and
    size in decimal; a message for a path it cannot open, for an entry it cannot
    stat and for a directory path that does not fit its buffer.  It goes on
    after each of them, leaves every descriptor closed and exits with 0. *)
Theorem ls_correct env prog paths w : kind env -> steady env -> Forall (listable env) (ls_targets paths) ->
  exists w', ls_main env (prog :: paths) w = (Exits 0, w') /\ w_out w' = w_out w ++ concat (map (ls_out env) (ls_targets paths)) /\
    w_in w' = w_in w /\ w_calls w' = w_calls w.
Proof.
  intros K Hs Hl. assert (forall v l, Forall (listable env) l -> runs v (uforM l (ls env)) (Returns tt) (concat (map (ls_out env) l)) v) as Hall.
  { intros v l. induction 1 as [|p l Hp _ IH]; cbn [uforM map concat]; [apply runs_ret|]. eapply runs_bind; [by apply ls_runs|exact IH]. }
  assert (runs (w_in w, w_calls w) (ls_main env (prog :: paths)) (Exits 0) (concat (map (ls_out env) (ls_targets paths))) (w_in w, w_calls w)) as H.
  { destruct paths as [|p paths].
    - cbn [ls_targets map concat] in *. apply Forall_cons in Hl as [Hp _]. rewrite app_nil_r. eapply runs_last; [by apply ls_runs|apply runs_exit].
    - eapply runs_last; [by apply Hall|apply runs_exit]. }
  destruct (H w eq_refl eq_refl) as (r & wr & E). eexists. split; [exact E|]. done.
Qed.

Lemma ls_correct_witness :
  exists w', ls_main (demo_env 15) (map bytes_of_string ["ls"; "d"; "x"; "d/a"]) demo_world = (Exits 0, w') /\
    w_out w' = out_bytes 1 (bytes_of_string "a              2 5 19\nls: cannot stat d/b\n") ++
               out_bytes 2 (bytes_of_string "ls: cannot open x\n") ++ out_bytes 1 (bytes_of_string "a              2 5 19\n").
Proof.
  destruct (ls_correct (demo_env 15) (bytes_of_string "ls") [bytes_of_string "d"; bytes_of_string "x"; bytes_of_string "d/a"] demo_world)
    as (w' & E & Ho & _); [apply demo_kind|intros i a Ha; injection Ha as <-; lia| |].
  - cbn [ls_targets]. repeat (constructor; [split; [apply bytes_check; reflexivity|split]; [intros H; apply list_elem_of_In in H; vm_compute in H; intuition discriminate|]; intros f Hf; vm_compute in Hf; (injection Hf as <-; apply bytes_check; reflexivity) || discriminate Hf|]). constructor.
  - exists w'. split; [exact E|]. rewrite Ho. vm_compute. reflexivity.
Defined.

(** rm unlinks its arguments in order up to the first that fails, for which it
    prints a message; it exits with 0 even then *)
Theorem rm_correct env prog p paths w : kind env -> Forall (Forall byte) (p :: paths) ->
  let '(cs, o) := until_failure env CUnlink rm_message (length (w_calls w)) (p :: paths) in
  exists w', rm_main env (prog :: p :: paths) w = (Exits 0, w') /\ w_calls w' = w_calls w ++ cs /\ w_out w' = w_out w ++ out_bytes 2 o.
Proof.
  intros K Hp. pose proof (rm_args_runs env K (w_in w, w_calls w) (p :: paths) Hp) as H. cbn [fst snd] in H.
  destruct (until_failure _ _ _ _ _) as [cs o]. destruct (H w eq_refl eq_refl) as (r & wr & E). eexists. split; [|split].
  - unfold rm_main. change (length (prog :: p :: paths) <? 2)%nat with false. cbv iota. change (drop 1 (prog :: p :: paths)) with (p :: paths).
    erewrite ubind_ret by exact E. reflexivity.
  - reflexivity.
  - reflexivity.
Qed.
