(* ===== verification/Sh.v ===== *)
(** user/sh.c: the parser of the shell and what it runs.

    The line is a list of bytes [buf], a [char*] into it is an index, [es] the
    index of its end.  A parsing function has the position [*ps] as its state;
    the messages of panic end the program.  malloc succeeds.  While parseexec
    fills the arguments of an exec node, [ret] is that node under the
    redirections found so far, in their order: the model keeps the two apart
    and puts them together at the end. *)

From stdpp Require Import base gmap strings numbers list.
From S2P Require Import Prelude KState UserLib.

Definition MAXARGS : nat := 10.

(** a string of the line: its first byte and the byte after its last *)
Definition range : Type := nat * nat.

(** [struct cmd] and the structs it is cast to; the parser's strings are
    ranges of the line, the strings runcmd sees are the bytes up to a NUL *)
Inductive cmd_of (str : Type) :=
  | EXEC (argv : list str)
  | REDIR (c : cmd_of str) (file : str) (mode fd : Z)
  | PIPE (left right : cmd_of str)
  | LIST (left right : cmd_of str)
  | BACK (c : cmd_of str).
Arguments EXEC {str}.
Arguments REDIR {str}.
Arguments PIPE {str}.
Arguments LIST {str}.
Arguments BACK {str}.
Definition cmd : Type := cmd_of range.

Record redir := mkredir { rd_file : range; rd_mode : Z; rd_fd : Z }.
Definition redircmd (c : cmd) (r : redir) : cmd := REDIR c (rd_file r) (rd_mode r) (rd_fd r).
Definition pipecmd (l r : cmd) : cmd := PIPE l r.
Definition listcmd (l r : cmd) : cmd := LIST l r.
Definition backcmd (c : cmd) : cmd := BACK c.

Definition SH (A : Type) : Type := M nat A.
Definition sh_panic {A} (msg : string) : SH A := fun s => Panic msg s.

Definition whitespace : list Z := [32; 9; 13; 10; 11].
Definition symbols : list Z := [60; 124; 62; 38; 59; 40; 41].
Definition member (set : list Z) (c : Z) : bool := bool_decide (is_Some (strchr set c)).

Definition BAR : Z := 124.
Definition LPAR : Z := 40.
Definition RPAR : Z := 41.
Definition SEMI : Z := 59.
Definition AMP : Z := 38.
Definition LESS : Z := 60.
Definition GREATER : Z := 62.
(** the results of gettoken for [>>] and for a word *)
Definition PLUS : Z := 43.
Definition WORD : Z := 97.

(** [while(s < es && p holds of the byte) s++], [n] is [es - s] *)
Fixpoint span (n : nat) (p : Z -> bool) (buf : list Z) (s : nat) : nat :=
  match n with
  | O => s
  | S n' => if p (char_at buf s) then span n' p buf (S s) else s
  end.

Section parser.
Context (buf : list Z) (es : nat).

Definition skip_ws (s : nat) : nat := span (es - s) (member whitespace) buf s.
Definition word_char (c : Z) : bool := negb (member whitespace c) && negb (member symbols c).

(** the token at [s], its end *)
Definition token_at (s : nat) : Z * nat :=
  let c := char_at buf s in
  if c =? 0 then (0, s)
  else if (c =? BAR) || (c =? LPAR) || (c =? RPAR) || (c =? SEMI) || (c =? AMP) || (c =? LESS) then (c, S s)
  else if c =? GREATER then
    if char_at buf (S s) =? GREATER then (PLUS, S (S s)) else (c, S s)
  else (WORD, span (es - s) word_char buf s).

Definition gettoken : SH (Z * range) :=
  fun s =>
    let q := skip_ws s in
    let '(tok, eq) := token_at q in
    Ok (tok, (q, eq)) (skip_ws eq).

Definition peek (toks : list Z) : SH bool :=
  fun s =>
    let s := skip_ws s in
    let c := char_at buf s in
    Ok (negb (c =? 0) && member toks c) s.

Definition new_redir (tok : Z) (f : range) : option redir :=
  if tok =? LESS then Some (mkredir f O_RDONLY 0)
  else if tok =? GREATER then Some (mkredir f (Z.lor (Z.lor O_WRONLY O_CREATE) O_TRUNC) 1)
  else if tok =? PLUS then Some (mkredir f (Z.lor O_WRONLY O_CREATE) 1)
  else None.

(** parseredirs: the redirections, after those already there *)
Definition parseredirs_body (rs : list redir) : SH (list redir + list redir) :=
  let! b := peek [LESS; GREATER] in
  if b then
    let! ' (tok, _) := gettoken in
    let! ' (w, f) := gettoken in
    if negb (w =? WORD) then sh_panic "missing file for redirection"
    else ret (inl (rs ++ option_list (new_redir tok f)))
  else ret (inr rs).
Definition parseredirs (rs : list redir) : SH (list redir) := whileM (S es) parseredirs_body rs.

(** the loop of parseexec over the arguments *)
Definition parseargs_body (i : list range * list redir) : SH (list range * list redir + list range * list redir) :=
  let '(argv, rs) := i in
  let! b := peek [BAR; RPAR; AMP; SEMI] in
  if b then ret (inr (argv, rs))
  else
    let! ' (tok, w) := gettoken in
    if tok =? 0 then ret (inr (argv, rs))
    else if negb (tok =? WORD) then sh_panic "syntax"
    else
      let argv := argv ++ [w] in
      if decide (MAXARGS <= length argv)%nat then sh_panic "too many args"
      else
        let! rs := parseredirs rs in
        ret (inl (argv, rs)).

Definition back_body (c : cmd) : SH (cmd + cmd) :=
  let! b := peek [AMP] in
  if b then gettoken ;; ret (inl (backcmd c)) else ret (inr c).

(** [n] bounds the depth of the calls *)
Fixpoint parseline (n : nat) : SH cmd :=
  match n with
  | O => outoffuel
  | S n =>
      let! c := parsepipe n in
      let! c := whileM (S es) back_body c in
      let! b := peek [SEMI] in
      if b then
        gettoken ;;
        let! r := parseline n in
        ret (listcmd c r)
      else ret c
  end
with parsepipe (n : nat) : SH cmd :=
  match n with
  | O => outoffuel
  | S n =>
      let! c := parseexec n in
      let! b := peek [BAR] in
      if b then
        gettoken ;;
        let! r := parsepipe n in
        ret (pipecmd c r)
      else ret c
  end
with parseexec (n : nat) : SH cmd :=
  match n with
  | O => outoffuel
  | S n =>
      let! b := peek [LPAR] in
      if b then parseblock n
      else
        let! rs := parseredirs [] in
        let! ' (argv, rs) := whileM (S es) parseargs_body ([], rs) in
        ret (foldl redircmd (EXEC argv) rs)
  end
with parseblock (n : nat) : SH cmd :=
  match n with
  | O => outoffuel
  | S n =>
      let! b := peek [LPAR] in
      if negb b then sh_panic "parseblock"
      else
        gettoken ;;
        let! c := parseline n in
        let! b := peek [RPAR] in
        if negb b then sh_panic "syntax - missing )"
        else
          gettoken ;;
          let! rs := parseredirs [] in
          ret (foldl redircmd c rs)
  end.
End parser.

(** [*eargv = 0] *)
Definition nul (buf : list Z) (w : range) : list Z := <[snd w := 0]> buf.

Fixpoint nulterminate (buf : list Z) (c : cmd) : list Z :=
  match c with
  | EXEC argv => foldl nul buf argv
  | REDIR c f _ _ => nul (nulterminate buf c) f
  | PIPE l r => nulterminate (nulterminate buf l) r
  | LIST l r => nulterminate (nulterminate buf l) r
  | BACK c => nulterminate buf c
  end.

(** four calls for each byte, see ShSpec *)
Definition parse_depth (es : nat) : nat := 4 * es + 4.

(** parsecmd of the string [buf]: the tree and the line it points into *)
Definition parsecmd (buf : list Z) : SH (cmd * list Z) :=
  let es := strlen buf in
  let! c := parseline buf es (parse_depth es) in
  let! b := peek buf es [] in
  let! s := gets (fun s => s) in
  if negb (s =? es)%nat then sh_panic "syntax"
  else ret (c, nulterminate buf c).
