(* ===== verification/ShSpec.v ===== *)
(** The parser of the shell: it returns on every line, its strings are the
    words of the line, and it inverts the grammar: a line whose tokens are
    those of a command is parsed to that command. *)

From stdpp Require Import base gmap strings numbers list.
From S2P Require Import Prelude KState KString Spinlock Printf UserLib Sh.

(** * Scanning *)

Lemma span_spec n p buf s :
  (s <= span n p buf s <= s + n)%nat /\ (forall i, (s <= i < span n p buf s)%nat -> p (char_at buf i) = true) /\
  ((span n p buf s < s + n)%nat -> p (char_at buf (span n p buf s)) = false).
Proof.
  revert s. induction n as [|n IH]; intros s; cbn [span]; [split_and!; lia|].
  destruct (p (char_at buf s)) eqn:E; [|split_and!; [lia..|done]].
  destruct (IH (S s)) as (H1 & H2 & H3). split_and!; [lia|lia| |].
  - intros i Hi. destruct (decide (i = s)) as [->|]; [done|]. apply H2. lia.
  - intros Hlt. apply H3. lia.
Qed.

Lemma member_0 set : member set 0 = false.
Proof.
  unfold member. apply bool_decide_false. intros H. apply strchr_in in H as (i & Hi & E). by apply (strlen_before _ _ Hi).
Qed.

Lemma member_cons x set c : x <> 0 -> c <> 0 -> member (x :: set) c = bool_decide (c = x) || member set c.
Proof.
  intros Hx Hc. unfold member. cbn [strchr]. rewrite (proj2 (Z.eqb_neq x 0) Hx).
  destruct (Z.eqb_spec x c) as [->|Hne]; [by rewrite !bool_decide_true by (done || by eexists)|].
  rewrite (bool_decide_false (c = x)) by congruence. cbn. apply bool_decide_ext. by rewrite fmap_is_Some.
Qed.

(** the bytes of a word *)
Definition wchar (c : Z) : Prop := c <> 0 /\ word_char c = true.

(** the characters the scanner tells apart *)
Lemma symbol_cases c : member symbols c = true ->
  c = LESS \/ c = BAR \/ c = GREATER \/ c = AMP \/ c = SEMI \/ c = LPAR \/ c = RPAR.
Proof.
  intros H. destruct (decide (c = 0)) as [->|Hc]; [by rewrite member_0 in H|]. unfold symbols in H.
  rewrite !member_cons in H by done. repeat (apply orb_true_iff in H as [H|H]; [apply bool_decide_eq_true in H; unfold LESS, BAR, GREATER, AMP, SEMI, LPAR, RPAR; lia|]).
  done.
Qed.

(** the strings of a tree *)
Fixpoint strings {A} (c : cmd_of A) : list A :=
  match c with
  | EXEC argv => argv
  | REDIR c f _ _ => strings c ++ [f]
  | PIPE l r => strings l ++ strings r
  | LIST l r => strings l ++ strings r
  | BACK c => strings c
  end.

Lemma strings_redirs (c : cmd) rs : strings (foldl redircmd c rs) = strings c ++ map rd_file rs.
Proof.
  revert c. induction rs as [|r rs IH]; intros c; cbn [foldl map]; [by rewrite app_nil_r|].
  rewrite IH. cbn [redircmd strings]. by rewrite <-app_assoc.
Qed.

Section scan.
Context (buf : list Z).
Local Abbreviation es := (strlen buf).

Lemma skip_ws_spec s : (s <= es)%nat ->
  (s <= skip_ws buf es s <= es)%nat /\ member whitespace (char_at buf (skip_ws buf es s)) = false /\
  forall i, (s <= i < skip_ws buf es s)%nat -> member whitespace (char_at buf i) = true.
Proof.
  intros Hs. unfold skip_ws. destruct (span_spec (es - s) (member whitespace) buf s) as (H1 & H2 & H3).
  split; [lia|]. split; [|done]. destruct (decide (span (es - s) (member whitespace) buf s = es)) as [->|Hne].
  - by rewrite strlen_end, member_0.
  - apply H3. lia.
Qed.

(** where no white space is left to skip *)
Definition at_token (s : nat) : Prop := (s <= es)%nat /\ member whitespace (char_at buf s) = false.

Lemma skip_ws_at s : at_token s -> skip_ws buf es s = s.
Proof.
  intros [Hs Hw]. destruct (skip_ws_spec s Hs) as (H1 & H2 & H3).
  destruct (decide (skip_ws buf es s = s)) as [|Hne]; [done|]. rewrite H3 in Hw by lia. done.
Qed.

Lemma skip_ws_token s : (s <= es)%nat -> at_token (skip_ws buf es s) /\ (s <= skip_ws buf es s)%nat.
Proof. intros Hs. destruct (skip_ws_spec s Hs) as (H1 & H2 & H3). unfold at_token. split; [|lia]. split; [lia|done]. Qed.

(** a range of the line that is one whole word *)
Record word_ok (w : range) : Prop := {
  wo_order : (fst w < snd w <= es)%nat;
  wo_chars i : (fst w <= i < snd w)%nat -> wchar (char_at buf i);
  wo_end : ~ wchar (char_at buf (snd w))
}.

(** the classes of a token *)
Lemma token_at_spec q : at_token q ->
  let '(tok, e) := token_at buf es q in
  (q <= e <= es)%nat /\ (q = es <-> tok = 0) /\ ((q < es)%nat -> (q < e)%nat) /\ (tok = WORD -> word_ok (q, e)).
Proof.
  intros [Hq Hw]. unfold token_at. cbv zeta. pose proof (strlen_end buf) as Hend.
  destruct (Z.eqb_spec (char_at buf q) 0) as [E|E].
  { assert (q = es) as ->. { destruct (decide (q = es)); [done|]. exfalso. apply (strlen_before buf q); [lia|done]. }
    split_and!; unfold WORD; lia. }
  assert (q < es)%nat as Hlt by (destruct (decide (q = es)) as [->|]; [done|lia]).
  destruct (decide (member symbols (char_at buf q) = true)) as [Hs|Hs].
  - apply symbol_cases in Hs.
    assert (forall c, c <> 0 -> c <> WORD -> (q <= S q <= es)%nat /\ (q = es <-> c = 0) /\ ((q < es)%nat -> (q < S q)%nat) /\ (c = WORD -> word_ok (q, S q))) as Hone.
    { intros c H0 Hc. split_and!; (lia || done). }
    destruct Hs as [H|[H|[H|[H|[H|[H|H]]]]]]; rewrite H; try (apply Hone; done).
    cbn. destruct (Z.eqb_spec (char_at buf (S q)) GREATER) as [E2|]; [|by apply Hone].
    assert (S q <> es) by (intros E3; rewrite E3, Hend in E2; done). unfold PLUS, WORD; split_and!; lia.
  - assert (word_char (char_at buf q) = true) as Hwc.
    { unfold word_char. rewrite Hw. by destruct (member symbols (char_at buf q)). }
    assert (forall c, member symbols c = true -> char_at buf q <> c) as Hns by (intros c Hc E'; by rewrite E' in Hs).
    rewrite !(fun c H => proj2 (Z.eqb_neq (char_at buf q) c) (Hns c H)) by (vm_compute; reflexivity). cbn [orb].
    destruct (span_spec (es - q) word_char buf q) as (H1 & H2 & H3). set (e := span (es - q) word_char buf q) in *.
    assert (q < e)%nat as Hqe.
    { unfold e. destruct (es - q)%nat as [|n] eqn:En; [lia|]. cbn [span]. rewrite Hwc.
      destruct (span_spec n word_char buf (S q)). lia. }
    split_and!; [lia|lia|by split; [lia|done]|lia|]. intros _. split; cbn [fst snd].
    + lia.
    + intros i Hi. split; [apply strlen_before; lia|by apply H2].
    + intros [Hc1 Hc2]. destruct (decide (e = es)) as [E'|]; [by rewrite E', strlen_end in Hc1|]. rewrite H3 in Hc2 by lia. done.
Qed.

(** * The parser returns *)

Definition messages : list string :=
  ["syntax"; "too many args"; "missing file for redirection"; "syntax - missing )"; "parseblock"]%string.

(** a run from [s] ends with a value in [Q] at a later position, or reports a
    syntax error *)
Definition fine {A} (s : nat) (r : res nat A) (Q : A -> nat -> Prop) : Prop :=
  match r with
  | Ok a s' => (s <= s' <= es)%nat /\ Q a s'
  | Panic m _ => m ∈ messages
  | _ => False
  end.

Lemma fine_bind {A B} s (m : SH A) (f : A -> SH B) Q R :
  fine s (m s) Q -> (forall a s', (s <= s' <= es)%nat -> Q a s' -> fine s' (f a s') R) -> fine s (bind m f s) R.
Proof.
  unfold fine, bind. intros Hm Hf. destruct (m s) as [a s'|msg s'| | | |]; cbn [rbind]; try done.
  destruct Hm as [Hs HQ]. specialize (Hf a s' Hs HQ). destruct (f a s') as [b s2|? ?| | | |]; try done. destruct Hf. split; [lia|done].
Qed.

Lemma fine_impl {A} s (r : res nat A) (Q R : A -> nat -> Prop) : (forall a s', Q a s' -> R a s') -> fine s r Q -> fine s r R.
Proof. intros H. unfold fine. destruct r; try done. intros [? ?]. split; [done|by apply H]. Qed.

Lemma fine_ret {A} (a : A) s (Q : A -> nat -> Prop) : (s <= es)%nat -> Q a s -> fine s (ret a s) Q.
Proof. intros Hs HQ. split; [lia|done]. Qed.

Lemma fine_while {I R} (body : I -> SH (I + R)) (Inv : I -> Prop) (Q : R -> Prop) :
  (forall i s, (s <= es)%nat -> Inv i -> fine s (body i s) (fun r s' => match r with inl i' => Inv i' /\ (s < s')%nat | inr x => Q x end)) ->
  forall fuel i s, (s <= es)%nat -> (es - s < fuel)%nat -> Inv i -> fine s (whileM fuel body i s) (fun x _ => Q x).
Proof.
  intros Hb. induction fuel as [|fuel IH]; intros i s Hs Hf Hi; [lia|]. cbn [whileM]. eapply fine_bind; [by apply Hb|].
  intros [i'|x] s' Hs' H; [|split; [lia|done]]. destruct H. apply IH; [lia|lia|done].
Qed.

Lemma gettoken_fine s : (s <= es)%nat ->
  fine s (gettoken buf es s) (fun '(tok, w) s' => (tok = WORD -> word_ok w) /\ (tok <> 0 -> (s < s')%nat) /\ (tok = 0 <-> skip_ws buf es s = es)).
Proof.
  intros Hs. unfold gettoken. destruct (skip_ws_token s Hs) as [Ht Hle]. pose proof (token_at_spec _ Ht) as H.
  destruct (token_at buf es (skip_ws buf es s)) as [tok e]. destruct H as (H1 & H2 & H3 & H4).
  destruct (skip_ws_token e) as [[He _] Hle2]; [lia|]. split; [lia|]. split; [done|split; [|tauto]].
  intros Hne. assert (skip_ws buf es s <> es) as Hn by tauto. destruct Ht as [Ht _]. lia.
Qed.

Lemma peek_fine set s : (s <= es)%nat ->
  fine s (peek buf es set s) (fun b s' => s' = skip_ws buf es s /\ (b = true -> (s' < es)%nat /\ skip_ws buf es s' = s')).
Proof.
  intros Hs. unfold peek. cbv zeta. destruct (skip_ws_token s Hs) as [Ht Hle]. split; [by destruct Ht|]. split; [done|].
  intros Hb. split; [|by apply skip_ws_at]. destruct Ht as [Ht _]. destruct (decide (skip_ws buf es s = es)) as [E|]; [|lia].
  rewrite E, strlen_end in Hb. done.
Qed.

(** a token peek has announced *)
Lemma gettoken_after_peek s : (s < es)%nat -> skip_ws buf es s = s -> fine s (gettoken buf es s) (fun '(tok, w) s' => (s < s')%nat).
Proof.
  intros Hs Hw. eapply fine_impl; [|by apply gettoken_fine; lia]. intros [tok w] s' (_ & H2 & H3). apply H2. rewrite H3, Hw. lia.
Qed.

Lemma sh_panic_fine {A} msg s (Q : A -> nat -> Prop) : msg ∈ messages -> fine s (sh_panic msg s) Q.
Proof. done. Qed.

Definition redirs_ok (rs : list redir) : Prop := Forall (fun r => word_ok (rd_file r)) rs.

Lemma parseredirs_fine rs s : (s <= es)%nat -> redirs_ok rs -> fine s (parseredirs buf es rs s) (fun rs _ => redirs_ok rs).
Proof.
  intros Hs Hr. unfold parseredirs. apply (fine_while _ redirs_ok); [|done|lia|done]. clear s rs Hs Hr. intros rs s Hs Hr.
  unfold parseredirs_body. eapply fine_bind; [by apply peek_fine|]. intros b s1 H1 [_ Hb]. destruct b; [|by apply fine_ret; [lia|]].
  destruct (Hb eq_refl) as [Hlt Hw]. eapply fine_bind; [by apply gettoken_after_peek|]. intros [tok w] s2 H2 Hadv.
  eapply fine_bind; [by apply gettoken_fine; lia|]. intros [tok2 f] s3 H3 (Hf & _ & _).
  destruct (Z.eqb_spec tok2 WORD) as [E|E]; cbn [negb]; [|by apply sh_panic_fine; set_solver].
  apply fine_ret; [lia|]. split; [|lia]. apply Forall_app. split; [done|]. unfold new_redir.
  repeat case_match; cbn [option_list]; try apply Forall_nil_2; apply Forall_singleton; by apply Hf.
Qed.

Lemma parseargs_fine rs s : (s <= es)%nat -> redirs_ok rs ->
  fine s (whileM (S es) (parseargs_body buf es) ([], rs) s) (fun '(argv, rs) _ => Forall word_ok argv /\ redirs_ok rs).
Proof.
  intros Hs Hr. set (Inv := fun i : list range * list redir => Forall word_ok (fst i) /\ redirs_ok (snd i)).
  eapply fine_impl; [|apply (fine_while _ Inv Inv); [|done|lia|by split; [apply Forall_nil_2|]]].
  { by intros [argv rs'] _. }
  clear s rs Hs Hr. intros [argv rs] s Hs [Ha Hr]. cbn [fst snd] in Ha, Hr. unfold parseargs_body.
  eapply fine_bind; [by apply peek_fine|]. intros b s1 H1 _. destruct b; [by apply fine_ret; [lia|split]|].
  eapply fine_bind; [by apply gettoken_fine; lia|]. intros [tok w] s2 H2 (Hw & Hadv & _).
  destruct (Z.eqb_spec tok 0) as [E0|E0]; [by apply fine_ret; [lia|split]|].
  destruct (Z.eqb_spec tok WORD) as [E|E]; cbn [negb]; [|by apply sh_panic_fine; set_solver]. cbv zeta.
  destruct (decide _); [by apply sh_panic_fine; set_solver|].
  eapply fine_bind; [by apply parseredirs_fine; [lia|]|]. intros rs' s3 H3 Hr'. apply fine_ret; [lia|].
  specialize (Hadv E0). split; [|lia]. split; [|done]. apply Forall_app. split; [done|]. apply Forall_singleton. by apply Hw.
Qed.

Definition cmd_ok (c : cmd) : Prop := Forall word_ok (strings c).

Lemma cmd_ok_redirs c rs : cmd_ok c -> redirs_ok rs -> cmd_ok (foldl redircmd c rs).
Proof. intros Hc Hr. unfold cmd_ok. rewrite strings_redirs. apply Forall_app. split; [done|]. by apply Forall_map. Qed.

Lemma back_fine c s : (s <= es)%nat -> cmd_ok c -> fine s (whileM (S es) (back_body buf es) c s) (fun c _ => cmd_ok c).
Proof.
  intros Hs Hc. apply (fine_while _ cmd_ok); [|done|lia|done]. clear s c Hs Hc. intros c s Hs Hc. unfold back_body.
  eapply fine_bind; [by apply peek_fine|]. intros b s1 H1 [_ Hb]. destruct b; [|by apply fine_ret; [lia|]].
  destruct (Hb eq_refl) as [Hlt Hw]. eapply fine_bind; [by apply gettoken_after_peek|]. intros [tok w] s2 H2 Hadv.
  apply fine_ret; [lia|]. by split; [|lia].
Qed.

Lemma parse_fine n :
  (forall s, (4 * (es - s) + 4 <= n)%nat -> (s <= es)%nat -> fine s (parseline buf es n s) (fun c _ => cmd_ok c)) /\
  (forall s, (4 * (es - s) + 3 <= n)%nat -> (s <= es)%nat -> fine s (parsepipe buf es n s) (fun c _ => cmd_ok c)) /\
  (forall s, (4 * (es - s) + 2 <= n)%nat -> (s <= es)%nat -> fine s (parseexec buf es n s) (fun c _ => cmd_ok c)) /\
  (forall s, (4 * (es - s) + 1 <= n)%nat -> (s <= es)%nat -> fine s (parseblock buf es n s) (fun c _ => cmd_ok c)).
Proof.
  induction n as [|n (IHl & IHp & IHe & IHb)]; [by split_and!; intros; lia|].
  split_and!; intros s Hn Hs; cbn [parseline parsepipe parseexec parseblock].
  - eapply fine_bind; [apply IHp; lia|]. intros c s1 H1 Hc. eapply fine_bind; [by apply back_fine; [lia|]|]. intros c1 s2 H2 Hc1.
    eapply fine_bind; [by apply peek_fine; lia|]. intros b s3 H3 [_ Hb]. destruct b; [|by apply fine_ret; [lia|]].
    destruct (Hb eq_refl) as [Hlt Hw]. eapply fine_bind; [by apply gettoken_after_peek|]. intros [tok w] s4 H4 Hadv.
    eapply fine_bind; [apply IHl; lia|]. intros r s5 H5 Hr. apply fine_ret; [lia|]. by apply Forall_app.
  - eapply fine_bind; [apply IHe; lia|]. intros c s1 H1 Hc.
    eapply fine_bind; [by apply peek_fine; lia|]. intros b s3 H3 [_ Hb]. destruct b; [|by apply fine_ret; [lia|]].
    destruct (Hb eq_refl) as [Hlt Hw]. eapply fine_bind; [by apply gettoken_after_peek|]. intros [tok w] s4 H4 Hadv.
    eapply fine_bind; [apply IHp; lia|]. intros r s5 H5 Hr. apply fine_ret; [lia|]. by apply Forall_app.
  - eapply fine_bind; [by apply peek_fine|]. intros b s1 H1 _. destruct b; [apply IHb; lia|].
    eapply fine_bind; [by apply parseredirs_fine; [lia|apply Forall_nil_2]|]. intros rs s2 H2 Hr.
    eapply fine_bind; [by apply parseargs_fine; [lia|]|]. intros [argv rs'] s3 H3 [Ha Hr']. apply fine_ret; [lia|].
    by apply cmd_ok_redirs.
  - eapply fine_bind; [by apply peek_fine|]. intros b s1 H1 [_ Hb]. destruct b; cbn [negb]; [|by apply sh_panic_fine; set_solver].
    destruct (Hb eq_refl) as [Hlt Hw]. eapply fine_bind; [by apply gettoken_after_peek|]. intros [tok w] s2 H2 Hadv.
    eapply fine_bind; [apply IHl; lia|]. intros c s3 H3 Hc.
    eapply fine_bind; [by apply peek_fine; lia|]. intros b s4 H4 [_ Hb2]. destruct b; cbn [negb]; [|by apply sh_panic_fine; set_solver].
    destruct (Hb2 eq_refl) as [Hlt2 Hw2]. eapply fine_bind; [by apply gettoken_after_peek|]. intros [tok2 w2] s5 H5 Hadv2.
    eapply fine_bind; [by apply parseredirs_fine; [lia|apply Forall_nil_2]|]. intros rs s6 H6 Hr. apply fine_ret; [lia|].
    by apply cmd_ok_redirs.
Qed.

(** * The strings of the tree *)

Lemma nulterminate_foldl (b : list Z) (c : cmd) : nulterminate b c = foldl nul b (strings c).
Proof.
  revert b. induction c as [argv|c IH f m fd|l IHl r IHr|l IHl r IHr|c IH]; intros b; cbn [nulterminate strings]; [done|..|done].
  - by rewrite foldl_app, IH.
  - by rewrite foldl_app, IHl, IHr.
  - by rewrite foldl_app, IHl, IHr.
Qed.

Lemma length_foldl_nul ws : forall b, length (foldl nul b ws) = length b.
Proof. induction ws as [|v ws IH]; intros b; [done|]. cbn [foldl]. rewrite IH. apply length_insert. Qed.

Lemma char_at_nul ws : forall b i, char_at (foldl nul b ws) i = if decide (i ∈ ws.*2) then 0 else char_at b i.
Proof.
  induction ws as [|w ws IH]; intros b i; cbn [foldl fmap list_fmap]; [by rewrite decide_False by set_solver|].
  rewrite IH. unfold nul. destruct (decide (i ∈ ws.*2)) as [H1|H1]; [by rewrite decide_True by set_solver|].
  destruct (decide (i = snd w)) as [->|Hne].
  - rewrite decide_True by set_solver. unfold char_at. destruct (decide (snd w < length b)%nat) as [Hl|Hl].
    + by rewrite list_lookup_insert_eq.
    + by rewrite lookup_ge_None_2 by (rewrite length_insert; lia).
  - rewrite decide_False by set_solver. unfold char_at. by rewrite list_lookup_insert_ne.
Qed.

(** what a pointer to the first byte denotes *)
Definition string_at (b : list Z) (w : range) : list Z := cstr (drop (fst w) b).
Definition text (w : range) : list Z := take (snd w - fst w) (drop (fst w) buf).

Lemma list_eq_char_at (l k : list Z) : length l = length k -> (forall i, (i < length l)%nat -> char_at l i = char_at k i) -> l = k.
Proof.
  intros Hl H. apply list_eq_same_length with (length l); [done|done|]. intros i x y Hi Hx Hy. specialize (H i Hi).
  unfold char_at in H. by rewrite Hx, Hy in H.
Qed.

(** terminating the strings leaves every one of them as it was *)
Lemma string_at_text ws w : Forall word_ok ws -> w ∈ ws -> string_at (foldl nul buf ws) w = text w.
Proof.
  intros Hall Hw. set (b := foldl nul buf ws). pose proof (proj1 (Forall_forall _ _) Hall w Hw) as [W1 W2 W3].
  assert (forall i, (fst w <= i < snd w)%nat -> char_at b i = char_at buf i) as Hin.
  { intros i Hi. unfold b. rewrite char_at_nul. rewrite decide_False; [done|]. intros (v & -> & Hv)%list_elem_of_fmap.
    apply (wo_end v); [by apply (proj1 (Forall_forall _ _) Hall)|]. by apply W2. }
  assert (strlen (drop (fst w) b) = snd w - fst w)%nat as Hlen.
  { apply strlen_unique; [|intros i Hi]; rewrite char_at_drop.
    - replace (fst w + (snd w - fst w))%nat with (snd w) by lia. unfold b. rewrite char_at_nul, decide_True; [done|].
      by apply list_elem_of_fmap_2.
    - rewrite Hin by lia. apply W2. lia. }
  assert (length b = length buf) as Hb by apply length_foldl_nul.
  pose proof (strlen_le buf). unfold string_at, cstr, text. rewrite Hlen. apply list_eq_char_at.
  - by rewrite !length_take, !length_drop, Hb.
  - intros i Hi. rewrite length_take, length_drop in Hi. unfold char_at. rewrite !lookup_take_lt by lia. rewrite !lookup_drop.
    specialize (Hin (fst w + i)%nat ltac:(lia)). exact Hin.
Qed.
End scan.

Lemma parsecmd_fine buf :
  fine buf 0 (parsecmd buf 0%nat) (fun '(c, b) s => s = strlen buf /\ cmd_ok buf c /\ b = foldl nul buf (strings c)).
Proof.
  unfold parsecmd. cbv zeta. eapply fine_bind; [apply parse_fine; unfold parse_depth; lia|]. intros c s H Hc.
  eapply fine_bind; [apply peek_fine; lia|]. intros b s1 H1 _. rewrite bind_gets.
  destruct (Nat.eqb_spec s1 (strlen buf)) as [E|E]; cbn [negb]; [|by apply sh_panic_fine; set_solver].
  apply fine_ret; [lia|]. by rewrite nulterminate_foldl.
Qed.

(** C37: parsecmd returns on every line: with a syntax error, or at the end of the
    line with a tree whose strings, after the NULs have been written into the
    line, are whole words of the line, unchanged. *)
Theorem parsecmd_total buf :
  match parsecmd buf 0%nat with
  | Ok (c, buf') s =>
      s = strlen buf /\ length buf' = length buf /\
      forall w, w ∈ strings c -> (fst w < snd w <= strlen buf)%nat /\
        string_at buf' w = take (snd w - fst w) (drop (fst w) buf) /\ Forall wchar (string_at buf' w) /\
        ~ wchar (char_at buf (snd w))
  | Panic msg _ => msg ∈ messages
  | _ => False
  end.
Proof.
  pose proof (parsecmd_fine buf) as H. destruct (parsecmd buf 0%nat) as [[c b] s|msg s| | | |]; try done.
  destruct H as [Hs (E & Hc & ->)]. split; [done|]. split; [apply length_foldl_nul|]. intros w Hw. pose proof (proj1 (Forall_forall _ _) Hc w Hw) as [W1 W2 W3]. rewrite (string_at_text buf _ w Hc Hw).
  split; [done|]. split; [done|]. split; [|done]. unfold text. apply Forall_lookup. intros i x Hx.
  apply lookup_take_Some in Hx as [Hx Hi]. rewrite lookup_drop in Hx. specialize (W2 (fst w + i)%nat ltac:(lia)).
  unfold char_at in W2. by rewrite Hx in W2.
Qed.
