(* ===== verification/ShGrammar.v ===== *)
(** The grammar of the shell: a reference tokenizer, the tokens of a command
    with parentheses where its structure needs them, and the theorem that
    parsecmd inverts them. *)

From stdpp Require Import base gmap strings numbers list.
From S2P Require Import Prelude KState KString Spinlock Printf UserLib Sh ShSpec.

(** * A reference tokenizer *)

Inductive token := TWord (w : list Z) | TSym (c : Z) | TApp.

Definition flush (w : list Z) : list token := match w with [] => [] | _ => [TWord w] end.

(** [w] is the word being read *)
Fixpoint tokenize (w l : list Z) : list token :=
  match l with
  | [] => flush w
  | c :: l' =>
      if member whitespace c then flush w ++ tokenize [] l'
      else if c =? GREATER then
        flush w ++
        match l' with
        | d :: l'' => if d =? GREATER then TApp :: tokenize [] l'' else TSym c :: tokenize [] l'
        | [] => [TSym c]
        end
      else if member symbols c then flush w ++ TSym c :: tokenize [] l'
      else tokenize (w ++ [c]) l'
  end.

(** what gettoken returns for a token *)
Definition code (t : token) : Z := match t with TWord _ => WORD | TSym c => c | TApp => PLUS end.

(** the first byte of a token is in a set of symbols *)
Definition starts (set : list Z) (ts : list token) : bool :=
  match ts with
  | TSym c :: _ => member set c
  | TApp :: _ => member set GREATER
  | _ => false
  end.

(** * Commands and their tokens *)

Definition shcmd : Type := cmd_of (list Z).

Fixpoint cmd_map {A B} (f : A -> B) (c : cmd_of A) : cmd_of B :=
  match c with
  | EXEC argv => EXEC (map f argv)
  | REDIR c x m fd => REDIR (cmd_map f c) (f x) m fd
  | PIPE l r => PIPE (cmd_map f l) (cmd_map f r)
  | LIST l r => LIST (cmd_map f l) (cmd_map f r)
  | BACK c => BACK (cmd_map f c)
  end.

Definition MODE_OUT : Z := Z.lor (Z.lor O_WRONLY O_CREATE) O_TRUNC.
Definition MODE_APPEND : Z := Z.lor O_WRONLY O_CREATE.

Definition redir_token (mode : Z) : token :=
  if mode =? O_RDONLY then TSym LESS else if mode =? MODE_OUT then TSym GREATER else TApp.

Definition parens (ts : list token) : list token := TSym LPAR :: ts ++ [TSym RPAR].

(** the level: 0 a line, 1 a pipeline and its [&]s, 2 a pipeline, 3 a member
    of a pipeline *)
Fixpoint toks (lvl : nat) (c : shcmd) : list token :=
  match c with
  | EXEC argv => map TWord argv
  | REDIR c f m _ => toks 3 c ++ [redir_token m; TWord f]
  | PIPE l r =>
      let ts := toks 3 l ++ TSym BAR :: toks 2 r in
      if decide (lvl <= 2)%nat then ts else parens ts
  | BACK c =>
      let ts := toks 1 c ++ [TSym AMP] in
      if decide (lvl <= 1)%nat then ts else parens ts
  | LIST l r =>
      let ts := toks 1 l ++ TSym SEMI :: toks 0 r in
      if decide (lvl = 0)%nat then ts else parens ts
  end.

Lemma toks_pipe l r : toks 2 (PIPE l r) = toks 3 l ++ TSym BAR :: toks 2 r.
Proof. reflexivity. Qed.
Lemma toks_back c : toks 1 (BACK c) = toks 1 c ++ [TSym AMP].
Proof. reflexivity. Qed.
Lemma toks_list l r : toks 0 (LIST l r) = toks 1 l ++ TSym SEMI :: toks 0 r.
Proof. reflexivity. Qed.

(** commands the syntax can express *)
Definition redir_wf (mode fd : Z) : Prop :=
  (mode, fd) ∈ [(O_RDONLY, 0); (MODE_OUT, 1); (MODE_APPEND, 1)].
Fixpoint wf (c : shcmd) : Prop :=
  match c with
  | EXEC argv => (length argv < MAXARGS)%nat
  | REDIR c _ m fd => redir_wf m fd /\ wf c
  | PIPE l r => wf l /\ wf r
  | LIST l r => wf l /\ wf r
  | BACK c => wf c
  end.

(** * The scanner follows the tokenizer *)

Section tokens.
Context (buf : list Z).
Local Abbreviation es := (strlen buf).

Definition rest (s : nat) : list Z := drop s (cstr buf).
Definition tokens (s : nat) : list token := tokenize [] (rest s).

Lemma length_cstr : length (cstr buf) = es.
Proof. unfold cstr. rewrite length_take. pose proof (strlen_le buf). lia. Qed.

Lemma rest_end : rest es = [].
Proof. unfold rest. apply drop_ge. by rewrite length_cstr. Qed.

Lemma rest_cons s : (s < es)%nat -> rest s = char_at buf s :: rest (S s).
Proof.
  intros Hs. destruct (lookup_lt_is_Some_2 (cstr buf) s) as [c Hc]; [by rewrite length_cstr|].
  unfold rest. rewrite (drop_S _ _ _ Hc). f_equal. unfold cstr in Hc. apply lookup_take_Some in Hc as [Hc _].
  unfold char_at. by rewrite Hc.
Qed.

Lemma tokens_end : tokens es = [].
Proof. unfold tokens. by rewrite rest_end. Qed.

Lemma tokens_ws s e : (s <= e <= es)%nat -> (forall i, (s <= i < e)%nat -> member whitespace (char_at buf i) = true) -> tokens s = tokens e.
Proof.
  intros Hse Hw. remember (e - s)%nat as n eqn:En. revert s Hse Hw En. induction n as [|n IH]; intros s Hse Hw En; [f_equal; lia|].
  rewrite <-(IH (S s)); [|lia|by intros i Hi; apply Hw; lia|lia]. unfold tokens. rewrite (rest_cons s) by lia. cbn [tokenize].
  by rewrite Hw by lia.
Qed.

Lemma tokens_skip s : (s <= es)%nat -> tokens (skip_ws buf es s) = tokens s.
Proof. intros Hs. destruct (skip_ws_spec buf s Hs) as (H1 & H2 & H3). symmetry. by apply tokens_ws. Qed.

Lemma wchar_spec c : wchar c -> member whitespace c = false /\ member symbols c = false /\ (c =? GREATER) = false.
Proof.
  intros [H0 H]. unfold word_char in H. apply andb_true_iff in H as [H1 H2]. apply negb_true_iff in H1, H2. split_and!; try done.
  apply Z.eqb_neq. intros ->. done.
Qed.

Lemma tokenize_word w q e : (q <= e <= es)%nat -> (forall i, (q <= i < e)%nat -> wchar (char_at buf i)) ->
  tokenize w (rest q) = tokenize (w ++ text buf (q, e)) (rest e).
Proof.
  intros Hqe Hw. unfold text. cbn [fst snd]. remember (e - q)%nat as n eqn:En. revert w q Hqe Hw En.
  induction n as [|n IH]; intros w q Hqe Hw En.
  - cbn [take]. rewrite app_nil_r. do 2 f_equal. lia.
  - assert (q < es)%nat as Hq by lia. rewrite (rest_cons q Hq). cbn [tokenize].
    destruct (wchar_spec (char_at buf q)) as (-> & -> & ->); [apply Hw; lia|].
    rewrite (IH (w ++ [char_at buf q]) (S q)); [|lia|by intros i Hi; apply Hw; lia|lia]. rewrite <-app_assoc. do 3 f_equal.
    pose proof (strlen_le buf). destruct (lookup_lt_is_Some_2 buf q) as [c Hc]; [lia|]. rewrite (drop_S _ _ _ Hc). cbn [take app].
    f_equal. unfold char_at. by rewrite Hc.
Qed.

Lemma tokenize_flush w e : (e <= es)%nat -> ~ wchar (char_at buf e) -> tokenize w (rest e) = flush w ++ tokens e.
Proof.
  intros He Hn. unfold tokens. destruct (decide (e = es)) as [->|Hne]; [rewrite rest_end; cbn; by rewrite app_nil_r|].
  rewrite rest_cons by lia. cbn [tokenize]. destruct (member whitespace (char_at buf e)) eqn:E1; [done|].
  destruct (char_at buf e =? GREATER) eqn:E2; [done|]. destruct (member symbols (char_at buf e)) eqn:E3; [done|].
  exfalso. apply Hn. split; [apply strlen_before; lia|]. unfold word_char. by rewrite E1, E3.
Qed.

Lemma tokens_word w : word_ok buf w -> tokens (fst w) = TWord (text buf w) :: tokens (snd w).
Proof.
  intros [W1 W2 W3]. destruct w as [q e]. cbn [fst snd] in *. unfold tokens at 1. rewrite (tokenize_word [] q e) by (lia || done).
  rewrite tokenize_flush by (lia || done). cbn [app]. assert (text buf (q, e) <> []) as Hne.
  { intros E. assert (length (text buf (q, e)) = e - q)%nat as Hl; [|rewrite E in Hl; cbn in Hl; lia].
    unfold text. cbn [fst snd]. rewrite length_take, length_drop. pose proof (strlen_le buf). lia. }
  destruct (text buf (q, e)); done.
Qed.

Lemma word_at q : at_token buf q -> (q < es)%nat -> member symbols (char_at buf q) = false ->
  exists e, token_at buf es q = (WORD, e) /\ word_ok buf (q, e).
Proof.
  intros Ht Hlt Hs. pose proof (token_at_spec buf q Ht) as Hspec. unfold token_at in *. cbv zeta in *.
  rewrite (proj2 (Z.eqb_neq _ _) (strlen_before buf q Hlt)) in *.
  assert (forall c, member symbols c = true -> char_at buf q <> c) as Hns by (intros c Hc E'; by rewrite E', Hc in Hs).
  rewrite !(fun c H => proj2 (Z.eqb_neq (char_at buf q) c) (Hns c H)) in * by (vm_compute; reflexivity). cbn [orb] in *.
  destruct Hspec as (_ & _ & _ & Hok). eexists. split; [done|]. by apply Hok.
Qed.

(** the token at a position, as the reference sees it *)
Lemma tokens_at q : at_token buf q -> (q < es)%nat ->
  exists t, let '(tok, e) := token_at buf es q in
    tok = code t /\ tokens q = t :: tokens e /\ (forall x, t = TWord x -> text buf (q, e) = x /\ word_ok buf (q, e)).
Proof.
  intros Ht Hlt. destruct (member symbols (char_at buf q)) eqn:Hs.
  2: { destruct (word_at q Ht Hlt Hs) as (e & -> & Hok). exists (TWord (text buf (q, e))).
    split; [done|]. split; [by apply (tokens_word (q, e))|]. by intros x [= <-]. }
  pose proof (token_at_spec buf q Ht) as Hspec. destruct Ht as [_ Hw]. unfold token_at in *. cbv zeta in *.
  rewrite (proj2 (Z.eqb_neq _ _) (strlen_before buf q Hlt)) in *.
  unfold tokens. rewrite (rest_cons q Hlt). cbn [tokenize]. rewrite Hw, Hs. cbn [flush app].
  assert (forall c, exists t, c = code t /\ TSym c :: tokens (S q) = t :: tokens (S q) /\
    (forall x, t = TWord x -> text buf (q, S q) = x /\ word_ok buf (q, S q))) as Hone by (intros c; by exists (TSym c)).
  apply symbol_cases in Hs. destruct Hs as [H|[H|[H|[H|[H|[H|H]]]]]]; rewrite H in *; try (apply Hone; done).
  cbn in Hspec |- *. destruct (Z.eqb_spec (char_at buf (S q)) GREATER) as [E|E].
  - exists TApp. split; [done|]. split; [|done]. assert (S q < es)%nat as Hlt2 by lia. by rewrite (rest_cons (S q) Hlt2), E.
  - exists (TSym GREATER). split; [done|]. split; [|done]. destruct (decide (S q = es)) as [Ee|Hne].
    + by rewrite Ee, rest_end.
    + rewrite (rest_cons (S q)) by lia. by rewrite (proj2 (Z.eqb_neq _ _) E).
Qed.

Lemma tokens_nil s : (s <= es)%nat -> tokens s = [] <-> skip_ws buf es s = es.
Proof.
  intros Hs. rewrite <-tokens_skip by done. destruct (skip_ws_token buf s Hs) as [Ht _]. split; [|intros ->; apply tokens_end].
  intros H. destruct (decide (skip_ws buf es s = es)) as [|Hne]; [done|]. destruct (tokens_at _ Ht) as (t & H'); [destruct Ht; lia|].
  destruct (token_at buf es (skip_ws buf es s)). destruct H' as (_ & E & _). by rewrite E in H.
Qed.

Lemma gettoken_nil s : (s <= es)%nat -> tokens s = [] -> exists w, gettoken buf es s = Ok (0, w) es.
Proof.
  intros Hs H. apply tokens_nil in H; [|done]. unfold gettoken. rewrite H. unfold token_at. rewrite strlen_end. cbn.
  eexists. rewrite skip_ws_at; [done|]. split; [done|]. by rewrite strlen_end, member_0.
Qed.

Lemma gettoken_cons s t ts : (s <= es)%nat -> tokens s = t :: ts ->
  exists w s', gettoken buf es s = Ok (code t, w) s' /\ tokens s' = ts /\ (s < s' <= es)%nat /\
    forall x, t = TWord x -> text buf w = x /\ word_ok buf w.
Proof.
  intros Hs H. destruct (skip_ws_token buf s Hs) as [Ht Hle]. assert (skip_ws buf es s < es)%nat as Hlt.
  { destruct Ht as [Ht _]. destruct (decide (skip_ws buf es s = es)) as [E|]; [|lia]. apply tokens_nil in E; [|done]. by rewrite E in H. }
  pose proof (token_at_spec buf _ Ht) as Hspec. destruct (tokens_at _ Ht Hlt) as (t' & Ht'). unfold gettoken.
  destruct (token_at buf es (skip_ws buf es s)) as [tok e]. destruct Ht' as (E1 & E2 & E3). rewrite tokens_skip, H in E2 by done.
  injection E2 as <- ->. destruct Hspec as (Hr & _ & Hadv & _). specialize (Hadv Hlt).
  destruct (skip_ws_token buf e) as [[He _] Hle2]; [lia|].
  exists (skip_ws buf es s, e), (skip_ws buf es e). rewrite E1. split; [done|]. split; [by apply tokens_skip; lia|]. split; [lia|done].
Qed.

(** sets of symbols *)
Definition symset (set : list Z) : Prop := forall c, member set c = true -> member symbols c = true.

Lemma peek_tokens set s : symset set -> (s <= es)%nat ->
  exists s', peek buf es set s = Ok (starts set (tokens s)) s' /\ tokens s' = tokens s /\ (s <= s' <= es)%nat.
Proof.
  intros Hset Hs. destruct (skip_ws_token buf s Hs) as [Ht Hle]. exists (skip_ws buf es s). unfold peek. cbv zeta.
  split; [|split; [by apply tokens_skip|destruct Ht; lia]]. f_equal. rewrite <-(tokens_skip s) by done.
  set (q := skip_ws buf es s) in *. destruct (decide (q = es)) as [E|Hne].
  { by rewrite E, strlen_end, tokens_end. }
  assert (q < es)%nat as Hlt by (destruct Ht; lia). rewrite (proj2 (Z.eqb_neq _ _) (strlen_before buf q Hlt)). cbn [negb andb].
  destruct (member symbols (char_at buf q)) eqn:Hsym.
  - unfold tokens. rewrite (rest_cons q Hlt). cbn [tokenize]. destruct Ht as [_ ->]. rewrite Hsym. cbn [flush app].
    destruct (Z.eqb_spec (char_at buf q) GREATER) as [E|]; [|done]. rewrite E.
    destruct (rest (S q)) as [|d l]; [done|]. by destruct (d =? GREATER).
  - assert (member set (char_at buf q) = false) as ->.
    { apply not_true_is_false. intros Hm. by rewrite (Hset _ Hm) in Hsym. }
    destruct (word_at q Ht Hlt Hsym) as (e & _ & Hok). change (tokens q) with (tokens (fst (q, e))). by rewrite (tokens_word (q, e) Hok).
Qed.

(** ** Loops *)

Lemma member_elem set c : Forall (fun x => x <> 0) set -> member set c = true -> c ∈ set.
Proof.
  intros Hset Hm. destruct (decide (c = 0)) as [->|Hc]; [by rewrite member_0 in Hm|].
  induction Hset as [|x set Hx _ IH]; [done|]. rewrite member_cons in Hm by done.
  apply orb_true_iff in Hm as [Hm|Hm]; [apply bool_decide_eq_true in Hm as ->|apply IH in Hm]; set_solver.
Qed.

Lemma symset_of set : Forall (fun x => member symbols x = true) set -> symset set.
Proof.
  intros Hset c Hm. apply (proj1 (Forall_forall _ _) Hset). apply member_elem; [|done]. eapply Forall_impl; [exact Hset|].
  intros x Hx ->. by rewrite member_0 in Hx.
Qed.
Ltac symset := apply symset_of; repeat constructor.

Lemma peek_run set ts s : symset set -> (s <= es)%nat -> tokens s = ts ->
  exists s', peek buf es set s = Ok (starts set ts) s' /\ tokens s' = ts /\ (s <= s' <= es)%nat.
Proof. intros Hset Hs <-. by apply peek_tokens. Qed.

(** mode, descriptor and file of a redirection *)
Definition rabs (r : redir) : Z * Z * list Z := (rd_mode r, rd_fd r, text buf (rd_file r)).
Definition rtoks (ars : list (Z * Z * list Z)) : list token := flat_map (fun '(m, _, f) => [redir_token m; TWord f]) ars.
Definition rwf (ars : list (Z * Z * list Z)) : Prop := Forall (fun '(m, fd, _) => redir_wf m fd) ars.

Lemma new_redir_token m fd w : redir_wf m fd -> new_redir (code (redir_token m)) w = Some (mkredir w m fd).
Proof.
  intros H. unfold redir_wf in H. apply elem_of_cons in H as [[= -> ->]|H]; [done|].
  apply elem_of_cons in H as [[= -> ->]|H]; [done|]. apply list_elem_of_singleton in H as [= -> ->]. done.
Qed.

Lemma redir_starts m ts : starts [LESS; GREATER] (redir_token m :: ts) = true.
Proof. unfold redir_token. repeat case_match; done. Qed.

Lemma redirs_run ars : forall fuel rs s ts,
  rwf ars -> tokens s = rtoks ars ++ ts -> starts [LESS; GREATER] ts = false -> (s <= es)%nat -> (es - s < fuel)%nat ->
  exists rs' s', whileM fuel (parseredirs_body buf es) rs s = Ok (rs ++ rs') s' /\ map rabs rs' = ars /\
    tokens s' = ts /\ (s <= s' <= es)%nat.
Proof.
  induction ars as [|[[m fd] f] ars IH]; intros fuel rs s ts Hwf Ht Hts Hs Hf; (destruct fuel as [|fuel]; [lia|]).
  - destruct (peek_run [LESS; GREATER] ts s) as (s1 & E1 & T1 & H1); [symset|done|done|].
    exists [], s1. rewrite app_nil_r. split; [|by split]. apply whileM_stop. unfold parseredirs_body.
    erewrite bind_ok by exact E1. by rewrite Hts.
  - cbn [rtoks flat_map app] in Ht. apply Forall_cons in Hwf as [Hm Hwf].
    destruct (peek_run [LESS; GREATER] _ s ltac:(symset) Hs Ht) as (s1 & E1 & T1 & H1). rewrite redir_starts in E1.
    destruct (gettoken_cons s1 _ _ ltac:(lia) T1) as (w1 & s2 & E2 & T2 & H2 & _).
    destruct (gettoken_cons s2 _ _ ltac:(lia) T2) as (w2 & s3 & E3 & T3 & H3 & W3). destruct (W3 f eq_refl) as [W3' _].
    destruct (IH fuel (rs ++ [mkredir w2 m fd]) s3 ts Hwf T3 Hts) as (rs' & s4 & E4 & M4 & T4 & H4); [lia|lia|].
    exists (mkredir w2 m fd :: rs'), s4. split; [|split; [|split; [done|lia]]].
    + assert (parseredirs_body buf es rs s = Ok (inl (rs ++ [mkredir w2 m fd])) s3) as E.
      { unfold parseredirs_body. erewrite bind_ok by exact E1. cbv iota beta. erewrite bind_ok by exact E2. cbv iota beta.
        erewrite bind_ok by exact E3. cbv iota beta. cbn [code]. rewrite Z.eqb_refl. cbn [negb]. by rewrite (new_redir_token m fd w2 Hm). }
      rewrite (whileM_step _ _ _ _ _ _ E), E4. by rewrite <-app_assoc.
    + cbn [map]. rewrite M4. unfold rabs at 1. cbn [rd_mode rd_fd rd_file]. by rewrite W3'.
Qed.

(** what may follow a member of a pipeline, a pipeline, a line *)
Definition ends (set : list Z) (ts : list token) : Prop := ts = [] \/ starts set ts = true.

Lemma ends_other set set' ts : Forall (fun x => x <> 0) set -> Forall (fun x => member set' x = false) set ->
  ends set ts -> starts set' ts = false.
Proof.
  intros H0 H [->|Hs]; [done|]. destruct ts as [|[w|c|] ts]; try done; cbn [starts] in *.
  - apply (proj1 (Forall_forall _ _) H). by apply member_elem.
  - apply (proj1 (Forall_forall _ _) H). by apply member_elem.
Qed.
Ltac ends H := eapply ends_other; [| |exact H]; repeat constructor; (done || (vm_compute; reflexivity)).

Definition AFTER_EXEC : list Z := [BAR; RPAR; AMP; SEMI].

Lemma args_run ws : forall fuel argv rs s ars ts,
  rwf ars -> tokens s = map TWord ws ++ match ws with [] => [] | _ => rtoks ars end ++ ts -> ends AFTER_EXEC ts ->
  (s <= es)%nat -> (es - s < fuel)%nat -> (length argv + length ws < MAXARGS)%nat ->
  exists argv' rs' s', whileM fuel (parseargs_body buf es) (argv, rs) s = Ok (argv ++ argv', rs ++ rs') s' /\
    map (text buf) argv' = ws /\ map rabs rs' = match ws with [] => [] | _ => ars end /\ tokens s' = ts /\ (s <= s' <= es)%nat.
Proof.
  induction ws as [|w ws IH]; intros fuel argv rs s ars ts Hwf Ht He Hs Hf Hn; (destruct fuel as [|fuel]; [lia|]).
  - cbn in Ht. destruct (peek_run AFTER_EXEC ts s) as (s1 & E1 & T1 & H1); [symset|done|done|].
    exists [], []. rewrite !app_nil_r. destruct He as [->|He].
    + destruct (gettoken_nil s1 ltac:(lia) T1) as (v & E2). exists es. split; [|split_and!; (done || lia || apply tokens_end)].
      apply whileM_stop. unfold parseargs_body. erewrite bind_ok by exact E1. cbn [starts]. cbv iota beta. by erewrite bind_ok by exact E2.
    + exists s1. split; [|split_and!; (done || lia)]. apply whileM_stop. unfold parseargs_body. erewrite bind_ok by exact E1. by rewrite He.
  - cbn [map app] in Ht.
    destruct (peek_run AFTER_EXEC _ s ltac:(symset) Hs Ht) as (s1 & E1 & T1 & H1). cbn [starts] in E1.
    destruct (gettoken_cons s1 _ _ ltac:(lia) T1) as (v & s2 & E2 & T2 & H2 & W2). destruct (W2 w eq_refl) as [W2' _].
    set (ars1 := match ws with [] => ars | _ => [] end).
    assert (exists rs1 s3, parseredirs buf es rs s2 = Ok (rs ++ rs1) s3 /\ map rabs rs1 = ars1 /\
      tokens s3 = map TWord ws ++ match ws with [] => [] | _ => rtoks ars end ++ ts /\ (s2 <= s3 <= es)%nat) as (rs1 & s3 & E3 & M3 & T3 & H3).
    { apply redirs_run; [by destruct ws; [|constructor]|rewrite T2; by destruct ws| |lia|lia].
      destruct ws; [cbn; ends He|done]. }
    cbn [length] in Hn.
    destruct (IH fuel (argv ++ [v]) (rs ++ rs1) s3 ars ts Hwf T3 He) as (argv' & rs' & s4 & E4 & A4 & M4 & T4 & H4);
      [lia|lia|rewrite length_app; cbn; lia|].
    exists (v :: argv'), (rs1 ++ rs'), s4. split; [|split; [|split; [|split; [done|lia]]]].
    + assert (parseargs_body buf es (argv, rs) s = Ok (inl (argv ++ [v], rs ++ rs1)) s3) as E.
      { unfold parseargs_body. erewrite bind_ok by exact E1. cbv iota beta. erewrite bind_ok by exact E2. cbv iota beta zeta. cbn [code].
        change (WORD =? 0) with false. cbv iota. rewrite Z.eqb_refl. cbn [negb].
        rewrite decide_False by (rewrite length_app; cbn; lia). by erewrite bind_ok by exact E3. }
      rewrite (whileM_step _ _ _ _ _ _ E), E4. by rewrite <-!app_assoc.
    + cbn [map]. by rewrite W2', A4.
    + rewrite map_app, M3, M4. unfold ars1. destruct ws; [by rewrite app_nil_r|done].
Qed.

(** ** The grammar, level by level *)

(** [p] parses the command [a] at [s] and leaves the tokens [ts] *)
Definition parses (p : SH cmd) (s : nat) (a : shcmd) (ts : list token) : Prop :=
  exists c s', p s = Ok c s' /\ cmd_map (text buf) c = a /\ tokens s' = ts /\ (s <= s' <= es)%nat.

Definition wrap (a : shcmd) (ars : list (Z * Z * list Z)) : shcmd := foldl (fun a '(m, fd, f) => REDIR a f m fd) a ars.

Lemma map_redirs rs : forall (c : cmd), cmd_map (text buf) (foldl redircmd c rs) = wrap (cmd_map (text buf) c) (map rabs rs).
Proof. induction rs as [|r rs IH]; intros c; [done|]. cbn [foldl map]. by rewrite IH. Qed.

Definition exec_ok (a : shcmd) : Prop := forall n s ars ts,
  (4 * (es - s) + 2 <= n)%nat -> (s <= es)%nat -> rwf ars -> tokens s = toks 3 a ++ rtoks ars ++ ts -> ends AFTER_EXEC ts ->
  parses (parseexec buf es n) s (wrap a ars) ts.
Definition pipe_ok (a : shcmd) : Prop := forall n s ts,
  (4 * (es - s) + 3 <= n)%nat -> (s <= es)%nat -> tokens s = toks 2 a ++ ts -> ends [RPAR; AMP; SEMI] ts ->
  parses (parsepipe buf es n) s a ts.
(** a pipeline and the [&]s after it *)
Definition parseback (n : nat) : SH cmd := let! c := parsepipe buf es n in whileM (S es) (back_body buf es) c.
Definition back_ok (a : shcmd) : Prop := forall n s k ts,
  (4 * (es - s) + 3 <= n)%nat -> (s <= es)%nat -> tokens s = toks 1 a ++ replicate k (TSym AMP) ++ ts -> ends [RPAR; SEMI] ts ->
  parses (parseback n) s (Nat.iter k BACK a) ts.
Definition line_ok (a : shcmd) : Prop := forall n s ts,
  (4 * (es - s) + 4 <= n)%nat -> (s <= es)%nat -> tokens s = toks 0 a ++ ts -> ends [RPAR] ts ->
  parses (parseline buf es n) s a ts.

Lemma ends_weaken set set' ts : Forall (fun x => member set' x = true) set -> Forall (fun x => x <> 0) set -> ends set ts -> ends set' ts.
Proof.
  intros H H0 [->|Hs]; [by left|right]. destruct ts as [|[w|c|] ts]; try done; cbn [starts] in *.
  - apply (proj1 (Forall_forall _ _) H). by apply member_elem.
  - apply (proj1 (Forall_forall _ _) H). by apply member_elem.
Qed.
Ltac weaken H := eapply ends_weaken; [| |exact H]; repeat constructor; (done || (vm_compute; reflexivity)).

Lemma pipe_of_exec a : toks 2 a = toks 3 a -> exec_ok a -> pipe_ok a.
Proof.
  intros Et He n s ts Hn Hs Ht Hts. destruct n as [|n]; [lia|]. rewrite Et in Ht.
  destruct (He n s [] ts) as (c & s1 & E1 & C1 & T1 & H1); [lia|done|by constructor|done|weaken Hts|].
  destruct (peek_run [BAR] ts s1) as (s2 & E2 & T2 & H2); [symset|lia|done|]. exists c, s2.
  split; [|split_and!; (done || lia)]. cbn [parsepipe]. erewrite bind_ok by exact E1. erewrite bind_ok by exact E2.
  rewrite (ends_other [RPAR; AMP; SEMI] [BAR] ts); [done|..|done]; repeat constructor; done.
Qed.

Lemma pipe_of_pipe l r : exec_ok l -> pipe_ok r -> pipe_ok (PIPE l r).
Proof.
  intros Hl Hr n s ts Hn Hs Ht Hts. destruct n as [|n]; [lia|]. rewrite toks_pipe, <-app_assoc in Ht.
  destruct (Hl n s [] (TSym BAR :: toks 2 r ++ ts)) as (c & s1 & E1 & C1 & T1 & H1); [lia|done|by constructor|done|by right|].
  destruct (peek_run [BAR] _ s1 ltac:(symset) ltac:(lia) T1) as (s2 & E2 & T2 & H2). change (starts _ _) with true in E2.
  destruct (gettoken_cons s2 _ _ ltac:(lia) T2) as (w & s3 & E3 & T3 & H3 & _).
  destruct (Hr n s3 ts) as (c2 & s4 & E4 & C4 & T4 & H4); [lia|lia|done|done|].
  exists (PIPE c c2), s4. split; [|split_and!; [cbn; by rewrite C1, C4|done|lia|lia]].
  cbn [parsepipe]. erewrite bind_ok by exact E1. erewrite bind_ok by exact E2. cbv iota beta. erewrite bind_ok by exact E3.
  by erewrite bind_ok by exact E4.
Qed.

Lemma back_run k : forall fuel c s ts,
  tokens s = replicate k (TSym AMP) ++ ts -> ends [RPAR; SEMI] ts -> (s <= es)%nat -> (es - s < fuel)%nat ->
  exists s', whileM fuel (back_body buf es) c s = Ok (Nat.iter k BACK c) s' /\ tokens s' = ts /\ (s <= s' <= es)%nat.
Proof.
  induction k as [|k IH]; intros fuel c s ts Ht Hts Hs Hf; (destruct fuel as [|fuel]; [lia|]).
  - destruct (peek_run [AMP] ts s) as (s1 & E1 & T1 & H1); [symset|done|done|]. exists s1. split; [|done].
    apply whileM_stop. unfold back_body. erewrite bind_ok by exact E1.
    rewrite (ends_other [RPAR; SEMI] [AMP] ts); [done|..|done]; repeat constructor; done.
  - cbn [replicate app] in Ht. destruct (peek_run [AMP] _ s ltac:(symset) Hs Ht) as (s1 & E1 & T1 & H1). change (starts _ _) with true in E1.
    destruct (gettoken_cons s1 _ _ ltac:(lia) T1) as (w & s2 & E2 & T2 & H2 & _).
    destruct (IH fuel (BACK c) s2 ts T2 Hts) as (s3 & E3 & T3 & H3); [lia|lia|]. exists s3. split; [|split; [done|lia]].
    assert (back_body buf es c s = Ok (inl (BACK c)) s2) as E.
    { unfold back_body. erewrite bind_ok by exact E1. cbv iota beta. by erewrite bind_ok by exact E2. }
    rewrite (whileM_step _ _ _ _ _ _ E). rewrite Nat.iter_succ_r. exact E3.
Qed.

Lemma cmd_map_iter k (c : cmd) : cmd_map (text buf) (Nat.iter k BACK c) = Nat.iter k BACK (cmd_map (text buf) c).
Proof. induction k as [|k IH]; [done|]. cbn [Nat.iter nat_rect cmd_map]. f_equal. exact IH. Qed.

Lemma back_of_pipe a : toks 1 a = toks 2 a -> pipe_ok a -> back_ok a.
Proof.
  intros Et Hp n s k ts Hn Hs Ht Hts. rewrite Et in Ht.
  destruct (Hp n s _ Hn Hs Ht) as (c & s1 & E1 & C1 & T1 & H1).
  { destruct k; [weaken Hts|by right]. }
  destruct (back_run k (S es) c s1 ts T1 Hts) as (s2 & E2 & T2 & H2); [lia|lia|].
  exists (Nat.iter k BACK c), s2. split; [|split_and!; [by rewrite cmd_map_iter, C1|done|lia|lia]].
  unfold parseback. by erewrite bind_ok by exact E1.
Qed.

Lemma back_of_back a : back_ok a -> back_ok (BACK a).
Proof.
  intros Ha n s k ts Hn Hs Ht Hts. rewrite toks_back, <-app_assoc in Ht.
  destruct (Ha n s (S k) ts Hn Hs Ht Hts) as (c & s1 & E1 & C1 & T1 & H1). exists c, s1.
  split_and!; try done; [|lia|lia]. by rewrite C1, Nat.iter_succ_r.
Qed.

Lemma parseline_back n s c s1 : parseback n s = Ok c s1 ->
  parseline buf es (S n) s =
  (let! b := peek buf es [SEMI] in
   if b then gettoken buf es ;; let! r := parseline buf es n in ret (LIST c r) else ret c) s1.
Proof.
  intros E. apply bind_ok_inv in E as (c0 & s0 & E0 & E). cbn [parseline]. erewrite bind_ok by exact E0. by erewrite bind_ok by exact E.
Qed.

Lemma line_of_back a : toks 0 a = toks 1 a -> back_ok a -> line_ok a.
Proof.
  intros Et Ha n s ts Hn Hs Ht Hts. destruct n as [|n]; [lia|]. rewrite Et in Ht.
  destruct (Ha n s 0%nat ts) as (c & s1 & E1 & C1 & T1 & H1); [lia|done|done|weaken Hts|].
  destruct (peek_run [SEMI] ts s1) as (s2 & E2 & T2 & H2); [symset|lia|done|]. exists c, s2.
  split; [|split_and!; (done || lia)]. rewrite (parseline_back _ _ _ _ E1). erewrite bind_ok by exact E2.
  rewrite (ends_other [RPAR] [SEMI] ts); [done|..|done]; repeat constructor; done.
Qed.

Lemma line_of_list l r : back_ok l -> line_ok r -> line_ok (LIST l r).
Proof.
  intros Hl Hr n s ts Hn Hs Ht Hts. destruct n as [|n]; [lia|]. rewrite toks_list, <-app_assoc in Ht.
  destruct (Hl n s 0%nat (TSym SEMI :: toks 0 r ++ ts)) as (c & s1 & E1 & C1 & T1 & H1); [lia|done|done|by right|].
  destruct (peek_run [SEMI] _ s1 ltac:(symset) ltac:(lia) T1) as (s2 & E2 & T2 & H2). change (starts _ _) with true in E2.
  destruct (gettoken_cons s2 _ _ ltac:(lia) T2) as (w & s3 & E3 & T3 & H3 & _).
  destruct (Hr n s3 ts) as (c2 & s4 & E4 & C4 & T4 & H4); [lia|lia|done|done|].
  exists (LIST c c2), s4. split; [|split_and!; [cbn [cmd_map]; by rewrite C1, C4|done|lia|lia]].
  rewrite (parseline_back _ _ _ _ E1). erewrite bind_ok by exact E2. cbv iota beta. erewrite bind_ok by exact E3.
  by erewrite bind_ok by exact E4.
Qed.

(** a command in parentheses *)
Lemma exec_of_line a : toks 3 a = parens (toks 0 a) -> line_ok a -> exec_ok a.
Proof.
  intros Et Ha n s ars ts Hn Hs Hwf Ht Hts. destruct n as [|[|n]]; [lia|lia|]. rewrite Et in Ht. unfold parens in Ht.
  cbn [app] in Ht. rewrite <-app_assoc in Ht.
  destruct (peek_run [LPAR] _ s ltac:(symset) Hs Ht) as (s1 & E1 & T1 & H1).
  destruct (peek_run [LPAR] _ s1 ltac:(symset) ltac:(lia) T1) as (s2 & E2 & T2 & H2). change (starts _ _) with true in E1, E2.
  destruct (gettoken_cons s2 _ _ ltac:(lia) T2) as (w & s3 & E3 & T3 & H3 & _).
  destruct (Ha n s3 (TSym RPAR :: rtoks ars ++ ts)) as (c & s4 & E4 & C4 & T4 & H4); [lia|lia|done|by right|].
  destruct (peek_run [RPAR] _ s4 ltac:(symset) ltac:(lia) T4) as (s5 & E5 & T5 & H5). change (starts _ _) with true in E5.
  destruct (gettoken_cons s5 _ _ ltac:(lia) T5) as (w2 & s6 & E6 & T6 & H6 & _).
  destruct (redirs_run ars (S es) [] s6 ts Hwf T6) as (rs & s7 & E7 & M7 & T7 & H7); [ends Hts|lia|lia|].
  exists (foldl redircmd c rs), s7. split; [|split_and!; [by rewrite map_redirs, C4, M7|done|lia|lia]].
  cbn [parseexec parseblock]. erewrite bind_ok by exact E1. cbv iota beta. erewrite bind_ok by exact E2. cbn [negb].
  erewrite bind_ok by exact E3. erewrite bind_ok by exact E4. erewrite bind_ok by exact E5. cbn [negb].
  erewrite bind_ok by exact E6. by erewrite bind_ok by exact E7.
Qed.

Lemma exec_of_redir a m fd f : redir_wf m fd -> exec_ok a -> exec_ok (REDIR a f m fd).
Proof.
  intros Hr Ha n s ars ts Hn Hs Hwf Ht Hts. cbn [toks] in Ht. rewrite <-app_assoc in Ht.
  apply (Ha n s ((m, fd, f) :: ars) ts Hn Hs); [by constructor|exact Ht|exact Hts].
Qed.

Lemma exec_starts argv ars ts : ends AFTER_EXEC ts -> starts [LPAR] (map TWord argv ++ rtoks ars ++ ts) = false.
Proof.
  intros Hts. destruct argv; [|done]. destruct ars as [|[[m fd] f] ars]; [cbn; ends Hts|].
  cbn [map app rtoks flat_map]. unfold redir_token. destruct (m =? O_RDONLY), (m =? MODE_OUT); reflexivity.
Qed.

Lemma exec_of_exec argv : (length argv < MAXARGS)%nat -> exec_ok (EXEC argv).
Proof.
  intros Hlen n s ars ts Hn Hs Hwf Ht Hts. destruct n as [|n]; [lia|]. cbn [toks] in Ht.
  destruct (peek_run [LPAR] _ s ltac:(symset) Hs Ht) as (s1 & E1 & T1 & H1). rewrite exec_starts in E1 by done.
  set (ars1 := match argv with [] => ars | _ => [] end).
  destruct (redirs_run ars1 (S es) [] s1 (map TWord argv ++ match argv with [] => [] | _ => rtoks ars end ++ ts)) as (rs & s2 & E2 & M2 & T2 & H2).
  { by destruct argv; [|constructor]. }
  { rewrite T1. by destruct argv. }
  { destruct argv; [cbn; ends Hts|done]. }
  { lia. }
  { lia. }
  destruct (args_run argv (S es) [] rs s2 ars ts Hwf T2 Hts) as (argv' & rs' & s3 & E3 & A3 & M3 & T3 & H3); [lia|lia|cbn; lia|].
  exists (foldl redircmd (EXEC argv') (rs ++ rs')), s3. split; [|split_and!; [|done|lia|lia]].
  - cbn [parseexec]. erewrite bind_ok by exact E1. cbv iota beta. erewrite bind_ok by exact E2. by erewrite bind_ok by exact E3.
  - rewrite map_redirs. cbn [cmd_map]. rewrite A3, map_app, M2, M3. unfold ars1. by destruct argv; [rewrite app_nil_r|].
Qed.

Lemma levels a : wf a -> exec_ok a /\ pipe_ok a /\ back_ok a /\ line_ok a.
Proof.
  induction a as [argv|a IH f m fd|l IHl r IHr|l IHl r IHr|a IH]; cbn [wf].
  - intros Hlen. pose proof (exec_of_exec argv Hlen) as He. pose proof (pipe_of_exec (EXEC argv) eq_refl He) as Hp.
    pose proof (back_of_pipe (EXEC argv) eq_refl Hp) as Hb. by split_and!; [..|apply line_of_back].
  - intros [Hm Ha]. destruct (IH Ha) as (He & _). pose proof (exec_of_redir a m fd f Hm He) as He'.
    pose proof (pipe_of_exec (REDIR a f m fd) eq_refl He') as Hp.
    pose proof (back_of_pipe (REDIR a f m fd) eq_refl Hp) as Hb. by split_and!; [..|apply line_of_back].
  - intros [Hl Hr]. destruct (IHl Hl) as (He & _). destruct (IHr Hr) as (_ & Hp & _). pose proof (pipe_of_pipe l r He Hp) as Hp'.
    pose proof (back_of_pipe (PIPE l r) eq_refl Hp') as Hb. pose proof (line_of_back (PIPE l r) eq_refl Hb) as Hli.
    split_and!; try done. by apply exec_of_line.
  - intros [Hl Hr]. destruct (IHl Hl) as (_ & _ & Hb & _). destruct (IHr Hr) as (_ & _ & _ & Hli).
    pose proof (line_of_list l r Hb Hli) as Hli'. pose proof (exec_of_line (LIST l r) eq_refl Hli') as He.
    pose proof (pipe_of_exec (LIST l r) eq_refl He) as Hp. split_and!; try done. by apply back_of_pipe.
  - intros Ha. destruct (IH Ha) as (_ & _ & Hb & _). pose proof (back_of_back a Hb) as Hb'.
    pose proof (line_of_back (BACK a) eq_refl Hb') as Hli. pose proof (exec_of_line (BACK a) eq_refl Hli) as He.
    split_and!; try done. by apply pipe_of_exec.
Qed.
End tokens.

Lemma cmd_map_ext {A B} (f g : A -> B) (c : cmd_of A) : (forall w, w ∈ strings c -> f w = g w) -> cmd_map f c = cmd_map g c.
Proof.
  induction c as [argv|c IH x m fd|l IHl r IHr|l IHl r IHr|c IH]; cbn [strings cmd_map]; intros H.
  - f_equal. by apply map_ext_in_iff; intros w Hw; apply H, list_elem_of_In.
  - rewrite IH by (intros; apply H; set_solver). by rewrite H by set_solver.
  - by rewrite IHl, IHr by (intros; apply H; set_solver).
  - by rewrite IHl, IHr by (intros; apply H; set_solver).
  - by rewrite IH by (intros; apply H; set_solver).
Qed.

Lemma parse_tokens buf a : wf a -> tokenize [] (cstr buf) = toks 0 a ->
  exists c buf', parsecmd buf 0%nat = Ok (c, buf') (strlen buf) /\ cmd_map (string_at buf') c = a.
Proof.
  intros Ha Ht. destruct (levels buf a Ha) as (_ & _ & _ & Hl).
  destruct (Hl (parse_depth (strlen buf)) 0%nat []) as (c & s1 & E1 & C1 & T1 & H1).
  { unfold parse_depth. lia. }
  { lia. }
  { rewrite app_nil_r. exact Ht. }
  { by left. }
  assert (skip_ws buf (strlen buf) s1 = strlen buf) as Hend by (apply tokens_nil; [lia|done]).
  assert (parsecmd buf 0%nat = Ok (c, nulterminate buf c) (strlen buf)) as E.
  { assert (exists b, peek buf (strlen buf) [] s1 = Ok b (strlen buf)) as (b & E2).
    { eexists. unfold peek. cbv zeta. by rewrite Hend. }
    unfold parsecmd. cbv zeta. erewrite bind_ok by exact E1. erewrite bind_ok by exact E2. rewrite bind_gets. by rewrite Nat.eqb_refl. }
  exists c, (nulterminate buf c). split; [done|]. rewrite <-C1. pose proof (parsecmd_fine buf) as Hf. rewrite E in Hf.
  destruct Hf as (_ & _ & Hok & Hn). rewrite Hn. apply cmd_map_ext. intros w Hw. by apply string_at_text.
Qed.

(** C18: parsecmd parses every line whose tokens are those of a command to that
    command, whatever the white space: precedence, grouping and redirections
    as written, the strings of the tree in the NUL-terminated line those of
    the command. *)
Theorem parsecmd_correct buf a : wf a -> tokenize [] (cstr buf) = toks 0 a ->
  exists c buf', parsecmd buf 0%nat = Ok (c, buf') (strlen buf) /\ cmd_map (string_at buf') c = a.
Proof. apply parse_tokens. Qed.

Definition demo_cmd : shcmd :=
  LIST (BACK (PIPE (EXEC [bytes_of_string "cat"; bytes_of_string "README"])
                   (REDIR (LIST (EXEC [bytes_of_string "wc"]) (EXEC [bytes_of_string "ls"])) (bytes_of_string "out") MODE_OUT 1)))
       (REDIR (EXEC [bytes_of_string "echo"; bytes_of_string "hi"]) (bytes_of_string "log") MODE_APPEND 1).

Lemma parsecmd_correct_witness :
  exists c buf', parsecmd (bytes_of_string "cat  README|( wc;ls)>out& ;echo hi>> log") 0%nat = Ok (c, buf') 40%nat /\
    cmd_map (string_at buf') c = demo_cmd.
Proof.
  apply (parsecmd_correct (bytes_of_string "cat  README|( wc;ls)>out& ;echo hi>> log") demo_cmd).
  - cbn. repeat split; try lia; unfold redir_wf; repeat constructor.
  - vm_compute. reflexivity.
Defined.

(** * Printing *)

Definition token_bytes (t : token) : list Z := match t with TWord w => w | TSym c => [c] | TApp => [GREATER; GREATER] end.
(** the tokens, each followed by a space *)
Definition print (ts : list token) : list Z := flat_map (fun t => token_bytes t ++ [32]) ts.

Definition token_wf (t : token) : Prop :=
  match t with
  | TWord w => w <> [] /\ Forall wchar w
  | TSym c => member symbols c = true
  | TApp => True
  end.
Fixpoint words_wf (c : shcmd) : Prop :=
  match c with
  | EXEC argv => Forall (fun w => w <> [] /\ Forall wchar w) argv
  | REDIR c f _ _ => words_wf c /\ f <> [] /\ Forall wchar f
  | PIPE l r => words_wf l /\ words_wf r
  | LIST l r => words_wf l /\ words_wf r
  | BACK c => words_wf c
  end.

Definition wordb (w : list Z) : bool := bool_decide (w <> []) && forallb (fun c => negb (c =? 0) && word_char c) w.
Fixpoint words_wfb (c : shcmd) : bool :=
  match c with
  | EXEC argv => forallb wordb argv
  | REDIR c f _ _ => words_wfb c && wordb f
  | PIPE l r => words_wfb l && words_wfb r
  | LIST l r => words_wfb l && words_wfb r
  | BACK c => words_wfb c
  end.

Lemma wordb_ok w : wordb w = true -> w <> [] /\ Forall wchar w.
Proof.
  intros [H1 H2]%andb_true_iff. apply bool_decide_eq_true in H1. split; [done|].
  induction w as [|c w IH]; [done|]. cbn [forallb] in H2. apply andb_true_iff in H2 as [Hc H2]. apply andb_true_iff in Hc as [Hc1 Hc2].
  constructor; [|destruct w; [constructor|by apply IH]]. split; [|done]. by apply negb_true_iff, Z.eqb_neq in Hc1.
Qed.

Lemma words_wfb_ok c : words_wfb c = true -> words_wf c.
Proof.
  induction c as [argv|c IH x m fd|l IHl r IHr|l IHl r IHr|c IH]; cbn [words_wfb words_wf]; [|intros [? ?]%andb_true_iff..|done].
  - induction argv as [|w argv IH]; [constructor|]. intros [Hw H]%andb_true_iff. constructor; [by apply wordb_ok|by apply IH].
  - split; [by apply IH|by apply wordb_ok].
  - split; [by apply IHl|by apply IHr].
  - split; [by apply IHl|by apply IHr].
Qed.

Lemma toks_wf c : words_wf c -> forall lvl, Forall token_wf (toks lvl c).
Proof.
  assert (forall ts, Forall token_wf ts -> Forall token_wf (parens ts)) as Hp.
  { intros ts H. unfold parens. constructor; [done|]. apply Forall_app. split; [done|]. by repeat constructor. }
  assert (forall (P : Prop) (d : Decision P) ts, Forall token_wf ts -> Forall token_wf (if d then ts else parens ts)) as Hd.
  { intros P d ts H. destruct d; [done|by apply Hp]. }
  induction c as [argv|c IH x m fd|l IHl r IHr|l IHl r IHr|c IH]; cbn [words_wf toks]; intros H lvl.
  - by apply Forall_map.
  - destruct H as (Hc & Hx). apply Forall_app. split; [by apply IH|]. repeat constructor; [|apply Hx..].
    unfold redir_token. by destruct (m =? O_RDONLY), (m =? MODE_OUT).
  - destruct H as [Hl Hr]. apply Hd. apply Forall_app. split; [by apply IHl|]. constructor; [done|by apply IHr].
  - destruct H as [Hl Hr]. apply Hd. apply Forall_app. split; [by apply IHl|]. constructor; [done|by apply IHr].
  - apply Hd. apply Forall_app. split; [by apply IH|]. by repeat constructor.
Qed.

Lemma tokenize_chars w v l : Forall wchar v -> tokenize w (v ++ l) = tokenize (w ++ v) l.
Proof.
  intros Hv. revert w. induction Hv as [|c v Hc Hv IH]; intros w; [by rewrite app_nil_r|]. cbn [app tokenize].
  destruct (wchar_spec c Hc) as (-> & -> & ->). rewrite IH. by rewrite <-app_assoc.
Qed.

Lemma tokenize_token t l : token_wf t -> tokenize [] (token_bytes t ++ 32 :: l) = t :: tokenize [] l.
Proof.
  destruct t as [w|c|]; cbn [token_wf token_bytes]; intros H.
  - destruct H as [Hne Hw]. rewrite tokenize_chars by done. cbn [app tokenize]. change (member whitespace 32) with true. cbv iota.
    by destruct w.
  - cbn [app tokenize]. apply symbol_cases in H. by destruct H as [->|[->|[->|[->|[->|[->| ->]]]]]].
  - reflexivity.
Qed.

Lemma tokenize_print ts : Forall token_wf ts -> tokenize [] (print ts) = ts.
Proof.
  induction 1 as [|t ts Ht _ IH]; [done|]. cbn [print flat_map]. rewrite <-app_assoc. cbn [app]. fold (print ts).
  rewrite tokenize_token by done. by rewrite IH.
Qed.

Lemma print_nonzero ts : Forall token_wf ts -> cstr (print ts) = print ts.
Proof.
  intros H. assert (Forall (fun c => c <> 0) (print ts)) as Hn.
  { induction H as [|t ts Ht _ IH]; [constructor|]. cbn [print flat_map]. rewrite <-app_assoc. apply Forall_app. split.
    - destruct t as [w|c|]; cbn [token_bytes].
      + eapply Forall_impl; [apply Ht|]. by intros c [? _].
      + constructor; [|constructor]. intros ->. change (member symbols 0 = true) in Ht. by rewrite member_0 in Ht.
      + by repeat constructor.
    - constructor; [done|exact IH]. }
  by apply cstr_nonzero.
Qed.

(** Printing a command and parsing the line gives the command back: every
    command tree of words can be written in the syntax of the shell. *)
Theorem print_parse a : wf a -> words_wf a ->
  exists c buf', parsecmd (print (toks 0 a)) 0%nat = Ok (c, buf') (strlen (print (toks 0 a))) /\ cmd_map (string_at buf') c = a.
Proof.
  intros Ha Hw. pose proof (toks_wf a Hw 0%nat) as Ht. apply parse_tokens; [done|]. rewrite print_nonzero by done. by apply tokenize_print.
Qed.

Lemma print_parse_witness :
  exists c buf', parsecmd (print (toks 0 demo_cmd)) 0%nat = Ok (c, buf') (strlen (print (toks 0 demo_cmd))) /\
    cmd_map (string_at buf') c = demo_cmd.
Proof.
  apply (print_parse demo_cmd).
  - cbn. repeat split; try lia; unfold redir_wf; repeat constructor.
  - apply words_wfb_ok. vm_compute. reflexivity.
Defined.
