(* ===== verification/ShRun.v ===== *)
(** user/sh.c: runcmd and main as sequences of system calls, and the programs
    they start.

    A process is the tree of the system calls it makes and what it does with
    their results.  The calls do to the descriptors what the kernel does
    (sysfile.c, pipe.c, proc.c): a new descriptor is the first free one
    ([Syscall.free_fd]), and the child of a fork gets the open descriptors of
    its parent on top of those the slot of the process table still holds
    ([ForkSpec.child_file]; freeproc clears none).  What the slots hold, which
    forks find a slot, which files open and which programs exec finds are
    parameters.  A fork gives the child 0 and the parent [PID]; the order in
    which the two run does not matter, their descriptors are their own. *)

From stdpp Require Import base gmap strings numbers list.
From S2P Require Import Prelude KState KString Spinlock Printf Kalloc Vm ProcSync Log Fs Console File ProcLife Syscall.
From S2P Require Import ForkSpec UserLib Sh ShSpec ShGrammar.

(** * The code *)

Inductive uprog :=
  | UExit (status : Z)
  | UExec (argv : list (list Z)) (failed : uprog)
  | UClose (fd : Z) (k : uprog)
  | UOpen (file : list Z) (mode : Z) (k : Z -> uprog)
  | UDup (fd : Z) (k : Z -> uprog)
  | UPipe (k : Z -> Z -> Z -> uprog)
  | UFork (k : Z -> uprog)
  | UWait (k : uprog)
  | UChdir (dir : list Z) (k : Z -> uprog)
  | UWrite (fd : Z) (bytes : list Z) (k : uprog).

Definition NEWLINE : list Z := [10].
Definition die (msg : string) : uprog := UWrite 2 (bytes_of_string msg ++ NEWLINE) (UExit 1).

Definition fork1 (k : Z -> uprog) : uprog := UFork (fun pid => if pid =? -1 then die "fork" else k pid).

(** [cmd] is not null: parsecmd returns a tree *)
Fixpoint runcmd (c : shcmd) : uprog :=
  match c with
  | EXEC argv =>
      match argv with
      | [] => UExit 1
      | a :: _ => UExec argv (UWrite 2 (bytes_of_string "exec " ++ a ++ bytes_of_string " failed" ++ NEWLINE) (UExit 0))
      end
  | REDIR c file mode fd =>
      UClose fd (UOpen file mode (fun r =>
        if r <? 0 then UWrite 2 (bytes_of_string "open " ++ file ++ bytes_of_string " failed" ++ NEWLINE) (UExit 1)
        else runcmd c))
  | LIST l r =>
      fork1 (fun pid => if pid =? 0 then runcmd l else UWait (runcmd r))
  | PIPE l r =>
      UPipe (fun res p0 p1 =>
        if res <? 0 then die "pipe"
        else
          fork1 (fun pid =>
            if pid =? 0 then UClose 1 (UDup p1 (fun _ => UClose p0 (UClose p1 (runcmd l))))
            else
              fork1 (fun pid =>
                if pid =? 0 then UClose 0 (UDup p0 (fun _ => UClose p0 (UClose p1 (runcmd r))))
                else UClose p0 (UClose p1 (UWait (UWait (UExit 0)))))))
  | BACK c =>
      fork1 (fun pid => if pid =? 0 then runcmd c else UExit 0)
  end.

(** runcmd(parsecmd(cmd)) in the child; panic has printed its message *)
Definition run_line (cmd : list Z) : uprog :=
  match parsecmd cmd 0%nat with
  | Ok (c, buf) _ => runcmd (cmd_map (string_at buf) c)
  | Panic msg _ => die msg
  | _ => UExit 1
  end.

Fixpoint skip_blanks (l : list Z) : list Z :=
  match l with
  | c :: l' => if (c =? 32) || (c =? 9) then skip_blanks l' else l
  | [] => []
  end.

(** one round of the loop of main on the line in [buf]; [k] is the next round *)
Definition sh_line (buf : list Z) (k : uprog) : uprog :=
  let cmd := skip_blanks buf in
  if char_at cmd 0 =? 10 then k
  else if (char_at cmd 0 =? 99) && (char_at cmd 1 =? 100) && (char_at cmd 2 =? 32) then
    let dir := drop 3 (take (strlen cmd - 1) cmd) in
    UChdir dir (fun r =>
      if r <? 0 then UWrite 2 (bytes_of_string "cannot cd " ++ dir ++ NEWLINE) k else k)
  else fork1 (fun pid => if pid =? 0 then run_line cmd else UWait k).

Definition LINE_MAX : Z := 100.

(** getcmd: the line, or none at the end of the input *)
Definition getcmd (input : list Z) (k : option (list Z) -> list Z -> uprog) : uprog :=
  UWrite 2 (bytes_of_string "$ ")
    (let '(buf, input) := gets_line LINE_MAX input in
     if char_at buf 0 =? 0 then k None input else k (Some buf) input).

(** the loop of main; [rounds] bounds the lines read *)
Fixpoint sh_loop (rounds : nat) (input : list Z) : uprog :=
  match rounds with
  | O => UExit 0
  | S rounds =>
      getcmd input (fun r input =>
        match r with Some buf => sh_line buf (sh_loop rounds input) | None => UExit 0 end)
  end.

(** the loop that opens the console until three descriptors are in use *)
Fixpoint open_console (tries : nat) (k : uprog) : uprog :=
  match tries with
  | O => k
  | S tries =>
      UOpen (bytes_of_string "console") O_RDWR (fun fd =>
        if 0 <=? fd then if 3 <=? fd then UClose fd k else open_console tries k else k)
  end.

Definition sh_main (input : list Z) : uprog := open_console (Z.to_nat NOFILE) (sh_loop (S (length input)) input).

(** * The system calls *)

Inductive obj := OFile (name : list Z) (mode : Z) | OPipeRead (id : nat) | OPipeWrite (id : nat) | ODevice.

(** a table of descriptors: what is open, by its place in the file table *)
Abbreviation fdtable := (list (option nat)).
Definition launch : Type := list (list Z) * fdtable.

Definition PID : Z := 1.

(** what a process does that others see: it ends, becomes a program, forks a
    child and goes on, or waits for a child to end and goes on *)
Inductive ptree (L : Type) :=
  | PExit (status : Z)
  | PExec (prog : L)
  | PFork (child parent : ptree L)
  | PWait (k : ptree L).
Arguments PExit {L} status.
Arguments PExec {L} prog.
Arguments PFork {L} child parent.
Arguments PWait {L} k.

(** the same tree, with related programs *)
Inductive tree_rel {A B} (R : A -> B -> Prop) : ptree A -> ptree B -> Prop :=
  | TExit n : tree_rel R (PExit n) (PExit n)
  | TExec a b : R a b -> tree_rel R (PExec a) (PExec b)
  | TFork c1 c2 p1 p2 : tree_rel R c1 c2 -> tree_rel R p1 p2 -> tree_rel R (PFork c1 p1) (PFork c2 p2)
  | TWait k1 k2 : tree_rel R k1 k2 -> tree_rel R (PWait k1) (PWait k2).

(** the open files made so far and the number of forks *)
Definition est : Type := list obj * nat.

Section eval.
Context (can_open : list Z -> Z -> bool) (can_exec : list (list Z) -> bool) (can_chdir : list Z -> bool).
(** the descriptors in the slot the n-th fork takes, none if there is no slot *)
Context (slot : nat -> option fdtable).

(** the descriptors of the child of a fork (the loop of kfork) *)
Definition child_fds (parent old : fdtable) : fdtable := foldl (child_file parent) old (seq 0 nfiles).

(** the tree of a process, with the arguments and descriptors each program is
    started with *)
Fixpoint eval (p : uprog) (ofile : fdtable) (st : est) : ptree launch * est :=
  match p with
  | UExit n => (PExit n, st)
  | UExec argv failed => if can_exec argv then (PExec (argv, ofile), st) else eval failed ofile st
  | UClose fd k => eval k (<[Z.to_nat fd := None]> ofile) st
  | UOpen file mode k =>
      if can_open file mode then
        match free_fd ofile 0 with
        | Some fd => eval (k (Z.of_nat fd)) (<[fd := Some (length st.1)]> ofile) (st.1 ++ [OFile file mode], st.2)
        | None => eval (k (-1)) ofile st
        end
      else eval (k (-1)) ofile st
  | UDup fd k =>
      match ofile !! Z.to_nat fd, free_fd ofile 0 with
      | Some (Some f), Some fd' => eval (k (Z.of_nat fd')) (<[fd' := Some f]> ofile) st
      | _, _ => eval (k (-1)) ofile st
      end
  | UPipe k =>
      match free_fd ofile 0 with
      | Some fd0 =>
          let ofile1 := <[fd0 := Some (length st.1)]> ofile in
          match free_fd ofile1 0 with
          | Some fd1 =>
              eval (k 0 (Z.of_nat fd0) (Z.of_nat fd1)) (<[fd1 := Some (S (length st.1))]> ofile1)
                (st.1 ++ [OPipeRead (length st.1); OPipeWrite (length st.1)], st.2)
          | None => eval (k (-1) 0 0) ofile st
          end
      | None => eval (k (-1) 0 0) ofile st
      end
  | UFork k =>
      match slot st.2 with
      | Some old =>
          let '(child, st1) := eval (k 0) (child_fds ofile old) (st.1, S st.2) in
          let '(parent, st2) := eval (k PID) ofile st1 in
          (PFork child parent, st2)
      | None => eval (k (-1)) ofile (st.1, S st.2)
      end
  | UWait k => let '(t, st1) := eval k ofile st in (PWait t, st1)
  | UChdir dir k => eval (k (if can_chdir dir then 0 else -1)) ofile st
  | UWrite _ _ k => eval k ofile st
  end.

(** * What a command means *)

(** a program with its standard input, output and error *)
Definition prog : Type := list (list Z) * (nat * nat * nat).

(** the processes of a command; a pipe is two new entries of the file table,
    both sides run at once and are waited for; a list runs its second command
    when a child has ended; a background command is not waited for *)
Fixpoint denote (c : shcmd) (i o e : nat) (files : list obj) : ptree prog * list obj :=
  match c with
  | EXEC argv =>
      if bool_decide (argv = []) then (PExit 1, files)
      else if can_exec argv then (PExec (argv, (i, o, e)), files) else (PExit 0, files)
  | REDIR c file mode fd =>
      if can_open file mode then
        let f := length files in
        let files := files ++ [OFile file mode] in
        if fd =? 0 then denote c f o e files else denote c i f e files
      else (PExit 1, files)
  | PIPE l r =>
      let p := length files in
      let '(a, files) := denote l i (S p) e (files ++ [OPipeRead p; OPipeWrite p]) in
      let '(b, files) := denote r p o e files in
      (PFork a (PFork b (PWait (PWait (PExit 0)))), files)
  | LIST l r =>
      let '(a, files) := denote l i o e files in
      let '(b, files) := denote r i o e files in
      (PFork a (PWait b), files)
  | BACK c => let '(a, files) := denote c i o e files in (PFork a (PExit 0), files)
  end.

(** ** The descriptors *)

Context (t0 : fdtable).

(** a descriptor the shell or a slot of the process table had from before *)
Definition left_over (fd f : nat) : Prop :=
  t0 !! fd = Some (Some f) \/ exists n old, slot n = Some old /\ old !! fd = Some (Some f).

(** room for a pipe *)
Definition roomy (t : fdtable) : Prop := length t = nfiles /\ t !! 14%nat = Some None /\ t !! 15%nat = Some None.

(** standard input, output and error; nothing else but what is left over *)
Record stdio (t : fdtable) (i o e : nat) : Prop := {
  sd_in : t !! 0%nat = Some (Some i);
  sd_out : t !! 1%nat = Some (Some o);
  sd_err : t !! 2%nat = Some (Some e);
  sd_other fd f : (3 <= fd)%nat -> t !! fd = Some (Some f) -> left_over fd f
}.

(** a program started as the command says *)
Definition runs (a : prog) (l : launch) : Prop :=
  l.1 = a.1 /\ stdio l.2 a.2.1.1 a.2.1.2 a.2.2.

Hypothesis Hslot : forall n, exists old, slot n = Some old /\ roomy old.

Lemma free_fd_first t k : forall j, t !! k = Some None -> (forall x, (x < k)%nat -> exists f, t !! x = Some (Some f)) ->
  free_fd t j = Some (j + k)%nat.
Proof.
  revert k. induction t as [|y t IH]; intros k j Hk Hb; [done|]. destruct k as [|k].
  - injection Hk as ->. cbn. f_equal. lia.
  - destruct (Hb 0%nat) as [f E]; [lia|]. injection E as ->. cbn [free_fd]. rewrite (IH k (S j)); [f_equal; lia|done|].
    intros x Hx. apply (Hb (S x)). lia.
Qed.

Lemma free_fd_le t k : forall j, t !! k = Some None -> exists d, free_fd t j = Some (j + d)%nat /\ (d <= k)%nat /\ t !! d = Some None.
Proof.
  revert k. induction t as [|[f|] t IH]; intros k j Hk; [done| |].
  - destruct k as [|k]; [done|]. destruct (IH k (S j) Hk) as (d & E & H1 & H2). exists (S d). cbn [free_fd]. rewrite E.
    split; [f_equal; lia|]. split; [lia|done].
  - exists 0%nat. cbn. split; [f_equal; lia|]. split; [lia|done].
Qed.

Lemma child_fds_lookup t old x : length old = nfiles -> (x < nfiles)%nat ->
  child_fds t old !! x = match t !! x with Some (Some f) => Some (Some f) | _ => old !! x end.
Proof.
  intros Hl Hx. unfold child_fds. rewrite child_files_lookup by lia. destruct (t !! x) as [[f|]|]; try done.
  rewrite decide_True; [done|]. apply elem_of_seq. lia.
Qed.

Lemma length_child_fds t old : length (child_fds t old) = length old.
Proof.
  unfold child_fds. generalize (seq 0 nfiles). intros l. revert old. induction l as [|i l IH]; intros old; cbn [foldl]; [done|].
  rewrite IH. unfold child_file. destruct (t !! i) as [[f|]|]; by rewrite ?length_insert.
Qed.

(** the child of a fork *)
Lemma stdio_child t n old i o e : stdio t i o e -> roomy t -> slot n = Some old -> roomy old ->
  stdio (child_fds t old) i o e /\ roomy (child_fds t old).
Proof.
  intros [S1 S2 S3 S4] (L & R1 & R2) Hn (L' & R3 & R4).
  assert (nfiles = 16%nat) as HN by reflexivity.
  split; [|split; [by rewrite length_child_fds|]; rewrite !child_fds_lookup by lia; by rewrite R1, R2].
  split; [by rewrite child_fds_lookup, S1 by lia|by rewrite child_fds_lookup, S2 by lia|by rewrite child_fds_lookup, S3 by lia|].
  intros fd f Hfd Hf. assert ((fd < nfiles)%nat) as Hlt by (apply lookup_lt_Some in Hf; rewrite length_child_fds in Hf; lia).
  rewrite child_fds_lookup in Hf by done. destruct (t !! fd) as [[g|]|] eqn:E; try (right; by exists n, old).
  injection Hf as ->. by apply S4.
Qed.
(** with the ends of a pipe open *)
Record piped (t : fdtable) (i o e p fd0 fd1 : nat) : Prop := {
  pd_len : length t = nfiles;
  pd_in : t !! 0%nat = Some (Some i);
  pd_out : t !! 1%nat = Some (Some o);
  pd_err : t !! 2%nat = Some (Some e);
  pd_fds : (3 <= fd0 < 16)%nat /\ (3 <= fd1 < 16)%nat /\ fd0 <> fd1;
  pd_read : t !! fd0 = Some (Some p);
  pd_write : t !! fd1 = Some (Some (S p));
  pd_other fd f : (3 <= fd)%nat -> fd <> fd0 -> fd <> fd1 -> t !! fd = Some (Some f) -> left_over fd f;
  pd_room fd : (14 <= fd < 16)%nat -> fd <> fd0 -> fd <> fd1 -> t !! fd = Some None
}.

Lemma NF : nfiles = 16%nat.
Proof. reflexivity. Qed.

Lemma pipe_fds t i o e p : stdio t i o e -> roomy t ->
  exists fd0 fd1, free_fd t 0 = Some fd0 /\ free_fd (<[fd0 := Some p]> t) 0 = Some fd1 /\
    piped (<[fd1 := Some (S p)]> (<[fd0 := Some p]> t)) i o e p fd0 fd1.
Proof.
  intros [S1 S2 S3 S4] (L & R1 & R2). pose proof NF as HN.
  destruct (free_fd_le t 14 0 R1) as (fd0 & E0 & Hle0 & N0).
  assert (fd0 <> 0 /\ fd0 <> 1 /\ fd0 <> 2)%nat as (? & ? & ?) by (split_and!; intros ->; congruence).
  assert (<[fd0 := Some p]> t !! 15%nat = Some None) as R2' by (by rewrite list_lookup_insert_ne by lia).
  destruct (free_fd_le (<[fd0 := Some p]> t) 15 0 R2') as (fd1 & E1 & Hle1 & N1).
  assert (fd1 <> fd0) as Hne by (intros ->; rewrite list_lookup_insert_eq in N1 by lia; done).
  rewrite list_lookup_insert_ne in N1 by done.
  assert (fd1 <> 0 /\ fd1 <> 1 /\ fd1 <> 2)%nat as (? & ? & ?) by (split_and!; intros ->; congruence).
  exists fd0, fd1. split; [done|]. split; [done|]. split; rewrite ?length_insert; try done; try lia.
  - by rewrite !list_lookup_insert_ne by lia.
  - by rewrite !list_lookup_insert_ne by lia.
  - by rewrite !list_lookup_insert_ne by lia.
  - rewrite list_lookup_insert_ne by done. by rewrite list_lookup_insert_eq by lia.
  - by rewrite list_lookup_insert_eq by (rewrite length_insert; lia).
  - intros fd f Hfd Hn0 Hn1. rewrite !list_lookup_insert_ne by congruence. by apply S4.
  - intros fd Hfd Hn0 Hn1. rewrite !list_lookup_insert_ne by congruence. assert (fd = 14 \/ fd = 15)%nat as [->| ->] by lia; done.
Qed.

Lemma piped_child t n old i o e p fd0 fd1 : piped t i o e p fd0 fd1 -> slot n = Some old -> roomy old ->
  piped (child_fds t old) i o e p fd0 fd1.
Proof.
  intros [P1 P2 P3 P4 P5 P6 P7 P8 P9] Hn (L' & R3 & R4). pose proof NF as HN.
  split; rewrite ?length_child_fds; try done; try (rewrite child_fds_lookup by lia).
  - by rewrite P2.
  - by rewrite P3.
  - by rewrite P4.
  - by rewrite P6.
  - by rewrite P7.
  - intros fd f Hfd Hn0 Hn1 Hf. assert ((fd < nfiles)%nat) as Hlt by (apply lookup_lt_Some in Hf; rewrite length_child_fds in Hf; lia).
    rewrite child_fds_lookup in Hf by done. destruct (t !! fd) as [[g|]|] eqn:E; try (right; by exists n, old).
    injection Hf as ->. by apply P8.
  - intros fd Hfd Hn0 Hn1. rewrite child_fds_lookup by lia. rewrite P9 by done. assert (fd = 14 \/ fd = 15)%nat as [->| ->] by lia; done.
Qed.

(** close(1); dup(p[1]) and close(0); dup(p[0]) *)
Lemma piped_out t i o e p fd0 fd1 f : piped t i o e p fd0 fd1 -> piped (<[1%nat := Some f]> (<[1%nat := None]> t)) i f e p fd0 fd1.
Proof.
  intros [P1 P2 P3 P4 P5 P6 P7 P8 P9]. pose proof NF as HN. rewrite list_insert_insert_eq.
  split; rewrite ?length_insert; try done; try (by rewrite list_lookup_insert_ne by lia).
  - by rewrite list_lookup_insert_eq by lia.
  - intros fd g H. rewrite list_lookup_insert_ne by lia. by apply P8.
  - intros fd H. rewrite list_lookup_insert_ne by lia. by apply P9.
Qed.

Lemma piped_in t i o e p fd0 fd1 f : piped t i o e p fd0 fd1 -> piped (<[0%nat := Some f]> (<[0%nat := None]> t)) f o e p fd0 fd1.
Proof.
  intros [P1 P2 P3 P4 P5 P6 P7 P8 P9]. pose proof NF as HN. rewrite list_insert_insert_eq.
  split; rewrite ?length_insert; try done; try (by rewrite list_lookup_insert_ne by lia).
  - by rewrite list_lookup_insert_eq by lia.
  - intros fd g H. rewrite list_lookup_insert_ne by lia. by apply P8.
  - intros fd H. rewrite list_lookup_insert_ne by lia. by apply P9.
Qed.

(** close(p[0]); close(p[1]) *)
Lemma piped_close t i o e p fd0 fd1 : piped t i o e p fd0 fd1 ->
  stdio (<[fd1 := None]> (<[fd0 := None]> t)) i o e /\ roomy (<[fd1 := None]> (<[fd0 := None]> t)).
Proof.
  intros [P1 P2 P3 P4 P5 P6 P7 P8 P9]. pose proof NF as HN.
  assert (forall fd, <[fd1 := None]> (<[fd0 := None]> t) !! fd = if decide (fd = fd0 \/ fd = fd1) then Some None else t !! fd) as Hl.
  { intros fd. destruct (decide (fd = fd1)) as [->|H1].
    { rewrite decide_True by auto. by rewrite list_lookup_insert_eq by (rewrite length_insert; lia). }
    rewrite list_lookup_insert_ne by done. destruct (decide (fd = fd0)) as [->|H0].
    { rewrite decide_True by auto. by rewrite list_lookup_insert_eq by lia. }
    rewrite list_lookup_insert_ne by done. by rewrite decide_False by (by intros [?|?]). }
  split.
  - split; try (rewrite Hl, decide_False by lia; done). intros fd f Hfd. rewrite Hl. case_decide as Hd; [done|]. apply P8; [done|lia|lia].
  - split; [by rewrite !length_insert|]. split; rewrite Hl; (case_decide; [done|]); apply P9; lia.
Qed.

(** close(fd); open(file, mode) of a redirection *)
Lemma stdio_redir t i o e f fd : stdio t i o e -> roomy t -> (fd < 2)%nat ->
  free_fd (<[fd := None]> t) 0 = Some fd /\
  stdio (<[fd := Some f]> (<[fd := None]> t)) (if decide (fd = 0%nat) then f else i) (if decide (fd = 0%nat) then o else f) e /\
  roomy (<[fd := Some f]> (<[fd := None]> t)).
Proof.
  intros [S1 S2 S3 S4] (L & R1 & R2) Hfd. pose proof NF as HN. split.
  { apply (free_fd_first _ fd 0); [by rewrite list_lookup_insert_eq by lia|]. intros x Hx. assert (fd = 1 /\ x = 0)%nat as [-> ->] by lia. exists i.
    by rewrite list_lookup_insert_ne by lia. }
  rewrite list_insert_insert_eq. split.
  - assert (fd = 0 \/ fd = 1)%nat as [->| ->] by lia; cbn [decide].
    + split; [by rewrite list_lookup_insert_eq by lia|by rewrite list_lookup_insert_ne by lia..|].
      intros fd g H. rewrite list_lookup_insert_ne by lia. by apply S4.
    + split; [by rewrite list_lookup_insert_ne by lia|by rewrite list_lookup_insert_eq by lia|by rewrite list_lookup_insert_ne by lia|].
      intros fd g H. rewrite list_lookup_insert_ne by lia. by apply S4.
  - split; [by rewrite length_insert|]. by rewrite !list_lookup_insert_ne by lia.
Qed.
(** a process that runs as the tree [d] says, having made the files [fs] *)
Definition does (r : ptree launch * est) (d : ptree prog * list obj) : Prop := tree_rel runs d.1 r.1 /\ r.2.1 = d.2.

Lemma eval_fork k t st old : slot st.2 = Some old ->
  eval (fork1 k) t st =
  (let '(child, st1) := eval (k 0) (child_fds t old) (st.1, S st.2) in
   let '(parent, st2) := eval (k PID) t st1 in (PFork child parent, st2)).
Proof. intros E. unfold fork1. cbn [eval]. rewrite E. reflexivity. Qed.

Lemma eval_dup fd k t st f fd' : t !! Z.to_nat fd = Some (Some f) -> free_fd t 0 = Some fd' ->
  eval (UDup fd k) t st = eval (k (Z.of_nat fd')) (<[fd' := Some f]> t) st.
Proof. intros E1 E2. cbn [eval]. by rewrite E1, E2. Qed.

(** the two sides of a pipe, after the fork *)
Lemma eval_left l t i o e p fd0 fd1 st : piped t i o e p fd0 fd1 ->
  exists t', eval (UClose 1 (UDup (Z.of_nat fd1) (fun _ => UClose (Z.of_nat fd0) (UClose (Z.of_nat fd1) l)))) t st = eval l t' st /\
    stdio t' i (S p) e /\ roomy t'.
Proof.
  intros P. pose proof NF as HN. destruct (pd_fds _ _ _ _ _ _ _ P) as (H0 & H1 & Hne). change (Z.to_nat 1) with 1%nat.
  eexists. split; [|exact (piped_close _ i (S p) e p fd0 fd1 (piped_out t i o e p fd0 fd1 (S p) P))].
  change (eval (UClose 1 ?k) t st) with (eval k (<[1%nat := None]> t) st).
  rewrite (eval_dup _ _ _ _ (S p) 1).
  - cbn [eval]. by rewrite !Nat2Z.id.
  - rewrite Nat2Z.id, list_lookup_insert_ne by lia. apply P.
  - apply (free_fd_first _ 1 0); [rewrite list_lookup_insert_eq; [done|rewrite (pd_len _ _ _ _ _ _ _ P); lia]|].
    intros x Hx. assert (x = 0%nat) as -> by lia. exists i. rewrite list_lookup_insert_ne by lia. apply P.
Qed.

Lemma eval_right l t i o e p fd0 fd1 st : piped t i o e p fd0 fd1 ->
  exists t', eval (UClose 0 (UDup (Z.of_nat fd0) (fun _ => UClose (Z.of_nat fd0) (UClose (Z.of_nat fd1) l)))) t st = eval l t' st /\
    stdio t' p o e /\ roomy t'.
Proof.
  intros P. pose proof NF as HN. destruct (pd_fds _ _ _ _ _ _ _ P) as (H0 & H1 & Hne).
  eexists. split; [|exact (piped_close _ p o e p fd0 fd1 (piped_in t i o e p fd0 fd1 p P))].
  change (eval (UClose 0 ?k) t st) with (eval k (<[0%nat := None]> t) st).
  rewrite (eval_dup _ _ _ _ p 0).
  - cbn [eval]. by rewrite !Nat2Z.id.
  - rewrite Nat2Z.id, list_lookup_insert_ne by lia. apply P.
  - apply (free_fd_first _ 0 0); [rewrite list_lookup_insert_eq; [done|rewrite (pd_len _ _ _ _ _ _ _ P); lia]|]. intros x Hx. lia.
Qed.

Lemma runcmd_redir c f m fd : wf (REDIR c f m fd) ->
  (forall t i o e st, stdio t i o e -> roomy t -> does (eval (runcmd c) t st) (denote c i o e st.1)) ->
  forall t i o e st, stdio t i o e -> roomy t -> does (eval (runcmd (REDIR c f m fd)) t st) (denote (REDIR c f m fd) i o e st.1).
Proof.
  intros [Hm Hc] IH t i o e st Hs Hr. cbn [runcmd eval denote]. destruct (can_open f m); [|split; [constructor|done]].
  assert (fd = 0 \/ fd = 1) as Hfd.
  { unfold redir_wf in Hm. repeat (apply elem_of_cons in Hm as [[= -> ->]|Hm]; [auto|]). by apply not_elem_of_nil in Hm. }
  destruct (stdio_redir t i o e (length st.1) (Z.to_nat fd) Hs Hr) as (E & Hs' & Hr'); [lia|]. rewrite E.
  destruct (Z.ltb_spec (Z.of_nat (Z.to_nat fd)) 0); [lia|].
  destruct Hfd as [-> | ->]; exact (IH _ _ _ _ (st.1 ++ [OFile f m], st.2) Hs' Hr').
Qed.

Lemma runcmd_pipe l r :
  (forall t i o e st, stdio t i o e -> roomy t -> does (eval (runcmd l) t st) (denote l i o e st.1)) ->
  (forall t i o e st, stdio t i o e -> roomy t -> does (eval (runcmd r) t st) (denote r i o e st.1)) ->
  forall t i o e st, stdio t i o e -> roomy t -> does (eval (runcmd (PIPE l r)) t st) (denote (PIPE l r) i o e st.1).
Proof.
  intros IHl IHr t i o e [files n] Hs Hr. cbn [fst snd]. set (p := length files).
  destruct (pipe_fds t i o e p Hs Hr) as (fd0 & fd1 & E0 & E1 & P). cbn [runcmd eval fst snd]. fold p. rewrite E0. cbv zeta. rewrite E1.
  change (0 <? 0) with false. cbv iota. set (t2 := <[fd1 := _]> _) in *. set (fs := files ++ _).
  destruct (Hslot n) as (old & En & Ho). rewrite (eval_fork _ t2 (fs, n) old En). cbn [fst snd]. change (0 =? 0) with true. cbv iota.
  destruct (eval_left (runcmd l) (child_fds t2 old) i o e p fd0 fd1 (fs, S n)) as (tl & -> & Sl & Rl); [by eapply piped_child|].
  pose proof (IHl tl i (S p) e (fs, S n) Sl Rl) as Dl. cbn [denote fst] in *. fold p fs.
  destruct (eval (runcmd l) tl (fs, S n)) as [a [fs1 n1]], (denote l i (S p) e fs) as [da dfs1]. destruct Dl as [Tl Fl]. cbn [fst snd] in *. subst dfs1.
  change (PID =? 0) with false. cbv iota.
  destruct (Hslot n1) as (old1 & En1 & Ho1). rewrite (eval_fork _ t2 (fs1, n1) old1 En1). cbn [fst snd]. change (0 =? 0) with true. cbv iota.
  destruct (eval_right (runcmd r) (child_fds t2 old1) i o e p fd0 fd1 (fs1, S n1)) as (tr & -> & Sr & Rr); [by eapply piped_child|].
  pose proof (IHr tr p o e (fs1, S n1) Sr Rr) as Dr. cbn [fst] in *.
  destruct (eval (runcmd r) tr (fs1, S n1)) as [b [fs2 n2]], (denote r p o e fs1) as [db dfs2]. destruct Dr as [Tr Fr]. cbn [fst snd] in *. subst dfs2.
  change (PID =? 0) with false. cbv iota. cbn [eval]. split; [|done]. repeat (constructor; try done).
Qed.

Lemma runcmd_list l r :
  (forall t i o e st, stdio t i o e -> roomy t -> does (eval (runcmd l) t st) (denote l i o e st.1)) ->
  (forall t i o e st, stdio t i o e -> roomy t -> does (eval (runcmd r) t st) (denote r i o e st.1)) ->
  forall t i o e st, stdio t i o e -> roomy t -> does (eval (runcmd (LIST l r)) t st) (denote (LIST l r) i o e st.1).
Proof.
  intros IHl IHr t i o e [files n] Hs Hr. cbn [runcmd]. destruct (Hslot n) as (old & En & Ho). rewrite (eval_fork _ t (files, n) old En).
  cbn [fst snd]. change (0 =? 0) with true. change (PID =? 0) with false. cbv iota.
  destruct (stdio_child t n old i o e Hs Hr En Ho) as [Hs' Hr'].
  pose proof (IHl _ i o e (files, S n) Hs' Hr') as Dl. cbn [denote fst] in *.
  destruct (eval (runcmd l) _ (files, S n)) as [a st1], (denote l i o e files) as [da dfs1]. destruct Dl as [Tl Fl]. cbn [fst snd] in *. subst dfs1.
  cbn [eval]. pose proof (IHr t i o e st1 Hs Hr) as Dr.
  destruct (eval (runcmd r) t st1) as [b st2], (denote r i o e st1.1) as [db dfs2]. destruct Dr as [Tr Fr]. split; [|done]. by repeat constructor.
Qed.

(** runcmd does what the command means *)
Lemma runcmd_eval c : wf c -> forall t i o e st, stdio t i o e -> roomy t -> does (eval (runcmd c) t st) (denote c i o e st.1).
Proof.
  induction c as [argv|c IH f m fd|l IHl r IHr|l IHl r IHr|c IH]; intros Hwf.
  - intros t i o e st Hs Hr. destruct argv as [|a argv]; [split; [constructor|done]|]. cbn [runcmd eval denote].
    rewrite bool_decide_false by done. destruct (can_exec (a :: argv)); (split; [|done]); constructor. by split.
  - apply runcmd_redir; [done|]. apply IH, Hwf.
  - apply runcmd_pipe; [apply IHl, Hwf|apply IHr, Hwf].
  - apply runcmd_list; [apply IHl, Hwf|apply IHr, Hwf].
  - intros t i o e [files n] Hs Hr. cbn [runcmd]. destruct (Hslot n) as (old & En & Ho). rewrite (eval_fork _ t (files, n) old En).
    cbn [fst snd]. change (0 =? 0) with true. change (PID =? 0) with false. cbv iota.
    destruct (stdio_child t n old i o e Hs Hr En Ho) as [Hs' Hr'].
    pose proof (IH Hwf _ i o e (files, S n) Hs' Hr') as Dl. cbn [denote fst eval] in *.
    destruct (eval (runcmd c) _ (files, S n)) as [a st1], (denote c i o e files) as [da dfs1]. destruct Dl as [Tl Fl]. split; [|done]. by repeat constructor.
Qed.

(** * A session *)

(** one child for each command, each waited for *)
Fixpoint denote_all (cs : list shcmd) (i o e : nat) (files : list obj) : ptree prog * list obj :=
  match cs with
  | [] => (PExit 0, files)
  | c :: cs =>
      let '(a, files) := denote c i o e files in
      let '(b, files) := denote_all cs i o e files in
      (PFork a (PWait b), files)
  end.

(** a line the user types, without its newline, that is the command [a] *)
Record types (line : list Z) (a : shcmd) : Prop := {
  ty_chars : Forall (fun c => c <> 0 /\ c <> 10 /\ c <> 13) line;
  ty_len : Z.of_nat (length line) < LINE_MAX - 1;
  ty_wf : wf a;
  ty_tokens : tokenize [] (line ++ [10]) = toks 0 a;
  ty_blank : tokenize [] line <> [];
  ty_cd : take 3 (skip_blanks line) <> bytes_of_string "cd "
}.

Lemma tokenize_blanks l : tokenize [] (skip_blanks l) = tokenize [] l.
Proof.
  induction l as [|c l IH]; [done|]. cbn [skip_blanks]. destruct ((c =? 32) || (c =? 9)) eqn:E; [|done].
  rewrite IH. cbn [tokenize]. apply orb_true_iff in E as [E|E]; apply Z.eqb_eq in E as ->; done.
Qed.

Lemma skip_blanks_line line : tokenize [] line <> [] ->
  skip_blanks (line ++ [10]) = skip_blanks line ++ [10] /\ exists c l, skip_blanks line = c :: l.
Proof.
  intros H. induction line as [|c line IH]; [done|]. cbn [app skip_blanks].
  destruct ((c =? 32) || (c =? 9)) eqn:E; [|split; [done|by eexists _, _]]. apply IH. intros H0. apply H.
  rewrite <-H0. cbn [tokenize]. apply orb_true_iff in E as [E|E]; apply Z.eqb_eq in E as ->; done.
Qed.

Lemma Forall_skip_blanks (P : Z -> Prop) l : Forall P l -> Forall P (skip_blanks l).
Proof. induction 1 as [|c l Hc Hl IH]; [constructor|]. cbn [skip_blanks]. case_match; [done|by constructor]. Qed.

Lemma run_line_eval cmd a t i o e st : wf a -> tokenize [] (cstr cmd) = toks 0 a -> stdio t i o e -> roomy t ->
  does (eval (run_line cmd) t st) (denote a i o e st.1).
Proof.
  intros Ha Ht. destruct (parse_tokens cmd a Ha Ht) as (c & buf & E & Ec). unfold run_line. rewrite E, Ec. by apply runcmd_eval.
Qed.

(** a command line: a child for the command, and the shell waits *)
Lemma sh_line_eval line a k t i o e st : types line a -> stdio t i o e -> roomy t ->
  exists child st1, does (child, st1) (denote a i o e st.1) /\
    eval (sh_line (line ++ [10]) k) t st = (let '(next, st2) := eval k t st1 in (PFork child (PWait next), st2)).
Proof.
  intros [T1 T2 T3 T4 T5 T6] Hs Hr. destruct (skip_blanks_line line T5) as [Es (c & l & Ec)]. unfold sh_line. cbv zeta. rewrite Es.
  assert (Forall (fun c => c <> 0 /\ c <> 10 /\ c <> 13) (c :: l)) as Hc by (rewrite <-Ec; by apply Forall_skip_blanks).
  assert ((char_at (skip_blanks line ++ [10]) 0 =? 10) = false) as ->.
  { rewrite Ec. apply Z.eqb_neq. apply Forall_cons in Hc as [(_ & H & _) _]. done. }
  assert ((char_at (skip_blanks line ++ [10]) 0 =? 99) && (char_at (skip_blanks line ++ [10]) 1 =? 100) &&
    (char_at (skip_blanks line ++ [10]) 2 =? 32) = false) as ->.
  { apply not_true_is_false. intros H. apply andb_true_iff in H as [H H3]. apply andb_true_iff in H as [H1 H2].
    apply Z.eqb_eq in H1, H2, H3. apply T6. rewrite Ec in *. destruct l as [|c2 [|c3 l]]; cbn in H1, H2, H3; subst; try done. }
  destruct st as [files n]. destruct (Hslot n) as (old & En & Ho). rewrite (eval_fork _ t (files, n) old En). cbn [fst snd].
  change (0 =? 0) with true. change (PID =? 0) with false. cbv iota.
  destruct (stdio_child t n old i o e Hs Hr En Ho) as [Hs' Hr'].
  destruct (eval (run_line _) _ (files, S n)) as [child st1] eqn:E. exists child, st1. split.
  - rewrite <-E. apply (run_line_eval _ a _ i o e (files, S n)); [done| |done|done]. rewrite cstr_nonzero.
    + by rewrite <-Es, tokenize_blanks.
    + rewrite Ec. apply Forall_app. split; [|by repeat constructor]. eapply Forall_impl; [exact Hc|]. by intros ? [? _].
  - cbn [eval]. by destruct (eval k t st1).
Qed.

Lemma gets_from_line room line input : Forall (fun c => c <> 0 /\ c <> 10 /\ c <> 13) line -> (length line < room)%nat ->
  gets_from room (line ++ 10 :: input) = (line ++ [10], input).
Proof.
  intros H. revert room. induction H as [|c line (H0 & H1 & H2) _ IH]; intros room Hr; (destruct room as [|room]; [cbn in Hr; lia|]); [done|].
  cbn [app gets_from]. rewrite (proj2 (Z.eqb_neq _ _) H1), (proj2 (Z.eqb_neq _ _) H2). cbn [orb].
  rewrite IH by (cbn in Hr; lia). done.
Qed.

Definition typed (lines : list (list Z)) : list Z := flat_map (fun l => l ++ [10]) lines.

Lemma sh_loop_eval lines cs t i o e : Forall2 types lines cs -> stdio t i o e -> roomy t ->
  forall rounds st, (length lines < rounds)%nat -> does (eval (sh_loop rounds (typed lines)) t st) (denote_all cs i o e st.1).
Proof.
  intros HF Hs Hr. induction HF as [|line a lines cs Ht _ IH]; intros rounds st Hro; (destruct rounds as [|rounds]; [cbn in Hro; lia|]).
  { split; [constructor|done]. }
  cbn [sh_loop typed flat_map]. unfold getcmd, gets_line. cbn [eval]. rewrite <-app_assoc. cbn [app].
  rewrite gets_from_line; [|apply Ht|pose proof (ty_len _ _ Ht); lia]. fold (typed lines).
  assert ((char_at (line ++ [10]) 0 =? 0) = false) as ->.
  { apply Z.eqb_neq. destruct line as [|c line]; [done|]. pose proof (ty_chars _ _ Ht) as Hc. by apply Forall_cons in Hc as [[? _] _]. }
  destruct (sh_line_eval line a (sh_loop rounds (typed lines)) t i o e st Ht Hs Hr) as (child & st1 & [D1 D2] & ->).
  cbn [denote_all]. destruct (denote a i o e st.1) as [da f1]. cbn [fst snd] in *. subst f1.
  specialize (IH rounds st1 ltac:(cbn in Hro; lia)). destruct (eval (sh_loop rounds (typed lines)) t st1) as [next st2], (denote_all cs i o e st1.1) as [db f2].
  destruct IH as [D3 D4]. split; [|done]. by repeat constructor.
Qed.

Lemma length_typed lines : (length lines <= length (typed lines))%nat.
Proof. induction lines as [|l lines IH]; cbn [typed flat_map length]; [lia|]. fold (typed lines). rewrite !length_app. cbn. lia. Qed.
End eval.

(** C13: a session of the shell.  The lines the user types, each one a
    command, make the shell fork one child for each of them in their order and
    wait before the next; the child does what its command means ([denote]): it
    forks the sides of its pipes and lists, starts exactly the programs of the
    command, each with the standard input, output and error its pipes and
    redirections say, and waits where the command says.  A program finds no
    other descriptor open, no end of a pipe in particular, but those that were
    left over: in the shell's own table when it started, or in the slot of the
    process table a fork has reused.  The console opens; every fork finds a
    slot, and the tables in the slots have room for a pipe (descriptors 14 and
    15 free); pipe() itself does not run out of memory or open files. *)
Theorem sh_session can_open can_exec can_chdir slot lines cs t i o e files n :
  can_open (bytes_of_string "console") O_RDWR = true -> Forall2 types lines cs ->
  (forall n, exists old, slot n = Some old /\ roomy old) ->
  t !! 0%nat = Some (Some i) -> t !! 1%nat = Some (Some o) -> t !! 2%nat = Some (Some e) -> roomy t ->
  let '(tree, (files', _)) := eval can_open can_exec can_chdir slot (sh_main (typed lines)) t (files, n) in
  let '(meaning, files'') := denote_all can_open can_exec cs i o e (files ++ [OFile (bytes_of_string "console") O_RDWR]) in
  tree_rel (runs slot t) meaning tree /\ files' = files''.
Proof.
  intros Hcon H Hslot E0 E1 E2 Hr. assert (stdio slot t t i o e) as Hs by (split; try done; by left).
  pose proof NF as HN. pose proof Hr as (L & R1 & R2). destruct (free_fd_le t 14 0 R1) as (fd & Ef & _ & Hfd). change (0 + fd)%nat with fd in Ef.
  assert (fd <> 0 /\ fd <> 1 /\ fd <> 2)%nat as (? & ? & ?) by (split_and!; intros ->; congruence).
  pose proof (sh_loop_eval can_open can_exec can_chdir slot t Hslot lines cs t i o e H Hs Hr (S (length (typed lines)))
    (files ++ [OFile (bytes_of_string "console") O_RDWR], n)) as D. cbn [fst] in D.
  assert (eval can_open can_exec can_chdir slot (sh_main (typed lines)) t (files, n) =
    eval can_open can_exec can_chdir slot (sh_loop (S (length (typed lines))) (typed lines)) t
      (files ++ [OFile (bytes_of_string "console") O_RDWR], n)) as ->.
  { unfold sh_main. change (Z.to_nat NOFILE) with 16%nat. cbn [open_console]. set (k := sh_loop _ _). clearbody k.
    cbn [eval]. rewrite Hcon, Ef. cbn [fst snd]. rewrite (proj2 (Z.leb_le 0 (Z.of_nat fd))), (proj2 (Z.leb_le 3 (Z.of_nat fd))) by lia.
    cbn [eval]. rewrite Nat2Z.id, list_insert_insert_eq. f_equal. by apply list_insert_id. }
  destruct (eval _ _ _ _ (sh_loop _ _) _ _) as [tree [files' n']], (denote_all _ _ _ _ _ _ _) as [meaning files''].
  apply D. pose proof (length_typed lines). lia.
Qed.

(** a session on a machine where every slot still has descriptor 7 open *)
Definition demo_fds : fdtable := ([Some 0; Some 0; Some 0] ++ replicate 13 None)%nat.
Definition demo_slot (n : nat) : option fdtable := Some (<[7 := Some 9]> (replicate 16 None))%nat.

Lemma sh_session_witness :
  tree_rel (runs demo_slot demo_fds)
    (PFork (PFork (PExec ([bytes_of_string "cat"; bytes_of_string "a"], (0, 3, 0)))
              (PFork (PExec ([bytes_of_string "wc"], (2, 4, 0))) (PWait (PWait (PExit 0)))))
       (PWait (PFork (PFork (PExec ([bytes_of_string "ls"], (0, 0, 0))) (PExit 0)) (PWait (PExit 0)))))%nat
    (eval (fun _ _ => true) (fun _ => true) (fun _ => true) demo_slot
       (sh_main (typed [bytes_of_string "cat a|wc >out"; bytes_of_string "  ls&"])) demo_fds ([ODevice], 0%nat)).1.
Proof.
  pose proof (sh_session (fun _ _ => true) (fun _ => true) (fun _ => true) demo_slot
    [bytes_of_string "cat a|wc >out"; bytes_of_string "  ls&"]
    [PIPE (EXEC [bytes_of_string "cat"; bytes_of_string "a"]) (REDIR (EXEC [bytes_of_string "wc"]) (bytes_of_string "out") MODE_OUT 1);
     BACK (EXEC [bytes_of_string "ls"])] demo_fds 0 0 0 [ODevice] 0 eq_refl) as H.
  destruct (eval _ _ _ _ _ _ _) as [tree [files n]]. cbn [fst]. apply H; clear H.
  - repeat (apply Forall2_cons_2; [split|]); [..|apply Forall2_nil_2].
    all: try (vm_compute; reflexivity).
    all: try (vm_compute; discriminate).
    + vm_compute. repeat (apply Forall_cons_2; [split_and!; discriminate|]). apply Forall_nil_2.
    + cbn [wf]. split_and!; [vm_compute; lia|unfold redir_wf; repeat constructor|vm_compute; lia].
    + vm_compute. repeat (apply Forall_cons_2; [split_and!; discriminate|]). apply Forall_nil_2.
    + vm_compute. lia.
  - intros m. eexists. split; [reflexivity|]. unfold roomy. split_and!; reflexivity.
  - reflexivity.
  - reflexivity.
  - reflexivity.
  - unfold roomy. split_and!; reflexivity.
Defined.
