(* ===== verification/Mkfs.v ===== *)
(** mkfs/mkfs.c: the host program that writes the disk image.

    The image file is a list of blocks.  The host's files are an argument:
    a name and, where open succeeds, the chunks its read calls return.  An
    assertion that fails and die() end the program with a message ([Panic]).
    A local [struct dinode] is an [inode] of which only the disk fields are
    used; xshort and xint are the identity on the values, the bytes are
    little-endian on every host. *)

From stdpp Require Import base gmap strings numbers list.
From S2P Require Import Prelude KState KString Spinlock Printf ProcSync SyncSpec Bio BioRing BioSpec.
From S2P Require Import BlockStore Log LogDisk LogSpec LogOps FsTx Kalloc Vm VmPte VmTree VmSpec VmCopy.
From S2P Require Import Fs FsBlock FsInode FsFile FsRw FsWrite FsPath.

(** * The program *)

Record mkfs_state := mkmkfs { m_img : list (list Z); m_freeinode : Z; m_freeblock : Z }.
Definition MK (A : Type) : Type := M mkfs_state A.

Definition die {A} (msg : string) : MK A := fun s => Panic msg s.
Definition assert_ (b : bool) (msg : string) : MK unit := if b then ret tt else die msg.

Definition NINODES : Z := 200.
Definition nbitmap : Z := FSSIZE / BPB + 1.
Definition ninodeblocks : Z := NINODES / IPB + 1.
Definition nlog : Z := LOGBLOCKS + 1.
Definition nmeta : Z := 2 + nlog + ninodeblocks + nbitmap.
Definition mkfs_sb : superblock :=
  mksb FSMAGIC FSSIZE (FSSIZE - nmeta) NINODES nlog 2 (2 + nlog) (2 + nlog + ninodeblocks).

Definition xshort (x : Z) : Z := le_val (le_bytes 2 x).
Definition xint (x : Z) : Z := le_val (le_bytes 4 x).

Definition sb_bytes (sb : superblock) : list Z :=
  le_bytes 4 (sb_magic sb) ++ le_bytes 4 (sb_size sb) ++ le_bytes 4 (sb_nblocks sb) ++ le_bytes 4 (sb_ninodes sb) ++
  le_bytes 4 (sb_nlog sb) ++ le_bytes 4 (sb_logstart sb) ++ le_bytes 4 (sb_inodestart sb) ++ le_bytes 4 (sb_bmapstart sb).

(** the block lseek(fsfd, sec * BSIZE, 0) goes to; the product is 32 bits *)
Definition sector (sec : Z) : nat := Z.to_nat (u32 (sec * BSIZE) / BSIZE).

(** write(2) past the end of the file fills the gap with zeroes *)
Definition put_block (k : nat) (d : list Z) (img : list (list Z)) : list (list Z) :=
  if decide (k < length img)%nat then <[k := d]> img
  else img ++ replicate (k - length img) zero_block ++ [d].

Definition wsect (sec : Z) (buf : list Z) : MK unit :=
  modify (fun s => mkmkfs (put_block (sector sec) buf (m_img s)) (m_freeinode s) (m_freeblock s)).

Definition rsect (sec : Z) : MK (list Z) :=
  fun s => match m_img s !! sector sec with Some d => Ok d s | None => Panic "read" s end.

Definition winode (inum : Z) (ip : inode) : MK unit :=
  let bn := IBLOCK inum mkfs_sb in
  let! buf := rsect bn in
  wsect bn (splice (dinode_off inum) (dinode_bytes ip) buf).

Definition rinode (inum : Z) : MK inode :=
  let! buf := rsect (IBLOCK inum mkfs_sb) in
  ret (load_dinode buf (dinode_off inum) inode0).

(** [freeinode++], [freeblock++] *)
Definition next_inode : MK Z :=
  fun s => Ok (m_freeinode s) (mkmkfs (m_img s) (u32 (m_freeinode s + 1)) (m_freeblock s)).
Definition next_block : MK Z :=
  fun s => Ok (m_freeblock s) (mkmkfs (m_img s) (m_freeinode s) (u32 (m_freeblock s + 1))).

Definition new_dinode (type : Z) : inode :=
  mkinode 0 0 0 sleeplock0 0 (s16 type) 0 0 1 0 (replicate (Z.to_nat (NDIRECT + 1)) 0).

Definition mk_ialloc (type : Z) : MK Z :=
  let! inum := next_inode in
  winode inum (new_dinode (xshort type)) ;;
  ret inum.

(** the disk block of file block [fbn], and the dinode with it *)
Definition mk_block (din : inode) (fbn : Z) : MK (Z * inode) :=
  if fbn <? NDIRECT then
    if xint (zget (i_addrs din) fbn) =? 0 then
      let! b := next_block in
      let din := i_set_addrs (fun a => zput a fbn (xint b)) din in
      ret (xint (zget (i_addrs din) fbn), din)
    else ret (xint (zget (i_addrs din) fbn), din)
  else
    let! din :=
      if xint (zget (i_addrs din) NDIRECT) =? 0 then
        let! b := next_block in
        ret (i_set_addrs (fun a => zput a NDIRECT (xint b)) din)
      else ret din in
    let! indirect := rsect (xint (zget (i_addrs din) NDIRECT)) in
    let! indirect :=
      if get32 indirect (4 * (fbn - NDIRECT)) =? 0 then
        let! b := next_block in
        let indirect := put32 indirect (4 * (fbn - NDIRECT)) (xint b) in
        wsect (xint (zget (i_addrs din) NDIRECT)) indirect ;;
        ret indirect
      else ret indirect in
    ret (xint (get32 indirect (4 * (fbn - NDIRECT))), din).

(** the loop of iappend; the variables are [p] (with [n] its length), [off]
    and [din] *)
Definition iappend_body (i : list Z * Z * inode) : MK (list Z * Z * inode + Z * inode) :=
  let '(p, off, din) := i in
  match p with
  | [] => ret (inr (off, din))
  | _ :: _ =>
      let n := Z.of_nat (length p) in
      let fbn := off / BSIZE in
      assert_ (fbn <? MAXFILE) "fbn < MAXFILE" ;;
      let! ' (x, din) := mk_block din fbn in
      let n1 := Z.min n ((fbn + 1) * BSIZE - off) in
      let! buf := rsect x in
      wsect x (splice (off - fbn * BSIZE) (take (Z.to_nat n1) p) buf) ;;
      ret (inl (drop (Z.to_nat n1) p, u32 (off + n1), din))
  end.

Definition iappend (inum : Z) (p : list Z) : MK unit :=
  let! din := rinode inum in
  let! ' (off, din) := whileM (length p + 1) iappend_body (p, xint (i_size din), din) in
  winode inum (i_set_size (fun _ => xint off) din).

Definition mk_balloc (used : Z) : MK unit :=
  assert_ (used <? BPB) "used < BPB" ;;
  wsect (sb_bmapstart mkfs_sb)
    (foldl (fun buf i => zput buf (i / 8) (Z.lor (zget buf (i / 8)) (Z.shiftl 1 (i mod 8)))) zero_block
           (zseq 0 (Z.to_nat used))).

(** a zeroed dirent with the inode number and a name *)
Definition mk_dirent (inum : Z) (name : list Z) : list Z :=
  le_bytes 2 (xshort inum) ++ name ++ replicate (Z.to_nat DIRSIZ - length name) 0.

Record host_file := mkhost { hf_name : list Z; hf_chunks : option (list (list Z)) }.

(** [shortname], before and after the leading underscore is skipped *)
Definition USER_PREFIX : list Z := bytes_of_string "user/".
Definition base_name (name : list Z) : list Z :=
  if bool_decide (take 5 name = USER_PREFIX) then drop 5 name else name.
Definition skip_underscore (name : list Z) : list Z :=
  match name with c :: l => if c =? 95 then l else name | [] => [] end.

Definition mk_file (rootino : Z) (f : host_file) : MK unit :=
  let shortname := base_name (hf_name f) in
  assert_ (bool_decide (SLASH ∉ shortname)) "index(shortname, '/') == 0" ;;
  match hf_chunks f with
  | None => die "open"
  | Some chunks =>
      let shortname := skip_underscore shortname in
      assert_ (bool_decide (length shortname <= Z.to_nat DIRSIZ)%nat) "strlen(shortname) <= DIRSIZ" ;;
      let! inum := mk_ialloc T_FILE in
      iappend rootino (mk_dirent inum shortname) ;;
      forM_ chunks (iappend inum)
  end.

Definition mkfs (files : list host_file) : MK unit :=
  forM_ (zseq 0 (Z.to_nat FSSIZE)) (fun i => wsect i zero_block) ;;
  wsect 1 (splice 0 (sb_bytes mkfs_sb) zero_block) ;;
  let! rootino := mk_ialloc T_DIR in
  assert_ (rootino =? ROOTINO) "rootino == ROOTINO" ;;
  iappend rootino (mk_dirent rootino (bytes_of_string ".")) ;;
  iappend rootino (mk_dirent rootino (bytes_of_string "..")) ;;
  forM_ files (mk_file rootino) ;;
  let! din := rinode rootino in
  winode rootino (i_set_size (fun _ => xint (u32 ((xint (i_size din) / BSIZE + 1) * BSIZE))) din) ;;
  let! used := gets m_freeblock in
  mk_balloc (s32 used).

(** the state before main: an empty image *)
Definition mkfs_start : mkfs_state := mkmkfs [] 1 nmeta.
