(* ===== verification/MkfsSpec.v ===== *)
(** The image mkfs writes is a file system in the kernel's sense: the layout
    of the super block, the bitmap and the block maps of the files satisfy
    the invariants FsBlock and FsFile rely on, and every file has the content
    of its host file. *)

From Stdlib Require Import FunctionalExtensionality.
From stdpp Require Import base gmap strings numbers list.
From S2P Require Import Prelude KState KString Spinlock Printf ProcSync SyncSpec Bio BioRing BioSpec.
From S2P Require Import BlockStore Log LogDisk LogSpec LogOps FsTx Kalloc Vm VmPte VmTree VmSpec VmCopy.
From S2P Require Import Fs FsBlock FsInode FsFile FsRw FsWrite FsPath Mkfs.

(** * The image as a view of blocks *)

Definition mview (img : list (list Z)) (n : Z) : list Z := if n <? 0 then [] else default [] (img !! Z.to_nat n).

(** the image is whole; [V] is its content *)
Record mk_at (s : mkfs_state) (V : Z -> list Z) (fi F : Z) : Prop := {
  ma_len : length (m_img s) = Z.to_nat FSSIZE;
  ma_view : mview (m_img s) = V;
  ma_blocks : forall n, 0 <= n < FSSIZE -> length (V n) = Z.to_nat BSIZE;
  ma_fi : m_freeinode s = fi;
  ma_F : m_freeblock s = F
}.

Lemma sector_small sec : 0 <= sec < FSSIZE -> sector sec = Z.to_nat sec.
Proof.
  intros H. unfold sector. change FSSIZE with 2000 in H. change BSIZE with 1024.
  rewrite u32_small by lia. by rewrite Z.div_mul.
Qed.

Lemma mview_insert img k d :
  (k < length img)%nat -> mview (<[k := d]> img) = vset (mview img) (Z.of_nat k) d.
Proof.
  intros Hk. apply functional_extensionality. intros n. unfold mview, vset.
  destruct (decide (n = Z.of_nat k)) as [->|Hne].
  - rewrite (proj2 (Z.ltb_ge _ _)) by lia. rewrite Nat2Z.id. by rewrite list_lookup_insert_eq.
  - destruct (Z.ltb_spec n 0); [done|]. by rewrite list_lookup_insert_ne by lia.
Qed.

Lemma wsect_at s V fi F sec d :
  mk_at s V fi F -> 0 <= sec < FSSIZE -> length d = Z.to_nat BSIZE ->
  exists s', wsect sec d s = Ok tt s' /\ mk_at s' (vset V sec d) fi F.
Proof.
  intros [A1 A2 A3 A4 A5] Hsec Hd. eexists. split; [reflexivity|].
  assert (Z.to_nat sec < length (m_img s))%nat as Hlt by (rewrite A1; lia).
  unfold put_block. rewrite sector_small by done. split; cbn [m_img m_freeinode m_freeblock].
  - rewrite decide_True by done. by rewrite length_insert.
  - rewrite decide_True by done. rewrite mview_insert by done. rewrite A2, Z2Nat.id by lia. done.
  - intros n Hn. unfold vset. destruct (decide (n = sec)); [done|by apply A3].
  - done.
  - done.
Qed.

Lemma rsect_at s V fi F sec : mk_at s V fi F -> 0 <= sec < FSSIZE -> rsect sec s = Ok (V sec) s.
Proof.
  intros [A1 A2 A3 A4 A5] Hsec. unfold rsect. rewrite sector_small by done.
  destruct (lookup_lt_is_Some_2 (m_img s) (Z.to_nat sec)) as [d Hd]; [rewrite A1; lia|].
  rewrite Hd, <-A2. unfold mview. rewrite (proj2 (Z.ltb_ge _ _)) by lia. by rewrite Hd.
Qed.

Lemma next_block_at s V fi F :
  mk_at s V fi F -> 0 <= F < FSSIZE -> exists s', next_block s = Ok F s' /\ mk_at s' V fi (F + 1).
Proof.
  intros [A1 A2 A3 A4 A5] HF. unfold next_block. rewrite A5. eexists. split; [reflexivity|]. split; try done.
  cbn [m_freeblock]. apply u32_small. change FSSIZE with 2000 in HF. lia.
Qed.

Lemma xint_small x : 0 <= x < 2 ^ 32 -> xint x = x.
Proof. intros H. unfold xint. by apply le_val_bytes_small. Qed.

(** * The block maps of all files *)

Definition dset (D : Z -> inode) (i : Z) (x : inode) : Z -> inode := fun j => if decide (j = i) then x else D j.

Record mk_inv (V : Z -> list Z) (D : Z -> inode) (fi F : Z) : Prop := {
  mi_F : nmeta <= F <= FSSIZE;
  mi_zero b : F <= b < FSSIZE -> V b = zero_block;
  mi_len i : 1 <= i < fi -> length (i_addrs (D i)) = Z.to_nat (NDIRECT + 1);
  mi_range i k : 1 <= i < fi -> 0 <= k <= MAXFILE -> faddr V (D i) k <> 0 -> nmeta <= faddr V (D i) k < F;
  mi_inj i j k l : 1 <= i < fi -> 1 <= j < fi -> 0 <= k <= MAXFILE -> 0 <= l <= MAXFILE ->
    faddr V (D i) k <> 0 -> faddr V (D i) k = faddr V (D j) l -> i = j /\ k = l
}.

(** the addresses a file of [sz] bytes has *)
Definition present (sz k : Z) : Prop := if decide (k = MAXFILE) then NDIRECT * BSIZE < sz else k * BSIZE < sz.
Definition pres (V : Z -> list Z) (ino : inode) (sz : Z) : Prop :=
  forall k, 0 <= k <= MAXFILE -> (faddr V ino k <> 0 <-> present sz k).

(** the disk blocks a file of [sz] bytes takes *)
Definition nb (sz : Z) : Z := (sz + BSIZE - 1) / BSIZE + if decide (NDIRECT * BSIZE < sz) then 1 else 0.

(** the files other than [i] are where they were, with their content *)
Definition untouched (V : Z -> list Z) (D : Z -> inode) (fi i : Z) (V' : Z -> list Z) : Prop :=
  forall j k, 1 <= j < fi -> j <> i -> 0 <= k <= MAXFILE ->
    faddr V' (D j) k = faddr V (D j) k /\ (faddr V (D j) k <> 0 -> V' (faddr V (D j) k) = V (faddr V (D j) k)).
Definition meta_same (V V' : Z -> list Z) : Prop := forall b, 0 <= b < nmeta -> V' b = V b.

Lemma untouched_refl V D fi i : untouched V D fi i V.
Proof. by intros j k. Qed.
Lemma untouched_trans V1 V2 V3 D fi i : untouched V1 D fi i V2 -> untouched V2 D fi i V3 -> untouched V1 D fi i V3.
Proof.
  intros H1 H2 j k Hj Hne Hk. destruct (H1 j k Hj Hne Hk) as [E1 C1], (H2 j k Hj Hne Hk) as [E2 C2].
  split; [congruence|]. intros Hnz. rewrite <-E1 in *. rewrite C2 by done. rewrite E1 in *. by apply C1.
Qed.

(** slot [k] of file [i] has become the next free block *)
Record mslot (V : Z -> list Z) (D : Z -> inode) (fi F i : Z) (din : inode) (k : Z) (V' : Z -> list Z) (din' : inode) : Prop := {
  ml_slot k' : 0 <= k' <= MAXFILE -> faddr V' din' k' = if decide (k' = k) then F else faddr V din k';
  ml_len : length (i_addrs din') = Z.to_nat (NDIRECT + 1);
  ml_inode : din' = i_set_addrs (fun _ => i_addrs din') din;
  ml_own k' : 0 <= k' < MAXFILE -> faddr V din k' <> 0 -> V' (faddr V din k') = V (faddr V din k');
  ml_other : untouched V D fi i V';
  ml_meta : meta_same V V';
  ml_zero b : F <= b < FSSIZE -> V' b = zero_block
}.

Lemma mslot_inv V D fi F i din k V' din' :
  mk_inv V (dset D i din) fi F -> F < FSSIZE -> 1 <= i < fi -> 0 <= k <= MAXFILE ->
  mslot V D fi F i din k V' din' -> mk_inv V' (dset D i din') fi (F + 1).
Proof.
  intros [M1 M2 M3 M4 M5] HF Hi Hk [S1 S2 S3 S4 S5 S6 S7].
  assert (forall j k', 1 <= j < fi -> 0 <= k' <= MAXFILE ->
    faddr V' (dset D i din' j) k' = if decide (j = i /\ k' = k) then F else faddr V (dset D i din j) k') as Hf.
  { intros j k' Hj Hk'. unfold dset. destruct (decide (j = i)) as [->|Hne].
    - rewrite S1 by done. destruct (decide (k' = k)); [by rewrite decide_True|by rewrite decide_False by tauto].
    - rewrite decide_False by tauto. by apply S5. }
  split.
  - lia.
  - intros b Hb. apply S7. lia.
  - intros j Hj. unfold dset. destruct (decide (j = i)); [done|]. specialize (M3 j Hj). unfold dset in M3.
    by rewrite decide_False in M3.
  - intros j k' Hj Hk'. rewrite Hf by done. destruct (decide (j = i /\ k' = k)); [lia|].
    intros Hnz. specialize (M4 j k' Hj Hk' Hnz). lia.
  - intros j1 j2 k1 k2 H1 H2 Hk1 Hk2. rewrite !Hf by done.
    destruct (decide (j1 = i /\ k1 = k)) as [[-> ->]|N1], (decide (j2 = i /\ k2 = k)) as [[-> ->]|N2]; try done.
    + intros _ E. exfalso. assert (faddr V (dset D i din j2) k2 <> 0) as Hnz.
      { change nmeta with 47 in *. lia. }
      specialize (M4 j2 k2 H2 Hk2 Hnz). lia.
    + intros Hnz E. exfalso. specialize (M4 j1 k1 H1 Hk1 Hnz). lia.
    + by apply M5.
Qed.

Lemma dset_eq D i x : dset D i x i = x.
Proof. unfold dset. by rewrite decide_True. Qed.
Lemma dset_ne D i x j : j <> i -> dset D i x j = D j.
Proof. intros H. unfold dset. by rewrite decide_False. Qed.

Section slots.
Context (V : Z -> list Z) (D : Z -> inode) (fi F i : Z) (din : inode).
Hypothesis HM : mk_inv V (dset D i din) fi F.
Hypothesis Hi : 1 <= i < fi.
Hypothesis HF : F < FSSIZE.

Lemma own_len : length (i_addrs din) = Z.to_nat (NDIRECT + 1).
Proof. pose proof (mi_len _ _ _ _ HM i Hi) as H. by rewrite dset_eq in H. Qed.

Lemma own_range k : 0 <= k <= MAXFILE -> faddr V din k <> 0 -> nmeta <= faddr V din k < F.
Proof. intros Hk. pose proof (mi_range _ _ _ _ HM i k Hi Hk) as H. by rewrite dset_eq in H. Qed.

Lemma own_inj : file_inj V din.
Proof.
  intros k l Hk Hl Hnz E. pose proof (mi_inj _ _ _ _ HM i i k l Hi Hi Hk Hl) as H. rewrite dset_eq in H.
  by destruct (H Hnz E).
Qed.

(** no block of the file belongs to another one *)
Lemma other_ne j k l :
  1 <= j < fi -> j <> i -> 0 <= k <= MAXFILE -> 0 <= l <= MAXFILE -> faddr V din k <> 0 -> faddr V (D j) l <> faddr V din k.
Proof.
  intros Hj Hne Hk Hl Hnz E. pose proof (mi_inj _ _ _ _ HM i j k l Hi Hj Hk Hl) as H.
  rewrite dset_eq, dset_ne in H by done. destruct (H Hnz) as [E' _]; [done|]. by apply Hne.
Qed.

Lemma next_bounds : nmeta <= F < 2 ^ 32.
Proof. destruct (mi_F _ _ _ _ HM). change FSSIZE with 2000 in *. lia. Qed.

Lemma slot_direct k :
  0 <= k < NDIRECT -> mslot V D fi F i din k V (with_addr k F din).
Proof.
  intros Hk. split; try done.
  - intros k' Hk'. apply faddr_direct; [apply own_len|done|lia].
  - unfold with_addr. cbn [i_set_addrs i_addrs]. rewrite length_zput. apply own_len.
  - intros b Hb. apply (mi_zero _ _ _ _ HM). lia.
Qed.

Lemma slot_ind : ind_block din = 0 -> mslot V D fi F i din MAXFILE V (with_addr NDIRECT F din).
Proof.
  intros H0. split; try done.
  - intros k' Hk'. apply faddr_indirect; [apply own_len|done| |apply (mi_zero _ _ _ _ HM); lia|lia].
    pose proof next_bounds. change nmeta with 47 in *. lia.
  - unfold with_addr. cbn [i_set_addrs i_addrs]. rewrite length_zput. apply own_len.
  - intros b Hb. apply (mi_zero _ _ _ _ HM). lia.
Qed.

(** a block of the file is written: the others do not notice *)
Lemma write_own k d :
  0 <= k <= MAXFILE -> faddr V din k <> 0 ->
  untouched V D fi i (vset V (faddr V din k) d) /\ meta_same V (vset V (faddr V din k) d) /\
  forall b, F <= b < FSSIZE -> vset V (faddr V din k) d b = zero_block.
Proof.
  intros Hk Hnz. pose proof (own_range k Hk Hnz) as Hr.
  assert (forall b, b <> faddr V din k -> vset V (faddr V din k) d b = V b) as Hv.
  { intros b Hb. unfold vset. by rewrite decide_False. }
  split; [|split].
  - intros j l Hj Hne Hl. split.
    + apply faddr_ext. intros _. apply Hv. rewrite <-(faddr_ind V). by apply other_ne.
    + intros _. apply Hv. by apply other_ne.
  - intros b Hb. apply Hv. lia.
  - intros b Hb. rewrite Hv by lia. apply (mi_zero _ _ _ _ HM). lia.
Qed.

Lemma slot_entry k :
  ind_block din <> 0 -> NDIRECT <= k < MAXFILE -> length (V (ind_block din)) = Z.to_nat BSIZE ->
  mslot V D fi F i din k (vset V (ind_block din) (put32 (V (ind_block din)) (4 * (k - NDIRECT)) F)) din.
Proof.
  intros Hnz Hk Hl. assert (0 <= NDIRECT) as Hn0 by done.
  destruct (write_own MAXFILE (put32 (V (ind_block din)) (4 * (k - NDIRECT)) F)) as (H1 & H2 & H3);
    [by split|by rewrite faddr_ind|]. rewrite faddr_ind in H1, H2, H3. split; try done.
  - intros k' Hk'. apply faddr_entry; try done. pose proof next_bounds. change nmeta with 47 in *. lia.
  - apply own_len.
  - by destruct din.
  - intros k' Hk' Hnz'. unfold vset. rewrite decide_False; [done|]. intros E. rewrite <-(faddr_ind V) in E.
    assert (k' = MAXFILE) by (apply own_inj; (done || lia)). lia.
Qed.
End slots.

(** ** The size of a file and its blocks *)

Lemma nb_same off : 0 <= off -> off mod BSIZE <> 0 ->
  nb (off + 1) = nb off /\ forall k, present (off + 1) k <-> present off k.
Proof.
  intros Ho Hm. unfold nb, present. change BSIZE with 1024 in *. change NDIRECT with 12 in *. split.
  - destruct (decide (12 * 1024 < off + 1)), (decide (12 * 1024 < off)); Z.to_euclidean_division_equations; lia.
  - intros k. destruct (decide (k = MAXFILE)); Z.to_euclidean_division_equations; lia.
Qed.

Lemma nb_next off : 0 <= off < MAXFILE * BSIZE -> off mod BSIZE = 0 ->
  nb (off + 1) = nb off + (if decide (off / BSIZE = NDIRECT) then 2 else 1) /\ ~ present off (off / BSIZE) /\
  (present off MAXFILE <-> NDIRECT < off / BSIZE) /\
  forall k, 0 <= k -> (present (off + 1) k <-> k = off / BSIZE \/ (k = MAXFILE /\ off / BSIZE = NDIRECT) \/ present off k).
Proof.
  intros Ho Hm. unfold nb, present. change MAXFILE with 268 in *. change BSIZE with 1024 in *. change NDIRECT with 12 in *.
  split; [|split; [|split]].
  - destruct (decide (12 * 1024 < off + 1)), (decide (12 * 1024 < off)), (decide (off / 1024 = 12));
      Z.to_euclidean_division_equations; lia.
  - destruct (decide (off / 1024 = 268)); Z.to_euclidean_division_equations; lia.
  - destruct (decide (268 = 268)); [|done]. Z.to_euclidean_division_equations; lia.
  - intros k Hk. destruct (decide (k = 268)); Z.to_euclidean_division_equations; lia.
Qed.

(** the file [i] has grown, with nothing lost *)
Record mk_grown (V : Z -> list Z) (D : Z -> inode) (fi i : Z) (din : inode) (V' : Z -> list Z) (din' : inode) : Prop := {
  mg_own k : 0 <= k < MAXFILE -> fblock V din k <> 0 ->
    fblock V' din' k = fblock V din k /\ V' (fblock V din k) = V (fblock V din k);
  mg_other : untouched V D fi i V';
  mg_meta : meta_same V V';
  mg_inode : din' = i_set_addrs (fun _ => i_addrs din') din
}.

Lemma mk_grown_refl V D fi i din : mk_grown V D fi i din V din.
Proof. split; try done. by destruct din. Qed.

Lemma mk_grown_trans V1 V2 V3 D fi i d1 d2 d3 :
  mk_grown V1 D fi i d1 V2 d2 -> mk_grown V2 D fi i d2 V3 d3 -> mk_grown V1 D fi i d1 V3 d3.
Proof.
  intros [A1 A2 A3 A4] [B1 B2 B3 B4]. split.
  - intros k Hk Hnz. destruct (A1 k Hk Hnz) as [E1 C1]. destruct (B1 k Hk) as [E2 C2]; [congruence|].
    rewrite E1 in *. split; [done|congruence].
  - by eapply untouched_trans.
  - intros b Hb. rewrite B3, A3 by done. done.
  - rewrite B4, A4. done.
Qed.

Lemma mslot_grown V D fi F i din k V' din' :
  mslot V D fi F i din k V' din' -> faddr V din k = 0 -> mk_grown V D fi i din V' din'.
Proof.
  intros [S1 S2 S3 S4 S5 S6 S7] H0. split; try done. intros k' Hk'.
  rewrite <-(faddr_block V din), <-(faddr_block V' din') by lia. intros Hnz.
  split; [|by apply S4]. rewrite S1 by lia. rewrite decide_False; [done|]. by intros ->.
Qed.

(** the presence of the blocks after a slot has been filled *)
Lemma mslot_pres V D fi F i din k V' din' k' :
  mslot V D fi F i din k V' din' -> F <> 0 -> 0 <= k' <= MAXFILE ->
  (faddr V' din' k' <> 0 <-> k' = k \/ faddr V din k' <> 0).
Proof.
  intros S HF Hk'. rewrite (ml_slot _ _ _ _ _ _ _ _ _ S) by done. destruct (decide (k' = k)) as [->|]; tauto.
Qed.

Lemma fblock_faddr_ind V din k :
  NDIRECT <= k -> ind_block din <> 0 -> fblock V din k = get32 (V (ind_block din)) (4 * (k - NDIRECT)).
Proof.
  intros Hk Hnz. unfold fblock. rewrite (proj2 (Z.ltb_ge _ _)) by lia. by rewrite (proj2 (Z.eqb_neq _ _) Hnz).
Qed.

Lemma fblock_direct V din k : k < NDIRECT -> fblock V din k = zget (i_addrs din) k.
Proof. intros Hk. unfold fblock. by rewrite (proj2 (Z.ltb_lt _ _)) by lia. Qed.

(** mk_block where the block exists *)
Lemma mk_block_hit s V D fi F i din fbn :
  mk_at s V fi F -> mk_inv V (dset D i din) fi F -> 1 <= i < fi -> 0 <= fbn < MAXFILE -> fblock V din fbn <> 0 ->
  mk_block din fbn s = Ok (fblock V din fbn, din) s.
Proof.
  intros A M Hi Hb Hnz.
  assert (forall k, 0 <= k <= MAXFILE -> faddr V din k <> 0 -> 0 <= faddr V din k < FSSIZE) as Hr.
  { intros k Hk Hk0. pose proof (own_range _ _ _ _ _ _ M Hi k Hk Hk0). destruct (mi_F _ _ _ _ M).
    change nmeta with 47 in *. lia. }
  assert (forall k, 0 <= k <= MAXFILE -> faddr V din k <> 0 -> xint (faddr V din k) = faddr V din k) as Hx.
  { intros k Hk Hk0. apply xint_small. specialize (Hr k Hk Hk0). change FSSIZE with 2000 in *. lia. }
  assert (xint (fblock V din fbn) = fblock V din fbn) as Ex.
  { specialize (Hx fbn ltac:(lia)). rewrite faddr_block in Hx by lia. by apply Hx. }
  unfold mk_block. destruct (Z.ltb_spec fbn NDIRECT) as [Hlt|Hge].
  - rewrite <-(fblock_direct V din fbn), Ex by done. by rewrite (proj2 (Z.eqb_neq _ _) Hnz).
  - assert (ind_block din <> 0) as Hind.
    { intros E. apply Hnz. unfold fblock. rewrite (proj2 (Z.ltb_ge _ _)) by lia. by rewrite E. }
    assert (xint (ind_block din) = ind_block din) as Exi by (apply (Hx MAXFILE); [by split|done]).
    change (zget (i_addrs din) NDIRECT) with (ind_block din). rewrite Exi, (proj2 (Z.eqb_neq _ _) Hind), bind_ret.
    change (zget (i_addrs din) NDIRECT) with (ind_block din). rewrite Exi.
    erewrite bind_ok by (eapply rsect_at; [exact A|]; apply (Hr MAXFILE); [by split|done]).
    rewrite <-(fblock_faddr_ind V din fbn), (proj2 (Z.eqb_neq _ _) Hnz) by done. rewrite bind_ret.
    rewrite <-(fblock_faddr_ind V din fbn), Ex by done. done.
Qed.

(** mk_block from where the indirect block is read *)
Definition mk_entry (din : inode) (fbn : Z) : MK (Z * inode) :=
  let! indirect := rsect (xint (zget (i_addrs din) NDIRECT)) in
  let! indirect :=
    if get32 indirect (4 * (fbn - NDIRECT)) =? 0 then
      let! b := next_block in
      let indirect := put32 indirect (4 * (fbn - NDIRECT)) (xint b) in
      wsect (xint (zget (i_addrs din) NDIRECT)) indirect ;;
      ret indirect
    else ret indirect in
  ret (xint (get32 indirect (4 * (fbn - NDIRECT))), din).

Lemma mk_entry_new s V D fi F i din k :
  mk_at s V fi F -> mk_inv V (dset D i din) fi F -> 1 <= i < fi -> F < FSSIZE ->
  ind_block din <> 0 -> NDIRECT <= k < MAXFILE -> fblock V din k = 0 ->
  exists s' V', mk_entry din k s = Ok (F, din) s' /\ mk_at s' V' fi (F + 1) /\ mslot V D fi F i din k V' din.
Proof.
  intros A M Hi HF Hind Hk H0. pose proof (next_bounds _ _ _ _ _ _ M HF) as HFb.
  pose proof (own_range _ _ _ _ _ _ M Hi MAXFILE ltac:(by split) Hind) as Hr. rewrite faddr_ind in Hr.
  assert (0 <= ind_block din < FSSIZE) as Hir by (change nmeta with 47 in *; lia).
  assert (xint (ind_block din) = ind_block din) as Exi by (apply xint_small; change FSSIZE with 2000 in *; lia).
  pose proof (ma_blocks _ _ _ _ A _ Hir) as Hlen.
  destruct (next_block_at s V fi F A) as (s1 & E1 & A1); [change nmeta with 47 in *; lia|].
  set (d := put32 (V (ind_block din)) (4 * (k - NDIRECT)) F).
  assert (0 <= 4 * (k - NDIRECT) /\ 4 * (k - NDIRECT) + 4 <= Z.of_nat (length (V (ind_block din)))) as [Ho1 Ho2].
  { rewrite Hlen. change (Z.of_nat (Z.to_nat BSIZE)) with 1024. change MAXFILE with 268 in *. change NDIRECT with 12 in *. lia. }
  destruct (wsect_at s1 V fi (F + 1) (ind_block din) d A1 Hir) as (s2 & E2 & A2).
  { unfold d. by rewrite length_put32. }
  exists s2, (vset V (ind_block din) d). split; [|split; [done|by apply slot_entry]].
  unfold mk_entry. change (zget (i_addrs din) NDIRECT) with (ind_block din). rewrite Exi.
  erewrite bind_ok by (by eapply rsect_at). rewrite <-(fblock_faddr_ind V din k), H0 by (done || lia). cbn [Z.eqb].
  rewrite (bind_ok _ _ s d s2).
  2: { erewrite bind_ok by exact E1. cbv zeta. rewrite (xint_small F) by (change nmeta with 47 in *; lia). fold d.
    by erewrite bind_ok by exact E2. }
  unfold d. rewrite get32_put32_eq by done. rewrite u32_small by (change nmeta with 47 in *; lia).
  by rewrite xint_small by (change nmeta with 47 in *; lia).
Qed.

Lemma mk_direct_new s V D fi F i din k :
  mk_at s V fi F -> mk_inv V (dset D i din) fi F -> 1 <= i < fi -> F < FSSIZE -> 0 <= k < NDIRECT -> fblock V din k = 0 ->
  exists s', mk_block din k s = Ok (F, with_addr k F din) s' /\ mk_at s' V fi (F + 1) /\
    mslot V D fi F i din k V (with_addr k F din).
Proof.
  intros A M Hi HF Hk H0. pose proof (next_bounds _ _ _ _ _ _ M HF) as HFb.
  destruct (next_block_at s V fi F A) as (s1 & E1 & A1); [change nmeta with 47 in *; lia|].
  exists s1. split; [|split; [done|by apply slot_direct]].
  unfold mk_block. rewrite (proj2 (Z.ltb_lt k NDIRECT)) by lia. rewrite <-(fblock_direct V din k), H0 by lia.
  change (xint 0) with 0. cbn [Z.eqb]. erewrite bind_ok by exact E1. cbv zeta.
  rewrite !(xint_small F) by (change nmeta with 47 in *; lia).
  change (i_set_addrs (fun a => zput a k F) din) with (with_addr k F din).
  assert (zget (i_addrs (with_addr k F din)) k = F) as ->.
  { unfold with_addr. cbn [i_set_addrs i_addrs]. apply zget_zput_eq. rewrite (own_len _ _ _ _ _ _ M Hi).
    change NDIRECT with 12 in *. change (Z.of_nat (Z.to_nat (12 + 1))) with 13. lia. }
  by rewrite xint_small by (change nmeta with 47 in *; lia).
Qed.

(** [iappend]'s block for offset [off] of a file that has its blocks up to
    [off]: the block exists afterwards, with those it needs *)
Lemma mk_block_run s V D fi F i din off :
  mk_at s V fi F -> mk_inv V (dset D i din) fi F -> 1 <= i < fi -> pres V din off -> 0 <= off < MAXFILE * BSIZE ->
  F + (nb (off + 1) - nb off) <= FSSIZE ->
  exists din' s' V', let F' := F + (nb (off + 1) - nb off) in
    mk_block din (off / BSIZE) s = Ok (fblock V' din' (off / BSIZE), din') s' /\ mk_at s' V' fi F' /\
    mk_inv V' (dset D i din') fi F' /\ pres V' din' (off + 1) /\ mk_grown V D fi i din V' din'.
Proof.
  intros A M Hi Hp Hoff Hfit. pose proof (fbn_range off Hoff) as Hb. set (fbn := off / BSIZE) in *.
  destruct (decide (off mod BSIZE = 0)) as [Hm|Hm].
  2: { destruct (nb_same off) as [En Hpr]; [lia|done|]. rewrite En, Z.sub_diag, Z.add_0_r.
    exists din, s, V. split; [|split; [done|split; [done|split; [|apply mk_grown_refl]]]].
    - eapply mk_block_hit; try done. rewrite <-faddr_block by lia. apply Hp; [lia|]. unfold present.
      rewrite decide_False by lia. unfold fbn. change BSIZE with 1024 in *. Z.to_euclidean_division_equations; lia.
    - intros k Hk. rewrite Hpr. by apply Hp. }
  destruct (nb_next off Hoff Hm) as (En & Hno & Hmax & Hpr). fold fbn in En, Hno, Hmax, Hpr.
  assert (F < FSSIZE) as HF by (rewrite En in Hfit; destruct (decide (fbn = NDIRECT)); lia).
  pose proof (next_bounds _ _ _ _ _ _ M HF) as HFb. change nmeta with 47 in HFb.
  assert (fblock V din fbn = 0) as H0.
  { destruct (decide (fblock V din fbn = 0)) as [|Hnz]; [done|]. exfalso. apply Hno, Hp; [lia|]. by rewrite faddr_block by lia. }
  assert (forall V' din' k, mslot V D fi F i din k V' din' -> k = fbn -> fblock V' din' fbn = F) as Hslot.
  { intros V' din' k S ->. rewrite <-faddr_block by lia. rewrite (ml_slot _ _ _ _ _ _ _ _ _ S) by lia. by rewrite decide_True. }
  destruct (Z.ltb_spec fbn NDIRECT) as [Hlt|Hge]; [|destruct (decide (fbn = NDIRECT)) as [Eq|Hne]].
  - rewrite decide_False in En by lia. replace (nb (off + 1) - nb off) with 1 by lia.
    destruct (mk_direct_new s V D fi F i din fbn A M Hi HF) as (s' & E & A' & S); [lia|done|].
    exists (with_addr fbn F din), s', V. split; [rewrite E; by rewrite (Hslot _ _ _ S)|]. split; [done|].
    split; [eapply (mslot_inv V D fi F i din fbn); [exact M|lia|done|lia|exact S]|]. split; [|eapply mslot_grown; [done|]; by rewrite faddr_block by lia].
    intros k Hk. rewrite (mslot_pres _ _ _ _ _ _ _ _ _ _ S), Hpr by (done || lia).
    pose proof (Hp k Hk). assert (fbn <> NDIRECT) by lia. tauto.
  - replace (nb (off + 1) - nb off) with 2 in * by lia.
    assert (ind_block din = 0) as Hi0.
    { destruct (decide (ind_block din = 0)); [done|]. exfalso. assert (present off MAXFILE) as HP by (apply Hp; [by split|done]).
      apply Hmax in HP. lia. }
    destruct (next_block_at s V fi F A) as (s1 & E1 & A1); [lia|].
    pose proof (slot_ind _ _ _ _ _ _ M Hi HF Hi0) as S1. set (din1 := with_addr NDIRECT F din) in *.
    assert (ind_block din1 = F) as Ei1.
    { rewrite <-(faddr_ind V). rewrite (ml_slot _ _ _ _ _ _ _ _ _ S1) by (by split). by rewrite decide_True. }
    assert (mk_inv V (dset D i din1) fi (F + 1)) as M1 by (eapply (mslot_inv V D fi F i din MAXFILE); [exact M|done|done|by split|exact S1]).
    assert (fblock V din1 fbn = 0) as H01.
    { rewrite <-faddr_block by lia. rewrite (ml_slot _ _ _ _ _ _ _ _ _ S1) by lia. rewrite decide_False by lia.
      by rewrite faddr_block by lia. }
    destruct (mk_entry_new s1 V D fi (F + 1) i din1 fbn A1 M1 Hi) as (s' & V' & E & A' & S); [lia|lia|lia|done|].
    exists din1, s', V'. rewrite <-Z.add_assoc in A'. split; [|split; [done|split; [|split]]].
    + assert (fblock V' din1 fbn = F + 1) as ->.
      { rewrite <-faddr_block by lia. rewrite (ml_slot _ _ _ _ _ _ _ _ _ S) by lia. by rewrite decide_True. }
      unfold mk_block. rewrite (proj2 (Z.ltb_ge fbn NDIRECT)) by lia. change (zget (i_addrs din) NDIRECT) with (ind_block din).
      rewrite Hi0. change (xint 0 =? 0) with true. cbv iota.
      rewrite (bind_ok _ _ s din1 s1); [exact E|]. erewrite bind_ok by exact E1. by rewrite (xint_small F) by lia.
    + eapply mslot_inv in S; [|exact M1|lia|done|lia]. by rewrite <-Z.add_assoc in S.
    + intros k Hk. rewrite (mslot_pres _ _ _ _ _ _ _ _ _ _ S), (mslot_pres _ _ _ _ _ _ _ _ _ _ S1), Hpr by (done || lia).
      pose proof (Hp k Hk). tauto.
    + eapply mk_grown_trans; [eapply mslot_grown; [exact S1|done]|]. eapply mslot_grown; [exact S|]. by rewrite faddr_block by lia.
  - replace (nb (off + 1) - nb off) with 1 by lia.
    assert (ind_block din <> 0) as Hind by (apply (Hp MAXFILE); [by split|]; apply Hmax; lia).
    destruct (mk_entry_new s V D fi F i din fbn A M Hi HF Hind) as (s' & V' & E & A' & S); [lia|done|].
    exists din, s', V'. split; [|split; [done|split; [eapply (mslot_inv V D fi F i din fbn); [exact M|lia|done|lia|exact S]|split]]].
    + rewrite (Hslot _ _ _ S) by done. unfold mk_block. rewrite (proj2 (Z.ltb_ge fbn NDIRECT)) by lia.
      change (zget (i_addrs din) NDIRECT) with (ind_block din).
      pose proof (own_range _ _ _ _ _ _ M Hi MAXFILE ltac:(by split) Hind) as Hr. rewrite faddr_ind in Hr.
      rewrite xint_small by (change nmeta with 47 in *; lia). rewrite (proj2 (Z.eqb_neq _ _) Hind), bind_ret. exact E.
    + intros k Hk. rewrite (mslot_pres _ _ _ _ _ _ _ _ _ _ S), Hpr by (done || lia). pose proof (Hp k Hk). tauto.
    + eapply mslot_grown; [exact S|]. by rewrite faddr_block by lia.
Qed.

(** * iappend *)

Lemma nb_block off m : 0 <= off -> 1 <= m -> off mod BSIZE + m <= BSIZE ->
  nb (off + m) = nb (off + 1) /\ forall k, present (off + m) k <-> present (off + 1) k.
Proof.
  intros Ho Hm Hfit. unfold nb, present. change BSIZE with 1024 in *. change NDIRECT with 12 in *. split.
  - destruct (decide (12 * 1024 < off + m)), (decide (12 * 1024 < off + 1)); Z.to_euclidean_division_equations; lia.
  - intros k. destruct (decide (k = MAXFILE)); Z.to_euclidean_division_equations; lia.
Qed.

Lemma nb_mono a b : 0 <= a <= b -> nb a <= nb b.
Proof.
  intros H. unfold nb. change BSIZE with 1024. change NDIRECT with 12.
  destruct (decide (12 * 1024 < a)), (decide (12 * 1024 < b)); Z.to_euclidean_division_equations; lia.
Qed.

(** writing a data block of file [i] *)
Lemma mk_inv_write V D fi F i din k d :
  mk_inv V (dset D i din) fi F -> 1 <= i < fi -> F <= FSSIZE -> 0 <= k < MAXFILE -> fblock V din k <> 0 ->
  let V' := vset V (fblock V din k) d in
  mk_inv V' (dset D i din) fi F /\ untouched V D fi i V' /\ meta_same V V' /\
  forall k', faddr V' din k' = faddr V din k'.
Proof.
  intros M Hi HF Hk Hnz V'. assert (faddr V din k = fblock V din k) as Ek by (apply faddr_block; lia).
  assert (forall k', faddr V' din k' = faddr V din k') as Hown.
  { intros k'. exact (fblock_vset V din k d k' (own_inj _ _ _ _ _ _ M Hi) Hk Hnz). }
  destruct (write_own V D fi F i din M Hi k d) as (Hu & Hm & Hz); [lia|by rewrite Ek|]. rewrite Ek in Hu, Hm, Hz. fold V' in Hu, Hm, Hz.
  assert (forall j k', 1 <= j < fi -> 0 <= k' <= MAXFILE -> faddr V' (dset D i din j) k' = faddr V (dset D i din j) k') as Hsame.
  { intros j k' Hj Hk'. unfold dset. destruct (decide (j = i)); [apply Hown|by apply Hu]. }
  split; [|by split_and!]. destruct M as [M1 M2 M3 M4 M5]. split; try done.
  - intros j k' Hj Hk'. rewrite Hsame by done. by apply M4.
  - intros j1 j2 k1 k2 H1 H2 Hk1 Hk2. rewrite !Hsame by done. by apply M5.
Qed.

(** what appending [d] at [off] did *)
Record mk_app (V : Z -> list Z) (D : Z -> inode) (fi i : Z) (din : inode) (off : Z) (d : list Z)
    (V' : Z -> list Z) (din' : inode) : Prop := {
  mp_written : written V din off d V' din';
  mp_other : untouched V D fi i V';
  mp_meta : meta_same V V';
  mp_inode : din' = i_set_addrs (fun _ => i_addrs din') din
}.

Lemma mk_app_trans V1 V2 V3 D fi i d1 d2 d3 off a b :
  mk_app V1 D fi i d1 off a V2 d2 -> mk_app V2 D fi i d2 (off + Z.of_nat (length a)) b V3 d3 ->
  mk_app V1 D fi i d1 off (a ++ b) V3 d3.
Proof.
  intros [A1 A2 A3 A4] [B1 B2 B3 B4]. split.
  - by eapply written_trans.
  - by eapply untouched_trans.
  - intros x Hx. rewrite B3, A3 by done. done.
  - rewrite B4, A4. done.
Qed.

Lemma iappend_body_eq p off din : p <> [] ->
  iappend_body (p, off, din) =
  (assert_ (off / BSIZE <? MAXFILE) "fbn < MAXFILE" ;;
   let! ' (x, din) := mk_block din (off / BSIZE) in
   let n1 := Z.min (Z.of_nat (length p)) ((off / BSIZE + 1) * BSIZE - off) in
   let! buf := rsect x in
   wsect x (splice (off - off / BSIZE * BSIZE) (take (Z.to_nat n1) p) buf) ;;
   ret (inl (drop (Z.to_nat n1) p, u32 (off + n1), din))).
Proof. by destruct p. Qed.

Lemma iappend_step s V D fi F i din off p :
  mk_at s V fi F -> mk_inv V (dset D i din) fi F -> 1 <= i < fi -> pres V din off -> p <> [] ->
  0 <= off -> off + Z.of_nat (length p) <= MAXFILE * BSIZE ->
  F + (nb (off + Z.of_nat (length p)) - nb off) <= FSSIZE ->
  let n1 := Z.min (Z.of_nat (length p)) (BSIZE - off mod BSIZE) in
  exists din' s' V', let F' := F + (nb (off + n1) - nb off) in
    iappend_body (p, off, din) s = Ok (inl (drop (Z.to_nat n1) p, off + n1, din')) s' /\ mk_at s' V' fi F' /\
    mk_inv V' (dset D i din') fi F' /\ pres V' din' (off + n1) /\ mk_app V D fi i din off (take (Z.to_nat n1) p) V' din'.
Proof.
  intros A M Hi Hp Hne Hoff Hend Hfit n1. pose proof (Z.mod_pos_bound off BSIZE ltac:(reflexivity)) as Hmod.
  assert (1 <= Z.of_nat (length p)) as Hlp by (destruct p; [done|simpl; lia]).
  assert (1 <= n1 <= Z.of_nat (length p)) as Hn1 by (unfold n1; lia).
  destruct (nb_block off n1) as [En Hpr]; [done|lia|unfold n1; lia|].
  pose proof (nb_mono (off + n1) (off + Z.of_nat (length p)) ltac:(lia)) as Hmn.
  destruct (mk_block_run s V D fi F i din off A M Hi Hp) as (din1 & s1 & V1 & E1 & A1 & M1 & P1 & G1); [lia|lia|].
  set (F' := F + (nb (off + 1) - nb off)) in *. set (fbn := off / BSIZE) in *.
  assert (0 <= fbn < MAXFILE) as Hb by (apply fbn_range; lia).
  assert (fblock V1 din1 fbn <> 0) as Hnz.
  { rewrite <-faddr_block by lia. apply P1; [lia|]. unfold present. rewrite decide_False by lia. unfold fbn.
    pose proof (Z.mul_div_le off BSIZE ltac:(reflexivity)). lia. }
  set (x := fblock V1 din1 fbn) in *. assert (0 <= x < FSSIZE) as Hx.
  { pose proof (own_range _ _ _ _ _ _ M1 Hi fbn ltac:(lia)) as Hr. rewrite faddr_block in Hr by lia. fold x in Hr.
    destruct (mi_F _ _ _ _ M1). specialize (Hr Hnz). change nmeta with 47 in *. lia. }
  set (d := take (Z.to_nat n1) p). assert (Z.of_nat (length d) = n1) as Hd by (unfold d; rewrite length_take; lia).
  pose proof (ma_blocks _ _ _ _ A1 x Hx) as Hlen.
  assert (off - fbn * BSIZE = off mod BSIZE) as Eo by (unfold fbn; rewrite (Z.div_mod off BSIZE) at 1 by done; lia).
  destruct (wsect_at s1 V1 fi F' x (splice (off mod BSIZE) d (V1 x)) A1 Hx) as (s2 & E2 & A2).
  { rewrite length_splice; [done|lia|]. rewrite Hlen. change (Z.of_nat (Z.to_nat BSIZE)) with BSIZE. unfold n1 in *; lia. }
  destruct (mk_inv_write V1 D fi F' i din1 fbn (splice (off mod BSIZE) d (V1 x)) M1 Hi) as (M2 & U2 & Me2 & Hsame);
    [apply (mi_F _ _ _ _ M1)|done|done|]. fold x in M2, U2, Me2, Hsame.
  exists din1, s2, (vset V1 x (splice (off mod BSIZE) d (V1 x))). rewrite En. fold F'.
  split; [|split; [done|split; [done|split]]].
  - rewrite iappend_body_eq by done. fold fbn.
    rewrite (proj2 (Z.ltb_lt fbn MAXFILE)) by lia. unfold assert_. rewrite bind_ret. erewrite bind_ok by exact E1. cbv iota beta zeta.
    replace ((fbn + 1) * BSIZE - off) with (BSIZE - off mod BSIZE) by lia. fold n1.
    erewrite bind_ok by (by eapply rsect_at). rewrite Eo. fold d. erewrite bind_ok by exact E2.
    rewrite u32_small by (change MAXFILE with 268 in *; change BSIZE with 1024 in *; lia). done.
  - intros k Hk. rewrite Hsame, Hpr. by apply P1.
  - split.
    + change d with ([] ++ d) at 1. eapply written_trans; [apply written_nil; apply (mg_own _ _ _ _ _ _ _ G1)|].
      cbn [length]. rewrite Z.add_0_r. unfold x. apply written_block; try done.
      * by apply (own_inj _ _ _ _ _ _ M1).
      * lia.
      * unfold n1 in *; lia.
      * intros E'. rewrite E' in Hd. simpl in Hd. lia.
    + eapply untouched_trans; [apply (mg_other _ _ _ _ _ _ _ G1)|done].
    + intros b Hb'. rewrite Me2 by done. by apply (mg_meta _ _ _ _ _ _ _ G1).
    + apply (mg_inode _ _ _ _ _ _ _ G1).
Qed.

Lemma iappend_loop fuel : forall s V D fi F i din off p,
  mk_at s V fi F -> mk_inv V (dset D i din) fi F -> 1 <= i < fi -> pres V din off ->
  0 <= off -> off + Z.of_nat (length p) <= MAXFILE * BSIZE ->
  F + (nb (off + Z.of_nat (length p)) - nb off) <= FSSIZE -> (length p < fuel)%nat ->
  exists din' s' V', let e := off + Z.of_nat (length p) in let F' := F + (nb e - nb off) in
    whileM fuel iappend_body (p, off, din) s = Ok (e, din') s' /\ mk_at s' V' fi F' /\
    mk_inv V' (dset D i din') fi F' /\ pres V' din' e /\ mk_app V D fi i din off p V' din'.
Proof.
  induction fuel as [|fuel IH]; intros s V D fi F i din off p A M Hi Hp Hoff Hend Hfit Hf; [lia|].
  destruct (decide (p = [])) as [->|Hne].
  { exists din, s, V. cbn [length]. change (Z.of_nat 0) with 0. cbv zeta. rewrite Z.add_0_r, Z.sub_diag, Z.add_0_r.
    split; [by apply whileM_stop|]. split; [done|]. split; [done|]. split; [done|].
    split; try done; [by apply written_nil|by destruct din]. }
  destruct (iappend_step s V D fi F i din off p A M Hi Hp Hne Hoff Hend Hfit) as (din1 & s1 & V1 & E1 & A1 & M1 & P1 & G1).
  set (n1 := Z.min (Z.of_nat (length p)) (BSIZE - off mod BSIZE)) in *.
  pose proof (Z.mod_pos_bound off BSIZE ltac:(reflexivity)) as Hmod.
  assert (1 <= Z.of_nat (length p)) as Hlp by (destruct p; [done|simpl; lia]).
  assert (1 <= n1 <= Z.of_nat (length p)) as Hn1 by (unfold n1; lia).
  assert (off + n1 + Z.of_nat (length (drop (Z.to_nat n1) p)) = off + Z.of_nat (length p)) as El by (rewrite length_drop; lia).
  destruct (IH s1 V1 D fi (F + (nb (off + n1) - nb off)) i din1 (off + n1) (drop (Z.to_nat n1) p))
    as (din' & s' & V' & E' & A' & M' & P' & G'); try done; try lia.
  { rewrite El. lia. }
  cbv zeta in E', A', M', P'. rewrite El in *. exists din', s', V'. cbv zeta.
  replace (F + (nb (off + Z.of_nat (length p)) - nb off))
    with (F + (nb (off + n1) - nb off) + (nb (off + Z.of_nat (length p)) - nb (off + n1))) by lia.
  split; [by rewrite (whileM_step _ _ _ _ _ _ E1)|]. split; [done|]. split; [done|]. split; [done|].
  rewrite <-(take_drop (Z.to_nat n1) p). eapply mk_app_trans; [exact G1|]. rewrite length_take.
  by replace (off + Z.of_nat (Z.to_nat n1 `min` length p)) with (off + n1) by lia.
Qed.

(** * The inodes of the image *)

Definition dino (V : Z -> list Z) (i : Z) : inode := disk_inode mkfs_sb V i inode0.

(** the view after winode *)
Definition winode_view (V : Z -> list Z) (i : Z) (ino : inode) : Z -> list Z :=
  vset V (IBLOCK i mkfs_sb) (splice (dinode_off i) (dinode_bytes ino) (V (IBLOCK i mkfs_sb))).

Lemma mkfs_layout : fs_layout 2 mkfs_sb FSSIZE.
Proof. split; vm_compute; congruence. Qed.

Lemma mk_iblock i : 0 <= i < NINODES ->
  IBLOCK i mkfs_sb = i / IPB + sb_inodestart mkfs_sb /\ 33 <= IBLOCK i mkfs_sb < 46 /\ 0 <= IBLOCK i mkfs_sb < FSSIZE.
Proof.
  intros Hi. destruct (iblock_in 2 mkfs_sb FSSIZE i mkfs_layout Hi) as [E H].
  split; [done|]. change (sb_inodestart mkfs_sb) with 33 in *. change (sb_bmapstart mkfs_sb) with 46 in H. change FSSIZE with 2000. lia.
Qed.

Lemma winode_at s V fi F i ino :
  mk_at s V fi F -> 0 <= i < NINODES -> dinode_ok ino ->
  exists s', winode i ino s = Ok tt s' /\ mk_at s' (winode_view V i ino) fi F.
Proof.
  intros A Hi Hok. destruct (mk_iblock i Hi) as (_ & _ & Hb). pose proof (ma_blocks _ _ _ _ A _ Hb) as Hlen.
  pose proof (dinode_off_in i) as Ho.
  destruct (wsect_at s V fi F (IBLOCK i mkfs_sb) (splice (dinode_off i) (dinode_bytes ino) (V (IBLOCK i mkfs_sb))) A Hb) as (s' & E & A').
  { rewrite length_splice; [done|lia|]. rewrite (length_dinode_bytes _ Hok), Hlen.
    change (Z.of_nat (Z.to_nat SIZEOF_DINODE)) with SIZEOF_DINODE. change (Z.of_nat (Z.to_nat BSIZE)) with BSIZE. lia. }
  exists s'. split; [|done]. unfold winode. cbv zeta. erewrite bind_ok by (by eapply rsect_at). exact E.
Qed.

Lemma rinode_at s V fi F i : mk_at s V fi F -> 0 <= i < NINODES -> rinode i s = Ok (dino V i) s.
Proof.
  intros A Hi. destruct (mk_iblock i Hi) as (_ & _ & Hb). unfold rinode. by erewrite bind_ok by (by eapply rsect_at).
Qed.

Lemma dino_winode V i ino :
  0 <= i < NINODES -> dinode_ok ino -> (forall n, 0 <= n < FSSIZE -> length (V n) = Z.to_nat BSIZE) ->
  i_dev ino = 0 -> i_inum ino = 0 -> i_ref ino = 0 -> i_lock ino = sleeplock0 -> i_valid ino = 0 ->
  dino (winode_view V i ino) i = ino /\
  forall j, 0 <= j < NINODES -> j <> i -> dino (winode_view V i ino) j = dino V j.
Proof.
  intros Hi Hok Hlen I1 I2 I3 I4 I5. destruct (mk_iblock i Hi) as (Ei & _ & Hb). specialize (Hlen _ Hb).
  pose proof (dinode_off_in i) as Ho. unfold dino, disk_inode, winode_view, vset. split.
  - rewrite decide_True by done.
    destruct (dinode_roundtrip (V (IBLOCK i mkfs_sb)) (dinode_off i) ino inode0) as (R1 & R2 & R3 & R4 & R5 & R6);
      [done|lia|rewrite Hlen; change (Z.of_nat (Z.to_nat BSIZE)) with BSIZE; lia|].
    unfold load_dinode in *. cbn [i_type i_major i_minor i_nlink i_size i_addrs] in *.
    rewrite R1, R2, R3, R4, R5, R6. destruct ino. cbn in *. by subst.
  - intros j Hj Hne. destruct (decide (IBLOCK j mkfs_sb = IBLOCK i mkfs_sb)) as [E|E]; [|done]. rewrite E.
    apply dinode_other; [done|lia|apply dinode_off_in|rewrite Hlen; change (Z.of_nat (Z.to_nat BSIZE)) with BSIZE; lia|].
    destruct (mk_iblock j Hj) as (Ej & _). unfold dinode_off. change SIZEOF_DINODE with 64. change IPB with 16 in *.
    Z.to_euclidean_division_equations; lia.
Qed.

Lemma s16_range x : - 2 ^ 15 <= s16 x < 2 ^ 15.
Proof.
  unfold s16, signed. pose proof (Z.mod_pos_bound x (2 ^ 16) ltac:(lia)). change (2 ^ (16 - 1)) with (2 ^ 15).
  destruct (Z.ltb_spec (x mod 2 ^ 16) (2 ^ 15)); lia.
Qed.

Lemma length_dino_addrs V i : length (i_addrs (dino V i)) = Z.to_nat (NDIRECT + 1).
Proof. unfold dino, disk_inode, load_dinode, di_addrs, zseq. cbn [i_addrs]. by rewrite !length_map, length_seq. Qed.

Lemma dset_id D i : dset D i (D i) = D.
Proof. apply functional_extensionality. intros j. unfold dset. by destruct (decide (j = i)) as [->|]. Qed.

(** the inodes only depend on the inode blocks *)
Lemma dino_same V V' i : 0 <= i < NINODES -> meta_same V V' -> dino V' i = dino V i.
Proof.
  intros Hi Hm. destruct (mk_iblock i Hi) as (_ & Hb & _). unfold dino, disk_inode. rewrite Hm; [done|].
  change nmeta with 47. lia.
Qed.

Lemma mk_inv_ext V D V' D' fi F :
  mk_inv V D fi F -> (forall j k, 1 <= j < fi -> 0 <= k <= MAXFILE -> faddr V' (D' j) k = faddr V (D j) k) ->
  (forall j, 1 <= j < fi -> length (i_addrs (D' j)) = Z.to_nat (NDIRECT + 1)) ->
  (forall b, F <= b < FSSIZE -> V' b = V b) -> mk_inv V' D' fi F.
Proof.
  intros [M1 M2 M3 M4 M5] Hf Hl Hz. split; try done.
  - intros b Hb. rewrite Hz by done. by apply M2.
  - intros j k Hj Hk. rewrite Hf by done. by apply M4.
  - intros j1 j2 k1 k2 H1 H2 Hk1 Hk2. rewrite !Hf by done. by apply M5.
Qed.

(** the file system between two operations of mkfs *)
Record mk_fs (V : Z -> list Z) (fi F : Z) : Prop := {
  mf_inv : mk_inv V (dino V) fi F;
  mf_fi : 1 <= fi <= NINODES;
  mf_size i : 1 <= i < fi -> 0 <= i_size (dino V i) <= MAXFILE * BSIZE;
  mf_pres i : 1 <= i < fi -> pres V (dino V i) (i_size (dino V i))
}.

Lemma pres_no_holes V ino sz : sz <= MAXFILE * BSIZE -> pres V ino sz -> no_holes V ino sz.
Proof.
  intros Hsz Hp k Hk Hlt. assert (k < MAXFILE) by (change MAXFILE with 268 in *; change BSIZE with 1024 in *; lia).
  rewrite <-faddr_block by done. apply Hp; [lia|]. unfold present. by rewrite decide_False by lia.
Qed.

(** the addresses of all files after a write to an inode block *)
Lemma faddr_winode V D fi F i ino j x k :
  mk_inv V D fi F -> 0 <= i < NINODES -> 1 <= j < fi -> i_addrs x = i_addrs (D j) -> 0 <= k <= MAXFILE ->
  faddr (winode_view V i ino) x k = faddr V (D j) k /\
  (faddr V (D j) k <> 0 -> winode_view V i ino (faddr V (D j) k) = V (faddr V (D j) k)).
Proof.
  intros M Hi Hj Ha Hk. destruct (mk_iblock i Hi) as (_ & Hb & _).
  assert (forall l, 0 <= l <= MAXFILE -> faddr V (D j) l <> 0 -> winode_view V i ino (faddr V (D j) l) = V (faddr V (D j) l)) as Hc.
  { intros l Hl Hnz. pose proof (mi_range _ _ _ _ M j l Hj Hl Hnz). unfold winode_view, vset.
    rewrite decide_False; [done|]. change nmeta with 47 in *. lia. }
  split; [|by apply Hc].
  transitivity (faddr (winode_view V i ino) (D j) k).
  - unfold faddr, fblock, ind_block. by rewrite Ha.
  - apply faddr_ext. intros Hnz. apply (Hc MAXFILE); [by split|done].
Qed.

(** what an operation on file [i] keeps of the others *)
Definition others_kept (V : Z -> list Z) (fi i : Z) (V' : Z -> list Z) : Prop :=
  (forall j, 1 <= j < fi -> j <> i -> dino V' j = dino V j /\ fcontent V' (dino V j) = fcontent V (dino V j)) /\
  forall b, 0 <= b < nmeta -> ~ 33 <= b < 46 -> V' b = V b.

(** writing inode [i] with the addresses of [D i] *)
Lemma mk_winode s V D fi F i ino :
  mk_at s V fi F -> mk_inv V D fi F -> 1 <= i < fi -> fi <= NINODES -> (forall j, 1 <= j < fi -> j <> i -> dino V j = D j) ->
  dinode_ok ino -> i_dev ino = 0 -> i_inum ino = 0 -> i_ref ino = 0 -> i_lock ino = sleeplock0 -> i_valid ino = 0 ->
  i_addrs ino = i_addrs (D i) ->
  exists s' V', winode i ino s = Ok tt s' /\ mk_at s' V' fi F /\ mk_inv V' (dino V') fi F /\ dino V' i = ino /\
    (forall j, 1 <= j < fi -> j <> i -> dino V' j = D j) /\
    (forall j k, 1 <= j < fi -> 0 <= k <= MAXFILE -> faddr V' (dino V' j) k = faddr V (D j) k /\
       (faddr V (D j) k <> 0 -> V' (faddr V (D j) k) = V (faddr V (D j) k))) /\
    (forall b, ~ 33 <= b < 46 -> V' b = V b).
Proof.
  intros A M Hi Hfi HD Hok I1 I2 I3 I4 I5 Ia. destruct (winode_at s V fi F i ino A) as (s' & E & A'); [lia|done|].
  destruct (dino_winode V i ino) as [Di Dj]; try done; [lia|apply (ma_blocks _ _ _ _ A)|].
  set (V' := winode_view V i ino) in *.
  assert (forall j, 1 <= j < fi -> i_addrs (dino V' j) = i_addrs (D j)) as Ha.
  { intros j Hj. destruct (decide (j = i)) as [->|Hne]; [by rewrite Di|]. rewrite Dj by (done || lia). by rewrite HD. }
  assert (forall j k, 1 <= j < fi -> 0 <= k <= MAXFILE -> faddr V' (dino V' j) k = faddr V (D j) k /\
    (faddr V (D j) k <> 0 -> V' (faddr V (D j) k) = V (faddr V (D j) k))) as Hf.
  { intros j k Hj Hk. eapply faddr_winode; [exact M|lia|done|by apply Ha|done]. }
  destruct (mk_iblock i) as (_ & Hb & _); [lia|].
  exists s', V'. split; [done|]. split; [done|]. split; [|split; [done|split; [|split; [done|]]]].
  - eapply mk_inv_ext; [exact M|by intros; apply Hf|intros; apply length_dino_addrs|].
    intros b Hb'. unfold V', winode_view, vset. rewrite decide_False; [done|]. destruct (mi_F _ _ _ _ M). change nmeta with 47 in *. lia.
  - intros j Hj Hne. rewrite Dj by (done || lia). by apply HD.
  - intros b Hb'. unfold V', winode_view, vset. rewrite decide_False; [done|]. intros ->. by apply Hb'.
Qed.

(** ** iappend on a whole image *)

Lemma own_addrs_u32 V D fi F i din :
  mk_inv V (dset D i din) fi F -> 1 <= i < fi -> Forall (fun a => 0 <= a < 2 ^ 32) (i_addrs din).
Proof.
  intros M Hi. pose proof (own_len _ _ _ _ _ _ M Hi) as Hl. apply Forall_lookup. intros n a Hn.
  pose proof (lookup_lt_Some _ _ _ Hn) as Hlt. rewrite Hl in Hlt.
  assert (zget (i_addrs din) (Z.of_nat n) = a) as Ea.
  { unfold zget. by rewrite Nat2Z.id, Hn. }
  destruct (decide (a = 0)) as [->|Hnz]; [lia|].
  assert (exists k, 0 <= k <= MAXFILE /\ faddr V din k = a) as (k & Hk & E).
  { change (Z.to_nat (NDIRECT + 1)) with 13%nat in Hlt. destruct (decide (n = 12%nat)) as [->|Hne].
    - exists MAXFILE. by split.
    - exists (Z.of_nat n). change MAXFILE with 268. split; [lia|].
      rewrite faddr_block by (change MAXFILE with 268; lia). rewrite fblock_direct by (change NDIRECT with 12; lia). done. }
  pose proof (own_range _ _ _ _ _ _ M Hi k Hk) as Hr. rewrite E in Hr. destruct (mi_F _ _ _ _ M).
  specialize (Hr Hnz). change nmeta with 47 in *. change FSSIZE with 2000 in *. lia.
Qed.

Lemma grown_ok V i x n :
  Forall (fun a => 0 <= a < 2 ^ 32) (i_addrs x) -> length (i_addrs x) = Z.to_nat (NDIRECT + 1) ->
  x = i_set_addrs (fun _ => i_addrs x) (dino V i) -> 0 <= n < 2 ^ 32 -> dinode_ok (i_set_size (fun _ => n) x).
Proof.
  intros Ha Hl E Hn. rewrite E in *. split; cbn [i_set_size i_set_addrs i_type i_major i_minor i_nlink i_size i_addrs] in *;
    try apply s16_range; done.
Qed.

Lemma splice_end (d l : list Z) : splice (Z.of_nat (length l)) d l = l ++ d.
Proof.
  unfold splice. rewrite take_ge by lia. rewrite drop_ge by lia. by rewrite app_nil_r.
Qed.

(** iappend as one write: [V1] and [ino] are the data and the inode before
    the inode is stored *)
Record stored (V : Z -> list Z) (fi F i : Z) (p : list Z) (V1 V2 : Z -> list Z) (ino : inode) : Prop := {
  sd_written : written V (dino V i) (i_size (dino V i)) p V1 ino;
  sd_pres : pres V1 ino (i_size ino);
  sd_size : i_size ino = i_size (dino V i) + Z.of_nat (length p);
  sd_type : i_type ino = i_type (dino V i) /\ i_nlink ino = i_nlink (dino V i);
  sd_inv : mk_inv V2 (dino V2) fi F;
  sd_dino j : 1 <= j < fi -> dino V2 j = if decide (j = i) then ino else dino V j;
  sd_own k : 0 <= k <= MAXFILE -> faddr V2 ino k = faddr V1 ino k /\
    (faddr V1 ino k <> 0 -> V2 (faddr V1 ino k) = V1 (faddr V1 ino k));
  sd_other j k : 1 <= j < fi -> j <> i -> 0 <= k <= MAXFILE -> faddr V2 (dino V j) k = faddr V (dino V j) k /\
    (faddr V (dino V j) k <> 0 -> V2 (faddr V (dino V j) k) = V (faddr V (dino V j) k));
  sd_meta b : 0 <= b < nmeta -> ~ 33 <= b < 46 -> V2 b = V b
}.

Lemma iappend_exec s V fi F i p :
  mk_at s V fi F -> mk_fs V fi F -> 1 <= i < fi -> let sz := i_size (dino V i) in
  let e := sz + Z.of_nat (length p) in let F' := F + (nb e - nb sz) in
  e <= MAXFILE * BSIZE -> F' <= FSSIZE ->
  exists s' V1 V' ino, iappend i p s = Ok tt s' /\ mk_at s' V' fi F' /\ stored V fi F' i p V1 V' ino.
Proof.
  intros A HF Hi sz e F' He HF'. pose proof (mf_size _ _ _ HF i Hi) as Hsz. fold sz in Hsz.
  pose proof (mf_inv _ _ _ HF) as M. rewrite <-(dset_id (dino V) i) in M.
  destruct (iappend_loop (length p + 1) s V (dino V) fi F i (dino V i) sz p A M Hi (mf_pres _ _ _ HF i Hi))
    as (din & s1 & V1 & E1 & A1 & M1 & P1 & G1); [lia|done|done|lia|].
  fold e in E1, A1, M1, P1. fold F' in A1, M1. destruct G1 as [G1 G2 G3 G4].
  assert (0 <= e < 2 ^ 32) as He32 by (unfold e; change MAXFILE with 268 in *; change BSIZE with 1024 in *; lia).
  set (ino := i_set_size (fun _ => e) din). pose proof (mf_fi _ _ _ HF) as Hfi.
  destruct (mk_winode s1 V1 (dset (dino V) i din) fi F' i ino A1 M1 Hi) as (s2 & V2 & E2 & A2 & M2 & Di & Dj & Hf & Hb).
  { apply Hfi. }
  { intros j Hj Hne. rewrite dset_ne by done. apply dino_same; [lia|done]. }
  { eapply grown_ok; [by eapply own_addrs_u32|by eapply own_len|exact G4|done]. }
  1-5: unfold ino; rewrite G4; reflexivity.
  { by rewrite dset_eq. }
  exists s2, V1, V2, ino. split; [|split; [done|split; try done]].
  - unfold iappend. erewrite bind_ok by (eapply rinode_at; [done|lia]).
    rewrite (xint_small (i_size (dino V i))) by (fold sz; change MAXFILE with 268 in *; change BSIZE with 1024 in *; lia).
    fold sz. erewrite bind_ok by exact E1. cbv iota beta. rewrite xint_small by done. exact E2.
  - unfold ino. rewrite G4. by split.
  - intros j Hj. destruct (decide (j = i)) as [->|Hne]; [done|]. by rewrite Dj, dset_ne by done.
  - intros k Hk. destruct (Hf i k Hi Hk) as [F1 F2]. rewrite Di, dset_eq in F1. rewrite dset_eq in F2. by split.
  - intros j k Hj Hne Hk. destruct (Hf j k Hj Hk) as [F1 F2]. rewrite Dj in F1 by done. rewrite dset_ne in F1, F2 by done.
    destruct (G2 j k Hj Hne Hk) as [F3 F4]. rewrite F3 in *. split; [done|]. intros Hnz. rewrite F2 by done. by apply F4.
  - intros b Hb1 Hb2. rewrite Hb by done. by apply G3.
Qed.

Lemma stored_fs V fi F F' i p V1 V' ino :
  mk_fs V fi F -> 1 <= i < fi -> i_size (dino V i) + Z.of_nat (length p) <= MAXFILE * BSIZE ->
  stored V fi F' i p V1 V' ino ->
  mk_fs V' fi F' /\ fcontent V' (dino V' i) = fcontent V (dino V i) ++ p /\ others_kept V fi i V'.
Proof.
  intros HF Hi He [S1 S2 S3 S4 S5 S6 S7 S8 S9]. pose proof (mf_size _ _ _ HF i Hi) as Hsz. split; [|split; [|split; [|done]]].
  - split; [done|apply (mf_fi _ _ _ HF)| |]; intros j Hj; rewrite S6 by done; destruct (decide (j = i)) as [->|Hne].
    + lia.
    + by apply (mf_size _ _ _ HF).
    + intros k Hk. destruct (S7 k Hk) as [-> _]. by apply S2.
    + intros k Hk. destruct (S8 j k Hj Hne Hk) as [-> _]. by apply (mf_pres _ _ _ HF).
  - rewrite S6, decide_True by done.
    destruct (written_content V (dino V i) (i_size (dino V i)) p V1 ino) as [C1 N1]; try done; try lia.
    { apply pres_no_holes; [lia|]. by apply (mf_pres _ _ _ HF). }
    destruct (content_same V1 V' ino) as (C2 & _); try done; try lia.
    { intros k Hk. by apply S7. }
    { intros k Hk. by apply S7. }
    rewrite C2, C1. rewrite <-splice_end. by rewrite length_fcontent by lia.
  - intros j Hj Hne. rewrite S6, decide_False by done. split; [done|].
    apply content_same; [by intros; apply S8|by intros k Hk; apply S8|by apply (mf_size _ _ _ HF)|].
    apply pres_no_holes; [by apply (mf_size _ _ _ HF)|by apply (mf_pres _ _ _ HF)].
Qed.

(** * The image as a list of files

    File [n] of the list is inode [1 + n]: its type and its content. *)

Local Abbreviation file := (Z * list Z)%type (only parsing).
Definition flen (f : file) : Z := Z.of_nat (length (snd f)).
Definition space (L : list file) : Z := foldr (fun f a => nb (flen f) + a) 0 L.
Definition free_inode (L : list file) : Z := 1 + Z.of_nat (length L).
Definition free_block (L : list file) : Z := nmeta + space L.

Lemma nb_nonneg sz : 0 <= sz -> 0 <= nb sz.
Proof. intros H. change 0 with (nb 0) at 1. apply nb_mono. lia. Qed.

Lemma space_app L f : space (L ++ [f]) = space L + nb (flen f).
Proof. induction L as [|g L IH]; cbn [app space foldr]; [lia|]. fold (space (L ++ [f])). fold (space L). lia. Qed.

Lemma space_insert L n f g : L !! n = Some f -> space (<[n := g]> L) = space L + (nb (flen g) - nb (flen f)).
Proof.
  revert n. induction L as [|h L IH]; intros [|n] H; try done.
  - injection H as ->. change (nb (flen g) + space L = nb (flen f) + space L + (nb (flen g) - nb (flen f))). lia.
  - change (nb (flen h) + space (<[n := g]> L) = nb (flen h) + space L + (nb (flen g) - nb (flen f))).
    rewrite (IH n H). lia.
Qed.

(** the blocks mkfs writes once: all zero but the super block *)
Definition boot_block (b : Z) : list Z := if decide (b = 1) then splice 0 (sb_bytes mkfs_sb) zero_block else zero_block.

Record mk_rep (V : Z -> list Z) (L : list file) : Prop := {
  mr_fs : mk_fs V (free_inode L) (free_block L);
  mr_file n f : L !! n = Some f ->
    let ino := dino V (1 + Z.of_nat n) in i_type ino = fst f /\ i_nlink ino = 1 /\ fcontent V ino = snd f;
  mr_meta b : 0 <= b < nmeta -> ~ 33 <= b < 46 -> V b = boot_block b
}.

(** mkfs has made the files [L] so far *)
Definition image (s : mkfs_state) (L : list file) : Prop :=
  exists V, mk_at s V (free_inode L) (free_block L) /\ mk_rep V L.

Lemma inode_of L n f : L !! n = Some f -> 1 <= 1 + Z.of_nat n < free_inode L.
Proof. intros H. apply lookup_lt_Some in H. unfold free_inode. lia. Qed.

Lemma rep_size V L n f : mk_rep V L -> L !! n = Some f -> i_size (dino V (1 + Z.of_nat n)) = flen f.
Proof.
  intros R Hn. destruct (mr_file _ _ R n f Hn) as (_ & _ & E). unfold flen. rewrite <-E.
  rewrite length_fcontent; [done|]. apply (mf_size _ _ _ (mr_fs _ _ R)). by eapply inode_of.
Qed.

Lemma iappend_image s L n t c p :
  image s L -> L !! n = Some (t, c) -> Z.of_nat (length (c ++ p)) <= MAXFILE * BSIZE ->
  free_block (<[n := (t, c ++ p)]> L) <= FSSIZE ->
  exists s', iappend (1 + Z.of_nat n) p s = Ok tt s' /\ image s' (<[n := (t, c ++ p)]> L).
Proof.
  intros (V & A & R) Hn Hmax Hfit. pose proof (inode_of _ _ _ Hn) as Hi. pose proof (rep_size _ _ _ _ R Hn) as Es.
  pose proof (mr_fs _ _ R) as HF. unfold flen in Es. cbn [snd] in Es. rewrite length_app in Hmax.
  assert (free_block (<[n := (t, c ++ p)]> L) = free_block L +
    (nb (Z.of_nat (length c) + Z.of_nat (length p)) - nb (Z.of_nat (length c)))) as Ef.
  { unfold free_block. rewrite (space_insert _ _ _ _ Hn). unfold flen. cbn [snd]. rewrite length_app, Nat2Z.inj_add. lia. }
  destruct (iappend_exec s V _ _ _ p A HF Hi) as (s' & V1 & V' & ino & E & A' & S); [rewrite Es; lia|rewrite Es; lia|].
  rewrite Es, <-Ef in A', S. destruct (stored_fs V _ _ _ _ p V1 V' ino HF Hi ltac:(rewrite Es; lia) S) as (HF' & C & O1 & O2).
  assert (free_inode (<[n := (t, c ++ p)]> L) = free_inode L) as Efi by (unfold free_inode; by rewrite length_insert).
  exists s'. split; [done|]. exists V'. rewrite Efi. split; [done|]. split; [by rewrite Efi| |].
  - intros m f Hm. destruct (decide (m = n)) as [->|Hne].
    + rewrite list_lookup_insert_eq in Hm by (by eapply lookup_lt_Some). injection Hm as <-.
      destruct (mr_file _ _ R n _ Hn) as (T & N & C0). cbv zeta. cbn [fst snd] in *. rewrite <-C0.
      split; [|split; [|done]]; rewrite (sd_dino _ _ _ _ _ _ _ _ S), decide_True by done.
      * by rewrite (proj1 (sd_type _ _ _ _ _ _ _ _ S)).
      * by rewrite (proj2 (sd_type _ _ _ _ _ _ _ _ S)).
    + rewrite list_lookup_insert_ne in Hm by done. destruct (O1 (1 + Z.of_nat m)) as [D C1]; [by eapply inode_of|lia|].
      cbv zeta. rewrite D, C1. by apply (mr_file _ _ R).
  - intros b Hb Hb'. rewrite O2 by done. by apply (mr_meta _ _ R).
Qed.

(** ** ialloc *)

Lemma new_dinode_faddr V t k : 0 <= k <= MAXFILE -> faddr V (new_dinode t) k = 0.
Proof.
  intros Hk. unfold faddr, fblock, ind_block. change (i_addrs (new_dinode t)) with (replicate 13 0).
  assert (forall i, zget (replicate 13 0) i = 0) as Hz.
  { intros i. unfold zget. destruct (replicate 13 0 !! Z.to_nat i) as [x|] eqn:E; [|done].
    by apply lookup_replicate in E as [-> _]. }
  rewrite !Hz. by destruct (k =? MAXFILE), (k <? NDIRECT).
Qed.

Lemma new_dinode_ok t : dinode_ok (new_dinode t).
Proof.
  split; try done; try apply s16_range. cbn [new_dinode i_addrs]. apply Forall_replicate. lia.
Qed.

Lemma mk_inv_new V' D' fi F t :
  mk_inv V' D' fi F -> D' fi = new_dinode t -> 0 < fi -> mk_inv V' D' (fi + 1) F.
Proof.
  intros [M1 M2 M3 M4 M5] Hn Hfi. split; try done.
  - intros i Hi. destruct (decide (i = fi)) as [->|]; [by rewrite Hn|]. apply M3. lia.
  - intros i k Hi Hk. destruct (decide (i = fi)) as [->|]; [by rewrite Hn, new_dinode_faddr|]. apply M4; lia.
  - intros i j k l Hi Hj Hk Hl. destruct (decide (i = fi)) as [->|]; [by rewrite Hn, new_dinode_faddr|].
    destruct (decide (j = fi)) as [->|]; [rewrite Hn, (new_dinode_faddr V' t l) by done; by intros Hnz ?|].
    apply M5; lia.
Qed.

Lemma ialloc_view s V fi F t :
  mk_at s V fi F -> mk_fs V fi F -> fi < NINODES ->
  exists s' V', mk_ialloc t s = Ok fi s' /\ mk_at s' V' (fi + 1) F /\ mk_fs V' (fi + 1) F /\
    dino V' fi = new_dinode (xshort t) /\ others_kept V fi fi V'.
Proof.
  intros A HF Hfi. pose proof (mf_fi _ _ _ HF) as Hf1. pose proof (mf_inv _ _ _ HF) as M.
  set (s0 := mkmkfs (m_img s) (u32 (m_freeinode s + 1)) (m_freeblock s)).
  assert (mk_at s0 V (fi + 1) F) as A0.
  { destruct A as [A1 A2 A3 A4 A5]. split; try done. cbn [s0 m_freeinode]. rewrite A4. apply u32_small.
    change NINODES with 200 in *. lia. }
  set (ino := new_dinode (xshort t)).
  destruct (winode_at s0 V (fi + 1) F fi ino A0) as (s' & E & A'); [lia|apply new_dinode_ok|].
  destruct (dino_winode V fi ino) as [Di Dj]; try done; [lia|apply new_dinode_ok|apply (ma_blocks _ _ _ _ A)|].
  set (V' := winode_view V fi ino) in *. destruct (mk_iblock fi) as (_ & Hb & _); [lia|].
  assert (forall b, ~ 33 <= b < 46 -> V' b = V b) as Hv.
  { intros b Hb'. unfold V', winode_view, vset. rewrite decide_False; [done|]. intros ->. by apply Hb'. }
  assert (forall j k, 1 <= j < fi -> 0 <= k <= MAXFILE -> faddr V' (dino V j) k = faddr V (dino V j) k /\
    (faddr V (dino V j) k <> 0 -> V' (faddr V (dino V j) k) = V (faddr V (dino V j) k))) as Hf.
  { intros j k Hj Hk. eapply faddr_winode; [exact M|lia|done|done|done]. }
  assert (forall j, 1 <= j < fi -> dino V' j = dino V j) as Dj' by (intros j Hj; apply Dj; lia).
  exists s', V'. split; [|split; [done|split; [split|split; [done|split; [|by intros; apply Hv]]]]].
  - unfold mk_ialloc, next_inode. rewrite (bind_ok _ _ s fi s0); [|by rewrite <-(ma_fi _ _ _ _ A)].
    by erewrite bind_ok by exact E.
  - eapply mk_inv_new; [|exact Di|lia].
    eapply mk_inv_ext; [exact M|by intros j k Hj Hk; rewrite Dj' by done; apply Hf|intros; apply length_dino_addrs|].
    intros b Hb'. apply Hv. destruct (mi_F _ _ _ _ M). change nmeta with 47 in *. lia.
  - lia.
  - intros i Hi. destruct (decide (i = fi)) as [->|]; [rewrite Di; by split|]. rewrite Dj' by lia. apply (mf_size _ _ _ HF). lia.
  - intros i Hi. destruct (decide (i = fi)) as [->|].
    + intros k Hk. rewrite Di. unfold ino. rewrite new_dinode_faddr by done. split; [done|].
      change (i_size (new_dinode (xshort t))) with 0. unfold present. change BSIZE with 1024. change NDIRECT with 12.
      destruct (decide (k = MAXFILE)); lia.
    + intros k Hk. rewrite Dj' by lia. rewrite (proj1 (Hf i k ltac:(lia) Hk)). apply (mf_pres _ _ _ HF); [lia|done].
  - intros j Hj Hne. rewrite Dj' by done. split; [done|].
    apply content_same; [by intros; apply Hf|by intros k Hk; apply Hf|by apply (mf_size _ _ _ HF)|].
    apply pres_no_holes; [by apply (mf_size _ _ _ HF)|by apply (mf_pres _ _ _ HF)].
Qed.

Lemma ialloc_image s L t :
  image s L -> free_inode L < NINODES -> s16 (xshort t) = t ->
  exists s', mk_ialloc t s = Ok (free_inode L) s' /\ image s' (L ++ [(t, [])]).
Proof.
  intros (V & A & R) Hfi Ht. destruct (ialloc_view s V _ _ t A (mr_fs _ _ R) Hfi) as (s' & V' & E & A' & HF & Dn & O1 & O2).
  assert (free_inode (L ++ [(t, [])]) = free_inode L + 1) as E1 by (unfold free_inode; rewrite length_app; simpl; lia).
  assert (free_block (L ++ [(t, [])]) = free_block L) as E2.
  { unfold free_block. rewrite space_app. change (nb (flen (t, []))) with 0. lia. }
  exists s'. split; [done|]. exists V'. rewrite E1, E2. split; [done|]. split; [by rewrite E1, E2| |].
  - intros n f Hn. apply lookup_app_Some in Hn as [Hn|[Hl Hn]].
    + destruct (O1 (1 + Z.of_nat n)) as [D C]; [by eapply inode_of|apply inode_of in Hn; lia|].
      cbv zeta. rewrite D, C. by apply (mr_file _ _ R).
    + apply list_lookup_singleton_Some in Hn as [Hz <-]. assert (n = length L) as -> by lia. fold (free_inode L). cbv zeta. rewrite Dn. split; [exact Ht|by split].
  - intros b Hb Hb'. rewrite O2 by done. by apply (mr_meta _ _ R).
Qed.

(** * The files of the host *)

Lemma space_mono L n f g : L !! n = Some f -> flen f <= flen g -> space L <= space (<[n := g]> L).
Proof.
  intros Hn Hle. rewrite (space_insert _ _ _ _ Hn). pose proof (nb_mono (flen f) (flen g)). unfold flen in *. lia.
Qed.

Lemma append_all chunks : forall s L n t c,
  image s L -> L !! n = Some (t, c) -> Z.of_nat (length (c ++ concat chunks)) <= MAXFILE * BSIZE ->
  free_block (<[n := (t, c ++ concat chunks)]> L) <= FSSIZE ->
  exists s', forM_ chunks (iappend (1 + Z.of_nat n)) s = Ok tt s' /\ image s' (<[n := (t, c ++ concat chunks)]> L).
Proof.
  induction chunks as [|d chunks IH]; intros s L n t c HI Hn Hmax Hfit.
  { cbn [concat]. rewrite app_nil_r, list_insert_id by done. by exists s. }
  cbn [concat] in *. rewrite app_assoc in *.
  assert (n < length L)%nat as Hlt by (by eapply lookup_lt_Some).
  assert (<[n := (t, c ++ d)]> L !! n = Some (t, c ++ d)) as Hn1 by (by apply list_lookup_insert_eq).
  destruct (iappend_image s L n t c d HI Hn) as (s1 & E1 & H1).
  { rewrite !length_app in Hmax. rewrite length_app. lia. }
  { etransitivity; [|exact Hfit]. pose proof (space_mono _ n _ (t, (c ++ d) ++ concat chunks) Hn1) as Hsp.
    rewrite list_insert_insert_eq in Hsp. apply Zplus_le_compat_l, Hsp.
    unfold flen. cbn [snd]. rewrite (length_app (c ++ d)). lia. }
  destruct (IH s1 _ n t (c ++ d) H1 Hn1 Hmax) as (s' & E & HI').
  { by rewrite list_insert_insert_eq. }
  exists s'. rewrite list_insert_insert_eq in HI'. split; [|done]. cbn [forM_]. by erewrite bind_ok by exact E1.
Qed.

Definition short_name (f : host_file) : list Z := skip_underscore (base_name (hf_name f)).
Definition host_content (f : host_file) : list Z := concat (default [] (hf_chunks f)).

(** the command line is one mkfs accepts *)
Record host_ok (f : host_file) : Prop := {
  ho_name : SLASH ∉ base_name (hf_name f);
  ho_open : is_Some (hf_chunks f);
  ho_len : (length (short_name f) <= Z.to_nat DIRSIZ)%nat;
  ho_size : Z.of_nat (length (host_content f)) <= MAXFILE * BSIZE
}.

Definition dir_entries (files : list host_file) : list Z :=
  mk_dirent ROOTINO (bytes_of_string ".") ++ mk_dirent ROOTINO (bytes_of_string "..") ++
  concat (imap (fun n f => mk_dirent (2 + Z.of_nat n) (short_name f)) files).

(** the files of the image: the root directory, then those of the host *)
Definition made (files : list host_file) : list file :=
  (T_DIR, dir_entries files) :: map (fun f => (T_FILE, host_content f)) files.

Lemma length_dirent inum name : (length name <= Z.to_nat DIRSIZ)%nat -> length (mk_dirent inum name) = 16%nat.
Proof.
  intros H. unfold mk_dirent. rewrite !length_app, length_le_bytes, length_replicate.
  change (Z.to_nat DIRSIZ) with 14%nat in *. lia.
Qed.

Lemma length_entries (files : list host_file) k :
  Forall host_ok files ->
  length (concat (imap (fun n f => mk_dirent (k + Z.of_nat n) (short_name f)) files)) = (16 * length files)%nat.
Proof.
  intros H. revert k. induction H as [|f files Hf _ IH]; intros k; [done|]. cbn [imap concat length].
  rewrite length_app, length_dirent by apply Hf.
  rewrite (imap_ext _ (fun n f => mk_dirent (k + 1 + Z.of_nat n) (short_name f))).
  - rewrite IH. lia.
  - intros n g _. unfold compose. f_equal. lia.
Qed.

Lemma length_dir files : Forall host_ok files -> length (dir_entries files) = (16 * (2 + length files))%nat.
Proof.
  intros H. unfold dir_entries. rewrite !length_app, (length_entries files 2 H).
  change (length (mk_dirent ROOTINO (bytes_of_string "."))) with 16%nat.
  change (length (mk_dirent ROOTINO (bytes_of_string ".."))) with 16%nat. lia.
Qed.

Lemma dir_snoc files f :
  dir_entries (files ++ [f]) = dir_entries files ++ mk_dirent (free_inode (made files)) (short_name f).
Proof.
  unfold dir_entries, free_inode, made. rewrite imap_app, concat_app. cbn [imap concat]. rewrite app_nil_r, !app_assoc.
  do 2 f_equal. cbn [length]. rewrite length_map. lia.
Qed.

Lemma space_made files : space (made files) = nb (flen (T_DIR, dir_entries files)) +
  space (map (fun f => (T_FILE, host_content f)) files).
Proof. reflexivity. Qed.

Lemma fits_prefix files f :
  Forall host_ok (files ++ [f]) -> free_block (made files) <= free_block (made (files ++ [f])) - nb (flen (T_FILE, host_content f)).
Proof.
  intros H. unfold free_block. rewrite !space_made, map_app. cbn [map]. rewrite space_app.
  pose proof (nb_mono (flen (T_DIR, dir_entries files)) (flen (T_DIR, dir_entries (files ++ [f])))) as Hm.
  unfold flen in *. cbn [snd] in *. rewrite dir_snoc, length_app in Hm. rewrite dir_snoc, length_app. lia.
Qed.

Lemma fits_all files more :
  Forall host_ok (files ++ more) -> free_block (made files) <= free_block (made (files ++ more)).
Proof.
  revert files. induction more as [|f more IH]; intros files H; [by rewrite app_nil_r|].
  replace (files ++ f :: more) with ((files ++ [f]) ++ more) in * by (by rewrite <-app_assoc).
  specialize (IH _ H). apply Forall_app in H as [H _]. pose proof (fits_prefix files f H).
  pose proof (nb_nonneg (flen (T_FILE, host_content f))). unfold flen in *. lia.
Qed.

(** the file being copied is the last one *)
Definition others (files : list host_file) (f : host_file) : list file :=
  (T_DIR, dir_entries (files ++ [f])) :: map (fun g => (T_FILE, host_content g)) files.
Definition with_file (files : list host_file) (f : host_file) (c : list Z) : list file := others files f ++ [(T_FILE, c)].

Lemma length_others files f : length (others files f) = S (length files).
Proof. unfold others. cbn [length]. by rewrite length_map. Qed.

Lemma with_file_done files f : with_file files f (host_content f) = made (files ++ [f]).
Proof. unfold with_file, others, made. by rewrite map_app. Qed.

Lemma with_file_last files f c : with_file files f c !! S (length files) = Some (T_FILE, c).
Proof. unfold with_file. rewrite <-(length_others files f). by apply list_lookup_middle. Qed.

Lemma with_file_set files f c d : <[S (length files) := (T_FILE, d)]> (with_file files f c) = with_file files f d.
Proof.
  unfold with_file. rewrite <-(length_others files f). rewrite insert_app_r_alt by done. by rewrite Nat.sub_diag.
Qed.

Lemma with_file_fits files f c :
  (length c <= length (host_content f))%nat -> free_block (with_file files f c) <= free_block (made (files ++ [f])).
Proof.
  intros H. rewrite <-with_file_done, <-(with_file_set files f c (host_content f)). unfold free_block. apply Zplus_le_compat_l.
  eapply space_mono; [apply with_file_last|]. unfold flen. cbn [snd]. lia.
Qed.

Lemma mk_file_image s files f :
  image s (made files) -> Forall host_ok (files ++ [f]) -> (length files < 198)%nat ->
  free_block (made (files ++ [f])) <= FSSIZE ->
  exists s', mk_file ROOTINO f s = Ok tt s' /\ image s' (made (files ++ [f])).
Proof.
  intros HI Hok Hnum Hfit. destruct (proj1 (Forall_app _ _ _) Hok) as [_ Hf].
  destruct (Forall_inv Hf) as [N1 [chunks N2] N3 N4].
  assert (host_content f = concat chunks) as Hc by (unfold host_content; by rewrite N2).
  assert (free_inode (made files) = 1 + Z.of_nat (S (length files))) as Efi.
  { unfold free_inode, made. cbn [length]. by rewrite length_map. }
  destruct (ialloc_image s (made files) T_FILE HI) as (s1 & E1 & I1); [rewrite Efi; change NINODES with 200; lia|done|].
  destruct (iappend_image s1 _ 0 T_DIR (dir_entries files) (mk_dirent (free_inode (made files)) (short_name f)) I1) as (s2 & E2 & I2).
  { done. }
  { rewrite <-dir_snoc, (length_dir _ Hok), length_app. cbn [length]. change (MAXFILE * BSIZE) with 274432. lia. }
  { rewrite <-dir_snoc. etransitivity; [|exact Hfit]. apply (with_file_fits files f []). simpl. lia. }
  rewrite <-dir_snoc in I2. change (image s2 (with_file files f [])) in I2.
  destruct (append_all chunks s2 _ _ _ _ I2 (with_file_last files f [])) as (s3 & E3 & I3).
  { cbn [app]. by rewrite <-Hc. }
  { cbn [app]. by rewrite <-Hc, with_file_set, with_file_done. }
  cbn [app] in I3. rewrite <-Hc, with_file_set, with_file_done in I3. exists s3. split; [|done].
  unfold mk_file. cbv zeta. rewrite N2. fold (short_name f). rewrite !bool_decide_true by done. unfold assert_. rewrite !bind_ret.
  erewrite bind_ok by exact E1. erewrite bind_ok by exact E2. rewrite Efi. exact E3.
Qed.

Lemma files_image more : forall s files,
  image s (made files) -> Forall host_ok (files ++ more) -> (length (files ++ more) <= 198)%nat ->
  free_block (made (files ++ more)) <= FSSIZE ->
  exists s', forM_ more (mk_file ROOTINO) s = Ok tt s' /\ image s' (made (files ++ more)).
Proof.
  induction more as [|f more IH]; intros s files HI Hok Hnum Hfit; [rewrite app_nil_r; by exists s|].
  replace (files ++ f :: more) with ((files ++ [f]) ++ more) in * by (by rewrite <-app_assoc).
  pose proof (fits_all _ _ Hok) as Hle. rewrite !length_app in Hnum. cbn [length] in Hnum.
  destruct (mk_file_image s files f HI) as (s1 & E1 & I1); [by apply Forall_app in Hok as [? _]|lia|lia|].
  destruct (IH s1 _ I1 Hok) as (s' & E & HI'); [rewrite !length_app; cbn [length]; lia|done|].
  exists s'. split; [|done]. cbn [forM_]. by erewrite bind_ok by exact E1.
Qed.

(** * The start: an image of zeroes and the super block *)

Lemma wipe n : forall s,
  (length (m_img s) + n <= 2000)%nat ->
  forM_ (zseq (Z.of_nat (length (m_img s))) n) (fun i => wsect i zero_block) s =
  Ok tt (mkmkfs (m_img s ++ replicate n zero_block) (m_freeinode s) (m_freeblock s)).
Proof.
  induction n as [|n IH]; intros s Hn.
  - cbn [replicate]. rewrite app_nil_r. by destruct s.
  - rewrite zseq_cons. cbn [forM_]. set (s1 := mkmkfs (m_img s ++ [zero_block]) (m_freeinode s) (m_freeblock s)).
    assert (wsect (Z.of_nat (length (m_img s))) zero_block s = Ok tt s1) as E.
    { unfold wsect, modify, put_block. rewrite sector_small by (change FSSIZE with 2000; lia).
      rewrite Nat2Z.id, decide_False by lia. by rewrite Nat.sub_diag. }
    erewrite bind_ok by exact E. specialize (IH s1). cbn [s1 m_img m_freeinode m_freeblock] in IH.
    rewrite length_app in IH. cbn [length] in IH. replace (Z.of_nat (length (m_img s)) + 1) with (Z.of_nat (length (m_img s) + 1)) by lia.
    rewrite IH by lia. by rewrite <-app_assoc.
Qed.

Definition mkfs_init : MK unit :=
  forM_ (zseq 0 (Z.to_nat FSSIZE)) (fun i => wsect i zero_block) ;;
  wsect 1 (splice 0 (sb_bytes mkfs_sb) zero_block).

Lemma boot_rep V : (forall b, 0 <= b < FSSIZE -> V b = boot_block b) -> mk_rep V [].
Proof.
  intros HV. assert (forall i, ~ 1 <= i < 1) as Hno by lia. split.
  - split; [split|..]; try (intros; exfalso; eapply Hno; eassumption).
    + by split.
    + intros b Hb. change (free_block []) with 47 in Hb. rewrite HV by lia. unfold boot_block. by rewrite decide_False by lia.
    + by split.
  - done.
  - intros b Hb _. apply HV. change nmeta with 47 in *. change FSSIZE with 2000. lia.
Qed.

Lemma init_image : exists s, mkfs_init mkfs_start = Ok tt s /\ image s [].
Proof.
  pose proof (wipe (Z.to_nat FSSIZE) mkfs_start ltac:(done)) as E0. cbn [mkfs_start m_img m_freeinode m_freeblock app length] in E0.
  set (s0 := mkmkfs (replicate (Z.to_nat FSSIZE) zero_block) 1 nmeta) in *.
  assert (forall b, 0 <= b < FSSIZE -> mview (m_img s0) b = zero_block) as Hz.
  { intros b Hb. unfold mview. rewrite (proj2 (Z.ltb_ge _ _)) by lia. cbn [s0 m_img]. by rewrite lookup_replicate_2 by lia. }
  assert (mk_at s0 (mview (m_img s0)) 1 nmeta) as A0.
  { split; [apply length_replicate|reflexivity| |reflexivity|reflexivity]. intros b Hb. rewrite Hz by done. apply length_replicate. }
  destruct (wsect_at s0 _ 1 nmeta 1 (splice 0 (sb_bytes mkfs_sb) zero_block) A0) as (s & E & A); [by split|by apply length_splice|].
  exists s. split; [unfold mkfs_init; by erewrite bind_ok by exact E0|]. eexists. split; [exact A|]. apply boot_rep.
  intros b Hb. unfold vset, boot_block. destruct (decide (b = 1)); [done|]. by apply Hz.
Qed.

(** * The end: the bitmap and the size of the root directory *)

Definition bits (n : nat) : list Z :=
  foldl (fun buf i => zput buf (i / 8) (Z.lor (zget buf (i / 8)) (Z.shiftl 1 (i mod 8)))) zero_block (zseq 0 n).

Lemma bits_spec n : Z.of_nat n <= BPB -> length (bits n) = Z.to_nat BSIZE /\
  forall j, 0 <= j -> dbit (bits n) j = bool_decide (j < Z.of_nat n).
Proof.
  induction n as [|n IH]; intros Hn.
  - split; [apply length_replicate|]. intros j Hj. rewrite bool_decide_false by lia. unfold dbit.
    assert (zget (bits 0) (j / 8) = 0) as ->; [|apply Z.testbit_0_l]. unfold zget.
    destruct (bits 0 !! Z.to_nat (j / 8)) as [x|] eqn:E; [|done]. by apply lookup_replicate in E as [-> _].
  - destruct IH as [IHl IHb]; [lia|]. unfold bits. rewrite zseq_S, foldl_app. fold (bits n). cbn [foldl]. rewrite Z.add_0_l.
    change (zput (bits n) (Z.of_nat n / 8) _) with (mark (bits n) (Z.of_nat n)).
    split; [unfold mark; by rewrite length_zput|]. intros j Hj.
    rewrite dbit_mark; [|lia|done|rewrite IHl; change BPB with 8192 in *; change (Z.of_nat (Z.to_nat BSIZE)) with 1024;
      Z.to_euclidean_division_equations; lia].
    rewrite IHb by done. destruct (decide (j = Z.of_nat n)); [by rewrite bool_decide_true by lia|].
    apply bool_decide_ext. lia.
Qed.

(** what the last part of main leaves *)
Definition round_size (n : Z) : Z := (n / BSIZE + 1) * BSIZE.

Record finished (V : Z -> list Z) (L : list file) (V' : Z -> list Z) : Prop := {
  fn_dino j : 1 <= j < free_inode L ->
    dino V' j = if decide (j = ROOTINO) then i_set_size (fun z => round_size z) (dino V ROOTINO) else dino V j;
  fn_addr j k : 1 <= j < free_inode L -> 0 <= k <= MAXFILE -> faddr V' (dino V' j) k = faddr V (dino V j) k /\
    (faddr V (dino V j) k <> 0 -> V' (faddr V (dino V j) k) = V (faddr V (dino V j) k));
  fn_meta b : 0 <= b < nmeta -> ~ 33 <= b <= 46 -> V' b = boot_block b;
  fn_bits : V' 46 = bits (Z.to_nat (free_block L))
}.

Definition mkfs_end : MK unit :=
  let! din := rinode ROOTINO in
  winode ROOTINO (i_set_size (fun _ => xint (u32 ((xint (i_size din) / BSIZE + 1) * BSIZE))) din) ;;
  let! used := gets m_freeblock in
  mk_balloc (s32 used).

Lemma round_small n : 0 <= n <= MAXFILE * BSIZE -> xint (u32 ((xint n / BSIZE + 1) * BSIZE)) = round_size n /\ 0 <= round_size n < 2 ^ 32.
Proof.
  intros Hn. unfold round_size. change MAXFILE with 268 in *. change BSIZE with 1024 in *.
  assert (0 <= (n / 1024 + 1) * 1024 < 2 ^ 32) as Hr by (Z.to_euclidean_division_equations; lia).
  rewrite (xint_small n) by lia. rewrite u32_small by done. by rewrite xint_small.
Qed.

Lemma mk_balloc_run s V fi F :
  mk_at s V fi F -> 0 <= F <= FSSIZE ->
  exists s', (let! used := gets m_freeblock in mk_balloc (s32 used)) s = Ok tt s' /\ mk_at s' (vset V 46 (bits (Z.to_nat F))) fi F.
Proof.
  intros A HF. change FSSIZE with 2000 in HF.
  destruct (wsect_at s V fi F 46 (bits (Z.to_nat F)) A) as (s' & E & A').
  { by split. }
  { apply bits_spec. change BPB with 8192. lia. }
  exists s'. split; [|done]. erewrite bind_ok by reflexivity. rewrite (ma_F _ _ _ _ A).
  rewrite s32_small by (change (MAXFILE * BSIZE) with 274432; lia). unfold mk_balloc. rewrite (proj2 (Z.ltb_lt F BPB)) by (change BPB with 8192; lia).
  exact E.
Qed.

Lemma mkfs_end_run s V L t c :
  mk_at s V (free_inode L) (free_block L) -> mk_rep V L -> L !! 0%nat = Some (t, c) ->
  exists s' V', mkfs_end s = Ok tt s' /\ mk_at s' V' (free_inode L) (free_block L) /\ finished V L V'.
Proof.
  intros A R H0. pose proof (mr_fs _ _ R) as HF. pose proof (mf_inv _ _ _ HF) as M. pose proof (mf_fi _ _ _ HF) as Hfi.
  pose proof (inode_of _ _ _ H0 : 1 <= ROOTINO < free_inode L) as Hi. pose proof (mf_size _ _ _ HF _ Hi) as Hsz.
  destruct (round_small _ Hsz) as [Er Hr]. pose proof M as M'. rewrite <-(dset_id (dino V) ROOTINO) in M'.
  set (ino := i_set_size (fun z => round_size z) (dino V ROOTINO)).
  destruct (mk_winode s V (dino V) _ _ ROOTINO ino A M Hi) as (s1 & V1 & E1 & A1 & M1 & Di & Dj & Hf & Hb); try done.
  { lia. }
  { eapply (grown_ok V ROOTINO); [by eapply own_addrs_u32|by eapply own_len|by destruct (dino V ROOTINO)|done]. }
  destruct (mk_balloc_run s1 V1 _ _ A1) as (s2 & E2 & A2).
  { destruct (mi_F _ _ _ _ M). change nmeta with 47 in *. lia. }
  exists s2, (vset V1 46 (bits (Z.to_nat (free_block L)))). set (V2 := vset V1 46 _) in *.
  assert (forall b, b <> 46 -> V2 b = V1 b) as Hv by (intros b Hne; unfold V2, vset; by rewrite decide_False).
  assert (forall j, 1 <= j < free_inode L -> dino V2 j = dino V1 j) as Hd.
  { intros j Hj. destruct (mk_iblock j) as (_ & Hjb & _); [lia|]. unfold dino, disk_inode. rewrite Hv by lia. done. }
  split; [|split; [done|split]].
  - unfold mkfs_end. erewrite bind_ok by (eapply rinode_at; [exact A|lia]). rewrite Er. by erewrite bind_ok by exact E1.
  - intros j Hj. rewrite Hd by done. destruct (decide (j = ROOTINO)) as [->|Hne]; [done|by apply Dj].
  - intros j k Hj Hk. rewrite Hd by done. destruct (Hf j k Hj Hk) as [F1 F2].
    assert (forall l, 0 <= l <= MAXFILE -> faddr V (dino V j) l <> 0 -> V2 (faddr V (dino V j) l) = V1 (faddr V (dino V j) l)) as Hs.
    { intros l Hl Hnz. apply Hv. pose proof (mi_range _ _ _ _ M j l Hj Hl Hnz). change nmeta with 47 in *. lia. }
    split; [|by intros Hnz; rewrite Hs, F2]. rewrite <-F1. apply faddr_ext. intros Hnz.
    rewrite <-(faddr_ind V1) in *. rewrite (proj1 (Hf j MAXFILE Hj ltac:(by split))) in *. by apply Hs.
  - intros b Hb1 Hb2. rewrite Hv by lia. rewrite Hb by lia. apply (mr_meta _ _ R); lia.
  - unfold V2, vset. by rewrite decide_True.
Qed.

(** * The image *)

Record fs_image (files : list host_file) (V : Z -> list Z) : Prop := {
  im_sb : sb_of_bytes (V 1) = mkfs_sb;
  im_log : V (sb_logstart mkfs_sb) = zero_block;
  im_used b : 0 <= b < FSSIZE -> used mkfs_sb V b = bool_decide (b < free_block (made files));
  im_blocks : blocks_ok mkfs_sb [] V;
  im_ok i ip : 1 <= i < free_inode (made files) -> i_dev ip = ROOTDEV -> file_ok mkfs_sb V (disk_inode mkfs_sb V i ip);
  im_apart i j k l : 1 <= i < free_inode (made files) -> 1 <= j < free_inode (made files) -> i <> j ->
    0 <= k <= MAXFILE -> 0 <= l <= MAXFILE -> faddr V (dino V i) k <> 0 -> faddr V (dino V i) k <> faddr V (dino V j) l;
  im_root : let ino := dino V ROOTINO in let n := Z.of_nat (length (dir_entries files)) in
    i_type ino = T_DIR /\ i_nlink ino = 1 /\ i_size ino = round_size n /\ fread V ino 0 n = dir_entries files /\
    (no_holes V ino (i_size ino) <-> n mod BSIZE <> 0);
  im_file n f : files !! n = Some f -> let ino := dino V (2 + Z.of_nat n) in
    i_type ino = T_FILE /\ i_nlink ino = 1 /\ fcontent V ino = host_content f /\ no_holes V ino (i_size ino)
}.

Section final.
Context (files : list host_file) (V V' : Z -> list Z).
Hypothesis R : mk_rep V (made files).
Hypothesis Fn : finished V (made files) V'.

Lemma final_space : nmeta <= free_block (made files) <= FSSIZE.
Proof. apply (mi_F _ _ _ _ (mf_inv _ _ _ (mr_fs _ _ R))). Qed.

Lemma final_used b : 0 <= b < FSSIZE -> used mkfs_sb V' b = bool_decide (b < free_block (made files)).
Proof.
  intros Hb. pose proof final_space as HF. change FSSIZE with 2000 in *. change nmeta with 47 in *. unfold used.
  assert (BBLOCK b mkfs_sb = 46) as ->.
  { unfold BBLOCK. change (sb_bmapstart mkfs_sb) with 46. change BPB with 8192. rewrite Z.div_small by lia. done. }
  rewrite Z.mod_small by (change BPB with 8192; lia). rewrite (fn_bits _ _ _ Fn).
  rewrite (proj2 (bits_spec (Z.to_nat (free_block (made files))) ltac:(change BPB with 8192; lia))) by lia.
  by rewrite Z2Nat.id by lia.
Qed.

Lemma final_blocks : blocks_ok mkfs_sb [] V'.
Proof.
  pose proof final_space as HF. change FSSIZE with 2000 in *. change nmeta with 47 in *. split.
  - intros b Hb. change (data_start mkfs_sb) with 47 in Hb. rewrite final_used by (change FSSIZE with 2000; lia).
    by rewrite bool_decide_true by lia.
  - intros n Hn. by apply elem_of_nil in Hn.
  - intros n Hn. by apply elem_of_nil in Hn.
Qed.

Lemma final_range i k : 1 <= i < free_inode (made files) -> 0 <= k <= MAXFILE -> faddr V' (dino V' i) k <> 0 ->
  47 <= faddr V' (dino V' i) k < free_block (made files).
Proof.
  intros Hi Hk. rewrite (proj1 (fn_addr _ _ _ Fn i k Hi Hk)).
  apply (mi_range _ _ _ _ (mf_inv _ _ _ (mr_fs _ _ R)) i k Hi Hk).
Qed.

Lemma final_ok i ip :
  1 <= i < free_inode (made files) -> i_dev ip = ROOTDEV -> file_ok mkfs_sb V' (disk_inode mkfs_sb V' i ip).
Proof.
  intros Hi Hdev. pose proof final_space as HF. split; [done| | |].
  - apply (length_dino_addrs V' i).
  - intros k Hk Hnz. pose proof (final_range i k Hi Hk Hnz) as Hr.
    change (faddr V' (disk_inode mkfs_sb V' i ip) k) with (faddr V' (dino V' i) k) in *.
    change (data_start mkfs_sb) with 47. change (sb_size mkfs_sb) with FSSIZE. split; [lia|].
    rewrite final_used by lia. by rewrite bool_decide_true by lia.
  - intros k l Hk Hl. change (faddr V' (dino V' i) k <> 0 -> faddr V' (dino V' i) k = faddr V' (dino V' i) l -> k = l).
    rewrite (proj1 (fn_addr _ _ _ Fn i k Hi Hk)), (proj1 (fn_addr _ _ _ Fn i l Hi Hl)). intros Hnz E.
    by apply (mi_inj _ _ _ _ (mf_inv _ _ _ (mr_fs _ _ R)) i i k l).
Qed.

Lemma final_apart i j k l :
  1 <= i < free_inode (made files) -> 1 <= j < free_inode (made files) -> i <> j ->
  0 <= k <= MAXFILE -> 0 <= l <= MAXFILE -> faddr V' (dino V' i) k <> 0 -> faddr V' (dino V' i) k <> faddr V' (dino V' j) l.
Proof.
  intros Hi Hj Hne Hk Hl. rewrite (proj1 (fn_addr _ _ _ Fn i k Hi Hk)), (proj1 (fn_addr _ _ _ Fn j l Hj Hl)). intros Hnz E.
  by destruct (mi_inj _ _ _ _ (mf_inv _ _ _ (mr_fs _ _ R)) i j k l Hi Hj Hk Hl Hnz E).
Qed.

(** the blocks of an inode, with the content they had *)
Lemma final_content i : 1 <= i < free_inode (made files) ->
  fcontent V' (dino V i) = fcontent V (dino V i) /\ no_holes V' (dino V i) (i_size (dino V i)).
Proof.
  intros Hi. pose proof (mr_fs _ _ R) as HF.
  assert (i_addrs (dino V' i) = i_addrs (dino V i)) as Ea.
  { rewrite (fn_dino _ _ _ Fn i Hi). by destruct (decide (i = ROOTINO)) as [->|]. }
  assert (forall k, faddr V' (dino V' i) k = faddr V' (dino V i) k) as Hsame by (intros k; unfold faddr, fblock, ind_block; by rewrite Ea).
  destruct (content_same V V' (dino V i)) as (C & N & _); [| |by apply (mf_size _ _ _ HF)| |done].
  - intros k Hk. rewrite <-Hsame. by apply (fn_addr _ _ _ Fn).
  - intros k Hk. by apply (fn_addr _ _ _ Fn).
  - apply pres_no_holes; [by apply (mf_size _ _ _ HF)|by apply (mf_pres _ _ _ HF)].
Qed.

Lemma final_file n f : files !! n = Some f -> let ino := dino V' (2 + Z.of_nat n) in
  i_type ino = T_FILE /\ i_nlink ino = 1 /\ fcontent V' ino = host_content f /\ no_holes V' ino (i_size ino).
Proof.
  intros Hn. assert (made files !! S n = Some (T_FILE, host_content f)) as HL.
  { unfold made. rewrite lookup_cons. apply list_lookup_fmap_Some. by exists f. }
  pose proof (inode_of _ _ _ HL) as Hi. replace (1 + Z.of_nat (S n)) with (2 + Z.of_nat n) in * by lia.
  destruct (mr_file _ _ R _ _ HL) as (T & N & C). replace (1 + Z.of_nat (S n)) with (2 + Z.of_nat n) in * by lia.
  destruct (final_content _ Hi) as [C' N']. cbv zeta. rewrite (fn_dino _ _ _ Fn _ Hi).
  rewrite decide_False by (change ROOTINO with 1; lia). rewrite C'. repeat split; assumption.
Qed.

Lemma final_root : Z.of_nat (length (dir_entries files)) < MAXFILE * BSIZE ->
  let ino := dino V' ROOTINO in let n := Z.of_nat (length (dir_entries files)) in
  i_type ino = T_DIR /\ i_nlink ino = 1 /\ i_size ino = round_size n /\ fread V' ino 0 n = dir_entries files /\
  (no_holes V' ino (i_size ino) <-> n mod BSIZE <> 0).
Proof.
  intros Hsmall. assert (made files !! 0%nat = Some (T_DIR, dir_entries files)) as HL by done. pose proof (inode_of _ _ _ HL) as Hi.
  destruct (mr_file _ _ R _ _ HL) as (T & N & C). pose proof (rep_size _ _ _ _ R HL) as Es. cbn [fst snd] in *. unfold flen in Es.
  cbn [snd] in Es. change (1 + Z.of_nat 0) with ROOTINO in *. destruct (final_content _ Hi) as [C' N'].
  pose proof (mf_size _ _ _ (mr_fs _ _ R) _ Hi) as Hsz. pose proof (mf_pres _ _ _ (mr_fs _ _ R) _ Hi) as Hp.
  pose proof (fn_addr _ _ _ Fn ROOTINO) as Ha. cbv zeta. set (n := Z.of_nat (length (dir_entries files))) in *.
  rewrite Es in N', Hsz, Hp. rewrite (fn_dino _ _ _ Fn _ Hi), decide_True in * by done.
  set (ino := i_set_size _ _) in *. assert (i_size ino = round_size n) as Er by (change (i_size ino) with (round_size (i_size (dino V ROOTINO))); by rewrite Es).
  split; [done|]. split; [done|]. split; [done|]. split; [by rewrite <-C, <-C'; unfold fcontent; rewrite Es|].
  rewrite Er. unfold round_size. pose proof (Z.div_mod n BSIZE ltac:(done)) as Hdm.
  pose proof (Z.mod_pos_bound n BSIZE ltac:(done)) as Hm. change BSIZE with 1024 in *. split.
  - intros Hh E0. assert (0 <= n / 1024 < MAXFILE) as Hk by (change MAXFILE with 268 in *; lia).
    specialize (Hh (n / 1024) ltac:(lia) ltac:(change BSIZE with 1024; lia)). rewrite <-faddr_block in Hh by lia.
    rewrite (proj1 (Ha (n / 1024) Hi ltac:(lia))) in Hh. apply Hp in Hh; [|lia]. unfold present in Hh.
    rewrite decide_False in Hh by lia. change BSIZE with 1024 in Hh. lia.
  - intros Hne k Hk Hlt. apply (N' k); [done|]. change BSIZE with 1024 in *. lia.
Qed.

Lemma final_image : Z.of_nat (length (dir_entries files)) < MAXFILE * BSIZE -> fs_image files V'.
Proof.
  intros Hsmall. split; [| |apply final_used|apply final_blocks|apply final_ok|apply final_apart|by apply final_root|apply final_file].
  - rewrite (fn_meta _ _ _ Fn) by (change nmeta with 47; lia). vm_compute. reflexivity.
  - change (sb_logstart mkfs_sb) with 2. by rewrite (fn_meta _ _ _ Fn) by (change nmeta with 47; lia).
Qed.
End final.

(** mkfs after the super block has been written *)
Definition mkfs_files (files : list host_file) : MK unit :=
  let! rootino := mk_ialloc T_DIR in
  assert_ (rootino =? ROOTINO) "rootino == ROOTINO" ;;
  iappend rootino (mk_dirent rootino (bytes_of_string ".")) ;;
  iappend rootino (mk_dirent rootino (bytes_of_string "..")) ;;
  forM_ files (mk_file rootino) ;;
  let! din := rinode rootino in
  winode rootino (i_set_size (fun _ => xint (u32 ((xint (i_size din) / BSIZE + 1) * BSIZE))) din) ;;
  let! used := gets m_freeblock in
  mk_balloc (s32 used).

Lemma seq_split (m1 m2 k : MK unit) s s' : (m1 ;; m2) s = Ok tt s' -> (m1 ;; m2 ;; k) s = k s'.
Proof.
  intros E. apply bind_ok_inv in E as ([] & s1 & E1 & E2). erewrite bind_ok by exact E1. by erewrite bind_ok by exact E2.
Qed.

Lemma mkfs_split files s s' : mkfs_init s = Ok tt s' -> mkfs files s = mkfs_files files s'.
Proof. exact (seq_split _ _ (mkfs_files files) s s'). Qed.

Lemma mkfs_files_run files s :
  image s [] -> Forall host_ok files -> (length files <= 198)%nat -> free_block (made files) <= FSSIZE ->
  exists s1, image s1 (made files) /\ mkfs_files files s = mkfs_end s1.
Proof.
  intros HI Hok Hnum Hfit. destruct (ialloc_image s [] T_DIR HI) as (s1 & E1 & I1); [done|done|].
  destruct (iappend_image s1 _ 0 T_DIR [] (mk_dirent ROOTINO (bytes_of_string ".")) I1) as (s2 & E2 & I2);
    [reflexivity|vm_compute; discriminate|vm_compute; discriminate|].
  destruct (iappend_image s2 _ 0 T_DIR (mk_dirent ROOTINO (bytes_of_string ".")) (mk_dirent ROOTINO (bytes_of_string "..")) I2) as (s3 & E3 & I3);
    [reflexivity|vm_compute; discriminate|vm_compute; discriminate|].
  destruct (files_image files s3 [] I3 Hok Hnum Hfit) as (s4 & E4 & I4). exists s4. split; [done|].
  unfold mkfs_files. erewrite bind_ok by exact E1. change (free_inode []) with ROOTINO.
  change (ROOTINO =? ROOTINO) with true. unfold assert_ at 1. rewrite bind_ret.
  erewrite bind_ok by exact E2. erewrite bind_ok by exact E3. by erewrite bind_ok by exact E4.
Qed.

(** C19: mkfs on a command line whose files fit writes an image that is a file
    system of the kernel: the super block describes the layout, the log is
    empty, exactly the blocks below freeblock are marked in the bitmap, the
    block maps satisfy the invariants of the kernel's bmap, no two files share
    a block, every file has the bytes of its host file and the root directory
    has their entries.  The root directory has an unallocated last block
    exactly when its entries end at a block boundary. *)
Theorem mkfs_correct files :
  Forall host_ok files -> (length files <= 198)%nat -> free_block (made files) <= FSSIZE ->
  exists s, mkfs files mkfs_start = Ok tt s /\ length (m_img s) = Z.to_nat FSSIZE /\ fs_image files (mview (m_img s)).
Proof.
  intros Hok Hnum Hfit. destruct init_image as (s0 & E0 & I0).
  destruct (mkfs_files_run files s0 I0 Hok Hnum Hfit) as (s1 & (V & A & R) & E1).
  destruct (mkfs_end_run s1 V _ T_DIR _ A R eq_refl) as (s2 & V' & E2 & A' & Fn).
  exists s2. split; [by rewrite (mkfs_split _ _ _ E0), E1|]. split; [apply (ma_len _ _ _ _ A')|].
  rewrite (ma_view _ _ _ _ A'). apply (final_image files V); [done|done|].
  rewrite (length_dir _ Hok). change (MAXFILE * BSIZE) with 274432. lia.
Qed.

(** a host with two files, the second of two blocks *)
Definition demo_files : list host_file :=
  [mkhost (bytes_of_string "README") (Some [bytes_of_string "xv6"]);
   mkhost (bytes_of_string "user/_cat") (Some [replicate 1024 7; replicate 100 9])].

Lemma mkfs_correct_witness : exists s, mkfs demo_files mkfs_start = Ok tt s /\
  length (m_img s) = Z.to_nat FSSIZE /\ fs_image demo_files (mview (m_img s)).
Proof.
  apply (mkfs_correct demo_files).
  - repeat constructor; try (by vm_compute); try (by eexists); try (apply (bool_decide_eq_true_1 _); vm_compute; reflexivity).
  - vm_compute. lia.
  - vm_compute. discriminate.
Defined.
